(* ===== verification/_CoqProject ===== *)
-Q . S2P
Prelude.v
JsNumber.v
JsInteger.v
JsRounding.v
JsString.v
JsValue.v
JsonText.v
JsDigits.v
Base64.v
Auth.v
Http.v
Session.v
Proxy.v
SessionLaws.v
ProxyLaws.v
OAuth.v
Routes.v
Urls.v
Browser.v
Site.v
Commands.v
RenderModel.v
Renderer.v
RenderLaws.v
Copilot.v
Telemetry.v
Uuid.v
Devices.v
AuditTrail.v
Client.v
AuthState.v
Dashboard.v
DashboardLaws.v
Pairing.v
Explorer.v
ExplorerLaws.v
Loader.v
Tables.v
DevicePage.v
Dispatching.v
OperatorConsole.v
DispatchPage.v
HistoryPage.v
Scheduling.v
AppLock.v
AppLockManager.v
AppLockLaws.v
Requests.v
Settings.v
SettingsLaws.v
Webhooks.v
WebhooksLaws.v
TelemetryPage.v
TelemetryPageLaws.v
DeviceDetail.v
DeviceDetailLaws.v
DeviceDrawer.v
DeviceDrawerLaws.v
ResultsPage.v
AuditPages.v
AuditPagesLaws.v
SystemHealth.v
Feeds.v
Alerts.v
Notifications.v
Viewer.v
MobileDevices.v
SignInPage.v
CopilotPanel.v
Shell.v
CopilotCards.v
Sections.v
Profile.v
Links.v
EndToEnd.v
