(* ===== verification/Prelude.v ===== *)
(** * Quoodle control-plane UI: a verification development

    Quoodle manages a fleet of devices: agents talk to a gateway, the gateway
    to a control plane, and people to the control plane through a web
    application, src/quoodle-control-plane-ui, a Next.js program in
    TypeScript.  This development models that application below its markup.
    All paths here are relative to src/quoodle-control-plane-ui/.

    ** The program

    A browser holds a session as four cookies (access token, refresh token,
    session id, role).  src/middleware.ts guards every page by them.  The
    handlers under src/app/api run on the server: those under auth establish,
    refresh, read and end a session, and all others forward the browser's
    request to the control plane through one authenticated proxy
    (src/app/api/devices/_shared.ts), which refreshes an expired token once
    and retries once.  In the browser, src/lib turns command rows and agent
    payloads of any shape into what the pages show, and the copilot client
    (src/app/device-detail/components/copilot) talks to the AI service.
    Components keep state of their own between requests: who is signed in
    (src/contexts/AuthContext.tsx), what the dashboard shows
    (src/app/dashboard/hooks/useDashboardData.ts), the pairing of a device
    (src/components/DevicePairingModal.tsx) and the explorer of a file
    listing (src/components/results/CommandResultPresentation.tsx).  The
    pages of devices, dispatched commands, history and schedules and the
    operator's console poll the handlers and abort a load that a newer one
    overtakes; forms and modals on them send commands and schedules.  The
    pages of settings, webhooks, telemetry and one device guard their loads
    in ways of their own, or not at all, and change what they show by
    requests of their own; the app lock (a panel on the page of a device and
    a section of the settings) edits the policy of blocked programs.  So do
    the drawer of a device, the pages of command results, the audit trail,
    compliance, system health, alerts, notifications and mobile devices, the
    viewer's console, the panel of the copilot and the page for signing in.
    Around them all is a frame with the menu of the user's role and the
    theme (src/components, src/contexts).  A request of a page passes the
    guard and the handler of the directory its address names, and its answer
    comes back with cookies for the browser.

    ** Files

    - [Prelude]: notations for the operators of the language, generic lemmas.
    - [JsNumber]: binary64 numbers, on the standard library's SpecFloat, with
      the printing and rounding the code uses.
    - [JsInteger]: the doubles that are safe integers, on which addition and
      comparison are those of Z.
    - [JsRounding]: rounding does not pass a bound, so quotients of counts and
      percentages stay on their scale.
    - [JsString]: strings (code units in the Latin-1 range) and the methods
      the code calls.
    - [JsValue]: dynamic values, objects with Object.prototype behind them,
      String, Number, JSON.stringify and JSON.parse; exceptions as [res].
    - [JsonText]: what JSON.stringify writes JSON.parse reads back.
    - [JsDigits]: the text of an integer below 10^15 is its decimal digits,
      and reads back.
    - [Base64]: UTF-8 and base64url, with their round trip.
    - [Auth]: src/lib/auth.ts, src/middleware.ts and the permission table of
      src/contexts/AuthContext.tsx (Modules Roles, Permissions, Middleware).
    - [Http]: handlers as interaction trees [io] (return, throw, fetch), the
      class [Upstream] of servers, runs with their trace and outcome, and the
      requests and responses of Next.js.
    - [Session]: src/app/api/auth/_shared.ts and the routes me, refresh,
      logout, request-otp and verify-otp.
    - [Proxy]: src/app/api/devices/_shared.ts.
    - [SessionLaws]: the class [SessionRoute], what a route promises about the
      session cookies, with an instance per session route.
    - [ProxyLaws]: the proxy as a refinement of an abstract conversation.
    - [OAuth]: src/app/api/auth/google/start and callback.
    - [Routes]: all other handlers under src/app/api, and the table
      [data_route] of the endpoint each one stands for.
    - [Urls]: addresses and search parameters as the URL standard reads them,
      with the round trips of what the code writes, and the path a data route
      asks for once dot segments are resolved.
    - [Browser]: the cookie store, and a step relation in which requests are
      sent, answered, lost and interleaved with the upstream free to do
      anything.
    - [Site]: the deployed site: the table of the route files by their
      directories, the guard, the handlers and the cookies as one [Upstream]
      that pages run against ([site]).
    - [Commands]: src/lib/commandMethodResolver.ts, commandParams.ts and
      commandResults.ts (Modules Resolver, Params, Results).
    - [RenderModel], [Renderer], [RenderLaws]: src/lib/resultRenderer.ts, its
      data and readers, its builders, and their laws.
    - [Copilot]: types.ts and api.ts of the copilot.
    - [Telemetry]: src/lib/telemetry.ts.
    - [Uuid]: src/lib/uuid.ts.
    - [Devices]: src/lib/dateTime.ts (Module DateTime) and
      src/app/device-management/lib/deviceManagementData.ts (Module Rows).
    - [AuditTrail]: src/components/AuditTrailSection.tsx, its filters, counts
      and CSV export.
    - [Client]: what the components share: reading payloads defensively,
      local times, sorting by time, requests to the handlers.
    - [AuthState]: the provider of src/contexts/AuthContext.tsx.
    - [Dashboard], [DashboardLaws]: useDashboardData.ts, the readers and the
      paging of its four fetches, the snapshot, and the hook as transitions
      of [HookState]; then its laws.
    - [Pairing]: DevicePairingModal.tsx; [State] is the component's state,
      [Machine] adds the requests in flight, and [fires] is one event
      (a click, a timer, an answer) with the effects React runs after it.
    - [Explorer], [ExplorerLaws]: CommandResultPresentation.tsx: paths, the
      listing, the tree, navigation ([Nav]), lazy loading ([Hydration] and
      the module-level [LazyGate]), tabs and tables; then their laws.
    - [Loader]: the protocol by which the pages load and poll, with the class
      [Page] of what a page does with answers and clicks, its refinement of a
      view ([view]) without flags and controllers, and the class [QuietAbort]
      of the pages on which only the newest load counts.
    - [Tables]: selections, pages and sorted columns.
    - [DevicePage]: src/app/device-management/components/
      DeviceManagementContent.tsx, an instance of [Page].
    - [Dispatching]: the form of src/app/command-dispatch/components/
      DispatchCommandModal.tsx.
    - [OperatorConsole]: src/app/operator-console/components/
      OperatorDashboard.tsx, its overview (an instance of [Page]), feed and
      alerts, and its dispatch modal, where [fires] is one event.
    - [DispatchPage]: CommandDispatchContent.tsx and
      CommandDispatchAuditTrail.tsx beside the form, two instances of [Page].
    - [HistoryPage]: src/app/command-history/components/
      CommandHistoryContent.tsx, an instance of [Page]; then the laws of both
      lists of commands.
    - [Scheduling]: src/app/command-scheduling/components/
      CommandSchedulingContent.tsx, an instance of [Page].
    - [AppLock], [AppLockManager], [AppLockLaws]:
      src/app/device-detail/components/DeviceAppLockQuickPanel.tsx,
      src/app/settings/components/AppLockManagerSection.tsx, and their laws.
    - [Requests]: responses as the requestJson of the settings and the
      webhooks tells them apart, and what a refusal says.
    - [Settings], [SettingsLaws]: src/app/settings/components/
      SettingsContent.tsx.  A [Change] is one handler that sends; [handler]
      gives its request, what its answer does and its notification.  [step]
      interleaves loads, edits, changes and answers; the rows that edit in
      place are records of their own.
    - [Webhooks], [WebhooksLaws]: src/app/webhooks/components/
      WebhooksContent.tsx.  A task of a [Run] keeps the [Closure] of the
      render that started it, and [effects] starts the loads a change of the
      state asks for.
    - [TelemetryPage], [TelemetryPageLaws]: src/app/telemetry-monitoring/
      components/TelemetryContent.tsx.
    - [DeviceDetail], [DeviceDetailLaws]: src/app/device-detail/components/
      DeviceDetailPageContent.tsx.
    - [DeviceDrawer], [DeviceDrawerLaws]: src/app/device-management/
      components/DeviceDetailDrawer.tsx.
    - [ResultsPage]: src/app/command-results/components/
      CommandResultsContent.tsx; [step] interleaves listings, details and
      clicks.
    - [AuditPages], [AuditPagesLaws]: src/app/audit/components/
      AuditContent.tsx and src/app/compliance/components/
      ComplianceContent.tsx, instances of [Page] whose overtaken loads end
      without a trace ([quiet_step]).
    - [SystemHealth]: src/app/system-health/components/
      SystemHealthContent.tsx.
    - [Feeds]: the protocol of the pages whose loads are never aborted, with
      the class [FeedPage] of what a page does with answers, clicks and the
      ends of its requests, and the class [FeedInvariant] of what every run
      of it keeps.
    - [Alerts], [Notifications], [Viewer], [MobileDevices]: AlertsContent.tsx
      with AlertDetailDrawer.tsx, NotificationsContent.tsx,
      ViewerDashboard.tsx and MobileDevicesContent.tsx under src/app,
      instances of both.
    - [SignInPage]: src/app/sign-up-login-screen/components/LoginContent.tsx,
      and its composition with the verify route and the guard.
    - [CopilotPanel]: src/app/device-detail/components/
      DeviceHealthCopilotPanel.tsx, on the client of [Copilot].
    - [Shell]: Sidebar.tsx, Topbar.tsx and AppLayout.tsx (Module Navigation),
      ThemeContext.tsx (Theming), LiveAlertFeed.tsx (LiveFeed),
      ExportModal.tsx (Exporting) and the timeline of
      CommandDetailPanel.tsx (Timeline).
    - [CopilotCards]: CopilotArtifactCard.tsx, CopilotEvidenceChips.tsx,
      CopilotTranscript.tsx, CopilotStateNotice.tsx and the keys of
      CopilotComposer.tsx, what is read of a conversation.
    - [Sections]: the controls of AuditTrailSection.tsx (Module TrailSection),
      src/app/device-management/components/DeviceManagementAuditTrail.tsx
      (DeviceTrail, an instance of [Page]), src/app/dashboard/page.tsx
      (Overview) and src/components/ui/AppImage.tsx (Picture).
    - [Profile]: src/app/profile/components/ProfileContent.tsx.
    - [Links]: [page_sends], what the pages send for their data and the
      endpoint of the control plane each request is meant for.
    - [EndToEnd]: programs of pages run against the site, and this against
      the control plane.

    Definitions keep the names of the source; a part of a function that is a
    definition of its own has a name in lower case with underscores, and a
    handler is named after its route and method ([device_GET]).

    ** What is shown

    - The guard: which requests pass, that redirects never chain, and that
      pages and permissions grow with the role ([Auth]).
    - The proxy: it refines the conversation, sends at most three requests,
      all its own, hands every rotated token on, and keeps the upstream's
      status, message and fields ([ProxyLaws]).
    - The routes: every one stays on its endpoint whatever identifiers it is
      given, unless one is a dot segment ([Urls]), and file listings are
      bounded ([Routes]).
    - Sessions: the cookies stay coherent in every interleaving, signing in
      opens the home page and signing out ends the session ([Browser]); the
      OAuth callback exchanges a code exactly when it comes with the state in
      the cookie, and returns to the page the sign-in started from ([OAuth]).
    - Commands: validation decides the stated requirements, templates pass
      it, every row maps to a displayable one and merging invents nothing
      ([Commands]).
    - Results: rendering is total with the exceptions stated, and tables,
      blocks, listings and tabs are complete, ordered and bounded
      ([RenderLaws]).
    - The copilot: whatever the service answers, what is shown is well
      formed; documented payloads are read; errors are classified
      ([Copilot]).
    - Devices and telemetry: rows stay displayable and merging is stable, the
      audit trail is complete and in order ([Devices]); metrics stay on their
      scale and normalising a kernel event is stable ([Telemetry]);
      identifiers follow the UUID format ([Uuid]); an exported CSV reads back
      as the entries it was made from ([AuditTrail]).
    - Who is signed in: a user shown is the one whose role the same response
      stores for the guard ([AuthState]).
    - The dashboard: reading the devices ends and misses none, reading the
      commands is bounded and covers its window, the figures and lists say
      what they claim to, and whatever loads overlap, the newest that
      answered is shown ([DashboardLaws]).
    - Pairing: only a device the operator was shown and has named is
      confirmed, with the token of its session, and a detected device can be
      confirmed ([Pairing]).
    - The explorer: the history is consistent, listings are complete and in
      order, drawing the tree ends, and lazy loading asks for a folder at
      most once in five minutes and always ends ([ExplorerLaws]).
    - The pages that poll: whatever loads overlap, a page shows what the
      newest loads, the clicks and its treatment of an AbortError make of it;
      on those that ignore one no overtaken load changes what is shown
      ([Loader]; the operator's console is the exception, as its finding
      shows).
    - The page of devices: selection, pages and filters stay coherent, and a
      command goes to each selected device once ([DevicePage]).
    - Sending commands: the form sends exactly what passes validation, marked
      by the risk of the method ([Dispatching]); the operator's modal sends a
      method listed as risky only after its confirmation
      ([OperatorConsole]).
    - Lists of commands are complete and in order ([HistoryPage]), and a
      schedule is created as filled in, with at most one creation under way
      ([Scheduling]).
    - The app lock: a click does to the stored policy what it says, and leaves
      other apps as their rules have them ([AppLockLaws]).
    - The settings: one load at a time, drafts that match their members,
      boxes that toggle what they show, and failures that change nothing
      ([SettingsLaws]).
    - The webhooks: no request is sent that the page should not offer, secrets
      stay with their endpoint, and what each outcome does to the page
      ([WebhooksLaws]).
    - The page of telemetry: charts and feeds are complete, ordered, bounded
      and on their scale ([TelemetryPageLaws]).
    - The page of a device: exactly which commands the button sends, that
      polling ends and with what, and what a load shows when some of its
      answers fail ([DeviceDetailLaws]); the same of the drawer of a device
      ([DeviceDrawerLaws]).
    - Command results: whatever overlaps, the rows are those of the list, in
      order, and following the cursors page after page shows every command
      once ([ResultsPage]).
    - The audit trail, compliance and system health: what overlapping loads
      leave on the page, with the figures consistent ([AuditPagesLaws],
      [SystemHealth]).
    - The pages whose loads are not aborted: an indicator is on only while a
      load is under way ([Feeds]); a row waits only while its request does
      ([Alerts]), the badge is never too small ([Notifications]), scores stay
      on their scale ([Viewer]) and counts add up ([MobileDevices]).
    - Signing in end to end: the code typed reaches the control plane as it
      is, and if it is accepted the page opened next is one the guard lets
      pass, unless the session is denied again meanwhile ([SignInPage]).
    - The copilot's panel: one question at a time, under the device it is
      about ([CopilotPanel]); answers are shown without their marks, links
      stay on the site up to the finding on them ([CopilotCards]).
    - All together: every request of a page finds the handler of the endpoint
      it is meant for ([Links]); what a page causes at the control plane stays
      on the endpoints of its requests, a command arrives as the page meant
      it, and the device list of the dashboard is read in full through guard,
      route and proxy, tokens that expire at its requests included, beside
      other requests that leave the browser signed in ([EndToEnd]; that
      concurrent refreshes may not is [Browser.ConcurrentRefresh]).
    - Parts of pages: the rows and the button of a trail account for every
      entry, a pulse ends, a picture is exchanged at most once ([Sections]);
      the profile never has anything to revoke ([Profile]).
    - The frame: no link it shows to a role is closed to that role; the theme
      shown is the one chosen, the badge of the live feed is exact, the
      fields exported are those selected ([Shell]).

    Where the code falls short of what it means to do, a lemma exhibits the
    case: [Browser.PlainHttp], [Browser.LostRotation],
    [Browser.ConcurrentRefresh], [Routes.device_alerts_lose_rotation],
    [OAuth.sign_in_leaves_site], [OAuth.OAuthDemo.lost_exchange_keeps_state],
    [RenderLaws.renderer_throws],
    [RenderLaws.parent_of_absolute], [RenderLaws.section_ids_collide],
    [Copilot.evidence_leaves_site], [Copilot.numeric_band_throws],
    [AuditTrail.AuditDemo.csv_comma_shifts],
    [AuthState.late_refresh_restores_user],
    [DashboardLaws.DashboardDemo.paging_diverges], [late_completion_missed]
    and [feed_warns_by_id] beside it,
    [Pairing.PairingDemo.paired_modal_empty] and
    [late_confirmation_ends_new_session] beside it,
    [ExplorerLaws.failed_load_not_retried],
    [ExplorerLaws.ExplorerDemo.root_entry_loops],
    [Loader.slow_server_starves], [DevicePage.DeviceDemo.drawer_reopens],
    [overtaken_looks_empty] and [select_all_clears] beside it,
    [Dispatching.DispatchDemo.two_factor_letters] and
    [blank_params_refused] beside it,
    [OperatorConsole.OperatorDemo.former_name_unconfirmed] and
    [overtaken_reports_error] beside it,
    [HistoryPage.PagesDemo.retry_not_sensitive], [retry_sends_completed],
    [selection_outlives_list] and [durations_sort_as_text] beside it,
    [Scheduling.ScheduleDemo.shown_command_not_saved],
    [AppLockLaws.AppLockDemo.remove_enables], [block_enables_others],
    [long_ids_collide] and [other_names_lost] beside it,
    [SettingsLaws.SettingsDemo.comma_lost], [load_discards_edits],
    [poll_discards_typing], [created_twice] and [deleted_returns] beside it,
    [WebhooksLaws.WebhooksDemo.deselect_jumps], [stale_selection],
    [endpoint_created_twice], [old_secret_shown] and [last_answer_shown]
    beside it, [TelemetryPageLaws.TelemetryDemo.stale_load_reselects],
    [foreign_readings_shown] and [error_stays] beside it,
    [DeviceDetailLaws.DetailDemo.replay_not_sensitive],
    [failed_poll_offline], [rejected_trace_done], [trace_times_fixed] and
    [panel_mixed] beside it, and the lemmas at the end of [DeviceDrawerLaws],
    [ResultsPage], [AuditPagesLaws], [SystemHealth], [Alerts],
    [Notifications], [Viewer], [MobileDevices], [SignInPage] and
    [CopilotPanel] (in their Module of examples) and of the Modules LiveFeed,
    Exporting and Timeline of [Shell], [Sections.DeviceTrail.viewer_sees_no_failure]
    and [one_list_is_enough] beside it, [Sections.Overview.dismissed_for_good],
    [Sections.TrailSection.absent_actor_hides_all], and
    [Profile.name_is_read_once], [cancel_keeps_the_edit],
    [profile_has_nothing_to_revoke] and [two_factors_are_local] beside it.

    ** Parameters, bounds and limits

    The process environment is a function [env].  The control plane is any
    [Upstream]: nothing is assumed of it, and theorems about a run hold for
    each one; those on reading the fleet and the commands state which pages
    it sends.  Parsing of absolute URLs and of dates, the time zone, the
    collation of localeCompare, the labels of
    Intl.DateTimeFormat, the texts of toLocaleString and
    toLocaleDateString, random values and each reading of the clock are
    arguments of the definitions that use them; the only laws assumed of them
    are the hypotheses named in the sections that use them, and the
    demonstrations instantiate them.  The form of [Dispatching] is run by
    react-hook-form, which submits only values that pass the rules the code
    registers: this is the hypothesis [form_valid] of its theorem.  Of the
    framework, [Site] has the documented rules of routing; what a handler
    gets for a dynamic segment ([param]) and the answers to a request without
    a handler and to one whose handler throws are parameters, and [Links]
    assumes of [param] that a segment in which nothing is encoded is handed
    over as it is.  An identifier there consists of letters, digits, dashes
    and underscores and is none of the fixed names (capabilities, runs) that
    routes put in its place.

    [JSON.parse] recurses on fuel, twice the length of the text plus two,
    which [JsValue.parse_value_enough] shows to be enough.  The search for
    the decimal magnitude of a number starts at a lower bound at most a few
    powers off, and the shortest digits are searched up to 17, which always
    suffice for a binary64.  The loop of [fetchDevices] takes fuel, as it has
    no bound of its own: the number of pages is enough
    ([DashboardLaws.fetchDevices_complete]).  [fetchCommands] stops after its
    ten pages and the polling of a listing after the 90 rounds of its
    timeout.  Drawing the tree of the explorer takes fuel, one more than the
    length of the longest path ([ExplorerLaws.tree_terminates]).  Polling a
    command on the page of a device takes fuel 46, one more than the requests
    that fit into its 90 seconds when a timer waits at least the two seconds
    it is asked to ([DeviceDetailLaws.polling_ends]); so does the polling of
    the drawer ([DeviceDrawerLaws.drawer_wait_ends]).

    Of the services the theorems on the settings assume that an answer to a
    request about a member is about that member, those on the webhooks
    that number fields hold numbers, that on the results that the detail of a
    command is of that command, and that on the notifications that ids differ
    and a count of unread ones covers the list it comes with.  The panel of
    the copilot is followed while its device is not exchanged during a
    question; what happens otherwise is a lemma of its own.

    Strings are in the Latin-1 range, so case mapping and white space are
    those of that range.  Stack depth, memory and timing are not modelled:
    a timer may fire at any moment.  In [Loader] an aborted request rejects
    with an AbortError; elsewhere it is one that is never answered.  The
    pages read payloads at the types their code declares, all responses of a
    load in one step, and their notifications are modelled only where a
    definition returns them.  A component's handler runs to its next await
    in one step, and the effects that depend on what it changed run with it.
    A load of the drawer that was aborted has its requests rejected and reads
    no body.

    Not modelled are the markup, the charts, which only draw the series they
    are given, and the components that only turn their properties into markup
    (AppIcon.tsx, AppLogo.tsx and StatusBadge.tsx of src/components/ui); nor
    whether a menu is folded or a scroll position, on which nothing
    depends.  Signing in and out are not among the requests of [Links]; they
    are followed in [Browser] and [SignInPage].  The other programs of the repository are
    outside too: the control plane (PHP), the gateway and AI sidecar
    (Python), the agents, the kernel guard, the mobile client and the
    deployment files. *)

From Stdlib Require Export Ascii ZArith Lia.
From stdpp Require Export base list strings option.

(** ** Notation *)

Declare Scope js_scope.
Delimit Scope js_scope with js.
Open Scope js_scope.

(** JavaScript's strict equality on strings. *)
Infix "===" := String.eqb (at level 70, no associativity) : js_scope.
Notation "x !== y" := (negb (String.eqb x y)) (at level 70, no associativity) : js_scope.

(** [a ?? b] on a value that may be [null] or [undefined]. *)
Definition nullish {A} (o : option A) (d : A) : A :=
  match o with Some x => x | None => d end.
Notation "a ?? b" := (nullish a b) (at level 60, right associativity) : js_scope.

(** [a ?? b] where [b] may be nullish too. *)
Definition nullish_or {A} (o d : option A) : option A :=
  match o with Some x => Some x | None => d end.
Notation "a ??? b" := (nullish_or a b) (at level 60, right associativity) : js_scope.

(** A string is falsy exactly when it is empty. *)
Definition truthy_str (s : string) : bool := negb (s === "").

(** [a || b] on strings. *)
Definition or_str (a b : string) : string := if truthy_str a then a else b.

(** [a || b] where [a] is a string or nullish and [b] any value. *)
Definition or_else {A} (inj : string -> A) (a : option string) (b : A) : A :=
  match a with
  | Some s => if truthy_str s then inj s else b
  | None => b
  end.

(** ** Records *)

(** [r <| f := v |>] is [r] with another value in the field [f].  A record
    that is updated so declares its [Eta], the function that rebuilds it from
    its fields. *)
Class Eta (R : Type) := eta : R -> R.
Class Setter {R T : Type} (proj : R -> T) := set : (T -> T) -> R -> R.
Arguments set {R T} proj {_} f r /.

Ltac solve_setter :=
  match goal with
  | |- @Setter ?R ?T ?proj =>
      let e := constr:(_ : Eta R) in
      let e := eval hnf in e in
      match eval pattern proj in e with
      | ?g _ =>
          let t := eval cbv beta in (fun (f : T -> T) => g (fun r => f (proj r))) in
          exact t
      end
  end.

#[export] Hint Extern 0 (Setter _) => solve_setter : typeclass_instances.

Notation "r <| f := v |>" := (set f (fun _ => v) r)
  (at level 12, f at next level, v at level 200, left associativity,
   format "r  <|  f  :=  v  |>") : js_scope.

(** ** Automation *)

Create HintDb js discriminated.
Create Rewrite HintDb js.
#[export] Hint Constants Opaque : js.

(** Case analysis on every [if] and [match] of the goal and the context. *)
Ltac cases := repeat (case_match; simplify_eq/=; try done).

(** Turn the string tests of the code into equalities. *)
Ltac str_tests :=
  repeat match goal with
  | H : String.eqb _ _ = true |- _ => apply String.eqb_eq in H; subst
  | H : String.eqb _ _ = false |- _ => apply String.eqb_neq in H
  | H : negb _ = true |- _ => apply negb_true_iff in H
  | H : negb _ = false |- _ => apply negb_false_iff in H
  | H : orb _ _ = false |- _ => apply orb_false_iff in H as [? ?]
  | H : andb _ _ = true |- _ => apply andb_true_iff in H as [? ?]
  end.

(** ** Strings *)

(** Appending computes on a known head. *)
#[global] Arguments String.append !_ _ / : simpl nomatch.

Lemma truthy_str_spec s : truthy_str s = true <-> s <> "".
Proof. unfold truthy_str. rewrite negb_true_iff. apply String.eqb_neq. Qed.

Lemma truthy_str_false s : truthy_str s = false <-> s = "".
Proof. unfold truthy_str. rewrite negb_false_iff. apply String.eqb_eq. Qed.

Lemma or_str_nonempty a b : b <> "" -> or_str a b <> "".
Proof.
  intros Hb. unfold or_str. destruct (truthy_str a) eqn:E; [|done].
  by apply truthy_str_spec.
Qed.

#[export] Hint Resolve or_str_nonempty : js.
