(* ===== verification/JsNumber.v ===== *)
(** * JavaScript numbers

    IEEE 754 binary64 values as the Standard Library's [spec_float] at
    precision 53 and maximal exponent 1024, so that every operation rounds
    as the language does: comparisons, the [Math] functions, the
    conversions [Number(text)] and [String(number)] (shortest digits that
    read back, as ECMA-262 Number::toString asks) and [toFixed]. *)

From Stdlib Require Export SpecFloat.
From stdpp Require Import pretty.
From S2P Require Import Prelude.

Local Open Scope Z_scope.

Abbreviation num := spec_float.

#[global] Instance num_eq_dec : EqDecision num.
Proof. solve_decision. Defined.

Module Num.

(** ** Constants, classification, arithmetic *)

Definition nan : num := S754_nan.
Definition zero : num := S754_zero false.
Definition infinity : num := S754_infinity false.

(** The number nearest to an integer. *)
Definition of_Z (z : Z) : num := binary_normalize 53 1024 z 0 false.
Definition of_nat (n : nat) : num := of_Z (Z.of_nat n).

Definition is_nan (x : num) : bool :=
  match x with S754_nan => true | _ => false end.

(** [Number.isFinite] *)
Definition is_finite (x : num) : bool :=
  match x with S754_zero _ | S754_finite _ _ _ => true | _ => false end.

Definition lt (x y : num) : bool := SFltb x y.
Definition le (x y : num) : bool := SFleb x y.
Definition gt (x y : num) : bool := SFltb y x.
Definition ge (x y : num) : bool := SFleb y x.
Definition eqb (x y : num) : bool := SFeqb x y.

Definition add (x y : num) : num := SFadd 53 1024 x y.
Definition sub (x y : num) : num := SFsub 53 1024 x y.
Definition mul (x y : num) : num := SFmul 53 1024 x y.
Definition div (x y : num) : num := SFdiv 53 1024 x y.

(** A number is falsy when it is zero or NaN. *)
Definition truthy (x : num) : bool :=
  match x with S754_zero _ | S754_nan => false | _ => true end.

(** ** [Math] *)

Definition max (x y : num) : num :=
  if is_nan x || is_nan y then nan
  else if lt x y then y
  else if lt y x then x
  else match x with S754_zero true => y | _ => x end.

Definition min (x y : num) : num :=
  if is_nan x || is_nan y then nan
  else if lt x y then x
  else if lt y x then y
  else match y with S754_zero true => y | _ => x end.

(** The magnitude of a finite number as a fraction [p / q]. *)
Definition frac (m : positive) (e : Z) : Z * Z :=
  if 0 <=? e then (Zpos m * 2 ^ e, 1) else (Zpos m, 2 ^ (- e)).

(** A sign and a magnitude put back together; a zero keeps the sign. *)
Definition of_sign_Z (s : bool) (z : Z) : num :=
  if z =? 0 then S754_zero s else of_Z (if s then - z else z).

Definition trunc (x : num) : num :=
  match x with
  | S754_finite s m e => let '(p, q) := frac m e in of_sign_Z s (p / q)
  | _ => x
  end.

(** [Math.round]: to the nearest integer, ties towards positive infinity. *)
Definition round (x : num) : num :=
  match x with
  | S754_finite s m e =>
      let '(p, q) := frac m e in
      if s then of_sign_Z true (- ((2 * - p + q) / (2 * q)))
      else of_sign_Z false ((2 * p + q) / (2 * q))
  | _ => x
  end.

(** [Number.isInteger] *)
Definition is_integer (x : num) : bool :=
  match x with
  | S754_zero _ => true
  | S754_finite _ m e => let '(p, q) := frac m e in (p mod q) =? 0
  | _ => false
  end.

(** ** Decimal to binary *)

(** The double nearest to [m * 10 ^ e10] (ties to even).  Outside the range
    of the doubles the answer is an infinity or a zero, decided on the
    number of digits so that the power of ten stays small. *)
Definition of_decimal (s : bool) (m e10 : Z) : num :=
  match m with
  | Zpos p =>
      let d := Z.log2 m * 30103 / 100000 in
      if 311 <? d + e10 then S754_infinity s
      else if d + e10 <? -330 then S754_zero s
      else if 0 <=? e10 then binary_round 53 1024 s (Z.to_pos (m * 10 ^ e10)) 0
      else let '(q, e, l) := SFdiv_core_binary 53 1024 m 0 (10 ^ (- e10)) 0 in
           binary_round_aux 53 1024 s q e l
  | _ => S754_zero s
  end.

(** ** Binary to decimal *)

Definition pow10_le (n p q : Z) : bool :=
  if 0 <=? n then 10 ^ n * q <=? p else q <=? p * 10 ^ (- n).

(** The [n] with [10 ^ (n - 1) <= p / q < 10 ^ n], searched upwards from a
    lower bound read off the binary logarithms. *)
Fixpoint magnitude_from (fuel : nat) (n p q : Z) : Z :=
  match fuel with
  | O => n
  | S f => if pow10_le n p q then magnitude_from f (n + 1) p q else n
  end.
Definition magnitude (p q : Z) : Z :=
  magnitude_from 8 ((Z.log2 p - Z.log2 q - 1) * 30103 / 100000 - 1) p q.

Definition scaled_floor (p q k : Z) : Z :=
  if 0 <=? k then p * 10 ^ k / q else p / (q * 10 ^ (- k)).

(** Twice the distance from [c * 10 ^ -k] to [p / q], over a common
    denominator: only compared for the two neighbours of one value. *)
Definition scaled_distance (p q k c : Z) : Z :=
  if 0 <=? k then Z.abs (p * 10 ^ k - c * q) else Z.abs (p - c * q * 10 ^ (- k)).

(** Digits [c] and point position [n] of the shortest decimal that reads
    back as the magnitude [S754_finite false m e]. *)
Fixpoint shortest (fuel : nat) (k : Z) (m : positive) (e n p q : Z) : Z * Z * Z :=
  let lo := scaled_floor p q (k - n) in
  let hi := lo + 1 in
  let ok c := bool_decide (of_decimal false c (n - k) = S754_finite false m e) in
  let norm c := if c =? 10 ^ k then (c / 10, k, n + 1) else (c, k, n) in
  let pick := if scaled_distance p q (k - n) hi <? scaled_distance p q (k - n) lo
              then hi else lo in
  match fuel with
  | O => norm pick
  | S f =>
      if ok lo && ok hi then norm pick
      else if ok lo then norm lo
      else if ok hi then norm hi
      else shortest f (k + 1) m e n p q
  end.

Definition zeros (n : Z) : string :=
  String.string_of_list_ascii (repeat "0"%char (Z.to_nat n)).

Definition digits (z : Z) : string := pretty z.

(** The layout of Number::toString for digits [c] ([k] of them), point
    after the [n]-th. *)
Definition layout (c k n : Z) : string :=
  let ds := digits c in
  let take i := String.substring 0 (Z.to_nat i) ds in
  let drop i := String.substring (Z.to_nat i) (String.length ds) ds in
  let exponent := (if 0 <=? n - 1 then "+" else "-") +:+ digits (Z.abs (n - 1)) in
  if (k <=? n) && (n <=? 21) then ds +:+ zeros (n - k)
  else if (0 <? n) && (n <=? 21) then take n +:+ "." +:+ drop n
  else if (-6 <? n) && (n <=? 0) then "0." +:+ zeros (- n) +:+ ds
  else if k =? 1 then ds +:+ "e" +:+ exponent
  else take 1 +:+ "." +:+ drop 1 +:+ "e" +:+ exponent.

Definition to_string (x : num) : string :=
  match x with
  | S754_nan => "NaN"
  | S754_infinity s => (if s then "-" else "") +:+ "Infinity"
  | S754_zero _ => "0"
  | S754_finite s m e =>
      let '(p, q) := frac m e in
      let '(c, k, n) := shortest 16 1 m e (magnitude p q) p q in
      (if s then "-" else "") +:+ layout c k n
  end.

(** [toFixed(f)]: the integer nearest to [x * 10 ^ f], ties upwards in
    magnitude, written with [f] decimals; from 1e21 on it is [String(x)]. *)
Definition to_fixed (f : Z) (x : num) : string :=
  match x with
  | S754_nan => "NaN"
  | S754_infinity _ => to_string x
  | _ =>
      let '(s, p, q) :=
        match x with
        | S754_finite s m e => let '(p, q) := frac m e in (s, p, q)
        | _ => (false, 0, 1)
        end in
      if 10 ^ 21 * q <=? p then to_string x
      else
        let n := (2 * p * 10 ^ f + q) / (2 * q) in
        let sign := if s then "-" else "" in
        let ds := digits n in
        if f =? 0 then sign +:+ ds
        else
          let len := Z.of_nat (String.length ds) in
          let ds := if len <=? f then zeros (f + 1 - len) +:+ ds else ds in
          let len := String.length ds in
          sign +:+ String.substring 0 (len - Z.to_nat f) ds +:+ "."
            +:+ String.substring (len - Z.to_nat f) (Z.to_nat f) ds
  end.

(** ** The order *)

Lemma compare_sym x y : SFcompare y x = CompOpp <$> SFcompare x y.
Proof.
  destruct x as [[]|[]| |[] m1 e1], y as [[]|[]| |[] m2 e2]; try done; simpl;
    rewrite (Z.compare_antisym e1 e2); destruct (e1 ?= e2); try done; simpl;
    change (Pos.compare_cont Eq) with Pos.compare;
    rewrite (Pos.compare_antisym m1 m2); by destruct (m1 ?= m2)%positive.
Qed.

Lemma compare_some x y :
  is_nan x = false -> is_nan y = false -> is_Some (SFcompare x y).
Proof. by destruct x, y; eauto. Qed.

(** On numbers other than NaN the order is total. *)
Lemma order_cases x y :
  is_nan x = false -> is_nan y = false ->
  lt x y = true \/ lt y x = true \/ (lt x y = false /\ lt y x = false /\ le x y = true /\ le y x = true).
Proof.
  intros Hx Hy. unfold lt, le, SFltb, SFleb. rewrite (compare_sym x y).
  destruct (compare_some x y Hx Hy) as [[] ->]; simpl; auto 6.
Qed.

(** [lt] is a strict weak order on the numbers other than NaN. *)
Lemma lt_asym x y : lt x y = true -> lt y x = false.
Proof. unfold lt, SFltb. rewrite (compare_sym x y). by destruct (SFcompare x y) as [[]|]. Qed.

Lemma finite_lt s m e s' m' e' :
  lt (S754_finite s m e) (S754_finite s' m' e') = true <->
  match s, s' with
  | true, false => True
  | false, true => False
  | false, false => e < e' \/ (e = e' /\ Zpos m < Zpos m')
  | true, true => e' < e \/ (e = e' /\ Zpos m' < Zpos m)
  end.
Proof.
  unfold lt, SFltb. cbn. change (Pos.compare_cont Eq m m') with (m ?= m')%positive.
  destruct s, s'; try done; destruct (Z.compare_spec e e'); try (destruct (Pos.compare_spec m m'));
    cbn; split; intros; try done; try lia; subst; lia.
Qed.

Lemma lt_negtrans x y z :
  is_nan y = false -> lt x y = false -> lt y z = false -> lt x z = false.
Proof.
  intros Hy. destruct x as [[]|[]| |s1 m1 e1], y as [[]|[]| |s2 m2 e2], z as [[]|[]| |s3 m3 e3]; try done;
    try (destruct s1; done); try (destruct s2; done); try (destruct s3; done);
    try (destruct s1, s2; done); try (destruct s2, s3; done); try (destruct s1, s3; done).
  rewrite <- !not_true_iff_false, !finite_lt. destruct s1, s2, s3; try done; lia.
Qed.

Lemma lt_le x y : lt x y = true -> le x y = true.
Proof. unfold lt, le, SFltb, SFleb. by destruct (SFcompare x y) as [[]|]. Qed.

Lemma le_refl x : is_nan x = false -> le x x = true.
Proof. intros Hx. destruct (order_cases x x Hx Hx) as [H|[H|H]]; auto using lt_le; tauto. Qed.

Lemma le_not_nan x y : le x y = true -> is_nan x = false /\ is_nan y = false.
Proof. by destruct x, y. Qed.

(** [max] and [min] return one of their arguments, the right one. *)
Lemma max_cases x y :
  is_nan x = false -> is_nan y = false ->
  (max x y = x /\ le y x = true) \/ (max x y = y /\ le x y = true).
Proof.
  intros Hx Hy. unfold max. rewrite Hx, Hy. simpl.
  destruct (order_cases x y Hx Hy) as [H|[H|(H1&H2&H3&H4)]].
  - rewrite H. auto using lt_le.
  - rewrite H. destruct (lt x y) eqn:E; auto using lt_le.
  - rewrite H1, H2. destruct x as [[]| | |]; auto.
Qed.

Lemma min_cases x y :
  is_nan x = false -> is_nan y = false ->
  (min x y = x /\ le x y = true) \/ (min x y = y /\ le y x = true).
Proof.
  intros Hx Hy. unfold min. rewrite Hx, Hy. simpl.
  destruct (order_cases x y Hx Hy) as [H|[H|(H1&H2&H3&H4)]].
  - rewrite H. auto using lt_le.
  - rewrite H. destruct (lt x y) eqn:E; auto using lt_le.
  - rewrite H1, H2. destruct y as [[]| | |]; auto.
Qed.

(** [Math.max(lo, Math.min(hi, x))] *)
Definition clamp (lo hi x : num) : num := max lo (min hi x).

(** [x] lies in the closed interval, so in particular it is not NaN. *)
Definition within (lo hi x : num) : bool := le lo x && le x hi.

Lemma clamp_within lo hi x :
  le lo hi = true -> is_nan x = false -> within lo hi (clamp lo hi x) = true.
Proof.
  intros Hle Hx. destruct (le_not_nan _ _ Hle) as [Hlo Hhi].
  unfold within, clamp.
  destruct (min_cases hi x Hhi Hx) as [[-> H1]|[-> H1]];
    [destruct (max_cases lo hi Hlo Hhi) as [[-> H2]|[-> H2]]
    |destruct (max_cases lo x Hlo Hx) as [[-> H2]|[-> H2]]];
    rewrite ?Hle, ?H1, ?H2, ?le_refl; done.
Qed.

(** Inside the open interval clamping is the identity. *)
Lemma clamp_inside lo hi x :
  lt lo x = true -> lt x hi = true -> clamp lo hi x = x.
Proof.
  intros H1 H2. destruct (le_not_nan _ _ (lt_le _ _ H1)) as [Hlo Hx].
  destruct (le_not_nan _ _ (lt_le _ _ H2)) as [_ Hhi].
  assert (lt hi x = false) as H3.
  { unfold lt, SFltb in *. rewrite (compare_sym x hi).
    by destruct (SFcompare x hi) as [[]|]. }
  unfold clamp, max, min. rewrite Hlo, Hhi, Hx, H2, H3. simpl. by rewrite Hx, H1.
Qed.

Lemma finite_not_nan x : is_finite x = true -> is_nan x = false.
Proof. by destruct x. Qed.

(** ** Integers are numbers *)

Lemma shr_1_nonneg r : 0 <= shr_m r -> 0 <= shr_m (shr_1 r).
Proof. destruct r as [[|[]|[]] ? ?]; cbn; lia. Qed.

Lemma iter_shr_nonneg n r : 0 <= shr_m r -> 0 <= shr_m (SpecFloat.iter_pos shr_1 n r).
Proof.
  revert r. induction n as [n IH|n IH|]; intros r Hr; cbn; auto using shr_1_nonneg.
Qed.

Lemma shr_fexp_nonneg prec emax m e l : 0 <= m -> 0 <= shr_m (shr_fexp prec emax m e l).1.
Proof.
  intros Hm. unfold shr_fexp, shr.
  assert (0 <= shr_m (shr_record_of_loc m l)) by (by destruct l as [|[]]).
  destruct (_ - _); cbn; auto using iter_shr_nonneg.
Qed.

Lemma round_aux_not_nan prec emax s m e l :
  0 <= m -> is_nan (binary_round_aux prec emax s m e l) = false.
Proof.
  intros Hm. unfold binary_round_aux.
  pose proof (shr_fexp_nonneg prec emax m e l Hm) as H1.
  destruct (shr_fexp prec emax m e l) as [r1 e1]. cbn in H1.
  assert (0 <= round_nearest_even (shr_m r1) (loc_of_shr_record r1)) as H2.
  { unfold round_nearest_even. destruct (loc_of_shr_record r1) as [|[]]; try case_match; lia. }
  pose proof (shr_fexp_nonneg prec emax _ e1 loc_Exact H2) as H3.
  destruct (shr_fexp _ _ (round_nearest_even _ _) _ _) as [r2 e2]. cbn in *.
  destruct (shr_m r2); [done| |lia]. by case_match.
Qed.

Lemma of_Z_not_nan z : is_nan (of_Z z) = false.
Proof.
  unfold of_Z, binary_normalize, binary_round. destruct z as [|p|p]; [done|..];
    (destruct (shl_align _ _ _); by apply round_aux_not_nan).
Qed.

Lemma trunc_not_nan x : is_nan x = false -> is_nan (trunc x) = false.
Proof.
  destruct x as [| | |s m e]; try done. intros _. cbn. destruct (frac m e).
  unfold of_sign_Z. case_match; [done|]. apply of_Z_not_nan.
Qed.

(** ** Products and quotients of finite numbers are numbers *)

Lemma mul_not_nan x y : is_finite x = true -> is_finite y = true -> is_nan (mul x y) = false.
Proof.
  destruct x as [s| | |s m e], y as [s'| | |s' m' e']; try done; intros _ _.
  apply round_aux_not_nan. lia.
Qed.

Lemma aligned_nonneg m s :
  0 <= m -> 0 <= match s with 0 => m | Z.pos _ => Z.shiftl m s | Z.neg _ => 0 end.
Proof. destruct s; [done|by rewrite Z.shiftl_nonneg|done]. Qed.

Lemma div_not_nan x s m e : is_finite x = true -> is_nan (div x (S754_finite s m e)) = false.
Proof.
  destruct x as [s'| | |s' mx ex]; try done. intros _. unfold div. cbn [SFdiv].
  destruct (SFdiv_core_binary 53 1024 (Z.pos mx) ex (Z.pos m) e) as [[mz ez] lz] eqn:E.
  apply round_aux_not_nan. unfold SFdiv_core_binary in E.
  match type of E with context [Z.div_eucl ?a ?b] =>
    assert (0 <= a) as Ha by (by apply aligned_nonneg);
    assert (0 <= a / b) as Hq by (apply Z.div_pos; lia); unfold Z.div in Hq;
    destruct (Z.div_eucl a b) as [q r] end.
  by injection E as <- _ _.
Qed.

(** A number that compares equal to a non-zero one is that number. *)
Lemma compare_eq x s m e : SFcompare x (S754_finite s m e) = Some Eq -> x = S754_finite s m e.
Proof.
  destruct x as [[]|[]| |[] m' e'], s; try done; cbn;
    destruct (Z.compare_spec e' e) as [->| |]; try done;
    change (Pos.compare_cont Eq) with Pos.compare;
    destruct (Pos.compare_spec m' m) as [->| |]; done.
Qed.

(** Clamping from zero gives zero or a positive number within the bound. *)
Lemma clamp_positive hi y :
  le zero hi = true -> is_nan y = false ->
  clamp zero hi y = zero \/ (lt zero (clamp zero hi y) = true /\ le (clamp zero hi y) hi = true).
Proof.
  intros Hhi Hy. destruct (le_not_nan _ _ Hhi) as [_ Hn]. unfold clamp.
  assert (is_nan (min hi y) = false /\ le (min hi y) hi = true) as [Hm Hle].
  { destruct (min_cases hi y Hn Hy) as [[-> H]|[-> H]]; auto using le_refl. }
  unfold max. rewrite Hm. cbn [is_nan zero orb].
  destruct (lt zero (min hi y)) eqn:E; [by right|]. left. by destruct (lt (min hi y) zero).
Qed.

(** A positive number within the bound is left alone. *)
Lemma clamp_fixed hm he x (hi := S754_finite false hm he) :
  lt zero x = true -> le x hi = true -> clamp zero hi x = x.
Proof.
  intros H0 Hle. destruct (lt x hi) eqn:E; [by apply clamp_inside|].
  assert (x = hi) as ->; [|by unfold clamp, max, min, hi; cbn; rewrite Z.compare_refl, Pos.compare_cont_refl].
  apply compare_eq. unfold le, lt, SFleb, SFltb in *. fold hi. by destruct (SFcompare x hi) as [[]|].
Qed.

(** [Math.min(Math.max(x, lo), hi)] *)
Lemma min_max_within lo hi x :
  le lo hi = true -> is_nan x = false -> within lo hi (min (max x lo) hi) = true.
Proof.
  intros Hle Hx. destruct (le_not_nan _ _ Hle) as [Hlo Hhi]. unfold within.
  destruct (max_cases x lo Hx Hlo) as [[-> H1]|[-> H1]];
    [destruct (min_cases x hi Hx Hhi) as [[-> H2]|[-> H2]]
    |destruct (min_cases lo hi Hlo Hhi) as [[-> H2]|[-> H2]]];
    rewrite ?Hle, ?H1, ?H2, ?le_refl; done.
Qed.

(** [Math.max(lo, Math.min(x, hi))] *)
Lemma max_min_within lo hi x :
  le lo hi = true -> is_nan x = false -> within lo hi (max lo (min x hi)) = true.
Proof.
  intros Hle Hx. destruct (le_not_nan _ _ Hle) as [Hlo Hhi]. unfold within.
  destruct (min_cases x hi Hx Hhi) as [[-> H1]|[-> H1]];
    [destruct (max_cases lo x Hlo Hx) as [[-> H2]|[-> H2]]
    |destruct (max_cases lo hi Hlo Hhi) as [[-> H2]|[-> H2]]];
    rewrite ?Hle, ?H1, ?H2, ?le_refl; done.
Qed.

End Num.

#[export] Hint Resolve Num.finite_not_nan Num.clamp_within Num.lt_le Num.le_refl : js.
