(* ===== verification/JsInteger.v ===== *)
(** * Safe integers

    The doubles that stand for the integers below 2^53: on them [Num.of_Z]
    is exact, so that comparing and adding page numbers, counters and indices
    is integer arithmetic. *)

From S2P Require Import Prelude JsNumber.

Local Open Scope Z_scope.

(** ** Binary digits *)

Lemma digits2_bounds m : 2 ^ (Zpos (digits2_pos m) - 1) <= Zpos m < 2 ^ Zpos (digits2_pos m).
Proof.
  induction m as [m IH|m IH|]; cbn [digits2_pos]; [| |done];
    rewrite Pos2Z.inj_succ, Z.sub_1_r, Z.pred_succ, Z.pow_succ_r by lia;
    (replace (2 ^ Zpos (digits2_pos m)) with (2 * 2 ^ (Zpos (digits2_pos m) - 1)) in *
       by (rewrite <- Z.pow_succ_r by lia; f_equal; lia)); lia.
Qed.

Lemma digits2_unique m d : 0 < d -> 2 ^ (d - 1) <= Zpos m < 2 ^ d -> Zpos (digits2_pos m) = d.
Proof.
  intros Hd [H1 H2]. destruct (digits2_bounds m) as [H3 H4].
  assert (d - 1 < Zpos (digits2_pos m)) by (apply (Z.pow_lt_mono_r_iff 2); lia).
  assert (Zpos (digits2_pos m) - 1 < d) by (apply (Z.pow_lt_mono_r_iff 2); lia). lia.
Qed.

Lemma digits2_shift m M k :
  0 <= k -> Zpos m = Zpos M * 2 ^ k -> Zpos (digits2_pos m) = Zpos (digits2_pos M) + k.
Proof.
  intros Hk Hm. destruct (digits2_bounds M) as [H1 H2]. apply digits2_unique; [lia|].
  rewrite Hm. replace (Zpos (digits2_pos M) + k - 1) with (Zpos (digits2_pos M) - 1 + k) by lia.
  rewrite !Z.pow_add_r by lia. pose proof (Z.pow_pos_nonneg 2 k). nia.
Qed.

Lemma iter_double m d : Zpos (Pos.iter xO m d) = Zpos m * 2 ^ Zpos d.
Proof.
  induction d as [|d IH] using Pos.peano_ind; [cbn; lia|].
  rewrite Pos.iter_succ, Pos2Z.inj_succ, Z.pow_succ_r, Pos2Z.inj_xO by lia. lia.
Qed.

(** ** Exact rounding *)

Definition clear (m : Z) : shr_record := {| shr_m := m; shr_r := false; shr_s := false |}.

Lemma iter_pos_nat {A} (f : A -> A) p : forall x, SpecFloat.iter_pos f p x = Nat.iter (Pos.to_nat p) f x.
Proof.
  induction p as [p IH|p IH|]; intros x; cbn [SpecFloat.iter_pos]; [| |done];
    rewrite !IH, <- Nat.iter_add; [rewrite Nat.iter_swap, <- Nat.iter_succ|]; f_equal; lia.
Qed.

Lemma iter_shr_exact p m : 0 < m -> SpecFloat.iter_pos shr_1 p (clear (m * 2 ^ Zpos p)) = clear m.
Proof.
  intros Hm. rewrite iter_pos_nat, <- (positive_nat_Z p). generalize (Pos.to_nat p). intros n. revert m Hm.
  induction n as [|n IH]; intros m Hm; [change (clear (m * 1) = clear m); by rewrite Z.mul_1_r|].
  rewrite Nat2Z.inj_succ, Z.pow_succ_r, Z.mul_assoc by lia.
  rewrite Nat.iter_succ, IH by lia. rewrite Z.mul_comm. by destruct m.
Qed.

(** A mantissa and exponent in the normal form of binary64. *)
Definition normal (M : positive) (E : Z) : Prop :=
  Zpos (digits2_pos M) = 53 /\ -1074 <= E <= 971.

Lemma fexp_normal E : -1074 <= E -> fexp 53 1024 (53 + E) = E.
Proof. unfold fexp, emin. lia. Qed.

Lemma shr_fexp_exact m e M E :
  normal M E -> e <= E -> Zpos m = Zpos M * 2 ^ (E - e) ->
  shr_fexp 53 1024 (Zpos m) e loc_Exact = (clear (Zpos M), E).
Proof.
  intros [Hd HE] He Hm. unfold shr_fexp. cbn [shr_record_of_loc Zdigits2].
  rewrite (digits2_shift m M (E - e)), Hd by lia.
  replace (53 + (E - e) + e) with (53 + E) by lia. rewrite fexp_normal by lia.
  rewrite Hm. unfold shr. change (Build_shr_record ?m false false) with (clear m).
  destruct (E - e) as [|p|p] eqn:Ep; [| |lia]; f_equal; try lia.
  - by rewrite Z.mul_1_r.
  - by apply iter_shr_exact.
Qed.

Lemma round_aux_exact m e M E :
  normal M E -> e <= E -> Zpos m = Zpos M * 2 ^ (E - e) ->
  binary_round_aux 53 1024 false (Zpos m) e loc_Exact = S754_finite false M E.
Proof.
  intros HM He Hm. unfold binary_round_aux. rewrite (shr_fexp_exact m e M E) by done.
  cbn [clear shr_m loc_of_shr_record round_nearest_even].
  rewrite (shr_fexp_exact M E M E) by (try done; try lia; rewrite Z.sub_diag; lia).
  cbn [clear shr_m]. destruct HM as [_ [_ HE]].
  change (1024 - 53) with 971. by apply Z.leb_le in HE as ->.
Qed.

(** Rounding keeps a number that has a normal form, however it is written. *)
Lemma binary_round_exact m e M E :
  normal M E -> (e <= E /\ Zpos m = Zpos M * 2 ^ (E - e) \/ E < e /\ Zpos M = Zpos m * 2 ^ (e - E)) ->
  binary_round 53 1024 false m e = S754_finite false M E.
Proof.
  intros HM H. pose proof HM as [Hd HE]. unfold binary_round, shl_align.
  assert (Zpos (digits2_pos m) + e = 53 + E) as ->.
  { destruct H as [[He Hm]|[He Hm]].
    - rewrite (digits2_shift m M (E - e)) by lia. lia.
    - rewrite (digits2_shift M m (e - E)) in Hd by lia. lia. }
  rewrite fexp_normal by lia. destruct H as [[He Hm]|[He Hm]].
  - destruct (E - e) as [|p|p] eqn:Ep; [| |lia]; apply round_aux_exact; rewrite ?Ep; done || lia.
  - destruct (E - e) as [|p|p] eqn:Ep; [lia..|].
    apply round_aux_exact; [done|lia|]. rewrite iter_double, Z.sub_diag, Z.pow_0_r, Z.mul_1_r, Hm.
    do 2 f_equal. lia.
Qed.

(** ** Safe integers *)

Definition safe (z : Z) : Prop := 0 < z < 2 ^ 53.

(** The normal form of a positive integer. *)
Definition int_form (z : Z) (M : positive) (E : Z) : Prop :=
  Zpos (digits2_pos M) = 53 /\ -52 <= E <= 0 /\ Zpos M = z * 2 ^ (- E).

Lemma int_form_exists z : safe z -> exists M E, int_form z M E.
Proof.
  intros [H0 H1]. destruct z as [|m|m]; [lia| |lia]. destruct (digits2_bounds m) as [H2 H3].
  assert (Zpos (digits2_pos m) - 1 < 53) by (apply (Z.pow_lt_mono_r_iff 2); lia).
  set (k := 53 - Zpos (digits2_pos m)).
  assert (0 < Zpos m * 2 ^ k) by (apply Z.mul_pos_pos; [lia|apply Z.pow_pos_nonneg; lia]).
  exists (Z.to_pos (Zpos m * 2 ^ k)), (- k). split_and!; [|lia..|].
  - rewrite (digits2_shift _ m k); [lia|lia|]. by rewrite Z2Pos.id.
  - rewrite Z2Pos.id by done. by rewrite Z.opp_involutive.
Qed.

Lemma int_form_normal z M E : int_form z M E -> normal M E.
Proof. intros (? & ? & ?). split; [done|lia]. Qed.

(** Any way to write the integer rounds to its normal form. *)
Lemma normalize_int z m e M E :
  int_form z M E -> e <= 0 -> m = z * 2 ^ (- e) -> 0 < z ->
  binary_normalize 53 1024 m e false = S754_finite false M E.
Proof.
  intros HM He -> Hz. pose proof (int_form_normal _ _ _ HM). destruct HM as (Hd & HE & Hm).
  pose proof (Z.pow_pos_nonneg 2 (- e)). destruct (z * 2 ^ (- e)) as [|m|m] eqn:E0; [nia| |nia].
  cbn [binary_normalize]. apply binary_round_exact; [done|].
  destruct (Z.le_gt_cases e E) as [H1|H1]; [left|right]; (split; [done|]).
  - rewrite <- E0, Hm, <- Z.mul_assoc, <- Z.pow_add_r by lia. do 2 f_equal. lia.
  - rewrite <- E0, Hm, <- Z.mul_assoc, <- Z.pow_add_r by lia. do 2 f_equal. lia.
Qed.

Lemma of_Z_form z M E : int_form z M E -> 0 < z -> Num.of_Z z = S754_finite false M E.
Proof. intros HM Hz. apply (normalize_int z); try done. cbn. lia. Qed.

Lemma int_form_bounds z M E : int_form z M E -> 2 ^ (52 + E) <= z < 2 ^ (53 + E).
Proof.
  intros (Hd & HE & Hm). destruct (digits2_bounds M) as [H1 H2]. rewrite Hd, Hm in *.
  replace (53 - 1) with (52 + E + - E) in H1 by lia. replace 53 with (53 + E + - E) in H2 at 1 by lia.
  rewrite Z.pow_add_r in H1, H2 by lia. pose proof (Z.pow_pos_nonneg 2 (- E)). nia.
Qed.

(** The doubles of two safe integers compare as the integers do. *)
Lemma of_Z_compare a b :
  safe a -> safe b -> SFcompare (Num.of_Z a) (Num.of_Z b) = Some (a ?= b).
Proof.
  intros Ha Hb. destruct (int_form_exists a Ha) as (M & E & HM), (int_form_exists b Hb) as (N & F & HN).
  rewrite (of_Z_form a M E), (of_Z_form b N F) by (done || apply Ha || apply Hb).
  cbn [SFcompare]. f_equal.
  pose proof (int_form_bounds _ _ _ HM). pose proof (int_form_bounds _ _ _ HN).
  destruct HM as (_ & HE & Hm), HN as (_ & HF & Hn). destruct (Z.compare_spec E F) as [<-|Hlt|Hlt].
  - change (Pos.compare_cont Eq M N) with (Zpos M ?= Zpos N). rewrite Hm, Hn.
    symmetry. apply Zmult_compare_compat_r. pose proof (Z.pow_pos_nonneg 2 (- E)). lia.
  - symmetry. apply Z.compare_lt_iff. pose proof (Z.pow_le_mono_r 2 (53 + E) (52 + F)). lia.
  - symmetry. apply Z.compare_gt_iff. pose proof (Z.pow_le_mono_r 2 (53 + F) (52 + E)). lia.
Qed.

Lemma of_Z_le a b : safe a -> safe b -> Num.le (Num.of_Z a) (Num.of_Z b) = (a <=? b).
Proof. intros. unfold Num.le, SFleb, Z.leb. rewrite of_Z_compare by done. by destruct (a ?= b). Qed.

Lemma of_Z_positive a : safe a ->
  Num.is_finite (Num.of_Z a) = true /\ Num.gt (Num.of_Z a) Num.zero = true.
Proof.
  intros Ha. destruct (int_form_exists a Ha) as (M & E & HM).
  rewrite (of_Z_form a M E) by (done || apply Ha). done.
Qed.

Lemma shl_align_int z M E e :
  int_form z M E -> e <= E -> Zpos (shl_align M E e).1 = z * 2 ^ (- e).
Proof.
  intros (_ & HE & Hm) He. unfold shl_align. destruct (e - E) as [|p|p] eqn:Ep; [|lia|]; cbn [fst].
  - rewrite Hm. do 2 f_equal. lia.
  - rewrite iter_double, Hm, <- Z.mul_assoc, <- Z.pow_add_r by lia. do 2 f_equal. lia.
Qed.

(** Adding safe integers is exact. *)
Lemma of_Z_add a b : safe a -> safe b -> safe (a + b) ->
  Num.add (Num.of_Z a) (Num.of_Z b) = Num.of_Z (a + b).
Proof.
  intros Ha Hb Hc. destruct (int_form_exists a Ha) as (M & E & HM),
    (int_form_exists b Hb) as (N & F & HN), (int_form_exists _ Hc) as (K & G & HK).
  rewrite (of_Z_form a M E), (of_Z_form b N F), (of_Z_form _ K G)
    by (done || apply Ha || apply Hb || apply Hc).
  cbn [Num.add SFadd cond_Zopp].
  rewrite (shl_align_int a M E), (shl_align_int b N F) by (done || lia).
  apply (normalize_int (a + b)); [done| |lia|apply Hc].
  destruct HM as (_ & ? & _), HN as (_ & ? & _). lia.
Qed.

(** And subtracting them, as long as the result is no less than zero. *)
Lemma of_Z_sub a b : 0 <= b <= a -> a < 2 ^ 53 -> Num.sub (Num.of_Z a) (Num.of_Z b) = Num.of_Z (a - b).
Proof.
  intros Hb Ha. destruct (decide (b = 0)) as [->|Hb0].
  { rewrite Z.sub_0_r. destruct (decide (a = 0)) as [->|Ha0]; [done|]. assert (safe a) as Hs by (unfold safe; lia).
    destruct (int_form_exists a Hs) as (M & E & HM). by rewrite (of_Z_form a M E) by (done || lia). }
  assert (safe a) as Hsa by (unfold safe; lia). assert (safe b) as Hsb by (unfold safe; lia).
  destruct (int_form_exists a Hsa) as (M & E & HM), (int_form_exists b Hsb) as (N & F & HN).
  rewrite (of_Z_form a M E), (of_Z_form b N F) by (done || lia). unfold Num.sub. cbn [SFsub SFadd cond_Zopp].
  rewrite (shl_align_int a M E), (shl_align_int b N F) by (done || lia). rewrite <- Z.mul_sub_distr_r.
  destruct (decide (a = b)) as [->|Hab]; [by rewrite Z.sub_diag|].
  assert (safe (a - b)) as Hsc by (unfold safe; lia). destruct (int_form_exists _ Hsc) as (K & G & HK).
  rewrite (of_Z_form _ K G) by (done || lia). apply (normalize_int (a - b)); [done| |done|lia].
  destruct HM as (_ & ? & _), HN as (_ & ? & _). lia.
Qed.
