(* ===== verification/JsRounding.v ===== *)
(** * Rounding does not pass a bound

    A double is the rounded value of what an operation yields; when that does
    not exceed a bound that is a double itself, neither does the result.
    With this, quotients of counts and the percentages made of them stay on
    their scale. *)

From S2P Require Import Prelude JsNumber JsInteger.

Local Open Scope Z_scope.

(** ** Shifting *)

(** The mantissa, rounded up. *)
Definition up (r : shr_record) : Z := shr_m r + (if shr_r r || shr_s r then 1 else 0).

Lemma shr_1_up r b : 0 <= shr_m r -> up r <= 2 * b -> up (shr_1 r) <= b.
Proof.
  destruct r as [m r s]. unfold up. cbn [shr_m shr_r shr_s]. intros Hm H.
  destruct m as [|[p|p|]|p]; cbn; [| | | |lia]; destruct r, s; cbn in *; lia.
Qed.

Lemma shr_up p r b : 0 <= shr_m r -> up r <= b * 2 ^ Zpos p -> up (SpecFloat.iter_pos shr_1 p r) <= b.
Proof.
  rewrite iter_pos_nat, <- (positive_nat_Z p). generalize (Pos.to_nat p). intros n.
  assert (0 <= shr_m r -> 0 <= shr_m (Nat.iter n shr_1 r)) as Hn.
  { induction n as [|n IH]; [done|]. intros H. rewrite Nat.iter_succ. by apply Num.shr_1_nonneg, IH. }
  intros Hr. specialize (Hn Hr). revert b Hn. induction n as [|n IH]; intros b Hn H.
  - change (up r <= b). change (Z.of_nat 0) with 0 in H. lia.
  - rewrite Nat.iter_succ in *. rewrite Nat2Z.inj_succ, Z.pow_succ_r in H by lia.
    assert (0 <= shr_m (Nat.iter n shr_1 r)) as H0.
    { clear -Hr. induction n as [|n IH]; [done|]. rewrite Nat.iter_succ. by apply Num.shr_1_nonneg. }
    apply shr_1_up; [done|]. apply IH; [done|]. lia.
Qed.

Lemma rounded_up r : round_nearest_even (shr_m r) (loc_of_shr_record r) <= up r.
Proof. destruct r as [m [] []]; unfold up; cbn; try case_match; lia. Qed.

Lemma rounded_nonneg r : 0 <= shr_m r -> 0 <= round_nearest_even (shr_m r) (loc_of_shr_record r).
Proof. destruct r as [m [] []]; cbn; intros; try case_match; lia. Qed.

(** ** Rounding *)

(** What the location adds when rounding up. *)
Definition extra (l : location) : Z := match l with loc_Exact => 0 | _ => 1 end.

Lemma up_of_loc m l : up (shr_record_of_loc m l) = m + extra l /\ shr_m (shr_record_of_loc m l) = m.
Proof. by destruct l as [|[]]. Qed.

Lemma digits_below m e M E :
  normal M E -> 0 < m -> e <= E -> m <= Zpos M * 2 ^ (E - e) -> Zdigits2 m + e <= 53 + E.
Proof.
  intros [Hd _] Hm He H. destruct m as [|m|m]; [lia| |lia]. cbn [Zdigits2].
  destruct (digits2_bounds m) as [H1 _], (digits2_bounds M) as [_ H2]. rewrite Hd in H2.
  assert (2 ^ (Zpos (digits2_pos m) - 1) < 2 ^ (53 + (E - e))) as H3.
  { rewrite Z.pow_add_r by lia. pose proof (Z.pow_pos_nonneg 2 (E - e)). nia. }
  apply Z.pow_lt_mono_r_iff in H3; lia.
Qed.

Lemma shr_fexp_below m e l M E :
  normal M E -> 0 <= m -> e <= E -> m + extra l <= Zpos M * 2 ^ (E - e) ->
  let '(r, e') := shr_fexp 53 1024 m e l in
  e <= e' <= E /\ 0 <= shr_m r /\ up r <= Zpos M * 2 ^ (E - e').
Proof.
  intros HM Hm He H. destruct (up_of_loc m l) as [Hu Hs].
  assert (0 <= extra l) by (by destruct l).
  assert (fexp 53 1024 (Zdigits2 m + e) <= E) as Hf.
  { pose proof HM as [_ HE]. unfold fexp, emin. destruct (decide (m = 0)) as [->|Hne]; [cbn; lia|].
    pose proof (digits_below m e M E HM). lia. }
  unfold shr_fexp, shr.
  destruct (fexp 53 1024 (Zdigits2 m + e) - e) as [|p|p] eqn:Ep; rewrite ?Hs, ?Hu; [repeat split; lia| |repeat split; lia].
  split_and!; [lia|lia|apply Num.iter_shr_nonneg; lia|]. apply shr_up; [lia|].
  rewrite Hu, <- Z.mul_assoc, <- Z.pow_add_r by lia. by replace (E - (e + Zpos p) + Zpos p) with (E - e) by lia.
Qed.

(** [x] is not negative, and at most [M * 2 ^ E]. *)
Definition below (M : positive) (E : Z) (x : num) : Prop :=
  x = S754_zero false
  \/ exists m e, x = S754_finite false m e /\ e <= E /\ Zpos m <= Zpos M * 2 ^ (E - e).

Lemma round_aux_below m e l M E :
  normal M E -> 0 <= m -> e <= E -> m + extra l <= Zpos M * 2 ^ (E - e) ->
  below M E (binary_round_aux 53 1024 false m e l).
Proof.
  intros HM Hm He H. unfold binary_round_aux. pose proof (shr_fexp_below m e l M E HM Hm He H) as H1.
  destruct (shr_fexp 53 1024 m e l) as [r1 e1]. destruct H1 as (He1 & Hr1 & Hu1).
  pose proof (rounded_up r1) as Hle. pose proof (rounded_nonneg r1 Hr1) as H0.
  pose proof (shr_fexp_below (round_nearest_even (shr_m r1) (loc_of_shr_record r1)) e1 loc_Exact M E HM H0) as H2.
  destruct (shr_fexp 53 1024 (round_nearest_even _ _) e1 loc_Exact) as [r2 e2].
  destruct H2 as (He2 & Hr2 & Hu2); [lia|cbn; lia|].
  assert (shr_m r2 <= up r2) by (unfold up; case_match; lia).
  destruct (shr_m r2) as [|m2|]; [by left| |lia]. right.
  pose proof HM as [_ HE]. change (1024 - 53) with 971. rewrite (proj2 (Z.leb_le e2 971)) by lia.
  exists m2, e2. split_and!; [done|lia|lia].
Qed.

Lemma below_within M E x : below M E x -> Num.within Num.zero (S754_finite false M E) x = true.
Proof.
  intros [->|(m & e & -> & He & Hm)]; [done|]. unfold Num.within, Num.le, SFleb. cbn [SFcompare Num.zero andb].
  destruct (Z.compare_spec e E) as [->|Hlt|Hgt]; [|done|lia].
  rewrite Z.sub_diag, Z.mul_1_r in Hm. change (Pos.compare_cont Eq m M) with (Zpos m ?= Zpos M).
  destruct (Z.compare_spec (Zpos m) (Zpos M)); [done|done|lia].
Qed.

(** ** Quotients and products *)

Definition one_m : positive := 2 ^ 52.

Lemma one_normal : normal one_m (-52).
Proof. split; [reflexivity|lia]. Qed.

Lemma location_extra n r : 0 <= r -> extra (new_location n r) = if r =? 0 then 0 else 1.
Proof. intros Hr. unfold new_location, new_location_even, new_location_odd. destruct (Z.even n), (r =? 0); done. Qed.

(** A quotient of [a] and [b] is at most 1 when [a] is at most [b]. *)
Lemma div_below_one a b : 0 <= a <= b -> safe b -> below one_m (-52) (Num.div (Num.of_Z a) (Num.of_Z b)).
Proof.
  intros Hab Hb. destruct (int_form_exists b Hb) as (N & F & HN). rewrite (of_Z_form b N F) by (done || apply Hb).
  destruct (decide (a = 0)) as [->|Ha0]; [by left|].
  assert (safe a) as Ha by (unfold safe in *; lia).
  destruct (int_form_exists a Ha) as (M & E & HM). rewrite (of_Z_form a M E) by (done || apply Ha).
  destruct HM as (Hd & HE & Hm), HN as (Hd' & HF & Hn).
  cbn [Num.div SFdiv xorb]. unfold SFdiv_core_binary. cbn [Zdigits2]. rewrite Hd, Hd'.
  set (e := Z.min _ _). assert (E <= F) as HEF.
  { pose proof (int_form_bounds a M E (conj Hd (conj HE Hm))). pose proof (int_form_bounds b N F (conj Hd' (conj HF Hn))).
    apply Z.lt_succ_r, (Z.add_lt_mono_l _ _ 52), (Z.pow_lt_mono_r_iff 2); [lia..|].
    replace (52 + Z.succ F) with (53 + F) by lia. lia. }
  assert (e <= -53 /\ e <= E - F) as [He He'] by (unfold e, fexp, emin; lia).
  assert (match E - F - e with 0 => Zpos M | Z.pos _ => Z.shiftl (Zpos M) (E - F - e) | Z.neg _ => 0 end
          = Zpos M * 2 ^ (E - F - e)) as ->.
  { destruct (E - F - e) as [|p|p] eqn:Es; [lia| |lia]. rewrite Z.shiftl_mul_pow2; lia. }
  set (m' := Zpos M * 2 ^ (E - F - e)).
  assert (m' <= Zpos N * 2 ^ (- e)) as Hm'.
  { unfold m'. rewrite Hm, Hn, <- !Z.mul_assoc, <- !Z.pow_add_r by lia.
    replace (- E + (E - F - e)) with (- F + - e) by lia. pose proof (Z.pow_pos_nonneg 2 (- F + - e)). nia. }
  assert (0 <= m') by (unfold m'; pose proof (Z.pow_pos_nonneg 2 (E - F - e)); lia).
  pose proof (Z_div_mod m' (Zpos N)) as Hq. destruct (Z.div_eucl m' (Zpos N)) as [q r].
  destruct Hq as [Hq Hr]; [lia|].
  apply round_aux_below; [apply one_normal|nia|lia|]. rewrite location_extra by lia.
  change (Zpos one_m) with (2 ^ 52). rewrite <- Z.pow_add_r by lia. replace (52 + (-52 - e)) with (- e) by lia.
  destruct (Z.eqb_spec r 0); nia.
Qed.

(** At most 1, times a safe integer. *)
Lemma mul_below x c M E :
  below one_m (-52) x -> int_form c M E -> safe c -> below M E (Num.mul x (Num.of_Z c)).
Proof.
  intros Hx HM Hc. rewrite (of_Z_form c M E) by (done || apply Hc).
  destruct Hx as [->|(m & e & -> & He & Hm)]; [by left|]. cbn [Num.mul SFmul xorb].
  change (Zpos one_m) with (2 ^ 52) in Hm. rewrite <- Z.pow_add_r in Hm by lia.
  apply round_aux_below; [by eapply int_form_normal|lia| |].
  - lia.
  - replace (E - (e + E)) with (- e) by lia. replace (52 + (-52 - e)) with (- e) in Hm by lia. cbn [extra]. nia.
Qed.

(** ** Math.round *)

Lemma round_below x c M E :
  below M E x -> int_form c M E -> safe c -> exists z, 0 <= z <= c /\ Num.round x = Num.of_sign_Z false z.
Proof.
  intros Hx (_ & HE & HM) [Hc _]. destruct Hx as [->|(m & e & -> & He & Hm)]; [exists 0; split; [lia|done]|].
  unfold Num.round, Num.frac.
  assert (exists p q, (if 0 <=? e then (Zpos m * 2 ^ e, 1) else (Zpos m, 2 ^ (- e))) = (p, q)
                      /\ 0 < q /\ 0 <= p <= c * q) as (p & q & -> & Hq & Hp).
  { destruct (Z.leb_spec 0 e) as [H|H].
    - assert (e = 0) as -> by lia. assert (E = 0) as -> by lia. exists (Zpos m * 2 ^ 0), 1.
      change (- 0) with 0 in HM. change (0 - 0) with 0 in Hm. rewrite !Z.pow_0_r, ?Z.mul_1_r in *. split_and!; [done|lia..].
    - exists (Zpos m), (2 ^ (- e)). pose proof (Z.pow_pos_nonneg 2 (- e)). split_and!; [done|lia|lia|].
      rewrite HM, <- Z.mul_assoc, <- Z.pow_add_r in Hm by lia. by replace (- E + (E - e)) with (- e) in Hm by lia. }
  exists ((2 * p + q) / (2 * q)). split; [|done]. split; [apply Z.div_pos; lia|].
  apply Z.lt_succ_r, Z.div_lt_upper_bound; lia.
Qed.

Lemma whole_within z c : 0 <= z <= c -> safe c -> Num.within Num.zero (Num.of_Z c) (Num.of_sign_Z false z) = true.
Proof.
  intros Hz Hc. unfold Num.of_sign_Z, Num.within. destruct (Z.eqb_spec z 0) as [->|Hne].
  - destruct (of_Z_positive c Hc) as [_ H]. change (S754_zero false) with Num.zero. by rewrite (Num.lt_le _ _ H).
  - assert (safe z) as Hs by (unfold safe in *; lia). destruct (of_Z_positive z Hs) as [_ H].
    rewrite (Num.lt_le _ _ H), of_Z_le by done. apply Z.leb_le. lia.
Qed.

(** [Math.round((part / whole) * 100)] *)
Definition percentage (part whole : num) : num := Num.round (Num.mul (Num.div part whole) (Num.of_Z 100)).

Lemma percentage_whole a b : 0 <= a <= b -> safe b ->
  exists z, 0 <= z <= 100 /\ percentage (Num.of_Z a) (Num.of_Z b) = Num.of_sign_Z false z.
Proof.
  intros Hab Hb. assert (safe 100) as Hc by (unfold safe; lia). destruct (int_form_exists 100 Hc) as (M & E & HM).
  eapply round_below; [|done|done]. by apply mul_below; [apply div_below_one| |].
Qed.

Lemma percentage_within a b : 0 <= a <= b -> safe b ->
  Num.within Num.zero (Num.of_Z 100) (percentage (Num.of_Z a) (Num.of_Z b)) = true.
Proof.
  intros Hab Hb. destruct (percentage_whole a b Hab Hb) as (z & Hz & ->). by apply whole_within.
Qed.
