(* ===== verification/JsString.v ===== *)
(** * JavaScript strings

    A string is a sequence of code units.  The development keeps them in the
    Latin-1 range (one [ascii] per unit, U+0000 to U+00FF): white space,
    case mapping and percent-encoding below are those of the language on
    that range (the two units whose capital lies outside it, U+00B5 and
    U+00FF, are their own capital here). *)

From stdpp Require Import pretty.
From S2P Require Import Prelude JsNumber.

Local Open Scope N_scope.

(** ** Character classes *)

Definition between (lo hi : N) (c : ascii) : bool :=
  (lo <=? N_of_ascii c) && (N_of_ascii c <=? hi).

(** White space and line terminators: TAB, LF, VT, FF, CR, SP, NBSP. *)
Definition is_ws (c : ascii) : bool :=
  between 9 13 c || (N_of_ascii c =? 32) || (N_of_ascii c =? 160).

Definition is_digit (c : ascii) : bool := between 48 57 c.
Definition is_upper (c : ascii) : bool := between 65 90 c.
Definition is_lower (c : ascii) : bool := between 97 122 c.
Definition is_alnum (c : ascii) : bool := is_digit c || is_upper c || is_lower c.

Definition shift (c : ascii) (up : bool) : ascii :=
  ascii_of_N (if up then N_of_ascii c - 32 else N_of_ascii c + 32).

Definition lower_char (c : ascii) : ascii :=
  if is_upper c || (between 192 222 c && negb (N_of_ascii c =? 215))
  then shift c false else c.

Definition upper_char (c : ascii) : string :=
  if N_of_ascii c =? 223 then "SS"
  else if is_lower c || (between 224 254 c && negb (N_of_ascii c =? 247))
  then String (shift c true) "" else String c "".

(** ** Methods of String.prototype *)

Fixpoint smap (f : ascii -> ascii) (s : string) : string :=
  match s with
  | "" => ""
  | String c s => String (f c) (smap f s)
  end.

Fixpoint sflat (f : ascii -> string) (s : string) : string :=
  match s with
  | "" => ""
  | String c s => f c +:+ sflat f s
  end.

Fixpoint sforall (f : ascii -> bool) (s : string) : bool :=
  match s with
  | "" => true
  | String c s => f c && sforall f s
  end.

Definition toLowerCase (s : string) : string := smap lower_char s.
Definition toUpperCase (s : string) : string := sflat upper_char s.

Fixpoint trimStart (s : string) : string :=
  match s with
  | String c s' => if is_ws c then trimStart s' else s
  | "" => ""
  end.

Fixpoint trimEnd (s : string) : string :=
  match s with
  | "" => ""
  | String c s =>
      let r := trimEnd s in
      if is_ws c && (r === "") then "" else String c r
  end.

Definition trim (s : string) : string := trimStart (trimEnd s).

Fixpoint startsWith (s p : string) : bool :=
  match p, s with
  | "", _ => true
  | String a p, String b s => Ascii.eqb a b && startsWith s p
  | String _ _, "" => false
  end.

Fixpoint includes (s needle : string) : bool :=
  startsWith s needle ||
  match s with "" => false | String _ s => includes s needle end.

(** [s.endsWith(p)] *)
Fixpoint endsWith (s p : string) : bool :=
  (s === p) || match s with "" => false | String _ s => endsWith s p end.

Fixpoint join (sep : string) (l : list string) : string :=
  match l with
  | [] => ""
  | [x] => x
  | x :: l => x +:+ sep +:+ join sep l
  end.

(** [s.split(c)] for a one-unit separator. *)
Fixpoint split (c : ascii) (s : string) : list string :=
  match s with
  | "" => [""]
  | String a s =>
      if Ascii.eqb a c then "" :: split c s
      else match split c s with
           | [] => [String a ""]
           | w :: ws => String a w :: ws
           end
  end.

(** [s.split(/p/)] for a class of units [p]. *)
Fixpoint split_by (p : ascii -> bool) (s : string) : list string :=
  match s with
  | "" => [""]
  | String a s =>
      if p a then "" :: split_by p s
      else match split_by p s with
           | [] => [String a ""]
           | w :: ws => String a w :: ws
           end
  end.

(** [s.slice(0, n)] and [s.slice(n)] for a natural [n]. *)
Fixpoint stake (n : nat) (s : string) : string :=
  match n, s with
  | S n, String c s => String c (stake n s)
  | _, _ => ""
  end.
Fixpoint sdrop (n : nat) (s : string) : string :=
  match n, s with
  | O, _ => s
  | S n, String _ s => sdrop n s
  | S _, "" => ""
  end.

Definition slice (i j : nat) (s : string) : string := stake (j - i) (sdrop i s).

Definition padStart (n : nat) (c : ascii) (s : string) : string :=
  String.string_of_list_ascii (repeat c (n - String.length s)) +:+ s.
Definition padEnd (n : nat) (c : ascii) (s : string) : string :=
  s +:+ String.string_of_list_ascii (repeat c (n - String.length s)).

(** [s.replace(/p+/g, r)] for a class of units [p]. *)
Fixpoint replace_runs (p : ascii -> bool) (r : string) (inside : bool) (s : string) : string :=
  match s with
  | "" => ""
  | String c s =>
      if p c then (if inside then "" else r) +:+ replace_runs p r true s
      else String c (replace_runs p r false s)
  end.

(** [s.replace(/p+$/, '')] for a class of units [p]. *)
Fixpoint strip_end (p : ascii -> bool) (s : string) : string :=
  match s with
  | "" => ""
  | String c s =>
      let r := strip_end p s in
      if p c && (r === "") then "" else String c r
  end.

(** [s.replace(c, '')]: the first occurrence only. *)
Fixpoint remove_first (c : ascii) (s : string) : string :=
  match s with
  | "" => ""
  | String a s => if Ascii.eqb a c then s else String a (remove_first c s)
  end.

(** [n.toString(36)] of a natural number; [fuel] is enough digits. *)
Definition digit36 (n : N) : ascii := ascii_of_N (if n <? 10 then 48 + n else 87 + n).
Fixpoint base36_go (fuel : nat) (n : N) (acc : string) : string :=
  match fuel with
  | O => acc
  | S fuel =>
      let acc := String (digit36 (n mod 36)) acc in
      if n <? 36 then acc else base36_go fuel (n / 36) acc
  end.
Definition base36 (n : N) : string := base36_go (S (N.to_nat (N.log2 n))) n "".

(** ** [encodeURIComponent]

    The units of the range are encoded through UTF-8: one byte below
    U+0080, two bytes from there on. *)

Definition hex_digit (n : N) : ascii :=
  ascii_of_N (if n <? 10 then 48 + n else 55 + n).

Definition percent (byte : N) : string :=
  String "%"%char (String (hex_digit (byte / 16)) (String (hex_digit (byte mod 16)) "")).

Definition uri_mark (c : ascii) : bool :=
  existsb (Ascii.eqb c) ["-"; "_"; "."; "!"; "~"; "*"; "'"; "("; ")"]%char.

Definition encode_char (c : ascii) : string :=
  let n := N_of_ascii c in
  if is_alnum c || uri_mark c then String c ""
  else if n <? 128 then percent n
  else percent (192 + n / 64) +:+ percent (128 + n mod 64).

Definition encodeURIComponent (s : string) : string := sflat encode_char s.

(** ** Lemmas *)

(** Facts about one unit hold by running through all 256 of them. *)
Ltac all_chars c := destruct c as [[] [] [] [] [] [] [] []]; vm_compute; done.

Lemma lower_char_idem c : lower_char (lower_char c) = lower_char c.
Proof. all_chars c. Qed.

Lemma is_ws_lower c : is_ws (lower_char c) = is_ws c.
Proof. all_chars c. Qed.

Lemma append_nil_r s : s +:+ "" = s.
Proof. induction s as [|c s IH]; [done|]. cbn. by rewrite IH. Qed.

Lemma length_append a b : String.length (a +:+ b) = (String.length a + String.length b)%nat.
Proof. induction a as [|c a IH]; [done|]. cbn. by rewrite IH. Qed.

Lemma append_assoc a b c : (a +:+ b) +:+ c = a +:+ b +:+ c.
Proof. induction a as [|x a IH]; [done|]. cbn. by rewrite IH. Qed.

Lemma toLowerCase_idem s : toLowerCase (toLowerCase s) = toLowerCase s.
Proof.
  unfold toLowerCase. induction s as [|c s IH]; [done|]. cbn.
  by rewrite lower_char_idem, IH.
Qed.

Lemma sflat_app f a b : sflat f (a +:+ b) = sflat f a +:+ sflat f b.
Proof. induction a as [|c a IH]; cbn; [done|]. by rewrite IH, append_assoc. Qed.

Lemma upper_char_idem c : toUpperCase (upper_char c) = upper_char c.
Proof. all_chars c. Qed.

Lemma toUpperCase_idem s : toUpperCase (toUpperCase s) = toUpperCase s.
Proof.
  unfold toUpperCase. induction s as [|c s IH]; cbn; [done|].
  rewrite sflat_app, IH. f_equal. apply upper_char_idem.
Qed.

Lemma smap_empty f s : (smap f s === "") = (s === "").
Proof. by destruct s. Qed.

(** A map that keeps white space what it is commutes with [trim]. *)
Lemma smap_trim f s : (forall c, is_ws (f c) = is_ws c) -> smap f (trim s) = trim (smap f s).
Proof.
  intros Hf. unfold trim.
  assert (forall s, smap f (trimStart s) = trimStart (smap f s)) as Hs.
  { clear s. induction s as [|c s IH]; [done|]. cbn.
    rewrite Hf. destruct (is_ws c); [apply IH|done]. }
  rewrite Hs. f_equal. induction s as [|c s IH]; [done|]. cbn.
  rewrite Hf, <- IH, smap_empty.
  by destruct (is_ws c && (trimEnd s === "")).
Qed.

Lemma toLowerCase_trim s : toLowerCase (trim s) = trim (toLowerCase s).
Proof. apply smap_trim, is_ws_lower. Qed.

Lemma trimEnd_idem s : trimEnd (trimEnd s) = trimEnd s.
Proof.
  induction s as [|c s IH]; [done|]. cbn.
  destruct (is_ws c && (trimEnd s === "")) eqn:E; [done|].
  cbn. by rewrite IH, E.
Qed.

Lemma trimStart_idem s : trimStart (trimStart s) = trimStart s.
Proof.
  induction s as [|c s IH]; [done|]. cbn.
  destruct (is_ws c) eqn:E; [done|]. cbn. by rewrite E.
Qed.

Lemma trimEnd_trimStart s : trimEnd (trimStart (trimEnd s)) = trimStart (trimEnd s).
Proof.
  induction s as [|c s IH]; [done|]. cbn.
  destruct (is_ws c) eqn:Ec; cbn.
  - destruct (trimEnd s === "") eqn:E; [done|]. cbn. by rewrite Ec.
  - by rewrite Ec; cbn; rewrite Ec, trimEnd_idem.
Qed.

(** [trim] is idempotent. *)
Lemma trim_idem s : trim (trim s) = trim s.
Proof. unfold trim. by rewrite trimEnd_trimStart, trimStart_idem. Qed.

Lemma startsWith_spec s p : startsWith s p = true <-> exists r, s = p +:+ r.
Proof.
  revert s. induction p as [|a p IH]; intros s.
  - split; [by exists s|]. by destruct s.
  - destruct s as [|b s]; cbn.
    + split; [done|]. by intros [r [=]].
    + rewrite andb_true_iff, Ascii.eqb_eq, IH. split.
      * intros [-> [r ->]]. by exists r.
      * intros [r [= -> ->]]. split; [done|]. by exists r.
Qed.

Lemma startsWith_app p r : startsWith (p +:+ r) p = true.
Proof. apply startsWith_spec. by exists r. Qed.

Lemma startsWith_lower s p :
  startsWith s p = true -> startsWith (toLowerCase s) (toLowerCase p) = true.
Proof.
  intros [r ->]%startsWith_spec. apply startsWith_spec. exists (toLowerCase r).
  induction p as [|a p IH]; [done|]. cbn. by f_equal.
Qed.

Lemma sforall_app f a b : sforall f (a +:+ b) = sforall f a && sforall f b.
Proof. induction a as [|c a IH]; [done|]. cbn. by rewrite IH, andb_assoc. Qed.

Lemma length_stake n s : (String.length (stake n s) <= n)%nat.
Proof.
  revert s. induction n as [|n IH]; intros [|c s]; cbn; try lia.
  specialize (IH s). lia.
Qed.

Lemma stake_app_le n a b :
  (String.length a <= n)%nat -> stake n (a +:+ b) = a +:+ stake (n - String.length a) b.
Proof.
  revert n. induction a as [|c a IH]; intros n Hn; cbn in *.
  - by rewrite Nat.sub_0_r.
  - destruct n as [|n]; [lia|]. cbn. by rewrite IH by lia.
Qed.

(** What [encodeURIComponent] can produce: letters, digits, the marks and
    the percent sign. *)
Definition uri_safe (c : ascii) : bool := is_alnum c || uri_mark c || Ascii.eqb c "%"%char.

Lemma encode_char_safe c : sforall uri_safe (encode_char c) = true.
Proof. all_chars c. Qed.

Lemma encodeURIComponent_safe s : sforall uri_safe (encodeURIComponent s) = true.
Proof.
  unfold encodeURIComponent. induction s as [|c s IH]; [done|]. cbn.
  by rewrite sforall_app, encode_char_safe, IH.
Qed.

Lemma sforall_split c f s :
  f c = false -> sforall f s = true -> split c s = [s].
Proof.
  intros Hc. induction s as [|a s IH]; [done|]. cbn. intros [Ha Hs]%andb_true_iff.
  destruct (Ascii.eqb_spec a c) as [->|_]; [congruence|]. by rewrite (IH Hs).
Qed.

Lemma split_app_sep c a b : split c (a +:+ String c b) = split c a ++ split c b.
Proof.
  induction a as [|x a IH]; cbn.
  - by rewrite Ascii.eqb_refl.
  - destruct (Ascii.eqb x c); [by rewrite IH|]. rewrite IH.
    destruct (split c a) eqn:E; [|done].
    destruct a as [|y a]; cbn in E; [done|].
    destruct (Ascii.eqb y c); [done|]. by destruct (split c a).
Qed.

(** ** Ends of strings *)

Lemma smap_app f a b : smap f (a +:+ b) = smap f a +:+ smap f b.
Proof. induction a as [|c a IH]; [done|]. cbn. by rewrite IH. Qed.

Lemma sforall_smap p f s : sforall p (smap f s) = sforall (fun c => p (f c)) s.
Proof. induction s as [|c s IH]; [done|]. cbn. by rewrite IH. Qed.

Lemma endsWith_app a b : endsWith (a +:+ b) b = true.
Proof.
  induction a as [|c a IH]; cbn; [destruct b; cbn; by rewrite ?Ascii.eqb_refl, ?String.eqb_refl|].
  by rewrite IH, orb_true_r.
Qed.

(** White space is not trimmed across other units. *)
Lemma trimEnd_app a b : trimEnd b <> "" -> trimEnd (a +:+ b) = a +:+ trimEnd b.
Proof.
  intros Hb. induction a as [|c a IH]; [done|]. cbn. rewrite IH.
  destruct (String.eqb_spec (a +:+ trimEnd b) "") as [E|_]; [|by rewrite andb_false_r].
  by destruct a, (trimEnd b).
Qed.

Lemma trimStart_app a b : trimStart a <> "" -> trimStart (a +:+ b) = trimStart a +:+ b.
Proof. induction a as [|c a IH]; cbn; [done|]. by destruct (is_ws c). Qed.

Lemma trim_app a b : trim a = a -> a <> "" -> trim b = b -> b <> "" -> trim (a +:+ b) = a +:+ b.
Proof.
  intros Ha Ha0 Hb Hb0.
  assert (trimStart a = a /\ trimEnd a = a) as [Hs _].
  { rewrite <- Ha. unfold trim. by rewrite trimStart_idem, trimEnd_trimStart. }
  assert (trimEnd b = b) as He by (rewrite <- Hb; unfold trim; apply trimEnd_trimStart).
  unfold trim. rewrite trimEnd_app by congruence. rewrite He, trimStart_app by congruence. by rewrite Hs.
Qed.

(** ** Pieces *)

Lemma split_by_whole p s : sforall (fun c => negb (p c)) s = true -> split_by p s = [s].
Proof.
  induction s as [|a s IH]; [done|]. cbn. intros [Ha Hs]%andb_true_iff.
  apply negb_true_iff in Ha as ->. by rewrite (IH Hs).
Qed.

Lemma split_by_pieces p s w : In w (split_by p s) -> sforall (fun c => negb (p c)) w = true.
Proof.
  revert w. induction s as [|a s IH]; cbn; intros w; [by intros [<-|[]]|].
  destruct (p a) eqn:Ha; [intros [<-|?]; [done|by apply IH]|].
  destruct (split_by p s) as [|x xs]; intros [<-|Hw]; cbn; rewrite ?Ha; [done|done| |apply IH; by right].
  by apply IH; left.
Qed.

(** ** The text of a number *)

Definition numeric_char (c : ascii) : bool :=
  is_alnum c || existsb (Ascii.eqb c) ["+"; "-"; "."]%char.

Lemma sforall_substring f s n m :
  sforall f s = true -> sforall f (String.substring n m s) = true.
Proof.
  revert n m. induction s as [|c s IH]; intros n m; [by destruct n, m|].
  cbn. intros [Hc Hs]%andb_true_iff. destruct n as [|n]; [|by apply IH].
  destruct m as [|m]; [done|]. cbn. by rewrite Hc, IH.
Qed.

Lemma pretty_N_go_sforall f n s :
  (forall d, f (pretty_N_char d) = true) -> sforall f s = true -> sforall f (pretty_N_go n s) = true.
Proof.
  intros Hf. revert s. induction (N.lt_wf_0 n) as [n _ IH]. intros s Hs.
  destruct (decide (0 < n)) as [Hn|Hn].
  - rewrite pretty_N_go_step by done. apply IH; [by apply N.div_lt|]. cbn. by rewrite Hf, Hs.
  - replace n with 0 by lia. by rewrite pretty_N_go_0.
Qed.

(** The decimal text of a natural number is made of digits. *)
Lemma pretty_digits (n : N) : sforall is_digit (pretty n) = true.
Proof.
  unfold pretty, pretty_N. destruct (decide _); [done|]. apply pretty_N_go_sforall; [|done].
  intros d. unfold pretty_N_char. destruct d as [|[[[|[]|]|[|[]|]|]|[[|[]|]|[|[]|]|]|]]; reflexivity.
Qed.

Lemma sforall_mono (f g : ascii -> bool) s :
  (forall c, f c = true -> g c = true) -> sforall f s = true -> sforall g s = true.
Proof.
  intros Hfg. induction s as [|c s IH]; [done|]. cbn. rewrite !andb_true_iff. naive_solver.
Qed.

Lemma digits_numeric z : sforall numeric_char (Num.digits z) = true.
Proof.
  assert (forall n, sforall numeric_char (pretty (n : N)) = true) as HN.
  { intros n. eapply sforall_mono, pretty_digits. by intros [[] [] [] [] [] [] [] []]. }
  unfold Num.digits, pretty, pretty_Z. destruct z; [done|apply HN|]. cbn. apply HN.
Qed.

Lemma zeros_numeric z : sforall numeric_char (Num.zeros z) = true.
Proof. unfold Num.zeros. by induction (Z.to_nat z). Qed.

(** [String(n)] is made of letters, digits, signs and the point. *)
Lemma number_text_numeric x : sforall numeric_char (Num.to_string x) = true.
Proof.
  destruct x as [|[]| |s m e]; [done..|]. cbn -[Num.frac Num.shortest Num.layout].
  destruct (Num.frac m e) as [p q]. destruct (Num.shortest _ _ _ _ _ _ _) as [[c k] n].
  rewrite sforall_app. apply andb_true_iff. split; [by destruct s|].
  unfold Num.layout. cbn zeta.
  repeat case_match; rewrite ?sforall_app, ?zeros_numeric, ?digits_numeric,
    ?sforall_substring by apply digits_numeric; done.
Qed.

Lemma pretty_N_go_nonempty n s : s <> "" -> pretty_N_go n s <> "".
Proof.
  revert s. induction (N.lt_wf_0 n) as [n _ IH]. intros s Hs.
  destruct (decide (0 < n)) as [Hn|Hn].
  - rewrite pretty_N_go_step by done. apply IH; [by apply N.div_lt|done].
  - replace n with 0 by lia. by rewrite pretty_N_go_0.
Qed.

Lemma digits_nonempty z : Num.digits z <> "".
Proof.
  assert (forall n, pretty (n : N) <> "") as HN.
  { intros n. unfold pretty, pretty_N. destruct (decide _) as [|Hn]; [done|].
    rewrite pretty_N_go_step by lia. by apply pretty_N_go_nonempty. }
  unfold Num.digits, pretty, pretty_Z. destruct z; [done|apply HN|done].
Qed.

Lemma append_nonempty_l a b : a <> "" -> a +:+ b <> "".
Proof. by destruct a. Qed.

Lemma number_text_nonempty x : Num.to_string x <> "".
Proof.
  destruct x as [|[]| |s m e]; [done..|]. cbn -[Num.frac Num.shortest Num.layout].
  destruct (Num.frac m e) as [p q]. destruct (Num.shortest _ _ _ _ _ _ _) as [[c k] n].
  assert (Num.layout c k n <> "") as Hl.
  { unfold Num.layout. cbn zeta.
    repeat case_match; try done; try (apply append_nonempty_l, digits_nonempty);
      by destruct (String.substring 0 _ _). }
  by destruct s, (Num.layout c k n).
Qed.

(** ** Trimmed, non-empty texts *)

Definition tidy (s : string) : Prop := trim s = s /\ s <> "".

Lemma tidy_trim s : truthy_str (trim s) = true -> tidy (trim s).
Proof. intros H. split; [apply trim_idem|by apply truthy_str_spec]. Qed.

Lemma tidy_lower s : tidy s -> tidy (toLowerCase s).
Proof.
  intros [Ht Hn]. split; [by rewrite <- toLowerCase_trim, Ht|].
  intros E. apply Hn. unfold toLowerCase in E. apply String.eqb_eq in E.
  rewrite smap_empty in E. by apply String.eqb_eq.
Qed.

Definition not_ws (c : ascii) : bool := negb (is_ws c).

Lemma trim_no_ws s : sforall not_ws s = true -> trim s = s.
Proof.
  intros H. assert (trimEnd s = s) as He.
  { induction s as [|c s IH]; [done|]. cbn in *. apply andb_true_iff in H as [Hc Hs].
    rewrite (IH Hs). unfold not_ws in Hc. by destruct (is_ws c). }
  unfold trim. rewrite He. destruct s as [|c s]; [done|]. cbn in *.
  unfold not_ws in H. by destruct (is_ws c).
Qed.

Lemma tidy_number x : tidy (Num.to_string x).
Proof.
  split; [|apply number_text_nonempty].
  apply trim_no_ws, (sforall_mono numeric_char), number_text_numeric.
  by intros [[] [] [] [] [] [] [] []].
Qed.

#[export] Hint Resolve encodeURIComponent_safe startsWith_app tidy_trim tidy_lower tidy_number : js.
