(* ===== verification/JsValue.v ===== *)
(** * JavaScript values

    The dynamic values the code receives as [unknown]: what [JSON.parse] can
    build, plus [undefined] and the functions that a lookup on an object
    finds on Object.prototype.  An object is the list of its own properties
    in the order of [Object.keys]; lookups go on to the prototype.

    Operations that may throw return [res]: converting an object whose own
    [toString] property hides the inherited method is a TypeError. *)

From S2P Require Import Prelude JsNumber JsString.

(** ** Exceptions *)

(** A computation that may throw; [Exn msg] carries the error's message. *)
Inductive res (A : Type) : Type :=
| Ok (a : A)
| Exn (msg : string).
Arguments Ok {A} a.
Arguments Exn {A} msg.

Definition res_bind {A B} (m : res A) (k : A -> res B) : res B :=
  match m with Ok a => k a | Exn e => Exn e end.

Notation "'let!' x := m 'in' k" := (res_bind m (fun x => k))
  (at level 10, x name, m at level 100, k at level 200) : js_scope.

Fixpoint res_mapM {A B} (f : A -> res B) (l : list A) : res (list B) :=
  match l with
  | [] => Ok []
  | x :: l => let! y := f x in let! ys := res_mapM f l in Ok (y :: ys)
  end.

(** ** Values *)

Unset Elimination Schemes.
Inductive jsval : Type :=
| JUndef
| JNull
| JBool (b : bool)
| JNum (n : num)
| JStr (s : string)
| JArr (l : list jsval)
| JObj (o : list (string * jsval))
| JFun (name : string).
Set Elimination Schemes.

Abbreviation obj := (list (string * jsval)).

(** Induction that reaches the elements of arrays and objects. *)
Section jsval_ind.
Context (P : jsval -> Prop).
Context (Hundef : P JUndef) (Hnull : P JNull) (Hbool : forall b, P (JBool b)).
Context (Hnum : forall n, P (JNum n)) (Hstr : forall s, P (JStr s)).
Context (Harr : forall l, Forall P l -> P (JArr l)).
Context (Hobj : forall o, Forall (fun kv => P kv.2) o -> P (JObj o)).
Context (Hfun : forall f, P (JFun f)).

Fixpoint jsval_ind (v : jsval) : P v :=
  match v with
  | JUndef => Hundef
  | JNull => Hnull
  | JBool b => Hbool b
  | JNum n => Hnum n
  | JStr s => Hstr s
  | JArr l => Harr l ((fix go l : Forall P l :=
      match l with
      | [] => List.Forall_nil P
      | x :: l => List.Forall_cons P x l (jsval_ind x) (go l)
      end) l)
  | JObj o => Hobj o ((fix go o : Forall (fun kv => P kv.2) o :=
      match o with
      | [] => List.Forall_nil (fun kv => P kv.2)
      | kv :: o => List.Forall_cons (fun kv => P kv.2) kv o (jsval_ind kv.2) (go o)
      end) o)
  | JFun f => Hfun f
  end.
End jsval_ind.

(** [v == null] *)
Definition is_nullish (v : jsval) : bool :=
  match v with JUndef | JNull => true | _ => false end.

(** [v ?? d] *)
Definition vnullish (v d : jsval) : jsval := if is_nullish v then d else v.

Definition truthy (v : jsval) : bool :=
  match v with
  | JUndef | JNull => false
  | JBool b => b
  | JNum n => Num.truthy n
  | JStr s => truthy_str s
  | JArr _ | JObj _ | JFun _ => true
  end.

(** [typeof v === 'object' && v !== null] *)
Definition is_object_type (v : jsval) : bool :=
  match v with JArr _ | JObj _ => true | _ => false end.

(** [typeof v === 'object' && v !== null && !Array.isArray(v)], with the
    object it finds. *)
Definition as_object (v : jsval) : option obj :=
  match v with JObj o => Some o | _ => None end.

Definition as_array (v : jsval) : option (list jsval) :=
  match v with JArr l => Some l | _ => None end.

Definition as_string (v : jsval) : option string :=
  match v with JStr s => Some s | _ => None end.

Definition as_number (v : jsval) : option num :=
  match v with JNum n => Some n | _ => None end.

Definition as_boolean (v : jsval) : option bool :=
  match v with JBool b => Some b | _ => None end.

(** [v === true] *)
Definition is_true (v : jsval) : bool :=
  match v with JBool b => b | _ => false end.

(** ** Objects *)

Section Properties.
Context {A : Type}.
Abbreviation props := (list (string * A)).

Fixpoint own_get (o : props) (k : string) : option A :=
  match o with
  | [] => None
  | (k', v) :: o => if k === k' then Some v else own_get o k
  end.

Definition has_own (o : props) (k : string) : bool :=
  match own_get o k with Some _ => true | None => false end.

Definition keys (o : props) : list string := map fst o.
End Properties.

(** The method names every object inherits from Object.prototype. *)
Definition object_prototype_methods : list string :=
  ["constructor"; "__defineGetter__"; "__defineSetter__"; "hasOwnProperty";
   "__lookupGetter__"; "__lookupSetter__"; "isPrototypeOf";
   "propertyIsEnumerable"; "toString"; "valueOf"; "toLocaleString"].

(** What a lookup of [k] finds on Object.prototype.  The accessor
    [__proto__] yields Object.prototype itself, which has no enumerable
    property. *)
Definition inherited (k : string) : jsval :=
  if existsb (String.eqb k) object_prototype_methods then JFun k
  else if k === "__proto__" then JObj []
  else JUndef.

(** [o[k]] on an object. *)
Definition get (o : obj) (k : string) : jsval := own_get o k ?? inherited k.

(** Array indices come first among the keys, in ascending order. *)
Fixpoint decimal_value (s : string) (acc : N) : option N :=
  match s with
  | "" => Some acc
  | String c s =>
      if is_digit c then decimal_value s (10 * acc + (N_of_ascii c - 48))%N else None
  end.

Definition array_index (s : string) : option N :=
  match s with
  | "" => None
  | "0" => Some 0%N
  | String "0"%char _ => None
  | _ => n ← decimal_value s 0%N; if (n <? 2 ^ 32 - 1)%N then Some n else None
  end.

Definition key_before (k k' : string) : bool :=
  match array_index k, array_index k' with
  | Some n, Some n' => (n <? n')%N
  | Some _, None => true
  | None, _ => false
  end.

Section Updates.
Context {A : Type}.
Abbreviation props := (list (string * A)).

(** Define [k] as an own property: replaced where it stands, or entered at
    the place of its key. *)
Fixpoint put_new (o : props) (k : string) (v : A) : props :=
  match o with
  | [] => [(k, v)]
  | (k', v') :: o =>
      if key_before k k' then (k, v) :: (k', v') :: o
      else (k', v') :: put_new o k v
  end.
Fixpoint replace (o : props) (k : string) (v : A) : props :=
  match o with
  | [] => []
  | (k', v') :: o => if k === k' then (k, v) :: o else (k', v') :: replace o k v
  end.
Definition put (o : props) (k : string) (v : A) : props :=
  if has_own o k then replace o k v else put_new o k v.

(** [{ ...o, ...o' }] *)
Definition spread (o o' : props) : props :=
  fold_left (fun acc kv => put acc kv.1 kv.2) o' o.

(** A JavaScript Map: entries in the order of their first insertion. *)
Definition map_set (o : props) (k : string) (v : A) : props :=
  if has_own o k then replace o k v else o ++ [(k, v)].

(** [delete o[k]] *)
Definition remove (o : props) (k : string) : props :=
  List.filter (fun kv => negb (kv.1 === k)) o.
End Updates.

(** [o[k] = v]: like [put], except that without an own [__proto__] the
    assignment goes to the inherited setter, which ignores a value that is
    neither an object nor null (the only values the code assigns). *)
Definition assign (o : obj) (k : string) (v : jsval) : obj :=
  if (k === "__proto__") && negb (has_own o k) then o else put o k v.

(** [v[k]] for a property name that arrays, strings, numbers and functions
    do not have. *)
Definition prop (v : jsval) (k : string) : jsval :=
  match v with JObj o => get o k | _ => JUndef end.

(** The own enumerable properties of a value that is spread. *)
Definition own_entries (v : jsval) : obj :=
  match v with
  | JObj o => o
  | JArr l => imap (fun i x => (pretty.pretty (N.of_nat i), x)) l
  | _ => []
  end.

(** ** [String(v)] *)

Definition primitive_error : string := "Cannot convert object to primitive value".

Definition function_text (name : string) : string :=
  "function " +:+ (if name === "constructor" then "Object" else name)
    +:+ "() { [native code] }".

Fixpoint to_str (v : jsval) : res string :=
  match v with
  | JUndef => Ok "undefined"
  | JNull => Ok "null"
  | JBool b => Ok (if b then "true" else "false")
  | JNum n => Ok (Num.to_string n)
  | JStr s => Ok s
  | JArr l =>
      let! ss := (fix go l := match l with
        | [] => Ok []
        | x :: l =>
            let! s := if is_nullish x then Ok "" else to_str x in
            let! ss := go l in Ok (s :: ss)
        end) l in
      Ok (join "," ss)
  | JObj o => if has_own o "toString" then Exn primitive_error else Ok "[object Object]"
  | JFun f => Ok (function_text f)
  end.

(** [String(v ?? d)] *)
Definition str_or (v : jsval) (d : string) : res string := to_str (vnullish v (JStr d)).

(** ** [Number(v)] *)

Local Open Scope Z_scope.

Definition digit_value (c : ascii) : Z := Z.of_N (N_of_ascii c) - 48.

(** A maximal run of decimal digits: its value, how many, what follows. *)
Fixpoint take_digits (s : string) (acc : Z) (n : Z) : Z * Z * string :=
  match s with
  | String c s' =>
      if is_digit c then take_digits s' (10 * acc + digit_value c) (n + 1)
      else (acc, n, s)
  | "" => (acc, n, s)
  end.

(** An optional exponent part, which must end the text. *)
Definition exponent_part (s : string) : option Z :=
  match s with
  | "" => Some 0
  | String c s =>
      if Ascii.eqb c "e" || Ascii.eqb c "E" then
        let '(neg, s) := match s with
                         | String "-" s => (true, s)
                         | String "+" s => (false, s)
                         | _ => (false, s)
                         end in
        match take_digits s 0 0 with
        | (e, n, "") => if n =? 0 then None else Some (if neg then - e else e)
        | _ => None
        end
      else None
  end.

(** StrUnsignedDecimalLiteral without [Infinity]. *)
Definition unsigned_decimal (sign : bool) (s : string) : num :=
  let '(m, n, s) := take_digits s 0 0 in
  let '(m, n', s) := match s with
                     | String "." s =>
                         let '(m', n', s) := take_digits s m 0 in (m', n', s)
                     | _ => (m, 0, s)
                     end in
  if n + n' =? 0 then Num.nan
  else match exponent_part s with
       | Some e => Num.of_decimal sign m (e - n')
       | None => Num.nan
       end.

Definition radix_digit (c : ascii) : Z :=
  if is_digit c then digit_value c
  else if between 65 70 c then Z.of_N (N_of_ascii c) - 55
  else if between 97 102 c then Z.of_N (N_of_ascii c) - 87
  else 99.

Fixpoint radix_value (r : Z) (s : string) (acc : Z) : option Z :=
  match s with
  | "" => Some acc
  | String c s =>
      if radix_digit c <? r then radix_value r s (r * acc + radix_digit c) else None
  end.

Definition radix_literal (r : Z) (s : string) : num :=
  match s with
  | "" => Num.nan
  | _ => match radix_value r s 0 with Some z => Num.of_Z z | None => Num.nan end
  end.

(** StringToNumber *)
Definition number_of_string (s : string) : num :=
  match trim s with
  | "" => Num.zero
  | String "0" (String c r) as t =>
      if Ascii.eqb c "x" || Ascii.eqb c "X" then radix_literal 16 r
      else if Ascii.eqb c "o" || Ascii.eqb c "O" then radix_literal 8 r
      else if Ascii.eqb c "b" || Ascii.eqb c "B" then radix_literal 2 r
      else unsigned_decimal false t
  | t =>
      let '(sign, u) := match t with
                        | String "-" u => (true, u)
                        | String "+" u => (false, u)
                        | _ => (false, t)
                        end in
      if u === "Infinity" then S754_infinity sign else unsigned_decimal sign u
  end.

Definition to_number (v : jsval) : res num :=
  match v with
  | JUndef | JFun _ => Ok Num.nan
  | JNull => Ok Num.zero
  | JBool b => Ok (if b then Num.of_Z 1 else Num.zero)
  | JNum n => Ok n
  | JStr s => Ok (number_of_string s)
  | JArr _ | JObj _ => let! s := to_str v in Ok (number_of_string s)
  end.

(** ** [JSON.stringify] *)

Definition dquote : ascii := ascii_of_N 34.
Definition backslash : ascii := ascii_of_N 92.
Definition newline : string := String (ascii_of_N 10) "".

Definition escaped (c : ascii) : string := String backslash (String c "").

Definition hex_lower (n : N) : ascii := ascii_of_N (if (n <? 10)%N then 48 + n else 87 + n).

Definition quote_char (c : ascii) : string :=
  let n := N_of_ascii c in
  if (n =? 34)%N || (n =? 92)%N then escaped c
  else if (n =? 8)%N then escaped "b"
  else if (n =? 9)%N then escaped "t"
  else if (n =? 10)%N then escaped "n"
  else if (n =? 12)%N then escaped "f"
  else if (n =? 13)%N then escaped "r"
  else if (n <? 32)%N then
    escaped "u" +:+ "00"
      +:+ String (hex_lower (n / 16)) (String (hex_lower (n mod 16)) "")
  else String c "".

Definition quote (s : string) : string :=
  String dquote (sflat quote_char s +:+ String dquote "").

(** The members of an array or object between brackets, one per line when
    the gap is not empty. *)
Definition bracket (gap indent : string) (l r : ascii) (items : list string) : string :=
  match items with
  | [] => String l (String r "")
  | _ =>
      if gap === "" then String l (join "," items +:+ String r "")
      else
        let inner := newline +:+ indent +:+ gap in
        String l (inner +:+ join ("," +:+ inner) items
                    +:+ newline +:+ indent +:+ String r "")
  end.

(** [None] stands for a value that is left out ([undefined], a function). *)
Fixpoint stringify (gap indent : string) (v : jsval) : option string :=
  match v with
  | JUndef | JFun _ => None
  | JNull => Some "null"
  | JBool b => Some (if b then "true" else "false")
  | JNum n => Some (if Num.is_finite n then Num.to_string n else "null")
  | JStr s => Some (quote s)
  | JArr l =>
      Some (bracket gap indent "[" "]"
        (map (fun x => default "null" (stringify gap (indent +:+ gap) x)) l))
  | JObj o =>
      Some (bracket gap indent "{" "}"
        ((fix go o := match o with
          | [] => []
          | (k, x) :: o =>
              match stringify gap (indent +:+ gap) x with
              | Some t => (quote k +:+ (if gap === "" then ":" else ": ") +:+ t) :: go o
              | None => go o
              end
          end) o))
  end.

(** [JSON.stringify(o)] and [JSON.stringify(o, null, 2)] of an object. *)
Definition json_text (o : obj) : string := default "" (stringify "" "" (JObj o)).
Definition json_text_indented (o : obj) : string := default "" (stringify "  " "" (JObj o)).

(** ** [JSON.parse]

    A recursive-descent reader; [None] is a SyntaxError.  Every recursive
    call consumes input, so twice the length of the text is enough fuel (see
    [parse_value_enough]).  A [\u] escape above U+00FF denotes a unit outside the range of the development
    and is refused. *)

Definition is_json_ws (c : ascii) : bool :=
  existsb (N.eqb (N_of_ascii c)) [32; 9; 10; 13]%N.

Fixpoint skip_ws (s : string) : string :=
  match s with
  | String c s' => if is_json_ws c then skip_ws s' else s
  | "" => ""
  end.

Definition unescape (c : ascii) : option ascii :=
  match N_of_ascii c with
  | 34 | 92 | 47 => Some c
  | 98 => Some (ascii_of_N 8)
  | 102 => Some (ascii_of_N 12)
  | 110 => Some (ascii_of_N 10)
  | 114 => Some (ascii_of_N 13)
  | 116 => Some (ascii_of_N 9)
  | _ => None
  end%N.

(** The rest of a string literal after its opening quote. *)
Fixpoint parse_string (s : string) : option (string * string) :=
  match s with
  | "" => None
  | String c s =>
      if Ascii.eqb c dquote then Some ("", s)
      else if Ascii.eqb c backslash then
        match s with
        | String "u" (String a (String b (String x (String y s)))) =>
            match radix_value 16 (String a (String b (String x (String y "")))) 0 with
            | Some n =>
                if n <? 256 then
                  '(t, r) ← parse_string s; Some (String (ascii_of_N (Z.to_N n)) t, r)
                else None
            | None => None
            end
        | String e s =>
            e ← unescape e; '(t, r) ← parse_string s; Some (String e t, r)
        | "" => None
        end
      else if (N_of_ascii c <? 32)%N then None
      else '(t, r) ← parse_string s; Some (String c t, r)
  end.

(** A maximal prefix of units from a class. *)
Fixpoint span (p : ascii -> bool) (s : string) : string * string :=
  match s with
  | String c s' => if p c then let '(a, b) := span p s' in (String c a, b) else ("", s)
  | "" => ("", "")
  end.

(** A JSON number: an optional minus, an integer part without a leading
    zero, an optional non-empty fraction, an optional exponent; its value is
    the one [Number] gives it. *)
Definition json_number_chars (c : ascii) : bool :=
  is_digit c || existsb (Ascii.eqb c) ["+"; "-"; "."; "e"; "E"]%char.

Definition strict_fraction (s : string) : bool :=
  match take_digits s 0 0 with
  | (_, _, String "." r) => let '(_, n, _) := take_digits r 0 0 in negb (n =? 0)
  | _ => true
  end.

Definition parse_number (s : string) : option (jsval * string) :=
  let '(t, r) := span json_number_chars s in
  let '(sign, u) := match t with String "-" u => (true, u) | _ => (false, t) end in
  let leading_ok := match u with
                    | String "0" (String d _) => negb (is_digit d)
                    | String d _ => is_digit d
                    | "" => false
                    end in
  let n := unsigned_decimal sign u in
  if leading_ok && strict_fraction u && negb (Num.is_nan n) then Some (JNum n, r) else None.

Definition literal (w : string) (v : jsval) (s : string) : option (jsval * string) :=
  if startsWith s w then Some (v, sdrop (String.length w) s) else None.

Fixpoint parse_value (fuel : nat) (s : string) {struct fuel} : option (jsval * string) :=
  match fuel with
  | O => None
  | S fuel =>
      match skip_ws s with
      | "" => None
      | String c r as t =>
          if Ascii.eqb c dquote then '(x, r) ← parse_string r; Some (JStr x, r)
          else if Ascii.eqb c "[" then
            match skip_ws r with
            | String "]" r => Some (JArr [], r)
            | r => '(l, r) ← parse_items fuel r; Some (JArr l, r)
            end
          else if Ascii.eqb c "{" then
            match skip_ws r with
            | String "}" r => Some (JObj [], r)
            | r => '(o, r) ← parse_members fuel r []; Some (JObj o, r)
            end
          else if Ascii.eqb c "t" then literal "true" (JBool true) t
          else if Ascii.eqb c "f" then literal "false" (JBool false) t
          else if Ascii.eqb c "n" then literal "null" JNull t
          else parse_number t
      end
  end
with parse_items (fuel : nat) (s : string) {struct fuel} : option (list jsval * string) :=
  match fuel with
  | O => None
  | S fuel =>
      '(v, r) ← parse_value fuel s;
      match skip_ws r with
      | String "," r => '(l, r) ← parse_items fuel r; Some (v :: l, r)
      | String "]" r => Some ([v], r)
      | _ => None
      end
  end
with parse_members (fuel : nat) (s : string) (acc : obj) {struct fuel} : option (obj * string) :=
  match fuel with
  | O => None
  | S fuel =>
      match skip_ws s with
      | String c r =>
          if Ascii.eqb c dquote then
            '(k, r) ← parse_string r;
            match skip_ws r with
            | String ":" r =>
                '(v, r) ← parse_value fuel r;
                match skip_ws r with
                | String "," r => parse_members fuel r (put acc k v)
                | String "}" r => Some (put acc k v, r)
                | _ => None
                end
            | _ => None
            end
          else None
      | "" => None
      end
  end.

Definition json_parse (s : string) : option jsval :=
  '(v, r) ← parse_value (2 * String.length s + 2) s;
  if skip_ws r === "" then Some v else None.

(** ** Lemmas on objects *)

Section Objects.
Context {A : Type}.
Implicit Types (o : list (string * A)) (k : string) (v : A).

Lemma own_get_put_new_eq o k v : own_get o k = None -> own_get (put_new o k v) k = Some v.
Proof.
  induction o as [|[k' v'] o IH]; cbn; intros H.
  - by rewrite String.eqb_refl.
  - destruct (key_before k k'); cbn; [by rewrite String.eqb_refl|].
    destruct (k === k'); [done|]. by apply IH.
Qed.

Lemma own_get_put_new_ne o k k' v : k' <> k -> own_get (put_new o k v) k' = own_get o k'.
Proof.
  intros Hne%String.eqb_neq. induction o as [|[k1 v1] o IH]; cbn.
  - by rewrite Hne.
  - destruct (key_before k k1); cbn; [by rewrite Hne|].
    destruct (k' === k1); [done|]. apply IH.
Qed.

Lemma own_get_replace_eq o k v : has_own o k = true -> own_get (replace o k v) k = Some v.
Proof.
  unfold has_own. induction o as [|[k' v'] o IH]; cbn; [done|].
  destruct (k === k') eqn:E; cbn; [by rewrite String.eqb_refl|]. rewrite E. apply IH.
Qed.

Lemma own_get_replace_ne o k k' v : k' <> k -> own_get (replace o k v) k' = own_get o k'.
Proof.
  intros Hne%String.eqb_neq. induction o as [|[k1 v1] o IH]; cbn; [done|].
  destruct (k === k1) eqn:E; cbn.
  - apply String.eqb_eq in E as ->. by rewrite Hne.
  - destruct (k' === k1); [done|]. apply IH.
Qed.

(** A property just defined is found, the others are as before. *)
Lemma own_get_put_eq o k v : own_get (put o k v) k = Some v.
Proof.
  unfold put. destruct (has_own o k) eqn:E; [by apply own_get_replace_eq|].
  apply own_get_put_new_eq. unfold has_own in E. by destruct (own_get o k).
Qed.

Lemma own_get_put_ne o k k' v : k' <> k -> own_get (put o k v) k' = own_get o k'.
Proof.
  intros. unfold put.
  destruct (has_own o k); [by apply own_get_replace_ne|by apply own_get_put_new_ne].
Qed.

Lemma has_own_keys (o : list (string * A)) k : has_own o k = true <-> In k (keys o).
Proof.
  unfold has_own, keys. induction o as [|[k' v'] o IH]; cbn; [done|].
  destruct (String.eqb_spec k k') as [->|Hk]; [by split; [left|]|]. rewrite IH. naive_solver.
Qed.

Lemma keys_replace (o : list (string * A)) k v : keys (replace o k v) = keys o.
Proof.
  unfold keys. induction o as [|[k' v'] o IH]; [done|]. cbn.
  destruct (String.eqb_spec k k') as [->|?]; cbn; [done|by rewrite IH].
Qed.

Lemma map_set_nodup (o : list (string * A)) k v : List.NoDup (keys o) -> List.NoDup (keys (map_set o k v)).
Proof.
  intros Ho. unfold map_set. destruct (has_own o k) eqn:E; [by rewrite keys_replace|].
  unfold keys. rewrite map_app. cbn. apply List.NoDup_app; [done|apply List.NoDup_cons; [by intros []|apply List.NoDup_nil]|].
  intros x Hx [->|[]]. apply has_own_keys in Hx. congruence.
Qed.

Lemma map_set_forall (P : string * A -> Prop) (o : list (string * A)) k v :
  List.Forall P o -> P (k, v) -> List.Forall P (map_set o k v).
Proof.
  intros Ho Hv. unfold map_set. destruct (has_own o k); [|by apply Forall_app; split; [|constructor]].
  induction Ho as [|[k' v'] o Hk Ho IH]; cbn; [done|]. destruct (k === k'); by constructor.
Qed.

(** Replacing an entry changes a sum over the entries by what it changes. *)
Lemma map_set_sum (f : A -> nat) (o : list (string * A)) k v :
  (list_sum (map (fun kv => f kv.2) (map_set o k v)) + match own_get o k with Some v' => f v' | None => 0 end
   = list_sum (map (fun kv => f kv.2) o) + f v)%nat.
Proof.
  unfold map_set, has_own. destruct (own_get o k) as [v'|] eqn:E.
  - revert E. unfold list_sum. induction o as [|[k' w] o IH]; cbn; [done|]. destruct (k === k'); cbn.
    + intros [= ->]. lia.
    + intros H%IH. lia.
  - rewrite map_app, list_sum_app. cbn. lia.
Qed.

Lemma own_get_remove_eq o k : own_get (remove o k) k = None.
Proof.
  induction o as [|[k' v'] o IH]; cbn; [done|].
  destruct (k' === k) eqn:E; cbn; [done|].
  rewrite String.eqb_sym in E. by rewrite E.
Qed.

Lemma own_get_remove_ne o k k' : k' <> k -> own_get (remove o k) k' = own_get o k'.
Proof.
  intros Hne. induction o as [|[k1 v1] o IH]; [done|]. cbn. destruct (String.eqb_spec k1 k) as [->|H1]; cbn.
  - rewrite (proj2 (String.eqb_neq k' k) Hne). exact IH.
  - by destruct (k' === k1).
Qed.

Lemma own_get_elem o k v : own_get o k = Some v -> In (k, v) o.
Proof.
  induction o as [|[k' v'] o IH]; cbn; [done|].
  destruct (k === k') eqn:E.
  - apply String.eqb_eq in E as ->. intros [= ->]. by left.
  - intros. right. auto.
Qed.
End Objects.

Lemma get_put_eq o k v : get (put o k v) k = v.
Proof. unfold get. by rewrite own_get_put_eq. Qed.

Lemma get_put_ne o k k' v : k' <> k -> get (put o k v) k' = get o k'.
Proof. intros. unfold get. by rewrite own_get_put_ne. Qed.

#[export] Hint Rewrite @own_get_put_eq @get_put_eq : js.

(** ** What a computation returns when it does not throw *)

Definition yields {A} (Q : A -> Prop) (m : res A) : Prop :=
  match m with Ok a => Q a | Exn _ => True end.

Lemma yields_true {A} (m : res A) : yields (fun _ => True) m.
Proof. by destruct m. Qed.

Lemma yields_bind {A B} (P : A -> Prop) (Q : B -> Prop) (m : res A) (k : A -> res B) :
  yields P m -> (forall a, P a -> yields Q (k a)) -> yields Q (let! a := m in k a).
Proof. destruct m as [a|e]; cbn; auto. Qed.

Lemma yields_then {A B} (Q : B -> Prop) (m : res A) (k : A -> res B) :
  (forall a, yields Q (k a)) -> yields Q (let! a := m in k a).
Proof. destruct m as [a|e]; cbn; auto. Qed.

Lemma yields_mapM {A B} (Q : B -> Prop) (f : A -> res B) l :
  (forall a, yields Q (f a)) -> yields (List.Forall Q) (res_mapM f l).
Proof.
  intros Hf. induction l as [|a l IH]; [constructor|]. cbn [res_mapM].
  apply (yields_bind Q); [apply Hf|]. intros b Hb.
  apply (yields_bind (List.Forall Q)); [apply IH|]. intros bs Hbs. by constructor.
Qed.

(** ** Computations that do not throw *)

Definition returns {A} (m : res A) : Prop := exists a, m = Ok a.

Lemma returns_bind {A B} (m : res A) (k : A -> res B) :
  returns m -> (forall a, returns (k a)) -> returns (let! a := m in k a).
Proof. intros [a ->] Hk. apply Hk. Qed.

Lemma returns_mapM {A B} (f : A -> res B) l :
  List.Forall (fun a => returns (f a)) l -> returns (res_mapM f l).
Proof.
  induction 1 as [|a l Ha _ IH]; [by eexists|]. cbn [res_mapM].
  apply returns_bind; [done|]. intros b. apply returns_bind; [done|]. intros bs. by eexists.
Qed.

(** A value every part of which can be turned into text: no object hides
    the inherited [toString]. *)
Fixpoint plain (v : jsval) : bool :=
  match v with
  | JArr l => forallb plain l
  | JObj o => negb (has_own o "toString") && forallb (fun kv => plain kv.2) o
  | _ => true
  end.

Lemma plain_to_str v : plain v = true -> returns (to_str v).
Proof.
  induction v as [| | b | n | s | l IH | o IH | f] using jsval_ind; intros Hv; try (by eexists).
  - cbn in *. apply returns_bind; [|intros ss; by eexists].
    induction IH as [|x l Hx _ IHl]; [by eexists|].
    cbn in Hv. apply andb_true_iff in Hv as [Hx' Hl].
    apply returns_bind; [destruct (is_nullish x); [by eexists|auto]|]. intros s.
    apply returns_bind; [auto|]. intros ss. by eexists.
  - cbn in *. apply andb_true_iff in Hv as [->%negb_true_iff _]. by eexists.
Qed.

Lemma plain_inherited k : plain (inherited k) = true.
Proof. unfold inherited. by repeat case_match. Qed.

Lemma plain_prop v k : plain v = true -> plain (prop v k) = true.
Proof.
  destruct v as [| | | | | |o|]; try done. cbn. intros [_ Ho]%andb_true_iff. unfold get.
  destruct (own_get o k) as [x|] eqn:E; [|apply plain_inherited].
  apply own_get_elem in E. rewrite forallb_forall in Ho. exact (Ho _ E).
Qed.

Lemma plain_vnullish v d : plain v = true -> plain d = true -> plain (vnullish v d) = true.
Proof. unfold vnullish. by destruct (is_nullish v). Qed.

Lemma plain_str_or v d : plain v = true -> returns (str_or v d).
Proof. intros Hv. by apply plain_to_str, plain_vnullish. Qed.

Create HintDb plain.
#[export] Hint Resolve plain_prop plain_vnullish plain_str_or plain_to_str : plain.

(** ** The fuel of [JSON.parse] *)

Lemma skip_ws_shorter s : (String.length (skip_ws s) <= String.length s)%nat.
Proof.
  induction s as [|c s IH]; [done|]. cbn [skip_ws]. destruct (is_json_ws c); cbn [String.length]; lia.
Qed.

Lemma span_shorter p s : (String.length (span p s).2 <= String.length s)%nat.
Proof.
  induction s as [|c s IH]; cbn; [done|]. destruct (p c); [|done].
  destruct (span p s) as [a b]. cbn in *. lia.
Qed.

Lemma sdrop_shorter n s : (String.length (sdrop n s) <= String.length s)%nat.
Proof. revert s. induction n as [|n IH]; intros [|c s]; cbn; try lia. specialize (IH s). lia. Qed.

Definition consumes {A} (s : string) (o : option (A * string)) : Prop :=
  match o with Some (_, r) => (String.length r <= String.length s)%nat | None => True end.

Lemma consumes_bind {A B} s s' (o : option (A * string)) (k : A -> string -> option (B * string)) :
  consumes s' o ->
  (forall a r, (String.length r <= String.length s')%nat -> consumes s (k a r)) ->
  consumes s ('(a, r) ← o; k a r).
Proof. destruct o as [[a r]|]; cbn; auto. Qed.

Lemma consumes_weaken {A} s s' (o : option (A * string)) :
  (String.length s' <= String.length s)%nat -> consumes s' o -> consumes s o.
Proof. destruct o as [[a r]|]; cbn; [lia|done]. Qed.

Lemma parse_string_shorter s : consumes s (parse_string s).
Proof.
  remember (String.length s) as n eqn:Hn.
  assert (String.length s <= n)%nat as Hs by lia. clear Hn. revert s Hs.
  induction n as [|n IH]; intros [|c s] Hs; cbn in Hs; try done; try lia.
  assert (forall t e, (String.length t <= String.length s)%nat ->
            consumes (String c s) ('(x, r) ← parse_string t; Some (String e x, r))) as Hk.
  { intros t e Ht. apply (consumes_bind _ t); [apply IH; lia|]. cbn. lia. }
  cbn [parse_string]. repeat case_match; subst; try done; try (cbn; lia);
    try (apply Hk; cbn; lia).
  all: destruct (unescape _); cbn [mbind option_bind]; [apply Hk; cbn; lia|done].
Qed.

Lemma parse_number_shorter s : consumes s (parse_number s).
Proof.
  unfold parse_number. pose proof (span_shorter json_number_chars s) as H.
  destruct (span json_number_chars s) as [t r]. cbn [snd] in H.
  destruct (match t with String "-" u => (true, u) | _ => (false, t) end) as [sign u].
  by destruct (_ && _).
Qed.

Lemma literal_shorter w v s : consumes s (literal w v s).
Proof. unfold literal. destruct (startsWith s w); [apply sdrop_shorter|done]. Qed.

(** Case analysis on the next unit, [r] being the rest after it. *)
Ltac next_unit x r :=
  let H := fresh in
  pose proof (skip_ws_shorter x) as H;
  destruct (skip_ws x) as [|[[] [] [] [] [] [] [] []] r]; cbn [String.length] in H; try exact I.

Lemma parse_consumes n :
  (forall s, consumes s (parse_value n s)) /\ (forall s, consumes s (parse_items n s))
  /\ (forall s acc, consumes s (parse_members n s acc)).
Proof.
  induction n as [|n (IHv & IHi & IHm)]; [done|]. split_and!.
  - intros s. cbn [parse_value]. pose proof (skip_ws_shorter s) as Hs.
    destruct (skip_ws s) as [|c r]; [done|]. apply (consumes_weaken s (String c r) _ Hs).
    repeat match goal with |- context [if ?b then _ else _] => destruct b end;
      try apply literal_shorter; try apply parse_number_shorter.
    + apply (consumes_bind _ r); [apply parse_string_shorter|]. cbn. lia.
    + assert (forall r', (String.length r' <= String.length r)%nat ->
                consumes (String c r) ('(l, r) ← parse_items n r'; Some (JArr l, r))) as Hk.
      { intros r' Hr. apply (consumes_bind _ r'); [apply IHi|]. cbn. lia. }
      next_unit r r'; try (apply Hk; cbn; lia). cbn. lia.
    + assert (forall r', (String.length r' <= String.length r)%nat ->
                consumes (String c r) ('(l, r) ← parse_members n r' []; Some (JObj l, r))) as Hk.
      { intros r' Hr. apply (consumes_bind _ r'); [apply IHm|]. cbn. lia. }
      next_unit r r'; try (apply Hk; cbn; lia). cbn. lia.
  - intros s. cbn [parse_items]. apply (consumes_bind _ s); [apply IHv|]. intros v r Hr.
    next_unit r r'; [cbn; lia|].
    apply (consumes_bind _ r'); [apply IHi|]. cbn. lia.
  - intros s acc. cbn [parse_members]. pose proof (skip_ws_shorter s) as Hs.
    destruct (skip_ws s) as [|c r]; [done|]. cbn [String.length] in Hs.
    destruct (Ascii.eqb c dquote); [|done].
    apply (consumes_bind _ r); [apply parse_string_shorter|]. intros k r1 H1.
    next_unit r1 r2. apply (consumes_bind _ r2); [apply IHv|]. intros v r3 H3.
    next_unit r3 r4; [cbn; lia|].
    apply (consumes_weaken _ r4); [lia|apply IHm].
Qed.

Lemma bind_ext {A B} (o : option (A * string)) (f g : A -> string -> option (B * string)) :
  (forall a r, o = Some (a, r) -> f a r = g a r) -> ('(a, r) ← o; f a r) = ('(a, r) ← o; g a r).
Proof. destruct o as [[a r]|]; cbn; auto. Qed.

Lemma parse_stable n :
  (forall s, (2 * String.length s < n)%nat -> parse_value n s = parse_value (S n) s)
  /\ (forall s, (2 * String.length s + 1 < n)%nat -> parse_items n s = parse_items (S n) s)
  /\ (forall s acc, (2 * String.length s + 1 < n)%nat -> parse_members n s acc = parse_members (S n) s acc).
Proof.
  induction n as [|n (IHv & IHi & IHm)]; [split_and!; intros; lia|]. split_and!.
  - intros s Hn. cbn [parse_value]. pose proof (skip_ws_shorter s) as Hs.
    destruct (skip_ws s) as [|c r]; [done|]. cbn [String.length] in Hs.
    destruct (Ascii.eqb c dquote); [done|]. destruct (Ascii.eqb c "[");
      [|destruct (Ascii.eqb c "{"); [|done]].
    + next_unit r r'; try done; rewrite IHi; try done; cbn [String.length]; lia.
    + next_unit r r'; try done; rewrite IHm; try done; cbn [String.length]; lia.
  - intros s Hn. cbn [parse_items]. rewrite (IHv s) by lia. apply bind_ext. intros v r E.
    pose proof (proj1 (parse_consumes (S n)) s) as Hc. rewrite E in Hc. cbn [consumes] in Hc.
    next_unit r r'; try done. by rewrite IHi by lia.
  - intros s acc Hn. cbn [parse_members]. pose proof (skip_ws_shorter s) as Hs.
    destruct (skip_ws s) as [|c r]; [done|]. cbn [String.length] in Hs.
    destruct (Ascii.eqb c dquote); [|done]. apply bind_ext. intros k r1 E1.
    pose proof (parse_string_shorter r) as H1. rewrite E1 in H1. cbn [consumes] in H1.
    next_unit r1 r2; try done. rewrite (IHv r2) by lia. apply bind_ext. intros v r3 E3.
    pose proof (proj1 (parse_consumes (S n)) r2) as H3. rewrite E3 in H3. cbn [consumes] in H3.
    next_unit r3 r4; try done. apply IHm. lia.
Qed.

(** More fuel than [json_parse] gives changes nothing. *)
Lemma parse_value_enough n s :
  (2 * String.length s + 2 <= n)%nat -> parse_value n s = parse_value (2 * String.length s + 2) s.
Proof.
  intros Hn. induction Hn as [|n Hn IH]; [done|]. rewrite <- IH. symmetry.
  apply parse_stable. lia.
Qed.
