(* ===== verification/JsonText.v ===== *)
(** * JSON texts read back

    The pages and routes exchange JSON: one side writes a value with
    [JSON.stringify], the other reads the text with [JSON.parse].  This file
    proves that the reader of [JsValue] gives back what the writer wrote,
    for every value that JSON can carry; a number must be one whose own text
    reads back, which evaluation decides. *)

From S2P Require Import Prelude JsNumber JsString JsValue.

(** ** Texts *)

Lemma parse_quoted_char c t :
  parse_string (quote_char c +:+ t) = ('(x, r) ← parse_string t; Some (String c x, r)).
Proof. destruct c as [[] [] [] [] [] [] [] []]; reflexivity. Qed.

Lemma parse_quoted s rest :
  parse_string (sflat quote_char s +:+ String dquote rest) = Some (s, rest).
Proof.
  induction s as [|c s IH]; [reflexivity|]. cbn [sflat].
  rewrite append_assoc, parse_quoted_char, IH. reflexivity.
Qed.

Lemma quote_text s rest : quote s +:+ rest = String dquote (sflat quote_char s +:+ String dquote rest).
Proof. unfold quote. cbn [String.append]. by rewrite append_assoc. Qed.

(** ** Numbers *)

(** The text of the number reads back as the number. *)
Definition reads_back (n : num) : Prop :=
  Num.is_finite n = true /\ parse_number (Num.to_string n) = Some (JNum n, "").

Lemma span_app p s : let '(a, b) := span p s in s = a +:+ b.
Proof.
  induction s as [|c s IH]; [done|]. cbn [span]. destruct (p c); [|done]. destruct (span p s) as [a b].
  cbn. by rewrite <- IH.
Qed.

Definition stops (p : ascii -> bool) (rest : string) : Prop :=
  match rest with String c _ => p c = false | "" => True end.

Lemma span_whole p s rest : (span p s).2 = "" -> stops p rest -> span p (s +:+ rest) = (s, rest).
Proof.
  induction s as [|c s IH]; cbn; intros Hs Hr.
  - destruct rest as [|c rest]; [done|]. cbn. cbn in Hr. by rewrite Hr.
  - destruct (p c); [|done]. destruct (span p s) as [a b] eqn:E. cbn in Hs. subst b.
    by rewrite IH.
Qed.

(** What follows a value: the end of the text, or of the member. *)
Definition ends (rest : string) : Prop :=
  match rest with String c _ => c = ","%char \/ c = "]"%char \/ c = "}"%char | "" => True end.

Lemma ends_stops rest : ends rest -> stops json_number_chars rest.
Proof. destruct rest as [|c rest]; [done|]. by intros [->|[->| ->]]. Qed.

Lemma number_in_context n rest :
  reads_back n -> ends rest -> parse_number (Num.to_string n +:+ rest) = Some (JNum n, rest).
Proof.
  intros [_ Hp] Hr. set (t := Num.to_string n) in *. clearbody t. revert Hp. unfold parse_number.
  assert ((span json_number_chars t).2 = "" -> span json_number_chars (t +:+ rest) = (t, rest)) as Hspan
    by (intros H; apply span_whole; [done|by apply ends_stops]).
  pose proof (span_app json_number_chars t) as Ht. destruct (span json_number_chars t) as [a b].
  destruct (match a with String "-" u => (true, u) | _ => (false, a) end) as [sign u] eqn:E.
  destruct (_ && _) eqn:Hc; [|done]. intros [= Hn ->]. rewrite (Hspan eq_refl), append_nil_r in *. subst a.
  by rewrite E, Hc, Hn.
Qed.

(** A number begins with a digit or a minus. *)
Definition number_start (c : ascii) : bool := is_digit c || Ascii.eqb c "-".

Lemma number_starts t v : parse_number t = Some (v, "") -> exists c u, t = String c u /\ number_start c = true.
Proof.
  intros Hp. destruct t as [|c u]; [done|]. exists c, u. split; [done|]. revert Hp. unfold parse_number. cbn [span].
  destruct (span json_number_chars u) as [a b].
  destruct c as [[] [] [] [] [] [] [] []]; try reflexivity; cbn; done.
Qed.

Lemma number_dispatch c : number_start c = true ->
  is_json_ws c = false /\ Ascii.eqb c dquote = false /\ Ascii.eqb c "[" = false /\ Ascii.eqb c "{" = false
  /\ Ascii.eqb c "t" = false /\ Ascii.eqb c "f" = false /\ Ascii.eqb c "n" = false /\ c <> "]"%char /\ c <> "}"%char.
Proof. destruct c as [[] [] [] [] [] [] [] []]; try done; by split_and!. Qed.

(** ** Values *)

(** What JSON carries: no undefined and no function, numbers that read back,
    and objects whose keys differ and stand in the order objects keep. *)
Fixpoint json_plain (v : jsval) : Prop :=
  match v with
  | JNull | JBool _ | JStr _ => True
  | JNum n => reads_back n
  | JArr l => (fix all l := match l with [] => True | x :: l => json_plain x /\ all l end) l
  | JObj o => (fix all o := match o with [] => True | (_, x) :: o => json_plain x /\ all o end) o /\ spread [] o = o
  | JUndef | JFun _ => False
  end.

(** The text of a value, and that it reads back in front of any end. *)
Definition read_as (v : jsval) (t : string) : Prop :=
  (match t with String c _ => is_json_ws c = false /\ c <> "]"%char /\ c <> "}"%char | "" => False end)
  /\ forall rest fuel, ends rest -> (2 * String.length (t +:+ rest) + 2 <= fuel)%nat ->
       parse_value fuel (t +:+ rest) = Some (v, rest).

Lemma read_skip v t s : read_as v t -> skip_ws (t +:+ s) = t +:+ s.
Proof. intros [H _]. destruct t as [|c t]; [done|]. cbn [String.append skip_ws]. by destruct H as [-> _]. Qed.

Lemma skip_end c s : c = ","%char \/ c = "]"%char \/ c = "}"%char -> skip_ws (String c s) = String c s.
Proof. by intros [->|[->| ->]]. Qed.

Lemma read_string s : read_as (JStr s) (quote s).
Proof.
  split; [done|]. intros rest [|fuel] _ Hf; [lia|]. rewrite quote_text.
  change (parse_value (S fuel) (String dquote (sflat quote_char s +:+ String dquote rest)))
    with ('(x, r) ← parse_string (sflat quote_char s +:+ String dquote rest); Some (JStr x, r)).
  by rewrite parse_quoted.
Qed.

Lemma read_number n : reads_back n -> read_as (JNum n) (Num.to_string n).
Proof.
  intros Hn. destruct (number_starts _ _ (proj2 Hn)) as (c & u & E & Hc).
  destruct (number_dispatch c Hc) as (H1 & H2 & H3 & H4 & H5 & H6 & H7 & H8 & H9). split; [by rewrite E|].
  intros rest [|fuel] Hr Hf; [lia|]. pose proof (number_in_context n rest Hn Hr) as Hp. rewrite E in *.
  cbn [String.append parse_value skip_ws] in *. by rewrite H1, H2, H3, H4, H5, H6, H7.
Qed.

Lemma read_literals : read_as JNull "null" /\ forall b : bool, read_as (JBool b) (if b then "true" else "false").
Proof. split; [|intros []]; (split; [done|]); intros rest [|fuel] _ Hf; [lia|by destruct rest|lia|by destruct rest|lia|by destruct rest]. Qed.

(** The elements of an array after its bracket. *)
Lemma read_items l ts : Forall2 read_as l ts -> l <> [] -> forall rest fuel,
  (2 * String.length (join "," ts +:+ String "]" rest) + 3 <= fuel)%nat ->
  parse_items fuel (join "," ts +:+ String "]" rest) = Some (l, rest).
Proof.
  induction 1 as [|v t l ts Hv Hl IH]; [done|]. intros _ rest [|fuel] Hf; [lia|]. cbn [parse_items].
  destruct ts as [|t' ts].
  - inversion Hl; subst. cbn [join] in *. rewrite (proj2 Hv) by (cbn [ends]; first [by auto|lia]). done.
  - destruct l as [|v' l]; [by inversion Hl|]. change (join "," (t :: t' :: ts)) with (t +:+ String "," (join "," (t' :: ts))) in *.
    rewrite append_assoc in *. cbn [String.append] in *. rewrite (proj2 Hv) by (cbn [ends]; first [by auto|lia]). cbn [mbind option_bind].
    rewrite skip_end by auto. rewrite IH; [done|done|]. rewrite length_append in Hf. cbn [String.length] in Hf. lia.
Qed.

(** And the members of an object. *)
Definition member_text (k t : string) : string := quote k +:+ String ":" t.

Lemma member_parse fuel k t v tail acc :
  read_as v t -> ends tail -> (2 * String.length (member_text k t +:+ tail) + 3 <= fuel)%nat ->
  parse_members fuel (member_text k t +:+ tail) acc
  = match skip_ws tail with
    | String "," r => parse_members (pred fuel) r (put acc k v)
    | String "}" r => Some (put acc k v, r)
    | _ => None
    end.
Proof.
  intros Hv Ht Hf. unfold member_text in *. rewrite append_assoc in *. cbn [String.append] in *.
  assert (2 * String.length (t +:+ tail) + 2 <= pred fuel)%nat as Hf'
    by (rewrite length_append in Hf; cbn [String.length] in Hf; lia).
  destruct fuel as [|fuel]; [lia|]. cbn [pred] in *. rewrite quote_text.
  change (parse_members (S fuel) (String dquote (sflat quote_char k +:+ String dquote (String ":" (t +:+ tail)))) acc)
    with ('(k, r) ← parse_string (sflat quote_char k +:+ String dquote (String ":" (t +:+ tail)));
          match skip_ws r with
          | String ":" r =>
              '(v, r) ← parse_value fuel r;
              match skip_ws r with
              | String "," r => parse_members fuel r (put acc k v)
              | String "}" r => Some (put acc k v, r)
              | _ => None
              end
          | _ => None
          end).
  rewrite parse_quoted. cbn [mbind option_bind].
  change (skip_ws (String ":" (t +:+ tail))) with (String ":" (t +:+ tail)). cbv iota beta.
  by rewrite (proj2 Hv).
Qed.

Lemma read_members o ts : Forall2 (fun kv t => exists t', read_as kv.2 t' /\ t = member_text kv.1 t') o ts -> o <> [] ->
  forall rest fuel acc, (2 * String.length (join "," ts +:+ String "}" rest) + 3 <= fuel)%nat ->
  parse_members fuel (join "," ts +:+ String "}" rest) acc = Some (spread acc o, rest).
Proof.
  induction 1 as [|[k v] t o ts (t' & Hv & ->) Ho IH]; [done|]. intros _ rest fuel acc Hf. cbn [fst snd] in *.
  destruct ts as [|t2 ts].
  - inversion Ho; subst. cbn [join] in *. rewrite (member_parse _ _ _ v) by (cbn [ends]; first [by auto|lia]). done.
  - destruct o as [|kv o]; [by inversion Ho|].
    change (join "," (member_text k t' :: t2 :: ts)) with (member_text k t' +:+ String "," (join "," (t2 :: ts))) in *.
    rewrite append_assoc in *. cbn [String.append] in *. rewrite (member_parse _ _ _ v) by (cbn [ends]; first [by auto|lia]).
    rewrite skip_end by auto. cbn [spread fold_left fst snd]. apply IH; [done|].
    rewrite length_append in Hf. cbn [String.length] in Hf. lia.
Qed.

(** The text between brackets does not begin with space or a bracket. *)
Definition opens (s : string) : Prop :=
  match s with String c _ => is_json_ws c = false /\ c <> "]"%char /\ c <> "}"%char | "" => False end.

Lemma opens_app t s : opens t -> opens (t +:+ s).
Proof. by destruct t. Qed.

Lemma opens_join t ts s : opens t -> opens (join "," (t :: ts) +:+ s).
Proof.
  intros H. destruct ts as [|t' ts]; [by apply opens_app|].
  change (join "," (t :: t' :: ts)) with (t +:+ String "," (join "," (t' :: ts))). rewrite append_assoc. by apply opens_app.
Qed.

Lemma parse_open_array fuel s : opens s ->
  parse_value (S fuel) (String "[" s) = ('(l, r) ← parse_items fuel s; Some (JArr l, r)).
Proof.
  destruct s as [|c s]; [done|]. intros (Hw & Hb & _).
  change (parse_value (S fuel) (String "[" (String c s)))
    with (match skip_ws (String c s) with
          | String "]" r => Some (JArr [], r)
          | r => '(l, r) ← parse_items fuel r; Some (JArr l, r)
          end). cbn [skip_ws]. rewrite Hw. destruct c as [[] [] [] [] [] [] [] []]; done.
Qed.

Lemma parse_open_object fuel s : opens s ->
  parse_value (S fuel) (String "{" s) = ('(o, r) ← parse_members fuel s []; Some (JObj o, r)).
Proof.
  destruct s as [|c s]; [done|]. intros (Hw & _ & Hb).
  change (parse_value (S fuel) (String "{" (String c s)))
    with (match skip_ws (String c s) with
          | String "}" r => Some (JObj [], r)
          | r => '(o, r) ← parse_members fuel r []; Some (JObj o, r)
          end). cbn [skip_ws]. rewrite Hw. destruct c as [[] [] [] [] [] [] [] []]; done.
Qed.

Lemma bracket_text l r t ts rest :
  bracket "" "" l r (t :: ts) +:+ rest = String l (join "," (t :: ts) +:+ String r rest).
Proof. cbn [bracket String.append]. change ("" === "") with true. cbv iota. cbn [String.append]. by rewrite append_assoc. Qed.

Lemma read_array l ts : Forall2 read_as l ts -> read_as (JArr l) (bracket "" "" "[" "]" ts).
Proof.
  intros H. destruct H as [|v t l ts Hv Hl].
  - split; [done|]. intros rest [|fuel] _ Hf; [lia|done].
  - split; [done|]. intros rest [|fuel] Hr Hf; [lia|]. rewrite bracket_text in *. cbn [String.length] in Hf.
    rewrite parse_open_array by (apply opens_join, Hv). by rewrite (read_items (v :: l)) by (by constructor || lia || done).
Qed.

Lemma read_object o ts :
  Forall2 (fun kv t => exists t', read_as kv.2 t' /\ t = member_text kv.1 t') o ts -> spread [] o = o ->
  read_as (JObj o) (bracket "" "" "{" "}" ts).
Proof.
  intros H Ho. destruct H as [|kv t o ts Hv Hl].
  - split; [done|]. intros rest [|fuel] _ Hf; [lia|done].
  - split; [done|]. intros rest [|fuel] Hr Hf; [lia|]. rewrite bracket_text in *. cbn [String.length] in Hf.
    rewrite parse_open_object; cycle 1.
    { apply opens_join. destruct Hv as (t' & _ & ->). unfold member_text. by rewrite quote_text. }
    rewrite (read_members (kv :: o)) by (by constructor || lia || done). by rewrite Ho.
Qed.

Lemma written_read v : json_plain v -> exists t, stringify "" "" v = Some t /\ read_as v t.
Proof.
  induction v as [| |b|n|s|l IH|o IH|f] using jsval_ind; intros Hv; try done; cbn [stringify].
  - eexists. split; [done|]. apply read_literals.
  - eexists. split; [done|]. apply read_literals.
  - pose proof Hv as [Hf _]. rewrite Hf. eexists. split; [done|]. by apply read_number.
  - eexists. split; [done|]. apply read_string.
  - eexists. split; [done|]. apply read_array. induction IH as [|x l Hx _ IHl]; [constructor|].
    destruct Hv as [Hx' Hl]. destruct (Hx Hx') as (t & E & Ht). cbn [map]. constructor; [|by apply IHl].
    change ("" +:+ "") with "". by rewrite E.
  - eexists. split; [done|]. destruct Hv as [Hv Ho]. apply read_object; [|done]. clear Ho.
    induction IH as [|[k x] o Hx _ IHo]; [constructor|]. destruct Hv as [Hx' Hv]. destruct (Hx Hx') as (t & E & Ht).
    cbn [snd] in E. change ("" +:+ "") with "" in *. rewrite E. constructor; [|by apply IHo]. by exists t.
Qed.

Lemma read_whole v t : read_as v t -> json_parse t = Some v.
Proof.
  intros Ht. unfold json_parse. pose proof (proj2 Ht "" (2 * String.length t + 2)) as H. rewrite append_nil_r in H.
  by rewrite H.
Qed.

(** What [JSON.stringify] writes [JSON.parse] reads back: for every value
    that JSON carries, in whatever depth of arrays and objects, the text is
    defined and reading it gives the value, object keys in their order. *)
Theorem json_round_trip (v : jsval) :
  json_plain v -> exists t, stringify "" "" v = Some t /\ json_parse t = Some v.
Proof.
  intros Hv. destruct (written_read v Hv) as (t & E & Ht). exists t. split; [done|by apply read_whole].
Qed.

(** For objects, as the pages write them. *)
Lemma json_text_read o : json_plain (JObj o) -> json_parse (json_text o) = Some (JObj o).
Proof.
  intros Hv. destruct (written_read _ Hv) as (t & E & Ht). unfold json_text. rewrite E.
  by apply (read_whole (JObj o) t).
Qed.

Lemma json_round_trip_witness :
  let v := JObj [("id", JNum (Num.of_Z 7)); ("tags", JArr [JStr "a"; JNull; JBool true]); ("note", JStr "x")] in
  exists t, stringify "" "" v = Some t /\ json_parse t = Some v.
Proof. apply json_round_trip. by repeat split. Defined.
