(* ===== verification/JsDigits.v ===== *)
(** * The text of an integer

    [String(n)] searches for the shortest decimal that reads back as the
    double.  For an integer below 10^15 this is the decimal text of the
    integer, and [JSON.parse] reads it back, so page numbers and counters
    pass through addresses and JSON unchanged. *)

From stdpp Require Import pretty.
From S2P Require Import Prelude JsNumber JsInteger JsString JsValue JsonText.

Local Open Scope Z_scope.

(** An integer whose neighbours in decimal are safe as well. *)
Definition short (z : Z) : Prop := 0 < z <= 10 ^ 15.

Lemma short_safe z : short z -> safe z.
Proof. unfold short, safe. lia. Qed.

(** ** Reading decimals *)

Lemma of_decimal_int m e :
  0 < m -> 0 <= e <= 15 -> short (m * 10 ^ e) -> Num.of_decimal false m e = Num.of_Z (m * 10 ^ e).
Proof.
  intros Hm He [H0 H1]. assert (m <= 10 ^ 15) as Hle by (pose proof (Z.pow_pos_nonneg 10 e); nia).
  destruct m as [|p|p]; [lia| |lia]. unfold Num.of_decimal. cbv zeta.
  assert (0 <= Z.log2 (Zpos p) <= 49) as Hl.
  { split; [apply Z.log2_nonneg|]. etransitivity; [apply Z.log2_le_mono, Hle|done]. }
  assert (0 <= Z.log2 (Zpos p) * 30103 / 100000 <= 14) as Hd.
  { split; [apply Z.div_pos; lia|]. etransitivity; [apply (Z.div_le_mono _ (49 * 30103)); lia|done]. }
  destruct (Z.ltb_spec 311 (Z.log2 (Zpos p) * 30103 / 100000 + e)); [lia|].
  destruct (Z.ltb_spec (Z.log2 (Zpos p) * 30103 / 100000 + e) (-330)); [lia|].
  destruct (Z.leb_spec 0 e); [|lia]. unfold Num.of_Z.
  by destruct (Zpos p * 10 ^ e) as [|x|x]; [lia| |lia].
Qed.

Lemma of_Z_inj a b : safe a -> safe b -> Num.of_Z a = Num.of_Z b -> a = b.
Proof.
  intros Ha Hb H. pose proof (of_Z_compare a b Ha Hb) as Hc. rewrite H, of_Z_compare in Hc by done.
  rewrite Z.compare_refl in Hc. injection Hc as Hc. symmetry in Hc. by apply Z.compare_eq in Hc.
Qed.

(** ** The number of decimals *)

Definition decimals (z n : Z) : Prop := 1 <= n /\ 10 ^ (n - 1) <= z < 10 ^ n.

Lemma decimals_exist z (m : nat) : 0 < z < 10 ^ Z.of_nat m -> exists n, decimals z n /\ n <= Z.of_nat m.
Proof.
  induction m as [|m IH]; intros [H0 H1]; [cbn in H1; lia|].
  destruct (Z.lt_ge_cases z (10 ^ Z.of_nat m)) as [H|H].
  - destruct IH as (n & Hn & Hle); [done|]. exists n. split; [done|lia].
  - exists (Z.of_nat (S m)). unfold decimals. replace (Z.of_nat (S m) - 1) with (Z.of_nat m) by lia. split_and!; done || lia.
Qed.

Lemma pow10_le_scaled n z q : 0 < q -> 0 < z -> Num.pow10_le n (z * q) q = (n <? 0) || (10 ^ n <=? z).
Proof.
  intros Hq Hz. unfold Num.pow10_le. destruct (Z.leb_spec 0 n) as [Hn|Hn].
  - destruct (Z.ltb_spec n 0); [lia|]. cbn [orb]. destruct (Z.leb_spec (10 ^ n) z); [apply Z.leb_le|apply Z.leb_gt]; nia.
  - destruct (Z.ltb_spec n 0); [|lia]. apply Z.leb_le.
    assert (1 <= z * 10 ^ (- n)) by (pose proof (Z.pow_pos_nonneg 10 (- n) ltac:(lia) ltac:(lia)); nia). nia.
Qed.

Lemma magnitude_from_reaches fuel s z q n :
  0 < q -> 0 < z -> decimals z n -> s <= n <= s + Z.of_nat fuel -> Num.magnitude_from fuel s (z * q) q = n.
Proof.
  intros Hq Hz [H1 [Hlo Hhi]]. revert s. induction fuel as [|fuel IH]; intros s Hs; cbn [Num.magnitude_from]; [lia|].
  rewrite pow10_le_scaled by done. destruct (decide (s = n)) as [->|Hne].
  - destruct (Z.ltb_spec n 0); [lia|]. destruct (Z.leb_spec (10 ^ n) z); [lia|done].
  - replace ((s <? 0) || (10 ^ s <=? z)) with true; [apply IH; lia|]. symmetry.
    destruct (Z.ltb_spec s 0); [done|]. apply Z.leb_le. etransitivity; [|exact Hlo]. apply Z.pow_le_mono_r; lia.
Qed.

(** The estimate from the binary logarithm is never too high and at most
    eight too low. *)
Definition estimate (l : Z) : Z := (l - 1) * 30103 / 100000 - 1.

Definition estimate_fits (l n : Z) : bool :=
  negb ((10 ^ (n - 1) <? 2 ^ (l + 1)) && (2 ^ l <? 10 ^ n)) || ((estimate l <=? n) && (n <=? estimate l + 8)).

Lemma estimates_fit : forallb (fun l => forallb (estimate_fits l) (seqZ 1 16)) (seqZ 0 50) = true.
Proof. vm_compute. reflexivity. Qed.

Lemma estimate_near z n : short z -> decimals z n -> n <= 16 -> estimate (Z.log2 z) <= n <= estimate (Z.log2 z) + 8.
Proof.
  intros [H0 H1] [Hn [Hlo Hhi]] Hle. pose proof (Z.log2_spec z H0) as [Hl1 Hl2].
  assert (0 <= Z.log2 z <= 49) as Hl.
  { split; [apply Z.log2_nonneg|]. etransitivity; [apply Z.log2_le_mono, H1|done]. }
  pose proof estimates_fit as H. rewrite forallb_forall in H. specialize (H (Z.log2 z)).
  rewrite forallb_forall in H. assert (estimate_fits (Z.log2 z) n = true) as Hf.
  { apply H; apply list_elem_of_In, elem_of_seqZ; lia. }
  unfold estimate_fits in Hf. rewrite <- Z.add_1_r in Hl2.
  destruct (Z.ltb_spec (10 ^ (n - 1)) (2 ^ (Z.log2 z + 1))); [|lia].
  destruct (Z.ltb_spec (2 ^ Z.log2 z) (10 ^ n)); [|lia]. cbn in Hf. lia.
Qed.

Lemma magnitude_int z n (k : Z) : 0 <= k -> short z -> decimals z n -> n <= 16 -> Num.magnitude (z * 2 ^ k) (2 ^ k) = n.
Proof.
  intros Hk Hz Hn Hle. unfold Num.magnitude. rewrite Z.log2_mul_pow2, Z.log2_pow2 by (apply Hz || done).
  replace (k + Z.log2 z - k - 1) with (Z.log2 z - 1) by lia.
  apply magnitude_from_reaches; [by apply Z.pow_pos_nonneg|apply Hz|done|]. by apply estimate_near.
Qed.

(** ** The digits *)

Lemma pretty_go_app n s : pretty_N_go n s = pretty_N_go n "" +:+ s.
Proof.
  revert s. induction (N.lt_wf_0 n) as [n _ IH]. intros s. destruct (decide (0 < n)%N) as [Hn|Hn].
  - rewrite !(pretty_N_go_step n) by done. pose proof (N.div_lt n 10 Hn ltac:(done)) as Hlt.
    rewrite (IH _ Hlt (String _ s)), (IH _ Hlt (String _ "")). by rewrite append_assoc.
  - replace n with 0%N by lia. by rewrite !pretty_N_go_0.
Qed.

Lemma pretty_positive p : Num.digits (Zpos p) = pretty_N_go (Npos p) "".
Proof. reflexivity. Qed.

Lemma digits_times_10 c : 0 < c -> Num.digits (c * 10) = Num.digits c +:+ "0".
Proof.
  destruct c as [|p|p]; [lia| |lia]. intros _. change (Zpos p * 10) with (Zpos (p * 10)). rewrite !pretty_positive.
  rewrite (pretty_N_go_step (Npos (p * 10))) by done. change (Npos (p * 10)) with (Npos p * 10)%N.
  rewrite N.Div0.mod_mul, N.div_mul by done. apply pretty_go_app.
Qed.

Lemma digits_shift c (j : nat) : 0 < c -> Num.digits (c * 10 ^ Z.of_nat j) = Num.digits c +:+ Num.zeros (Z.of_nat j).
Proof.
  intros Hc. unfold Num.zeros. rewrite Nat2Z.id. induction j as [|j IH].
  - rewrite Z.pow_0_r, Z.mul_1_r. symmetry. apply append_nil_r.
  - rewrite Nat2Z.inj_succ, Z.pow_succ_r, (Z.mul_comm 10), Z.mul_assoc by lia.
    rewrite digits_times_10 by (pose proof (Z.pow_pos_nonneg 10 (Z.of_nat j)); nia).
    rewrite IH, append_assoc. f_equal. clear. cbn [repeat String.string_of_list_ascii].
    induction j as [|j IH]; [done|]. cbn [repeat String.string_of_list_ascii]. cbn. by rewrite IH.
Qed.

(** ** The shortest decimal *)

Section Shortest.
Context (z n q : Z) (M : positive) (E : Z).
Hypothesis (Hz : short z) (Hn : decimals z n) (Hle : n <= 15) (Hq : 0 < q).
Hypothesis Hform : Num.of_Z z = S754_finite false M E.

Lemma floor_scaled k : 1 <= k <= n -> Num.scaled_floor (z * q) q (k - n) = z / 10 ^ (n - k).
Proof.
  intros Hk. unfold Num.scaled_floor. destruct (Z.leb_spec 0 (k - n)).
  - assert (k = n) as -> by lia. rewrite !Z.sub_diag, Z.pow_0_r, Z.mul_1_r, Z.div_1_r. apply Z.div_mul. lia.
  - replace (- (k - n)) with (n - k) by lia. rewrite (Z.mul_comm z q). apply Z.div_mul_cancel_l; [|lia].
    apply Z.pow_nonzero; lia.
Qed.

(** A decimal with [k] digits reads back as [z] exactly if it is [z]. *)
Lemma reads_exactly k c :
  1 <= k <= n -> 0 < c -> c * 10 ^ (n - k) <= 10 ^ n ->
  bool_decide (Num.of_decimal false c (n - k) = S754_finite false M E) = (c * 10 ^ (n - k) =? z).
Proof.
  intros Hk Hc Hb. assert (short (c * 10 ^ (n - k))) as Hs.
  { split; [pose proof (Z.pow_pos_nonneg 10 (n - k)); nia|]. etransitivity; [exact Hb|]. apply Z.pow_le_mono_r; lia. }
  rewrite of_decimal_int, <- Hform by (done || lia). destruct (Z.eqb_spec (c * 10 ^ (n - k)) z) as [->|Hne].
  - by apply bool_decide_eq_true.
  - apply bool_decide_eq_false. intros H. apply Hne, of_Z_inj; [by apply short_safe..|done].
Qed.

Lemma floor_bounds k (T := 10 ^ (n - k)) : 1 <= k <= n ->
  0 < T /\ 0 < z / T < 10 ^ k /\ z / T * T <= z < (z / T + 1) * T /\ (z / T + 1) * T <= 10 ^ n.
Proof.
  intros Hk. assert (0 < T) as HT by (apply Z.pow_pos_nonneg; lia). destruct Hn as [_ [Hlo Hhi]].
  assert (10 ^ n = 10 ^ k * T) as Hs by (unfold T; rewrite <- Z.pow_add_r by lia; f_equal; lia).
  assert (T <= z) as HTz by (etransitivity; [|exact Hlo]; apply Z.pow_le_mono_r; lia).
  pose proof (Z.div_mod z T ltac:(lia)). pose proof (Z.mod_pos_bound z T HT).
  assert (z / T < 10 ^ k) by (apply Z.div_lt_upper_bound; lia). assert (0 < z / T) by (apply Z.div_str_pos; lia). nia.
Qed.

Lemma shortest_int fuel k : 1 <= k <= n -> n - k < Z.of_nat fuel ->
  exists c k', Num.shortest fuel k M E n (z * q) q = (c, k', n) /\ 0 < c /\ k' <= n /\ z = c * 10 ^ (n - k').
Proof.
  revert k. induction fuel as [|fuel IH]; intros k Hk Hf; [lia|]. destruct (floor_bounds k Hk) as (HT & [H0 H1] & [H2 H3] & H4).
  cbn [Num.shortest]. cbv zeta. rewrite floor_scaled by done.
  rewrite !reads_exactly by (done || lia || nia). set (T := 10 ^ (n - k)) in *.
  destruct (Z.eqb_spec ((z / T + 1) * T) z) as [?|_]; [lia|]. destruct (Z.eqb_spec (z / T * T) z) as [He|He]; cbn [andb].
  - destruct (Z.eqb_spec (z / T) (10 ^ k)); [lia|]. exists (z / T), k. split_and!; [done|done|lia|]. by symmetry.
  - apply IH; [|lia]. destruct (decide (k = n)) as [->|]; [|lia]. exfalso. apply He.
    unfold T. by rewrite Z.sub_diag, Z.pow_0_r, Z.div_1_r, Z.mul_1_r.
Qed.
End Shortest.

(** The text of an integer is its decimal digits. *)
Lemma integer_text z : 0 < z < 10 ^ 15 -> Num.to_string (Num.of_Z z) = Num.digits z.
Proof.
  intros Hz. assert (short z) as Hs by (unfold short; lia). destruct (int_form_exists z (short_safe z Hs)) as (M & E & HM).
  pose proof (of_Z_form z M E HM ltac:(lia)) as Hform. destruct HM as (_ & HE & Hm).
  destruct (decimals_exist z 15) as (n & Hn & Hle); [done|].
  rewrite Hform. cbn -[Num.frac Num.shortest Num.layout Num.magnitude].
  assert (Num.frac M E = (z * 2 ^ (- E), 2 ^ (- E))) as ->.
  { unfold Num.frac. rewrite <- Hm. destruct (Z.leb_spec 0 E); [|done]. assert (E = 0) as -> by lia. cbn. f_equal. lia. }
  rewrite (magnitude_int z n) by (done || lia).
  destruct (shortest_int z n (2 ^ (- E)) M E Hs Hn Hle ltac:(apply Z.pow_pos_nonneg; lia) Hform 16 1) as (c & k & -> & Hc & Hk & ->);
    [destruct Hn; lia|cbn; lia|].
  unfold Num.layout. cbv zeta. destruct (Z.leb_spec k n); [|lia]. destruct (Z.leb_spec n 21); [|lia]. cbn [andb].
  rewrite <- (Z2Nat.id (n - k)) by lia. by rewrite digits_shift.
Qed.

(** ** Reading the digits *)

Lemma digit_char_value d : (d < 10)%N -> is_digit (pretty_N_char d) = true /\ digit_value (pretty_N_char d) = Z.of_N d.
Proof.
  intros Hd. assert (d ∈ [0; 1; 2; 3; 4; 5; 6; 7; 8; 9]%N) as H.
  { rewrite !elem_of_cons, elem_of_nil. lia. }
  repeat (apply elem_of_cons in H as [->|H]; [done|]). by apply elem_of_nil in H.
Qed.

Lemma take_digits_go n s : exists len, 0 <= len /\ (n <> 0%N -> 0 < len) /\
  take_digits (pretty_N_go n s) 0 0 = take_digits s (Z.of_N n) len.
Proof.
  revert s. induction (N.lt_wf_0 n) as [n _ IH]. intros s. destruct (decide (0 < n)%N) as [Hn|Hn].
  - rewrite pretty_N_go_step by done. destruct (IH (n / 10)%N (N.div_lt n 10 Hn ltac:(done)) (String (pretty_N_char (n mod 10)) s))
      as (len & Hl & _ & ->). exists (len + 1). split_and!; [lia|lia|]. cbn [take_digits].
    destruct (digit_char_value (n mod 10)) as [-> ->]; [by apply N.mod_lt|]. f_equal.
    rewrite <- (N2Z.inj_mul 10), <- N2Z.inj_add. f_equal. symmetry. by apply N.div_mod.
  - exists 0. replace n with 0%N by lia. rewrite pretty_N_go_0. split_and!; done || lia.
Qed.

Lemma go_starts n s : (0 < n)%N -> exists c r, pretty_N_go n s = String c r /\ is_digit c = true /\ c <> "0"%char.
Proof.
  revert s. induction (N.lt_wf_0 n) as [n _ IH]. intros s Hn. rewrite pretty_N_go_step by done.
  destruct (decide (0 < n / 10)%N) as [Hd|Hd].
  - apply IH; [by apply N.div_lt|done].
  - assert (n / 10 = 0)%N as -> by by apply N.le_0_r, N.nlt_ge. rewrite pretty_N_go_0. assert (n < 10)%N as Hlt.
    { destruct (N.lt_ge_cases n 10) as [|H]; [done|]. exfalso. apply Hd. apply N.div_str_pos. lia. }
    rewrite N.mod_small by done. eexists _, s. split; [done|]. destruct (digit_char_value n Hlt) as [H1 H2]. split; [done|].
    intros E. rewrite E in H2. change (0 = Z.of_N n) in H2. destruct n; done.
Qed.

Lemma span_all p s : sforall p s = true -> span p s = (s, "").
Proof. induction s as [|c s IH]; [done|]. cbn. intros [-> Hs]%andb_true_iff. by rewrite IH. Qed.

(** An integer that was written is read back. *)
Lemma integer_reads_back z : 0 < z < 10 ^ 15 -> reads_back (Num.of_Z z).
Proof.
  intros Hz. assert (short z) as Hs by (unfold short; lia).
  split; [apply of_Z_positive; by apply short_safe|]. rewrite integer_text by done.
  destruct z as [|p|p]; [lia| |lia]. pose proof (pretty_digits (Npos p)) as Hd.
  change (sforall is_digit (pretty_N_go (Npos p) "") = true) in Hd.
  rewrite pretty_positive. destruct (go_starts (Npos p) "") as (c & r & E & Hc & H0); [done|].
  destruct (take_digits_go (Npos p) "") as (len & _ & Hl & Ht). specialize (Hl ltac:(done)). rewrite E in *.
  unfold parse_number. rewrite span_all by (revert Hd; apply sforall_mono; unfold json_number_chars; by intros a ->).
  assert (unsigned_decimal false (String c r) = Num.of_Z (Zpos p)) as Hn.
  { unfold unsigned_decimal. rewrite Ht. cbn [take_digits]. rewrite Z.add_0_r.
    destruct (Z.eqb_spec len 0); [lia|]. cbn [exponent_part]. change (0 - 0) with 0. cbn [Z.of_N].
    rewrite of_decimal_int by (done || by rewrite Z.pow_0_r, Z.mul_1_r). by rewrite Z.pow_0_r, Z.mul_1_r. }
  assert (strict_fraction (String c r) = true) as Hf by (unfold strict_fraction; by rewrite Ht).
  assert (Num.is_nan (Num.of_Z (Zpos p)) = false) as Hnan by apply Num.of_Z_not_nan.
  destruct c as [[] [] [] [] [] [] [] []]; try done; by rewrite Hn, Hf, Hnan.
Qed.

#[export] Hint Resolve integer_reads_back : js.
