(* ===== verification/Base64.v ===== *)
(** * Buffers, as far as the sign-in state uses them

    [Buffer.from(s, 'utf-8').toString('base64url')] and
    [Buffer.from(t, 'base64url').toString('utf-8')] of Node.js, used by
    src/app/api/auth/google.  Bytes are [N]; decoding skips what is not in
    the alphabet and stops at the first [=], as Node does, and it accepts the
    characters of both base64 alphabets. *)

From S2P Require Import Prelude JsNumber JsString JsValue.

Local Open Scope N_scope.

(** ** UTF-8 on the units of the development *)

Definition utf8_char (c : ascii) : list N :=
  let n := N_of_ascii c in
  if n <? 128 then [n] else [192 + n / 64; 128 + n mod 64].

Fixpoint utf8_encode (s : string) : list N :=
  match s with "" => [] | String c s => utf8_char c ++ utf8_encode s end.

(** [None] for bytes that denote nothing in the range of the development. *)
Fixpoint utf8_decode (bs : list N) : option string :=
  match bs with
  | [] => Some ""
  | b :: bs =>
      if b <? 128 then s ← utf8_decode bs; Some (String (ascii_of_N b) s)
      else match bs with
           | b' :: bs =>
               if ((b =? 194) || (b =? 195)) && (128 <=? b') && (b' <? 192) then
                 s ← utf8_decode bs; Some (String (ascii_of_N ((b - 192) * 64 + (b' - 128))) s)
               else None
           | [] => None
           end
  end.

(** ** base64url *)

Definition sextet_char (n : N) : ascii :=
  ascii_of_N (if n <? 26 then 65 + n
              else if n <? 52 then 71 + n
              else if n <? 62 then n - 4
              else if n =? 62 then 45 else 95).

Definition sextet_value (c : ascii) : option N :=
  let n := N_of_ascii c in
  if is_upper c then Some (n - 65)
  else if is_lower c then Some (n - 71)
  else if is_digit c then Some (n + 4)
  else if (n =? 45) || (n =? 43) then Some 62
  else if (n =? 95) || (n =? 47) then Some 63
  else None.

Fixpoint base64_sextets (bs : list N) : list N :=
  match bs with
  | [] => []
  | [a] => [a / 4; (a mod 4) * 16]
  | [a; b] => [a / 4; (a mod 4) * 16 + b / 16; (b mod 16) * 4]
  | a :: b :: c :: bs =>
      a / 4 :: (a mod 4) * 16 + b / 16 :: (b mod 16) * 4 + c / 64 :: c mod 64 :: base64_sextets bs
  end.

Fixpoint base64_bytes (ss : list N) : list N :=
  match ss with
  | [] | [_] => []
  | [p; q] => [p * 4 + q / 16]
  | [p; q; r] => [p * 4 + q / 16; (q mod 16) * 16 + r / 4]
  | p :: q :: r :: s :: ss =>
      p * 4 + q / 16 :: (q mod 16) * 16 + r / 4 :: (r mod 4) * 64 + s :: base64_bytes ss
  end.

Fixpoint sextets_text (ss : list N) : string :=
  match ss with [] => "" | n :: ss => String (sextet_char n) (sextets_text ss) end.

Fixpoint text_sextets (s : string) : list N :=
  match s with
  | "" => []
  | String c s =>
      if Ascii.eqb c "=" then []
      else match sextet_value c with
           | Some n => n :: text_sextets s
           | None => text_sextets s
           end
  end.

Definition base64Url (input : string) : string := sextets_text (base64_sextets (utf8_encode input)).

Definition base64url_decode (state : string) : option string :=
  utf8_decode (base64_bytes (text_sextets state)).

(** ** Decoding inverts encoding *)

(** Linear arithmetic with division by constants. *)
Ltac divlia := Zify.zify; Z.to_euclidean_division_equations; lia.

Definition byte (n : N) : Prop := n < 256.

Lemma utf8_roundtrip s : utf8_decode (utf8_encode s) = Some s.
Proof.
  induction s as [|c s IH]; [done|]. cbn [utf8_encode]. unfold utf8_char.
  assert (Hc : ascii_of_N (N_of_ascii c) = c) by apply ascii_N_embedding.
  pose proof (N_ascii_bounded c) as Hb. destruct (N_of_ascii c <? 128) eqn:E.
  - cbn [app utf8_decode]. rewrite E, IH. cbn. by rewrite Hc.
  - apply N.ltb_ge in E. cbn [app utf8_decode]. set (n := N_of_ascii c) in *.
    assert ((192 + n / 64 <? 128) = false) as -> by (apply N.ltb_ge; divlia).
    assert (((192 + n / 64 =? 194) || (192 + n / 64 =? 195)) && (128 <=? 128 + n mod 64)
            && (128 + n mod 64 <? 192) = true) as ->.
    { rewrite !andb_true_iff, orb_true_iff, !N.eqb_eq, N.leb_le, N.ltb_lt. divlia. }
    rewrite IH. cbn.
    replace ((192 + n / 64 - 192) * 64 + (128 + n mod 64 - 128)) with n by divlia. by rewrite Hc.
Qed.

Lemma utf8_bytes s : Forall byte (utf8_encode s).
Proof.
  induction s as [|c s IH]; [constructor|]. cbn. unfold utf8_char, byte.
  pose proof (N_ascii_bounded c) as Hb. apply Forall_app. split; [|done].
  destruct (N.ltb_spec (N_of_ascii c) 128);
    repeat (apply List.Forall_cons || apply List.Forall_nil); divlia.
Qed.

Lemma sextet_roundtrip n :
  n < 64 -> sextet_value (sextet_char n) = Some n /\ Ascii.eqb (sextet_char n) "=" = false.
Proof.
  intros Hn. assert (forallb (fun n => bool_decide (sextet_value (sextet_char n) = Some n) &&
    negb (Ascii.eqb (sextet_char n) "=")) (map N.of_nat (seq 0 64)) = true) as H by (vm_compute; reflexivity).
  rewrite forallb_forall in H. specialize (H n). rewrite andb_true_iff, bool_decide_eq_true, negb_true_iff in H.
  apply H, in_map_iff. exists (N.to_nat n). rewrite in_seq. lia.
Qed.

Lemma text_roundtrip ss : Forall (fun n => n < 64) ss -> text_sextets (sextets_text ss) = ss.
Proof.
  induction 1 as [|n ss Hn _ IH]; [done|]. cbn.
  destruct (sextet_roundtrip n Hn) as [-> ->]. by rewrite IH.
Qed.

(** Induction by groups of three bytes. *)
Lemma triples_ind (P : list N -> Prop) :
  P [] -> (forall a, P [a]) -> (forall a b, P [a; b]) ->
  (forall a b c bs, P bs -> P (a :: b :: c :: bs)) -> forall bs, P bs.
Proof.
  intros H0 H1 H2 H3. fix IH 1. intros [|a [|b [|c bs]]];
    [exact H0|exact (H1 a)|exact (H2 a b)|exact (H3 a b c bs (IH bs))].
Qed.

Lemma sextets_small bs : Forall byte bs -> Forall (fun n => n < 64) (base64_sextets bs).
Proof.
  unfold byte. induction bs as [|a|a b|a b c bs IH] using triples_ind; cbn [base64_sextets];
    rewrite ?Forall_cons_iff; intros H; [constructor| | |];
    repeat match goal with H : _ /\ _ |- _ => destruct H end;
    repeat split; auto; divlia.
Qed.

Lemma bytes_roundtrip bs : Forall byte bs -> base64_bytes (base64_sextets bs) = bs.
Proof.
  unfold byte. induction bs as [|a|a b|a b c bs IH] using triples_ind;
    cbn [base64_sextets base64_bytes]; rewrite ?Forall_cons_iff; intros H; [done| | |];
    repeat match goal with H : _ /\ _ |- _ => destruct H end;
    rewrite ?IH by done; repeat f_equal; divlia.
Qed.

(** Decoding an encoded text gives it back. *)
Lemma base64url_roundtrip s : base64url_decode (base64Url s) = Some s.
Proof.
  unfold base64url_decode, base64Url. pose proof (utf8_bytes s) as Hb.
  rewrite text_roundtrip by by apply sextets_small.
  rewrite bytes_roundtrip by done. apply utf8_roundtrip.
Qed.
