(* ===== verification/Auth.v ===== *)
(** * Roles, permissions and the page guard

    [Roles] models src/lib/auth.ts, [Permissions] the permission table of
    src/contexts/AuthContext.tsx, [Middleware] the request guard of
    src/middleware.ts that lets a page request through or redirects it. *)

From stdpp Require Import gmap.
From S2P Require Import Prelude JsString.

Module Roles.

Inductive UserRole := admin | operator | viewer.

#[global] Instance UserRole_eq_dec : EqDecision UserRole.
Proof. solve_decision. Defined.

(** The string a role is at run time. *)
Definition role_str (r : UserRole) : string :=
  match r with admin => "admin" | operator => "operator" | viewer => "viewer" end.

Record AuthUser := {
  id : string;
  email : string;
  name : string;
  role : UserRole;
  twoFactorEnabled : option bool;
}.

(** The names of the four session cookies. *)
Definition cookie_jwt : string := "quoodle_jwt".
Definition cookie_refreshToken : string := "quoodle_refresh_token".
Definition cookie_sessionId : string := "quoodle_session_id".
Definition cookie_role : string := "quoodle_user_role".

Definition normalizeRole (value : option string) : option UserRole :=
  let normalized := toLowerCase (trim (value ?? "")) in
  if normalized === "admin" then Some admin
  else if normalized === "operator" then Some operator
  else if normalized === "viewer" then Some viewer
  else if normalized === "user" then Some viewer
  else None.

Definition roleHomePath (role : UserRole) : string :=
  match role with
  | admin => "/dashboard"
  | operator => "/operator-console"
  | viewer => "/viewer-console"
  end.

Definition OPERATOR_ALLOWED_PREFIXES : list string :=
  ["/operator-console"; "/device-management"; "/mobile-devices"; "/device-detail";
   "/command-dispatch"; "/command-results"; "/command-history";
   "/command-scheduling"; "/alerts"; "/notifications"; "/telemetry-monitoring";
   "/compliance"; "/audit"; "/webhooks"; "/profile"].

Definition VIEWER_ALLOWED_PREFIXES : list string :=
  ["/viewer-console"; "/device-management"; "/mobile-devices"; "/device-detail";
   "/notifications"; "/compliance"; "/audit"; "/profile"].

(** What a role's cookie value says is read back as that role. *)
Lemma normalizeRole_role_str r : normalizeRole (Some (role_str r)) = Some r.
Proof. by destruct r. Qed.

(** Surrounding white space and case do not matter. *)
Lemma normalizeRole_insensitive s :
  normalizeRole (Some (toLowerCase (trim s))) = normalizeRole (Some s).
Proof.
  unfold normalizeRole. cbn [nullish].
  by rewrite !toLowerCase_trim, toLowerCase_idem, trim_idem.
Qed.

End Roles.
Export Roles.

#[export] Hint Rewrite normalizeRole_role_str : js.

Module Permissions.

Inductive PermissionKey :=
| view_devices | manage_devices | send_commands | send_sensitive_commands
| view_alerts | acknowledge_alerts | view_compliance | manage_compliance
| view_audit | manage_users | manage_settings | export_data | pair_devices.

Definition ROLE_PERMISSIONS (r : UserRole) (p : PermissionKey) : bool :=
  match r with
  | admin => true
  | operator =>
      match p with
      | view_devices => true | manage_devices => false
      | send_commands => true | send_sensitive_commands => false
      | view_alerts => true | acknowledge_alerts => true
      | view_compliance => true | manage_compliance => false
      | view_audit => true | manage_users => false
      | manage_settings => false | export_data => true | pair_devices => true
      end
  | viewer =>
      match p with
      | view_devices => true | manage_devices => false
      | send_commands => false | send_sensitive_commands => false
      | view_alerts => false | acknowledge_alerts => false
      | view_compliance => true | manage_compliance => false
      | view_audit => true | manage_users => false
      | manage_settings => false | export_data => false | pair_devices => true
      end
  end.

(** [hasPermission] of the AuthProvider, for the user in its state. *)
Definition hasPermission (user : option AuthUser) (permission : PermissionKey) : bool :=
  match user with
  | None => false
  | Some u =>
      if decide (role u = admin) then true else ROLE_PERMISSIONS (role u) permission
  end.

(** The roles ordered by what they may do. *)
Definition rank (r : UserRole) : nat :=
  match r with viewer => 0 | operator => 1 | admin => 2 end.

Lemma ROLE_PERMISSIONS_mono r r' p :
  rank r <= rank r' -> ROLE_PERMISSIONS r p = true -> ROLE_PERMISSIONS r' p = true.
Proof. destruct r, r', p; cbn; try done; lia. Qed.

(** Permissions grow with the role: a user who outranks another has
    every permission the other has. *)
Theorem hasPermission_mono u u' p :
  rank (role u) <= rank (role u') ->
  hasPermission (Some u) p = true -> hasPermission (Some u') p = true.
Proof.
  unfold hasPermission. intros Hr.
  destruct (decide (role u' = admin)) as [|Hn]; [done|].
  destruct (decide (role u = admin)) as [E|_].
  - rewrite E in Hr. destruct (role u'); cbn in Hr; [done|lia|lia].
  - by apply ROLE_PERMISSIONS_mono.
Qed.

Lemma hasPermission_mono_witness :
  let mk r := {| id := "u"; email := "e"; name := "n"; role := r; twoFactorEnabled := None |} in
  hasPermission (Some (mk viewer)) view_audit = true /\
  hasPermission (Some (mk operator)) view_audit = true.
Proof.
  split; [reflexivity|].
  apply (hasPermission_mono {| id := "u"; email := "e"; name := "n"; role := viewer; twoFactorEnabled := None |});
    [cbn; lia|reflexivity].
Defined.

End Permissions.

Module Middleware.

Definition LOGIN_PATH : string := "/sign-up-login-screen".

(** The part of [request.nextUrl] the guard reads and rewrites. *)
Record Url := { pathname : string; searchParams : list (string * string) }.

Record Request := { nextUrl : Url; cookies : gmap string string }.

Inductive Response :=
| next
| redirect (url : Url).

(** [searchParams.set(k, v)]: the first [k] gets the value, further ones go;
    without one the pair is appended. *)
Fixpoint set_param (ps : list (string * string)) (k v : string) : list (string * string) :=
  match ps with
  | [] => [(k, v)]
  | (k', v') :: ps =>
      if k' === k then (k, v) :: List.filter (fun kv => negb (kv.1 === k)) ps
      else (k', v') :: set_param ps k v
  end.

Definition isAllowedPath (pathname : string) (prefixes : list string) : bool :=
  existsb (fun prefix => (pathname === prefix) || startsWith pathname (prefix +:+ "/")) prefixes.

#[global] Arguments isAllowedPath : simpl never.

Definition with_path (u : Url) (p : string) : Url :=
  {| pathname := p; searchParams := searchParams u |}.

(** The clone of the URL that leads to the login page and remembers the path. *)
Definition login_url (u : Url) : Url :=
  {| pathname := LOGIN_PATH; searchParams := set_param (searchParams u) "next" (pathname u) |}.

Definition middleware (request : Request) : Response :=
  let url := nextUrl request in
  let path := pathname url in
  if startsWith path "/api/" then next
  else
    let jwt := (cookies request !! cookie_jwt) ?? "" in
    let role := normalizeRole (cookies request !! cookie_role) in
    if negb (truthy_str jwt) then
      if path === LOGIN_PATH then next else redirect (login_url url)
    else if path === "/" then
      match role with
      | None => redirect (login_url url)
      | Some r => redirect (with_path url (roleHomePath r))
      end
    else if path === LOGIN_PATH then
      match role with
      | None => next
      | Some r => redirect (with_path url (roleHomePath r))
      end
    else
      match role with
      | None => redirect (login_url url)
      | Some admin => next
      | Some r =>
          let allowedPrefixes :=
            match r with
            | operator => OPERATOR_ALLOWED_PREFIXES
            | _ => VIEWER_ALLOWED_PREFIXES
            end in
          if isAllowedPath path allowedPrefixes then next
          else redirect (with_path url (roleHomePath r))
      end.

(** [config.matcher]: the paths Next.js runs the guard on, by the regular
    expression's negative look-ahead (the dot of [favicon.ico] is a wildcard). *)
Definition excluded_tail (tail : string) : bool :=
  startsWith tail "_next/static" || startsWith tail "_next/image"
  || (startsWith tail "favicon" && startsWith (sdrop 8 tail) "ico")
  || includes tail ".".

Definition guarded (path : string) : bool :=
  match path with
  | String c tail => Ascii.eqb c "/" && negb (excluded_tail tail)
  | "" => false
  end.

(** What the server does with a page request: the guard where it applies. *)
Definition serve (request : Request) : Response :=
  if guarded (pathname (nextUrl request)) then middleware request else next.

(** The browser follows a redirect with the same cookies. *)
Definition follow (request : Request) (u : Url) : Request :=
  {| nextUrl := u; cookies := cookies request |}.

(** ** Lemmas *)

(** A prefix is matched on whole path segments. *)
Lemma isAllowedPath_iff path prefixes :
  isAllowedPath path prefixes = true <->
  exists p, In p prefixes /\ (path = p \/ exists rest, path = p +:+ "/" +:+ rest).
Proof.
  unfold isAllowedPath. rewrite existsb_exists. apply exist_proper; intros p.
  apply and_iff_compat_l.
  rewrite orb_true_iff, String.eqb_eq, startsWith_spec. apply or_iff_compat_l.
  apply exist_proper; intros r. by rewrite append_assoc.
Qed.

Lemma home_is_open r cs ps :
  cs !! cookie_jwt <> None -> (cs !! cookie_jwt) <> Some "" ->
  normalizeRole (cs !! cookie_role) = Some r ->
  middleware {| nextUrl := {| pathname := roleHomePath r; searchParams := ps |}; cookies := cs |} = next.
Proof.
  intros H1 H2 Hr. unfold middleware. cbn [nextUrl pathname cookies]. rewrite Hr.
  destruct (cs !! cookie_jwt) as [[|c j]|]; [done| |done]. by destruct r.
Qed.

Lemma login_is_open u cs :
  normalizeRole (cs !! cookie_role) = None \/ truthy_str ((cs !! cookie_jwt) ?? "") = false ->
  middleware {| nextUrl := login_url u; cookies := cs |} = next.
Proof.
  intros H. unfold middleware. cbn [nextUrl pathname login_url cookies].
  destruct (truthy_str ((cs !! cookie_jwt) ?? "")); [|done].
  by destruct H as [->|].
Qed.

(** ** What the guard promises *)

(** A browser that carries a session token. *)
Definition signed_in (cs : gmap string string) : Prop :=
  exists j, cs !! cookie_jwt = Some j /\ j <> "".

(** The pages below one of the listed prefixes, on whole segments. *)
Definition under (prefixes : list string) (path : string) : Prop :=
  exists p, In p prefixes /\ (path = p \/ exists rest, path = p +:+ "/" +:+ rest).

(** The access policy, by role. *)
Definition may_open (r : UserRole) (path : string) : Prop :=
  match r with
  | admin => True
  | operator => under OPERATOR_ALLOWED_PREFIXES path
  | viewer => under VIEWER_ALLOWED_PREFIXES path
  end.

Lemma signed_in_truthy cs : truthy_str ((cs !! cookie_jwt) ?? "") = true <-> signed_in cs.
Proof.
  unfold signed_in. rewrite truthy_str_spec.
  destruct (cs !! cookie_jwt) as [j|]; cbn; [|naive_solver].
  split; [eauto|]. by intros (? & [= ->] & ?).
Qed.

Definition may_openb (r : UserRole) (path : string) : bool :=
  match r with
  | admin => true
  | operator => isAllowedPath path OPERATOR_ALLOWED_PREFIXES
  | viewer => isAllowedPath path VIEWER_ALLOWED_PREFIXES
  end.

Lemma may_openb_spec r path : may_openb r path = true <-> may_open r path.
Proof. destruct r; cbn; [done| |]; apply isAllowedPath_iff. Qed.

(** [C6] The guard lets a page request through exactly when the path is an
    API path, or it is the login page and the browser has no usable session,
    or it is another page, the browser carries a token and the policy opens
    the page to the role in its cookie. *)
Theorem middleware_next_iff req :
  let path := pathname (nextUrl req) in
  let role := normalizeRole (cookies req !! cookie_role) in
  middleware req = next <->
  startsWith path "/api/" = true \/
  (path = LOGIN_PATH /\ (~ signed_in (cookies req) \/ role = None)) \/
  (path <> LOGIN_PATH /\ path <> "/" /\ signed_in (cookies req) /\
   exists r, role = Some r /\ may_open r path).
Proof.
  destruct req as [[path ps] cs]. cbn [nextUrl pathname cookies].
  unfold middleware. cbn [nextUrl pathname cookies].
  rewrite <- signed_in_truthy.
  destruct (startsWith path "/api/") eqn:Eapi; [naive_solver|].
  destruct (truthy_str _) eqn:Ejwt; cbn [negb].
  2: { destruct (String.eqb_spec path LOGIN_PATH); naive_solver. }
  destruct (String.eqb_spec path "/") as [->|Hroot].
  { destruct (normalizeRole _); naive_solver. }
  destruct (String.eqb_spec path LOGIN_PATH) as [->|Hlogin].
  { destruct (normalizeRole _); naive_solver. }
  setoid_rewrite <- may_openb_spec.
  destruct (normalizeRole _) as [[]|]; [naive_solver| | |naive_solver];
    (destruct (isAllowedPath path _) eqn:E;
     [split; [right; right; repeat (split || eexists); eauto|done]|]); (split; [done|]);
    intros [|[[? _]|(_ & _ & _ & r & [= <-] & Hr)]]; cbn in *; congruence.
Qed.

(** Redirects of the guard never chain: whatever page it sends the
    browser to is let through when the browser follows with the same
    cookies. *)
Theorem serve_redirect_settles req u :
  serve req = redirect u -> serve (follow req u) = next.
Proof.
  destruct req as [[path ps] cs]. unfold serve, follow. cbn [nextUrl pathname cookies].
  destruct (guarded path); [|done]. intros H.
  destruct (guarded (pathname u)); [|done]. revert H.
  unfold middleware at 1. cbn [nextUrl pathname cookies].
  destruct (startsWith path "/api/"); [done|].
  destruct (truthy_str _) eqn:Ejwt; cbn [negb].
  2: { destruct (path === LOGIN_PATH); [done|]. intros [= <-].
       apply login_is_open. by right. }
  apply signed_in_truthy in Ejwt as (j & Hj & Hne).
  assert (forall r, normalizeRole (cs !! cookie_role) = Some r ->
    middleware {| nextUrl := {| pathname := roleHomePath r; searchParams := ps |}; cookies := cs |} = next)
    as Hhome by (intros; apply home_is_open; congruence).
  unfold with_path. cbn [searchParams].
  destruct (normalizeRole _) as [r|] eqn:Er;
    [|cases; intros [= <-]; apply login_is_open; by left].
  destruct (path === "/"); [intros [= <-]; by apply Hhome|].
  destruct (path === LOGIN_PATH); [intros [= <-]; by apply Hhome|].
  specialize (Hhome r eq_refl).
  destruct r; [done| |]; destruct (isAllowedPath _ _); try done; by intros [= <-].
Qed.

Lemma serve_redirect_settles_witness :
  let req := {| nextUrl := {| pathname := "/settings"; searchParams := [] |};
                cookies := {[ cookie_jwt := "t"; cookie_role := "operator" ]} |} in
  exists u, serve req = redirect u /\ pathname u = "/operator-console"
            /\ serve (follow req u) = next.
Proof.
  eexists. split; [vm_compute; reflexivity|]. split; [reflexivity|].
  apply serve_redirect_settles. vm_compute. reflexivity.
Defined.

(** The operator's pages contain the viewer's: whatever path the guard
    opens to a viewer, the viewer's own console apart, it opens to an
    operator, and everything it opens to either it opens to an admin. *)
Theorem may_open_mono path :
  (may_open viewer path -> under ["/viewer-console"] path \/ may_open operator path) /\
  (forall r, may_open r path -> may_open admin path).
Proof.
  split; [|by destruct r].
  intros (p & Hin & Hp). cbn in Hin.
  destruct Hin as [<-|Hin]; [left; exists "/viewer-console"; cbn; tauto|right].
  exists p. split; [|done]. cbn. tauto.
Qed.

End Middleware.
