(* ===== verification/Http.v ===== *)
(** * Requests, responses and the effects of a route handler

    The route handlers of src/app/api are asynchronous functions from a
    NextRequest to a NextResponse whose only effect is [fetch].  [io] is the
    free monad of that effect with exceptions: a handler is a finite tree of
    the requests it sends, each continued by what comes back.  [run] executes
    a handler against an upstream server, which is a parameter. *)

From stdpp Require Import gmap.
From S2P Require Import Prelude JsNumber JsString JsValue.

Local Open Scope Z_scope.

(** ** The upstream side of a handler *)

(** What [fetch] is given; [f_url] is the text of the address as the code
    puts it together.  What the URL parser makes of that text is in [Urls]
    ([Urls.read_url], [Urls.resolved]). *)
Record FetchRequest := {
  f_method : string;
  f_url : string;
  f_headers : list (string * string);
  f_body : option string;
}.

(** A response; a header name is in lower case, and [resp_body] is [None]
    when the body stream fails. *)
Record FetchResponse := {
  status : Z;
  resp_headers : gmap string string;
  resp_body : option string;
}.

Definition ok (r : FetchResponse) : bool := (200 <=? status r) && (status r <=? 299).

(** [await response.json()], [None] when it rejects. *)
Definition resp_json (r : FetchResponse) : option jsval := t ← resp_body r; json_parse t.

(** ** The effect monad *)

Inductive io (A : Type) : Type :=
| Ret (a : A)
| Throw (msg : string)
| Fetch (r : FetchRequest) (k : option FetchResponse -> io A).
Arguments Ret {A} a.
Arguments Throw {A} msg.
Arguments Fetch {A} r k.

Fixpoint bind {A B} (m : io A) (f : A -> io B) : io B :=
  match m with
  | Ret a => f a
  | Throw e => Throw e
  | Fetch r k => Fetch r (fun o => bind (k o) f)
  end.

Notation "'let*' x := m 'in' k" := (bind m (fun x => k))
  (at level 10, x name, m at level 100, k at level 200) : js_scope.

(** [try { m } catch { h }] *)
Fixpoint try_catch {A} (m : io A) (h : io A) : io A :=
  match m with
  | Ret a => Ret a
  | Throw _ => h
  | Fetch r k => Fetch r (fun o => try_catch (k o) h)
  end.

Definition fetch (r : FetchRequest) : io FetchResponse :=
  Fetch r (fun o => match o with Some x => Ret x | None => Throw "fetch failed" end).

Definition lift {A} (m : res A) : io A :=
  match m with Ok a => Ret a | Exn e => Throw e end.

(** ** Running a handler *)

(** A server answers each request, possibly not at all, and moves on. *)
Class Upstream (S : Type) := answer : S -> FetchRequest -> S * option FetchResponse.

Section Run.
Context {S : Type} {up : Upstream S}.

(** The requests sent in order, the server's last state, the outcome. *)
Fixpoint run {A} (s : S) (m : io A) : list FetchRequest * S * res A :=
  match m with
  | Ret a => ([], s, Ok a)
  | Throw e => ([], s, Exn e)
  | Fetch r k =>
      let '(s1, o) := answer s r in
      let '(tr, s2, out) := run s1 (k o) in
      (r :: tr, s2, out)
  end.

Definition trace {A} (s : S) (m : io A) : list FetchRequest := (run s m).1.1.
Definition outcome {A} (s : S) (m : io A) : res A := (run s m).2.
End Run.

(** ** Properties of all executions *)

(** Every request of [m], whatever the answers, satisfies [P]. *)
Fixpoint all_requests {A} (P : FetchRequest -> Prop) (m : io A) : Prop :=
  match m with
  | Ret _ | Throw _ => True
  | Fetch r k => P r /\ forall o, all_requests P (k o)
  end.

(** Every result of [m] satisfies [Q]. *)
Fixpoint all_results {A} (Q : A -> Prop) (m : io A) : Prop :=
  match m with
  | Ret a => Q a
  | Throw _ => True
  | Fetch _ k => forall o, all_results Q (k o)
  end.

(** [m] sends at most [n] requests. *)
Fixpoint at_most {A} (n : nat) (m : io A) {struct m} : Prop :=
  match m with
  | Ret _ | Throw _ => True
  | Fetch _ k =>
      match n with O => False | S n => forall o, at_most n (k o) end
  end.

Section RunLemmas.
Context {S : Type} {up : Upstream S}.

Lemma all_requests_trace {A} P (m : io A) s :
  all_requests P m -> Forall P (trace s m).
Proof.
  revert s. induction m as [a|e|r k IH]; intros s; [constructor..|].
  intros [Hr Hk]. unfold trace in *. cbn. destruct (answer s r) as [s1 o].
  specialize (IH o s1 (Hk o)). by destruct (run s1 (k o)) as [[tr s2] out]; constructor.
Qed.

Lemma all_results_outcome {A} Q (m : io A) s a :
  all_results Q m -> outcome s m = Ok a -> Q a.
Proof.
  revert s. induction m as [b|e|r k IH]; intros s.
  - by intros ? [= ->].
  - done.
  - intros Hk. unfold outcome in *. cbn. destruct (answer s r) as [s1 o].
    specialize (IH o s1 (Hk o)). by destruct (run s1 (k o)) as [[tr s2] out].
Qed.

(** Running a sequence runs the first part and goes on with its result. *)
Lemma run_bind {A B} (m : io A) (f : A -> io B) s :
  run s (bind m f) =
  match run s m with
  | (tr, s', Ok a) => let '(tr', s'', out) := run s' (f a) in (tr ++ tr', s'', out)
  | (tr, s', Exn e) => (tr, s', Exn e)
  end.
Proof.
  revert s. induction m as [a|e|r k IH]; intros s; cbn.
  - by destruct (run s (f a)) as [[tr s'] out].
  - done.
  - destruct (answer s r) as [s1 o]. rewrite IH.
    destruct (run s1 (k o)) as [[tr s'] [a|e]]; [|done].
    by destruct (run s' (f a)) as [[tr' s''] out].
Qed.

(** A computation that sends nothing leaves the server alone. *)
Lemma run_silent {A} (m : io A) s : at_most 0 m -> run s m = ([], s, outcome s m).
Proof. by destruct m. Qed.

(** One request, then nothing more. *)
Lemma trace_fetch_once {A} (f : FetchResponse -> io A) r s :
  (forall x, at_most 0 (f x)) -> trace s (bind (fetch r) f) = [r].
Proof.
  intros Hf. unfold trace. cbn. destruct (answer s r) as [s1 [x|]]; cbn; [|done].
  by rewrite (run_silent (f x) s1 (Hf x)).
Qed.

Lemma at_most_trace {A} n (m : io A) s : at_most n m -> (length (trace s m) <= n)%nat.
Proof.
  revert n s. induction m as [a|e|r k IH]; intros n s; [cbn; lia..|].
  destruct n as [|n]; [done|]. intros Hk. unfold trace in *. cbn.
  destruct (answer s r) as [s1 o]. specialize (IH o n s1 (Hk o)).
  destruct (run s1 (k o)) as [[tr s2] out]. cbn in *. lia.
Qed.
End RunLemmas.

(** ** Rules for composed handlers *)

Lemma all_requests_bind {A B} P (m : io A) (f : A -> io B) :
  all_requests P m -> (forall a, all_requests P (f a)) -> all_requests P (bind m f).
Proof. induction m as [a|e|r k IH]; cbn; naive_solver. Qed.

Lemma all_results_bind {A B} (Q : A -> Prop) (R : B -> Prop) (m : io A) (f : A -> io B) :
  all_results Q m -> (forall a, Q a -> all_results R (f a)) -> all_results R (bind m f).
Proof. induction m as [a|e|r k IH]; cbn; naive_solver. Qed.

Lemma all_results_true {A} (m : io A) : all_results (fun _ => True) m.
Proof. induction m; cbn; auto. Qed.

Lemma at_most_mono {A} n n' (m : io A) : (n <= n')%nat -> at_most n m -> at_most n' m.
Proof.
  revert n n'. induction m as [a|e|r k IH]; cbn; [done..|].
  intros [|n] [|n'] Hle Hk; cbn in *; [done|done|lia|]. intros o. eapply IH, Hk. lia.
Qed.

Lemma at_most_bind {A B} n n' (m : io A) (f : A -> io B) :
  at_most n m -> (forall a, at_most n' (f a)) -> at_most (n + n') (bind m f).
Proof.
  revert n. induction m as [a|e|r k IH]; cbn; intros n Hm Hf; [|done|].
  - eapply at_most_mono; [|apply Hf]. lia.
  - destruct n as [|n]; [done|]. intros o. by apply IH.
Qed.

Lemma at_most_then_silent {A B} n (m : io A) (f : A -> io B) :
  at_most n m -> (forall a, at_most 0 (f a)) -> at_most n (bind m f).
Proof. intros. rewrite <- (Nat.add_0_r n). by apply at_most_bind. Qed.

Lemma silent_requests {A} P (m : io A) : at_most 0 m -> all_requests P m.
Proof. by destruct m. Qed.

Lemma silent_lift {A B} (m : res A) (f : A -> io B) :
  (forall a, at_most 0 (f a)) -> at_most 0 (bind (lift m) f).
Proof. intros. by destruct m; cbn. Qed.

Lemma all_requests_fetch P r : P r -> all_requests P (fetch r).
Proof. intros. split; [done|]. by intros [|]. Qed.

Lemma at_most_fetch r : at_most 1 (fetch r).
Proof. by intros [|]. Qed.

Lemma all_requests_lift {A} P (m : res A) : all_requests P (lift m).
Proof. by destruct m. Qed.

Lemma at_most_lift {A} n (m : res A) : at_most n (lift m).
Proof. by destruct m. Qed.

Lemma all_requests_try {A} P (m h : io A) :
  all_requests P m -> all_requests P h -> all_requests P (try_catch m h).
Proof. induction m as [a|e|r k IH]; cbn; naive_solver. Qed.

Lemma all_results_try {A} Q (m h : io A) :
  all_results Q m -> all_results Q h -> all_results Q (try_catch m h).
Proof. induction m as [a|e|r k IH]; cbn; naive_solver. Qed.

#[export] Hint Resolve all_requests_fetch at_most_fetch all_requests_lift
  at_most_lift all_results_true : js.

(** ** The browser's side of a handler *)

Record NextRequest := {
  req_cookies : gmap string string;
  req_headers : gmap string string;
  req_protocol : string;
  req_host : string;
  req_query : list (string * string);
  req_body : option string;
}.

(** [request.cookies.get(name)?.value ?? ''] *)
Definition cookie_value (request : NextRequest) (name : string) : string :=
  (req_cookies request !! name) ?? "".

(** [request.nextUrl.searchParams.get(name)] *)
Definition query_get (request : NextRequest) (name : string) : option string :=
  own_get (req_query request) name.

(** [await request.text()] *)
Definition request_text (request : NextRequest) : io string :=
  match req_body request with Some t => Ret t | None => Throw "body unavailable" end.

(** application/x-www-form-urlencoded, as [URLSearchParams.toString] writes it. *)
Definition form_char (c : ascii) : string :=
  let n := N_of_ascii c in
  if is_alnum c || existsb (Ascii.eqb c) ["*"; "-"; "."; "_"]%char then String c ""
  else if (n =? 32)%N then "+"
  else if (n <? 128)%N then percent n
  else percent (192 + n / 64) +:+ percent (128 + n mod 64).
Definition form_encode (s : string) : string := sflat form_char s.

Definition query_string (request : NextRequest) : string :=
  join "&" (map (fun kv => form_encode kv.1 +:+ "=" +:+ form_encode kv.2) (req_query request)).

Inductive SameSite := lax | strict | none.

(** What a response asks the browser to do with one cookie. *)
Inductive CookieOp :=
| SetCookie (value : string) (httpOnly : bool) (sameSite : SameSite) (secure : bool)
            (path : string) (maxAge : option Z)
| DeleteCookie.

Inductive Body :=
| JsonBody (v : jsval)
| BinaryBody (bytes : string)
| RedirectTo (url : string).

Record NextResponse := {
  res_status : Z;
  res_body : Body;
  res_headers : list (string * string);
  res_cookies : gmap string CookieOp;
}.

(** [NextResponse.json(v, { status })] and [NextResponse.redirect(url)]. *)
Definition json_response (v : obj) (st : Z) : NextResponse :=
  {| res_status := st; res_body := JsonBody (JObj v); res_headers := []; res_cookies := ∅ |}.
Definition value_response (v : jsval) (st : Z) : NextResponse :=
  {| res_status := st; res_body := JsonBody v; res_headers := []; res_cookies := ∅ |}.
Definition redirect_response (url : string) : NextResponse :=
  {| res_status := 307; res_body := RedirectTo url; res_headers := []; res_cookies := ∅ |}.

(** A status the Response constructor accepts together with a body. *)
Definition body_status (st : Z) : bool :=
  (200 <=? st) && (st <=? 599) && negb ((st =? 204) || (st =? 205) || (st =? 304)).

(** [NextResponse.json(v, { status })] for a status that came from upstream. *)
Definition send_json (v : jsval) (st : Z) : io NextResponse :=
  if body_status st then Ret (value_response v st) else Throw "Invalid response status code".

Definition set_cookie (name : string) (op : CookieOp) (r : NextResponse) : NextResponse :=
  {| res_status := res_status r; res_body := res_body r;
     res_headers := res_headers r; res_cookies := <[name := op]> (res_cookies r) |}.
Definition delete_cookie (name : string) (r : NextResponse) : NextResponse :=
  set_cookie name DeleteCookie r.

Definition set_header (name value : string) (r : NextResponse) : NextResponse :=
  {| res_status := res_status r; res_body := res_body r;
     res_headers := put (res_headers r) name value; res_cookies := res_cookies r |}.

(** [response.ok] *)
Definition response_ok (r : NextResponse) : bool :=
  (200 <=? res_status r) && (res_status r <=? 299).
