(* ===== verification/Session.v ===== *)
(** * The session routes

    [Shared] models src/app/api/auth/_shared.ts: where the control plane is,
    when cookies are Secure, how tokens and user records are read from
    upstream payloads, and how the session cookies are written and cleared.
    [Routes] models the handlers under src/app/api/auth: me, refresh, logout,
    request-otp and verify-otp.

    The process environment is the parameter [env]. *)

From stdpp Require Import gmap.
From S2P Require Import Prelude JsNumber JsString JsValue Auth Http.

Local Open Scope Z_scope.

(** [v[k]] on a payload of unknown shape: null and undefined throw. *)
Definition member (v : jsval) (k : string) : res jsval :=
  if is_nullish v then Exn ("Cannot read properties of null (reading '" +:+ k +:+ "')")
  else Ok (prop v k).

(** [String(payload.k ?? d)] *)
Definition member_str (v : jsval) (k d : string) : res string :=
  let! x := member v k in str_or x d.

(** [response.json().catch(() => ({}))] *)
Definition json_or_empty (r : FetchResponse) : jsval := default (JObj []) (resp_json r).

Section Env.
Context (env : string -> option string).

(** ** src/app/api/auth/_shared.ts *)

Definition CONTROL_PLANE_API_URL : string :=
  env "CONTROL_PLANE_API_URL" ?? env "NEXT_PUBLIC_CONTROL_PLANE_API_URL"
    ?? "http://localhost:8088/api".

Definition is_on (raw : string) : bool :=
  (raw === "1") || (raw === "true") || (raw === "yes") || (raw === "on").
Definition is_off (raw : string) : bool :=
  (raw === "0") || (raw === "false") || (raw === "no") || (raw === "off").

Definition envForcesSecureCookie : option bool :=
  let raw := toLowerCase (trim (env "AUTH_COOKIE_SECURE" ?? "")) in
  if negb (truthy_str raw) then None
  else if is_on raw then Some true
  else if is_off raw then Some false
  else None.

(** The scheme the browser used, as far as the handler can tell. *)
Definition request_scheme (request : NextRequest) : string :=
  toLowerCase ((req_headers request !! "x-forwarded-proto")
                 ?? remove_first ":" (req_protocol request)).

Definition shouldUseSecureCookies (request : option NextRequest) : bool :=
  match envForcesSecureCookie with
  | Some forced => forced
  | None =>
      match request with
      | Some request => request_scheme request === "https"
      | None => match env "NODE_ENV" with Some e => e === "production" | None => false end
      end
  end.

Definition controlPlaneApiUrl (path : string) : string :=
  let normalized := if startsWith path "/" then sdrop 1 path else path in
  strip_end (Ascii.eqb "/") CONTROL_PLANE_API_URL +:+ "/" +:+ normalized.

Record AuthCookies := {
  jwt : string;
  refreshToken : string;
  sessionId : string;
  cookieRole : UserRole;
}.

Definition authCookiesFromPayload (payload : jsval) : res (option AuthCookies) :=
  let! jwt := member_str payload "jwt" "" in
  let! refreshToken := member_str payload "refresh_token" "" in
  let! sessionId := member_str payload "session_id" "" in
  let! user_role := member_str payload "user_role" "" in
  Ok (match normalizeRole (Some user_role) with
      | Some role =>
          if truthy_str jwt && truthy_str refreshToken && truthy_str sessionId then
            Some {| jwt := jwt; refreshToken := refreshToken;
                    sessionId := sessionId; cookieRole := role |}
          else None
      | None => None
      end).

Definition deriveDeviceFingerprint (request : NextRequest) : string :=
  let userAgent := (req_headers request !! "user-agent") ?? "unknown-agent" in
  let forwardedFor := (req_headers request !! "x-forwarded-for") ?? "unknown-ip" in
  slice 0 255 (userAgent +:+ "|" +:+ forwardedFor).

(** The user record the routes hand to the browser; [user_id] and [email]
    are passed on as they came. *)
Record MappedUser := {
  u_id : jsval;
  u_email : jsval;
  u_name : string;
  u_role : UserRole;
  u_twoFactorEnabled : bool;
}.

Definition user_obj (u : MappedUser) : obj :=
  [("id", u_id u); ("email", u_email u); ("name", JStr (u_name u));
   ("role", JStr (role_str (u_role u))); ("twoFactorEnabled", JBool (u_twoFactorEnabled u))].

Definition mapMePayload (payload : jsval) : res (option MappedUser) :=
  let! user_role := member payload "user_role" in
  let! role_text := str_or user_role "" in
  let! display_name := member_str payload "display_name" "" in
  let! displayName :=
    if truthy_str (trim display_name) then Ok (trim display_name)
    else let! email := member_str payload "email" "" in Ok (trim email) in
  Ok (match normalizeRole (Some role_text) with
      | Some role =>
          if truthy (prop payload "user_id") && truthy (prop payload "email")
             && truthy_str displayName then
            Some {| u_id := prop payload "user_id"; u_email := prop payload "email";
                    u_name := displayName; u_role := role;
                    u_twoFactorEnabled := truthy (prop payload "two_factor_enabled") |}
          else None
      | None => None
      end).

Definition session_cookie (secure : bool) (value : string) : CookieOp :=
  SetCookie value true lax secure "/" None.
Definition role_cookie (secure : bool) (role : UserRole) : CookieOp :=
  SetCookie (role_str role) false lax secure "/" None.

Definition attachAuthCookies (response : NextResponse) (cookies : AuthCookies)
    (request : option NextRequest) : NextResponse :=
  let secure := shouldUseSecureCookies request in
  let response := set_cookie cookie_jwt (session_cookie secure (jwt cookies)) response in
  let response := set_cookie cookie_refreshToken (session_cookie secure (refreshToken cookies)) response in
  let response := set_cookie cookie_sessionId (session_cookie secure (sessionId cookies)) response in
  set_cookie cookie_role (role_cookie secure (cookieRole cookies)) response.

Definition attachTokenCookies (response : NextResponse) (jwt refreshToken sessionId : string)
    (role : option UserRole) (request : option NextRequest) : NextResponse :=
  let secure := shouldUseSecureCookies request in
  let response := set_cookie cookie_jwt (session_cookie secure jwt) response in
  let response := set_cookie cookie_refreshToken (session_cookie secure refreshToken) response in
  let response := set_cookie cookie_sessionId (session_cookie secure sessionId) response in
  match role with
  | Some r => set_cookie cookie_role (role_cookie secure r) response
  | None => response
  end.

Definition clearAuthCookies (response : NextResponse) : NextResponse :=
  let response := delete_cookie cookie_jwt response in
  let response := delete_cookie cookie_refreshToken response in
  let response := delete_cookie cookie_sessionId response in
  delete_cookie cookie_role response.

(** ** Upstream requests of the session routes *)

Definition bearer (jwt : string) : string * string := ("Authorization", "Bearer " +:+ jwt).
Definition json_content : string * string := ("Content-Type", "application/json").

Definition post_json (path : string) (body : obj) : FetchRequest :=
  {| f_method := "POST"; f_url := controlPlaneApiUrl path;
     f_headers := [json_content]; f_body := Some (json_text body) |}.

Definition me_request (jwt : string) : FetchRequest :=
  {| f_method := "GET"; f_url := controlPlaneApiUrl "/me"; f_headers := [bearer jwt];
     f_body := None |}.

Definition refresh_request (refreshToken : string) : FetchRequest :=
  post_json "/token/refresh" [("refresh_token", JStr refreshToken)].

Definition fetchMeWithJwt (jwt : string) : io FetchResponse := fetch (me_request jwt).

(** The tokens of a refresh answer, if it is a success that has both. *)
Definition refreshed_tokens (response : FetchResponse) : res (option (string * string)) :=
  if negb (ok response) then Ok None
  else
    let payload := json_or_empty response in
    let! jwt := member_str payload "jwt" "" in
    let! nextRefreshToken := member_str payload "refresh_token" "" in
    Ok (if truthy_str jwt && truthy_str nextRefreshToken
        then Some (jwt, nextRefreshToken) else None).

Definition refreshJwt (refreshToken : string) : io (option (string * string)) :=
  let* response := fetch (refresh_request refreshToken) in
  lift (refreshed_tokens response).

(** [try { x = await m } catch { ... }] *)
Definition attempt {A} (m : io A) : io (option A) :=
  try_catch (let* a := m in Ret (Some a)) (Ret None).

Definition unauthenticated (st : Z) : NextResponse :=
  clearAuthCookies (json_response [("authenticated", JBool false)] st).

Definition auth_failure (message : string) (st : Z) : NextResponse :=
  json_response [("authenticated", JBool false); ("message", JStr message)] st.

(** ** src/app/api/auth/me/route.ts *)

(** The answer to [/me] together with the tokens in force when it came. *)
Record MeAnswer := { meResponse : FetchResponse; activeJwt : string; activeRefreshToken : string }.

(** One refresh and one retry when the first answer is a 401; [None] when
    the retry cannot reach the control plane. *)
Definition me_retry (jwt refreshToken sessionId : string) (first : FetchResponse)
    : io (option MeAnswer) :=
  let same := Some {| meResponse := first; activeJwt := jwt; activeRefreshToken := refreshToken |} in
  if (status first =? 401) && truthy_str refreshToken && truthy_str sessionId then
    let* refreshed := refreshJwt refreshToken in
    match refreshed with
    | Some (jwt', refreshToken') =>
        let* again := attempt (fetchMeWithJwt jwt') in
        Ret (match again with
             | Some r => Some {| meResponse := r; activeJwt := jwt'; activeRefreshToken := refreshToken' |}
             | None => None
             end)
    | None => Ret same
    end
  else Ret same.

(** [normalizeRole(user.role) ?? roleCookie]: the user's role always wins. *)
Definition me_respond (request : NextRequest) (sessionId : string)
    (roleCookie : option UserRole) (a : MeAnswer) : io NextResponse :=
  let r := meResponse a in
  if negb (ok r) then
    if negb (status r =? 401) && negb (status r =? 403) then
      Ret (auth_failure "auth_upstream_error" 503)
    else Ret (unauthenticated 401)
  else
    let meJson := default JNull (resp_json r) in
    let* user := lift (if truthy meJson then mapMePayload meJson else Ok None) in
    match user with
    | None => Ret (unauthenticated 502)
    | Some user =>
        let response := json_response
          [("authenticated", JBool true); ("user", JObj (user_obj user))] 200 in
        if truthy_str (activeRefreshToken a) && truthy_str sessionId then
          Ret (attachTokenCookies response (activeJwt a) (activeRefreshToken a) sessionId
                 (normalizeRole (Some (role_str (u_role user))) ??? roleCookie) (Some request))
        else
          Ret (set_cookie cookie_role
                 (role_cookie (shouldUseSecureCookies (Some request)) (u_role user)) response)
    end.

Definition me_GET (request : NextRequest) : io NextResponse :=
  let jwt := cookie_value request cookie_jwt in
  let refreshToken := cookie_value request cookie_refreshToken in
  let sessionId := cookie_value request cookie_sessionId in
  let roleCookie := normalizeRole (req_cookies request !! cookie_role) in
  if negb (truthy_str jwt) then Ret (unauthenticated 401)
  else
    let* first := attempt (fetchMeWithJwt jwt) in
    match first with
    | None => Ret (auth_failure "auth_upstream_unreachable" 503)
    | Some first =>
        let* answered := me_retry jwt refreshToken sessionId first in
        match answered with
        | None => Ret (auth_failure "auth_upstream_unreachable" 503)
        | Some a => me_respond request sessionId roleCookie a
        end
    end.

(** ** src/app/api/auth/refresh/route.ts *)

Definition refresh_POST (request : NextRequest) : io NextResponse :=
  let refreshToken := cookie_value request cookie_refreshToken in
  let sessionId := cookie_value request cookie_sessionId in
  let roleValue := normalizeRole (req_cookies request !! cookie_role) in
  if negb (truthy_str refreshToken) || negb (truthy_str sessionId) then
    Ret (clearAuthCookies (auth_failure "missing_refresh_token" 401))
  else
    let* refreshResponse := fetch (refresh_request refreshToken) in
    let refreshJson := json_or_empty refreshResponse in
    if negb (ok refreshResponse) then
      let* message := lift (member_str refreshJson "message" "refresh_failed") in
      Ret (clearAuthCookies (auth_failure message 401))
    else
      let* nextJwt := lift (member_str refreshJson "jwt" "") in
      let* nextRefreshToken := lift (member_str refreshJson "refresh_token" "") in
      if negb (truthy_str nextJwt) || negb (truthy_str nextRefreshToken) then
        Ret (clearAuthCookies (auth_failure "invalid_refresh_response" 502))
      else
        Ret (attachTokenCookies (json_response [("authenticated", JBool true)] 200)
               nextJwt nextRefreshToken sessionId roleValue (Some request)).

(** ** src/app/api/auth/logout/route.ts *)

Definition logout_request (jwt sessionId : string) : FetchRequest :=
  {| f_method := "POST"; f_url := controlPlaneApiUrl "/logout";
     f_headers := [bearer jwt; json_content];
     f_body := Some (json_text [("session_id", JStr sessionId); ("all_devices", JBool false)]) |}.

Definition logout_POST (request : NextRequest) : io NextResponse :=
  let jwt := cookie_value request cookie_jwt in
  let sessionId := cookie_value request cookie_sessionId in
  let response := clearAuthCookies (json_response [("ok", JBool true)] 200) in
  if truthy_str jwt && truthy_str sessionId then
    let* _ := attempt (fetch (logout_request jwt sessionId)) in
    Ret response
  else Ret response.

(** ** src/app/api/auth/request-otp/route.ts *)

(** [await request.json()], [None] when it throws. *)
Definition request_json (request : NextRequest) : option jsval :=
  t ← req_body request; json_parse t.

Definition message_response (message : string) (st : Z) : NextResponse :=
  json_response [("message", JStr message)] st.

(** An upstream refusal passed on with its own message and errors. *)
Definition upstream_refusal (payload : jsval) (fallback : string) (st : Z) : io NextResponse :=
  let* message := lift (member_str payload "message" fallback) in
  send_json (JObj [("message", JStr message);
                   ("errors", vnullish (prop payload "errors") JNull)]) st.

Definition request_otp_POST (request : NextRequest) : io NextResponse :=
  match request_json request with
  | None => Ret (message_response "invalid_request_body" 400)
  | Some body =>
      let* email := lift (member_str body "email" "") in
      let email := trim email in
      if negb (truthy_str email) then Ret (message_response "email_required" 422)
      else
        let* upstream := attempt (fetch (post_json "/auth/request-otp" [("email", JStr email)])) in
        match upstream with
        | None => Ret (message_response "control_plane_unreachable" 503)
        | Some r =>
            let json := json_or_empty r in
            if negb (ok r) then
              upstream_refusal json
                (if 500 <=? status r then "auth_service_unavailable" else "otp_request_failed")
                (status r)
            else
              let* st := lift (member_str json "status" "otp_sent") in
              let* challenge := lift (member_str json "challenge_id" "") in
              let* seconds := lift (to_number (vnullish (prop json "resend_after_seconds")
                                                        (JNum (Num.of_Z 60)))) in
              Ret (json_response [("status", JStr st); ("challenge_id", JStr challenge);
                                  ("resend_after_seconds", JNum seconds)] 200)
        end
  end.

(** ** src/app/api/auth/verify-otp/route.ts *)

Definition verify_request (request : NextRequest) (email challengeId otp : string) : FetchRequest :=
  post_json "/auth/verify-otp"
    [("email", JStr email); ("challenge_id", JStr challengeId); ("otp", JStr otp);
     ("device_fingerprint", JStr (deriveDeviceFingerprint request))].

(** The second source of the user record, when the verify answer is too thin. *)
Definition user_from_me (cookies : AuthCookies) : io (option MappedUser) :=
  let* meResponse := fetch (me_request (jwt cookies)) in
  if negb (ok meResponse) then Ret None
  else
    let meJson := default JNull (resp_json meResponse) in
    if negb (truthy meJson) then Ret None
    else
      let* user_id := lift (member_str meJson "user_id" "") in
      let* email := lift (member_str meJson "email" "") in
      let* display_name := lift (member_str meJson "display_name" "") in
      let* user_role := lift (member_str meJson "user_role" "") in
      lift (mapMePayload (JObj
        [("user_id", JStr user_id); ("email", JStr email);
         ("display_name", JStr display_name); ("user_role", JStr user_role);
         ("two_factor_enabled", JBool (truthy (prop meJson "two_factor_enabled")))])).

Definition verify_success (request : NextRequest) (email : string) (verifyJson : jsval)
    (cookieValues : AuthCookies) : io NextResponse :=
  let* user_id := lift (member_str verifyJson "user_id" "") in
  let* display_name := lift (member_str verifyJson "display_name" email) in
  let* user_role := lift (member_str verifyJson "user_role" (role_str (cookieRole cookieValues))) in
  let* user := lift (mapMePayload (JObj
    [("user_id", JStr user_id); ("email", JStr email); ("display_name", JStr display_name);
     ("user_role", JStr user_role); ("two_factor_enabled", JBool false)])) in
  let* user := match user with Some u => Ret (Some u) | None => user_from_me cookieValues end in
  let user_json := match user with
    | Some u => user_obj u
    | None => [("id", JStr user_id); ("email", JStr email); ("name", JStr email);
               ("role", JStr (role_str (cookieRole cookieValues)))]
    end in
  Ret (attachAuthCookies (json_response [("ok", JBool true); ("user", JObj user_json)] 200)
         cookieValues (Some request)).

Definition verify_otp_POST (request : NextRequest) : io NextResponse :=
  match request_json request with
  | None => Ret (message_response "invalid_request_body" 400)
  | Some body =>
      let* email := lift (member_str body "email" "") in
      let* challengeId := lift (str_or (vnullish (prop body "challengeId")
                                                 (prop body "challenge_id")) "") in
      let* otp := lift (member_str body "otp" "") in
      let email := trim email in
      let challengeId := trim challengeId in
      let otp := trim otp in
      if negb (truthy_str email) || negb (truthy_str challengeId) || negb (truthy_str otp) then
        Ret (message_response "email_challenge_otp_required" 422)
      else
        let* verifyResponse := fetch (verify_request request email challengeId otp) in
        let verifyJson := json_or_empty verifyResponse in
        if negb (ok verifyResponse) then
          upstream_refusal verifyJson "otp_verify_failed" (status verifyResponse)
        else
          let* cookieValues := lift (authCookiesFromPayload verifyJson) in
          match cookieValues with
          | None => Ret (message_response "invalid_verify_response" 502)
          | Some c => verify_success request email verifyJson c
          end
  end.

End Env.
