(* ===== verification/Proxy.v ===== *)
(** * The authenticated proxy

    Models src/app/api/devices/_shared.ts: every data route forwards the
    browser's request to the control plane with the session token, refreshes
    the token once when the answer is a 401, and turns the answer into the
    browser's response. *)

From stdpp Require Import gmap.
From S2P Require Import Prelude JsNumber JsString JsValue Auth Http Session.

Local Open Scope Z_scope.

Section Env.
Context (env : string -> option string).

(** [ProxyRequestOptions]; the method defaults to GET. *)
Record ProxyRequestOptions := {
  opt_method : option string;
  opt_body : option string;
  opt_headers : list (string * string);
}.

Definition nonblank_message (o : obj) : option string :=
  match get o "message" with
  | JStr m => if truthy_str (trim m) then Some m else None
  | _ => None
  end.

Definition extractPayloadMessage (payload : jsval) : option string :=
  record ← as_object payload;
  nonblank_message record ???
    (nested ← as_object (get record "error"); nonblank_message nested).

(** [response.headers.get('content-type') ?? ''] names a JSON body. *)
Definition is_json_type (contentType : string) : bool :=
  includes (toLowerCase contentType) "application/json".

Definition readUpstreamPayload (response : FetchResponse) : jsval :=
  let contentType := (resp_headers response !! "content-type") ?? "" in
  if is_json_type contentType then default JNull (resp_json response)
  else
    let text := resp_body response ?? "" in
    if negb (truthy_str (trim text)) then JNull
    else JObj [("message", JStr text)].

Definition normalizedPayload (payload : jsval) : jsval :=
  match as_object payload with
  | Some o =>
      match extractPayloadMessage payload with
      | Some message => JObj (put o "message" (JStr message))
      | None => payload
      end
  | None => vnullish payload (JObj [("message", JStr "upstream_error")])
  end.

Definition unauthenticated_proxy : NextResponse :=
  clearAuthCookies (message_response "unauthenticated" 401).

(** The upstream answer, whether a refresh happened, the tokens in force. *)
Record Exchange := {
  upstreamResponse : FetchResponse;
  didRefresh : bool;
  xJwt : string;
  xRefreshToken : string;
}.

(** Send once; on a 401 refresh once and send again with the new token. *)
Definition exchange (send : string -> FetchRequest) (jwt refreshToken sessionId : string)
    : io Exchange :=
  let* upstreamResponse := fetch (send jwt) in
  let same := {| upstreamResponse := upstreamResponse; didRefresh := false;
                 xJwt := jwt; xRefreshToken := refreshToken |} in
  if (status upstreamResponse =? 401) && truthy_str refreshToken && truthy_str sessionId then
    let* refreshed := refreshJwt env refreshToken in
    match refreshed with
    | Some (jwt', refreshToken') =>
        let* again := fetch (send jwt') in
        Ret {| upstreamResponse := again; didRefresh := true;
               xJwt := jwt'; xRefreshToken := refreshToken' |}
    | None => Ret same
    end
  else Ret same.

Definition proxied_request (upstreamPath : string) (options : ProxyRequestOptions)
    (jwt : string) : FetchRequest :=
  {| f_method := opt_method options ?? "GET";
     f_url := controlPlaneApiUrl env upstreamPath;
     f_headers := spread [bearer jwt; ("Accept", "application/json")] (opt_headers options);
     f_body := opt_body options |}.

(** The role a payload announces for the current user. *)
Definition payload_role (payload : jsval) : res (option UserRole) :=
  match as_object payload with
  | Some o => let! s := str_or (get o "user_role") "" in Ok (normalizeRole (Some s))
  | None => Ok None
  end.

Definition proxy_respond (x : Exchange) (sessionId : string) (role : option UserRole)
    : io NextResponse :=
  if status (upstreamResponse x) =? 401 then Ret unauthenticated_proxy
  else
    let payload := readUpstreamPayload (upstreamResponse x) in
    let* response := send_json (normalizedPayload payload)
      (if truthy payload then status (upstreamResponse x) else 502) in
    let* payloadRole := lift (payload_role payload) in
    let effectiveRole := payloadRole ??? role in
    if (didRefresh x || bool_decide (is_Some payloadRole))
       && truthy_str (xRefreshToken x) && truthy_str sessionId
    then Ret (attachTokenCookies env response (xJwt x) (xRefreshToken x) sessionId
                effectiveRole None)
    else Ret response.

Definition proxyAuthedRequest (request : NextRequest) (upstreamPath : string)
    (options : ProxyRequestOptions) : io NextResponse :=
  let jwt := cookie_value request cookie_jwt in
  let refreshToken := cookie_value request cookie_refreshToken in
  let sessionId := cookie_value request cookie_sessionId in
  let role := normalizeRole (req_cookies request !! cookie_role) in
  if negb (truthy_str jwt) then Ret unauthenticated_proxy
  else
    let* x := exchange (proxied_request upstreamPath options) jwt refreshToken sessionId in
    proxy_respond x sessionId role.

Definition proxyAuthedGet (request : NextRequest) (upstreamPath : string) : io NextResponse :=
  proxyAuthedRequest request upstreamPath
    {| opt_method := Some "GET"; opt_body := None; opt_headers := [] |}.

Definition binary_request (upstreamPath : string) (jwt : string) : FetchRequest :=
  {| f_method := "GET"; f_url := controlPlaneApiUrl env upstreamPath;
     f_headers := [bearer jwt]; f_body := None |}.

(** Copy a header of the upstream answer when it is there and not empty. *)
Definition copy_header (name : string) (from : FetchResponse) (r : NextResponse) : NextResponse :=
  match resp_headers from !! name with
  | Some v => if truthy_str v then set_header name v r else r
  | None => r
  end.

Definition binary_respond (x : Exchange) (sessionId : string) (role : option UserRole)
    : io NextResponse :=
  let up := upstreamResponse x in
  if status up =? 401 then Ret unauthenticated_proxy
  else
    match resp_body up with
    | None => Throw "terminated"
    | Some body =>
        if negb (body_status (status up)) then Throw "Invalid response status code"
        else
          let response :=
            {| res_status := status up; res_body := BinaryBody body;
               res_headers := []; res_cookies := ∅ |} in
          let response := copy_header "content-type" up response in
          let response := copy_header "content-disposition" up response in
          let response := copy_header "cache-control" up response in
          if didRefresh x && truthy_str (xRefreshToken x) && truthy_str sessionId
          then Ret (attachTokenCookies env response (xJwt x) (xRefreshToken x) sessionId role None)
          else Ret response
    end.

Definition proxyAuthedBinaryGet (request : NextRequest) (upstreamPath : string)
    : io NextResponse :=
  let jwt := cookie_value request cookie_jwt in
  let refreshToken := cookie_value request cookie_refreshToken in
  let sessionId := cookie_value request cookie_sessionId in
  let role := normalizeRole (req_cookies request !! cookie_role) in
  if negb (truthy_str jwt) then Ret unauthenticated_proxy
  else
    let* x := exchange (binary_request upstreamPath) jwt refreshToken sessionId in
    binary_respond x sessionId role.

End Env.
