(* ===== verification/SessionLaws.v ===== *)
(** * What a route may do to the session cookies

    [SessionRoute] is the contract between the route handlers and the
    browser: the four ways a response may touch the session cookies.  Every
    handler of Session.v and Proxy.v is an instance; Browser.v proves its
    theorems from the contract alone. *)

From stdpp Require Import gmap.
From S2P Require Import Prelude JsNumber JsString JsValue Auth Http Session Proxy.

Local Open Scope Z_scope.

(** ** The contract *)

(** The operations of a response on jwt, refresh token, session id and role. *)
Definition ops_view (r : NextResponse) :=
  (res_cookies r !! cookie_jwt, res_cookies r !! cookie_refreshToken,
   res_cookies r !! cookie_sessionId, res_cookies r !! cookie_role).

(** Tokens are written with a role, or else by a request that had a session
    of its own and no role. *)
Definition role_accounted (request : NextRequest) (role : option UserRole) : Prop :=
  is_Some role \/
  (cookie_value request cookie_refreshToken <> "" /\ cookie_value request cookie_sessionId <> ""
   /\ normalizeRole (req_cookies request !! cookie_role) = None).

Inductive SessionEffect (request : NextRequest) (r : NextResponse) : Prop :=
| effect_keep :
    ops_view r = (None, None, None, None) -> SessionEffect request r
| effect_clear :
    ops_view r = (Some DeleteCookie, Some DeleteCookie, Some DeleteCookie, Some DeleteCookie) ->
    SessionEffect request r
| effect_tokens secure j t s role :
    j <> "" -> t <> "" -> s <> "" ->
    role_accounted request role ->
    ops_view r = (Some (session_cookie secure j), Some (session_cookie secure t),
                  Some (session_cookie secure s), role_cookie secure <$> role) ->
    SessionEffect request r
| effect_role secure role :
    cookie_value request cookie_jwt <> "" ->
    cookie_value request cookie_refreshToken = "" \/
    cookie_value request cookie_sessionId = "" ->
    ops_view r = (None, None, None, Some (role_cookie secure role)) ->
    SessionEffect request r.

Class SessionRoute (h : NextRequest -> io NextResponse) :=
  session_route : forall request, all_results (SessionEffect request) (h request).

(** ** Responses and their cookies *)

(** Lookups of the cookie names, which are distinct literals. *)
Ltac cookie_lookups :=
  unfold ops_view, cookie_jwt, cookie_refreshToken, cookie_sessionId, cookie_role in *;
  cbn; simplify_map_eq; try done; try congruence.

Lemma ops_view_plain v st : ops_view (value_response v st) = (None, None, None, None).
Proof. unfold ops_view. cbn. by rewrite !lookup_empty. Qed.

Lemma ops_view_json o st : ops_view (json_response o st) = (None, None, None, None).
Proof. apply (ops_view_plain (JObj o)). Qed.

Lemma ops_view_clear r :
  ops_view (clearAuthCookies r) =
  (Some DeleteCookie, Some DeleteCookie, Some DeleteCookie, Some DeleteCookie).
Proof. unfold clearAuthCookies, delete_cookie. by cookie_lookups. Qed.

Lemma ops_view_tokens env r j t s role req :
  ops_view r = (None, None, None, None) ->
  ops_view (attachTokenCookies env r j t s role req) =
  let secure := shouldUseSecureCookies env req in
  (Some (session_cookie secure j), Some (session_cookie secure t),
   Some (session_cookie secure s), role_cookie secure <$> role).
Proof.
  unfold ops_view, attachTokenCookies. intros [= H1 H2 H3 H4].
  destruct role; by cookie_lookups.
Qed.

Lemma ops_view_auth env r c req :
  ops_view (attachAuthCookies env r c req) =
  let secure := shouldUseSecureCookies env req in
  (Some (session_cookie secure (jwt c)), Some (session_cookie secure (refreshToken c)),
   Some (session_cookie secure (sessionId c)), Some (role_cookie secure (cookieRole c))).
Proof. unfold attachAuthCookies. by cookie_lookups. Qed.

Lemma ops_view_role r op :
  ops_view r = (None, None, None, None) ->
  ops_view (set_cookie cookie_role op r) = (None, None, None, Some op).
Proof. unfold ops_view. intros [= H1 H2 H3 H4]. by cookie_lookups. Qed.

Lemma ops_view_header n v r : ops_view (set_header n v r) = ops_view r.
Proof. done. Qed.

Lemma ops_view_copy_header n from r : ops_view (copy_header n from r) = ops_view r.
Proof. unfold copy_header. by cases. Qed.

Lemma effect_json request o st : SessionEffect request (json_response o st).
Proof. apply effect_keep, ops_view_json. Qed.

Lemma effect_cleared request r : SessionEffect request (clearAuthCookies r).
Proof. apply effect_clear, ops_view_clear. Qed.

Lemma effect_send_json request v st : all_results (SessionEffect request) (send_json v st).
Proof. unfold send_json. case_match; [|done]. apply effect_keep, ops_view_plain. Qed.

#[export] Hint Resolve effect_json effect_cleared effect_send_json : js.

(** Only the continuation of a pure step matters. *)
Lemma all_results_lift {A B} (R : B -> Prop) (m : res A) (f : A -> io B) :
  (forall a, m = Ok a -> all_results R (f a)) -> all_results R (bind (lift m) f).
Proof. destruct m; cbn; auto. Qed.

(** A result that does not depend on what was fetched. *)
Lemma all_results_any {A B} (R : B -> Prop) (m : io A) (f : A -> io B) :
  (forall a, all_results R (f a)) -> all_results R (bind m f).
Proof. intros Hf. eapply all_results_bind; [apply all_results_true|auto]. Qed.

Ltac results :=
  repeat match goal with
  | |- all_results _ (if ?b then _ else _) => destruct b eqn:?
  | |- all_results _ (match ?x with _ => _ end) => destruct x eqn:?
  | |- all_results _ (bind (lift _) _) => apply all_results_lift; intros ? ?
  | |- all_results _ (bind _ _) => apply all_results_any; intros ?
  | |- all_results _ (Ret _) => cbn [all_results]
  | |- all_results _ (let _ := _ in _) => cbn zeta
  end.

(** ** The handlers honour the contract *)

Section Handlers.
Context (env : string -> option string).

(** Reading the tests on strings that guard the token cookies. *)
Ltac token_tests :=
  repeat match goal with
  | H : truthy_str _ = true |- _ => apply truthy_str_spec in H
  | H : truthy_str _ = false |- _ => apply truthy_str_false in H
  | H : (_ && _)%bool = true |- _ => apply andb_true_iff in H as [? ?]
  | H : (_ || _)%bool = false |- _ => apply orb_false_iff in H as [? ?]
  | H : negb _ = false |- _ => apply negb_false_iff in H
  end.

(** The role of the request's own cookie, possibly overridden. *)
Lemma role_accounted_or request role :
  cookie_value request cookie_refreshToken <> "" ->
  cookie_value request cookie_sessionId <> "" ->
  role_accounted request (role ??? normalizeRole (req_cookies request !! cookie_role)).
Proof.
  intros. destruct role; [by left; eexists|].
  destruct (normalizeRole _) eqn:E; [by left; eexists|by right].
Qed.
Definition role_accounted_own request := role_accounted_or request None.

Lemma effect_tokens_attached request r j t s role req :
  ops_view r = (None, None, None, None) -> j <> "" -> t <> "" -> s <> "" ->
  role_accounted request role ->
  SessionEffect request (attachTokenCookies env r j t s role req).
Proof.
  intros Hr Hj Ht Hs Hrole. eapply effect_tokens; [exact Hj|exact Ht|exact Hs|exact Hrole|].
  by apply ops_view_tokens.
Qed.

Lemma effect_auth_attached request r c req :
  jwt c <> "" -> refreshToken c <> "" -> sessionId c <> "" ->
  SessionEffect request (attachAuthCookies env r c req).
Proof.
  intros. eapply (effect_tokens _ _ _ _ _ _ (Some (cookieRole c)));
    [..|apply ops_view_auth]; eauto. left. by eexists.
Qed.

Lemma authCookies_nonempty payload c :
  authCookiesFromPayload payload = Ok (Some c) ->
  jwt c <> "" /\ refreshToken c <> "" /\ sessionId c <> "".
Proof.
  unfold authCookiesFromPayload, res_bind. intros H.
  repeat (case_match; simplify_eq). by token_tests.
Qed.

Lemma refreshed_tokens_nonempty r j t :
  refreshed_tokens r = Ok (Some (j, t)) -> j <> "" /\ t <> "".
Proof.
  unfold refreshed_tokens, res_bind. intros H.
  repeat (case_match; simplify_eq). by token_tests.
Qed.

Lemma refreshJwt_nonempty t :
  all_results (fun o => forall j' t', o = Some (j', t') -> j' <> "" /\ t' <> "")
    (refreshJwt env t).
Proof.
  unfold refreshJwt. apply all_results_any. intros r.
  destruct (refreshed_tokens r) as [o|] eqn:E; [|done]. cbn.
  intros j' t' ->. by eapply refreshed_tokens_nonempty.
Qed.

#[export] Instance refresh_POST_route : SessionRoute (refresh_POST env).
Proof.
  intros request. unfold refresh_POST. results; auto with js. token_tests.
  apply effect_tokens_attached; auto using ops_view_json, role_accounted_own.
Qed.

#[export] Instance logout_POST_route : SessionRoute (logout_POST env).
Proof. intros request. unfold logout_POST. results; auto with js. Qed.

#[export] Instance request_otp_POST_route : SessionRoute (request_otp_POST env).
Proof.
  intros request. unfold request_otp_POST, message_response, upstream_refusal.
  results; auto with js.
Qed.

#[export] Instance verify_otp_POST_route : SessionRoute (verify_otp_POST env).
Proof.
  intros request. unfold verify_otp_POST, message_response, upstream_refusal, verify_success.
  results; auto with js;
    match goal with
    | H : authCookiesFromPayload _ = Ok (Some _) |- _ =>
        apply authCookies_nonempty in H as (? & ? & ?)
    end; by apply effect_auth_attached.
Qed.

(** The tokens in force after the retry of [/me] are those of the cookies or
    fresh ones. *)
Lemma me_retry_tokens jwt refreshToken sessionId first :
  jwt <> "" ->
  all_results (fun o => forall a, o = Some a ->
      activeJwt a <> "" /\ (activeRefreshToken a = "" -> refreshToken = ""))
    (me_retry env jwt refreshToken sessionId first).
Proof.
  intros Hj. unfold me_retry. case_match eqn:E; [|by cbn; intros ? [= <-]].
  token_tests. eapply all_results_bind; [apply refreshJwt_nonempty|].
  intros [[j' t']|] Hjt; [|by cbn; intros ? [= <-]].
  apply all_results_any. intros o. cbn. intros a Ha.
  destruct o; simplify_eq/=. destruct (Hjt _ _ eq_refl). by split.
Qed.

#[export] Instance me_GET_route : SessionRoute (me_GET env).
Proof.
  intros request. unfold me_GET. case_match eqn:Ej; [apply effect_cleared|]. token_tests.
  apply all_results_any. intros [first|]; [|apply effect_json].
  eapply all_results_bind; [by apply me_retry_tokens|].
  intros [a|] Ha; [|apply effect_json].
  destruct (Ha a eq_refl) as [Hjwt Href].
  unfold me_respond. results; unfold unauthenticated, auth_failure; auto with js; token_tests.
  - apply effect_tokens_attached; auto using ops_view_json.
    left. rewrite normalizeRole_role_str. by eexists.
  - eapply effect_role; [done| |by apply ops_view_role, ops_view_json].
    destruct (truthy_str (activeRefreshToken a)) eqn:E; token_tests; [right|left; auto].
    by apply truthy_str_false.
Qed.

(** The proxy's tokens are those of the cookies or fresh ones. *)
Lemma exchange_tokens send jwt refreshToken sessionId :
  jwt <> "" ->
  all_results (fun x => xJwt x <> "" /\
      (didRefresh x = false -> xRefreshToken x = refreshToken) /\
      (didRefresh x = true -> refreshToken <> ""))
    (exchange env send jwt refreshToken sessionId).
Proof.
  intros Hj. unfold exchange. apply all_results_any. intros up.
  case_match eqn:E; [|done]. token_tests.
  eapply all_results_bind; [apply refreshJwt_nonempty|].
  intros [[j' t']|] Hjt; [|done]. apply all_results_any. intros again. cbn.
  destruct (Hjt _ _ eq_refl). by repeat split.
Qed.

Lemma effect_proxy_tokens request r x req :
  cookie_value request cookie_sessionId <> "" ->
  xJwt x <> "" -> xRefreshToken x <> "" ->
  (didRefresh x = false -> xRefreshToken x = cookie_value request cookie_refreshToken) /\
  (didRefresh x = true -> cookie_value request cookie_refreshToken <> "") ->
  ops_view r = (None, None, None, None) ->
  forall role, SessionEffect request
    (attachTokenCookies env r (xJwt x) (xRefreshToken x)
       (cookie_value request cookie_sessionId)
       (role ??? normalizeRole (req_cookies request !! cookie_role)) req).
Proof.
  intros Hs Hj Ht [H1 H2] Hr role. apply effect_tokens_attached; auto.
  apply role_accounted_or; [|done]. destruct (didRefresh x); [auto|]. by rewrite <- H1.
Qed.

#[export] Instance proxyAuthedRequest_route path options :
  SessionRoute (fun request => proxyAuthedRequest env request path options).
Proof.
  intros request. unfold proxyAuthedRequest, unauthenticated_proxy.
  case_match eqn:Ej; [apply effect_cleared|]. token_tests.
  eapply all_results_bind; [by apply exchange_tokens|]. intros x (Hj & Hx).
  unfold proxy_respond, unauthenticated_proxy. case_match; [apply effect_cleared|].
  unfold send_json. destruct (body_status _); [|done]. cbn [bind].
  results; token_tests; [|apply effect_keep, ops_view_plain].
  apply effect_proxy_tokens; auto using ops_view_plain.
Qed.

#[export] Instance proxyAuthedBinaryGet_route path :
  SessionRoute (fun request => proxyAuthedBinaryGet env request path).
Proof.
  intros request. unfold proxyAuthedBinaryGet, unauthenticated_proxy.
  case_match eqn:Ej; [apply effect_cleared|]. token_tests.
  eapply all_results_bind; [by apply exchange_tokens|]. intros x (Hj & Hx).
  unfold binary_respond, unauthenticated_proxy.
  results; token_tests; try done; auto with js;
    [apply (effect_proxy_tokens _ _ _ _) with (role := None); auto|apply effect_keep];
    rewrite !ops_view_copy_header; unfold ops_view; cbn; by rewrite !lookup_empty.
Qed.
End Handlers.
