(* ===== verification/ProxyLaws.v ===== *)
(** * What the proxy sends and answers

    Theorems about every execution of the proxied routes of Proxy.v against
    an arbitrary upstream server. *)

From stdpp Require Import gmap.
From S2P Require Import Prelude JsNumber JsString JsValue Auth Http Session Proxy SessionLaws.

Local Open Scope Z_scope.

Section Proxied.
Context (env : string -> option string).
Context {S : Type} {up : Upstream S}.

(** The tokens the refresh endpoint hands out, when its answer has them. *)
Definition refresh_grants (o : option FetchResponse) (j t : string) : Prop :=
  exists r, o = Some r /\ refreshed_tokens r = Ok (Some (j, t)).

(** The conversation of one exchange with the control plane, as the answers
    of the server drive it. *)
Inductive conversation (send : string -> FetchRequest) (jwt refreshToken sessionId : string)
    (s : S) : list FetchRequest -> res Exchange -> Prop :=
| conv_down s1 :
    answer s (send jwt) = (s1, None) ->
    conversation send jwt refreshToken sessionId s [send jwt] (Exn "fetch failed")
| conv_answered s1 r :
    answer s (send jwt) = (s1, Some r) ->
    status r <> 401 \/ refreshToken = "" \/ sessionId = "" ->
    conversation send jwt refreshToken sessionId s [send jwt]
      (Ok {| upstreamResponse := r; didRefresh := false; xJwt := jwt; xRefreshToken := refreshToken |})
| conv_refused s1 s2 r o out :
    answer s (send jwt) = (s1, Some r) ->
    status r = 401 -> refreshToken <> "" -> sessionId <> "" ->
    answer s1 (refresh_request env refreshToken) = (s2, o) ->
    (forall j t, ~ refresh_grants o j t) ->
    out = Ok {| upstreamResponse := r; didRefresh := false; xJwt := jwt; xRefreshToken := refreshToken |}
      \/ (exists e, out = Exn e) ->
    conversation send jwt refreshToken sessionId s [send jwt; refresh_request env refreshToken] out
| conv_retried s1 s2 s3 r o j t again :
    answer s (send jwt) = (s1, Some r) ->
    status r = 401 -> refreshToken <> "" -> sessionId <> "" ->
    answer s1 (refresh_request env refreshToken) = (s2, o) ->
    refresh_grants o j t ->
    answer s2 (send j) = (s3, again) ->
    conversation send jwt refreshToken sessionId s
      [send jwt; refresh_request env refreshToken; send j]
      (match again with
       | Some r' => Ok {| upstreamResponse := r'; didRefresh := true; xJwt := j; xRefreshToken := t |}
       | None => Exn "fetch failed"
       end).

Lemma exchange_conversation send jwt refreshToken sessionId s :
  conversation send jwt refreshToken sessionId s
    (trace s (exchange env send jwt refreshToken sessionId))
    (outcome s (exchange env send jwt refreshToken sessionId)).
Proof.
  unfold trace, outcome, exchange. cbn.
  destruct (answer s (send jwt)) as [s1 [r|]] eqn:E1; cbn; [|by eapply conv_down].
  destruct ((status r =? 401) && truthy_str refreshToken && truthy_str sessionId) eqn:E; cbn.
  2: { eapply conv_answered; [done|]. apply andb_false_iff in E as [[E|E]%andb_false_iff|E].
       - left. by apply Z.eqb_neq.
       - right; left. by apply truthy_str_false.
       - right; right. by apply truthy_str_false. }
  apply andb_true_iff in E as [[E%Z.eqb_eq Et%truthy_str_spec]%andb_true_iff Es%truthy_str_spec].
  destruct (answer s1 _) as [s2 o] eqn:E2; cbn.
  destruct o as [r2|]; cbn.
  2: { eapply conv_refused; eauto. by intros ? ? (? & [=] & _). }
  destruct (refreshed_tokens r2) as [[[j t]|]|e] eqn:Er; cbn.
  - destruct (answer s2 (send j)) as [s3 again] eqn:E3; cbn.
    assert (refresh_grants (Some r2) j t) as Hg by by eexists.
    pose proof (conv_retried send jwt refreshToken sessionId s _ _ _ _ _ _ _ again E1 E Et Es E2 Hg E3) as H.
    by destruct again.
  - eapply conv_refused; eauto. intros j t (? & [= <-] & ?). congruence.
  - eapply conv_refused; eauto. intros j t (? & [= <-] & ?). congruence.
Qed.

Lemma proxy_respond_silent x sid role : at_most 0 (proxy_respond env x sid role).
Proof.
  unfold proxy_respond, send_json. case_match; [done|].
  destruct (body_status _); [|done]. cbn [bind].
  destruct (payload_role _); cbn; [|done]. by case_match.
Qed.

(** What the control plane sees of a bound computation that ends silently. *)
Lemma run_then_silent {A B} (m : io A) (f : A -> io B) s :
  (forall a, at_most 0 (f a)) ->
  trace s (bind m f) = trace s m /\
  outcome s (bind m f) =
    match outcome s m with
    | Ok a => outcome (run s m).1.2 (f a)
    | Exn e => Exn e
    end.
Proof.
  intros Hf. unfold trace, outcome. rewrite run_bind.
  destruct (run s m) as [[tr s'] [a|e]]; [|done]. cbn.
  rewrite (run_silent (f a) s' (Hf a)). cbn. by rewrite app_nil_r.
Qed.

(** The cookies a request carries, as the proxy reads them. *)
Definition req_jwt (request : NextRequest) := cookie_value request cookie_jwt.
Definition req_refresh (request : NextRequest) := cookie_value request cookie_refreshToken.
Definition req_session (request : NextRequest) := cookie_value request cookie_sessionId.
Definition req_role (request : NextRequest) := normalizeRole (req_cookies request !! cookie_role).

Lemma silent_outcome {A} (m : io A) s s' : at_most 0 m -> outcome s m = outcome s' m.
Proof. by destruct m. Qed.

(** The handlers with a session token: a conversation, then a silent
    translation of its answer. *)
Lemma authed_conversation send (respond : Exchange -> io NextResponse) jwt t sid s :
  (forall x, at_most 0 (respond x)) ->
  let handler := bind (exchange env send jwt t sid) respond in
  exists out, conversation send jwt t sid s (trace s handler) out /\
    outcome s handler =
      match out with Ok x => outcome s (respond x) | Exn e => Exn e end.
Proof.
  intros Hr handler. set (m := exchange env send jwt t sid).
  destruct (run_then_silent m respond s Hr) as [Ht Ho].
  exists (outcome s m). split.
  - replace (trace s handler) with (trace s m) by (by rewrite <- Ht). apply exchange_conversation.
  - etransitivity; [exact Ho|]. destruct (outcome s m); [|done]. by apply silent_outcome.
Qed.

Lemma proxy_conversation request path options s :
  let handler := proxyAuthedRequest env request path options in
  truthy_str (req_jwt request) = true ->
  exists out,
    conversation (proxied_request env path options)
      (req_jwt request) (req_refresh request) (req_session request) s (trace s handler) out /\
    outcome s handler =
      match out with
      | Ok x => outcome s (proxy_respond env x (req_session request) (req_role request))
      | Exn e => Exn e
      end.
Proof.
  cbn zeta. unfold proxyAuthedRequest, req_jwt. intros ->. cbn [negb].
  apply (authed_conversation (proxied_request env path options)
           (fun x => proxy_respond env x (req_session request) (req_role request))).
  intros. apply proxy_respond_silent.
Qed.

Lemma proxy_no_token request path options :
  truthy_str (req_jwt request) = false ->
  proxyAuthedRequest env request path options = Ret unauthenticated_proxy.
Proof. unfold proxyAuthedRequest, req_jwt. by intros ->. Qed.

(** [C1] The proxy implements the conversation: without a session token it
    sends nothing and answers 401 with the session cleared; with one, its
    requests and its outcome are those of a conversation (one request; on a
    401 one refresh; on fresh tokens one retry), the final answer being
    translated by [proxy_respond]. *)
Theorem proxy_refines_conversation request path options s :
  let handler := proxyAuthedRequest env request path options in
  if truthy_str (req_jwt request) then
    exists out,
      conversation (proxied_request env path options)
        (req_jwt request) (req_refresh request) (req_session request) s (trace s handler) out /\
      outcome s handler =
        match out with
        | Ok x => outcome s (proxy_respond env x (req_session request) (req_role request))
        | Exn e => Exn e
        end
  else trace s handler = [] /\ outcome s handler = Ok unauthenticated_proxy.
Proof.
  cbn zeta. destruct (truthy_str _) eqn:E; [by apply proxy_conversation|].
  by rewrite proxy_no_token.
Qed.

(** Whatever the control plane answers, the proxy sends it at most
    three requests, and each is either the browser's request (same method,
    path and body) under some bearer token or the refresh of the browser's
    own refresh token, which no other request carries. *)
Theorem proxy_requests_confined request path options s :
  let tr := trace s (proxyAuthedRequest env request path options) in
  (length tr <= 3)%nat /\
  Forall (fun r => r = refresh_request env (req_refresh request) \/
                   exists j, r = proxied_request env path options j) tr.
Proof.
  cbn zeta. destruct (truthy_str (req_jwt request)) eqn:E.
  - destruct (proxy_conversation request path options s E) as (out & H & _).
    destruct H; cbn; (split; [lia|]); repeat (apply List.Forall_cons || apply List.Forall_nil); eauto.
  - rewrite proxy_no_token by done. split; [cbn; lia|constructor].
Qed.

(** A rotation is answered with the new tokens or ends the session. *)
Lemma proxy_respond_rotated s x sid role resp :
  didRefresh x = true -> xRefreshToken x <> "" -> sid <> "" ->
  outcome s (proxy_respond env x sid role) = Ok resp ->
  resp = unauthenticated_proxy \/
  exists role', ops_view resp =
    let secure := shouldUseSecureCookies env None in
    (Some (session_cookie secure (xJwt x)), Some (session_cookie secure (xRefreshToken x)),
     Some (session_cookie secure sid), role_cookie secure <$> role').
Proof.
  intros Hd Ht%truthy_str_spec Hs%truthy_str_spec. unfold proxy_respond, send_json.
  case_match; [intros [= <-]; by left|].
  destruct (body_status _); [|done]. cbn [bind].
  destruct (payload_role _) as [role'|]; [|done]. cbn [lift bind].
  rewrite Hd, Ht, Hs. intros [= <-]. right. eexists.
  apply ops_view_tokens, ops_view_plain.
Qed.

(** [C15] A token rotation is never lost: when the proxy has refreshed and
    retried, any response it returns either clears the session or hands the
    browser exactly the tokens the control plane granted, with the token that
    the retry carried and the browser's own session id. *)
Theorem proxy_rotation_stored request path options s resp :
  let handler := proxyAuthedRequest env request path options in
  length (trace s handler) = 3%nat ->
  outcome s handler = Ok resp ->
  resp = unauthenticated_proxy \/
  exists s2 o j t role secure,
    refresh_grants o j t /\
    answer (answer s (proxied_request env path options (req_jwt request))).1
      (refresh_request env (req_refresh request)) = (s2, o) /\
    trace s handler = [proxied_request env path options (req_jwt request);
                       refresh_request env (req_refresh request);
                       proxied_request env path options j] /\
    ops_view resp = (Some (session_cookie secure j), Some (session_cookie secure t),
                     Some (session_cookie secure (req_session request)),
                     role_cookie secure <$> role).
Proof.
  cbn zeta. destruct (truthy_str (req_jwt request)) eqn:Ej; [|by rewrite proxy_no_token].
  destruct (proxy_conversation request path options s Ej) as (out & H & ->). inversion H as [| | |s1 s2 s3 r o j t again H1 Hst Ht Hs H2 Hg H3 Htr Hout];
    subst; [done..|]. intros _ Hresp.
  destruct again as [r'|]; [|done].
  assert (t <> "") as Ht' by (destruct Hg as (? & _ & ?); by eapply refreshed_tokens_nonempty).
  apply proxy_respond_rotated in Hresp as [|[role Hresp]]; cbn; auto.
  right. do 6 eexists. split; [exact Hg|]. rewrite H1. cbn. by rewrite H2.
Qed.

(** What normalisation does to a payload the upstream sent. *)
Lemma normalizedPayload_spec payload :
  is_nullish (normalizedPayload payload) = false /\
  (forall m, extractPayloadMessage payload = Some m ->
             prop (normalizedPayload payload) "message" = JStr m) /\
  (forall o k, payload = JObj o -> k <> "message" ->
               prop (normalizedPayload payload) k = get o k).
Proof.
  unfold normalizedPayload, extractPayloadMessage.
  destruct payload as [| | | | |l|o|]; cbn -[get put nonblank_message]; try (split_and!; congruence).
  destruct (nullish_or _ _) as [m|] eqn:E; split_and!; try done.
  - intros ? [= ->]. apply get_put_eq.
  - intros ? k [= <-] Hk. by apply get_put_ne.
  - by intros ? k [= <-].
Qed.

(** What reaches the browser: every answer that is not the 401 comes
    from the last answer of a conversation; its status is the upstream one
    (502 when the upstream sent no usable payload), its body is never null,
    carries the upstream's error message as [message] wherever the upstream
    put it, and keeps every other field of the upstream object. *)
Theorem proxy_answer_body request path options s resp :
  outcome s (proxyAuthedRequest env request path options) = Ok resp ->
  resp = unauthenticated_proxy \/
  exists tr x body,
    conversation (proxied_request env path options)
      (req_jwt request) (req_refresh request) (req_session request) s tr (Ok x) /\
    let payload := readUpstreamPayload (upstreamResponse x) in
    res_status resp = (if truthy payload then status (upstreamResponse x) else 502) /\
    res_body resp = JsonBody body /\ is_nullish body = false /\
    (forall m, extractPayloadMessage payload = Some m -> prop body "message" = JStr m) /\
    (forall o k, payload = JObj o -> k <> "message" -> prop body k = get o k).
Proof.
  destruct (truthy_str (req_jwt request)) eqn:Ej.
  2: { rewrite proxy_no_token by done. intros [= <-]. by left. }
  destruct (proxy_conversation request path options s Ej) as (out & Hc & ->).
  destruct out as [x|]; [|done]. unfold proxy_respond, send_json.
  case_match; [intros [= <-]; by left|].
  destruct (body_status _); [|done]. cbn [bind].
  destruct (payload_role _); [|done]. cbn [lift bind]. intros Hr. right.
  exists (trace s (proxyAuthedRequest env request path options)), x,
    (normalizedPayload (readUpstreamPayload (upstreamResponse x))).
  split; [exact Hc|]. cbn zeta.
  destruct (normalizedPayload_spec (readUpstreamPayload (upstreamResponse x))) as (? & ? & ?).
  case_match; injection Hr as <-; [|by split_and!].
  unfold attachTokenCookies. case_match; by split_and!.
Qed.
End Proxied.

(** ** A session that expires and is rotated *)

Module Demo.
Definition env (_ : string) : option string := None.

Definition request : NextRequest :=
  {| req_cookies := {[ cookie_jwt := "old"; cookie_refreshToken := "r1";
                       cookie_sessionId := "s1"; cookie_role := "operator" ]};
     req_headers := ∅; req_protocol := "https:"; req_host := "ui.example";
     req_query := []; req_body := None |}.

Definition reply (st : Z) (o : obj) : FetchResponse :=
  {| status := st; resp_headers := {[ "content-type" := "application/json" ]};
     resp_body := Some (json_text o) |}.

(** A control plane that rejects the first token and rotates it. *)
Definition rotating (n : nat) (_ : FetchRequest) : nat * option FetchResponse :=
  (S n, Some match n with
             | O => reply 401 [("message", JStr "token expired")]
             | 1%nat => reply 200 [("jwt", JStr "new"); ("refresh_token", JStr "r2")]
             | _ => reply 200 [("devices", JArr [])]
             end).

Definition get_options : ProxyRequestOptions :=
  {| opt_method := Some "GET"; opt_body := None; opt_headers := [] |}.
Definition handler : io NextResponse := proxyAuthedRequest env request "/devices" get_options.

(** The rotation of the demonstration reaches the browser. *)
Lemma proxy_rotation_stored_witness :
  exists resp, outcome (up := rotating) 0%nat handler = Ok resp /\
    (resp = unauthenticated_proxy \/
     exists s2 o j t role secure,
       refresh_grants o j t /\
       rotating (rotating 0%nat (proxied_request env "/devices" get_options "old")).1
         (refresh_request env "r1") = (s2, o) /\
       trace (up := rotating) 0%nat handler =
         [proxied_request env "/devices" get_options "old"; refresh_request env "r1";
          proxied_request env "/devices" get_options j] /\
       ops_view resp = (Some (session_cookie secure j), Some (session_cookie secure t),
                        Some (session_cookie secure "s1"), role_cookie secure <$> role)).
Proof.
  eexists. split; [vm_compute; reflexivity|].
  apply (proxy_rotation_stored env (up := rotating) request "/devices" get_options 0%nat);
    vm_compute; reflexivity.
Defined.

Lemma proxy_answer_body_witness :
  exists resp, outcome (up := rotating) 0%nat handler = Ok resp /\
    (resp = unauthenticated_proxy \/
     exists tr x body,
       conversation env (up := rotating) (proxied_request env "/devices" get_options)
         "old" "r1" "s1" 0%nat tr (Ok x) /\
       let payload := readUpstreamPayload (upstreamResponse x) in
       res_status resp = (if truthy payload then status (upstreamResponse x) else 502) /\
       res_body resp = JsonBody body /\ is_nullish body = false /\
       (forall m, extractPayloadMessage payload = Some m -> prop body "message" = JStr m) /\
       (forall o k, payload = JObj o -> k <> "message" -> prop body k = get o k)).
Proof.
  eexists. split; [vm_compute; reflexivity|].
  apply (proxy_answer_body env (up := rotating) request "/devices" get_options 0%nat).
  vm_compute. reflexivity.
Defined.
End Demo.
