(* ===== verification/OAuth.v ===== *)
(** * Signing in with Google

    Models src/app/api/auth/google/start/route.ts and
    src/app/api/auth/google/callback/route.ts: the first stores a state in a
    cookie and sends the browser to Google with it, the second checks the
    state that comes back, exchanges the code at the control plane and sets
    the session cookies.

    Parameters: [uuid] is the value of [crypto.randomUUID()], [url_origin]
    is [new URL(v).origin] and [resolve] is [new URL(ref, base).href], both
    [None] when the constructor throws. *)

From stdpp Require Import gmap.
From S2P Require Import Prelude JsNumber JsString JsValue JsonText Base64 Auth Http Session Proxy SessionLaws.
Import Middleware.

Local Open Scope Z_scope.

(** ** The state *)

Definition state_cookie : string := "quoodle_google_oauth_state".

Definition encode_state (nonce next : string) : string :=
  base64Url (json_text [("nonce", JStr nonce); ("next", JStr next)]).

(** The parsed state, null when it does not decode. *)
Definition decodeState (state : string) : jsval :=
  default JNull (t ← base64url_decode state; json_parse t).

(** The reader gets back what the writer put into the state. *)
Lemma decode_encoded nonce next :
  decodeState (encode_state nonce next) = JObj [("nonce", JStr nonce); ("next", JStr next)].
Proof.
  unfold decodeState, encode_state. rewrite base64url_roundtrip. cbn [mbind option_bind].
  by rewrite json_text_read.
Qed.

(** ** The routes *)

Section Env.
Context (env : string -> option string).
Context (uuid : string) (url_origin : string -> option string).
Context (resolve : string -> string -> option string).

Definition publicOrigin (request : NextRequest) : string :=
  let host := (req_headers request !! "x-forwarded-host") ?? (req_headers request !! "host")
                ?? req_host request in
  let proto := (req_headers request !! "x-forwarded-proto")
                 ?? remove_first ":" (req_protocol request) in
  proto +:+ "://" +:+ host.

(** The first candidate that is a URL. *)
Fixpoint first_origin (candidates : list (option string)) : option string :=
  match candidates with
  | [] => None
  | candidate :: candidates =>
      let value := trim (candidate ?? "") in
      if negb (truthy_str value) then first_origin candidates
      else match url_origin value with
           | Some origin => Some origin
           | None => first_origin candidates
           end
  end.

Definition configuredUiOrigin : option string :=
  first_origin [env "GOOGLE_OAUTH_REDIRECT_BASE_URL"; env "CONTROL_PLANE_UI_URL";
                env "NEXT_PUBLIC_CONTROL_PLANE_UI_URL"].

Definition googleRedirectUri (request : NextRequest) : string :=
  let explicit := trim (env "GOOGLE_OAUTH_REDIRECT_URI" ?? "") in
  if truthy_str explicit then explicit
  else
    let origin := configuredUiOrigin ?? publicOrigin request in
    strip_end (Ascii.eqb "/") origin +:+ "/api/auth/google/callback".

Definition shouldUseSecureCookie (request : NextRequest) : bool :=
  let override := toLowerCase (trim (env "AUTH_COOKIE_SECURE" ?? "")) in
  if is_on override then true
  else if is_off override then false
  else request_scheme request === "https".

(** [new URL(ref, base)] *)
Definition new_url (ref base : string) : io string :=
  match resolve ref base with Some u => Ret u | None => Throw "Invalid URL" end.

(** [url.searchParams.set('error', message)] on a URL without a query. *)
Definition with_error (url message : string) : string :=
  url +:+ "?error=" +:+ form_encode message.

Definition google_url (params : list (string * string)) : string :=
  "https://accounts.google.com/o/oauth2/v2/auth?"
    +:+ join "&" (map (fun kv => form_encode kv.1 +:+ "=" +:+ form_encode kv.2) params).

Definition google_start_GET (request : NextRequest) : io NextResponse :=
  let clientId := env "GOOGLE_CLIENT_ID" ?? env "NEXT_PUBLIC_GOOGLE_CLIENT_ID" ?? "" in
  if negb (truthy_str clientId) then
    let* loginUrl := new_url LOGIN_PATH (publicOrigin request) in
    Ret (redirect_response (with_error loginUrl "google_not_configured"))
  else
    let redirectUri := googleRedirectUri request in
    let state := encode_state uuid (query_get request "next" ?? "") in
    Ret (set_cookie state_cookie
           (SetCookie state true lax (shouldUseSecureCookie request) "/" (Some (10 * 60)))
           (redirect_response (google_url
             [("client_id", clientId); ("redirect_uri", redirectUri); ("response_type", "code");
              ("scope", "openid email profile"); ("prompt", "select_account"); ("state", state)]))).

Definition exchange_request (request : NextRequest) (code : string) : FetchRequest :=
  post_json env "/auth/google/exchange"
    [("code", JStr code); ("redirect_uri", JStr (googleRedirectUri request));
     ("device_fingerprint", JStr (deriveDeviceFingerprint request))].

(** Where a successful sign-in goes. *)
Definition redirect_path (state : string) (role : UserRole) : string :=
  let nextFromState := as_string (prop (decodeState state) "next") ?? "" in
  if truthy_str nextFromState && startsWith nextFromState "/" then nextFromState
  else roleHomePath role.

Definition refuse (loginUrl message : string) : NextResponse :=
  delete_cookie state_cookie (redirect_response (with_error loginUrl message)).

Definition google_callback_GET (request : NextRequest) : io NextResponse :=
  let code := query_get request "code" ?? "" in
  let state := query_get request "state" ?? "" in
  let storedState := cookie_value request state_cookie in
  let* loginUrl := new_url LOGIN_PATH (publicOrigin request) in
  if negb (truthy_str code) || negb (truthy_str state) || negb (truthy_str storedState)
     || (state !== storedState) then Ret (refuse loginUrl "google_state_invalid")
  else
    let* exchangeResponse := fetch (exchange_request request code) in
    let exchangeJson := json_or_empty exchangeResponse in
    if negb (ok exchangeResponse) then
      let* message := lift (member_str exchangeJson "message" "google_exchange_failed") in
      Ret (refuse loginUrl message)
    else
      let* cookieValues := lift (authCookiesFromPayload exchangeJson) in
      match cookieValues with
      | None => Ret (refuse loginUrl "invalid_google_exchange_response")
      | Some c =>
          let* target := new_url (redirect_path state (cookieRole c)) (publicOrigin request) in
          Ret (delete_cookie state_cookie
                 (attachAuthCookies env (redirect_response target) c (Some request)))
      end.

(** ** What the sign-in guarantees *)

Lemma ops_view_state op r : ops_view (set_cookie state_cookie op r) = ops_view r.
Proof.
  unfold ops_view, state_cookie, cookie_jwt, cookie_refreshToken, cookie_sessionId, cookie_role. cbn.
  by rewrite !lookup_insert_ne.
Qed.

Lemma ops_view_redirect url : ops_view (redirect_response url) = (None, None, None, None).
Proof. unfold ops_view. cbn. by rewrite !lookup_empty. Qed.

Lemma effect_refuse request url msg : SessionEffect request (refuse url msg).
Proof. apply effect_keep. unfold refuse, delete_cookie. by rewrite ops_view_state, ops_view_redirect. Qed.

Lemma results_new_url {B} (R : B -> Prop) ref base (f : string -> io B) :
  (forall u, resolve ref base = Some u -> all_results R (f u)) -> all_results R (bind (new_url ref base) f).
Proof. unfold new_url. destruct (resolve ref base); cbn; auto. Qed.

#[export] Instance google_callback_route : SessionRoute google_callback_GET.
Proof.
  intros request. unfold google_callback_GET. apply results_new_url. intros loginUrl _.
  case_match; [apply effect_refuse|]. apply all_results_any. intros r.
  case_match; [apply all_results_lift; intros; apply effect_refuse|].
  apply all_results_lift. intros [c|] Hc; [|apply effect_refuse].
  apply results_new_url. intros target _. apply authCookies_nonempty in Hc as (? & ? & ?).
  eapply (effect_tokens _ _ _ (jwt c) (refreshToken c) (sessionId c) (Some (cookieRole c)));
    [done..|left; by eexists|].
  unfold delete_cookie. rewrite ops_view_state. apply ops_view_auth.
Qed.

#[export] Instance google_start_route : SessionRoute google_start_GET.
Proof.
  intros request. unfold google_start_GET. case_match.
  - apply results_new_url. intros. apply effect_keep, ops_view_redirect.
  - apply effect_keep. by rewrite ops_view_state, ops_view_redirect.
Qed.

(** The callback's check of code, state and cookie. *)
Definition state_ok (request : NextRequest) (code st : string) : Prop :=
  query_get request "code" = Some code /\ code <> "" /\
  query_get request "state" = Some st /\ st <> "" /\ req_cookies request !! state_cookie = Some st.

Definition state_refused (request : NextRequest) : bool :=
  negb (truthy_str (query_get request "code" ?? "")) || negb (truthy_str (query_get request "state" ?? ""))
  || negb (truthy_str (cookie_value request state_cookie))
  || ((query_get request "state" ?? "") !== cookie_value request state_cookie).

Lemma state_ok_iff request : state_refused request = false <-> exists code st, state_ok request code st.
Proof.
  unfold state_refused, cookie_value, state_ok. rewrite !orb_false_iff, !negb_false_iff, !truthy_str_spec, String.eqb_eq.
  split.
  - intros [[[Hc Hs] Hk] Heq]. destruct (query_get request "code") as [code|]; [|done].
    destruct (query_get request "state") as [st|]; [|done].
    destruct (req_cookies request !! state_cookie) as [st'|]; [|done]. cbn in *. subst. eauto 10.
  - intros (code & st & -> & Hc & -> & Hs & ->). done.
Qed.

Context {S : Type} {up : Upstream S}.

Lemma callback_state_cookie request :
  all_results (fun r => res_cookies r !! state_cookie = Some DeleteCookie) (google_callback_GET request).
Proof.
  unfold google_callback_GET. apply results_new_url. intros loginUrl _.
  assert (forall r, res_cookies (delete_cookie state_cookie r) !! state_cookie = Some DeleteCookie) as Hd
    by (intros; apply lookup_insert_eq).
  case_match; [apply Hd|]. apply all_results_any. intros r.
  case_match; [apply all_results_lift; intros; apply Hd|].
  apply all_results_lift. intros [c|] _; [|apply Hd]. apply results_new_url. intros. apply Hd.
Qed.

(** [C17] The callback honours only the state it handed out.  When a code came
    together with a non-empty state equal to the one in the cookie, and then
    only, it contacts the control plane, once, to exchange that code;
    otherwise it answers with a redirect to the sign-in page that sets no
    session cookie.  Every response it gives deletes the stored state.  When
    the exchange is not answered it gives none: it throws, and the state
    stays. *)
Theorem callback_checks_state request loginUrl s :
  resolve LOGIN_PATH (publicOrigin request) = Some loginUrl ->
  let m := google_callback_GET request in
  (forall code st, state_ok request code st ->
     trace s m = [exchange_request request code]
     /\ ((answer s (exchange_request request code)).2 = None -> outcome s m = Exn "fetch failed"))
  /\ ((~ exists code st, state_ok request code st) ->
     trace s m = [] /\ outcome s m = Ok (refuse loginUrl "google_state_invalid")
     /\ ops_view (refuse loginUrl "google_state_invalid") = (None, None, None, None))
  /\ (forall resp, outcome s m = Ok resp -> res_cookies resp !! state_cookie = Some DeleteCookie).
Proof.
  intros Hurl. cbn zeta. split_and!.
  - intros code st Hok. pose proof (proj2 (state_ok_iff request) (ex_intro _ code (ex_intro _ st Hok))) as E.
    destruct Hok as (Hc & _ & Hs & _). unfold google_callback_GET, new_url. rewrite Hurl. cbn [bind].
    fold (state_refused request). rewrite E, Hc, Hs. cbn [nullish]. split.
    + apply trace_fetch_once. intros r.
      case_match; [by apply silent_lift|].
      apply silent_lift. intros [c|]; [|done]. by destruct (resolve (redirect_path st (cookieRole c)) _).
    + intros Hlost. unfold outcome. cbn [bind fetch run]. change (Some code ?? "") with code.
      destruct (answer s (exchange_request request code)) as [s1 o]. cbn in Hlost. by subst o.
  - intros Hno. assert (state_refused request = true) as E.
    { destruct (state_refused request) eqn:E; [done|]. by apply state_ok_iff in E. }
    unfold google_callback_GET, new_url. rewrite Hurl. cbn [bind]. fold (state_refused request). rewrite E.
    by split_and!.
  - intros resp Hresp. by eapply (all_results_outcome _ _ _ _ (callback_state_cookie request)).
Qed.
End Env.

(** A completed sign-in leads where it started: the state of the start
    route decodes to its nonce and page, whatever characters they hold, and
    with it the callback goes to the requested page when that starts with a
    slash, and to the home page of the role otherwise. *)
Theorem sign_in_returns nonce next role :
  decodeState (encode_state nonce next) = JObj [("nonce", JStr nonce); ("next", JStr next)] /\
  redirect_path (encode_state nonce next) role =
    (if startsWith next "/" then next else roleHomePath role).
Proof.
  unfold redirect_path. rewrite decode_encoded. split; [done|].
  cbn -[startsWith]. unfold truthy_str. destruct next as [|c next]; [done|]. done.
Qed.

(** A page of another site, written relative to the scheme, passes the test
    for a slash: the callback sends the browser there with its new session. *)
Lemma sign_in_leaves_site nonce role :
  redirect_path (encode_state nonce "//evil.example/") role = "//evil.example/".
Proof. unfold redirect_path. by rewrite decode_encoded. Qed.

(** ** Examples *)

Module OAuthDemo.

Definition no_env (_ : string) : option string := None.
Definition join_url (ref base : string) : option string := Some (base +:+ ref).
Definition down : Upstream unit := fun s _ => (s, None).

Definition returning (st : string) : NextRequest :=
  {| req_cookies := {[ state_cookie := "st" ]}; req_headers := ∅; req_protocol := "https:"; req_host := "quoodle.example";
     req_query := [("code", "c"); ("state", st)]; req_body := None |}.

(** A state that is not the stored one is refused. *)
Lemma callback_checks_state_witness :
  trace (up := down) tt (google_callback_GET no_env no_env join_url (returning "forged")) = []
  /\ outcome (up := down) tt (google_callback_GET no_env no_env join_url (returning "forged"))
     = Ok (refuse "https://quoodle.example/sign-up-login-screen" "google_state_invalid").
Proof.
  destruct (callback_checks_state no_env no_env join_url (S := unit) (up := down) (returning "forged")
    "https://quoodle.example/sign-up-login-screen" tt eq_refl) as (_ & H & _).
  destruct H as (Ht & Ho & _); [|split; [exact Ht|exact Ho]].
  intros (code & st & _ & _ & Hs & _ & Hc). injection Hs as <-. revert Hc. vm_compute. discriminate.
Defined.

(** Nothing catches a lost exchange: the handler throws, and the state stays
    in its cookie and is accepted again. *)
Lemma lost_exchange_keeps_state :
  outcome (up := down) tt (google_callback_GET no_env no_env join_url (returning "st")) = Exn "fetch failed".
Proof. vm_compute. reflexivity. Qed.

End OAuthDemo.
