(* ===== verification/Routes.v ===== *)
(** * The data routes

    The handlers under src/app/api other than auth: each builds an upstream
    path and hands the browser's request to the proxy.  The identifier of a
    dynamic segment ([\[deviceId\]] and the like) is an argument of the
    handler. *)

From stdpp Require Import gmap.
From S2P Require Import Prelude JsNumber JsString JsValue Auth Http Session Proxy SessionLaws ProxyLaws.

Local Open Scope Z_scope.

Section Env.
Context (env : string -> option string).

(** ** Shapes shared by the handlers *)

Definition enc := encodeURIComponent.

(** [query ? `${path}?${query}` : path] *)
Definition with_query (path : string) (request : NextRequest) : string :=
  if truthy_str (query_string request) then path +:+ "?" +:+ query_string request else path.

Definition get_query (path : string) (request : NextRequest) : io NextResponse :=
  proxyAuthedGet env request (with_query path request).

Definition content_type (request : NextRequest) : string :=
  (req_headers request !! "content-type") ?? "application/json".

(** Forward the body of the request under its own content type. *)
Definition forward_body (method path : string) (request : NextRequest) : io NextResponse :=
  let contentType := content_type request in
  let* body := request_text request in
  proxyAuthedRequest env request path
    {| opt_method := Some method; opt_body := Some body;
       opt_headers := [("Content-Type", contentType)] |}.

Definition bare (method path : string) (request : NextRequest) : io NextResponse :=
  proxyAuthedRequest env request path
    {| opt_method := Some method; opt_body := None; opt_headers := [] |}.

(** POST with the body [{}]. *)
Definition post_empty (path : string) (request : NextRequest) : io NextResponse :=
  proxyAuthedRequest env request path
    {| opt_method := Some "POST"; opt_body := Some "{}"; opt_headers := [json_content] |}.

(** ** Copilot, alerts, artifacts, audit *)

Definition control_ui : string * string := ("X-Quoodle-Client-Channel", "control_ui").

Definition copilot_ask_POST (request : NextRequest) : io NextResponse :=
  let contentType := content_type request in
  let* body := request_text request in
  proxyAuthedRequest env request "/ai/copilot/ask"
    {| opt_method := Some "POST"; opt_body := Some body;
       opt_headers := [("Content-Type", contentType); control_ui] |}.
Definition copilot_conversation_GET (conversationId : string) (request : NextRequest) :=
  proxyAuthedGet env request ("/ai/copilot/conversations/" +:+ enc conversationId).
Definition alert_ack_POST (alertId : string) := bare "POST" ("/alerts/" +:+ enc alertId +:+ "/ack").
Definition alerts_GET := get_query "/alerts".
Definition artifact_GET (artifactId : string) (request : NextRequest) :=
  proxyAuthedBinaryGet env request ("/artifact/" +:+ enc artifactId).
Definition audit_device_GET (deviceId : string) := get_query ("/audit/device/" +:+ enc deviceId).
Definition audit_export_GET (request : NextRequest) :=
  proxyAuthedBinaryGet env request (with_query "/audit/events/export" request).
Definition audit_events_GET := get_query "/audit/events".

(** ** Commands *)

Definition command_GET (commandId : string) (request : NextRequest) :=
  proxyAuthedGet env request ("/commands/" +:+ enc commandId).
Definition capabilities_GET := get_query "/commands/capabilities".
Definition commands_GET := get_query "/commands".

(** [Math.min(Math.max(Math.trunc(raw), 1), hi)], or the default when the
    number is not finite. *)
Definition bounded_param (hi dflt : Z) (raw : num) : jsval :=
  JNum (if Num.is_finite raw
        then Num.min (Num.max (Num.trunc raw) (Num.of_Z 1)) (Num.of_Z hi)
        else Num.of_Z dflt).

Definition default_path : string := "C:\Users".

Definition list_files_params (params : obj) : res obj :=
  let! limitRaw := to_number (get params "limit") in
  let params := put params "limit" (bounded_param 1000 200 limitRaw) in
  let! depthRaw := to_number (get params "max_depth") in
  let params := put params "max_depth" (bounded_param 8 1 depthRaw) in
  let params := put params "recursive" (JBool (is_true (get params "recursive"))) in
  Ok (match get params "path" with
      | JStr p => if trim p === "" then put params "path" (JStr default_path) else params
      | _ => put params "path" (JStr default_path)
      end).

(** The body sent upstream for a JSON body: a [list_files] command gets its
    parameters bounded; anything else, and anything that throws, is sent as
    it came. *)
Definition rewrite_list_files (rawBody : string) : string :=
  match json_parse rawBody with
  | Some (JObj parsed) =>
      let body :=
        let! method := str_or (get parsed "method") "" in
        if toLowerCase (trim method) === "list_files" then
          let params := match get parsed "params" with JObj o => o | _ => [] end in
          let! params := list_files_params params in
          Ok (json_text (put parsed "params" (JObj params)))
        else Ok rawBody in
      match body with Ok b => b | Exn _ => rawBody end
  | _ => rawBody
  end.

Definition commands_POST (request : NextRequest) : io NextResponse :=
  let contentType := content_type request in
  let* rawBody := request_text request in
  let body := if is_json_type contentType then rewrite_list_files rawBody else rawBody in
  proxyAuthedRequest env request "/commands"
    {| opt_method := Some "POST"; opt_body := Some body;
       opt_headers := [("Content-Type", contentType); control_ui] |}.

(** ** Compliance and devices *)

Definition compliance_audit_GET := get_query "/compliance/audit".
Definition compliance_export_GET (request : NextRequest) :=
  proxyAuthedBinaryGet env request (with_query "/compliance/export" request).
Definition compliance_overview_GET := get_query "/compliance/overview".

(** [await response.json().catch(() => ({}))] on a response of the proxy. *)
Definition response_json (r : NextResponse) : jsval :=
  match res_body r with
  | JsonBody v => default (JObj []) (t ← stringify "" "" v; json_parse t)
  | _ => JObj []
  end.

(** [alert.device_id === deviceId] *)
Definition alert_of_device (deviceId : string) (alert : jsval) : res bool :=
  let! d := member alert "device_id" in
  Ok (match d with JStr s => s === deviceId | _ => false end).

Fixpoint res_filter {A} (f : A -> res bool) (l : list A) : res (list A) :=
  match l with
  | [] => Ok []
  | x :: l => let! keep := f x in let! l := res_filter f l in Ok (if keep then x :: l else l)
  end.

Definition device_alerts_path (request : NextRequest) : string :=
  let limit := Num.min (Num.max (number_of_string (query_get request "limit" ?? "100"))
                                (Num.of_Z 1)) (Num.of_Z 200) in
  let base := "/alerts?limit=" +:+ Num.to_string limit in
  match query_get request "severity" with
  | Some severity => if truthy_str severity then base +:+ "&severity=" +:+ enc severity else base
  | None => base
  end.

Definition device_alerts_GET (deviceId : string) (request : NextRequest) : io NextResponse :=
  let* upstreamResponse := proxyAuthedGet env request (device_alerts_path request) in
  if negb (response_ok upstreamResponse) then Ret upstreamResponse
  else
    let* all := lift (member (response_json upstreamResponse) "alerts") in
    match vnullish all (JArr []) with
    | JArr l =>
        let* alerts := lift (res_filter (alert_of_device deviceId) l) in
        Ret (json_response [("alerts", JArr alerts)] 200)
    | _ => Throw "filter is not a function"
    end.

Definition device_audit_GET (deviceId : string) := get_query ("/audit/device/" +:+ enc deviceId).
Definition device_commands_GET (deviceId : string) :=
  get_query ("/devices/" +:+ enc deviceId +:+ "/commands").
Definition device_GET (deviceId : string) (request : NextRequest) :=
  proxyAuthedGet env request ("/devices/" +:+ enc deviceId).
Definition device_telemetry_latest_GET (deviceId : string) (request : NextRequest) :=
  proxyAuthedGet env request ("/devices/" +:+ enc deviceId +:+ "/telemetry/latest").
Definition device_telemetry_GET (deviceId : string) (request : NextRequest) :=
  proxyAuthedGet env request ("/devices/" +:+ enc deviceId +:+ "/telemetry/latest").
Definition devices_GET := get_query "/devices".
Definition mobile_devices_GET := get_query "/mobile-devices".

(** ** Notifications, pairing, policy, schedules *)

Definition notification_read_POST (notificationId : string) :=
  bare "POST" ("/notifications/" +:+ enc notificationId +:+ "/read").
Definition notification_DELETE (notificationId : string) :=
  bare "DELETE" ("/notifications/" +:+ enc notificationId).
Definition notifications_GET := get_query "/notifications".
Definition notifications_POST (request : NextRequest) : io NextResponse :=
  let* bodyText := request_text request in
  proxyAuthedRequest env request "/notifications/read-all"
    {| opt_method := Some "POST"; opt_body := Some bodyText; opt_headers := [json_content] |}.

Definition pair_confirm_POST := forward_body "POST" "/pair/confirm".
Definition pair_init_POST := forward_body "POST" "/pair/init".
Definition pair_session_GET (pairSessionId : string) (request : NextRequest) :=
  proxyAuthedGet env request ("/pair/session/" +:+ enc pairSessionId).

Definition app_lock_path (request : NextRequest) : string :=
  match query_get request "device_id" with
  | Some d => if truthy_str (trim d) then "/policy/app-lock?device_id=" +:+ enc (trim d)
              else "/policy/app-lock"
  | None => "/policy/app-lock"
  end.
Definition app_lock_GET (request : NextRequest) :=
  proxyAuthedGet env request (app_lock_path request).
Definition app_lock_PUT (request : NextRequest) := forward_body "PUT" (app_lock_path request) request.
Definition app_lock_DELETE (request : NextRequest) := bare "DELETE" (app_lock_path request) request.

Definition schedule_path (scheduleId : string) : string := "/schedules/" +:+ enc scheduleId.
Definition schedule_PATCH (scheduleId : string) := forward_body "PATCH" (schedule_path scheduleId).
Definition schedule_DELETE (scheduleId : string) := bare "DELETE" (schedule_path scheduleId).
Definition schedule_run_now_POST (scheduleId : string) :=
  post_empty (schedule_path scheduleId +:+ "/run-now").
Definition schedules_GET := get_query "/schedules".
Definition schedules_POST := forward_body "POST" "/schedules".
Definition schedule_runs_GET := get_query "/schedules/runs".

(** ** Settings *)

Definition alert_rule_PATCH (id : string) := forward_body "PATCH" ("/settings/alert-rules/" +:+ enc id).
Definition alert_rule_DELETE (id : string) := bare "DELETE" ("/settings/alert-rules/" +:+ enc id).
Definition alert_rules_GET (request : NextRequest) := proxyAuthedGet env request "/settings/alert-rules".
Definition alert_rules_POST := forward_body "POST" "/settings/alert-rules".
Definition threshold_PATCH (id : string) :=
  forward_body "PATCH" ("/settings/compliance-thresholds/" +:+ enc id).
Definition threshold_DELETE (id : string) :=
  bare "DELETE" ("/settings/compliance-thresholds/" +:+ enc id).
Definition thresholds_GET (request : NextRequest) :=
  proxyAuthedGet env request "/settings/compliance-thresholds".
Definition thresholds_POST := forward_body "POST" "/settings/compliance-thresholds".
Definition policy_entry_PATCH (id : string) :=
  forward_body "PATCH" ("/settings/policy-entries/" +:+ enc id).
Definition policy_entries_GET := get_query "/settings/policy-entries".
Definition role_permissions_path (role : string) : string :=
  "/settings/roles/" +:+ enc role +:+ "/permissions".
Definition role_permissions_GET (role : string) (request : NextRequest) :=
  proxyAuthedGet env request (role_permissions_path role).
Definition role_permissions_PATCH (role : string) := forward_body "PATCH" (role_permissions_path role).
Definition permissions_GET (request : NextRequest) :=
  proxyAuthedGet env request "/settings/roles/permissions".
Definition member_path (id : string) : string := "/settings/team-members/" +:+ enc id.
Definition member_activate_POST (id : string) := post_empty (member_path id +:+ "/activate").
Definition member_deactivate_POST (id : string) := post_empty (member_path id +:+ "/deactivate").
Definition member_device_DELETE (id deviceId : string) :=
  bare "DELETE" (member_path id +:+ "/device-access/" +:+ enc deviceId).
Definition member_devices_GET (id : string) (request : NextRequest) :=
  proxyAuthedGet env request (member_path id +:+ "/device-access").
Definition member_devices_POST (id : string) := forward_body "POST" (member_path id +:+ "/device-access").
Definition member_PATCH (id : string) := forward_body "PATCH" (member_path id).
Definition members_GET (request : NextRequest) := proxyAuthedGet env request "/settings/team-members".
Definition members_POST := forward_body "POST" "/settings/team-members".

(** ** System health, telemetry, webhooks *)

Definition health_components_GET (request : NextRequest) :=
  proxyAuthedGet env request "/system-health/components".
Definition health_events_GET := get_query "/system-health/events".
Definition health_overview_GET (request : NextRequest) :=
  proxyAuthedGet env request "/system-health/overview".
Definition health_timeseries_GET := get_query "/system-health/timeseries".
Definition telemetry_activity_GET := get_query "/telemetry/activity".
Definition telemetry_history_GET (deviceId : string) :=
  get_query ("/telemetry/devices/" +:+ enc deviceId +:+ "/history").
Definition telemetry_latest_GET (deviceId : string) (request : NextRequest) :=
  proxyAuthedGet env request ("/telemetry/devices/" +:+ enc deviceId +:+ "/latest").
Definition fleet_summary_GET (request : NextRequest) :=
  proxyAuthedGet env request "/telemetry/fleet/summary".
Definition fleet_timeseries_GET := get_query "/telemetry/fleet/timeseries".

Definition endpoint_path (endpointId : string) : string :=
  "/integrations/webhooks/endpoints/" +:+ enc endpointId.
Definition delivery_replay_POST (deliveryId : string) :=
  post_empty ("/integrations/webhooks/deliveries/" +:+ enc deliveryId +:+ "/replay").
Definition deliveries_GET := get_query "/integrations/webhooks/deliveries".
Definition endpoint_pause_POST (endpointId : string) := post_empty (endpoint_path endpointId +:+ "/pause").
Definition endpoint_resume_POST (endpointId : string) := post_empty (endpoint_path endpointId +:+ "/resume").
Definition endpoint_reveal_GET (endpointId : string) (request : NextRequest) :=
  proxyAuthedGet env request (endpoint_path endpointId +:+ "/reveal-secret").
Definition endpoint_rotate_POST (endpointId : string) :=
  post_empty (endpoint_path endpointId +:+ "/rotate-secret").
Definition endpoint_GET (endpointId : string) (request : NextRequest) :=
  proxyAuthedGet env request (endpoint_path endpointId).
Definition endpoint_PATCH (endpointId : string) := forward_body "PATCH" (endpoint_path endpointId).
Definition endpoint_DELETE (endpointId : string) := bare "DELETE" (endpoint_path endpointId).
Definition endpoint_test_POST (endpointId : string) := forward_body "POST" (endpoint_path endpointId +:+ "/test").
Definition endpoints_GET := get_query "/integrations/webhooks/endpoints".
Definition endpoints_POST := forward_body "POST" "/integrations/webhooks/endpoints".
Definition inbound_GET := get_query "/integrations/webhooks/inbound".

(** ** The route table *)

(** A segment of an upstream path: fixed, or an identifier of the request. *)
Inductive seg := Lit (s : string) | Par (id : string).
Definition seg_text (s : seg) : string := match s with Lit s => s | Par id => enc id end.

(** Which upstream method and path each handler stands for. *)
Inductive data_route : (NextRequest -> io NextResponse) -> string -> list seg -> Prop :=
| at_copilot_ask_POST : data_route copilot_ask_POST "POST" [Lit "ai"; Lit "copilot"; Lit "ask"]
| at_copilot_conversation_GET id : data_route (copilot_conversation_GET id)
    "GET" [Lit "ai"; Lit "copilot"; Lit "conversations"; Par id]
| at_alert_ack_POST id : data_route (alert_ack_POST id) "POST" [Lit "alerts"; Par id; Lit "ack"]
| at_alerts_GET : data_route alerts_GET "GET" [Lit "alerts"]
| at_artifact_GET id : data_route (artifact_GET id) "GET" [Lit "artifact"; Par id]
| at_audit_device_GET id : data_route (audit_device_GET id)
    "GET" [Lit "audit"; Lit "device"; Par id]
| at_audit_export_GET : data_route audit_export_GET "GET" [Lit "audit"; Lit "events"; Lit "export"]
| at_audit_events_GET : data_route audit_events_GET "GET" [Lit "audit"; Lit "events"]
| at_command_GET id : data_route (command_GET id) "GET" [Lit "commands"; Par id]
| at_capabilities_GET : data_route capabilities_GET "GET" [Lit "commands"; Lit "capabilities"]
| at_commands_GET : data_route commands_GET "GET" [Lit "commands"]
| at_commands_POST : data_route commands_POST "POST" [Lit "commands"]
| at_compliance_audit_GET : data_route compliance_audit_GET "GET" [Lit "compliance"; Lit "audit"]
| at_compliance_export_GET : data_route compliance_export_GET "GET" [Lit "compliance"; Lit "export"]
| at_compliance_overview_GET : data_route compliance_overview_GET
    "GET" [Lit "compliance"; Lit "overview"]
| at_device_alerts_GET id : data_route (device_alerts_GET id) "GET" [Lit "alerts"]
| at_device_audit_GET id : data_route (device_audit_GET id)
    "GET" [Lit "audit"; Lit "device"; Par id]
| at_device_commands_GET id : data_route (device_commands_GET id)
    "GET" [Lit "devices"; Par id; Lit "commands"]
| at_device_GET id : data_route (device_GET id) "GET" [Lit "devices"; Par id]
| at_device_telemetry_latest_GET id : data_route (device_telemetry_latest_GET id)
    "GET" [Lit "devices"; Par id; Lit "telemetry"; Lit "latest"]
| at_device_telemetry_GET id : data_route (device_telemetry_GET id)
    "GET" [Lit "devices"; Par id; Lit "telemetry"; Lit "latest"]
| at_devices_GET : data_route devices_GET "GET" [Lit "devices"]
| at_mobile_devices_GET : data_route mobile_devices_GET "GET" [Lit "mobile-devices"]
| at_notification_read_POST id : data_route (notification_read_POST id)
    "POST" [Lit "notifications"; Par id; Lit "read"]
| at_notification_DELETE id : data_route (notification_DELETE id)
    "DELETE" [Lit "notifications"; Par id]
| at_notifications_GET : data_route notifications_GET "GET" [Lit "notifications"]
| at_notifications_POST : data_route notifications_POST "POST" [Lit "notifications"; Lit "read-all"]
| at_pair_confirm_POST : data_route pair_confirm_POST "POST" [Lit "pair"; Lit "confirm"]
| at_pair_init_POST : data_route pair_init_POST "POST" [Lit "pair"; Lit "init"]
| at_pair_session_GET id : data_route (pair_session_GET id)
    "GET" [Lit "pair"; Lit "session"; Par id]
| at_app_lock_GET : data_route app_lock_GET "GET" [Lit "policy"; Lit "app-lock"]
| at_app_lock_PUT : data_route app_lock_PUT "PUT" [Lit "policy"; Lit "app-lock"]
| at_app_lock_DELETE : data_route app_lock_DELETE "DELETE" [Lit "policy"; Lit "app-lock"]
| at_schedule_PATCH id : data_route (schedule_PATCH id) "PATCH" [Lit "schedules"; Par id]
| at_schedule_DELETE id : data_route (schedule_DELETE id) "DELETE" [Lit "schedules"; Par id]
| at_schedule_run_now_POST id : data_route (schedule_run_now_POST id)
    "POST" [Lit "schedules"; Par id; Lit "run-now"]
| at_schedules_GET : data_route schedules_GET "GET" [Lit "schedules"]
| at_schedules_POST : data_route schedules_POST "POST" [Lit "schedules"]
| at_schedule_runs_GET : data_route schedule_runs_GET "GET" [Lit "schedules"; Lit "runs"]
| at_alert_rule_PATCH id : data_route (alert_rule_PATCH id)
    "PATCH" [Lit "settings"; Lit "alert-rules"; Par id]
| at_alert_rule_DELETE id : data_route (alert_rule_DELETE id)
    "DELETE" [Lit "settings"; Lit "alert-rules"; Par id]
| at_alert_rules_GET : data_route alert_rules_GET "GET" [Lit "settings"; Lit "alert-rules"]
| at_alert_rules_POST : data_route alert_rules_POST "POST" [Lit "settings"; Lit "alert-rules"]
| at_threshold_PATCH id : data_route (threshold_PATCH id)
    "PATCH" [Lit "settings"; Lit "compliance-thresholds"; Par id]
| at_threshold_DELETE id : data_route (threshold_DELETE id)
    "DELETE" [Lit "settings"; Lit "compliance-thresholds"; Par id]
| at_thresholds_GET : data_route thresholds_GET "GET" [Lit "settings"; Lit "compliance-thresholds"]
| at_thresholds_POST : data_route thresholds_POST
    "POST" [Lit "settings"; Lit "compliance-thresholds"]
| at_policy_entry_PATCH id : data_route (policy_entry_PATCH id)
    "PATCH" [Lit "settings"; Lit "policy-entries"; Par id]
| at_policy_entries_GET : data_route policy_entries_GET "GET" [Lit "settings"; Lit "policy-entries"]
| at_role_permissions_GET id : data_route (role_permissions_GET id)
    "GET" [Lit "settings"; Lit "roles"; Par id; Lit "permissions"]
| at_role_permissions_PATCH id : data_route (role_permissions_PATCH id)
    "PATCH" [Lit "settings"; Lit "roles"; Par id; Lit "permissions"]
| at_permissions_GET : data_route permissions_GET
    "GET" [Lit "settings"; Lit "roles"; Lit "permissions"]
| at_member_activate_POST id : data_route (member_activate_POST id)
    "POST" [Lit "settings"; Lit "team-members"; Par id; Lit "activate"]
| at_member_deactivate_POST id : data_route (member_deactivate_POST id)
    "POST" [Lit "settings"; Lit "team-members"; Par id; Lit "deactivate"]
| at_member_device_DELETE id id2 : data_route (member_device_DELETE id id2)
    "DELETE" [Lit "settings"; Lit "team-members"; Par id; Lit "device-access"; Par id2]
| at_member_devices_GET id : data_route (member_devices_GET id)
    "GET" [Lit "settings"; Lit "team-members"; Par id; Lit "device-access"]
| at_member_devices_POST id : data_route (member_devices_POST id)
    "POST" [Lit "settings"; Lit "team-members"; Par id; Lit "device-access"]
| at_member_PATCH id : data_route (member_PATCH id)
    "PATCH" [Lit "settings"; Lit "team-members"; Par id]
| at_members_GET : data_route members_GET "GET" [Lit "settings"; Lit "team-members"]
| at_members_POST : data_route members_POST "POST" [Lit "settings"; Lit "team-members"]
| at_health_components_GET : data_route health_components_GET
    "GET" [Lit "system-health"; Lit "components"]
| at_health_events_GET : data_route health_events_GET "GET" [Lit "system-health"; Lit "events"]
| at_health_overview_GET : data_route health_overview_GET
    "GET" [Lit "system-health"; Lit "overview"]
| at_health_timeseries_GET : data_route health_timeseries_GET
    "GET" [Lit "system-health"; Lit "timeseries"]
| at_telemetry_activity_GET : data_route telemetry_activity_GET
    "GET" [Lit "telemetry"; Lit "activity"]
| at_telemetry_history_GET id : data_route (telemetry_history_GET id)
    "GET" [Lit "telemetry"; Lit "devices"; Par id; Lit "history"]
| at_telemetry_latest_GET id : data_route (telemetry_latest_GET id)
    "GET" [Lit "telemetry"; Lit "devices"; Par id; Lit "latest"]
| at_fleet_summary_GET : data_route fleet_summary_GET
    "GET" [Lit "telemetry"; Lit "fleet"; Lit "summary"]
| at_fleet_timeseries_GET : data_route fleet_timeseries_GET
    "GET" [Lit "telemetry"; Lit "fleet"; Lit "timeseries"]
| at_delivery_replay_POST id : data_route (delivery_replay_POST id)
    "POST" [Lit "integrations"; Lit "webhooks"; Lit "deliveries"; Par id; Lit "replay"]
| at_deliveries_GET : data_route deliveries_GET
    "GET" [Lit "integrations"; Lit "webhooks"; Lit "deliveries"]
| at_endpoint_pause_POST id : data_route (endpoint_pause_POST id)
    "POST" [Lit "integrations"; Lit "webhooks"; Lit "endpoints"; Par id; Lit "pause"]
| at_endpoint_resume_POST id : data_route (endpoint_resume_POST id)
    "POST" [Lit "integrations"; Lit "webhooks"; Lit "endpoints"; Par id; Lit "resume"]
| at_endpoint_reveal_GET id : data_route (endpoint_reveal_GET id)
    "GET" [Lit "integrations"; Lit "webhooks"; Lit "endpoints"; Par id; Lit "reveal-secret"]
| at_endpoint_rotate_POST id : data_route (endpoint_rotate_POST id)
    "POST" [Lit "integrations"; Lit "webhooks"; Lit "endpoints"; Par id; Lit "rotate-secret"]
| at_endpoint_GET id : data_route (endpoint_GET id)
    "GET" [Lit "integrations"; Lit "webhooks"; Lit "endpoints"; Par id]
| at_endpoint_PATCH id : data_route (endpoint_PATCH id)
    "PATCH" [Lit "integrations"; Lit "webhooks"; Lit "endpoints"; Par id]
| at_endpoint_DELETE id : data_route (endpoint_DELETE id)
    "DELETE" [Lit "integrations"; Lit "webhooks"; Lit "endpoints"; Par id]
| at_endpoint_test_POST id : data_route (endpoint_test_POST id)
    "POST" [Lit "integrations"; Lit "webhooks"; Lit "endpoints"; Par id; Lit "test"]
| at_endpoints_GET : data_route endpoints_GET
    "GET" [Lit "integrations"; Lit "webhooks"; Lit "endpoints"]
| at_endpoints_POST : data_route endpoints_POST
    "POST" [Lit "integrations"; Lit "webhooks"; Lit "endpoints"]
| at_inbound_GET : data_route inbound_GET "GET" [Lit "integrations"; Lit "webhooks"; Lit "inbound"].

(** ** Where the requests go *)

Definition not_hash (c : ascii) : bool := negb (Ascii.eqb c "#").

(** Nothing, or a query without a fragment. *)
Definition is_query (q : string) : bool :=
  match q with "" => true | String c r => Ascii.eqb c "?" && sforall not_hash r end.

Definition base_url : string := strip_end (Ascii.eqb "/") (CONTROL_PLANE_API_URL env).

Definition path_text (segs : list seg) : string := join "/" (map seg_text segs).

(** A request of the route: the refresh of the browser's own token, or the
    route's method on the route's path with some query. *)
Definition on_route (m : string) (segs : list seg) (request : NextRequest) (r : FetchRequest) : Prop :=
  r = refresh_request env (cookie_value request cookie_refreshToken) \/
  f_method r = m /\
  exists q, is_query q = true /\ f_url r = base_url +:+ "/" +:+ path_text segs +:+ q.

Lemma form_encode_safe s : sforall not_hash (form_encode s) = true.
Proof.
  unfold form_encode. induction s as [|c s IH]; [done|]. cbn.
  rewrite sforall_app, IH, andb_true_r. clear. all_chars c.
Qed.

Lemma sforall_join f sep l :
  sforall f sep = true -> Forall (fun s => sforall f s = true) l -> sforall f (join sep l) = true.
Proof.
  intros Hs. induction 1 as [|x l Hx Hl IH]; [done|]. cbn.
  destruct l; [done|]. by rewrite !sforall_app, Hx, Hs, IH.
Qed.

Lemma query_string_safe request : sforall not_hash (query_string request) = true.
Proof.
  unfold query_string. apply sforall_join; [done|].
  apply List.Forall_map, List.Forall_forall. intros [k v] _.
  rewrite !sforall_app. cbn. by rewrite !form_encode_safe.
Qed.

Lemma enc_safe s : sforall not_hash (enc s) = true.
Proof.
  eapply sforall_mono; [|apply encodeURIComponent_safe]. clear. intros c. all_chars c.
Qed.

Lemma number_text_safe x : sforall not_hash (Num.to_string x) = true.
Proof.
  eapply sforall_mono; [|apply number_text_numeric]. clear. intros c. all_chars c.
Qed.

(** The two proxies stay on the path they are given. *)
Lemma exchange_requests (P : FetchRequest -> Prop) send jwt t sid :
  (forall j, P (send j)) -> P (refresh_request env t) ->
  all_requests P (exchange env send jwt t sid) /\ at_most 3 (exchange env send jwt t sid).
Proof.
  intros Hs Hr. split.
  - unfold exchange, refreshJwt. cbn. split; [done|]. intros [r|]; [|done]. cbn.
    case_match; [|done]. cbn. split; [done|]. intros [r'|]; [|done]. cbn.
    destruct (refreshed_tokens r') as [[[j t']|]|]; cbn; [|done..]. split; [done|]. by intros [|].
  - unfold exchange, refreshJwt. cbn. intros [r|]; [|done]. cbn. case_match; [|done]. cbn.
    intros [r'|]; [|done]. cbn. destruct (refreshed_tokens r') as [[[j t']|]|]; cbn; [|done..].
    by intros [|].
Qed.

Lemma binary_respond_silent x sid role : at_most 0 (binary_respond env x sid role).
Proof. unfold binary_respond. repeat case_match; done. Qed.

(** A handler that sends at most three requests, all of them on its route. *)
Definition stays (m : string) (segs : list seg) (request : NextRequest) (h : io NextResponse) : Prop :=
  all_requests (on_route m segs request) h /\ at_most 3 h.

Lemma path_url segs q :
  controlPlaneApiUrl env ("/" +:+ path_text segs +:+ q)
  = base_url +:+ "/" +:+ path_text segs +:+ q.
Proof. unfold controlPlaneApiUrl. by rewrite startsWith_app. Qed.

Lemma json_stays m segs request options q :
  opt_method options ?? "GET" = m -> is_query q = true ->
  stays m segs request (proxyAuthedRequest env request ("/" +:+ path_text segs +:+ q) options).
Proof.
  intros <- Hq. unfold stays, proxyAuthedRequest. case_match; [done|].
  destruct (exchange_requests (on_route (opt_method options ?? "GET") segs request)
    (proxied_request env ("/" +:+ path_text segs +:+ q) options)
    (cookie_value request cookie_jwt) (cookie_value request cookie_refreshToken)
    (cookie_value request cookie_sessionId)) as [Ha Hm]; [|by left|].
  { intros j. right. split; [done|]. exists q. split; [done|apply path_url]. }
  split.
  - apply all_requests_bind; [done|]. intros. apply silent_requests, proxy_respond_silent.
  - apply at_most_then_silent; [done|]. intros. apply proxy_respond_silent.
Qed.

Lemma binary_stays segs request q :
  is_query q = true ->
  stays "GET" segs request (proxyAuthedBinaryGet env request ("/" +:+ path_text segs +:+ q)).
Proof.
  intros Hq. unfold stays, proxyAuthedBinaryGet. case_match; [done|].
  destruct (exchange_requests (on_route "GET" segs request)
    (binary_request env ("/" +:+ path_text segs +:+ q))
    (cookie_value request cookie_jwt) (cookie_value request cookie_refreshToken)
    (cookie_value request cookie_sessionId)) as [Ha Hm]; [|by left|].
  { intros j. right. split; [done|]. exists q. split; [done|apply path_url]. }
  split.
  - apply all_requests_bind; [done|]. intros. apply silent_requests, binary_respond_silent.
  - apply at_most_then_silent; [done|]. intros. apply binary_respond_silent.
Qed.

Lemma plain_stays m segs request options path :
  path = "/" +:+ path_text segs -> opt_method options ?? "GET" = m ->
  stays m segs request (proxyAuthedRequest env request path options).
Proof.
  intros -> Hm. rewrite <- (append_nil_r (path_text segs)). by apply json_stays.
Qed.

Lemma with_query_path path request :
  exists q, is_query q = true /\ with_query path request = path +:+ q.
Proof.
  unfold with_query. case_match; [|exists ""; by rewrite append_nil_r].
  exists ("?" +:+ query_string request). split; [|done]. apply query_string_safe.
Qed.

Lemma get_query_stays segs request path :
  path = "/" +:+ path_text segs -> stays "GET" segs request (get_query path request).
Proof.
  intros ->. unfold get_query. destruct (with_query_path ("/" +:+ path_text segs) request) as (q & Hq & ->).
  rewrite append_assoc. by apply json_stays.
Qed.

Lemma binary_plain_stays segs request path :
  path = "/" +:+ path_text segs -> stays "GET" segs request (proxyAuthedBinaryGet env request path).
Proof. intros ->. rewrite <- (append_nil_r (path_text segs)). by apply binary_stays. Qed.

Lemma binary_query_stays segs request path :
  path = "/" +:+ path_text segs ->
  stays "GET" segs request (proxyAuthedBinaryGet env request (with_query path request)).
Proof.
  intros ->. destruct (with_query_path ("/" +:+ path_text segs) request) as (q & Hq & ->).
  rewrite append_assoc. by apply binary_stays.
Qed.

Lemma text_stays m segs request f :
  (forall t, stays m segs request (f t)) -> stays m segs request (bind (request_text request) f).
Proof. intros Hf. unfold request_text. by destruct (req_body request); [apply Hf|]. Qed.

Lemma app_lock_query request :
  exists q, is_query q = true /\
    app_lock_path request = "/" +:+ path_text [Lit "policy"; Lit "app-lock"] +:+ q.
Proof.
  unfold app_lock_path. destruct (query_get _ _) as [d|]; [case_match|]; [|by exists ""..].
  exists ("?device_id=" +:+ enc (trim d)). split; [apply enc_safe|done].
Qed.

Lemma app_lock_stays m request options :
  opt_method options ?? "GET" = m ->
  stays m [Lit "policy"; Lit "app-lock"] request
    (proxyAuthedRequest env request (app_lock_path request) options).
Proof. destruct (app_lock_query request) as (q & Hq & ->). intros. by apply json_stays. Qed.

Lemma device_alerts_stays id request : stays "GET" [Lit "alerts"] request (device_alerts_GET id request).
Proof.
  unfold device_alerts_GET.
  assert (stays "GET" [Lit "alerts"] request (proxyAuthedGet env request (device_alerts_path request))) as [Ha Hm].
  { unfold device_alerts_path. set (n := Num.min _ _).
    set (q := "?limit=" +:+ Num.to_string n). clearbody n.
    assert (is_query q = true) as Hq by apply number_text_safe.
    destruct (query_get _ "severity") as [sev|]; [case_match|]; [|by apply (json_stays _ [Lit "alerts"] _ _ q)..].
    apply (json_stays _ [Lit "alerts"] _ _ ("?limit=" +:+ Num.to_string n +:+ "&severity=" +:+ enc sev)); [done|].
    cbn. by rewrite sforall_app, number_text_safe; cbn; rewrite enc_safe. }
  assert (forall r, at_most 0 (if negb (response_ok r) then Ret r else
    let* all := lift (member (response_json r) "alerts") in
    match vnullish all (JArr []) with
    | JArr l => let* alerts := lift (res_filter (alert_of_device id) l) in
                Ret (json_response [("alerts", JArr alerts)] 200)
    | _ => Throw "filter is not a function"
    end)) as Hk.
  { intros r. case_match; [done|]. apply silent_lift. intros a.
    destruct (vnullish a (JArr [])); try done. by apply silent_lift. }
  split; [apply all_requests_bind; [done|]; intros; by apply silent_requests|by apply at_most_then_silent].
Qed.

(** Every handler of the table, by its shape. *)
Ltac stay :=
  first
    [ apply device_alerts_stays
    | apply app_lock_stays; reflexivity
    | apply get_query_stays; reflexivity
    | apply binary_query_stays; reflexivity
    | apply binary_plain_stays; reflexivity
    | apply plain_stays; reflexivity
    | apply text_stays; intros t; stay ].

Lemma data_route_stays h m segs request : data_route h m segs -> stays m segs request (h request).
Proof. destruct 1; stay. Qed.

Lemma data_route_segs h m segs :
  data_route h m segs -> segs <> [] /\ Forall (fun s => sforall uri_safe (seg_text s) = true) segs.
Proof.
  destruct 1; (split; [done|]);
    repeat (apply List.Forall_cons; [by first [apply encodeURIComponent_safe|done]|]);
    apply List.Forall_nil.
Qed.

Lemma split_join c l :
  l <> [] -> Forall (fun s => split c s = [s]) l -> split c (join (String c "") l) = l.
Proof.
  intros Hl H. induction H as [|x l Hx H IH]; [done|]. destruct l as [|y l]; [done|].
  change (join (String c "") (x :: y :: l)) with (x +:+ String c (join (String c "") (y :: l))).
  by rewrite split_app_sep, Hx, IH.
Qed.

(** An encoded path splits back into its segments: no identifier can add a
    segment, a query or a fragment. *)
Lemma path_segments segs :
  segs <> [] -> Forall (fun s => sforall uri_safe (seg_text s) = true) segs ->
  split "/" (path_text segs) = map seg_text segs /\
  sforall (fun c => uri_safe c || Ascii.eqb c "/") (path_text segs) = true.
Proof.
  intros Hne H. split.
  - apply split_join; [by destruct segs|]. apply List.Forall_map.
    eapply List.Forall_impl; [|exact H]. intros s Hs.
    by apply (sforall_split _ uri_safe).
  - apply sforall_join; [done|]. apply List.Forall_map.
    eapply List.Forall_impl; [|exact H]. intros s Hs.
    eapply sforall_mono; [|exact Hs]. by intros c ->.
Qed.

Lemma text_session request f :
  (forall t, all_results (SessionEffect request) (f t)) ->
  all_results (SessionEffect request) (bind (request_text request) f).
Proof. intros Hf. unfold request_text. by destruct (req_body request); [apply Hf|]. Qed.

Lemma json_session request path options :
  all_results (SessionEffect request) (proxyAuthedRequest env request path options).
Proof. apply (proxyAuthedRequest_route env path options request). Qed.

Lemma binary_session request path :
  all_results (SessionEffect request) (proxyAuthedBinaryGet env request path).
Proof. apply (proxyAuthedBinaryGet_route env path request). Qed.

Lemma device_alerts_session id request :
  all_results (SessionEffect request) (device_alerts_GET id request).
Proof.
  unfold device_alerts_GET. eapply all_results_bind; [apply json_session|]. intros r Hr.
  case_match; [exact Hr|]. results; try exact I; auto with js.
Qed.

Lemma data_route_session h m segs : data_route h m segs -> SessionRoute h.
Proof.
  intros H request. destruct H;
    first [ apply device_alerts_session | apply json_session | apply binary_session
          | apply text_session; intros; apply json_session ].
Qed.

End Env.

(** ** [list_files] commands *)

(** Parameters the file listing accepts: bounded numbers, a flag, a path. *)
Definition bounded_listing (params : obj) : Prop :=
  (exists n, get params "limit" = JNum n /\ Num.within (Num.of_Z 1) (Num.of_Z 1000) n = true) /\
  (exists n, get params "max_depth" = JNum n /\ Num.within (Num.of_Z 1) (Num.of_Z 8) n = true) /\
  (exists b, get params "recursive" = JBool b) /\
  (exists p, get params "path" = JStr p /\ trim p <> "").

Lemma bounded_param_within hi dflt raw :
  Num.le (Num.of_Z 1) (Num.of_Z hi) = true ->
  Num.within (Num.of_Z 1) (Num.of_Z hi) (Num.of_Z dflt) = true ->
  exists n, bounded_param hi dflt raw = JNum n /\ Num.within (Num.of_Z 1) (Num.of_Z hi) n = true.
Proof.
  intros Hle Hd. eexists. split; [done|]. destruct (Num.is_finite raw) eqn:E; [|done].
  apply Num.min_max_within; [done|]. by apply Num.trunc_not_nan, Num.finite_not_nan.
Qed.

Lemma list_files_params_ok params params' :
  list_files_params params = Ok params' ->
  bounded_listing params' /\
  forall k, k ∉ ["limit"; "max_depth"; "recursive"; "path"] -> get params' k = get params k.
Proof.
  unfold list_files_params. destruct (to_number _) as [lim|]; [|done]. cbn [res_bind].
  set (p1 := put params "limit" _). destruct (to_number _) as [dep|]; [|done]. cbn [res_bind].
  set (p2 := put p1 "max_depth" _). set (p3 := put p2 "recursive" _). intros H.
  assert (exists p, trim p <> "" /\ (params' = p3 /\ get p3 "path" = JStr p \/ params' = put p3 "path" (JStr p)))
    as (p & Hp & Hp').
  { destruct (get p3 "path") as [| | | |p| | |]; injection H as <-;
      try (exists default_path; split; [done|by right]).
    destruct (trim p === "") eqn:E; [exists default_path; split; [done|by right]|].
    exists p. split; [by apply String.eqb_neq|by left]. }
  assert (forall k, k <> "path" -> get params' k = get p3 k) as Hk
    by (intros k Hk; destruct Hp' as [[-> _]| ->]; [done|by rewrite get_put_ne]).
  split; [split_and!|].
  - rewrite Hk by done. unfold p3, p2, p1. rewrite !get_put_ne by done. rewrite get_put_eq.
    by apply bounded_param_within.
  - rewrite Hk by done. unfold p3, p2. rewrite get_put_ne by done. rewrite get_put_eq.
    by apply bounded_param_within.
  - rewrite Hk by done. unfold p3. rewrite get_put_eq. by eexists.
  - exists p. split; [|done]. destruct Hp' as [[-> ?]| ->]; [done|apply get_put_eq].
  - intros k Hn. rewrite !not_elem_of_cons in Hn. destruct Hn as (? & ? & ? & ? & _).
    rewrite Hk by done. unfold p3, p2, p1. by rewrite !get_put_ne.
Qed.

(** Whether a parsed body is a [list_files] command. *)
Definition is_list_files (parsed : obj) : Prop :=
  exists m, str_or (get parsed "method") "" = Ok m /\ toLowerCase (trim m) = "list_files".

(** The parameters of a parsed body. *)
Definition listing_params (parsed : obj) : obj :=
  match get parsed "params" with JObj o => o | _ => [] end.

(** The bounds are applied unless a number cannot be read at all. *)
Lemma list_files_params_total params :
  (exists params', list_files_params params = Ok params') \/
  exists k e, k ∈ ["limit"; "max_depth"] /\ to_number (get params k) = Exn e.
Proof.
  unfold list_files_params. destruct (to_number (get params "limit")) as [lim|e] eqn:E1; cbn [res_bind].
  2: { right. exists "limit", e. split; [set_solver|done]. }
  rewrite get_put_ne by done. destruct (to_number (get params "max_depth")) as [dep|e] eqn:E2; cbn [res_bind].
  2: { right. exists "max_depth", e. split; [set_solver|done]. }
  left. by eexists.
Qed.

(** The command gateway bounds file listings and touches nothing else.
    A [list_files] body is sent upstream as the same command with a limit in
    [1, 1000], a depth in [1, 8], a boolean [recursive] and a non-blank path,
    every other field and parameter unchanged; any other body is sent byte
    for byte, as is a listing whose limit or depth is an object that cannot
    be converted to a number. *)
Theorem list_files_bounded rawBody :
  (exists parsed params',
    json_parse rawBody = Some (JObj parsed) /\ is_list_files parsed /\
    rewrite_list_files rawBody = json_text (put parsed "params" (JObj params')) /\
    bounded_listing params' /\
    forall k, k ∉ ["limit"; "max_depth"; "recursive"; "path"] ->
      get params' k = get (listing_params parsed) k) \/
  (rewrite_list_files rawBody = rawBody /\
   forall parsed, json_parse rawBody = Some (JObj parsed) -> is_list_files parsed ->
     exists k e, k ∈ ["limit"; "max_depth"] /\ to_number (get (listing_params parsed) k) = Exn e).
Proof.
  unfold rewrite_list_files, is_list_files.
  destruct (json_parse rawBody) as [[| | | | | |parsed|]|]; try (by right).
  destruct (str_or _ _) as [m|] eqn:Em; cbn [res_bind].
  2: { right. split; [done|]. intros ? [= <-] (? & ? & _). congruence. }
  destruct (String.eqb_spec (toLowerCase (trim m)) "list_files") as [Hm|Hm].
  2: { right. split; [done|]. intros ? [= <-] (? & ? & ?). congruence. }
  fold (listing_params parsed).
  destruct (list_files_params_total (listing_params parsed)) as [[params' Hok]|Hbad].
  - left. exists parsed, params'. rewrite Hok. split; [done|]. split; [by exists m|]. split; [done|].
    by apply list_files_params_ok.
  - destruct (list_files_params (listing_params parsed)) as [params'|] eqn:E; cbn [res_bind].
    + left. exists parsed, params'. split; [done|]. split; [by exists m|]. split; [done|].
      by apply list_files_params_ok.
    + right. split; [done|]. by intros ? [= <-] _.
Qed.

(** ** A rotation that the alerts route loses *)

(** The alerts of one device are filtered into a new response, which does
    not carry the cookies of the one the proxy built: when the proxy has
    rotated the tokens, the new ones never reach the browser. *)
Lemma device_alerts_lose_rotation :
  let server (n : nat) (r : FetchRequest) :=
    if (n =? 2)%nat then (3%nat, Some (Demo.reply 200 [("alerts", JArr [])])) else Demo.rotating n r in
  exists resp,
    length (trace (up := server) 0%nat (device_alerts_GET Demo.env "d1" Demo.request)) = 3%nat /\
    outcome (up := server) 0%nat (device_alerts_GET Demo.env "d1" Demo.request) = Ok resp /\
    res_status resp = 200 /\ ops_view resp = (None, None, None, None).
Proof.
  cbn zeta. exists (json_response [("alerts", JArr [])] 200).
  split_and!; vm_compute; reflexivity.
Qed.
