(* ===== verification/Urls.v ===== *)
(** * Addresses of requests

    The browser sends a request to the text a page has put together, and
    Next.js reads path and query back from it.  This file has the reading:
    percent-decoding, [application/x-www-form-urlencoded] as
    [URLSearchParams] parses it, and the segments of a path, with what the
    URL parser makes of dot segments; that what the pages write with
    [encodeURIComponent] and [URLSearchParams] is what the handlers get; and
    that the routes stay on their endpoints. *)

From S2P Require Import Prelude JsNumber JsString JsValue Base64 Auth Http Session Proxy ProxyLaws Routes.

Local Open Scope N_scope.

(** ** Percent-decoding *)

Definition hex_value (c : ascii) : option N :=
  let n := N_of_ascii c in
  if is_digit c then Some (n - 48)
  else if (65 <=? n) && (n <=? 70) then Some (n - 55)
  else if (97 <=? n) && (n <=? 102) then Some (n - 87)
  else None.

(** The bytes of a text; a percent sign without two digits stands for itself. *)
Fixpoint percent_bytes (s : string) : list N :=
  match s with
  | "" => []
  | String c s' =>
      match s' with
      | String a (String b r) =>
          match Ascii.eqb c "%", hex_value a, hex_value b with
          | true, Some x, Some y => 16 * x + y :: percent_bytes r
          | _, _, _ => utf8_char c ++ percent_bytes s'
          end
      | _ => utf8_char c ++ percent_bytes s'
      end
  end.

Definition plus_space (c : ascii) : ascii := if Ascii.eqb c "+" then " "%char else c.

(** [None] when the bytes denote nothing in the range of the development. *)
Definition form_decode (s : string) : option string := utf8_decode (percent_bytes (smap plus_space s)).
Definition uri_decode (s : string) : option string := utf8_decode (percent_bytes s).

(** ** Queries *)

(** The text before and after the first [c]. *)
Fixpoint cut_at (c : ascii) (s : string) : string * option string :=
  match s with
  | "" => ("", None)
  | String a s => if Ascii.eqb a c then ("", Some s)
                  else let '(x, y) := cut_at c s in (String a x, y)
  end.

Definition read_pair (s : string) : option (string * string) :=
  let '(k, v) := cut_at "=" s in
  k ← form_decode k; v ← form_decode (v ?? ""); Some (k, v).

(** [new URLSearchParams(s)]: empty parts are skipped. *)
Definition read_query (s : string) : option (list (string * string)) :=
  mapM read_pair (List.filter truthy_str (split "&" s)).

(** Path and query of an address on the site, without the fragment. *)
Definition read_url (url : string) : option (string * list (string * string)) :=
  let '(path, q) := cut_at "?" (cut_at "#" url).1 in
  l ← read_query (q ?? ""); Some (path, l).

(** ** What is written is read back *)

(** Each unit is written so that it reads as its bytes, whatever follows. *)
Lemma form_char_bytes c s : percent_bytes (smap plus_space (form_char c) +:+ s) = utf8_char c ++ percent_bytes s.
Proof. destruct c as [[] [] [] [] [] [] [] []]; first [reflexivity|by destruct s as [|? [|? ?]]]. Qed.

Lemma uri_char_bytes c s : percent_bytes (encode_char c +:+ s) = utf8_char c ++ percent_bytes s.
Proof. destruct c as [[] [] [] [] [] [] [] []]; first [reflexivity|by destruct s as [|? [|? ?]]]. Qed.

Lemma uri_char_no_plus c : smap plus_space (encode_char c) = encode_char c.
Proof. all_chars c. Qed.

Lemma form_bytes s : percent_bytes (smap plus_space (form_encode s)) = utf8_encode s.
Proof.
  unfold form_encode. induction s as [|c s IH]; [done|]. cbn [sflat utf8_encode]. rewrite smap_app, form_char_bytes. by rewrite IH.
Qed.

Lemma uri_bytes s : percent_bytes (encodeURIComponent s) = utf8_encode s.
Proof. unfold encodeURIComponent. induction s as [|c s IH]; [done|]. cbn [sflat utf8_encode]. rewrite uri_char_bytes. by rewrite IH. Qed.

Lemma uri_no_plus s : smap plus_space (encodeURIComponent s) = encodeURIComponent s.
Proof. unfold encodeURIComponent. induction s as [|c s IH]; [done|]. cbn [sflat]. by rewrite smap_app, uri_char_no_plus, IH. Qed.

Lemma form_roundtrip s : form_decode (form_encode s) = Some s.
Proof. unfold form_decode. rewrite form_bytes. apply utf8_roundtrip. Qed.

Lemma uri_roundtrip s : uri_decode (encodeURIComponent s) = Some s.
Proof. unfold uri_decode. rewrite uri_bytes. apply utf8_roundtrip. Qed.

(** [t] is a way to write [s] in a query. *)
Definition no_mark (c : ascii) : bool := negb (existsb (Ascii.eqb c) ["&"; "="; "#"; "?"]%char).

Record coded (s t : string) : Prop := {
  coded_reads : form_decode t = Some s;
  coded_clean : sforall no_mark t = true;
}.

Lemma form_coded s : coded s (form_encode s).
Proof.
  split; [apply form_roundtrip|]. unfold form_encode. induction s as [|c s IH]; [done|].
  cbn [sflat]. rewrite sforall_app, IH, andb_true_r. all_chars c.
Qed.

Lemma uri_coded s : coded s (encodeURIComponent s).
Proof.
  split; [unfold form_decode; rewrite uri_no_plus; apply uri_roundtrip|]. unfold encodeURIComponent.
  induction s as [|c s IH]; [done|]. cbn [sflat]. rewrite sforall_app, IH, andb_true_r. all_chars c.
Qed.

Lemma cut_absent c s : sforall (fun a => negb (Ascii.eqb a c)) s = true -> cut_at c s = (s, None).
Proof.
  induction s as [|a s IH]; [done|]. cbn. intros [Ha Hs]%andb_true_iff.
  apply negb_true_iff in Ha. by rewrite Ha, IH.
Qed.

Lemma cut_present c a b : sforall (fun x => negb (Ascii.eqb x c)) a = true -> cut_at c (a +:+ String c b) = (a, Some b).
Proof.
  induction a as [|x a IH]; cbn; [by rewrite Ascii.eqb_refl|]. intros [Hx Ha]%andb_true_iff.
  apply negb_true_iff in Hx. by rewrite Hx, IH.
Qed.

Lemma clean_lacks c t : no_mark c = false -> sforall no_mark t = true -> sforall (fun a => negb (Ascii.eqb a c)) t = true.
Proof.
  intros Hc. apply sforall_mono. intros a Ha. apply negb_true_iff, Ascii.eqb_neq. intros ->. congruence.
Qed.

(** Keys and values as they are written. *)
Definition query_text (l : list (string * string)) : string := join "&" (map (fun kv => kv.1 +:+ "=" +:+ kv.2) l).

Lemma split_join_lacking c l :
  l <> [] -> List.Forall (fun s => sforall (fun a => negb (Ascii.eqb a c)) s = true) l -> split c (join (String c "") l) = l.
Proof.
  intros Hl H. apply split_join; [done|]. revert H. apply Forall_impl. intros s.
  apply sforall_split. by rewrite Ascii.eqb_refl.
Qed.

Definition writes (kv t : string * string) : Prop := coded kv.1 t.1 /\ coded kv.2 t.2.

Lemma read_pair_coded kv t : writes kv t -> read_pair (t.1 +:+ "=" +:+ t.2) = Some kv.
Proof.
  destruct kv as [k v], t as [a b]. intros [[Hk Ck] [Hv _]]. cbn [fst snd] in *. unfold read_pair.
  change (a +:+ "=" +:+ b) with (a +:+ String "=" b). rewrite cut_present by by apply clean_lacks.
  rewrite Hk. cbn -[form_decode]. by rewrite Hv.
Qed.

Lemma part_clean kv t : writes kv t -> sforall (fun a => negb (Ascii.eqb a "&")) (t.1 +:+ "=" +:+ t.2) = true.
Proof.
  intros [[_ Hk] [_ Hv]]. rewrite !sforall_app. by rewrite (clean_lacks "&" t.1), (clean_lacks "&" t.2).
Qed.

Lemma read_query_text ps ts : Forall2 writes ps ts -> read_query (query_text ts) = Some ps.
Proof.
  intros H. unfold read_query, query_text. destruct ts as [|t0 ts]; [by inversion H|].
  rewrite split_join_lacking; [|done|].
  - rewrite List.forallb_filter_id.
    + apply mapM_Some, Forall2_fmap_l, Forall2_flip. eapply Forall2_impl; [|exact H]. intros kv t. apply read_pair_coded.
    + apply List.forallb_forall. intros x (t & <- & _)%in_map_iff. by destruct t as [[|] ?].
  - apply List.Forall_map, List.Forall_forall. intros t Ht. apply list_elem_of_In, list_elem_of_lookup in Ht as [i Hi].
    destruct (Forall2_lookup_r _ _ _ _ _ H Hi) as (kv & _ & Hw). by eapply part_clean.
Qed.

(** What [URLSearchParams] writes, and a handler writes again, is read back. *)
Lemma query_string_text request : query_string request = query_text (map (fun kv => (form_encode kv.1, form_encode kv.2)) (req_query request)).
Proof. unfold query_string, query_text. by rewrite map_map. Qed.

Lemma query_roundtrip request : read_query (query_string request) = Some (req_query request).
Proof.
  rewrite query_string_text. apply read_query_text. induction (req_query request) as [|kv l IH]; constructor; [|done].
  split; apply form_coded.
Qed.

(** ** Addresses *)

Definition in_path (c : ascii) : bool := negb (existsb (Ascii.eqb c) ["?"; "#"]%char).

(** An address put together of a path and a query. *)
Lemma read_url_query path ps ts :
  sforall in_path path = true -> Forall2 writes ps ts -> read_url (path +:+ "?" +:+ query_text ts) = Some (path, ps).
Proof.
  intros Hp Hw. unfold read_url. rewrite (cut_absent "#").
  - cbn [fst]. change (path +:+ "?" +:+ query_text ts) with (path +:+ String "?" (query_text ts)).
    rewrite cut_present; [|revert Hp; apply sforall_mono; intros c; all_chars c].
    cbn [nullish]. by rewrite (read_query_text ps ts).
  - rewrite sforall_app. rewrite andb_true_iff. split; [revert Hp; apply sforall_mono; intros c; all_chars c|].
    cbn. unfold query_text. apply sforall_join; [done|]. apply List.Forall_map, List.Forall_forall. intros t Ht.
    apply list_elem_of_In, list_elem_of_lookup in Ht as [i Hi].
    destruct (Forall2_lookup_r _ _ _ _ _ Hw Hi) as (kv & _ & [[_ H1] [_ H2]]). rewrite !sforall_app. cbn.
    by rewrite (clean_lacks "#" t.1), (clean_lacks "#" t.2).
Qed.

Lemma read_url_plain path : sforall in_path path = true -> read_url path = Some (path, []).
Proof.
  intros Hp. unfold read_url.
  rewrite (cut_absent "#"), (cut_absent "?"); [done| |]; (revert Hp; apply sforall_mono; intros c; all_chars c).
Qed.

(** ** Dot segments *)

(** What the URL parser of the platform, through which [fetch] reads its
    address, makes of the segments of a path (URL Standard, path state): a
    segment "." is dropped, ".." drops the one before it, and a dot may be
    written "%2e"; [before] are the segments read so far, the last first. *)
Definition single_dot (s : string) : bool := existsb (String.eqb (toLowerCase s)) ["."; "%2e"].
Definition double_dot (s : string) : bool :=
  existsb (String.eqb (toLowerCase s)) [".."; ".%2e"; "%2e."; "%2e%2e"].

Fixpoint resolve_dots (before : list string) (segs : list string) : list string :=
  match segs with
  | [] => rev before
  | s :: rest =>
      let dropped := if double_dot s then Some (tail before) else if single_dot s then Some before else None in
      match dropped, rest with
      | Some before, [] => rev ("" :: before)
      | Some before, _ => resolve_dots before rest
      | None, _ => resolve_dots (s :: before) rest
      end
  end.

(** The segments of the path of a URL whose own path has the segments [base]
    and which [path] continues. *)
Definition resolved (base : list string) (path : string) : list string := resolve_dots (rev base) (split "/" path).

Lemma resolve_plain before segs :
  List.Forall (fun s => single_dot s = false /\ double_dot s = false) segs -> resolve_dots before segs = rev before ++ segs.
Proof.
  intros H. revert before. induction H as [|s segs [H1 H2] _ IH]; intros before; cbn [resolve_dots]; [by rewrite app_nil_r|].
  rewrite H1, H2, IH. cbn [rev]. by rewrite <- app_assoc.
Qed.

(** A text that reads as the bytes of [s] is the encoding of nothing else. *)
Lemma encoded_is id s : percent_bytes (encodeURIComponent id) = utf8_encode s -> id = s.
Proof.
  rewrite uri_bytes. intros H. apply (f_equal utf8_decode) in H. rewrite !utf8_roundtrip in H. by injection H.
Qed.

Lemma lower_inv c d : lower_char c = d -> In d ["."; "%"; "2"]%char -> c = d.
Proof. intros <-. destruct c as [[] [] [] [] [] [] [] []]; vm_compute; intuition congruence. Qed.

Lemma lower_e c : lower_char c = "e"%char -> c = "e"%char \/ c = "E"%char.
Proof. destruct c as [[] [] [] [] [] [] [] []]; vm_compute; intuition congruence. Qed.

(** A text whose lower case is known, when that has only dots and the units
    of "%2e". *)
Ltac lower_case_of H :=
  unfold toLowerCase in H;
  match type of H with
  | smap lower_char ?t = "" => destruct t; [clear H|discriminate H]
  | smap lower_char ?t = String ?d _ =>
      let c := fresh "c" in let Hc := fresh "Hc" in
      destruct t as [|c t]; [discriminate H|]; injection H as Hc H;
      first [apply lower_inv in Hc; [subst c|by vm_compute; tauto]
            |apply lower_e in Hc as [->| ->]]; lower_case_of H
  end.

Lemma single_dot_bytes t : single_dot t = true -> percent_bytes t = utf8_encode ".".
Proof.
  intros (x & Hx & H%String.eqb_eq)%existsb_exists.
  destruct Hx as [<-|[<-|[]]]; lower_case_of H; reflexivity.
Qed.

Lemma double_dot_bytes t : double_dot t = true -> percent_bytes t = utf8_encode "..".
Proof.
  intros (x & Hx & H%String.eqb_eq)%existsb_exists.
  destruct Hx as [<-|[<-|[<-|[<-|[]]]]]; lower_case_of H; reflexivity.
Qed.

(** An encoded identifier is a dot segment only if it is one itself. *)
Lemma encoded_plain id :
  id <> "." -> id <> ".." -> single_dot (encodeURIComponent id) = false /\ double_dot (encodeURIComponent id) = false.
Proof.
  intros H1 H2. split; apply not_true_iff_false.
  - intros H. by apply H1, encoded_is, single_dot_bytes.
  - intros H. by apply H2, encoded_is, double_dot_bytes.
Qed.

(** ** The addresses of the routes *)

(** No identifier of a route is a dot segment. *)
Definition no_dots (segs : list seg) : Prop := forall id, In (Par id) segs -> id <> "." /\ id <> "..".

Lemma route_plain env h m segs :
  data_route env h m segs -> no_dots segs ->
  List.Forall (fun s => single_dot s = false /\ double_dot s = false) (map seg_text segs).
Proof.
  intros Hr Hd. apply List.Forall_map, List.Forall_forall. intros [t|id] Hin.
  - cut (List.Forall (fun s => match s with Lit t => single_dot t = false /\ double_dot t = false | Par _ => True end) segs).
    { rewrite List.Forall_forall. intros H. exact (H _ Hin). }
    clear -Hr. destruct Hr; repeat constructor.
  - destruct (Hd id Hin). by apply encoded_plain.
Qed.

(** [C16] Every data route stays on its own upstream endpoint.  Whatever the
    identifiers in the browser's URL, the query and the control plane's
    answers, the handler sends at most three requests, each being the refresh
    of the browser's token or the route's method on the address made of the
    base, the route's path and a query; that path splits into exactly the
    segments of the table, each identifier encoded in its own, and has
    neither a query nor a fragment.  Unless an identifier is "." or "..", the
    path requested after the URL parser has resolved dot segments is the path
    of the base followed by those segments. *)
Theorem data_routes_confined env h m segs request {S} {up : Upstream S} (s : S) :
  data_route env h m segs ->
  (length (trace s (h request)) <= 3)%nat
  /\ List.Forall (on_route env m segs request) (trace s (h request))
  /\ split "/" (path_text segs) = map seg_text segs
  /\ sforall (fun c => uri_safe c || Ascii.eqb c "/") (path_text segs) = true
  /\ (no_dots segs -> forall base, resolved base (path_text segs) = base ++ map seg_text segs).
Proof.
  intros H. destruct (data_route_stays env h m segs request H) as [Ha Hm].
  destruct (data_route_segs env h m segs H) as [Hne Hsafe]. destruct (path_segments segs Hne Hsafe) as [Hs Hu].
  split_and!; [by apply at_most_trace|by apply all_requests_trace|done|done|].
  intros Hd base. unfold resolved. rewrite Hs, resolve_plain by by eapply route_plain. by rewrite rev_involutive.
Qed.

(** An identifier that tries to leave its segment. *)
Lemma data_routes_confined_witness :
  let segs := [Lit "devices"; Par "../alerts?x=1#"; Lit "commands"] in
  data_route Demo.env (device_commands_GET Demo.env "../alerts?x=1#") "GET" segs
  /\ resolved ["api"] (path_text segs) = ["api"; "devices"; "..%2Falerts%3Fx%3D1%23"; "commands"].
Proof.
  cbn zeta. split; [constructor|].
  destruct (data_routes_confined Demo.env (device_commands_GET Demo.env "../alerts?x=1#") "GET"
    [Lit "devices"; Par "../alerts?x=1#"; Lit "commands"] Demo.request (up := Demo.rotating) 0%nat)
    as (_ & _ & _ & _ & H); [constructor|]. etransitivity; [apply H|reflexivity].
  intros id [[=]|[[= <-]|[[=]|[]]]]. split; discriminate.
Defined.

(** The exception is needed: encodeURIComponent leaves dots as they are, and
    two of them as an identifier would take the route to another endpoint.  A
    URL parser resolves them on the way in as well, so what keeps such an
    identifier away is the framework and not the route. *)
Lemma dots_leave_segment env :
  let segs := [Lit "devices"; Par ".."; Lit "commands"] in
  data_route env (device_commands_GET env "..") "GET" segs
  /\ resolved ["api"] (path_text segs) = ["api"; "commands"].
Proof. split; [constructor|reflexivity]. Qed.
