(* ===== verification/Browser.v ===== *)
(** * The browser's side of a session

    The routes write the session cookies; the browser stores them and sends
    them with every later request, and src/middleware.ts decides by them
    which page opens.  The states are a cookie jar and the requests in
    flight; responses arrive in any order, so the invariant holds for every
    interleaving of requests, answers, lost requests and restarts.  The
    theorems use only the contract [SessionRoute] of the routes.

    Cookies follow RFC 6265bis on an origin of one scheme: [Set-Cookie]
    replaces, deletion removes, and a Secure cookie set over plain http is
    ignored. *)

From stdpp Require Import gmap.
From S2P Require Import Prelude JsNumber JsString JsValue Auth Http Session Proxy SessionLaws ProxyLaws OAuth Routes.

Local Open Scope Z_scope.

Abbreviation jar := (gmap string string).

(** ** Cookies *)

Definition store (https : bool) (old : option string) (op : option CookieOp) : option string :=
  match op with
  | None => old
  | Some DeleteCookie => None
  | Some (SetCookie value _ _ secure _ _) => if secure && negb https then old else Some value
  end.

Definition apply_cookies (https : bool) (j : jar) (ops : gmap string CookieOp) : jar :=
  merge (store https) j ops.

Lemma lookup_apply https j ops k :
  apply_cookies https j ops !! k = store https (j !! k) (ops !! k).
Proof. unfold apply_cookies. rewrite lookup_merge. by destruct (j !! k), (ops !! k). Qed.

(** The four session cookies of a jar. *)
Definition view (j : jar) :=
  (j !! cookie_jwt, j !! cookie_refreshToken, j !! cookie_sessionId, j !! cookie_role).

(** Signed out, or signed in with all three tokens and a role. *)
Definition coherent (j : jar) : Prop :=
  view j = (None, None, None, None) \/
  exists t r s role, t <> "" /\ r <> "" /\ s <> "" /\
    view j = (Some t, Some r, Some s, Some (role_str role)).

Lemma view_apply https j r :
  view (apply_cookies https j (res_cookies r)) =
  let '(a, b, c, d) := ops_view r in
  (store https (j !! cookie_jwt) a, store https (j !! cookie_refreshToken) b,
   store https (j !! cookie_sessionId) c, store https (j !! cookie_role) d).
Proof. unfold view, ops_view. by rewrite !lookup_apply. Qed.

(** ** Runs of the browser *)

Section Runs.
Context (env : string -> option string) (https : bool).
Context (uuid : string) (url_origin : string -> option string).
Context (resolve : string -> string -> option string).

(** The handlers of the deployed UI that may touch the session. *)
Inductive ui_route : (NextRequest -> io NextResponse) -> Prop :=
| route_me : ui_route (me_GET env)
| route_refresh : ui_route (refresh_POST env)
| route_logout : ui_route (logout_POST env)
| route_request_otp : ui_route (request_otp_POST env)
| route_verify_otp : ui_route (verify_otp_POST env)
| route_google_start : ui_route (google_start_GET env uuid url_origin resolve)
| route_google_callback : ui_route (google_callback_GET env url_origin resolve)
| route_data h m segs : data_route env h m segs -> ui_route h.

Lemma ui_route_session h : ui_route h -> SessionRoute h.
Proof. destruct 1; [typeclasses eauto..|]. by eapply data_route_session. Qed.

(** A response some control plane can make the handler produce. *)
Definition possible (m : io NextResponse) (resp : NextResponse) : Prop :=
  exists (S : Type) (up : Upstream S) (s : S), outcome s m = Ok resp.

Lemma possible_results (Q : NextResponse -> Prop) m resp :
  all_results Q m -> possible m resp -> Q resp.
Proof. intros HQ (S & up & s & H). by eapply all_results_outcome. Qed.

Record Browser := { cookie_jar : jar; inflight : list NextRequest }.

Inductive step : Browser -> Browser -> Prop :=
| step_send b request :
    req_cookies request = cookie_jar b ->
    step b {| cookie_jar := cookie_jar b; inflight := request :: inflight b |}
| step_deliver b before after h request resp :
    inflight b = before ++ request :: after ->
    ui_route h -> possible (h request) resp ->
    step b {| cookie_jar := apply_cookies https (cookie_jar b) (res_cookies resp);
              inflight := before ++ after |}
| step_lost b before after request :
    inflight b = before ++ request :: after ->
    step b {| cookie_jar := cookie_jar b; inflight := before ++ after |}
| step_restart b j :
    view j = (None, None, None, None) ->
    step b {| cookie_jar := j; inflight := [] |}.

Definition browser_ok (b : Browser) : Prop :=
  coherent (cookie_jar b) /\ Forall (fun q => coherent (req_cookies q)) (inflight b).

(** A coherent request that names a session carries its role. *)
Lemma coherent_role q :
  coherent (req_cookies q) -> cookie_value q cookie_refreshToken <> "" ->
  normalizeRole (req_cookies q !! cookie_role) <> None.
Proof.
  unfold cookie_value. intros [[= _ -> _ _]|(t & r & s & role & _ & _ & _ & [= _ _ _ ->])]; [done|].
  by rewrite normalizeRole_role_str.
Qed.

(** A response to a coherent request keeps any jar coherent. *)
Lemma effect_coherent q r j :
  SessionEffect q r -> coherent (req_cookies q) -> coherent j ->
  coherent (apply_cookies https j (res_cookies r)).
Proof.
  intros He Hq Hj. unfold coherent. rewrite view_apply.
  destruct He as [-> | -> | secure t rt s role Ht Hrt Hs Hrole -> | secure role Hjwt Hno ->].
  - exact Hj.
  - by left.
  - cbn. destruct (secure && negb https) eqn:E.
    + destruct role; cbn; rewrite ?E; exact Hj.
    + destruct role as [role|]; cbn; rewrite ?E.
      * right. by exists t, rt, s, role.
      * destruct Hrole as [[? [=]]|(? & _ & ?)]. by destruct (coherent_role q).
  - exfalso. unfold cookie_value in *.
    destruct Hq as [[= H0 _ _ _]|(? & ? & ? & ? & _ & ? & ? & [= _ Hr Hs _])];
      [by rewrite H0 in Hjwt|].
    rewrite Hr, Hs in Hno. cbn in Hno. naive_solver.
Qed.

Lemma step_ok b b' : step b b' -> browser_ok b -> browser_ok b'.
Proof.
  intros Hs [Hj Hq]. destruct Hs as [b q Hreq|b before after h q resp E Hh Hp|b before after q E|b j Hv];
    split; cbn.
  - done.
  - constructor; [by rewrite Hreq|done].
  - rewrite E in Hq. apply Forall_app in Hq as [_ [Hq _]%Forall_cons_iff].
    eapply effect_coherent; [|exact Hq|exact Hj].
    eapply possible_results; [|exact Hp]. by apply ui_route_session.
  - rewrite E in Hq. apply Forall_app in Hq as [? [_ ?]%Forall_cons_iff]. by apply Forall_app.
  - done.
  - rewrite E in Hq. apply Forall_app in Hq as [? [_ ?]%Forall_cons_iff]. by apply Forall_app.
  - by left.
  - done.
Qed.

Lemma steps_ok b b' : rtc step b b' -> browser_ok b -> browser_ok b'.
Proof. induction 1; eauto using step_ok. Qed.
End Runs.

(** ** What the page guard makes of a session *)

Definition page (j : jar) (path : string) : Middleware.Request :=
  {| Middleware.nextUrl := {| Middleware.pathname := path; Middleware.searchParams := [] |};
     Middleware.cookies := j |}.

Lemma home_opens j t role :
  j !! cookie_jwt = Some t -> t <> "" -> j !! cookie_role = Some (role_str role) ->
  Middleware.middleware (page j (roleHomePath role)) = Middleware.next.
Proof.
  intros Ht Hne Hrole. apply Middleware.home_is_open; [congruence..|].
  by rewrite Hrole, normalizeRole_role_str.
Qed.

(** [C7] In every run of the browser, however requests, answers, failures
    and restarts interleave, the session cookies are coherent: either none of
    them is there, or the three tokens and a role are; and a browser that
    holds a token can always open the home page of the role it holds. *)
Theorem session_coherent env https uuid url_origin resolve j b :
  view j = (None, None, None, None) ->
  rtc (step env https uuid url_origin resolve) {| cookie_jar := j; inflight := [] |} b ->
  coherent (cookie_jar b) /\
  (Middleware.signed_in (cookie_jar b) ->
   exists role, cookie_jar b !! cookie_role = Some (role_str role) /\
     Middleware.middleware (page (cookie_jar b) (roleHomePath role)) = Middleware.next).
Proof.
  intros Hj Hrun. destruct (steps_ok _ _ _ _ _ _ _ Hrun) as [Hok _]; [split; [by left|constructor]|].
  split; [exact Hok|]. intros (t & Ht & Hne).
  destruct Hok as [[= H1 _ _ _]|(t' & r & s & role & _ & _ & _ & [= H1 _ _ H4])]; [congruence|].
  exists role. split; [done|]. by eapply home_opens.
Qed.

(** Verification either fails or hands out a complete set of cookies. *)
Lemma verify_success_cookies env request :
  all_results (fun resp => response_ok resp = true ->
    exists c, jwt c <> "" /\ refreshToken c <> "" /\ sessionId c <> "" /\
      let secure := shouldUseSecureCookies env (Some request) in
      ops_view resp =
        (Some (session_cookie secure (jwt c)), Some (session_cookie secure (refreshToken c)),
         Some (session_cookie secure (sessionId c)), Some (role_cookie secure (cookieRole c))))
    (verify_otp_POST env request).
Proof.
  unfold verify_otp_POST, message_response, upstream_refusal, verify_success, send_json.
  results; try done.
  - destruct (body_status _); [|done]. cbn. intros Hok. exfalso.
    unfold response_ok in Hok. cbn in Hok. unfold ok in *.
    match goal with H : negb _ = true |- _ => by rewrite Hok in H end.
  - match goal with H : authCookiesFromPayload _ = Ok (Some _) |- _ =>
      apply authCookies_nonempty in H as (? & ? & ?) end.
    eexists. split_and!; [done..|]. apply ops_view_auth.
Qed.

(** Signing in works end to end: after any successful answer of
    verify-otp, delivered to a browser that accepts cookies marked as the
    route marks them, the guard sends [/] to the home page of the role in the
    cookie and opens it. *)
Theorem login_opens_home env https request resp j :
  possible (verify_otp_POST env request) resp -> response_ok resp = true ->
  (shouldUseSecureCookies env (Some request) = true -> https = true) ->
  let j' := apply_cookies https j (res_cookies resp) in
  coherent j' /\
  exists role,
    Middleware.middleware (page j' "/") =
      Middleware.redirect {| Middleware.pathname := roleHomePath role; Middleware.searchParams := [] |} /\
    Middleware.middleware (page j' (roleHomePath role)) = Middleware.next.
Proof.
  intros Hp Hok Hsec j'.
  destruct (possible_results _ _ _ (verify_success_cookies env request) Hp Hok)
    as (c & Hj & Hr & Hs & Hv). cbn zeta in Hv.
  assert (view j' = (Some (jwt c), Some (refreshToken c), Some (sessionId c),
                     Some (role_str (cookieRole c)))) as Hview.
  { unfold j'. rewrite view_apply, Hv. cbn.
    destruct (shouldUseSecureCookies _ _) eqn:E; [by rewrite (Hsec eq_refl)|done]. }
  split; [right; by exists (jwt c), (refreshToken c), (sessionId c), (cookieRole c)|]. injection Hview as H1 _ _ H4.
  exists (cookieRole c). split; [|by eapply home_opens].
  unfold Middleware.middleware, page. cbn [Middleware.nextUrl Middleware.pathname Middleware.cookies].
  rewrite H1, H4, normalizeRole_role_str. cbn [nullish].
  apply truthy_str_spec in Hj as ->. done.
Qed.

(** Signing out always works: whatever the control plane does, even if
    it cannot be reached, logout answers 200, asks the control plane at most
    once, leaves no session cookie in the browser, and the guard then sends
    every page but the login page and the API to the login page. *)
Theorem logout_signs_out env https {S} {up : Upstream S} (s : S) request j :
  exists resp, outcome s (logout_POST env request) = Ok resp /\ res_status resp = 200 /\
    (length (trace s (logout_POST env request)) <= 1)%nat /\
    let j' := apply_cookies https j (res_cookies resp) in
    view j' = (None, None, None, None) /\
    forall path, path <> Middleware.LOGIN_PATH -> startsWith path "/api/" = false ->
      Middleware.middleware (page j' path) =
        Middleware.redirect (Middleware.login_url
          {| Middleware.pathname := path; Middleware.searchParams := [] |}).
Proof.
  exists (clearAuthCookies (json_response [("ok", JBool true)] 200)). split_and!.
  - unfold logout_POST, outcome. destruct (_ && _); [|done]. cbn.
    by destruct (answer s _) as [s1 [r|]].
  - done.
  - apply at_most_trace. unfold logout_POST. destruct (_ && _); [|done].
    intros [r|]; exact I.
  - cbn zeta. set (j' := apply_cookies _ _ _).
    assert (view j' = (None, None, None, None)) as Hv
      by (unfold j'; by rewrite view_apply, ops_view_clear).
    clearbody j'. split; [exact Hv|]. injection Hv as Hv _ _ _. intros path Hp%String.eqb_neq Hapi.
    unfold Middleware.middleware, page. cbn [Middleware.nextUrl Middleware.pathname Middleware.cookies].
    by rewrite Hv, Hapi; cbn; rewrite Hp.
Qed.

(** ** A browser that signs in, and the cost of a wrong Secure mark *)

Module SignIn.
Definition request : NextRequest :=
  {| req_cookies := ∅; req_headers := ∅; req_protocol := "https:"; req_host := "ui.example";
     req_query := [];
     req_body := Some (json_text [("email", JStr "ada@example.com"); ("challenge_id", JStr "c1");
                                  ("otp", JStr "123456")]) |}.

Definition accepting (_ : unit) (_ : FetchRequest) : unit * option FetchResponse :=
  (tt, Some (Demo.reply 200 [("jwt", JStr "j1"); ("refresh_token", JStr "r1");
    ("session_id", JStr "s1"); ("user_role", JStr "operator"); ("user_id", JStr "7")])).

Definition response : NextResponse :=
  match outcome (up := accepting) tt (verify_otp_POST Demo.env request) with
  | Ok r => r
  | Exn _ => json_response [] 500
  end.

Lemma response_possible : possible (verify_otp_POST Demo.env request) response.
Proof. exists unit, accepting, tt. vm_compute. reflexivity. Qed.

Definition signed_in_browser : Browser :=
  {| cookie_jar := apply_cookies true ∅ (res_cookies response); inflight := [] |}.

(** Nothing here needs Google or URLs. *)
Definition no_url (_ _ : string) : option string := None.

Lemma signs_in :
  rtc (step Demo.env true "" (no_url "") no_url) {| cookie_jar := ∅; inflight := [] |} signed_in_browser.
Proof.
  eapply rtc_l; [apply (step_send _ _ _ _ _ _ request); reflexivity|].
  apply rtc_once. unfold signed_in_browser. cbn [cookie_jar inflight].
  apply (step_deliver Demo.env true "" (no_url "") no_url {| cookie_jar := ∅; inflight := [request] |} [] []
           (verify_otp_POST Demo.env) request); [done|constructor|apply response_possible].
Qed.

Lemma session_coherent_witness :
  coherent (cookie_jar signed_in_browser) /\
  exists role, cookie_jar signed_in_browser !! cookie_role = Some (role_str role) /\
     Middleware.middleware (page (cookie_jar signed_in_browser) (roleHomePath role)) = Middleware.next.
Proof.
  destruct (session_coherent Demo.env true "" (no_url "") no_url ∅ signed_in_browser) as [Hc Hh].
  - reflexivity.
  - apply signs_in.
  - split; [exact Hc|]. apply Hh. exists "j1". by split.
Defined.

Lemma login_opens_home_witness :
  response_ok response = true /\ coherent (apply_cookies true ∅ (res_cookies response)).
Proof.
  split; [vm_compute; reflexivity|].
  destruct (login_opens_home Demo.env true request response ∅) as [H _];
    [apply response_possible|vm_compute; reflexivity|intros _; reflexivity|exact H].
Defined.
End SignIn.

Module PlainHttp.
(** A production build served over plain http. *)
Definition env (k : string) : option string :=
  if k === "NODE_ENV" then Some "production" else None.
Definition request : NextRequest :=
  {| req_cookies := req_cookies Demo.request; req_headers := ∅; req_protocol := "http:";
     req_host := "ui.example"; req_query := []; req_body := None |}.

(** The refresh token in the jar after a handler's response. *)
Definition kept (up : Upstream nat) (m : io NextResponse) : option string :=
  match outcome 0%nat m with
  | Ok r => apply_cookies false (req_cookies request) (res_cookies r) !! cookie_refreshToken
  | Exn _ => None
  end.

(** Over plain http the refresh route marks its cookies by the request's
    scheme and the browser stores the new tokens; the proxy marks them by
    the build mode, and the browser drops the tokens it was just issued,
    keeping the refresh token that the control plane has already rotated. *)
Lemma proxy_rotation_dropped :
  kept Demo.rotating (proxyAuthedRequest env request "/devices" Demo.get_options) = Some "r1" /\
  kept (fun n r => Demo.rotating (S n) r) (refresh_POST env request) = Some "r2".
Proof. split; vm_compute; reflexivity. Qed.
End PlainHttp.

Module LostRotation.
(** A control plane that rotates the tokens and then fails. *)
Definition failing (n : nat) (r : FetchRequest) : nat * option FetchResponse :=
  if (n =? 2)%nat then (3%nat, Some (Demo.reply 500 [("message", JStr "down")])) else Demo.rotating n r.

(** When the retry of [/me] fails after a refresh, the route answers 503 and
    keeps the new tokens to itself: the browser is left with a refresh token
    that the control plane has already replaced. *)
Lemma me_rotation_lost :
  length (trace (up := failing) 0%nat (me_GET Demo.env Demo.request)) = 3%nat /\
  outcome (up := failing) 0%nat (me_GET Demo.env Demo.request)
    = Ok (auth_failure "auth_upstream_error" 503).
Proof. split; vm_compute; reflexivity. Qed.
End LostRotation.

Module ConcurrentRefresh.
(** A control plane with one current refresh token: it accepts the token
    [new], rotates [r1] once, and rejects everything else. *)
Definition rotating_once (rotated : bool) (r : FetchRequest) : bool * option FetchResponse :=
  if f_url r === f_url (refresh_request Demo.env "") then
    if rotated then (true, Some (Demo.reply 401 [("message", JStr "invalid_refresh")]))
    else (true, Some (Demo.reply 200 [("jwt", JStr "new"); ("refresh_token", JStr "r2")]))
  else if existsb (fun kv => kv.2 === "Bearer new") (f_headers r) then
    (rotated, Some (Demo.reply 200 [("devices", JArr [])]))
  else (rotated, Some (Demo.reply 401 [("message", JStr "token expired")])).

(** Two requests leave the browser together with an expired token; the jar
    after the responses to both, in order. *)
Definition both : option jar :=
  match run (up := rotating_once) false Demo.handler with
  | (_, s1, Ok a) =>
      match outcome (up := rotating_once) s1 Demo.handler with
      | Ok b => Some (apply_cookies true
                  (apply_cookies true (req_cookies Demo.request) (res_cookies a)) (res_cookies b))
      | Exn _ => None
      end
  | _ => None
  end.

(** The second request refreshes with a token the first has just used up,
    is refused, and clears the cookies that the first response stored: two
    parallel requests with an expired token sign the user out. *)
Lemma concurrent_refresh_signs_out :
  exists j, both = Some j /\ view j = (None, None, None, None).
Proof. eexists. split; vm_compute; reflexivity. Qed.
End ConcurrentRefresh.
