(* ===== verification/Site.v ===== *)
(** * The deployed site

    A page sends a request to a path of its own site; the framework finds the
    directory under src/app/api that the path names, runs src/middleware.ts
    and then the handler of the request's method, and the answer comes back
    with cookies for the browser.  This file puts these parts together: the
    table of the route files by their directories, and the site as a server
    of its own ([site]), whose state is that of the control plane and the
    cookies of the browser.  What the pages send can so be run against the
    handlers, and these against the control plane.

    Of the framework the model has the documented rules: a directory in
    brackets stands for any segment, a fixed name is preferred to it, the
    search parameters are those of the URL standard, a handler that throws
    is answered with an error ([crash]), and so is a path or a method that
    is not there ([not_found]).  [param] is what a handler gets for a dynamic
    segment. *)

From stdpp Require Import gmap.
From S2P Require Import Prelude JsNumber JsString JsValue Auth Http Session Proxy SessionLaws ProxyLaws OAuth Routes Urls Browser.

Local Open Scope Z_scope.

Abbreviation Handler := (NextRequest -> io NextResponse).

(** A handler of a route file, by the number of dynamic segments. *)
Inductive Endpoint :=
| Plain (h : Handler)
| ById (h : string -> Handler)
| ByTwo (h : string -> string -> Handler).

(** A directory under src/app/api and what its route.ts exports. *)
Record RouteFile := { directory : string; exports : list (string * Endpoint) }.

Definition dynamic (segment : string) : bool := startsWith segment "[".

(** The dynamic segments of a path that lies in a directory. *)
Fixpoint segments_match (pattern path : list string) : option (list string) :=
  match pattern, path with
  | [], [] => Some []
  | d :: pattern, s :: path =>
      if dynamic d then ids ← segments_match pattern path; Some (s :: ids)
      else if d === s then segments_match pattern path else None
  | _, _ => None
  end.

Fixpoint find_file (files : list RouteFile) (path : list string) : option (RouteFile * list string) :=
  match files with
  | [] => None
  | f :: files =>
      match segments_match (split "/" (directory f)) path with
      | Some ids => Some (f, ids)
      | None => find_file files path
      end
  end.

Definition file (directory : string) (exports : list (string * Endpoint)) : RouteFile :=
  {| directory := directory; exports := exports |}.

Section Deployed.
Context (env : string -> option string) (uuid : string) (url_origin : string -> option string).
Context (resolve : string -> string -> option string).

(** The directories; of two that fit, the one with the fixed name is first. *)
Definition route_files : list RouteFile := [
  file "ai/copilot/ask" [("POST", Plain (copilot_ask_POST env))];
  file "ai/copilot/conversations/[conversationId]" [("GET", ById (copilot_conversation_GET env))];
  file "alerts" [("GET", Plain (alerts_GET env))];
  file "alerts/[alertId]/ack" [("POST", ById (alert_ack_POST env))];
  file "artifact/[artifactId]" [("GET", ById (artifact_GET env))];
  file "audit/device/[deviceId]" [("GET", ById (audit_device_GET env))];
  file "audit/events" [("GET", Plain (audit_events_GET env))];
  file "audit/events/export" [("GET", Plain (audit_export_GET env))];
  file "auth/google/callback" [("GET", Plain (google_callback_GET env url_origin resolve))];
  file "auth/google/start" [("GET", Plain (google_start_GET env uuid url_origin resolve))];
  file "auth/logout" [("POST", Plain (logout_POST env))];
  file "auth/me" [("GET", Plain (me_GET env))];
  file "auth/refresh" [("POST", Plain (refresh_POST env))];
  file "auth/request-otp" [("POST", Plain (request_otp_POST env))];
  file "auth/verify-otp" [("POST", Plain (verify_otp_POST env))];
  file "commands" [("GET", Plain (commands_GET env)); ("POST", Plain (commands_POST env))];
  file "commands/capabilities" [("GET", Plain (capabilities_GET env))];
  file "commands/[commandId]" [("GET", ById (command_GET env))];
  file "compliance/audit" [("GET", Plain (compliance_audit_GET env))];
  file "compliance/export" [("GET", Plain (compliance_export_GET env))];
  file "compliance/overview" [("GET", Plain (compliance_overview_GET env))];
  file "devices" [("GET", Plain (devices_GET env))];
  file "devices/[deviceId]" [("GET", ById (device_GET env))];
  file "devices/[deviceId]/alerts" [("GET", ById (device_alerts_GET env))];
  file "devices/[deviceId]/audit" [("GET", ById (device_audit_GET env))];
  file "devices/[deviceId]/commands" [("GET", ById (device_commands_GET env))];
  file "devices/[deviceId]/telemetry" [("GET", ById (device_telemetry_GET env))];
  file "devices/[deviceId]/telemetry/latest" [("GET", ById (device_telemetry_latest_GET env))];
  file "mobile-devices" [("GET", Plain (mobile_devices_GET env))];
  file "notifications" [("GET", Plain (notifications_GET env)); ("POST", Plain (notifications_POST env))];
  file "notifications/[notificationId]" [("DELETE", ById (notification_DELETE env))];
  file "notifications/[notificationId]/read" [("POST", ById (notification_read_POST env))];
  file "pair/confirm" [("POST", Plain (pair_confirm_POST env))];
  file "pair/init" [("POST", Plain (pair_init_POST env))];
  file "pair/session/[pairSessionId]" [("GET", ById (pair_session_GET env))];
  file "policy/app-lock" [("GET", Plain (app_lock_GET env)); ("PUT", Plain (app_lock_PUT env));
                          ("DELETE", Plain (app_lock_DELETE env))];
  file "schedules" [("GET", Plain (schedules_GET env)); ("POST", Plain (schedules_POST env))];
  file "schedules/runs" [("GET", Plain (schedule_runs_GET env))];
  file "schedules/[scheduleId]" [("PATCH", ById (schedule_PATCH env)); ("DELETE", ById (schedule_DELETE env))];
  file "schedules/[scheduleId]/run-now" [("POST", ById (schedule_run_now_POST env))];
  file "settings/alert-rules" [("GET", Plain (alert_rules_GET env)); ("POST", Plain (alert_rules_POST env))];
  file "settings/alert-rules/[id]" [("PATCH", ById (alert_rule_PATCH env)); ("DELETE", ById (alert_rule_DELETE env))];
  file "settings/compliance-thresholds" [("GET", Plain (thresholds_GET env)); ("POST", Plain (thresholds_POST env))];
  file "settings/compliance-thresholds/[id]" [("PATCH", ById (threshold_PATCH env)); ("DELETE", ById (threshold_DELETE env))];
  file "settings/policy-entries" [("GET", Plain (policy_entries_GET env))];
  file "settings/policy-entries/[id]" [("PATCH", ById (policy_entry_PATCH env))];
  file "settings/roles/[role]/permissions" [("GET", ById (role_permissions_GET env)); ("PATCH", ById (role_permissions_PATCH env))];
  file "settings/roles/permissions" [("GET", Plain (permissions_GET env))];
  file "settings/team-members" [("GET", Plain (members_GET env)); ("POST", Plain (members_POST env))];
  file "settings/team-members/[id]" [("PATCH", ById (member_PATCH env))];
  file "settings/team-members/[id]/activate" [("POST", ById (member_activate_POST env))];
  file "settings/team-members/[id]/deactivate" [("POST", ById (member_deactivate_POST env))];
  file "settings/team-members/[id]/device-access" [("GET", ById (member_devices_GET env)); ("POST", ById (member_devices_POST env))];
  file "settings/team-members/[id]/device-access/[deviceId]" [("DELETE", ByTwo (member_device_DELETE env))];
  file "system-health/components" [("GET", Plain (health_components_GET env))];
  file "system-health/events" [("GET", Plain (health_events_GET env))];
  file "system-health/overview" [("GET", Plain (health_overview_GET env))];
  file "system-health/timeseries" [("GET", Plain (health_timeseries_GET env))];
  file "telemetry/activity" [("GET", Plain (telemetry_activity_GET env))];
  file "telemetry/devices/[deviceId]/history" [("GET", ById (telemetry_history_GET env))];
  file "telemetry/devices/[deviceId]/latest" [("GET", ById (telemetry_latest_GET env))];
  file "telemetry/fleet/summary" [("GET", Plain (fleet_summary_GET env))];
  file "telemetry/fleet/timeseries" [("GET", Plain (fleet_timeseries_GET env))];
  file "webhooks/deliveries" [("GET", Plain (deliveries_GET env))];
  file "webhooks/deliveries/[deliveryId]/replay" [("POST", ById (delivery_replay_POST env))];
  file "webhooks/endpoints" [("GET", Plain (endpoints_GET env)); ("POST", Plain (endpoints_POST env))];
  file "webhooks/endpoints/[endpointId]" [("GET", ById (endpoint_GET env)); ("PATCH", ById (endpoint_PATCH env));
                                          ("DELETE", ById (endpoint_DELETE env))];
  file "webhooks/endpoints/[endpointId]/pause" [("POST", ById (endpoint_pause_POST env))];
  file "webhooks/endpoints/[endpointId]/resume" [("POST", ById (endpoint_resume_POST env))];
  file "webhooks/endpoints/[endpointId]/reveal-secret" [("GET", ById (endpoint_reveal_GET env))];
  file "webhooks/endpoints/[endpointId]/rotate-secret" [("POST", ById (endpoint_rotate_POST env))];
  file "webhooks/endpoints/[endpointId]/test" [("POST", ById (endpoint_test_POST env))];
  file "webhooks/inbound" [("GET", Plain (inbound_GET env))]].

Context (param : string -> string).

Definition called (e : Endpoint) (ids : list string) : option Handler :=
  match e, ids with
  | Plain h, [] => Some h
  | ById h, [a] => Some (h (param a))
  | ByTwo h, [a; b] => Some (h (param a) (param b))
  | _, _ => None
  end.

(** The segments of a path below /api. *)
Definition api_segments (path : string) : option (list string) :=
  match split "/" path with
  | root :: api :: segments => if (root === "") && (api === "api") then Some segments else None
  | _ => None
  end.

Definition handler_of (method path : string) : option Handler :=
  segments ← api_segments path;
  '(f, ids) ← find_file route_files segments;
  e ← own_get (exports f) method;
  called e ids.

(** ** Requests and answers *)

Context (https : bool) (host : string) (not_found crash : FetchResponse).

(** The request as the handler gets it. *)
Definition arriving (j : jar) (query : list (string * string)) (r : FetchRequest) : NextRequest :=
  {| req_cookies := j; req_headers := list_to_map (map (fun h => (toLowerCase h.1, h.2)) (f_headers r));
     req_protocol := if https then "https:" else "http:"; req_host := host; req_query := query;
     req_body := Some (f_body r ?? "") |}.

(** The program a request starts: none if the guard turns it away or there
    is no handler. *)
Definition serve (j : jar) (r : FetchRequest) : option (io NextResponse) :=
  '(path, query) ← read_url (f_url r);
  match Middleware.middleware {| Middleware.nextUrl := {| Middleware.pathname := path; Middleware.searchParams := query |};
                                 Middleware.cookies := j |} with
  | Middleware.next => h ← handler_of (f_method r) path; Some (h (arriving j query r))
  | _ => None
  end.

(** An answer of a handler as the page gets it. *)
Definition delivered (resp : NextResponse) : FetchResponse :=
  {| status := res_status resp; resp_headers := ∅;
     resp_body := match res_body resp with
                  | JsonBody v => stringify "" "" v
                  | BinaryBody bytes => Some bytes
                  | RedirectTo _ => None
                  end |}.

(** The site answers a request by running its handler against the control
    plane; the browser keeps the cookies of the answer. *)
#[export] Instance site {S} {up : Upstream S} : Upstream (S * jar) := fun '(st, j) r =>
  match serve j r with
  | None => ((st, j), Some not_found)
  | Some m =>
      let '(_, st', out) := run st m in
      match out with
      | Ok resp => ((st', apply_cookies https j (res_cookies resp)), Some (delivered resp))
      | Exn _ => ((st', j), Some crash)
      end
  end.
End Deployed.
