(* ===== verification/Commands.v ===== *)
(** * Commands: names, parameters, results

    [Resolver] models src/lib/commandMethodResolver.ts, [Params]
    src/lib/commandParams.ts and [Results] src/lib/commandResults.ts. *)

From S2P Require Import Prelude JsNumber JsString JsValue.

Local Open Scope Z_scope.

(** ** Method names *)

Module Resolver.

Definition LEGACY_METHOD_ALIASES : obj :=
  map (fun kv => (kv.1, JStr kv.2))
  [("system-info", "collect_system_info");
   ("hardware-info", "collect_system_info");
   ("performance-metrics", "collect_system_info");
   ("uptime", "collect_system_info");
   ("screenshot-capture", "screenshot");
   ("display-info", "get_active_window");
   ("active-window", "get_active_window");
   ("filesystem", "list_files");
   ("download-file", "download_file");
   ("upload-file", "upload_file");
   ("create-file", "create_file");
   ("create-folder", "create_directory");
   ("create-directory", "create_directory");
   ("delete-file", "delete_file");
   ("delete-folder", "delete_directory");
   ("delete-directory", "delete_directory");
   ("kill-process", "kill_process");
   ("kill-process-tree", "kill_process_tree");
   ("process-list", "list_processes");
   ("network-info", "network_info");
   ("netstat", "list_connections");
   ("dns-lookup", "network_info");
   ("services-list", "list_services");
   ("mounts-list", "list_mounts");
   ("mount-list", "list_mounts");
   ("service-start", "start_service");
   ("service-stop", "stop_service");
   ("service-restart", "restart_service");
   ("event-logs", "collect_logs");
   ("security-logs", "collect_logs");
   ("application-logs", "collect_logs");
   ("users-list", "get_users");
   ("active-sessions", "list_sessions");
   ("power-info", "collect_system_info")].

(** The lookup reaches Object.prototype, so the result need not be a string. *)
Definition resolveCommandMethod (method : string) : jsval :=
  vnullish (get LEGACY_METHOD_ALIASES method) (JStr method).

(** [table[v]] with a resolved method as the key. *)
Definition index (table : obj) (v : jsval) : jsval :=
  match to_str v with Ok k => get table k | Exn _ => JUndef end.

(** The names that a lookup on any object finds. *)
Definition prototype_name (method : string) : bool :=
  match inherited method with JUndef => false | _ => true end.

Lemma alias_string method v :
  own_get LEGACY_METHOD_ALIASES method = Some v -> exists s, v = JStr s.
Proof.
  intros H%own_get_elem. unfold LEGACY_METHOD_ALIASES in H.
  apply in_map_iff in H as ([k s] & [= _ <-] & _). by exists s.
Qed.

Lemma resolve_cases method :
  (exists s, own_get LEGACY_METHOD_ALIASES method = Some (JStr s) /\
             resolveCommandMethod method = JStr s) \/
  (own_get LEGACY_METHOD_ALIASES method = None /\ prototype_name method = false /\
   resolveCommandMethod method = JStr method) \/
  (own_get LEGACY_METHOD_ALIASES method = None /\ prototype_name method = true /\
   resolveCommandMethod method = inherited method).
Proof.
  unfold resolveCommandMethod, get, prototype_name.
  destruct (own_get _ method) as [v|] eqn:E; cbn [nullish].
  - destruct (alias_string method v E) as [s ->]. left. by exists s.
  - right. unfold inherited. repeat case_match; simplify_eq; auto.
Qed.

(** No target of an alias is an alias or an inherited name. *)
Lemma alias_targets_final method s :
  own_get LEGACY_METHOD_ALIASES method = Some (JStr s) -> resolveCommandMethod s = JStr s.
Proof.
  intros H%own_get_elem. unfold LEGACY_METHOD_ALIASES in H. cbn [map fst snd] in H. cbn [In] in H.
  repeat (destruct H as [H|H]; [by injection H as <- <-|]). done.
Qed.

(** Resolution settles in one step: it yields a method name exactly for
    the names that no object inherits, aliases lead to current names, and
    resolving a resolved name changes nothing. *)
Theorem resolve_settles method :
  match resolveCommandMethod method with
  | JStr s => prototype_name method = false /\ resolveCommandMethod s = JStr s
  | v => prototype_name method = true /\ v = inherited method
  end.
Proof.
  destruct (resolve_cases method) as [(s & H & ->)|[(H & Hp & ->)|(H & Hp & ->)]].
  - split; [|by eapply alias_targets_final].
    apply own_get_elem in H. unfold LEGACY_METHOD_ALIASES in H. cbn [map fst snd In] in H.
    repeat (destruct H as [H|H]; [by injection H as <- _|]). done.
  - split; [done|]. destruct (resolve_cases method) as [(? & ? & ?)|[(_ & _ & Hr)|(_ & ? & _)]]; congruence.
  - unfold prototype_name, inherited in *. by repeat case_match.
Qed.
End Resolver.

(** ** Parameters *)

Module Params.
Import Resolver.

Definition number (z : Z) : jsval := JNum (Num.of_Z z).

Definition COMMAND_PARAM_TEMPLATES : obj :=
  map (fun kv => (kv.1, JObj kv.2))
  [("download_file", [("path", JStr "C:\ProgramData\Quoodle\device_id"); ("max_bytes", number 4096)]);
   ("upload_file", [("artifact_id", JStr "<artifact-id>");
                    ("destination", JStr "C:\Users\Public\uploaded.bin"); ("overwrite", JBool true)]);
   ("create_directory", [("path", JStr "C:\Users\Public\quoodle_test"); ("recursive", JBool true)]);
   ("create_file", [("path", JStr "C:\Users\Public\quoodle_test\note.txt"); ("overwrite", JBool true)]);
   ("delete_file", [("path", JStr "C:\Users\Public\quoodle_test\note.txt"); ("confirm", JBool true)]);
   ("delete_directory", [("path", JStr "C:\Users\Public\quoodle_test"); ("confirm", JBool true)]);
   ("kill_process", [("pid", number 1234)]);
   ("kill_process_tree", [("pid", number 1234)])].

Definition COMMAND_REQUIRED_PARAM_HINTS : obj :=
  map (fun kv => (kv.1, JStr kv.2))
  [("download_file", "Required: path");
   ("upload_file", "Required: artifact_id, destination");
   ("create_directory", "Required: path");
   ("create_file", "Required: path");
   ("delete_file", "Required: path, confirm=true");
   ("delete_directory", "Required: path, confirm=true");
   ("kill_process", "Required: pid");
   ("kill_process_tree", "Required: pid")].

Definition isAcceptedValue (value : jsval) : bool :=
  match value with
  | JBool b => b
  | JNum n => Num.eqb n (Num.of_Z 1)
  | JStr s =>
      let normalized := toLowerCase (trim s) in
      (normalized === "1") || (normalized === "true") || (normalized === "yes") || (normalized === "on")
  | _ => false
  end.

Definition positive_integer (n : num) : bool := Num.is_integer n && Num.gt n Num.zero.

Definition parsePositiveInteger (value : jsval) : option num :=
  match value with
  | JNum n => if positive_integer n then Some n else None
  | JStr s =>
      if trim s !== "" then
        let parsed := number_of_string s in
        if positive_integer parsed then Some parsed else None
      else None
  | _ => None
  end.

Definition defaultParamsForCommand (method : string) : jsval :=
  vnullish (index COMMAND_PARAM_TEMPLATES (resolveCommandMethod method)) (JObj []).

Definition requiredParamsHintForCommand (method : string) : jsval :=
  vnullish (index COMMAND_REQUIRED_PARAM_HINTS (resolveCommandMethod method)) JNull.

(** [typeof params.k === 'string' ? params.k.trim() : ''] *)
Definition trimmed_param (params : obj) (k : string) : string :=
  match get params k with JStr s => trim s | _ => "" end.

(** The message of the first violated requirement, if any. *)
Definition validateCommandParams (method : string) (params : obj) : option string :=
  let path := trimmed_param params "path" in
  match resolveCommandMethod method with
  | JStr resolved =>
      if (resolved === "download_file") || (resolved === "create_directory")
         || (resolved === "create_file") then
        if negb (truthy_str path) then Some "Missing required field: path" else None
      else if resolved === "upload_file" then
        let artifactId := trimmed_param params "artifact_id" in
        let destination := trimmed_param params "destination" in
        if negb (truthy_str artifactId) then Some "Missing required field: artifact_id"
        else if negb (truthy_str destination) then Some "Missing required field: destination"
        else None
      else if (resolved === "delete_file") || (resolved === "delete_directory") then
        if negb (truthy_str path) then Some "Missing required field: path"
        else if negb (isAcceptedValue (get params "confirm"))
        then Some "Missing required field: confirm=true"
        else None
      else if (resolved === "kill_process") || (resolved === "kill_process_tree") then
        match parsePositiveInteger (get params "pid") with
        | None => Some "Missing/invalid required field: pid (integer >= 2)"
        | Some pid => if Num.lt pid (Num.of_Z 2)
                      then Some "Missing/invalid required field: pid (integer >= 2)" else None
        end
      else None
  | _ => None
  end.

(** What each command needs, by its current name. *)
Definition nonblank (params : obj) (k : string) : Prop :=
  exists s, get params k = JStr s /\ trim s <> "".

(** An integer of at least two, as a number or in decimal. *)
Definition safe_pid (v : jsval) : Prop :=
  exists n, Num.is_integer n = true /\ Num.le (Num.of_Z 2) n = true /\
    (v = JNum n \/ exists s, v = JStr s /\ trim s <> "" /\ number_of_string s = n).

(** [resolved] is one of the listed commands. *)
Definition one_of (l : list string) (resolved : string) : bool := existsb (String.eqb resolved) l.

Definition requirements (resolved : string) (params : obj) : Prop :=
  (one_of ["download_file"; "create_directory"; "create_file"; "delete_file"; "delete_directory"]
     resolved = true -> nonblank params "path") /\
  (one_of ["delete_file"; "delete_directory"] resolved = true ->
   isAcceptedValue (get params "confirm") = true) /\
  (one_of ["upload_file"] resolved = true ->
   nonblank params "artifact_id" /\ nonblank params "destination") /\
  (one_of ["kill_process"; "kill_process_tree"] resolved = true -> safe_pid (get params "pid")).

Lemma trimmed_nonblank params k : truthy_str (trimmed_param params k) = true <-> nonblank params k.
Proof.
  unfold trimmed_param, nonblank. rewrite truthy_str_spec.
  destruct (get params k); split; try done; try (by intros (? & [=] & _)); [eauto|].
  by intros (? & [= ->] & ?).
Qed.

Lemma not_lt_le x y : Num.is_nan x = false -> Num.is_nan y = false ->
  Num.lt x y = negb (Num.le y x).
Proof.
  intros Hx Hy. unfold Num.lt, Num.le, SFltb, SFleb. rewrite (Num.compare_sym x y).
  by destruct (Num.compare_some x y Hx Hy) as [[] ->].
Qed.

Lemma integer_not_nan n : Num.is_integer n = true -> Num.is_nan n = false.
Proof. by destruct n. Qed.

(** Two is positive: the order of the numbers against the two constants. *)
Lemma ge_two_positive n : Num.le (Num.of_Z 2) n = true -> Num.gt n Num.zero = true.
Proof. by destruct n as [[]|[]| |[] m e]. Qed.

Lemma positive_pid n :
  positive_integer n && negb (Num.lt n (Num.of_Z 2)) = true <->
  Num.is_integer n = true /\ Num.le (Num.of_Z 2) n = true.
Proof.
  unfold positive_integer. rewrite !andb_true_iff, negb_true_iff. split.
  - intros [[Hi _] Hl]. split; [done|]. apply integer_not_nan in Hi as Hn.
    rewrite not_lt_le in Hl by (done || reflexivity). by apply negb_false_iff in Hl.
  - intros [Hi Hl]. apply integer_not_nan in Hi as Hn.
    rewrite not_lt_le by (done || reflexivity). by rewrite Hl, (ge_two_positive n Hl).
Qed.

Definition pid_message : string := "Missing/invalid required field: pid (integer >= 2)".

Lemma pid_number n :
  match (if positive_integer n then Some n else None) with
  | None => Some pid_message
  | Some pid => if Num.lt pid (Num.of_Z 2) then Some pid_message else None
  end = None <-> Num.is_integer n = true /\ Num.le (Num.of_Z 2) n = true.
Proof. rewrite <- positive_pid. by destruct (positive_integer n), (Num.lt n _). Qed.

Lemma pid_check v :
  match parsePositiveInteger v with
  | None => Some pid_message
  | Some pid => if Num.lt pid (Num.of_Z 2) then Some pid_message else None
  end = None <-> safe_pid v.
Proof.
  unfold safe_pid, parsePositiveInteger. destruct v as [| | |n|s| | |];
    try (split; [done|]; by intros (? & _ & _ & [[=]|(? & [=] & _)])).
  - rewrite pid_number. split; [naive_solver|].
    by intros (? & ? & ? & [[= ->]|(? & [=] & _)]).
  - destruct (String.eqb_spec (trim s) "") as [Ht|Ht]; cbn [negb].
    { split; [done|]. by intros (? & _ & _ & [[=]|(? & [= ->] & ? & _)]). }
    cbn zeta. rewrite pid_number. split; [naive_solver|].
    by intros (? & ? & ? & [[=]|(? & [= ->] & _ & <-)]).
Qed.

(** The eight commands that have requirements, and the others. *)
Lemma known_command r :
  In r ["download_file"; "create_directory"; "create_file"; "upload_file"; "delete_file";
        "delete_directory"; "kill_process"; "kill_process_tree"] \/
  one_of ["download_file"; "create_directory"; "create_file"; "upload_file"; "delete_file";
        "delete_directory"; "kill_process"; "kill_process_tree"] r = false.
Proof.
  unfold one_of. destruct (existsb _ _) eqn:E; [left|by right].
  apply existsb_exists in E as (x & Hx & ->%String.eqb_eq). exact Hx.
Qed.

Lemma message_unless (b : bool) (m : string) (rest : option string) :
  (if negb b then Some m else rest) = None <-> b = true /\ rest = None.
Proof. destruct b; cbn; naive_solver. Qed.

(** Validation accepts a command exactly when its requirements hold:
    a non-blank path for the file commands, an explicit confirmation for the
    two deletions, artifact and destination for an upload, and a process id
    that is an integer of at least 2 for the two kill commands. *)
Theorem validate_iff method params :
  validateCommandParams method params = None <->
  match resolveCommandMethod method with
  | JStr resolved => requirements resolved params
  | _ => True
  end.
Proof.
  unfold validateCommandParams. destruct (resolveCommandMethod method) as [| | | |r| | |]; try done.
  unfold requirements. destruct (known_command r) as [H|H].
  - cbn [In] in H.
    repeat (destruct H as [<-|H]);
      cbn -[isAcceptedValue get trimmed_param truthy_str parsePositiveInteger Num.lt Num.of_Z];
      [..|done]; rewrite ?message_unless, ?trimmed_nonblank, ?pid_check; naive_solver.
  - unfold one_of in *. cbn [existsb] in *.
    repeat (apply orb_false_iff in H as [? H]).
    repeat match goal with E : String.eqb _ _ = false |- _ => rewrite E; clear E end.
    cbn. naive_solver.
Qed.

Lemma inherited_not_string k s : inherited k <> JStr s.
Proof. unfold inherited. by repeat case_match. Qed.

Lemma resolved_plain method r : resolveCommandMethod method = JStr r -> inherited r = JUndef.
Proof.
  intros H. assert (resolveCommandMethod r = JStr r) as Hr.
  { destruct (resolve_cases method) as [(s & Ho & Hs)|[(_ & _ & Hs)|(_ & _ & Hs)]].
    - rewrite Hs in H. injection H as <-. by eapply alias_targets_final.
    - rewrite Hs in H. by injection H as <-.
    - rewrite Hs in H. by apply inherited_not_string in H. }
  assert (prototype_name r = false) as Hp.
  { destruct (resolve_cases r) as [(s & Ho & _)|[(_ & Hp & _)|(_ & _ & Hs)]]; [|done|].
    - apply own_get_elem in Ho. unfold LEGACY_METHOD_ALIASES in Ho. cbn [map fst snd In] in Ho.
      repeat (destruct Ho as [Ho|Ho]; [by injection Ho as <- _|]). done.
    - rewrite Hs in Hr. by apply inherited_not_string in Hr. }
  unfold prototype_name in Hp. by destruct (inherited r).
Qed.

(** The form's defaults are never refused: for every method, known or
    not, the template offered for it is an object that passes validation. *)
Theorem defaults_validate method :
  exists params, defaultParamsForCommand method = JObj params /\
    validateCommandParams method params = None.
Proof.
  destruct (resolve_cases method) as [(r & _ & Hr)|[(_ & _ & Hr)|(_ & Hp & Hr)]];
    unfold defaultParamsForCommand, validateCommandParams; rewrite Hr.
  3: { exists []. revert Hp. unfold prototype_name, inherited, object_prototype_methods.
       cbn [existsb].
       repeat match goal with |- context [String.eqb method ?x] =>
         destruct (String.eqb_spec method x) as [->|_];
           [intros _; split; vm_compute; reflexivity|cbn [orb]]
       end. done. }
  all: pose proof (resolved_plain _ _ Hr) as Hi; set (name := JStr _) in *;
    match goal with name := JStr ?r |- _ => unfold name; destruct (known_command r) as [H|H] end.
  1, 3: cbn [In] in H; repeat (destruct H as [<-|H]; [eexists; split; reflexivity|]); done.
  all: exists []; unfold one_of in H; cbn [existsb] in H;
    repeat (apply orb_false_iff in H as [? H]); unfold index, COMMAND_PARAM_TEMPLATES, get; cbn [map fst snd to_str own_get];
    repeat match goal with E : String.eqb _ _ = false |- _ => rewrite E; clear E end;
    by rewrite Hi.
Qed.
End Params.

(** ** Results *)

Module Results.

Inductive CommandState :=
| queued | dispatched | ack_received | executing | completed | failed | expired | rejected.

Definition state_str (s : CommandState) : string :=
  match s with
  | queued => "queued" | dispatched => "dispatched" | ack_received => "ack_received"
  | executing => "executing" | completed => "completed" | failed => "failed"
  | expired => "expired" | rejected => "rejected"
  end.

Inductive CommandOriginChannel := control_ui | mobile_app | api | schedule | system | unknown_channel.

Definition channel_str (c : CommandOriginChannel) : string :=
  match c with
  | control_ui => "control_ui" | mobile_app => "mobile_app" | api => "api"
  | schedule => "schedule" | system => "system" | unknown_channel => "unknown"
  end.

(** [number | string] *)
Inductive NumberOrString := ANumber (n : num) | AString (s : string).

(** A row of the list endpoint; a missing field and null are both [None].
    [result] is not trusted to be an object, so it stays a value. *)
Record CommandListRowApi := {
  command_id : option string;
  device_id : option string;
  device_name : option string;
  method : option string;
  params : option obj;
  state : option string;
  execution_state : option string;
  queued_at : option string;
  dispatched_at : option string;
  completed_at : option string;
  trace_id : option string;
  result : jsval;
  result_status : option string;
  result_notes : option string;
  artifact_url : option string;
  artifact_checksum : option string;
  error_code : option NumberOrString;
  error_message : option string;
  reason : option string;
  actor_email : option string;
  origin_channel : option string;
  origin_session_id : option string;
  origin_mobile_device_id : option string;
}.

Record NormalizedCommandResult := {
  id : string;
  commandId : string;
  deviceId : string;
  deviceName : string;
  nMethod : string;
  nParams : obj;
  nState : CommandState;
  executionState : option string;
  queuedAt : option string;
  dispatchedAt : option string;
  completedAt : option string;
  traceId : option string;
  actorEmail : string;
  originChannel : CommandOriginChannel;
  originSessionId : option string;
  originMobileDeviceId : option string;
  nResult : option obj;
  resultStatus : option string;
  resultNotes : option string;
  artifactUrl : option string;
  artifactChecksum : option string;
  errorCode : option num;
  errorMessage : option string;
  nReason : option string;
}.

Definition normalizeCommandState (value : option string) : CommandState :=
  let normalized := toLowerCase (trim (value ?? "")) in
  if normalized === "queued" then queued
  else if normalized === "dispatched" then dispatched
  else if normalized === "ack_received" then ack_received
  else if normalized === "executing" then executing
  else if normalized === "completed" then completed
  else if normalized === "failed" then failed
  else if normalized === "expired" then expired
  else if normalized === "rejected" then rejected
  else queued.

Definition normalizeResultObject (result : jsval) : option obj := as_object result.

Definition toNumber (value : option NumberOrString) : option num :=
  match value with
  | Some (ANumber n) => if Num.is_finite n then Some n else None
  | Some (AString s) =>
      if trim s !== "" then
        let parsed := number_of_string s in
        if Num.is_finite parsed then Some parsed else None
      else None
  | None => None
  end.

(** The first capture of [/\/api\/artifact\/([^\/?#]+)/i] in a path. *)
Definition in_segment (c : ascii) : bool := negb (existsb (Ascii.eqb c) ["/"; "?"; "#"]%char).

Fixpoint artifact_segment (path : string) : option string :=
  let here :=
    if startsWith (toLowerCase path) "/api/artifact/" then
      let seg := (span in_segment (sdrop 14 path)).1 in
      if truthy_str seg then Some seg else None
    else None in
  match here with
  | Some seg => Some seg
  | None => match path with "" => None | String _ path => artifact_segment path end
  end.

Definition normalizeOriginChannel (value : option string) : CommandOriginChannel :=
  let normalized := toLowerCase (trim (value ?? "")) in
  if normalized === "control_ui" then control_ui
  else if normalized === "mobile_app" then mobile_app
  else if normalized === "api" then api
  else if normalized === "schedule" then schedule
  else if normalized === "system" then system
  else unknown_channel.

Definition originChannelLabel (value : CommandOriginChannel) : string :=
  match value with
  | control_ui => "Control UI"
  | mobile_app => "Mobile App"
  | api => "API"
  | schedule => "Scheduler"
  | system => "System"
  | unknown_channel => "Unknown"
  end.

(** [value?.trim() || d] for a string and for null. *)
Definition trim_or (value : option string) (d : string) : string :=
  or_str (trim (value ?? "")) d.
Definition trim_or_null (value : option string) : option string :=
  let t := trim (value ?? "") in if truthy_str t then Some t else None.

(** [typeof result?.k === 'string' ? result.k : null] *)
Definition result_string (result : option obj) (k : string) : option string :=
  match result with Some o => as_string (get o k) | None => None end.

Section Url.
(** [new URL(raw).pathname], [None] when the constructor throws. *)
Context (url_pathname : string -> option string).

Definition normalizeArtifactUrl (value : option string) : option string :=
  match value with
  | None => None
  | Some value =>
      let raw := trim value in
      if negb (truthy_str raw) then None
      else if startsWith raw "/api/artifact/" then Some raw
      else match url_pathname raw ≫= artifact_segment with
           | Some seg => Some ("/api/artifact/" +:+ seg)
           | None => Some raw
           end
  end.

Definition mapCommandListRow (row : CommandListRowApi) : NormalizedCommandResult :=
  let result := normalizeResultObject (result row) in
  let commandId := trim_or (command_id row) "unknown" in
  let deviceId := trim_or (device_id row) "unknown" in
  {| id := commandId;
     commandId := commandId;
     deviceId := deviceId;
     deviceName := trim_or (device_name row) deviceId;
     nMethod := trim_or (method row) "unknown";
     nParams := params row ?? [];
     nState := normalizeCommandState (state row);
     executionState := trim_or_null (execution_state row);
     queuedAt := queued_at row;
     dispatchedAt := dispatched_at row;
     completedAt := completed_at row;
     traceId := trim_or_null (trace_id row);
     actorEmail := trim_or (actor_email row) "Unknown";
     originChannel := normalizeOriginChannel (origin_channel row);
     originSessionId := trim_or_null (origin_session_id row);
     originMobileDeviceId := trim_or_null (origin_mobile_device_id row);
     nResult := result;
     resultStatus := trim_or_null (result_status row) ??? result_string result "status";
     resultNotes := trim_or_null (result_notes row) ??? result_string result "notes";
     artifactUrl := normalizeArtifactUrl (artifact_url row)
                    ??? normalizeArtifactUrl (result_string result "artifact_url");
     artifactChecksum := trim_or_null (artifact_checksum row)
                         ??? result_string result "artifact_checksum";
     errorCode := toNumber (error_code row);
     errorMessage := trim_or_null (error_message row);
     nReason := trim_or_null (reason row) |}.

(** The fields of [detail], each falling back to the base row's. *)
Definition merged_row (base : NormalizedCommandResult) (detail : CommandListRowApi) : CommandListRowApi :=
  {| command_id := Some (command_id detail ?? commandId base);
     device_id := Some (device_id detail ?? deviceId base);
     device_name := Some (device_name detail ?? deviceName base);
     method := Some (method detail ?? nMethod base);
     params := Some (params detail ?? nParams base);
     state := Some (state detail ?? state_str (nState base));
     execution_state := execution_state detail ??? executionState base;
     queued_at := queued_at detail ??? queuedAt base;
     dispatched_at := dispatched_at detail ??? dispatchedAt base;
     completed_at := completed_at detail ??? completedAt base;
     trace_id := trace_id detail ??? traceId base;
     result := vnullish (result detail)
                 (match nResult base with Some o => JObj o | None => JNull end);
     result_status := result_status detail ??? resultStatus base;
     result_notes := result_notes detail ??? resultNotes base;
     artifact_url := artifact_url detail ??? artifactUrl base;
     artifact_checksum := artifact_checksum detail ??? artifactChecksum base;
     error_code := error_code detail ??? (ANumber <$> errorCode base);
     error_message := error_message detail ??? errorMessage base;
     reason := reason detail ??? nReason base;
     actor_email := Some (actor_email detail ?? actorEmail base);
     origin_channel := Some (origin_channel detail ?? channel_str (originChannel base));
     origin_session_id := origin_session_id detail ??? originSessionId base;
     origin_mobile_device_id := origin_mobile_device_id detail ??? originMobileDeviceId base |}.

Definition with_id (i : string) (r : NormalizedCommandResult) : NormalizedCommandResult :=
  {| id := i; commandId := commandId r; deviceId := deviceId r; deviceName := deviceName r;
     nMethod := nMethod r; nParams := nParams r; nState := nState r;
     executionState := executionState r; queuedAt := queuedAt r; dispatchedAt := dispatchedAt r;
     completedAt := completedAt r; traceId := traceId r; actorEmail := actorEmail r;
     originChannel := originChannel r; originSessionId := originSessionId r;
     originMobileDeviceId := originMobileDeviceId r; nResult := nResult r;
     resultStatus := resultStatus r; resultNotes := resultNotes r; artifactUrl := artifactUrl r;
     artifactChecksum := artifactChecksum r; errorCode := errorCode r;
     errorMessage := errorMessage r; nReason := nReason r |}.

Definition mergeCommandDetail (base : NormalizedCommandResult) (detail : CommandListRowApi)
    : NormalizedCommandResult :=
  with_id (id base) (mapCommandListRow (merged_row base detail)).

Definition extractResultData (row : NormalizedCommandResult) : jsval :=
  match nResult row with
  | None => JNull
  | Some o => match get o "data" with JUndef => JNull | v => v end
  end.

Definition nonblank_text (v : jsval) : option string :=
  match v with JStr s => if trim s !== "" then Some s else None | _ => None end.

Definition extractOutputText (row : NormalizedCommandResult) : string :=
  match nResult row with
  | None => ""
  | Some o => nonblank_text (get o "output_text") ?? nonblank_text (get o "notes") ?? ""
  end.

Definition or_null (o : option string) : jsval := match o with Some s => JStr s | None => JNull end.

Definition toRawResultJson (row : NormalizedCommandResult) : string :=
  json_text_indented
    [("command_id", JStr (commandId row));
     ("device_id", JStr (deviceId row));
     ("method", JStr (nMethod row));
     ("state", JStr (state_str (nState row)));
     ("execution_state", or_null (executionState row));
     ("queued_at", or_null (queuedAt row));
     ("dispatched_at", or_null (dispatchedAt row));
     ("completed_at", or_null (completedAt row));
     ("trace_id", or_null (traceId row));
     ("actor_email", JStr (actorEmail row));
     ("origin_channel", JStr (channel_str (originChannel row)));
     ("origin_session_id", or_null (originSessionId row));
     ("origin_mobile_device_id", or_null (originMobileDeviceId row));
     ("result", match nResult row with Some o => JObj o | None => JNull end);
     ("error_code", match errorCode row with Some n => JNum n | None => JNull end);
     ("error_message", or_null (errorMessage row));
     ("reason", or_null (nReason row))].

Definition resultPreview (row : NormalizedCommandResult) : string :=
  or_str (resultNotes row ?? "")
  (or_str (errorMessage row ?? "")
  (or_str (nReason row ?? "")
  (or_str (resultStatus row ?? "")
     (match errorCode row with
      | None => "No data available"
      | Some n => "error " +:+ Num.to_string n
      end)))).

Definition isTerminalState (s : CommandState) : bool :=
  match s with completed | failed | expired | rejected => true | _ => false end.

(** *** Normal forms *)

Lemma state_roundtrip s : normalizeCommandState (Some (state_str s)) = s.
Proof. by destruct s. Qed.

Lemma channel_roundtrip c : normalizeOriginChannel (Some (channel_str c)) = c.
Proof. by destruct c. Qed.

Lemma trim_or_tidy v d : tidy d -> tidy (trim_or v d).
Proof. intros Hd. unfold trim_or, or_str. case_match; [by apply tidy_trim|done]. Qed.

Lemma trim_or_null_tidy v s : trim_or_null v = Some s -> tidy s.
Proof. unfold trim_or_null. case_match; [|done]. intros [= <-]. by apply tidy_trim. Qed.

Lemma trim_or_fix s d : tidy s -> trim_or (Some s) d = s.
Proof.
  intros [Ht Hs%truthy_str_spec]. unfold trim_or, or_str. cbn [nullish]. by rewrite Ht, Hs.
Qed.

Lemma trim_or_null_fix s : tidy s -> trim_or_null (Some s) = Some s.
Proof. intros [Ht Hs%truthy_str_spec]. unfold trim_or_null. cbn [nullish]. by rewrite Ht, Hs. Qed.

Lemma trim_or_null_idem v : trim_or_null (trim_or_null v) = trim_or_null v.
Proof.
  destruct (trim_or_null v) as [s|] eqn:E; [|done].
  by apply trim_or_null_fix, trim_or_null_tidy with v.
Qed.

(** What the detail row says about a field: nothing, or what the list said. *)
Definition agrees {A} (d v : option A) : Prop := d = None \/ d = v.

Lemma agrees_or {A} (f : option A -> option A) d v :
  agrees d v -> f (f v) = f v -> f (d ??? f v) = f v.
Proof. by intros [->| ->] Hf; [|destruct v]. Qed.

Lemma agrees_or_id {A} (d v : option A) : agrees d v -> d ??? v = v.
Proof. by intros [->| ->]; [|destruct v]. Qed.

Lemma agrees_trim_or d v t : tidy t -> agrees d v -> trim_or (Some (d ?? trim_or v t)) t = trim_or v t.
Proof.
  intros Ht [->| ->]; [|destruct v as [s|]]; cbn; auto using trim_or_fix, trim_or_tidy.
Qed.

Lemma toNumber_idem v : toNumber (ANumber <$> toNumber v) = toNumber v.
Proof.
  unfold toNumber at 2 3. destruct v as [[n|s]|]; [..|done]; repeat case_match; try done; cbn;
    by repeat case_match; simplify_eq.
Qed.

(** *** Artifact links *)

Lemma span_sforall p f s : sforall f s = true -> sforall f (span p s).1 = true.
Proof.
  induction s as [|c s IH]; [done|]. cbn. intros [Hc Hs]%andb_true_iff.
  destruct (p c); [|done]. specialize (IH Hs). destruct (span p s). cbn in *. by rewrite Hc.
Qed.

Lemma sdrop_sforall n f s : sforall f s = true -> sforall f (sdrop n s) = true.
Proof.
  revert s. induction n as [|n IH]; intros [|c s]; try done. cbn.
  intros [_ Hs]%andb_true_iff. by apply IH.
Qed.

Lemma artifact_segment_sforall f path seg :
  sforall f path = true -> artifact_segment path = Some seg -> sforall f seg = true.
Proof.
  induction path as [|c path IH]; intros Hf.
  - done.
  - cbn [artifact_segment]. case_match eqn:E.
    + intros [= <-]. repeat case_match; simplify_eq. by apply span_sforall, sdrop_sforall.
    + apply IH. cbn in Hf. by apply andb_true_iff in Hf as [_ ?].
Qed.

(** The path of a parsed URL holds no white space: the parser encodes it. *)
Hypothesis url_pathname_no_ws :
  forall raw p, url_pathname raw = Some p -> sforall not_ws p = true.

Lemma normalizeArtifactUrl_idem v :
  normalizeArtifactUrl (normalizeArtifactUrl v) = normalizeArtifactUrl v.
Proof.
  destruct v as [v|]; [|done]. unfold normalizeArtifactUrl at 2 3. cbn zeta.
  destruct (truthy_str (trim v)) eqn:Et; [|done]. cbn [negb].
  assert (forall r, r = trim v -> truthy_str r = true) as Hr by congruence.
  destruct (startsWith (trim v) "/api/artifact/") eqn:Es; unfold normalizeArtifactUrl; cbn zeta.
  - by rewrite trim_idem, Et, Es.
  - destruct (url_pathname (trim v)) as [p|] eqn:Ep; cbn [mbind option_bind].
    2: { by rewrite trim_idem, Et, Es, Ep. }
    destruct (artifact_segment p) as [seg|] eqn:Ea.
    + rewrite trim_no_ws; [|apply (artifact_segment_sforall not_ws _ _ (url_pathname_no_ws _ _ Ep)) in Ea].
      * by rewrite startsWith_app.
      * by rewrite sforall_app, Ea.
    + rewrite trim_idem, Et, Es, Ep. cbn [negb mbind option_bind]. by rewrite Ea.
Qed.

(** A field that falls back to the result object. *)
Lemma layered (f : option string -> option string) d v r :
  agrees d v -> f None = None -> f (f v) = f v -> f r ??? r = r ->
  f (d ??? (f v ??? r)) ??? r = f v ??? r.
Proof.
  intros Hd Hn Hv Hr.
  assert (f (f v ??? r) ??? r = f v ??? r) as H.
  { destruct (f v) as [a|] eqn:E; cbn; [by rewrite Hv|done]. }
  destruct Hd as [->| ->]; [done|]. by destruct v.
Qed.

(** The texts of the result object carry no stray white space. *)
Definition tidy_result (row : CommandListRowApi) : Prop :=
  Forall (fun k => forall s, result_string (normalizeResultObject (result row)) k = Some s ->
                             trim s = s \/ trim s = "")
    ["status"; "notes"; "artifact_checksum"].

Lemma tidy_fallback r :
  (forall s, r = Some s -> trim s = s \/ trim s = "") -> trim_or_null r ??? r = r.
Proof.
  destruct r as [s|]; [|done]. intros H. unfold trim_or_null. cbn [nullish].
  destruct (truthy_str (trim s)) eqn:E; [|done].
  destruct (H s eq_refl) as [-> |Hs]; [done|]. by rewrite Hs in E.
Qed.

(** [detail] says nothing that the list row did not say. *)
Definition sub_row (detail row : CommandListRowApi) : Prop :=
  agrees (command_id detail) (command_id row) /\ agrees (device_id detail) (device_id row) /\
  agrees (device_name detail) (device_name row) /\ agrees (method detail) (method row) /\
  agrees (params detail) (params row) /\ agrees (state detail) (state row) /\
  agrees (execution_state detail) (execution_state row) /\
  agrees (queued_at detail) (queued_at row) /\ agrees (dispatched_at detail) (dispatched_at row) /\
  agrees (completed_at detail) (completed_at row) /\ agrees (trace_id detail) (trace_id row) /\
  (is_nullish (result detail) = true \/ result detail = result row) /\
  agrees (result_status detail) (result_status row) /\
  agrees (result_notes detail) (result_notes row) /\
  agrees (artifact_url detail) (artifact_url row) /\
  agrees (artifact_checksum detail) (artifact_checksum row) /\
  agrees (error_code detail) (error_code row) /\ agrees (error_message detail) (error_message row) /\
  agrees (reason detail) (reason row) /\ agrees (actor_email detail) (actor_email row) /\
  agrees (origin_channel detail) (origin_channel row) /\
  agrees (origin_session_id detail) (origin_session_id row) /\
  agrees (origin_mobile_device_id detail) (origin_mobile_device_id row).

Lemma merged_result (d v : jsval) :
  is_nullish d = true \/ d = v ->
  as_object (vnullish d (match as_object v with Some o => JObj o | None => JNull end)) = as_object v.
Proof. unfold vnullish. intros [-> | ->]; [|case_match; [|done]]; by destruct v. Qed.

(** Merging a command's detail into its row loses and invents nothing:
    when the detail repeats what the list said, or says less, the merged row
    is the row itself (given that the texts inside the result object are
    trimmed). *)
Theorem merge_agreeing_detail row detail :
  tidy_result row -> sub_row detail row ->
  mergeCommandDetail (mapCommandListRow row) detail = mapCommandListRow row.
Proof.
  intros Ht Hs. unfold tidy_result in Ht. rewrite !Forall_cons_iff in Ht.
  destruct Ht as (Hst & Hno & Hck & _).
  destruct Hs as (H1&H2&H3&H4&H5&H6&H7&H8&H9&H10&H11&H12&H13&H14&H15&H16&H17&H18&H19&H20&H21&H22&H23).
  assert (tidy "unknown") as Hu by done. assert (tidy "Unknown") as HU by done.
  unfold mergeCommandDetail, with_id, mapCommandListRow. cbn -[trim_or trim_or_null nullish nullish_or
    normalizeCommandState normalizeOriginChannel toNumber normalizeArtifactUrl result_string].
  unfold normalizeResultObject in *. rewrite (merged_result _ _ H12).
  rewrite (agrees_trim_or _ _ _ Hu H1), (agrees_trim_or _ _ _ Hu H2), (agrees_trim_or _ _ _ Hu H4),
    (agrees_trim_or _ _ _ HU H20),
    (agrees_trim_or _ _ _ (trim_or_tidy (device_id row) _ Hu) H3),
    !(agrees_or trim_or_null) by (done || apply trim_or_null_idem).
  rewrite !agrees_or_id by done.
  rewrite !(layered trim_or_null) by (done || apply trim_or_null_idem || by apply tidy_fallback).
  rewrite (layered normalizeArtifactUrl _ _ _ H15) by
    (done || apply normalizeArtifactUrl_idem || (rewrite normalizeArtifactUrl_idem; by destruct (normalizeArtifactUrl _))).
  f_equal.
  - by destruct H5 as [->| ->]; destruct (params row).
  - destruct H6 as [->| ->]; [|destruct (state row)]; cbn -[normalizeCommandState]; auto using state_roundtrip.
  - destruct H21 as [->| ->]; [|destruct (origin_channel row)]; cbn -[normalizeOriginChannel];
      auto using channel_roundtrip.
  - destruct H17 as [->| ->]; [|destruct (error_code row)]; cbn -[toNumber]; auto using toNumber_idem.
Qed.

(** What the pages rely on when they show a row. *)
Definition displayable (r : NormalizedCommandResult) : Prop :=
  tidy (commandId r) /\ tidy (deviceId r) /\ tidy (deviceName r) /\ tidy (nMethod r) /\
  tidy (actorEmail r) /\ id r = commandId r /\
  (forall n, errorCode r = Some n -> Num.is_finite n = true) /\
  (forall u, artifactUrl r = Some u -> tidy u) /\
  resultPreview r <> "".

Lemma toNumber_finite v n : toNumber v = Some n -> Num.is_finite n = true.
Proof. unfold toNumber. intros H. by repeat case_match; simplify_eq. Qed.

Lemma normalizeArtifactUrl_tidy v u : normalizeArtifactUrl v = Some u -> tidy u.
Proof.
  intros H. pose proof (normalizeArtifactUrl_idem v) as Hi. rewrite H in Hi.
  assert (truthy_str u = true -> tidy u) as Hu.
  { intros Hne%truthy_str_spec. split; [|done]. destruct v as [v|]; [|done].
    unfold normalizeArtifactUrl in H. repeat case_match; simplify_eq; try apply trim_idem.
    apply trim_no_ws. rewrite sforall_app. cbn.
    match goal with E : _ ≫= _ = Some _ |- _ => apply bind_Some in E as (p & Ep & Ea) end.
    by apply (artifact_segment_sforall not_ws _ _ (url_pathname_no_ws _ _ Ep)) in Ea. }
  apply Hu. unfold normalizeArtifactUrl in Hi. destruct u; [done|done].
Qed.

(** Every row of the list endpoint, whatever is missing from it, maps
    to a row the pages can show: identifiers, names, method and actor are
    trimmed and non-empty, the id is the command id, an error code is a
    finite number, an artifact link is trimmed and non-empty, and the preview
    is never blank. *)
Theorem mapped_row_displayable row : displayable (mapCommandListRow row).
Proof.
  unfold displayable. cbn -[trim_or toNumber normalizeArtifactUrl resultPreview].
  assert (tidy (trim_or (device_id row) "unknown")) by (by apply trim_or_tidy).
  split_and!; auto using trim_or_tidy.
  - by apply trim_or_tidy.
  - by apply trim_or_tidy.
  - by apply trim_or_tidy.
  - intros n. apply toNumber_finite.
  - intros u. destruct (normalizeArtifactUrl (artifact_url row)) eqn:E; cbn -[normalizeArtifactUrl].
    + intros [= <-]. by eapply normalizeArtifactUrl_tidy.
    + apply normalizeArtifactUrl_tidy.
  - unfold resultPreview. repeat apply or_str_nonempty. by case_match.
Qed.
End Url.

(** The text of one artifact link and a parser that knows it. *)
Definition demo_pathname (raw : string) : option string :=
  if raw === "https://cp.example/api/artifact/7" then Some "/api/artifact/7" else None.

Lemma demo_pathname_no_ws raw p : demo_pathname raw = Some p -> sforall not_ws p = true.
Proof. unfold demo_pathname. case_match; [by intros [= <-]|done]. Qed.

Definition empty_row : CommandListRowApi :=
  {| command_id := None; device_id := None; device_name := None; method := None; params := None;
     state := None; execution_state := None; queued_at := None; dispatched_at := None;
     completed_at := None; trace_id := None; result := JUndef; result_status := None;
     result_notes := None; artifact_url := None; artifact_checksum := None; error_code := None;
     error_message := None; reason := None; actor_email := None; origin_channel := None;
     origin_session_id := None; origin_mobile_device_id := None |}.

Definition demo_row : CommandListRowApi :=
  {| command_id := Some " c1 "; device_id := Some "d1"; device_name := None;
     method := Some "screenshot"; params := None; state := Some "Completed";
     execution_state := None; queued_at := None; dispatched_at := None; completed_at := None;
     trace_id := None;
     result := JObj [("status", JStr "ok"); ("artifact_url", JStr "https://cp.example/api/artifact/7")];
     result_status := None; result_notes := None; artifact_url := None; artifact_checksum := None;
     error_code := Some (AString "0x10"); error_message := None; reason := None;
     actor_email := None; origin_channel := Some "API"; origin_session_id := None;
     origin_mobile_device_id := None |}.

Lemma merge_agreeing_detail_witness :
  artifactUrl (mapCommandListRow demo_pathname demo_row) = Some "/api/artifact/7" /\
  mergeCommandDetail demo_pathname (mapCommandListRow demo_pathname demo_row) empty_row
  = mapCommandListRow demo_pathname demo_row.
Proof.
  split; [reflexivity|]. apply merge_agreeing_detail.
  - exact demo_pathname_no_ws.
  - unfold tidy_result. rewrite !Forall_cons_iff. cbn. split_and!; try done. intros s [= <-]. by left.
  - unfold sub_row. split_and!; by left.
Defined.

Lemma mapped_row_displayable_witness : displayable (mapCommandListRow demo_pathname demo_row).
Proof. apply mapped_row_displayable. exact demo_pathname_no_ws. Defined.
End Results.
