(* ===== verification/RenderModel.v ===== *)
(** * Building blocks of the result renderer

    The first half of src/lib/resultRenderer.ts: the view model, the display
    of values, key/value blocks, tables, paths and file listings.  An optional
    field that is absent or null is [None].  The widget of a section is a
    constructor that carries the field the code sets with it. *)

From S2P Require Import Prelude JsNumber JsString JsValue Commands.
Import Resolver Results.

Local Open Scope Z_scope.

(** ** The view model *)

Record ResultShellMeta := {
  shell_commandId : string;
  shell_method : string;
  shell_state : CommandState;
  shell_status : option string;
  shell_deviceName : string;
  shell_actorEmail : string;
  shell_queuedAt : option string;
  shell_completedAt : option string;
  transport : option string;
  requestId : option string;
  kernelExecId : option string;
  kernelTimestamp : option string;
}.

Inductive Severity := s_info | s_warning | s_error.

Record ResultDiagnosticsItem := {
  severity : Severity;
  diag_field : option string;
  diag_reason : string;
  diag_message : string;
}.

Inductive Tone := t_default | t_success | t_warning | t_danger | t_info.

Record ResultHeroStat := { stat_label : string; stat_value : string; stat_tone : option Tone }.

Record ResultKeyValueItem := {
  kv_key : string;
  kv_label : string;
  kv_value : string;
  kv_isEmpty : bool;
}.

Record ResultTableDefinition := {
  columns : list string;
  rows : list (list (string * string));
}.

Record ResultArtifactDefinition := {
  art_url : option string;
  art_checksum : option string;
  art_contentType : option string;
}.

Inductive EntryType := e_directory | e_file | e_other.

Record ResultFilesystemEntry := {
  e_name : string;
  e_path : string;
  e_type : EntryType;
  e_parentPath : option string;
  e_size : option num;
  e_extension : option string;
  e_modifiedAt : option string;
  e_createdAt : option string;
  e_isHidden : bool;
  e_isSystem : bool;
  e_isSymlink : bool;
  e_targetPath : option string;
  e_downloadable : bool;
  e_downloadMethod : option string;
}.

Record ResultFilesystemDefinition := {
  fs_rootPath : string;
  fs_entries : list ResultFilesystemEntry;
  fs_recursive : bool;
  fs_maxDepth : option num;
  fs_partial : bool;
  fs_nextCursor : option string;
  fs_canDownload : bool;
  fs_downloadMethod : option string;
}.

(** [w_diagnostics] carries nothing: the section holds the very array that
    is [model.diagnostics], so it shows whatever that array becomes. *)
Inductive Widget :=
| w_stats (stats : list ResultHeroStat)
| w_kv (keyValues : list ResultKeyValueItem)
| w_table (table : ResultTableDefinition)
| w_log (logText : string)
| w_diagnostics
| w_artifact (artifact : ResultArtifactDefinition)
| w_filesystem (filesystem : ResultFilesystemDefinition).

Record ResultSectionDefinition := {
  sec_id : string;
  sec_title : string;
  widget : Widget;
  description : option string;
  collapsedByDefault : option bool;
  emptySummary : option string;
}.

Record ResultViewModel := {
  title : string;
  subtitle : string;
  commandMethod : string;
  shell : ResultShellMeta;
  hero : list ResultHeroStat;
  sections : list ResultSectionDefinition;
  diagnostics : list ResultDiagnosticsItem;
  rawJson : string;
  fallbackUsed : bool;
}.

Definition KNOWN_COLLECT_SECTIONS : list string :=
  ["identity"; "os"; "hardware"; "runtime"; "storage"; "network"; "security"].

Definition methodTitleMap : obj :=
  map (fun kv => (kv.1, JStr kv.2))
  [("collect_system_info", "System Snapshot");
   ("ping", "Ping Result");
   ("list_processes", "Process Inventory");
   ("list_services", "Service Inventory");
   ("list_connections", "Connection Inventory");
   ("list_mounts", "Mount Inventory");
   ("network_info", "Network Inventory");
   ("get_active_window", "Active Window");
   ("list_files", "Filesystem Browser");
   ("download_file", "File Download");
   ("upload_file", "File Upload");
   ("create_directory", "Create Directory");
   ("create_file", "Create File");
   ("delete_file", "Delete File");
   ("delete_directory", "Delete Directory");
   ("screenshot", "Screenshot Capture")].

(** [isObject(value) ? value : {}] *)
Definition object_or_empty (v : jsval) : obj := default [] (as_object v).

Definition isPrimitive (v : jsval) : bool :=
  match v with JUndef | JNull | JBool _ | JNum _ | JStr _ => true | _ => false end.

(** ** Labels and values *)

(** [.replace(/([a-z])([A-Z])/g, '$1 $2')] *)
Fixpoint split_camel (s : string) : string :=
  match s with
  | String a (String b _ as r) =>
      if is_lower a && is_upper b then String a (String " " (split_camel r))
      else String a (split_camel r)
  | _ => s
  end.

Definition capitalize (s : string) : string :=
  match s with "" => "" | String c r => upper_char c +:+ r end.

Definition toLabel (raw : string) : string :=
  let s := smap (fun c => if Ascii.eqb c "_" then " "%char else c) raw in
  capitalize (trim (replace_runs is_ws " " false (split_camel s))).

Definition toDisplayValue (value : jsval) : string :=
  match value with
  | JUndef | JNull => "Not collected"
  | JBool b => if b then "Yes" else "No"
  | JNum n => if Num.is_finite n then Num.to_string n else "Not collected"
  | JStr s => if trim s === "" then "Not collected" else s
  | JArr l => Num.to_string (Num.of_nat (length l)) +:+ " item(s)"
  | JObj o => Num.to_string (Num.of_nat (length (keys o))) +:+ " field(s)"
  | JFun f => function_text f
  end.

Definition nat_text (n : nat) : string := Num.to_string (Num.of_nat n).

Record EntriesBlock := {
  keyValues : list ResultKeyValueItem;
  hiddenCount : nat;
  total : nat;
}.

(** [value == null || value === ''] *)
Definition is_empty_value (v : jsval) : bool :=
  match v with JUndef | JNull => true | JStr s => s === "" | _ => false end.

Definition kv_item (key : string) (value : jsval) : ResultKeyValueItem :=
  {| kv_key := key; kv_label := toLabel key; kv_value := toDisplayValue value;
     kv_isEmpty := is_empty_value value |}.

Fixpoint entries_loop (hideNull : bool) (source : obj) (acc : EntriesBlock) : EntriesBlock :=
  match source with
  | [] => acc
  | (key, value) :: source =>
      entries_loop hideNull source
        (if hideNull && is_empty_value value then
           {| keyValues := keyValues acc; hiddenCount := S (hiddenCount acc); total := total acc |}
         else
           {| keyValues := keyValues acc ++ [kv_item key value];
              hiddenCount := hiddenCount acc; total := total acc |})
  end.

Definition objectEntries (source : obj) (hideNull : bool) : EntriesBlock :=
  entries_loop hideNull source
    {| keyValues := []; hiddenCount := 0; total := length (keys source) |}.

(** ** The model every renderer starts from *)

Definition extractStructuredData (row : NormalizedCommandResult) : jsval :=
  match nResult row with Some o => vnullish (get o "data") JNull | None => JNull end.

Definition buildShell (row : NormalizedCommandResult) (method : string) : ResultShellMeta :=
  let meta := o ← nResult row; as_object (get o "meta") in
  let text k := o ← meta; as_string (get o k) in
  {| shell_commandId := commandId row; shell_method := method; shell_state := nState row;
     shell_status := resultStatus row; shell_deviceName := deviceName row;
     shell_actorEmail := actorEmail row; shell_queuedAt := queuedAt row;
     shell_completedAt := completedAt row; transport := text "transport";
     requestId := text "request_id"; kernelExecId := text "kernel_exec_id";
     kernelTimestamp := text "kernel_timestamp" |}.

Definition buildBaseModel (row : NormalizedCommandResult) (method title : string) : ResultViewModel :=
  {| title := title; subtitle := resultPreview row; commandMethod := method;
     shell := buildShell row method; hero := []; sections := []; diagnostics := [];
     rawJson := toRawResultJson row; fallbackUsed := false |}.

Definition diag (sev : Severity) (reason message : string) : ResultDiagnosticsItem :=
  {| severity := sev; diag_field := None; diag_reason := reason; diag_message := message |}.

Definition buildDiagnosticsFromRow (row : NormalizedCommandResult) : list ResultDiagnosticsItem :=
  let reason := nReason row ?? "" in
  let errorMessage := errorMessage row ?? "" in
  (match nState row with
   | failed | rejected | expired =>
       [diag s_error (or_str reason (or_str errorMessage "command_failed"))
          (or_str errorMessage (or_str reason ("Command ended in " +:+ state_str (nState row))))]
   | _ => []
   end) ++
  (match errorCode row with
   | Some n => [diag s_warning "error_code" ("Error code " +:+ Num.to_string n)]
   | None => []
   end).

(** ** Payload readers *)

Definition objects_of (l : list jsval) : list obj := omap as_object l.

(** [Array.isArray(data) ? data : data.k], objects only. *)
Definition rows_of (k : string) (data : jsval) : list obj :=
  match data with
  | JArr l => objects_of l
  | JObj o => match get o k with JArr l => objects_of l | _ => [] end
  | _ => []
  end.

Definition normalizeProcessArray := rows_of "processes".
Definition normalizeServicesArray := rows_of "services".
Definition normalizeConnectionsArray := rows_of "connections".
Definition normalizeMountsArray := rows_of "mounts".
Definition normalizeNetworkAdaptersArray := rows_of "adapters".

(** [data.k] as an array of objects, for an object [data] only. *)
Definition field_rows (k : string) (data : jsval) : list obj :=
  match data with
  | JObj o => match get o k with JArr l => objects_of l | _ => [] end
  | _ => []
  end.
Definition normalizeTopTalkersArray := field_rows "top_talkers_by_connection_count".
Definition normalizeRoutesArray := field_rows "default_routes".

Definition field_object (k : string) (data : jsval) : obj :=
  match data with JObj o => object_or_empty (get o k) | _ => [] end.
Definition normalizeWifiPayload := field_object "wifi".
Definition normalizeVpnSummaryPayload := field_object "vpn_summary".

Definition field_array (data : jsval) (key : string) : list jsval :=
  match data with JObj o => default [] (as_array (get o key)) | _ => [] end.

Definition normalizeStringArrayField (data : jsval) (key : string) : list string :=
  List.filter truthy_str (map trim (omap as_string (field_array data key))).

Record SavedWifiProfile := { ssid : string; password : string }.

Definition no_password : string := "(no saved password or open network)".

Definition wifi_profile (row : jsval) : option SavedWifiProfile :=
  match row with
  | JStr s =>
      if truthy_str (trim s) then Some {| ssid := trim s; password := no_password |} else None
  | JObj o =>
      let ssid := trim (as_string (get o "ssid") ?? "") in
      if truthy_str ssid then
        Some {| ssid := ssid; password := or_str (trim (as_string (get o "password") ?? "")) no_password |}
      else None
  | _ => None
  end.

Definition normalizeSavedWifiProfilesField (data : jsval) (key : string) : list SavedWifiProfile :=
  omap wifi_profile (field_array data key).

Definition formatSavedWifiProfilesLog (profiles : list SavedWifiProfile) : string :=
  let head := "Saved Wi-Fi networks and passwords:" in
  match profiles with
  | [] => head +:+ newline +:+ newline +:+ "(no saved Wi-Fi profiles found)"
  | _ =>
      join newline (head :: "" :: List.concat (map (fun p =>
        ["SSID: " +:+ ssid p; "Password: " +:+ password p;
         "----------------------------------------"]) profiles))
  end.

Record SnapshotCounts := { count : num; totalSeen : option num }.

Definition whole_count (v : jsval) : option num :=
  match v with
  | JNum n => if Num.is_finite n then Some (Num.max Num.zero (Num.trunc n)) else None
  | _ => None
  end.

Definition readSnapshotCounts (data : jsval) : SnapshotCounts :=
  match data with
  | JObj o => {| count := whole_count (get o "count") ?? Num.zero;
                 totalSeen := whole_count (get o "total_seen") |}
  | _ => {| count := Num.zero; totalSeen := None |}
  end.

Definition normalizeActiveWindowPayload (data : jsval) : obj := object_or_empty data.
Definition normalizeFileEntriesArray := rows_of "entries".

(** The first candidate that holds a number, or a text that reads as one. *)
Definition numeric_metric (v : jsval) : option string :=
  match v with
  | JNum n => if Num.is_finite n then Some (Num.to_string n) else None
  | JStr s => if (trim s !== "") && negb (Num.is_nan (number_of_string s)) then Some s else None
  | _ => None
  end.

Fixpoint findNumericMetric (source : obj) (candidates : list string) : option string :=
  match candidates with
  | [] => None
  | key :: candidates =>
      match numeric_metric (get source key) with
      | Some t => Some t
      | None => findNumericMetric source candidates
      end
  end.

(** ** Paths *)

Definition is_separator (c : ascii) : bool := Ascii.eqb c "/" || Ascii.eqb c backslash.

Definition normalizePathSeparator (path : string) : string := replace_runs is_separator "/" false path.

Definition toCanonicalPath (path : string) : string :=
  let trimmed := trim path in
  if trimmed === "" then ""
  else
    let canonical := strip_end (Ascii.eqb "/") (normalizePathSeparator trimmed) in
    if canonical === "" then "/" else canonical.

Definition path_parts (path : string) : list string := List.filter truthy_str (split "/" path).

Definition parentPathOf (path : string) : option string :=
  let canonical := toCanonicalPath path in
  if negb (truthy_str canonical) || (canonical === "/") then None
  else
    let parts := path_parts canonical in
    if (length parts <=? 1)%nat then None else Some (join "/" (removelast parts)).

Definition parseBoolean (value : jsval) : bool :=
  match value with
  | JBool b => b
  | JNum n => Num.eqb n (Num.of_Z 1)
  | JStr s =>
      let normalized := toLowerCase (trim s) in
      (normalized === "true") || (normalized === "1") || (normalized === "yes")
  | _ => false
  end.

Definition parseOptionalNumber (value : jsval) : option num :=
  match value with
  | JNum n => if Num.is_finite n then Some n else None
  | JStr s =>
      if trim s !== "" then
        let parsed := number_of_string s in if Num.is_finite parsed then Some parsed else None
      else None
  | _ => None
  end.

Definition parseOptionalString (value : jsval) : option string :=
  match value with JStr s => if trim s === "" then None else Some (trim s) | _ => None end.

(** ** File listings *)

Definition fallback_name (canonicalPath : string) : string :=
  if canonicalPath === "" then "unknown" else List.last (path_parts canonicalPath) canonicalPath.

Definition entry_type (rawType : string) (dirHint fileHint : bool) (attrHints : list string) : EntryType :=
  let hasDirectoryAttribute := existsb (fun v => includes v "directory") attrHints in
  let hasFileAttribute := existsb (fun v => includes v "archive" || includes v "file") attrHints in
  if (rawType === "directory") || (rawType === "dir") || (rawType === "folder")
     || dirHint || hasDirectoryAttribute then e_directory
  else if (rawType === "file") || (rawType === "regular") || (rawType === "regular_file")
     || fileHint || hasFileAttribute then e_file
  else e_other.

(** [extension.replace(/^\./, '').toLowerCase()] *)
Definition normalized_extension (extension : string) : string :=
  toLowerCase (match extension with
               | String c r => if Ascii.eqb c "." then r else extension
               | "" => ""
               end).

Definition filesystem_entry (row : obj) : res ResultFilesystemEntry :=
  let rawPath := parseOptionalString (get row "path") ?? "" in
  let canonicalPath := toCanonicalPath rawPath in
  let rawName := parseOptionalString (get row "name") ?? fallback_name canonicalPath in
  let rawType := toLowerCase (parseOptionalString (get row "type")
                              ?? parseOptionalString (get row "entry_type") ?? "other") in
  let isDirectoryHint := parseBoolean (get row "is_directory") || parseBoolean (get row "is_dir")
    || parseBoolean (get row "directory") || parseBoolean (get row "is_folder") in
  let isFileHint := parseBoolean (get row "is_file") || parseBoolean (get row "file") in
  let! attrs := match get row "attributes" with JArr l => res_mapM to_str l | _ => Ok [] end in
  let attrHints := map toLowerCase attrs in
  Ok {| e_name := rawName;
        e_path := canonicalPath;
        e_type := entry_type rawType isDirectoryHint isFileHint attrHints;
        e_parentPath := parentPathOf canonicalPath;
        e_size := parseOptionalNumber (get row "size");
        e_extension := normalized_extension <$> parseOptionalString (get row "extension");
        e_modifiedAt := parseOptionalString (get row "modified_at");
        e_createdAt := parseOptionalString (get row "created_at");
        e_isHidden := parseBoolean (get row "is_hidden");
        e_isSystem := parseBoolean (get row "is_system");
        e_isSymlink := parseBoolean (get row "is_symlink");
        e_targetPath := parseOptionalString (get row "target_path");
        e_downloadable := parseBoolean (get row "downloadable");
        e_downloadMethod := parseOptionalString (get row "download_method") |}.

(** Stable sorting: an element goes behind those it does not come before.
    For a comparison that is a total preorder this is the one result that
    [Array.prototype.sort] may give. *)
Section Sort.
Context {A : Type} (before : A -> A -> bool).
Fixpoint insert_sorted (x : A) (l : list A) : list A :=
  match l with
  | [] => [x]
  | y :: l => if before y x then y :: insert_sorted x l else x :: y :: l
  end.
Definition stable_sort (l : list A) : list A := fold_right insert_sorted [] l.
End Sort.

Section Listing.
(** [a.localeCompare(b, undefined, { sensitivity: 'base' }) < 0] *)
Context (locale_before : string -> string -> bool).

Definition is_directory (e : ResultFilesystemEntry) : bool :=
  match e_type e with e_directory => true | _ => false end.

(** The comparator is negative: directories first, then by path. *)
Definition entry_before (a b : ResultFilesystemEntry) : bool :=
  if Bool.eqb (is_directory a) (is_directory b) then locale_before (e_path a) (e_path b)
  else is_directory a.

Definition normalizeFilesystemEntries (rows : list obj) : res (list ResultFilesystemEntry) :=
  let! mapped := res_mapM filesystem_entry rows in
  Ok (stable_sort entry_before (List.filter (fun e => e_path e !== "") mapped)).
End Listing.

(** ** Tables *)

Definition preferred_columns : list string :=
  ["pid"; "name"; "cpu"; "memory"; "memory_mb"; "user"; "path"; "start_time"].

Definition includes_str (l : list string) (k : string) : bool := existsb (String.eqb k) l.

(** [set.add(k)]: insertion order, no duplicates. *)
Definition set_add (l : list string) (k : string) : list string :=
  if includes_str l k then l else l ++ [k].

Definition discovered_keys (rows : list obj) : list string :=
  fold_left (fun acc row => fold_left set_add (keys row) acc) rows [].

Definition ordered_columns (discovered : list string) : list string :=
  fold_left set_add discovered
    (List.filter (includes_str discovered) preferred_columns).

(** [mapped[k] = text] on a fresh object: the key [__proto__] reaches the
    inherited setter, which ignores a text. *)
Definition assign_text (o : list (string * string)) (k v : string) : list (string * string) :=
  if k === "__proto__" then o else put o k v.

Definition table_row (columns : list string) (index : nat) (row : obj) : list (string * string) :=
  fold_left (fun mapped column => assign_text mapped column (toDisplayValue (get row column)))
    columns [("__id", nat_text (index + 1))].

Definition buildProcessTable (rows : list obj) : ResultTableDefinition :=
  let columns := take 8 (ordered_columns (discovered_keys rows)) in
  {| columns := columns; rows := imap (table_row columns) (take 250 rows) |}.
