(* ===== verification/Renderer.v ===== *)
(** * The result renderer

    The second half of src/lib/resultRenderer.ts: one builder per command,
    the generic builder, the fallback and [renderResult].  A builder that may
    throw returns [res]. *)

From S2P Require Import Prelude JsNumber JsString JsValue Commands RenderModel.
Import Resolver Results.

Local Open Scope Z_scope.

(** ** Pieces the builders share *)

Definition stat (label value : string) (tone : option Tone) : ResultHeroStat :=
  {| stat_label := label; stat_value := value; stat_tone := tone |}.

(** A section without description and collapsing. *)
Definition section (id title : string) (w : Widget) (empty : option string) : ResultSectionDefinition :=
  {| sec_id := id; sec_title := title; widget := w; description := None;
     collapsedByDefault := None; emptySummary := empty |}.

Definition described (d : option string) (s : ResultSectionDefinition) : ResultSectionDefinition :=
  {| sec_id := sec_id s; sec_title := sec_title s; widget := widget s; description := d;
     collapsedByDefault := collapsedByDefault s; emptySummary := emptySummary s |}.

Definition collapsed (b : bool) (s : ResultSectionDefinition) : ResultSectionDefinition :=
  {| sec_id := sec_id s; sec_title := sec_title s; widget := widget s; description := description s;
     collapsedByDefault := Some b; emptySummary := emptySummary s |}.

(** [l.length === 0 ? text : null] *)
Definition if_empty {A} (l : list A) (text : string) : option string :=
  match l with [] => Some text | _ => None end.

Definition when (b : bool) (text : string) : option string := if b then Some text else None.

Definition overview (stats : list ResultHeroStat) : ResultSectionDefinition :=
  section "overview" "Overview" (w_stats stats) None.

Definition diagnostics_section (ds : list ResultDiagnosticsItem) : ResultSectionDefinition :=
  section "diagnostics" "Diagnostics" w_diagnostics (if_empty ds "No diagnostics reported").

(** The base model with its hero, sections and diagnostics filled in. *)
Definition filled (m : ResultViewModel) (h : list ResultHeroStat)
    (ss : list ResultSectionDefinition) (ds : list ResultDiagnosticsItem) : ResultViewModel :=
  {| title := title m; subtitle := subtitle m; commandMethod := commandMethod m;
     shell := shell m; hero := h; sections := ss; diagnostics := ds;
     rawJson := rawJson m; fallbackUsed := fallbackUsed m |}.

Definition title_of (method : string) : string := as_string (get methodTitleMap method) ?? "".

Definition base (row : NormalizedCommandResult) (method : string) : ResultViewModel :=
  buildBaseModel row method (title_of method).

(** [String(row.state)] in a label, and the two tones it may have. *)
Definition state_label (row : NormalizedCommandResult) : string := toLabel (state_str (nState row)).
Definition done_tone (row : NormalizedCommandResult) : Tone :=
  match nState row with completed => t_success | _ => t_warning end.
Definition state_tone (row : NormalizedCommandResult) : Tone :=
  match nState row with completed => t_success | failed => t_danger | _ => t_info end.
Definition state_stat (row : NormalizedCommandResult) : ResultHeroStat :=
  stat "State" (state_label row) (Some (state_tone row)).

(** [toDisplayValue(row.resultStatus ?? row.state)] *)
Definition status_stat (row : NormalizedCommandResult) : ResultHeroStat :=
  stat "Status" (toDisplayValue (JStr (resultStatus row ?? state_str (nState row)))) (Some t_info).

(** ** collect_system_info *)

Definition collection_failure (item : obj) : ResultDiagnosticsItem :=
  let field := as_string (get item "field") in
  let reason := as_string (get item "reason") in
  {| severity := s_warning;
     diag_field := field;
     diag_reason := reason ?? "collection_failure";
     diag_message := match field with
                     | Some f => f +:+ ": " +:+ (reason ?? "collection_failure")
                     | None => reason ?? "Collection failure"
                     end |}.

Definition not_requested (sec : string) : ResultDiagnosticsItem :=
  {| severity := s_info; diag_field := Some sec; diag_reason := "not_requested";
     diag_message := toLabel sec +:+ " was not requested in this snapshot" |}.

Definition string_items (v : jsval) : list string :=
  match v with JArr l => omap as_string l | _ => [] end.

(** [a ?? b ?? 'Unknown'] *)
Definition unknown : jsval := JStr "Unknown".

Definition buildCollectSystemInfo (row : NormalizedCommandResult) : ResultViewModel :=
  let payload := object_or_empty (extractStructuredData row) in
  let identity := object_or_empty (get payload "identity") in
  let os := object_or_empty (get payload "os") in
  let hardware := object_or_empty (get payload "hardware") in
  let runtime := object_or_empty (get payload "runtime") in
  let includedFields := string_items (get payload "included_fields") in
  let maskedFields := string_items (get payload "masked_fields") in
  let h :=
    [stat "OS" (toDisplayValue (vnullish (get os "product_name") unknown)) (Some t_info);
     stat "Version" (toDisplayValue (vnullish (get os "version") (vnullish (get os "build") unknown))) None;
     stat "CPU" (toDisplayValue (vnullish (get hardware "cpu_model") unknown)) None;
     stat "RAM" (toDisplayValue (vnullish (get hardware "ram_total_mb") unknown)) None;
     stat "Uptime" (toDisplayValue (vnullish (get runtime "uptime_sec") unknown)) None;
     stat "Kernel Mode" (toDisplayValue (vnullish (get payload "kernel_mode") (JBool false)))
       (Some t_success)] in
  let identityBlock := objectEntries identity true in
  let osBlock := objectEntries os true in
  let hardwareBlock := objectEntries hardware true in
  let runtimeBlock := objectEntries runtime true in
  let notIncluded := List.filter (fun s => negb (includes_str includedFields s)) KNOWN_COLLECT_SECTIONS in
  let failures := objects_of (default [] (as_array (get payload "collection_failures"))) in
  let sectionFailures :=
    map collection_failure failures ++ map not_requested notIncluded ++
    (match maskedFields with
     | [] => []
     | _ => [diag s_warning "masked_fields"
               (nat_text (length maskedFields) +:+ " field(s) were masked by policy")]
     end) in
  let ds := buildDiagnosticsFromRow row ++ sectionFailures in
  filled (base row "collect_system_info") h
    [described (Some ("Included sections: " +:+
        match includedFields with [] => "none" | _ => join ", " includedFields end)) (overview h);
     section "identity" "Identity" (w_kv (keyValues identityBlock))
       (if_empty (keyValues identityBlock) "No identity fields collected");
     section "os" "OS" (w_kv (keyValues osBlock))
       (if_empty (keyValues osBlock) "No OS fields collected");
     section "hardware" "Hardware" (w_kv (keyValues hardwareBlock))
       (when (0 <? hiddenCount hardwareBlock)%nat
          (nat_text (hiddenCount hardwareBlock) +:+ " field(s) not collected in this snapshot"));
     section "runtime" "Runtime" (w_kv (keyValues runtimeBlock))
       (if_empty (keyValues runtimeBlock) "No runtime fields collected");
     diagnostics_section ds] ds.

(** ** ping *)

Definition buildPing (row : NormalizedCommandResult) : ResultViewModel :=
  let payload := object_or_empty (extractStructuredData row) in
  let latency := findNumericMetric payload ["latency_ms"; "round_trip_ms"; "rtt_ms"; "duration_ms"] in
  let h :=
    [stat "State" (state_label row) (Some (done_tone row));
     stat "Status" (toDisplayValue (match resultStatus row with
                                    | Some s => JStr s
                                    | None => vnullish (get payload "status") unknown
                                    end)) None;
     stat "Latency" (match latency with
                     | Some l => if truthy_str l then l +:+ " ms" else "Unknown"
                     | None => "Unknown"
                     end) (Some t_info)] in
  let details := objectEntries payload true in
  let ds := buildDiagnosticsFromRow row in
  filled (base row "ping") h
    [overview h;
     section "details" "Details" (w_kv (keyValues details))
       (if_empty (keyValues details) "No ping details returned");
     diagnostics_section ds] ds.

(** ** Inventories *)

(** The shape of the process, service and mount inventories. *)
Definition inventory (row : NormalizedCommandResult) (method label id empty : string)
    (items : list obj) : ResultViewModel :=
  let h := [status_stat row; stat label (nat_text (length items)) (Some t_success)] in
  let ds := buildDiagnosticsFromRow row in
  filled (base row method) h
    [described (when (250 <? length items)%nat "Showing first 250 rows") (overview h);
     section id label (w_table (buildProcessTable items)) (if_empty items empty);
     diagnostics_section ds] ds.

Definition buildListProcesses (row : NormalizedCommandResult) : ResultViewModel :=
  inventory row "list_processes" "Processes" "processes" "No process rows were returned"
    (normalizeProcessArray (extractStructuredData row)).

Definition buildListServices (row : NormalizedCommandResult) : ResultViewModel :=
  inventory row "list_services" "Services" "services" "No service rows were returned"
    (normalizeServicesArray (extractStructuredData row)).

Definition buildListMounts (row : NormalizedCommandResult) : ResultViewModel :=
  inventory row "list_mounts" "Mounts" "mounts" "No mount rows were returned"
    (normalizeMountsArray (extractStructuredData row)).

(** [counts.totalSeen != null && counts.totalSeen > counts.count] *)
Definition truncated (c : SnapshotCounts) : bool :=
  match totalSeen c with Some t => Num.gt t (count c) | None => false end.

(** [String(counts.totalSeen)] *)
Definition total_text (c : SnapshotCounts) : string :=
  match totalSeen c with Some t => Num.to_string t | None => "null" end.

(** [String(counts.count || rows.length)] *)
Definition count_text {A} (c : SnapshotCounts) (items : list A) : string :=
  if Num.truthy (count c) then Num.to_string (count c) else nat_text (length items).

Definition truncation (c : SnapshotCounts) (message : string) : list ResultDiagnosticsItem :=
  if truncated c then [diag s_warning "truncated_to_limit" message] else [].

Definition buildListConnections (row : NormalizedCommandResult) : ResultViewModel :=
  let data := extractStructuredData row in
  let connections := normalizeConnectionsArray data in
  let topTalkers := normalizeTopTalkersArray data in
  let counts := readSnapshotCounts data in
  let shown := Num.to_string (count counts) in
  let h :=
    [status_stat row;
     stat "Connections" (count_text counts connections) (Some t_success);
     stat "Total Seen" (match totalSeen counts with
                        | None => "Not collected"
                        | Some t => Num.to_string t
                        end) (Some (if truncated counts then t_warning else t_default))] in
  let ds := buildDiagnosticsFromRow row ++
    truncation counts ("Showing " +:+ shown +:+ " connection rows from "
                       +:+ total_text counts +:+ " observed.") in
  filled (base row "list_connections") h
    [described (when (truncated counts)
        ("Bounded snapshot: showing " +:+ shown +:+ " of " +:+ total_text counts +:+ " rows."))
       (overview h);
     section "talkers" "Top Talkers" (w_table (buildProcessTable topTalkers))
       (if_empty topTalkers "No top-talker summary was returned");
     section "connections" "Connections" (w_table (buildProcessTable connections))
       (if_empty connections "No connection rows were returned");
     diagnostics_section ds] ds.

(** ** network_info *)

(** The Wi-Fi block: the agent's fields, then the derived ones over them. *)
Definition wifi_view (data : jsval) (wifi : obj) (savedProfiles : list SavedWifiProfile)
    (wifiRiskSignals : list string) : obj :=
  spread wifi
    [("saved_wifi_profile_count", JNum (Num.of_nat (length savedProfiles)));
     ("saved_wifi_profiles_preview", JStr (join ", " (map ssid (take 12 savedProfiles))));
     ("wifi_risk_signal_count", JNum (Num.of_nat (length wifiRiskSignals)));
     ("wifi_risk_signals", JStr (join ", " wifiRiskSignals));
     ("wifi_passwords_collected",
        match data with JObj o => get o "wifi_passwords_collected" | _ => JBool false end);
     ("saved_wifi_password_count",
        match data with JObj o => get o "saved_wifi_password_count" | _ => JNum Num.zero end)].

Definition buildNetworkInfo (row : NormalizedCommandResult) : ResultViewModel :=
  let data := extractStructuredData row in
  let adapters := normalizeNetworkAdaptersArray data in
  let routes := normalizeRoutesArray data in
  let wifi := normalizeWifiPayload data in
  let vpnSummary := normalizeVpnSummaryPayload data in
  let savedProfiles := normalizeSavedWifiProfilesField data "saved_wifi_profiles" in
  let wifiRiskSignals := normalizeStringArrayField data "wifi_risk_signals" in
  let wifiBlock := objectEntries (wifi_view data wifi savedProfiles wifiRiskSignals) true in
  let vpnBlock := objectEntries vpnSummary true in
  let counts := readSnapshotCounts data in
  let shown := Num.to_string (count counts) in
  let connected := is_true (get wifi "connected") in
  let detected := is_true (get vpnSummary "detected") in
  let h :=
    [status_stat row;
     stat "Adapters" (count_text counts adapters) (Some t_success);
     stat "Wi-Fi" (if connected then toDisplayValue (vnullish (get wifi "ssid") (JStr "Connected"))
                   else "Not connected") (Some (if connected then t_success else t_default));
     stat "VPN Candidate" (if detected then "Detected" else "Not detected")
       (Some (if detected then t_warning else t_success))] in
  let ds := buildDiagnosticsFromRow row ++
    truncation counts ("Showing " +:+ shown +:+ " adapters from " +:+ total_text counts
                       +:+ " observed.") in
  filled (base row "network_info") h
    [described (when (truncated counts)
        ("Bounded snapshot: showing " +:+ shown +:+ " of " +:+ total_text counts +:+ " adapters."))
       (overview h);
     section "interfaces" "Interfaces" (w_table (buildProcessTable adapters))
       (if_empty adapters "No adapter rows were returned");
     described (match wifiRiskSignals with
                | [] => None
                | _ => Some ("Risk signals: " +:+ join ", " wifiRiskSignals)
                end)
       (section "wifi" "Wi-Fi" (w_kv (keyValues wifiBlock))
          (if_empty (keyValues wifiBlock) "No Wi-Fi details were returned"));
     section "saved-wifi" "Saved Wi-Fi Networks" (w_log (formatSavedWifiProfilesLog savedProfiles)) None;
     described (match keyValues vpnBlock with
                | [] => None
                | kvs => Some (join " | " (map (fun i => kv_label i +:+ ": " +:+ kv_value i) kvs))
                end)
       (section "vpn-routes" "VPN & Routes" (w_table (buildProcessTable routes))
          (if_empty routes "No default route rows were returned"));
     diagnostics_section ds] ds.

(** ** Artifacts *)

Definition nonblank (o : option string) : option string :=
  match o with Some s => if trim s !== "" then Some s else None | None => None end.

(** The row's own link or checksum, else the one in the result object. *)
Definition artifact_url_of (row : NormalizedCommandResult) : option string :=
  nonblank (artifactUrl row) ??? nonblank (result_string (nResult row) "artifact_url").
Definition artifact_checksum_of (row : NormalizedCommandResult) : option string :=
  nonblank (artifactChecksum row) ??? nonblank (result_string (nResult row) "artifact_checksum").

Definition image_type (format : string) : string :=
  let f := toLowerCase format in
  if (f === "jpeg") || (f === "jpg") then "image/jpeg" else "image/png".

Definition artifact_section (title : string) (url checksum : option string) (contentType : string)
    : ResultSectionDefinition :=
  section "artifact" title
    (w_artifact {| art_url := url; art_checksum := checksum; art_contentType := Some contentType |})
    (match url with Some _ => None | None => Some "Artifact not available for this command result." end).

Definition artifact_missing (url : option string) (message : string) : list ResultDiagnosticsItem :=
  match url with Some _ => [] | None => [diag s_warning "artifact_missing" message] end.

(** [artifactUrl ? a : b]; the link is never blank, so this is presence. *)
Definition by_artifact {A} (url : option string) (a b : A) : A :=
  match url with Some _ => a | None => b end.

(** ** get_active_window *)

Definition capture_envelope (payload : obj) : obj :=
  object_or_empty (get (object_or_empty (get payload "screenshot")) "capture").

Definition helper_window (payload : obj) : option obj :=
  as_object (get (object_or_empty (get (capture_envelope payload) "capture")) "active_window").

(** The payload, or the window seen by the screenshot helper over it. *)
Definition effective_window (payload : obj) : obj :=
  if is_true (get payload "available") then payload
  else match helper_window payload with
       | Some w =>
           if is_true (get w "available") then
             spread (spread payload w)
               [("status", JStr "ok"); ("available", JBool true); ("source", JStr "screenshot_helper")]
           else payload
       | None => payload
       end.

Definition buildActiveWindow (row : NormalizedCommandResult) : ResultViewModel :=
  let payload := normalizeActiveWindowPayload (extractStructuredData row) in
  let payloadEffective := effective_window payload in
  let available := is_true (get payloadEffective "available") in
  let url := artifact_url_of row in
  let checksum := artifact_checksum_of row in
  let format := as_string (get (capture_envelope payload) "format") ?? "png" in
  let payloadBlock := objectEntries payloadEffective true in
  let h :=
    [state_stat row;
     stat "Window" (toDisplayValue (vnullish (get payloadEffective "title")
                      (vnullish (get payloadEffective "status") unknown)))
       (Some (if available then t_success else t_warning));
     stat "Process" (toDisplayValue (vnullish (get payloadEffective "process_name")
                       (vnullish (get payloadEffective "pid") unknown))) (Some t_info);
     stat "Screenshot" (by_artifact url "Captured" "Unavailable")
       (Some (by_artifact url t_success t_warning))] in
  let ds := buildDiagnosticsFromRow row ++
    (if available then [] else
       [diag s_warning "window_unavailable"
          "No interactive foreground window was available at collection time."]) ++
    artifact_missing url "Screenshot artifact URL was not returned for active window capture." in
  filled (base row "get_active_window") h
    [overview h;
     collapsed (negb available)
       (section "window" "Window Details" (w_kv (keyValues payloadBlock))
          (if_empty (keyValues payloadBlock) "No window details were returned"));
     artifact_section "Screenshot Artifact" url checksum (image_type format);
     diagnostics_section ds] ds.

(** ** download_file *)

Definition buildDownloadFile (row : NormalizedCommandResult) : ResultViewModel :=
  let payload := object_or_empty (extractStructuredData row) in
  let url := artifact_url_of row in
  let checksum := artifact_checksum_of row in
  let contentType := nonblank (as_string (get payload "content_type")) ?? "application/octet-stream" in
  let h :=
    [state_stat row;
     stat "Name" (toDisplayValue (vnullish (get payload "name") (vnullish (get payload "path") unknown)))
       (Some t_info);
     stat "Size" (toDisplayValue (vnullish (get payload "size_bytes") unknown)) None;
     stat "Artifact" (by_artifact url "Uploaded" "Unavailable") (Some (by_artifact url t_success t_warning))] in
  let details := objectEntries payload true in
  let ds := buildDiagnosticsFromRow row ++
    artifact_missing url "Download artifact URL was not returned." in
  filled (base row "download_file") h
    [overview h;
     artifact_section "Artifact" url checksum contentType;
     section "details" "File Details" (w_kv (keyValues details))
       (if_empty (keyValues details) "No file details returned");
     diagnostics_section ds] ds.

(** ** screenshot *)

Definition buildScreenshot (row : NormalizedCommandResult) : ResultViewModel :=
  let payload := object_or_empty (extractStructuredData row) in
  let capture := object_or_empty (get payload "capture") in
  let authorization := object_or_empty (get payload "authorization") in
  let url := artifact_url_of row in
  let checksum := artifact_checksum_of row in
  let side k := Num.to_string <$> as_number (get capture k) in
  let dimensions := match side "width", side "height" with
                    | Some w, Some h => w +:+ " x " +:+ h
                    | _, _ => "Unknown"
                    end in
  let format := as_string (get capture "format") ?? as_string (get payload "format") ?? "png" in
  let captureWithoutPath := remove capture "output_path" in
  let h :=
    [state_stat row;
     stat "Format" (toDisplayValue (vnullish (get payload "format")
                      (vnullish (get capture "format") (JStr "png")))) (Some t_info);
     stat "Resolution" (toDisplayValue (vnullish (get payload "resolution")
                          (vnullish (get capture "resolution") (JStr dimensions)))) None;
     stat "Artifact" (by_artifact url "Uploaded" "Unavailable") (Some (by_artifact url t_success t_warning))] in
  let captureBlock := objectEntries captureWithoutPath true in
  let authBlock := objectEntries authorization true in
  let ds := buildDiagnosticsFromRow row ++
    artifact_missing url "Screenshot artifact URL was not returned." in
  filled (base row "screenshot") h
    [overview h;
     artifact_section "Artifact" url checksum (image_type format);
     section "capture" "Capture Metadata" (w_kv (keyValues captureBlock))
       (if_empty (keyValues captureBlock) "No capture metadata returned");
     collapsed (match keyValues authBlock with [] => true | _ => false end)
       (section "authorization" "Kernel Authorization" (w_kv (keyValues authBlock))
          (if_empty (keyValues authBlock) "No authorization metadata returned"));
     diagnostics_section ds] ds.

(** ** list_files *)

Section Render.
(** [a.localeCompare(b, undefined, { sensitivity: 'base' }) < 0] *)
Context (locale_before : string -> string -> bool).

(** [a || b] on values. *)
Definition vor (a b : jsval) : jsval := if truthy a then a else b.

Definition opt_num (o : option num) : jsval := match o with Some n => JNum n | None => JNull end.

Definition tally (p : ResultFilesystemEntry -> bool) (l : list ResultFilesystemEntry) : nat :=
  length (List.filter p l).

Definition is_file (e : ResultFilesystemEntry) : bool :=
  match e_type e with e_file => true | _ => false end.

Definition list_files_metadata (payload : obj) (rootPath : string)
    (entries : list ResultFilesystemEntry) : obj :=
  let download := object_or_empty (get payload "download") in
  [("path", vor (JStr rootPath) (get payload "path"));
   ("recursive", JBool (is_true (get payload "recursive")));
   ("max_depth", opt_num (parseOptionalNumber (get payload "max_depth")));
   ("count", get payload "count");
   ("total_seen", get payload "total_seen");
   ("hidden_items", JNum (Num.of_nat (tally e_isHidden entries)));
   ("system_items", JNum (Num.of_nat (tally e_isSystem entries)));
   ("partial", JBool (is_true (get payload "partial")));
   ("next_cursor", or_null (parseOptionalString (get payload "next_cursor")));
   ("download_supported", JBool (is_true (get download "supported")));
   ("download_method", or_null (parseOptionalString (get download "method")))].

Definition list_files_model (row : NormalizedCommandResult) (payload : obj)
    (entries : list ResultFilesystemEntry) : ResultViewModel :=
  let partial := is_true (get payload "partial") in
  let rootPath := toCanonicalPath (parseOptionalString (get payload "path") ?? "") in
  let download := object_or_empty (get payload "download") in
  let canDownload := is_true (get download "supported") in
  let h :=
    [state_stat row;
     stat "Path" (toDisplayValue (vor (JStr rootPath) (vor (get payload "path") unknown))) (Some t_info);
     stat "Folders" (nat_text (tally is_directory entries)) (Some t_success);
     stat "Files" (nat_text (tally is_file entries)) (Some t_info);
     stat "Downloadable" (nat_text (tally e_downloadable entries))
       (Some (if canDownload then t_success else t_warning));
     stat "Partial" (if partial then "Yes" else "No") (Some (if partial then t_warning else t_default))] in
  let metadata := objectEntries (list_files_metadata payload rootPath entries) true in
  let ds := buildDiagnosticsFromRow row ++
    (if partial then [diag s_warning "partial_result"
       "Result was truncated by the current limit. Narrow path or increase limit."] else []) in
  filled (base row "list_files") h
    [described (Some (if partial
        then "Partial snapshot. Refine path or lower depth/limit for full navigation."
        else "Filesystem snapshot ready. Use Explorer tab to browse like a file explorer."))
       (overview h);
     section "explorer" "Explorer"
       (w_filesystem
          {| fs_rootPath := or_str rootPath "/"; fs_entries := entries;
             fs_recursive := is_true (get payload "recursive");
             fs_maxDepth := parseOptionalNumber (get payload "max_depth");
             fs_partial := partial;
             fs_nextCursor := parseOptionalString (get payload "next_cursor");
             fs_canDownload := canDownload;
             fs_downloadMethod := parseOptionalString (get download "method") |})
       (if_empty entries "No entries were returned for this path");
     section "metadata" "Browse Metadata" (w_kv (keyValues metadata))
       (if_empty (keyValues metadata) "No metadata returned");
     diagnostics_section ds] ds.

Definition buildListFiles (row : NormalizedCommandResult) : res ResultViewModel :=
  let payload := object_or_empty (extractStructuredData row) in
  let! entries := normalizeFilesystemEntries locale_before (normalizeFileEntriesArray (JObj payload)) in
  Ok (list_files_model row payload entries).

(** ** Any other command *)

(** [block.total > 0 && block.hiddenCount / block.total >= 0.6] *)
Definition mostly_hidden (b : EntriesBlock) : bool :=
  (0 <? total b)%nat &&
  Num.ge (Num.div (Num.of_nat (hiddenCount b)) (Num.of_nat (total b))) (Num.of_decimal false 6 (-1)).

(** The section of one field of the payload; none for an array that holds
    something else than objects. *)
Definition generic_section (key : string) (value : jsval) : option ResultSectionDefinition :=
  match value with
  | JObj o =>
      let block := objectEntries o true in
      Some (collapsed (mostly_hidden block)
        (section key (toLabel key) (w_kv (keyValues block))
          (match keyValues block with
           | [] => Some "No populated fields in this section"
           | _ => when (0 <? hiddenCount block)%nat
                    (nat_text (hiddenCount block) +:+ " field(s) hidden because they were not collected")
           end)))
  | JArr l =>
      if forallb (fun v => bool_decide (is_Some (as_object v))) l then
        Some (collapsed (match l with [] => true | _ => false end)
          (section key (toLabel key) (w_table (buildProcessTable (objects_of l)))
             (if_empty l "No rows returned")))
      else None
  | _ =>
      if isPrimitive value then
        Some (collapsed (is_nullish value)
          (section key (toLabel key)
             (w_kv [{| kv_key := key; kv_label := toLabel key; kv_value := toDisplayValue value;
                       kv_isEmpty := is_nullish value |}]) None))
      else None
  end.

Definition generic_sections (row : NormalizedCommandResult) : list ResultSectionDefinition :=
  let summary := section "summary" "Summary" (w_log (resultPreview row)) None in
  match extractStructuredData row with
  | JObj data =>
      match omap (fun kv => generic_section kv.1 kv.2) data with
      | [] => [summary]
      | ss => ss
      end
  | _ =>
      match nonblank (result_string (nResult row) "output_text") with
      | Some text => [section "output" "Output" (w_log text) None]
      | None => [summary]
      end
  end.

(** [methodTitleMap[method] ?? toLabel(method)]: a method that is not a
    string has no [replace]. *)
Definition generic_title (method : jsval) : res string :=
  match index methodTitleMap method, method with
  | JStr t, _ => Ok t
  | _, JStr m => Ok (toLabel m)
  | _, _ => Exn "raw.replace is not a function"
  end.

Definition buildGeneric (row : NormalizedCommandResult) (method : jsval) : res ResultViewModel :=
  let! t := generic_title method in
  let! m := to_str method in
  let h :=
    [stat "State" (state_label row) (Some (done_tone row));
     stat "Status" (toDisplayValue (match resultStatus row with
       | Some s => JStr s
       | None => vnullish (match nResult row with Some o => get o "status" | None => JUndef end) unknown
       end)) None] in
  let ds := buildDiagnosticsFromRow row in
  Ok (filled (buildBaseModel row m t) h
        (generic_sections row ++
         [collapsed (match ds with [] => true | _ => false end) (diagnostics_section ds)]) ds).

(** ** Dispatch *)

(** [renderDefinitions[method]] *)
Definition renderDefinitions (method : string) : option (NormalizedCommandResult -> res ResultViewModel) :=
  if method === "collect_system_info" then Some (fun row => Ok (buildCollectSystemInfo row))
  else if method === "ping" then Some (fun row => Ok (buildPing row))
  else if method === "list_processes" then Some (fun row => Ok (buildListProcesses row))
  else if method === "list_services" then Some (fun row => Ok (buildListServices row))
  else if method === "list_connections" then Some (fun row => Ok (buildListConnections row))
  else if method === "list_mounts" then Some (fun row => Ok (buildListMounts row))
  else if method === "network_info" then Some (fun row => Ok (buildNetworkInfo row))
  else if method === "get_active_window" then Some (fun row => Ok (buildActiveWindow row))
  else if method === "list_files" then Some buildListFiles
  else if method === "download_file" then Some (fun row => Ok (buildDownloadFile row))
  else if method === "screenshot" then Some (fun row => Ok (buildScreenshot row))
  else None.

(** The generic model, with the error in front of the diagnostics array that
    the diagnostics section shares; the section's summary and collapsing were
    computed before. *)
Definition safeFallback (row : NormalizedCommandResult) (method : jsval) (error : string)
    : res ResultViewModel :=
  let! m := buildGeneric row method in
  Ok {| title := title m; subtitle := subtitle m; commandMethod := commandMethod m;
        shell := shell m; hero := hero m; sections := sections m;
        diagnostics := diag s_warning "renderer_fallback" error :: diagnostics m;
        rawJson := rawJson m; fallbackUsed := true |}.

Definition renderResult (method : string) (row : NormalizedCommandResult) : res ResultViewModel :=
  let canonicalMethod := resolveCommandMethod (or_str method (nMethod row)) in
  let renderer := match canonicalMethod with
                  | JStr m => renderDefinitions m
                  | _ => None
                  end in
  let built := match renderer with
               | Some build => build row
               | None => buildGeneric row canonicalMethod
               end in
  match built with
  | Ok m => Ok m
  | Exn error => safeFallback row canonicalMethod error
  end.
End Render.

(** [process.env.NEXT_PUBLIC_RESULTS_RENDERER_V2 !== '0'] *)
Definition isResultsRendererV2Enabled (env : string -> option string) : bool :=
  match env "NEXT_PUBLIC_RESULTS_RENDERER_V2" with Some v => v !== "0" | None => true end.
