(* ===== verification/RenderLaws.v ===== *)
(** * What the result renderer guarantees

    Theorems about RenderModel.v and Renderer.v: no field is lost from a
    block, tables are bounded and complete, listings are sorted, paths have
    the parents the explorer needs, and rendering always yields a model
    unless the command is named like a property every object inherits. *)

From stdpp Require Import sorting.
From S2P Require Import Prelude JsNumber JsString JsValue Commands RenderModel Renderer.
Import Resolver Results.

Local Open Scope Z_scope.

(** ** Key/value blocks *)

Lemma entries_loop_spec hide source acc :
  let b := entries_loop hide source acc in
  keyValues b = keyValues acc ++
    map (fun kv => kv_item kv.1 kv.2)
        (List.filter (fun kv => negb (hide && is_empty_value kv.2)) source) /\
  (hiddenCount b = hiddenCount acc +
     length (List.filter (fun kv => hide && is_empty_value kv.2) source))%nat /\
  total b = total acc.
Proof.
  revert acc. induction source as [|[k v] source IH]; intros acc; cbn.
  - by rewrite app_nil_r, Nat.add_0_r.
  - destruct (IH (if hide && is_empty_value v
      then {| keyValues := keyValues acc; hiddenCount := S (hiddenCount acc); total := total acc |}
      else {| keyValues := keyValues acc ++ [kv_item k v]; hiddenCount := hiddenCount acc;
              total := total acc |})) as (-> & -> & ->).
    destruct (hide && is_empty_value v); cbn; split_and!; try done; try lia.
    by rewrite <- app_assoc.
Qed.

(** A block loses nothing: it shows exactly the fields with a value (or
    all fields, when empty ones are not hidden) in the payload's order under
    their own keys, and what it hides is counted, shown and hidden together
    making up the total. *)
Theorem objectEntries_complete source hide :
  let b := objectEntries source hide in
  keyValues b = map (fun kv => kv_item kv.1 kv.2)
                    (List.filter (fun kv => negb (hide && is_empty_value kv.2)) source) /\
  (length (keyValues b) + hiddenCount b = total b)%nat /\
  total b = length source.
Proof.
  cbn zeta. unfold objectEntries. destruct (entries_loop_spec hide source
    {| keyValues := []; hiddenCount := 0; total := length (keys source) |}) as (-> & -> & ->).
  cbn. unfold keys. rewrite !length_map. split_and!; try done.
  induction source as [|[k v] source IH]; [done|]. cbn.
  destruct (hide && is_empty_value v); cbn in *; lia.
Qed.

(** ** Tables *)

Lemma includes_str_spec l k : includes_str l k = true <-> In k l.
Proof.
  unfold includes_str. rewrite existsb_exists. split.
  - by intros (x & Hx & ->%String.eqb_eq).
  - intros Hk. exists k. by rewrite String.eqb_refl.
Qed.

Lemma set_add_spec l k :
  (NoDup l -> NoDup (set_add l k)) /\ forall x, In x (set_add l k) <-> In x l \/ x = k.
Proof.
  unfold set_add. destruct (includes_str l k) eqn:E.
  - apply includes_str_spec in E. split; [done|]. intros x. split; [auto|]. by intros [| ->].
  - assert (~ In k l) as Hk by (rewrite <- includes_str_spec; congruence). split.
    + intros Hl. apply list.NoDup_app. split; [done|]. split; [|apply NoDup_singleton].
      intros x Hx%list_elem_of_In ->%list_elem_of_singleton. done.
    + intros x. rewrite in_app_iff. cbn. intuition.
Qed.

Lemma fold_set_add l acc :
  (NoDup acc -> NoDup (fold_left set_add l acc)) /\
  forall x, In x (fold_left set_add l acc) <-> In x acc \/ In x l.
Proof.
  revert acc. induction l as [|k l IH]; intros acc; cbn; [naive_solver|].
  destruct (IH (set_add acc k)) as [H1 H2], (set_add_spec acc k) as [H3 H4].
  split; [auto|]. intros x. rewrite H2, H4. intuition.
Qed.

Lemma discovered_spec rows :
  NoDup (discovered_keys rows) /\
  forall x, In x (discovered_keys rows) <-> exists row, In row rows /\ In x (keys row).
Proof.
  unfold discovered_keys.
  assert (forall acc, NoDup acc ->
    NoDup (fold_left (fun acc row => fold_left set_add (keys row) acc) rows acc) /\
    forall x, In x (fold_left (fun acc (row : obj) => fold_left set_add (keys row) acc) rows acc)
              <-> In x acc \/ exists row, In row rows /\ In x (keys row)) as H.
  { induction rows as [|row rows IH]; intros acc Hacc; cbn; [naive_solver|].
    destruct (fold_set_add (keys row) acc) as [H1 H2].
    destruct (IH _ (H1 Hacc)) as [H3 H4]. split; [done|]. intros x. rewrite H4, H2. naive_solver. }
  destruct (H [] ltac:(constructor)) as [H1 H2]. split; [done|]. intros x. rewrite H2. naive_solver.
Qed.

Lemma ordered_spec d :
  NoDup d -> NoDup (ordered_columns d) /\ forall x, In x (ordered_columns d) <-> In x d.
Proof.
  intros Hd. unfold ordered_columns.
  destruct (fold_set_add d (List.filter (includes_str d) preferred_columns)) as [H1 H2].
  split.
  - apply H1. apply NoDup_ListNoDup, List.NoDup_filter. repeat constructor; cbn; intuition discriminate.
  - intros x. rewrite H2, filter_In, includes_str_spec. intuition.
Qed.

(** A cell holds the display of the row's own field under that column. *)
Lemma table_row_cell columns i row c :
  c <> "__proto__" ->
  own_get (table_row columns i row) c =
    if includes_str columns c then Some (toDisplayValue (get row c))
    else own_get [("__id", nat_text (i + 1))] c.
Proof.
  intros Hc. unfold table_row.
  set (acc := [("__id", nat_text (i + 1))]). clearbody acc. revert acc.
  induction columns as [|k cols IH]; intros acc; [done|]. cbn [fold_left]. rewrite IH.
  cbn [includes_str existsb]. fold (includes_str cols c).
  destruct (String.eqb_spec c k) as [<-|Hne]; cbn [orb].
  - destruct (includes_str cols c); [done|]. unfold assign_text.
    destruct (String.eqb_spec c "__proto__"); [done|]. by rewrite own_get_put_eq.
  - destruct (includes_str cols c); [done|]. unfold assign_text.
    destruct (k === "__proto__"); [done|]. by rewrite own_get_put_ne.
Qed.

(** Tables are bounded and faithful: at most 8 distinct columns, all of
    them fields of some row, at most 250 rows in their order, and every cell
    shows that row's value for that column. *)
Theorem table_faithful source :
  let t := buildProcessTable source in
  (length (columns t) <= 8)%nat /\ NoDup (columns t) /\
  (forall c, In c (columns t) -> exists row, In row source /\ In c (keys row)) /\
  length (rows t) = Nat.min 250 (length source) /\
  (forall i row c, take 250 source !! i = Some row -> In c (columns t) -> c <> "__proto__" ->
     exists cells, rows t !! i = Some cells /\ own_get cells c = Some (toDisplayValue (get row c))).
Proof.
  cbn zeta. destruct (discovered_spec source) as [Hd Hk].
  destruct (ordered_spec _ Hd) as [Ho Hi]. unfold buildProcessTable. cbn [columns rows].
  split_and!.
  - rewrite length_take. lia.
  - eapply sublist_NoDup; [exact Ho|apply sublist_take].
  - intros c Hc. apply Hk, Hi. rewrite <- list_elem_of_In in *. by apply elem_of_take in Hc as (? & ?%list_elem_of_lookup_2 & _).
  - rewrite length_imap, length_take. lia.
  - intros i row c Hrow Hc Hne. eexists. rewrite list_lookup_imap, Hrow. split; [done|].
    rewrite table_row_cell by done. apply includes_str_spec in Hc as ->. done.
Qed.

(** ** File listings *)

Section SortLaws.
Context {A : Type} (before : A -> A -> bool).
(** A strict weak order: the negative results of a comparison. *)
Context (before_asym : forall a b, before a b = true -> before b a = false).
Context (before_negtrans : forall a b c,
  before a b = false -> before b c = false -> before a c = false).

Lemma insert_sorted_perm x l : insert_sorted before x l ≡ₚ x :: l.
Proof.
  induction l as [|y l IH]; [done|]. cbn. destruct (before y x); [|done].
  rewrite IH. apply Permutation_swap.
Qed.

Lemma stable_sort_perm l : stable_sort before l ≡ₚ l.
Proof. induction l as [|x l IH]; [done|]. cbn. by rewrite insert_sorted_perm, IH. Qed.

(** In order: nothing stands before something that should precede it. *)
Definition in_order : list A -> Prop := StronglySorted (fun a b => before b a = false).

Lemma insert_sorted_order x l : in_order l -> in_order (insert_sorted before x l).
Proof.
  unfold in_order. induction 1 as [|y l Hl IH Hy]; cbn; [by repeat constructor|].
  destruct (before y x) eqn:E.
  - constructor; [done|]. rewrite insert_sorted_perm. constructor; [by apply before_asym|done].
  - constructor; [by constructor|]. constructor; [done|].
    eapply List.Forall_impl; [|exact Hy]. intros z Hz. cbn in *. by eapply before_negtrans.
Qed.

Lemma in_order_lookup l i j a b :
  in_order l -> (i < j)%nat -> l !! i = Some a -> l !! j = Some b -> before b a = false.
Proof.
  intros Hl. revert i j. induction Hl as [|x l Hl IH Hx]; intros [|i] [|j] Hij; try done; try lia; cbn.
  - intros [= <-] Hb. rewrite List.Forall_forall in Hx. apply Hx.
    by apply list_elem_of_In, list_elem_of_lookup_2 with j.
  - apply IH. lia.
Qed.

Lemma stable_sort_order l : in_order (stable_sort before l).
Proof. induction l; cbn; [constructor|by apply insert_sorted_order]. Qed.
End SortLaws.

Section ListingLaws.
Context (locale_before : string -> string -> bool).
(** [localeCompare] is a consistent comparison. *)
Hypothesis locale_asym : forall a b, locale_before a b = true -> locale_before b a = false.
Hypothesis locale_negtrans : forall a b c,
  locale_before a b = false -> locale_before b c = false -> locale_before a c = false.

Lemma entry_before_asym a b : entry_before locale_before a b = true -> entry_before locale_before b a = false.
Proof.
  unfold entry_before. destruct (is_directory a), (is_directory b); cbn; auto.
Qed.

Lemma entry_before_negtrans a b c :
  entry_before locale_before a b = false -> entry_before locale_before b c = false ->
  entry_before locale_before a c = false.
Proof.
  unfold entry_before. destruct (is_directory a), (is_directory b), (is_directory c); cbn; eauto; done.
Qed.

(** A file listing is complete and in order: it is a rearrangement of
    exactly the entries that have a path, no entry stands after one it should
    precede, and every directory comes before everything else. *)
Theorem listing_sorted files entries :
  normalizeFilesystemEntries locale_before files = Ok entries ->
  exists mapped, res_mapM filesystem_entry files = Ok mapped /\
    entries ≡ₚ List.filter (fun e => e_path e !== "") mapped /\
    in_order (entry_before locale_before) entries /\
    forall i j a b, (i < j)%nat -> entries !! i = Some a -> entries !! j = Some b ->
      is_directory b = true -> is_directory a = true.
Proof.
  unfold normalizeFilesystemEntries.
  destruct (res_mapM filesystem_entry files) as [mapped|]; [|done]. intros [= <-].
  exists mapped. set (l := List.filter _ mapped).
  assert (in_order (entry_before locale_before) (stable_sort (entry_before locale_before) l)) as Ho
    by (apply stable_sort_order; eauto using entry_before_asym, entry_before_negtrans).
  split_and!; [done|apply stable_sort_perm|done|].
  intros i j a b Hij Ha Hb Hdir. destruct (is_directory a) eqn:E; [done|].
  assert (entry_before locale_before b a = false) as H by (by eapply in_order_lookup).
  unfold entry_before in H. by rewrite E, Hdir in H.
Qed.
End ListingLaws.

(** Shorter paths first: a comparison to exercise the hypotheses with. *)
Definition by_length (a b : string) : bool := (String.length a <? String.length b)%nat.

Lemma by_length_asym a b : by_length a b = true -> by_length b a = false.
Proof. unfold by_length. rewrite Nat.ltb_lt, Nat.ltb_ge. lia. Qed.

Lemma by_length_negtrans a b c :
  by_length a b = false -> by_length b c = false -> by_length a c = false.
Proof. unfold by_length. rewrite !Nat.ltb_ge. lia. Qed.

Definition demo_files : list obj :=
  [[("path", JStr "C:\logs\a.txt"); ("type", JStr "file")];
   [("path", JStr "C:\logs"); ("type", JStr "dir")]; [("name", JStr "no path")]].

Lemma listing_sorted_witness :
  exists entries, normalizeFilesystemEntries by_length demo_files = Ok entries /\
    map e_path entries = ["C:/logs"; "C:/logs/a.txt"] /\
    in_order (entry_before by_length) entries.
Proof.
  eexists. split; [vm_compute; reflexivity|]. split; [reflexivity|].
  edestruct (listing_sorted by_length by_length_asym by_length_negtrans demo_files)
    as (mapped & _ & _ & H & _); [vm_compute; reflexivity|exact H].
Defined.

(** ** Paths *)

(** A path segment: not empty, no separator inside. *)
Definition segment (s : string) : Prop :=
  s <> "" /\ sforall (fun c => negb (is_separator c)) s = true.

Lemma replace_runs_clean s rest inside :
  segment s -> replace_runs is_separator "/" inside (s +:+ rest)
  = s +:+ replace_runs is_separator "/" false rest.
Proof.
  intros [Hne Hs]. revert inside Hne. induction s as [|c s IH]; intros inside Hne; [done|].
  cbn in Hs. apply andb_true_iff in Hs as [Hc Hs]. apply negb_true_iff in Hc. cbn. rewrite Hc.
  destruct s as [|d s]; [done|]. f_equal. by apply IH.
Qed.

Lemma normalize_join segs inside :
  Forall segment segs -> replace_runs is_separator "/" inside (join "/" segs) = join "/" segs.
Proof.
  intros H. revert inside. induction H as [|x l Hx Hl IH]; intros inside; [done|].
  destruct l as [|y l].
  - cbn [join]. rewrite <- (append_nil_r x) at 1. rewrite replace_runs_clean by done. apply append_nil_r.
  - change (join "/" (x :: y :: l)) with (x +:+ String "/" (join "/" (y :: l))).
    rewrite replace_runs_clean by done. cbn [replace_runs is_separator Ascii.eqb Bool.eqb orb].
    by rewrite IH.
Qed.

Lemma strip_end_app p s : s <> "" -> sforall (fun c => negb (p c)) s = true ->
  forall pre, strip_end p (pre +:+ s) = pre +:+ s.
Proof.
  intros Hne Hs pre. induction pre as [|c pre IH]; cbn.
  - induction s as [|c s IH]; [done|]. cbn in *. apply andb_true_iff in Hs as [Hc Hs].
    apply negb_true_iff in Hc. rewrite Hc. cbn. destruct s; [done|]. by rewrite IH.
  - rewrite IH. destruct (String.eqb_spec (pre +:+ s) "") as [E|]; [|by rewrite andb_false_r].
    destruct pre, s; done.
Qed.

Lemma join_last segs :
  segs <> [] -> exists pre, join "/" segs = pre +:+ List.last segs "".
Proof.
  induction segs as [|x [|y l] IH]; intros Hne; [done|by exists ""|].
  destruct IH as [pre Hp]; [done|].
  exists (x +:+ String "/" pre).
  change (join "/" (x :: y :: l)) with (x +:+ String "/" (join "/" (y :: l))).
  rewrite Hp. change (List.last (x :: y :: l) "") with (List.last (y :: l) "").
  by rewrite append_assoc.
Qed.

Lemma segment_no_slash s : segment s -> sforall (fun c => negb (Ascii.eqb "/" c)) s = true.
Proof.
  intros [_ H]. induction s as [|c s IH]; [done|]. cbn [sforall] in *.
  apply andb_true_iff in H as [Hc Hs]. rewrite (IH Hs), andb_true_r.
  unfold is_separator in Hc. rewrite Ascii.eqb_sym. by destruct (Ascii.eqb c "/").
Qed.

Lemma path_parts_join segs : Forall segment segs -> path_parts (join "/" segs) = segs.
Proof.
  intros H. assert (forall s, segment s -> split "/" s = [s]) as Hs.
  { intros s Hs. apply (sforall_split _ (fun c => negb (Ascii.eqb "/" c))); [done|].
    by apply segment_no_slash. }
  unfold path_parts. induction H as [|x l Hx Hl IH]; [done|].
  assert (truthy_str x = true) as Ht by (apply truthy_str_spec; by destruct Hx).
  destruct l as [|y l]; [cbn [join]; rewrite Hs by done; cbn; by rewrite Ht|].
  change (join "/" (x :: y :: l)) with (x +:+ String "/" (join "/" (y :: l))).
  rewrite split_app_sep, Hs by done. cbn [app List.filter]. rewrite Ht. by rewrite IH.
Qed.

(** Joined segments without outer white space are canonical, also below a
    leading slash. *)
Lemma canonical_join lead segs :
  segs <> [] -> Forall segment segs -> lead = "" \/ lead = "/" ->
  trim (lead +:+ join "/" segs) = lead +:+ join "/" segs ->
  toCanonicalPath (lead +:+ join "/" segs) = lead +:+ join "/" segs /\ join "/" segs <> "".
Proof.
  intros Hne Hs Hlead Ht. destruct (join_last segs Hne) as [pre Hp].
  assert (segment (List.last segs "")) as Hlast.
  { rewrite List.Forall_forall in Hs. apply Hs. destruct segs as [|x l]; [done|].
    clear. revert x. induction l as [|y l IH]; intros x; [by left|right; apply IH]. }
  assert (join "/" segs <> "") as Hj by (rewrite Hp; destruct Hlast, pre; [|done]; by destruct (List.last segs "")).
  split; [|done]. unfold toCanonicalPath. rewrite Ht.
  assert (normalizePathSeparator (lead +:+ join "/" segs) = lead +:+ join "/" segs) as ->.
  { unfold normalizePathSeparator. destruct Hlead as [->| ->]; cbn -[replace_runs]; [by apply normalize_join|].
    cbn [replace_runs is_separator Ascii.eqb Bool.eqb orb]. by rewrite normalize_join. }
  assert (strip_end (Ascii.eqb "/") (lead +:+ join "/" segs) = lead +:+ join "/" segs) as ->.
  { rewrite Hp, <- append_assoc. apply strip_end_app; [by destruct Hlast|by apply segment_no_slash]. }
  destruct (String.eqb_spec (lead +:+ join "/" segs) "") as [E|]; [|done].
  destruct Hlead as [->| ->]; done.
Qed.

(** On a drive or relative path the explorer's parent link is the path
    without its last segment: the parent of [a/b/c] is [a/b], whichever of
    the two separators the agent used, and a lone segment has none. *)
Theorem parent_of_child segs :
  Forall segment segs -> segs <> [] -> trim (join "/" segs) = join "/" segs ->
  toCanonicalPath (join "/" segs) = join "/" segs /\
  parentPathOf (join "/" segs) =
    if (length segs <=? 1)%nat then None else Some (join "/" (removelast segs)).
Proof.
  intros Hs Hne Ht. destruct (canonical_join "" segs Hne Hs (or_introl eq_refl) Ht) as [Hc Hj].
  cbn in Hc. split; [done|]. unfold parentPathOf. rewrite Hc, path_parts_join by done.
  apply truthy_str_spec in Hj. rewrite Hj. cbn [negb orb].
  destruct (String.eqb_spec (join "/" segs) "/") as [E|]; [|done].
  assert (path_parts (join "/" segs) = segs) as Hp by by apply path_parts_join.
  rewrite E in Hp. cbn in Hp. by subst.
Qed.

Lemma parent_of_child_witness :
  parentPathOf (join "/" ["C:"; "Program Files"; "Quoodle"]) = Some "C:/Program Files".
Proof.
  destruct (parent_of_child ["C:"; "Program Files"; "Quoodle"]) as [_ H];
    [|done|reflexivity|exact H].
  repeat (apply List.Forall_cons || apply List.Forall_nil); (split; [done|reflexivity]).
Defined.

(** The parent of an absolute path loses the leading slash, so it is not the
    path of any entry of the listing. *)
Lemma parent_of_absolute :
  toCanonicalPath "/home/ada/notes" = "/home/ada/notes" /\
  parentPathOf "/home/ada/notes" = Some "home/ada" /\
  toCanonicalPath "/home/ada" = "/home/ada".
Proof. split_and!; vm_compute; reflexivity. Qed.

(** ** Rendering *)

(** What every model that is built shares. *)
Definition well_built (row : NormalizedCommandResult) (method : string) (m : ResultViewModel) : Prop :=
  commandMethod m = method /\ subtitle m = resultPreview row /\ rawJson m = toRawResultJson row /\
  exists front d, sections m = front ++ [d] /\ front <> [] /\
    sec_id d = "diagnostics" /\ widget d = w_diagnostics.

Lemma filled_well_built row method m h front d ds :
  commandMethod m = method -> subtitle m = resultPreview row -> rawJson m = toRawResultJson row ->
  front <> [] -> sec_id d = "diagnostics" -> widget d = w_diagnostics ->
  well_built row method (filled m h (front ++ [d]) ds).
Proof. intros. unfold well_built. cbn. split_and!; try done. by exists front, d. Qed.

Lemma generic_sections_nonempty row : generic_sections row <> [].
Proof. unfold generic_sections. repeat case_match; congruence. Qed.

(** The sections of a dedicated builder: literal lists that end with the
    diagnostics. *)
Ltac literal_sections :=
  match goal with
  | |- well_built _ _ (filled _ _ [?a; ?d] _) => change [a; d] with ([a] ++ [d])
  | |- well_built _ _ (filled _ _ [?a; ?b; ?d] _) => change [a; b; d] with ([a; b] ++ [d])
  | |- well_built _ _ (filled _ _ [?a; ?b; ?c; ?d] _) => change [a; b; c; d] with ([a; b; c] ++ [d])
  | |- well_built _ _ (filled _ _ [?a; ?b; ?c; ?e; ?d] _) =>
      change [a; b; c; e; d] with ([a; b; c; e] ++ [d])
  | |- well_built _ _ (filled _ _ [?a; ?b; ?c; ?e; ?f; ?d] _) =>
      change [a; b; c; e; f; d] with ([a; b; c; e; f] ++ [d])
  end; apply filled_well_built; done.

Section Total.
Context (locale_before : string -> string -> bool).

Lemma builders_well_built row method build m :
  renderDefinitions locale_before method = Some build -> build row = Ok m ->
  well_built row method m /\ fallbackUsed m = false.
Proof.
  unfold renderDefinitions. intros H Hb. revert H.
  repeat match goal with |- context [String.eqb method ?x] =>
    destruct (String.eqb_spec method x) as [->|_];
      [intros [= <-];
       try (unfold buildListFiles in Hb; destruct (normalizeFilesystemEntries _ _); [|done]; cbn in Hb);
       injection Hb as <-; split; [cbv zeta beta delta [buildCollectSystemInfo buildPing buildListProcesses
         buildListServices buildListMounts inventory buildListConnections buildNetworkInfo
         buildActiveWindow buildDownloadFile buildScreenshot list_files_model]; literal_sections|done]|]
  end. done.
Qed.

Lemma builder_throws row method build e :
  renderDefinitions locale_before method = Some build -> build row = Exn e ->
  method = "list_files" /\ buildListFiles locale_before row = Exn e.
Proof.
  unfold renderDefinitions. intros H Hb. revert H.
  repeat match goal with |- context [String.eqb method ?x] =>
    destruct (String.eqb_spec method x) as [->|_]; [intros [= <-]; done|]
  end. done.
Qed.

Lemma generic_well_built row m :
  exists model, buildGeneric row (JStr m) = Ok model /\ well_built row m model /\
                fallbackUsed model = false.
Proof.
  unfold buildGeneric.
  assert (exists t, generic_title (JStr m) = Ok t) as [t ->]
    by (unfold generic_title; destruct (index methodTitleMap (JStr m)); eauto).
  cbn [res_bind to_str]. eexists. split; [done|]. split; [|done].
  apply filled_well_built; try done. apply generic_sections_nonempty.
Qed.

(** Rendering under a proper method name. *)
Lemma render_named row c :
  exists m,
    match (match renderDefinitions locale_before c with
           | Some build => build row
           | None => buildGeneric row (JStr c)
           end) with
    | Ok m => Ok m
    | Exn error => safeFallback row (JStr c) error
    end = Ok m /\ well_built row c m /\
    if fallbackUsed m
    then c = "list_files" /\
         exists e, buildListFiles locale_before row = Exn e /\
                   head (diagnostics m) = Some (diag s_warning "renderer_fallback" e)
    else c = "list_files" -> buildListFiles locale_before row = Ok m.
Proof.
  destruct (generic_well_built row c) as (g & Hg & Hw & Hf).
  destruct (renderDefinitions locale_before c) as [build|] eqn:Ed.
  - destruct (build row) as [model|e] eqn:Eb.
    + destruct (builders_well_built row c build model Ed Eb) as [Hw' Hf'].
      exists model. split_and!; [done..|]. rewrite Hf'. intros ->. by injection Ed as <-.
    + destruct (builder_throws row c build e Ed Eb) as [E He]. unfold safeFallback. rewrite Hg.
      eexists. split; [done|]. split; [exact Hw|]. cbn. eauto.
  - rewrite Hg. exists g. split_and!; [done..|]. rewrite Hf. by intros ->.
Qed.

(** [C14] Rendering is total: whatever the payload, [renderResult] yields a
    model for the resolved method, with the row's preview and raw JSON and a
    diagnostics section after at least one other; the fallback is used exactly
    when a listing holds an attribute that cannot be turned into text, and the
    error then heads the diagnostics.  The one exception are methods named
    like a property that every object inherits, for which it throws. *)
Theorem renderResult_total method row :
  let name := or_str method (nMethod row) in
  match renderResult locale_before method row with
  | Ok m =>
      exists canonical, resolveCommandMethod name = JStr canonical /\ well_built row canonical m /\
        if fallbackUsed m
        then canonical = "list_files" /\
             exists e, buildListFiles locale_before row = Exn e /\
                       head (diagnostics m) = Some (diag s_warning "renderer_fallback" e)
        else canonical = "list_files" -> buildListFiles locale_before row = Ok m
  | Exn _ => prototype_name name = true
  end.
Proof.
  cbn zeta. unfold renderResult.
  destruct (resolve_cases (or_str method (nMethod row))) as [(c & _ & Hr)|[(_ & _ & Hr)|(_ & Hp & Hr)]];
    rewrite Hr.
  - destruct (render_named row c) as (m & -> & ?). eauto.
  - destruct (render_named row (or_str method (nMethod row))) as (m & -> & ?). eauto.
  - unfold prototype_name in *. unfold inherited in *. repeat case_match; simplify_eq; done.
Qed.

(** *** Tabs *)

Definition ids (m : ResultViewModel) : list string := map sec_id (sections m).

Lemma builder_ids row method build m :
  renderDefinitions locale_before method = Some build -> build row = Ok m -> NoDup (ids m).
Proof.
  unfold renderDefinitions. intros H Hb. revert H.
  repeat match goal with |- context [String.eqb method ?x] =>
    destruct (String.eqb_spec method x) as [->|_];
      [intros [= <-];
       try (unfold buildListFiles in Hb; destruct (normalizeFilesystemEntries _ _); [|done]; cbn in Hb);
       injection Hb as <-; apply (bool_decide_unpack _); vm_compute; exact I|]
  end. done.
Qed.

Lemma generic_section_id k v s : generic_section k v = Some s -> sec_id s = k.
Proof. unfold generic_section. intros H. repeat case_match; by simplify_eq. Qed.

(** The sections of the payload's fields, in order, under their keys. *)
Lemma field_sections_ids data :
  sublist (map sec_id (omap (fun kv => generic_section kv.1 kv.2) data)) (keys data).
Proof.
  induction data as [|[k v] data IH]; [constructor|]. cbn.
  destruct (generic_section k v) eqn:E; cbn; [|by constructor].
  rewrite (generic_section_id _ _ _ E). by constructor.
Qed.

Lemma generic_ids row :
  (forall data, extractStructuredData row = JObj data ->
     NoDup (keys data) /\ ~ In "diagnostics" (keys data)) ->
  NoDup (map sec_id (generic_sections row) ++ ["diagnostics"]).
Proof.
  intros Hd. unfold generic_sections.
  assert (forall s : string, s <> "diagnostics" -> NoDup [s; "diagnostics"]) as H2.
  { intros s Hs. constructor; [by intros ?%list_elem_of_singleton|apply NoDup_singleton]. }
  destruct (extractStructuredData row) as [| | | | | |data|];
    try (destruct (Renderer.nonblank _); by apply H2).
  destruct (Hd data eq_refl) as [Hn Hi]. pose proof (field_sections_ids data) as Hs.
  destruct (omap _ data) as [|s l]; [by apply H2|].
  apply list.NoDup_app. split; [by eapply sublist_NoDup|]. split; [|apply NoDup_singleton].
  intros x Hx ->%list_elem_of_singleton. apply Hi. apply list_elem_of_In.
  by eapply elem_of_submseteq; [|apply sublist_submseteq].
Qed.

(** Tabs can be told apart: the ids of the sections of a rendered
    result are distinct, provided the payload has no field named
    [diagnostics] (the keys of an object being distinct). *)
Theorem section_ids_unique method row m :
  renderResult locale_before method row = Ok m ->
  (forall data, extractStructuredData row = JObj data ->
     NoDup (keys data) /\ ~ In "diagnostics" (keys data)) ->
  NoDup (ids m).
Proof.
  intros H Hd. unfold renderResult in H.
  assert (forall v g, buildGeneric row v = Ok g -> NoDup (ids g)) as Hgen.
  { intros v g. unfold buildGeneric, ids.
    destruct (generic_title v); [|done]. cbn [res_bind]. destruct (to_str v); [|done].
    intros [= <-]. cbn [sections filled]. rewrite map_app. by apply generic_ids. }
  destruct (match resolveCommandMethod _ with JStr m => _ | _ => _ end) as [build|] eqn:Er.
  - destruct (build row) as [model|e] eqn:Eb.
    + injection H as <-. destruct (resolveCommandMethod _); try done. by eapply builder_ids.
    + unfold safeFallback in H. destruct (buildGeneric row _) as [g|] eqn:Eg; [|done].
      injection H as <-. by apply (Hgen _ _ Eg).
  - destruct (buildGeneric row _) as [g|] eqn:Eg.
    + injection H as <-. by eapply Hgen.
    + unfold safeFallback in H. by rewrite Eg in H.
Qed.
End Total.

(** A row with the given payload. *)
Definition row_with (method : string) (data : jsval) : NormalizedCommandResult :=
  {| id := "c1"; commandId := "c1"; deviceId := "d1"; deviceName := "d1"; nMethod := method;
     nParams := []; nState := completed; executionState := None; queuedAt := None;
     dispatchedAt := None; completedAt := None; traceId := None; actorEmail := "Unknown";
     originChannel := api; originSessionId := None; originMobileDeviceId := None;
     nResult := Some [("data", data)]; resultStatus := None; resultNotes := None;
     artifactUrl := None; artifactChecksum := None; errorCode := None; errorMessage := None;
     nReason := None |}.

Lemma section_ids_unique_witness :
  exists m, renderResult by_length "get_users" (row_with "x" (JObj [("users", JArr [])])) = Ok m /\
    ids m = ["users"; "diagnostics"] /\ NoDup (ids m).
Proof.
  eexists. split; [vm_compute; reflexivity|]. split; [reflexivity|].
  eapply (section_ids_unique by_length "get_users" (row_with "x" (JObj [("users", JArr [])])));
    [vm_compute; reflexivity|].
  intros data [= <-]. cbn. split; [apply NoDup_singleton|]. by intros [|].
Defined.

(** A payload field called [diagnostics] gives two sections the same id. *)
Lemma section_ids_collide :
  exists m, renderResult by_length "self_test" (row_with "x" (JObj [("diagnostics", JStr "ok")])) = Ok m /\
    ids m = ["diagnostics"; "diagnostics"].
Proof. eexists. split; vm_compute; reflexivity. Qed.

(** A method called like an inherited property makes the renderer throw. *)
Lemma renderer_throws :
  exists e, renderResult by_length "constructor" (row_with "x" JNull) = Exn e.
Proof. eexists. vm_compute. reflexivity. Qed.

(** The screenshot view redacts the agent's local path: its capture
    section shows the populated fields of the capture in order, the output
    path excepted. *)
Theorem screenshot_redacts_path row :
  let capture := object_or_empty (get (object_or_empty (extractStructuredData row)) "capture") in
  exists s, In s (sections (buildScreenshot row)) /\ sec_id s = "capture" /\
    widget s = w_kv (map (fun kv => kv_item kv.1 kv.2)
      (List.filter (fun kv => (kv.1 !== "output_path") && negb (is_empty_value kv.2)) capture)).
Proof.
  cbn zeta. set (capture := object_or_empty _).
  eexists. split; [right; right; left; reflexivity|]. split; [done|]. cbn [widget section].
  fold capture. unfold objectEntries.
  destruct (entries_loop_spec true (remove capture "output_path")
    {| keyValues := []; hiddenCount := 0; total := length (keys (remove capture "output_path")) |})
    as (-> & _). cbn [keyValues app]. do 2 f_equal. unfold remove.
  induction capture as [|[k v] c IH]; [done|]. cbn in *.
  destruct (k === "output_path"); cbn; [done|]. destruct (is_empty_value v); cbn; [done|].
  f_equal. exact IH.
Qed.
