(* ===== verification/Copilot.v ===== *)
(** * The device copilot's client

    Models src/app/device-detail/components/copilot/types.ts and api.ts: how
    the answers and conversations of the AI sidecar are read.  Nothing of a
    payload is trusted, so payloads are values; a function that throws a
    [CopilotErrorState] returns it on the left.  [date_now] and [iso_now] are
    the readings of the clock, by their position in a call. *)

From S2P Require Import Prelude JsNumber JsString JsValue Http Session.

Local Open Scope Z_scope.

(** ** types.ts *)

Inductive CopilotConfidenceBand := low | medium | high | unknown_band.

Record CopilotConfidence := { score : option num; band : CopilotConfidenceBand }.

Record CopilotFreshness := { seconds : option num; fetchedAt : jsval }.

Record CopilotEvidenceRef := {
  source_type : string;
  source_id : string;
  excerpt_summary : option string;
  freshness_seconds : option num;
  rank : option num;
  href : option string;
}.

(** [artifact_type] is always 'answer'. *)
Record CopilotAnswerArtifact := {
  artifact_id : string;
  artifact_state : string;
  answer_text : string;
  answer_class : string;
  confidence : CopilotConfidence;
  freshness : CopilotFreshness;
  evidence_refs : list CopilotEvidenceRef;
  missing_information : list string;
  suggested_prompts : list string;
  created_at : jsval;
}.

Inductive CopilotErrorCode :=
| scope_failure | unavailable | timeout | persistence_failure | validation_error | unknown_error.

Record CopilotErrorState := {
  error_code : CopilotErrorCode;
  error_title : string;
  error_message : string;
  correlationId : jsval;
  retryable : bool;
}.

Inductive SystemStatus := st_loading | st_info | st_error.

(** The payload of a transcript item, by its type. *)
Inductive TranscriptPayload :=
| user_message (text : string)
| assistant_answer (text : string)
| system_status (text : string) (status : SystemStatus)
| evidence_group (evidence : list CopilotEvidenceRef)
| missing_info_warning (items : list string)
| degraded_response_notice (reason : string)
| unavailable_notice (message : string) (correlationId : option string)
| suggested_prompts_item (prompts : list string)
| answer_artifact (artifact : CopilotAnswerArtifact).

Record CopilotTranscriptItem := {
  item_id : string;
  item_timestamp : jsval;
  item : TranscriptPayload;
}.

Record CopilotConversation := {
  conversationId : string;
  conv_state : string;
  transcript : list CopilotTranscriptItem;
  surface : string;
  ctx_deviceId : string;
  ctx_deviceName : string;
  ctx_scopeLabel : string;
  lastActivityAt : option string;
}.

Record AskCopilotResult := {
  ask_status : jsval;
  ask_conversationId : string;
  ask_correlationId : jsval;
  artifactItem : CopilotTranscriptItem;
  transcriptItems : list CopilotTranscriptItem;
}.

(** ** api.ts: readers *)

Definition canonicalText (value : string) : string :=
  toLowerCase (trim (replace_runs is_ws " " false value)).

(** An answer repeated by the artifact that follows it. *)
Definition repeated (current next : CopilotTranscriptItem) : bool :=
  match item current, item next with
  | assistant_answer text, answer_artifact a =>
      (canonicalText text !== "") && (canonicalText text === canonicalText (answer_text a))
  | _, _ => false
  end.

Fixpoint dedupeTranscript (items : list CopilotTranscriptItem) : list CopilotTranscriptItem :=
  match items with
  | [] => []
  | current :: rest =>
      match rest with
      | next :: _ => if repeated current next then dedupeTranscript rest
                     else current :: dedupeTranscript rest
      | [] => [current]
      end
  end.

(** [value.toLowerCase()] on a value that need not be a string. *)
Definition lower_of (v : jsval) : res string :=
  match v with JStr s => Ok (toLowerCase s) | _ => Exn "toLowerCase is not a function" end.

Definition finite_number (v : jsval) : option num :=
  match v with JNum n => if Num.is_finite n then Some n else None | _ => None end.

Definition decimal (m e : Z) : num := Num.of_decimal false m e.

Definition normalizeConfidence (input : jsval) : res CopilotConfidence :=
  let score := finite_number (prop input "score") in
  let! rawBand := lower_of (vnullish (prop input "band") (JStr "")) in
  let band :=
    if rawBand === "high" then high
    else if rawBand === "medium" then medium
    else if rawBand === "low" then low
    else match score with
         | None => unknown_band
         | Some s => if Num.ge s (decimal 75 (-2)) then high
                     else if Num.ge s (decimal 5 (-1)) then medium else low
         end in
  Ok {| score := score; band := band |}.

(** [typeof v === 'string' && v.trim().startsWith('/')] *)
Definition site_path (v : jsval) : option string :=
  match v with JStr s => if startsWith (trim s) "/" then Some s else None | _ => None end.

Definition evidence_ref (it : jsval) : res CopilotEvidenceRef :=
  let! ty := str_or (prop it "source_type") "" in
  let! sid := str_or (prop it "source_id") "" in
  Ok {| source_type := trim ty;
        source_id := trim sid;
        excerpt_summary := as_string (prop it "excerpt_summary");
        freshness_seconds := as_number (prop it "freshness_seconds");
        rank := as_number (prop it "rank");
        href := site_path (prop it "href") ??? site_path (prop it "uri") |}.

Definition normalizeEvidence (rows : jsval) : res (list CopilotEvidenceRef) :=
  match rows with
  | JArr l =>
      let! refs := res_mapM evidence_ref l in
      Ok (List.filter (fun r => (source_type r !== "") && (source_id r !== "")) refs)
  | _ => Ok []
  end.

Definition error_state (code : CopilotErrorCode) (title message : string) (cid : jsval)
    (retry : bool) : CopilotErrorState :=
  {| error_code := code; error_title := title; error_message := message;
     correlationId := cid; retryable := retry |}.

Definition toErrorState (payload : jsval) (status : Z) : res CopilotErrorState :=
  let! c := member payload "code" in
  let! code := str_or (vnullish c (prop payload "message")) "" in
  let code := toLowerCase code in
  let cid := match prop payload "correlation_id" with JStr s => JStr s | _ => JNull end in
  Ok (if (status =? 403) || includes code "scope" || includes code "forbidden" then
        error_state scope_failure "Scope denied" "Copilot cannot access this device scope." cid false
      else if status =? 422 then
        error_state validation_error "Request invalid"
          "The copilot request could not be validated." cid false
      else if (status =? 503) || includes code "timeout" || includes code "unavailable" then
        error_state (if includes code "timeout" then timeout else unavailable)
          "Copilot unavailable" "Copilot is temporarily unavailable. Retry in a moment." cid true
      else
        error_state unknown_error "Copilot failed" "Copilot could not complete this request." cid true).

Definition normalizeStringArray (values : jsval) : list string :=
  match values with
  | JArr l => List.filter truthy_str
      (map (fun v => match v with JStr s => trim s | _ => "" end) l)
  | _ => []
  end.

(** [l.length > 0] *)
Definition nonempty {A} (l : list A) : bool := match l with [] => false | _ => true end.

(** ** api.ts: asking *)

Record AskPayload := {
  conversation_id : option string;
  query : string;
  device_id : string;
  ui_surface : string;
}.

Definition payload_json (p : AskPayload) : obj :=
  match conversation_id p with Some c => [("conversation_id", JStr c)] | None => [] end
  ++ [("query", JStr (query p)); ("selected_refs", JObj [("device_id", JStr (device_id p))]);
      ("ui_surface", JStr (ui_surface p))].

Section Clock.
Context (date_now iso_now : nat -> string).

Definition first_number (a b : jsval) : option num := as_number a ??? as_number b.

(** The artifact of an answer, [body] being its payload. *)
Definition ask_artifact (body : jsval) : res CopilotAnswerArtifact :=
  let display := prop body "display" in
  let art := prop body "artifact" in
  let! confidence := normalizeConfidence (prop display "confidence") in
  let freshnessSeconds :=
    first_number (prop display "freshness_seconds") (prop art "freshness_seconds") in
  let! evidence := normalizeEvidence (prop display "evidence_refs") in
  let missingInformation := normalizeStringArray (prop display "missing_information") in
  let suggestedPrompts := normalizeStringArray (prop display "suggested_prompts") in
  let! id := str_or (prop art "artifact_id") "" in
  let! state := str_or (prop art "state") "created" in
  let! text := str_or (vnullish (prop display "answer_text") (prop art "summary")) "" in
  Ok {| artifact_id := id;
        artifact_state := state;
        answer_text := trim text;
        answer_class := "explanation";
        confidence := confidence;
        freshness := {| seconds := freshnessSeconds;
                        fetchedAt := vnullish (prop art "created_at") JNull |};
        evidence_refs := evidence;
        missing_information := missingInformation;
        suggested_prompts := suggestedPrompts;
        created_at := vnullish (prop art "created_at") JNull |}.

(** An item stamped with the artifact's time, or with the [i]-th reading of
    the clock. *)
Definition stamped (artifact : CopilotAnswerArtifact) (i : nat) (id : string)
    (p : TranscriptPayload) : CopilotTranscriptItem :=
  {| item_id := id; item_timestamp := vnullish (created_at artifact) (JStr (iso_now i)); item := p |}.

Definition artifact_item (artifact : CopilotAnswerArtifact) : CopilotTranscriptItem :=
  stamped artifact 0
    ("artifact-" +:+ (if truthy_str (artifact_id artifact) then artifact_id artifact else date_now 0))
    (answer_artifact artifact).

Definition band_is_low (c : CopilotConfidence) : bool :=
  match band c with low => true | _ => false end.

Definition is_degraded (status : string) (artifact : CopilotAnswerArtifact) : bool :=
  (status === "degraded") || (artifact_state artifact === "incomplete")
    || band_is_low (confidence artifact).

Definition degraded_reason : string := "Context is partial or confidence is reduced.".

Definition answer_items (status : string) (a : CopilotAnswerArtifact) : list CopilotTranscriptItem :=
  [artifact_item a]
  ++ (if nonempty (evidence_refs a) then
        [stamped a 1 ("evidence-" +:+ date_now 1) (evidence_group (evidence_refs a))] else [])
  ++ (if nonempty (missing_information a) then
        [stamped a 2 ("missing-" +:+ date_now 2) (missing_info_warning (missing_information a))] else [])
  ++ (if is_degraded status a then
        [stamped a 3 ("degraded-" +:+ date_now 3) (degraded_response_notice degraded_reason)] else [])
  ++ (if nonempty (suggested_prompts a) then
        [stamped a 4 ("prompts-" +:+ date_now 4) (suggested_prompts_item (suggested_prompts a))] else []).

(** What an accepted answer becomes. *)
Definition ask_result (body : jsval) : res (CopilotErrorState + AskCopilotResult) :=
  let! cid := member_str body "conversation_id" "" in
  let conversationId := trim cid in
  if negb (truthy_str conversationId) then
    Ok (inl (error_state persistence_failure "Conversation unavailable"
               "Copilot response was not persisted as a conversation."
               (vnullish (prop body "correlation_id") JNull) true))
  else
    let! artifact := ask_artifact body in
    let! status := lower_of (vnullish (prop body "status") (JStr "")) in
    Ok (inr {| ask_status := vnullish (prop body "status") (JStr "ok");
               ask_conversationId := conversationId;
               ask_correlationId := vnullish (prop body "correlation_id") JNull;
               artifactItem := artifact_item artifact;
               transcriptItems := dedupeTranscript (answer_items status artifact) |}).

Definition ask_request (payload : AskPayload) : FetchRequest :=
  {| f_url := "/api/ai/copilot/ask"; f_method := "POST"; f_headers := [json_content];
     f_body := Some (json_text (payload_json payload)) |}.

Definition askCopilot (payload : AskPayload) : io (CopilotErrorState + AskCopilotResult) :=
  let* response := fetch (ask_request payload) in
  let body := json_or_empty response in
  if negb (ok response) then
    let* e := lift (toErrorState body (status response)) in Ret (inl e)
  else lift (ask_result body).

End Clock.

(** ** api.ts: reading a conversation back *)

(** The artifact of a stored transcript item. *)
Definition stored_artifact (artifact : jsval) : res CopilotAnswerArtifact :=
  let! id := str_or (prop artifact "artifact_id") "" in
  let! state := str_or (prop artifact "state") "created" in
  let! text := str_or (prop artifact "answer_text") "" in
  let! cls := str_or (prop artifact "answer_class") "explanation" in
  let! confidence := normalizeConfidence (prop artifact "confidence") in
  let! evidence := normalizeEvidence (prop artifact "evidence_refs") in
  let created := match prop artifact "created_at" with JStr s => JStr s | _ => JNull end in
  Ok {| artifact_id := id;
        artifact_state := state;
        answer_text := text;
        answer_class := cls;
        confidence := confidence;
        freshness := {| seconds := as_number (prop artifact "freshness_seconds");
                        fetchedAt := created |};
        evidence_refs := evidence;
        missing_information := normalizeStringArray (prop artifact "missing_information");
        suggested_prompts := normalizeStringArray (prop artifact "suggested_prompts");
        created_at := created |}.

(** The payload of a stored item of type [type]. *)
Definition stored_payload (type : string) (record : jsval) : res (option TranscriptPayload) :=
  if (type === "user_message") || (type === "assistant_answer") || (type === "system_status") then
    let! text := str_or (prop record "text") "" in
    Ok (Some (if type === "user_message" then user_message text
              else if type === "assistant_answer" then assistant_answer text
              else system_status text st_info))
  else if type === "missing_info_warning" then
    Ok (Some (missing_info_warning (normalizeStringArray (prop record "items"))))
  else if type === "suggested_prompts" then
    Ok (Some (suggested_prompts_item (normalizeStringArray (prop record "prompts"))))
  else if type === "degraded_response_notice" then
    let! reason := str_or (prop record "reason") "Context is partial." in
    Ok (Some (degraded_response_notice reason))
  else if type === "unavailable_notice" then
    let! message := str_or (prop record "message") "Copilot unavailable" in
    Ok (Some (unavailable_notice message (as_string (prop record "correlationId"))))
  else if type === "evidence_group" then
    let! evidence := normalizeEvidence (prop record "evidence") in
    Ok (Some (evidence_group evidence))
  else if type === "answer_artifact" then
    match prop record "artifact" with
    | JObj artifact => let! a := stored_artifact (JObj artifact) in Ok (Some (answer_artifact a))
    | _ => Ok None
    end
  else Ok None.

Definition stored_item (it : jsval) : res (option CopilotTranscriptItem) :=
  match it with
  | JObj _ =>
      let! type := str_or (prop it "type") "" in
      let type := trim type in
      let! id := str_or (prop it "id") "" in
      let id := trim id in
      if negb (truthy_str type) || negb (truthy_str id) then Ok None
      else
        let! p := stored_payload type it in
        Ok (option_map (fun p =>
              {| item_id := id;
                 item_timestamp := match prop it "timestamp" with JStr s => JStr s | _ => JNull end;
                 item := p |}) p)
  | _ => Ok None
  end.

Definition normalizeTranscript (raw : jsval) : res (list CopilotTranscriptItem) :=
  match raw with
  | JArr l => let! items := res_mapM stored_item l in Ok (dedupeTranscript (omap id items))
  | _ => Ok []
  end.

Definition conversation_of (conversationId deviceId deviceName : string) (body : jsval) :
    res CopilotConversation :=
  let! cid := member_str body "conversation_id" conversationId in
  let! state := str_or (prop body "state") "active" in
  let! surface := str_or (prop body "surface") "web.device_detail" in
  let! transcript := normalizeTranscript (prop body "transcript") in
  Ok {| conversationId := cid;
        conv_state := state;
        transcript := transcript;
        surface := surface;
        ctx_deviceId := deviceId;
        ctx_deviceName := deviceName;
        ctx_scopeLabel := "Current device only";
        lastActivityAt := as_string (prop body "last_activity_at") |}.

Definition conversation_request (conversationId : string) : FetchRequest :=
  {| f_url := "/api/ai/copilot/conversations/" +:+ encodeURIComponent conversationId;
     f_method := "GET"; f_headers := []; f_body := None |}.

Definition fetchConversation (conversationId deviceId deviceName : string) :
    io (CopilotErrorState + CopilotConversation) :=
  let* response := fetch (conversation_request conversationId) in
  let body := json_or_empty response in
  if negb (ok response) then
    let* e := lift (let! message := member body "message" in
                    toErrorState (JObj [("message", message)]) (status response)) in
    Ret (inl e)
  else let* c := lift (conversation_of conversationId deviceId deviceName body) in Ret (inr c).

(** CopilotEvidenceChips.tsx: when a reference is shown as a link. *)
Definition isSafeRelativeHref (value : option string) : bool :=
  match value with Some v => startsWith (trim v) "/" | None => false end.

(** ** The transcript loses nothing *)

(** The positions at which an answer is followed by the artifact repeating it. *)
Definition repeats (items : list CopilotTranscriptItem) : list (CopilotTranscriptItem * CopilotTranscriptItem) :=
  List.filter (fun p => repeated p.1 p.2) (zip items (tail items)).

Definition shown_text (i : CopilotTranscriptItem) : option string :=
  match item i with
  | assistant_answer text => Some (canonicalText text)
  | answer_artifact a => Some (canonicalText (answer_text a))
  | _ => None
  end.

Lemma dedupe_cons2 a b l :
  dedupeTranscript (a :: b :: l) =
    if repeated a b then dedupeTranscript (b :: l) else a :: dedupeTranscript (b :: l).
Proof. reflexivity. Qed.

Lemma repeated_shown a b : repeated a b = true -> shown_text a = shown_text b /\ repeated b = fun _ => false.
Proof.
  unfold repeated, shown_text. destruct (item a); try done. destruct (item b); try done.
  rewrite andb_true_iff. intros [_ ->%String.eqb_eq]. done.
Qed.

Lemma artifact_kept a l :
  repeated a = (fun _ => false) -> dedupeTranscript (a :: l) = a :: dedupeTranscript l.
Proof. intros Ha. destruct l; [done|]. by rewrite dedupe_cons2, Ha. Qed.

(** Removing the answers an artifact repeats keeps the order of the
    transcript, drops exactly as many items as there are repetitions, and
    loses no text: what is dropped is the text of an item that is kept. *)
Theorem dedupe_faithful (items : list CopilotTranscriptItem) :
  sublist (dedupeTranscript items) items
  /\ (length (dedupeTranscript items) + length (repeats items) = length items)%nat
  /\ forall i, i ∈ items ->
       i ∈ dedupeTranscript items
       \/ exists j, j ∈ dedupeTranscript items /\ shown_text j = shown_text i.
Proof.
  induction items as [|a [|b l] (IHs & IHn & IHi)].
  - split_and!; [done..|]. intros i Hi. by left.
  - split_and!; [done..|]. intros i Hi. by left.
  - unfold repeats in *. rewrite dedupe_cons2. cbn [zip zip_with tail List.filter fst snd] in *.
    destruct (repeated a b) eqn:Hab.
    + split_and!; [by apply sublist_cons|cbn [length] in *; lia|].
      destruct (repeated_shown a b Hab) as [Hs Hb].
      intros i [->|Hi]%elem_of_cons; [|by apply IHi].
      right. exists b. rewrite (artifact_kept b l Hb). split; [left|done].
    + split_and!; [by apply sublist_skip|cbn [length] in *; lia|].
      intros i [->|Hi]%elem_of_cons; [left; left|].
      destruct (IHi i Hi) as [H|(j & Hj & E)]; [left; by right|].
      right. exists j. split; [by right|done].
Qed.

(** ** What reaches the screen *)

(** A reference names its source, and is a link only to a path. *)
Definition ref_ok (r : CopilotEvidenceRef) : Prop :=
  tidy (source_type r) /\ tidy (source_id r)
  /\ (href r = None \/ isSafeRelativeHref (href r) = true).

(** A score is a finite number, and a known score has a band. *)
Definition confidence_ok (c : CopilotConfidence) : Prop :=
  match score c with Some s => Num.is_finite s = true /\ band c <> unknown_band | None => True end.

Definition artifact_ok (a : CopilotAnswerArtifact) : Prop :=
  confidence_ok (confidence a) /\ List.Forall ref_ok (evidence_refs a)
  /\ List.Forall tidy (missing_information a) /\ List.Forall tidy (suggested_prompts a).

Definition payload_ok (p : TranscriptPayload) : Prop :=
  match p with
  | evidence_group refs => List.Forall ref_ok refs
  | missing_info_warning l | suggested_prompts_item l => List.Forall tidy l
  | answer_artifact a => artifact_ok a
  | _ => True
  end.

Definition item_ok (i : CopilotTranscriptItem) : Prop := item_id i <> "" /\ payload_ok (item i).

Lemma confidence_normal v : yields confidence_ok (normalizeConfidence v).
Proof.
  unfold normalizeConfidence. apply yields_then. intros raw. cbn. unfold confidence_ok. cbn.
  unfold finite_number. destruct (prop v "score") as [| | |n| | | |]; try done.
  destruct (Num.is_finite n) eqn:Hn; [|done]. split; [done|].
  by repeat case_match.
Qed.

Lemma site_path_safe v h : site_path v = Some h -> isSafeRelativeHref (Some h) = true.
Proof. destruct v; cbn; try done. case_match; [|done]. by intros [= ->]. Qed.

Lemma evidence_normal v : yields (List.Forall ref_ok) (normalizeEvidence v).
Proof.
  destruct v as [| | | | |l| |]; try constructor. cbn.
  apply (yields_bind (List.Forall (fun r =>
    trim (source_type r) = source_type r /\ trim (source_id r) = source_id r
    /\ (href r = None \/ isSafeRelativeHref (href r) = true)))).
  - apply yields_mapM. intros it. unfold evidence_ref.
    apply yields_then; intros ty. apply yields_then; intros sid. cbn [yields source_type source_id href].
    rewrite !trim_idem. split_and!; [done..|].
    destruct (site_path (prop it "href")) as [h|] eqn:E;
      [right; by eapply site_path_safe|].
    destruct (site_path (prop it "uri")) as [h|] eqn:E'; [right; by eapply site_path_safe|by left].
  - intros refs Hrefs. cbn. apply List.Forall_forall. intros r [Hr Hne]%filter_In.
    rewrite List.Forall_forall in Hrefs. destruct (Hrefs r Hr) as (H1 & H2 & H3).
    apply andb_true_iff in Hne as [N1%negb_true_iff%String.eqb_neq N2%negb_true_iff%String.eqb_neq].
    done.
Qed.

Lemma strings_normal v : List.Forall tidy (normalizeStringArray v).
Proof.
  destruct v as [| | | | |l| |]; try constructor. cbn. apply List.Forall_forall.
  intros s [Hs Hne%truthy_str_spec]%filter_In. split; [|done].
  apply in_map_iff in Hs as (v & <- & _). destruct v; try done; apply trim_idem.
Qed.

#[export] Hint Resolve confidence_normal evidence_normal strings_normal : copilot.

Lemma ask_artifact_normal body : yields artifact_ok (ask_artifact body).
Proof.
  unfold ask_artifact.
  eapply yields_bind; [apply confidence_normal|]; intros c Hc.
  eapply yields_bind; [apply evidence_normal|]; intros e He.
  do 3 (apply yields_then; intros ?). cbn. unfold artifact_ok; cbn; auto with copilot.
Qed.

Lemma stored_artifact_normal v : yields artifact_ok (stored_artifact v).
Proof.
  unfold stored_artifact. do 4 (apply yields_then; intros ?).
  eapply yields_bind; [apply confidence_normal|]; intros c Hc.
  eapply yields_bind; [apply evidence_normal|]; intros e He.
  cbn. unfold artifact_ok; cbn; auto with copilot.
Qed.

Lemma stored_payload_normal type v :
  yields (fun p => match p with Some p => payload_ok p | None => True end) (stored_payload type v).
Proof.
  unfold stored_payload.
  repeat match goal with |- yields _ (if ?b then _ else _) => destruct b end;
    try (eapply yields_bind; [apply evidence_normal|done]);
    try (apply yields_then; intros ?); try (cbn; auto with copilot; done).
  - cbn. by repeat case_match.
  - destruct (prop v "artifact"); try done.
    eapply yields_bind; [apply stored_artifact_normal|]. done.
Qed.

Lemma dedupe_ok items : List.Forall item_ok items -> List.Forall item_ok (dedupeTranscript items).
Proof.
  induction items as [|a [|b l] IH]; [done..|]. intros [Ha Hl]%List.Forall_cons_iff.
  rewrite dedupe_cons2. destruct (repeated a b); [auto|]. constructor; auto.
Qed.

Lemma stored_item_normal v :
  yields (fun o => match o with Some i => item_ok i | None => True end) (stored_item v).
Proof.
  destruct v as [| | | | | |o|]; try done. unfold stored_item.
  apply yields_then; intros ty. apply yields_then; intros sid.
  destruct (negb (truthy_str (trim ty)) || negb (truthy_str (trim sid))) eqn:E; [done|].
  apply orb_false_iff in E as [_ Hid%negb_false_iff%truthy_str_spec].
  eapply yields_bind; [apply stored_payload_normal|]. by intros [p|].
Qed.

Lemma transcript_normal v : yields (List.Forall item_ok) (normalizeTranscript v).
Proof.
  destruct v as [| | | | |l| |]; try constructor. cbn [normalizeTranscript].
  eapply yields_bind; [apply yields_mapM, stored_item_normal|].
  intros items Hi. apply dedupe_ok.
  induction Hi as [|[i|] items Hi _ IH]; [constructor|by constructor|done].
Qed.

Section Answers.
Context (date_now iso_now : nat -> string).

Lemma answer_items_ok status a :
  artifact_ok a -> List.Forall item_ok (answer_items date_now iso_now status a).
Proof.
  intros Ha. pose proof Ha as (Hc & He & Hm & Hp). unfold answer_items.
  repeat (apply List.Forall_app; split); [by repeat constructor|..];
    (case_match; [by repeat constructor|constructor]).
Qed.

Lemma answer_items_distinct status a :
  NoDup (map item_id (answer_items date_now iso_now status a)).
Proof.
  unfold answer_items.
  repeat case_match; cbn;
    repeat (apply NoDup_cons_2; [rewrite ?not_elem_of_cons; split_and?; try done;
                                 apply not_elem_of_nil|]); apply NoDup_nil_2.
Qed.

(** An answer's items open with the artifact, which nothing repeats. *)
Lemma dedupe_answer_items status a :
  dedupeTranscript (answer_items date_now iso_now status a) = answer_items date_now iso_now status a.
Proof. unfold answer_items. by repeat case_match. Qed.

Definition answer_ok (r : AskCopilotResult) : Prop :=
  tidy (ask_conversationId r)
  /\ List.Forall item_ok (transcriptItems r)
  /\ NoDup (map item_id (transcriptItems r))
  /\ head (transcriptItems r) = Some (artifactItem r).

Lemma ask_result_normal body :
  yields (fun o => match o with inr r => answer_ok r | inl e => retryable e = true end)
    (ask_result date_now iso_now body).
Proof.
  unfold ask_result. apply yields_then; intros cid.
  destruct (truthy_str (trim cid)) eqn:Hc; [|done]. cbn [negb].
  eapply yields_bind; [apply ask_artifact_normal|]; intros a Ha.
  apply yields_then; intros st. cbn [yields]. unfold answer_ok. cbn [ask_conversationId transcriptItems artifactItem].
  rewrite dedupe_answer_items. apply truthy_str_spec in Hc.
  split_and!; [split; [apply trim_idem|done]|by apply answer_items_ok|apply answer_items_distinct|done].
Qed.

Lemma lift_yields {A} (Q : A -> Prop) (m : res A) : yields Q m -> all_results Q (lift m).
Proof. by destruct m. Qed.

Lemma refused_yields {A} (Q : CopilotErrorState + A -> Prop) (m : res CopilotErrorState) :
  yields (fun e => Q (inl e)) m -> all_results Q (let* e := lift m in Ret (inl e)).
Proof. by destruct m. Qed.

(** [C39] Whatever the AI service answers, every item shown in the copilot's
    transcript has an id; the evidence of an answer or of a group names its
    source and links only to paths, the score of an answer is finite and in
    its band, and no missing information and no suggested prompt is blank;
    an answer opens with its artifact, belongs to a conversation, and its
    items have different ids. *)
Theorem copilot_items_sound (payload : AskPayload) (conversationId deviceId deviceName : string) :
  all_results (fun o => match o with inr r => answer_ok r | inl _ => True end)
    (askCopilot date_now iso_now payload)
  /\ all_results (fun o => match o with inr c => List.Forall item_ok (transcript c) | inl _ => True end)
       (fetchConversation conversationId deviceId deviceName).
Proof.
  split; intros [r|]; cbn [fetch bind]; try done;
    destruct (ok r); cbn [negb]; try (by apply refused_yields, yields_true).
  - pose proof (ask_result_normal (json_or_empty r)) as H.
    by destruct (ask_result _ _ _) as [[e|a]|].
  - apply (all_results_bind (fun c => List.Forall item_ok (transcript c))); [|done].
    apply lift_yields. unfold conversation_of.
    do 3 (apply yields_then; intros ?).
    by eapply yields_bind; [apply transcript_normal|].
Qed.

End Answers.

(** ** Errors *)

Definition lasting (c : CopilotErrorCode) : Prop := c = scope_failure \/ c = validation_error.

Lemma error_state_retry payload st :
  yields (fun e => retryable e = false <-> lasting (error_code e)) (toErrorState payload st).
Proof.
  unfold toErrorState. do 2 (apply yields_then; intros ?). cbn [yields]. unfold lasting.
  repeat case_match; cbn; split; try done; try (by left); try (by right); intros [?|?]; done.
Qed.

(** The error of a refusal that says nothing but its status. *)
Definition status_error (st : Z) : CopilotErrorCode :=
  if st =? 403 then scope_failure else if st =? 422 then validation_error
  else if st =? 503 then unavailable else unknown_error.

(** Asking sends one request, the question, and every error it reports
    invites a retry exactly when it is neither a scope nor a validation
    failure.  A refusal whose body cannot be read is still reported, by its
    status. *)
Theorem ask_errors_classified (date_now iso_now : nat -> string) (payload : AskPayload) :
  at_most 1 (askCopilot date_now iso_now payload)
  /\ all_requests (fun r => r = ask_request payload) (askCopilot date_now iso_now payload)
  /\ all_results (fun o => match o with
       | inl e => retryable e = false <-> lasting (error_code e)
       | inr _ => True end) (askCopilot date_now iso_now payload)
  /\ exists k, askCopilot date_now iso_now payload = Fetch (ask_request payload) k
       /\ forall r, ok r = false -> resp_json r = None ->
            exists e, k (Some r) = Ret (inl e) /\ error_code e = status_error (status r)
                      /\ correlationId e = JNull.
Proof.
  split_and!.
  - intros [r|]; [|done]. cbn [fetch bind]. destruct (ok r); cbn [negb];
      [apply at_most_lift|by destruct (toErrorState _ _)].
  - split; [done|]. intros [r|]; [|done]. cbn [bind]. destruct (ok r); cbn [negb];
      [apply all_requests_lift|by destruct (toErrorState _ _)].
  - intros [r|]; [|done]. cbn [bind]. destruct (ok r); cbn [negb].
    + pose proof (ask_result_normal date_now iso_now (json_or_empty r)) as H.
      unfold ask_result in *. destruct (member_str _ _ _) as [cid|]; [|done]. cbn [res_bind] in *.
      destruct (negb _); [by split; [|intros [?|?]]|].
      destruct (ask_artifact _); [|done]. by destruct (lower_of _).
    + apply refused_yields, error_state_retry.
  - eexists. split; [reflexivity|]. intros r Hok Hj. cbn [bind].
    unfold json_or_empty. rewrite Hok, Hj. cbn [negb default].
    eexists. split; [reflexivity|]. unfold status_error. cbn.
    by repeat case_match.
Qed.

(** A link that is taken for a path of the site may leave it: a path that
    opens with two slashes is an address on another host. *)
Lemma evidence_leaves_site :
  exists r, normalizeEvidence (JArr [JObj [("source_type", JStr "alert"); ("source_id", JStr "7");
                                           ("href", JStr "//evil.example/x")]]) = Ok [r]
            /\ isSafeRelativeHref (href r) = true /\ href r = Some "//evil.example/x".
Proof. eexists. by vm_compute. Qed.

(** A band that is not a string aborts the reading of a whole conversation. *)
Lemma numeric_band_throws :
  normalizeConfidence (JObj [("band", JNum (Num.of_Z 1))]) = Exn "toLowerCase is not a function".
Proof. reflexivity. Qed.

(** ** Readable payloads *)

(** [(v ?? '').toLowerCase()] does not throw. *)
Definition text_or_none (v : jsval) : bool :=
  match v with JUndef | JNull | JStr _ => true | _ => false end.

Definition readable_answer (body : jsval) : bool :=
  negb (is_nullish body) && plain body && text_or_none (prop body "status")
    && text_or_none (prop (prop (prop body "display") "confidence") "band").

Definition readable_conversation (body : jsval) : bool :=
  negb (is_nullish body) && plain body
    && match prop body "transcript" with
       | JArr l => forallb (fun it =>
           text_or_none (prop (prop (prop it "artifact") "confidence") "band")) l
       | _ => true
       end.

Ltac reads := repeat first
  [ apply returns_bind; [solve [auto 8 with plain]|]; intros ? | progress cbn beta ].

Lemma text_lower v : text_or_none v = true -> returns (lower_of (vnullish v (JStr ""))).
Proof. destruct v; try done; intros _; by eexists. Qed.

Lemma confidence_returns v : text_or_none (prop v "band") = true -> returns (normalizeConfidence v).
Proof.
  intros Hv. unfold normalizeConfidence. apply returns_bind; [by apply text_lower|].
  intros raw. by eexists.
Qed.

Lemma evidence_returns v : plain v = true -> returns (normalizeEvidence v).
Proof.
  destruct v as [| | | | |l| |]; try (by eexists). cbn. intros Hl.
  apply returns_bind; [|intros refs; by eexists]. apply returns_mapM.
  apply List.Forall_forall. intros it Hit. rewrite forallb_forall in Hl. specialize (Hl it Hit).
  unfold evidence_ref. reads. by eexists.
Qed.

#[local] Hint Resolve text_lower confidence_returns evidence_returns : plain.

Lemma member_str_returns v k d :
  is_nullish v = false -> plain v = true -> returns (member_str v k d).
Proof. intros Hn Hv. unfold member_str, member. rewrite Hn. cbn. auto with plain. Qed.

Lemma stored_item_returns v :
  plain v = true -> text_or_none (prop (prop (prop v "artifact") "confidence") "band") = true ->
  returns (stored_item v).
Proof.
  intros Hv Hb. destruct v as [| | | | | |o|]; try (by eexists). unfold stored_item. reads.
  case_match; [by eexists|]. apply returns_bind; [|intros; by eexists].
  unfold stored_payload. revert Hv Hb. generalize (JObj o). intros v Hv Hb.
  repeat match goal with |- returns (if ?b then _ else _) => destruct b end;
    try (reads; by eexists).
  pose proof (plain_prop v "artifact" Hv) as Ha.
  destruct (prop v "artifact") as [| | | | | |ao|] eqn:E; try (by eexists).
  apply returns_bind; [|intros; by eexists]. unfold stored_artifact. reads. by eexists.
Qed.

(** Reading cannot fail on what the AI service documents: an answer or
    a conversation whose parts can be turned into text and whose bands and
    status are texts is read without an exception, an answer that names its
    conversation as an answer. *)
Theorem copilot_reads (date_now iso_now : nat -> string) (answer conv : jsval) (cid deviceId deviceName : string) :
  readable_answer answer = true -> readable_conversation conv = true ->
  returns (conversation_of cid deviceId deviceName conv)
  /\ exists id o, member_str answer "conversation_id" "" = Ok id
       /\ ask_result date_now iso_now answer = Ok o
       /\ (trim id <> "" <-> exists r, o = inr r).
Proof.
  unfold readable_answer, readable_conversation.
  rewrite !andb_true_iff, !negb_true_iff. intros [[[An Ap] As] Ab] [[Cn Cp] Ct]. split.
  - unfold conversation_of. apply returns_bind; [by apply member_str_returns|]. intros id. reads.
    apply returns_bind; [|intros; by eexists].
    pose proof (plain_prop conv "transcript" Cp) as Hp.
    destruct (prop conv "transcript") as [| | | | |l| |]; try (by eexists). cbn in *.
    apply returns_bind; [|intros; by eexists]. apply returns_mapM, List.Forall_forall.
    rewrite !forallb_forall in *. intros it Hit. by apply stored_item_returns; auto.
  - destruct (member_str_returns answer "conversation_id" "" An Ap) as [id E]. exists id.
    unfold ask_result. rewrite E. cbn [res_bind].
    destruct (truthy_str (trim id)) eqn:Hid; cbn [negb].
    + assert (returns (ask_artifact answer)) as [a ->] by (unfold ask_artifact; reads; by eexists).
      destruct (text_lower _ As) as [st Est]. cbn [res_bind]. rewrite Est. cbn [res_bind].
      eexists. do 2 (split; [reflexivity|]). apply truthy_str_spec in Hid. split; [by eexists|done].
    + eexists. do 2 (split; [reflexivity|]). apply truthy_str_false in Hid.
      split; [by rewrite Hid|by intros [r ?]].
Qed.

Definition demo_answer : jsval :=
  JObj [("conversation_id", JStr "c1"); ("status", JStr "ok");
        ("display", JObj [("answer_text", JStr "All quiet.");
                          ("confidence", JObj [("score", JNum (decimal 9 (-1)))])])].
Definition demo_conversation : jsval :=
  JObj [("conversation_id", JStr "c1");
        ("transcript", JArr [JObj [("id", JStr "1"); ("type", JStr "user_message"); ("text", JStr "?")]])].

Lemma copilot_reads_witness :
  readable_answer demo_answer = true /\ readable_conversation demo_conversation = true
  /\ returns (conversation_of "c1" "d" "Desk" demo_conversation).
Proof.
  split; [reflexivity|]. split; [reflexivity|].
  destruct (copilot_reads (fun _ => "0") (fun _ => "0") demo_answer demo_conversation "c1" "d" "Desk"
              eq_refl eq_refl) as [H _]. exact H.
Defined.
