(* ===== verification/Telemetry.v ===== *)
(** * Telemetry values and kernel events

    Models src/lib/telemetry.ts: how metrics of unknown shape become numbers
    and texts, and how a kernel event of any shape is normalised.  A payload
    that is an object and one that is an array are both accepted, as the
    code does. *)

From S2P Require Import Prelude JsNumber JsString JsValue.

Local Open Scope Z_scope.

Definition hundred : num := Num.of_Z 100.
Definition one : num := Num.of_Z 1.

Definition telemetryNumber (value : jsval) : option num :=
  match value with
  | JNum n => if Num.is_finite n then Some n else None
  | JStr s =>
      let parsed := number_of_string (trim (remove_first "%" s)) in
      if Num.is_finite parsed then Some parsed else None
  | _ => None
  end.

Definition telemetryPercent (value : jsval) (fallback : string) : string :=
  match telemetryNumber value with
  | None => fallback
  | Some parsed => Num.to_fixed 0 (Num.clamp Num.zero hundred parsed) +:+ "%"
  end.

Definition telemetryRisk (value : jsval) : option num :=
  match telemetryNumber value with
  | None => None
  | Some parsed =>
      Some (if Num.le parsed one then Num.clamp Num.zero hundred (Num.mul parsed hundred)
            else Num.clamp Num.zero hundred parsed)
  end.

Definition telemetryText (value : jsval) (fallback : string) : string :=
  match value with
  | JStr s => if truthy_str (trim s) then trim s else fallback
  | JNum n => if Num.is_finite n then Num.to_string n else fallback
  | _ => fallback
  end.

Definition telemetryBooleanStatus (value : jsval) (trueText falseText fallback : string) : string :=
  match value with JBool b => if b then trueText else falseText | _ => fallback end.

(** [value.map((item) => telemetryText(item, '')).filter(Boolean)] *)
Definition text_items (l : list jsval) : list string :=
  List.filter truthy_str (map (fun item => telemetryText item "") l).

Definition telemetryMaskedFields (value : jsval) (fallback : string) : string :=
  match value with
  | JArr [] => "None"
  | JArr l => match text_items l with [] => "None" | normalized => join ", " normalized end
  | _ => fallback
  end.

(** ** Kernel events *)

Inductive KernelTelemetryCategory := k_exec | k_integrity | k_attestation | k_update | k_runtime.

Definition category_str (c : KernelTelemetryCategory) : string :=
  match c with
  | k_exec => "exec" | k_integrity => "integrity" | k_attestation => "attestation"
  | k_update => "update" | k_runtime => "runtime"
  end.

Definition normalizeKernelCategory (value : jsval) : KernelTelemetryCategory :=
  let category := toLowerCase (telemetryText value "exec") in
  if category === "integrity" then k_integrity
  else if category === "attestation" then k_attestation
  else if category === "update" then k_update
  else if category === "runtime" then k_runtime
  else k_exec.

Record ParsedKernelTelemetryEvent := {
  eventId : num;
  eventType : num;
  eventTimestampUnix : num;
  category : KernelTelemetryCategory;
  subtype : string;
  ev_severity : string;
  decision : string;
  reasonCode : string;
  durationMs : num;
  queueDepth : num;
  dropCount : num;
  opcode : string;
  ev_status : string;
  errorCode : num;
  policyRef : string;
  maskedFields : list string;
  payload : obj;
  payloadJson : string;
}.

Definition number_or_zero (v : jsval) : num := telemetryNumber v ?? Num.zero.

(** [typeof v === 'object' && v !== null] *)
Definition object_like (v : jsval) : bool :=
  match v with JObj _ | JArr _ => true | _ => false end.

(** The event's payload, from the object or from its JSON text. *)
Definition event_payload (kernelEvent : jsval) (payloadJson : string) : jsval :=
  let direct := prop kernelEvent "payload" in
  if object_like direct then direct
  else match json_parse payloadJson with
       | Some parsed => if object_like parsed then parsed else JObj []
       | None => JObj []
       end.

Definition payload_status (payload : jsval) : string :=
  toLowerCase (telemetryText (prop payload "status") "unknown").

Definition payload_error (payload : jsval) : num := number_or_zero (prop payload "error_code").

Definition norm_subtype (p : jsval) : string := toLowerCase (telemetryText (prop p "subtype") "opcode").
Definition norm_severity (p : jsval) : string :=
  toLowerCase (telemetryText (prop p "severity")
    (if (payload_status p !== "ok") || Num.gt (payload_error p) Num.zero then "high" else "info")).
Definition norm_decision (p : jsval) : string :=
  toLowerCase (telemetryText (prop p "decision")
    (if (payload_status p === "ok") || (payload_status p === "completed") then "allow" else "deny")).
Definition norm_reason (p : jsval) : string :=
  toLowerCase (telemetryText (prop p "reason_code") (or_str (payload_status p) "unknown")).
Definition norm_drops (p : jsval) : num :=
  number_or_zero (vnullish (prop p "drop_count") (prop p "dropped_events")).
Definition norm_masked (p : jsval) : list string :=
  match prop p "masked_fields" with JArr l => text_items l | _ => [] end.

(** The assignments to [normalizedPayload], in order. *)
Definition norm_fields (p : jsval) : obj :=
  [("category", JStr (category_str (normalizeKernelCategory (prop p "category"))));
   ("subtype", JStr (norm_subtype p));
   ("severity", JStr (norm_severity p));
   ("decision", JStr (norm_decision p));
   ("reason_code", JStr (norm_reason p));
   ("duration_ms", JNum (number_or_zero (prop p "duration_ms")));
   ("queue_depth", JNum (number_or_zero (prop p "queue_depth")));
   ("drop_count", JNum (norm_drops p));
   ("policy_ref", JStr (telemetryText (prop p "policy_ref") ""));
   ("masked_fields", JArr (map JStr (norm_masked p)))].

Definition normalize_payload (p : jsval) : obj := spread (own_entries p) (norm_fields p).

Definition parseKernelTelemetryEvent (value : jsval) : option ParsedKernelTelemetryEvent :=
  if negb (object_like value) then None
  else
    let payloadJson := telemetryText (prop value "payload_json") "{}" in
    let p := event_payload value payloadJson in
    Some {| eventId := number_or_zero (prop value "event_id");
            eventType := number_or_zero (prop value "event_type");
            eventTimestampUnix := number_or_zero (prop value "event_timestamp_unix");
            category := normalizeKernelCategory (prop p "category");
            subtype := norm_subtype p;
            ev_severity := norm_severity p;
            decision := norm_decision p;
            reasonCode := norm_reason p;
            durationMs := number_or_zero (prop p "duration_ms");
            queueDepth := number_or_zero (prop p "queue_depth");
            dropCount := norm_drops p;
            opcode := telemetryText (prop p "opcode") "Unknown";
            ev_status := payload_status p;
            errorCode := payload_error p;
            policyRef := telemetryText (prop p "policy_ref") "";
            maskedFields := norm_masked p;
            payload := normalize_payload p;
            payloadJson := payloadJson |}.

(** ** Metrics *)

Lemma telemetryNumber_finite v n : telemetryNumber v = Some n -> Num.is_finite n = true.
Proof. destruct v; cbn; try done; case_match; try done; by intros [= <-]. Qed.

Lemma number_or_zero_finite v : Num.is_finite (number_or_zero v) = true.
Proof.
  unfold number_or_zero. destruct (telemetryNumber v) as [n|] eqn:E; [|done].
  by apply telemetryNumber_finite in E.
Qed.

(** Metrics never leave their scale: a percentage is the given fallback
    or the rounding of a number in [0, 100], and a risk, given as a fraction
    or as a percentage, is a number in [0, 100]; a value that is no finite
    number gives the fallback and no risk. *)
Theorem metrics_on_scale (v : jsval) (fallback : string) :
  match telemetryNumber v with
  | None => telemetryPercent v fallback = fallback /\ telemetryRisk v = None
  | Some x =>
      Num.is_finite x = true
      /\ (exists n, Num.within Num.zero hundred n = true
            /\ telemetryPercent v fallback = Num.to_fixed 0 n +:+ "%")
      /\ exists r, telemetryRisk v = Some r /\ Num.within Num.zero hundred r = true
  end.
Proof.
  unfold telemetryPercent, telemetryRisk.
  destruct (telemetryNumber v) as [x|] eqn:E; [|done]. apply telemetryNumber_finite in E.
  split_and!; [done|..].
  - eexists. split; [|done]. auto with js.
  - eexists. split; [done|]. destruct (Num.le x one); [|auto with js].
    apply Num.clamp_within; [done|by apply Num.mul_not_nan].
Qed.

(** ** Normalising twice *)

Lemma text_cases v d : telemetryText v d = d \/ tidy (telemetryText v d).
Proof. destruct v; cbn [telemetryText]; auto; case_match; auto with js. Qed.

Lemma text_tidy v d : tidy d -> tidy (telemetryText v d).
Proof. by destruct (text_cases v d) as [->|]. Qed.

Lemma text_of_tidy s d : tidy s -> telemetryText (JStr s) d = s.
Proof. intros [Ht Hn]. cbn [telemetryText]. rewrite Ht. by apply truthy_str_spec in Hn as ->. Qed.

Lemma lower_text_stable v d d' :
  tidy d -> let s := toLowerCase (telemetryText v d) in
  toLowerCase (telemetryText (JStr s) d') = s.
Proof.
  intros Hd s. unfold s. rewrite text_of_tidy by auto using tidy_lower, text_tidy.
  apply toLowerCase_idem.
Qed.

Lemma number_stable v : number_or_zero (JNum (number_or_zero v)) = number_or_zero v.
Proof. unfold number_or_zero at 1. cbn. by rewrite number_or_zero_finite. Qed.

Lemma text_items_tidy l : List.Forall tidy (text_items l).
Proof.
  apply List.Forall_forall. intros s [Hs Hne]%filter_In. apply in_map_iff in Hs as (v & <- & _).
  destruct (text_cases v "") as [E|]; [|done]. by rewrite E in Hne.
Qed.

Lemma text_items_stable l : List.Forall tidy l -> text_items (map JStr l) = l.
Proof.
  unfold text_items. induction 1 as [|s l Hs _ IH]; [done|]. cbn [map].
  rewrite text_of_tidy by done. cbn [List.filter].
  destruct Hs as [_ ->%truthy_str_spec]. by rewrite IH.
Qed.

(** *** Lookups in a normalised payload *)

Lemma spread_get (o fs : obj) k :
  NoDup (keys fs) ->
  get (spread o fs) k = match own_get fs k with Some v => v | None => get o k end.
Proof.
  revert o. induction fs as [|[k' v] fs IH]; intros o Hnd; [done|].
  apply list.NoDup_cons in Hnd as [Hni Hnd].
  change (spread o ((k', v) :: fs)) with (spread (put o k' v) fs). rewrite IH by done. cbn [own_get].
  destruct (String.eqb_spec k k') as [->|Hk]; [|destruct (own_get fs k); [done|by rewrite get_put_ne]].
  destruct (own_get fs k') as [w|] eqn:E; [|apply get_put_eq].
  exfalso. apply Hni. apply own_get_elem in E. apply list_elem_of_In, in_map_iff. by exists (k', w).
Qed.

(** A name that does not start with a digit is no array index. *)
Definition no_index (k : string) : bool :=
  match k with String c _ => negb (is_digit c) | "" => false end.

Lemma own_get_missing {A} (o : list (string * A)) k : ~ In k (keys o) -> own_get o k = None.
Proof.
  induction o as [|[k' v] o IH]; [done|]. cbn. intros Hni.
  destruct (String.eqb_spec k k') as [->|]; [tauto|]. apply IH. tauto.
Qed.

Lemma entries_get p k :
  object_like p = true -> no_index k = true -> inherited k = JUndef ->
  get (own_entries p) k = prop p k.
Proof.
  destruct p as [| | | | |l|o|]; try done. intros _ Hk Hi. cbn [own_entries prop].
  unfold get. rewrite own_get_missing; [done|]. intros Hin.
  apply in_map_iff in Hin as ([k' x] & <- & Hin). apply list_elem_of_In in Hin.
  apply elem_of_lookup_imap in Hin as (i & y & [= -> ->] & _). cbn [fst] in Hk.
  pose proof (pretty_digits (N.of_nat i)) as Hd.
  destruct (pretty.pretty (N.of_nat i)) as [|c s]; [done|]. cbn in *.
  by destruct (is_digit c).
Qed.

Lemma norm_fields_nodup p : NoDup (keys (norm_fields p)).
Proof. apply (bool_decide_eq_true_1 (NoDup (keys (norm_fields p)))). reflexivity. Qed.

(** What the normalised payload says about a field. *)
Lemma norm_get p k :
  object_like p = true -> no_index k = true -> inherited k = JUndef ->
  prop (JObj (normalize_payload p)) k =
    match own_get (norm_fields p) k with Some v => v | None => prop p k end.
Proof.
  intros Hp Hk Hi. cbn [prop]. unfold normalize_payload. rewrite spread_get.
  - destruct (own_get (norm_fields p) k); [done|by apply entries_get].
  - apply norm_fields_nodup.
Qed.

Lemma category_roundtrip c : normalizeKernelCategory (JStr (category_str c)) = c.
Proof. by destruct c. Qed.

Ltac norm_lookup := rewrite !norm_get by done; cbn [own_get norm_fields String.eqb Ascii.eqb Bool.eqb].

Lemma policy_stable v : telemetryText (JStr (telemetryText v "")) "" = telemetryText v "".
Proof. destruct (text_cases v "") as [->|H]; [done|by apply text_of_tidy]. Qed.

Lemma status_or_tidy p : tidy (or_str (payload_status p) "unknown").
Proof.
  unfold or_str. case_match; [|done]. unfold payload_status. apply tidy_lower. by apply text_tidy.
Qed.

(** Every field of a normalised payload is read as it was written. *)
Lemma norm_stable p (q := JObj (normalize_payload p)) :
  object_like p = true ->
  normalizeKernelCategory (prop q "category") = normalizeKernelCategory (prop p "category")
  /\ norm_subtype q = norm_subtype p /\ norm_severity q = norm_severity p
  /\ norm_decision q = norm_decision p /\ norm_reason q = norm_reason p
  /\ number_or_zero (prop q "duration_ms") = number_or_zero (prop p "duration_ms")
  /\ number_or_zero (prop q "queue_depth") = number_or_zero (prop p "queue_depth")
  /\ norm_drops q = norm_drops p
  /\ telemetryText (prop q "policy_ref") "" = telemetryText (prop p "policy_ref") ""
  /\ norm_masked q = norm_masked p.
Proof.
  intros Hp. unfold q. split_and!.
  - norm_lookup. apply category_roundtrip.
  - unfold norm_subtype at 1. norm_lookup. by apply lower_text_stable.
  - unfold norm_severity at 1. norm_lookup. apply lower_text_stable. by case_match.
  - unfold norm_decision at 1. norm_lookup. apply lower_text_stable. by case_match.
  - unfold norm_reason at 1. norm_lookup. apply lower_text_stable. apply status_or_tidy.
  - norm_lookup. apply number_stable.
  - norm_lookup. apply number_stable.
  - unfold norm_drops at 1. norm_lookup. apply number_stable.
  - norm_lookup. apply policy_stable.
  - unfold norm_masked at 1. norm_lookup. unfold norm_masked.
    destruct (prop p "masked_fields"); try done. apply text_items_stable, text_items_tidy.
Qed.

Lemma norm_fields_stable p :
  object_like p = true -> norm_fields (JObj (normalize_payload p)) = norm_fields p.
Proof.
  intros (H1 & H2 & H3 & H4 & H5 & H6 & H7 & H8 & H9 & H10)%norm_stable.
  unfold norm_fields. by rewrite H1, H2, H3, H4, H5, H6, H7, H8, H9, H10.
Qed.

Lemma norm_payload_stable p k :
  object_like p = true ->
  get (normalize_payload (JObj (normalize_payload p))) k = get (normalize_payload p) k.
Proof.
  intros Hp. unfold normalize_payload at 1. rewrite norm_fields_stable, spread_get by first [done|apply norm_fields_nodup].
  destruct (own_get (norm_fields p) k) as [v|] eqn:E; [|done].
  unfold normalize_payload. by rewrite spread_get, E by apply norm_fields_nodup.
Qed.

(** A kernel event is normal after one pass: parsing the event that was
    parsed, with its normalised payload, gives the same event again, its
    payload answering every lookup alike. *)
Theorem kernel_event_stable value e :
  parseKernelTelemetryEvent value = Some e ->
  exists e',
    parseKernelTelemetryEvent (JObj
      [("event_id", JNum (eventId e)); ("event_type", JNum (eventType e));
       ("event_timestamp_unix", JNum (eventTimestampUnix e));
       ("payload", JObj (payload e)); ("payload_json", JStr (payloadJson e))]) = Some e'
    /\ (forall k, get (payload e') k = get (payload e) k)
    /\ e' = {| eventId := eventId e; eventType := eventType e;
               eventTimestampUnix := eventTimestampUnix e; category := category e;
               subtype := subtype e; ev_severity := ev_severity e; decision := decision e;
               reasonCode := reasonCode e; durationMs := durationMs e; queueDepth := queueDepth e;
               dropCount := dropCount e; opcode := opcode e; ev_status := ev_status e;
               errorCode := errorCode e; policyRef := policyRef e;
               maskedFields := maskedFields e; payload := payload e'; payloadJson := payloadJson e |}.
Proof.
  unfold parseKernelTelemetryEvent at 1. destruct (object_like value) eqn:Hv; [|done].
  set (json := telemetryText (prop value "payload_json") "{}").
  assert (object_like (event_payload value json) = true) as Hp.
  { unfold event_payload. repeat case_match; done. }
  revert Hp. generalize (event_payload value json). intros p Hp [= <-]. cbn [negb].
  assert (tidy json) as Hj by (by apply text_tidy).
  destruct (norm_stable p Hp) as (H1 & H2 & H3 & H4 & H5 & H6 & H7 & H8 & H9 & H10).
  eexists. split; [reflexivity|]. unfold event_payload.
  cbn [eventId eventType eventTimestampUnix category subtype ev_severity decision reasonCode durationMs
       queueDepth dropCount opcode ev_status errorCode policyRef maskedFields payload payloadJson].
  repeat match goal with |- context [prop (JObj (?x :: ?l)) ?k] =>
    let v := eval cbn -[normalize_payload] in (get (x :: l) k) in change (prop (JObj (x :: l)) k) with v end.
  cbn [object_like]. split; [intros k; by apply norm_payload_stable|].
  rewrite !number_stable, (text_of_tidy json) by done.
  rewrite H1, H2, H3, H4, H5, H6, H7, H8, H9, H10.
  unfold payload_status, payload_error. by norm_lookup.
Qed.

Definition demo_event : jsval :=
  JObj [("event_id", JNum (Num.of_Z 7)); ("payload", JObj [("status", JStr " OK "); ("opcode", JStr "exec")])].

Lemma kernel_event_stable_witness :
  exists e e', parseKernelTelemetryEvent demo_event = Some e /\ decision e = "allow"
    /\ decision e' = decision e.
Proof.
  destruct (parseKernelTelemetryEvent demo_event) as [e|] eqn:E; [|done].
  destruct (kernel_event_stable demo_event e E) as (e' & _ & _ & He).
  exists e, e'. split; [reflexivity|]. split; [by injection E as <-|exact (f_equal decision He)].
Defined.
