(* ===== verification/Uuid.v ===== *)
(** * Random identifiers

    Models src/lib/uuid.ts.  What the platform offers and yields is a
    parameter: its [randomUUID], the bytes of [getRandomValues], the clock
    and the random number of the last resort. *)

From S2P Require Import Prelude JsString JsValue.

Local Open Scope N_scope.

(** [n.toString(16)]; the number of bits of [n] is enough fuel. *)
Fixpoint hex_go (fuel : nat) (n : N) (acc : string) : string :=
  match fuel with
  | O => acc
  | S fuel =>
      if n =? 0 then acc else hex_go fuel (n / 16) (String (hex_lower (n mod 16)) acc)
  end.
Definition hex_text (n : N) : string :=
  if n =? 0 then "0" else hex_go (N.to_nat (N.size n)) n "".

Record WebCrypto := {
  crypto_randomUUID : option string;
  crypto_randomValues : option (list N);
}.

(** [bytes[i] = f(bytes[i])] on a typed array that has the index. *)
Definition update_byte (i : nat) (f : N -> N) (bytes : list N) : list N := alter f i bytes.

(** [byte.toString(16).padStart(2, '0')] *)
Definition hex_pair (byte : N) : string := padStart 2 "0" (hex_text byte).

Definition uuid_of_bytes (bytes : list N) : string :=
  let bytes := update_byte 6 (fun b => N.lor (N.land b 15) 64) bytes in
  let bytes := update_byte 8 (fun b => N.lor (N.land b 63) 128) bytes in
  let hex := join "" (map hex_pair bytes) in
  slice 0 8 hex +:+ "-" +:+ slice 8 12 hex +:+ "-" +:+ slice 12 16 hex +:+ "-" +:+
  slice 16 20 hex +:+ "-" +:+ slice 20 32 hex.

(** [rand] is [Math.floor(Math.random() * Number.MAX_SAFE_INTEGER)]. *)
Definition uuid_of_clock (dateNow rand : N) : string :=
  let now := padStart 12 "0" (hex_text dateNow) in
  let rand := padStart 13 "0" (hex_text rand) in
  slice 0 8 now +:+ "-" +:+ slice 8 12 now +:+ "-4" +:+ slice 0 3 rand +:+ "-a" +:+ slice 3 6 rand
    +:+ "-" +:+ padEnd 12 "0" (slice 6 18 rand).

Definition randomUuid (webCrypto : option WebCrypto) (dateNow rand : N) : string :=
  match webCrypto with
  | Some {| crypto_randomUUID := Some uuid |} => uuid
  | Some {| crypto_randomUUID := None; crypto_randomValues := Some bytes |} => uuid_of_bytes bytes
  | _ => uuid_of_clock dateNow rand
  end.

(** ** The shape of an identifier *)

Definition is_hex (c : ascii) : bool := is_digit c || between 97 102 c.
Definition is_variant (c : ascii) : bool := existsb (Ascii.eqb c) ["8"; "9"; "a"; "b"]%char.
Definition is_char (x c : ascii) : bool := Ascii.eqb c x.

(** Version 4 of the format: groups of 8, 4, 4, 4 and 12 hexadecimal digits,
    the third opening with 4 and the fourth with the variant. *)
Definition v4_format : list (ascii -> bool) :=
  repeat is_hex 8 ++ [is_char "-"] ++ repeat is_hex 4 ++ [is_char "-"; is_char "4"] ++
  repeat is_hex 3 ++ [is_char "-"; is_variant] ++ repeat is_hex 3 ++ [is_char "-"] ++
  repeat is_hex 12.

Fixpoint matches (format : list (ascii -> bool)) (s : string) : bool :=
  match format, s with
  | [], "" => true
  | f :: format, String c s => f c && matches format s
  | _, _ => false
  end.

(** ** Hexadecimal texts *)

(** The sixteen values of a hexadecimal digit. *)
Ltac hex_cases d :=
  intros; destruct d as [|p]; [reflexivity|];
  do 4 (destruct p as [p|p|]; try reflexivity); exfalso; lia.

Lemma hex_lower_hex d : d < 16 -> is_hex (hex_lower d) = true.
Proof. hex_cases d. Qed.

Lemma hex_go_hex fuel n acc : sforall is_hex acc = true -> sforall is_hex (hex_go fuel n acc) = true.
Proof.
  revert n acc. induction fuel as [|fuel IH]; intros n acc H; [done|]. cbn [hex_go].
  case_match; [done|]. apply IH. cbn [sforall]. rewrite hex_lower_hex by (apply N.mod_lt; lia). done.
Qed.

Lemma hex_go_length fuel n acc k :
  n < 16 ^ N.of_nat k -> (String.length (hex_go fuel n acc) <= String.length acc + k)%nat.
Proof.
  revert n acc k. induction fuel as [|fuel IH]; intros n acc k Hn; cbn [hex_go]; [lia|].
  destruct (N.eqb_spec n 0); [lia|]. destruct k as [|k]; [cbn in Hn; lia|].
  rewrite Nat2N.inj_succ, N.pow_succ_r' in Hn.
  specialize (IH (n / 16) (String (hex_lower (n mod 16)) acc) k).
  cbn [String.length] in IH. assert (n / 16 < 16 ^ N.of_nat k) by (apply N.Div0.div_lt_upper_bound; lia).
  specialize (IH H). lia.
Qed.

Lemma hex_text_hex n : sforall is_hex (hex_text n) = true.
Proof. unfold hex_text. case_match; [done|]. by apply hex_go_hex. Qed.

Lemma hex_text_length n k :
  n < 16 ^ N.of_nat (S k) -> (String.length (hex_text n) <= S k)%nat.
Proof.
  intros Hn. unfold hex_text. case_match; [cbn; lia|]. by apply (hex_go_length _ _ "" (S k)).
Qed.

(** The value a text denotes: the digits of a number denote the number, so
    none is lost. *)
Definition hex_value (c : ascii) : N :=
  if is_digit c then N_of_ascii c - 48 else N_of_ascii c - 87.
Fixpoint read_hex (s : string) (v : N) : N :=
  match s with "" => v | String c s => read_hex s (16 * v + hex_value c) end.

Lemma hex_value_lower d : d < 16 -> hex_value (hex_lower d) = d.
Proof. hex_cases d. Qed.

Lemma read_hex_go fuel n acc : n < 2 ^ N.of_nat fuel -> read_hex (hex_go fuel n acc) 0 = read_hex acc n.
Proof.
  revert n acc. induction fuel as [|fuel IH]; intros n acc Hn; cbn [hex_go].
  - cbn in Hn. by replace n with 0 by lia.
  - destruct (N.eqb_spec n 0) as [->|]; [done|]. rewrite Nat2N.inj_succ, N.pow_succ_r' in Hn.
    rewrite IH.
    + cbn [read_hex]. rewrite hex_value_lower by (apply N.mod_lt; lia).
      by rewrite <- N.div_mod by lia.
    + apply N.Div0.div_lt_upper_bound. lia.
Qed.

Lemma hex_text_value n : read_hex (hex_text n) 0 = n.
Proof.
  unfold hex_text. destruct (N.eqb_spec n 0) as [->|]; [done|]. rewrite read_hex_go; [done|].
  rewrite N2Nat.id. apply N.size_gt.
Qed.

(** ** Both ways of making an identifier follow the format *)

Lemma matches_app f g a b : matches f a = true -> matches g b = true -> matches (f ++ g) (a +:+ b) = true.
Proof.
  revert a. induction f as [|x f IH]; intros [|c a]; cbn; try done.
  intros [-> Ha]%andb_true_iff Hb. by apply IH.
Qed.

Lemma matches_hex n s :
  String.length s = n -> sforall is_hex s = true -> matches (repeat is_hex n) s = true.
Proof.
  intros <-. induction s as [|c s IH]; [done|]. cbn. intros [-> Hs]%andb_true_iff. by apply IH.
Qed.

Lemma sforall_stake f n s : sforall f s = true -> sforall f (stake n s) = true.
Proof.
  revert s. induction n as [|n IH]; intros [|c s]; cbn; try done.
  intros [-> Hs]%andb_true_iff. by apply IH.
Qed.
Lemma sforall_sdrop f n s : sforall f s = true -> sforall f (sdrop n s) = true.
Proof.
  revert s. induction n as [|n IH]; intros [|c s]; cbn; try done.
  intros [_ Hs]%andb_true_iff. by apply IH.
Qed.
Lemma length_stake_min n s : String.length (stake n s) = Nat.min n (String.length s).
Proof. revert s. induction n as [|n IH]; intros [|c s]; cbn; try done. by rewrite IH. Qed.
Lemma length_sdrop n s : String.length (sdrop n s) = (String.length s - n)%nat.
Proof. revert s. induction n as [|n IH]; intros [|c s]; cbn; try done. Qed.

(** A slice of a hexadecimal text that is long enough. *)
Lemma slice_hex i j s :
  (i <= j <= String.length s)%nat -> sforall is_hex s = true ->
  matches (repeat is_hex (j - i)) (slice i j s) = true.
Proof.
  intros Hl Hs. unfold slice. apply matches_hex; [rewrite length_stake_min, length_sdrop; lia|].
  by apply sforall_stake, sforall_sdrop.
Qed.

Lemma zeros_hex n : sforall is_hex (String.string_of_list_ascii (repeat "0"%char n)) = true.
Proof. by induction n. Qed.
Lemma length_zeros n : String.length (String.string_of_list_ascii (repeat "0"%char n)) = n.
Proof. induction n as [|n IH]; [done|]. cbn. by rewrite IH. Qed.
Lemma padStart_hex n s :
  sforall is_hex s = true ->
  sforall is_hex (padStart n "0" s) = true
  /\ String.length (padStart n "0" s) = Nat.max n (String.length s).
Proof.
  intros Hs. unfold padStart. rewrite sforall_app, zeros_hex, Hs, length_append, length_zeros.
  split; [done|lia].
Qed.

Lemma padEnd_hex n s :
  sforall is_hex s = true ->
  sforall is_hex (padEnd n "0" s) = true
  /\ String.length (padEnd n "0" s) = Nat.max n (String.length s).
Proof.
  intros Hs. unfold padEnd. rewrite sforall_app, zeros_hex, Hs, length_append, length_zeros.
  split; [done|lia].
Qed.

(** The last resort: the clock fits 48 bits and the number 53. *)
Lemma uuid_of_clock_v4 dateNow rand :
  dateNow < 2 ^ 48 -> rand < 2 ^ 53 -> matches v4_format (uuid_of_clock dateNow rand) = true.
Proof.
  intros Hd Hr. unfold uuid_of_clock.
  destruct (padStart_hex 12 _ (hex_text_hex dateNow)) as [N1 N2].
  destruct (padStart_hex 13 _ (hex_text_hex rand)) as [R1 R2].
  pose proof (hex_text_length dateNow 11 ltac:(cbn; lia)) as L1.
  pose proof (hex_text_length rand 13 ltac:(cbn; lia)) as L2.
  set (now := padStart 12 "0" (hex_text dateNow)) in *.
  set (rnd := padStart 13 "0" (hex_text rand)) in *. unfold v4_format.
  change ([is_char "-"; is_char "4"]) with ([is_char "-"; is_char "4"] ++ []).
  assert (forall s, sforall is_hex s = true -> (String.length s <= 12)%nat ->
            matches (repeat is_hex 12) (padEnd 12 "0" s) = true) as Hpad.
  { intros s Hs Hl. destruct (padEnd_hex 12 s Hs) as [P1 P2]. apply matches_hex; [lia|done]. }
  apply (matches_app (repeat is_hex 8)); [apply (slice_hex 0 8); [lia|done]|].
  apply (matches_app [is_char "-"] _ "-"); [done|].
  apply (matches_app (repeat is_hex 4)); [apply (slice_hex 8 12); [lia|done]|].
  apply (matches_app [is_char "-"; is_char "4"] _ "-4"); [done|].
  apply (matches_app (repeat is_hex 3)); [apply (slice_hex 0 3); [lia|done]|].
  apply (matches_app [is_char "-"; is_variant] _ "-a"); [done|].
  apply (matches_app (repeat is_hex 3)); [apply (slice_hex 3 6); [lia|done]|].
  apply (matches_app [is_char "-"] _ "-"); [done|]. apply Hpad.
  - by apply sforall_stake, sforall_sdrop.
  - unfold slice. rewrite length_stake_min. lia.
Qed.

Definition bytes_256 : list N := map N.of_nat (seq 0 256).

Lemma byte_in_table b : b < 256 -> In b bytes_256.
Proof.
  intros Hb. apply in_map_iff. exists (N.to_nat b). split; [lia|]. apply in_seq. lia.
Qed.

(** What two digits a byte gives, a byte with the version bits and a byte
    with the variant bits. *)
Lemma pair_table :
  forallb (fun b => matches [is_hex; is_hex] (hex_pair b)
                    && matches [is_char "4"; is_hex] (hex_pair (N.lor (N.land b 15) 64))
                    && matches [is_variant; is_hex] (hex_pair (N.lor (N.land b 63) 128))) bytes_256 = true.
Proof. vm_compute. reflexivity. Qed.

Lemma pair_shape b : b < 256 ->
  matches [is_hex; is_hex] (hex_pair b) = true
  /\ matches [is_char "4"; is_hex] (hex_pair (N.lor (N.land b 15) 64)) = true
  /\ matches [is_variant; is_hex] (hex_pair (N.lor (N.land b 63) 128)) = true.
Proof.
  intros Hb. pose proof pair_table as H. rewrite forallb_forall in H.
  specialize (H b (byte_in_table b Hb)). by rewrite !andb_true_iff in H; naive_solver.
Qed.

Lemma matches_two f g s :
  matches [f; g] s = true -> exists c d, s = String c (String d "") /\ f c = true /\ g d = true.
Proof.
  destruct s as [|c [|d [|]]]; cbn; rewrite ?andb_false_r; try done.
  rewrite !andb_true_iff. intros (Hc & Hd & _). by exists c, d.
Qed.

(** The two digits of a byte, by name. *)
Ltac name_pair H :=
  let c := fresh "c" in let d := fresh "d" in let E := fresh "E" in
  let Hc := fresh "Hc" in let Hd := fresh "Hd" in
  apply matches_two in H as (c & d & E & Hc & Hd); rewrite E; clear E.

Lemma uuid_of_bytes_v4 bytes :
  length bytes = 16%nat -> Forall (fun b => b < 256) bytes ->
  matches v4_format (uuid_of_bytes bytes) = true.
Proof.
  intros Hl Hb. do 16 (destruct bytes as [|? bytes]; [done|]). destruct bytes; [|done]. clear Hl.
  unfold uuid_of_bytes, update_byte. cbn [alter list_alter map].
  repeat match goal with H : Forall _ (?b :: _) |- _ =>
    apply Forall_cons_iff in H as [?%pair_shape H] end.
  repeat match goal with H : _ /\ _ |- _ => destruct H as [? H] end.
  repeat match goal with H : matches [_; _] ?s = true |- context [?s] => name_pair H end.
  clear Hb. cbn -[is_hex is_variant is_char]. repeat match goal with H : ?x = true |- context [?x] => rewrite H end. done.
Qed.

(** What the platform documents: [randomUUID] follows the format, and a
    filled array of 16 bytes is 16 bytes. *)
Definition platform_ok (webCrypto : option WebCrypto) : Prop :=
  match webCrypto with
  | Some {| crypto_randomUUID := Some uuid |} => matches v4_format uuid = true
  | Some {| crypto_randomUUID := None; crypto_randomValues := Some bytes |} =>
      length bytes = 16%nat /\ Forall (fun b => b < 256) bytes
  | _ => True
  end.

(** Identifiers follow the format of a version 4 UUID, whichever way
    they are made: by the platform, from its random bytes with the version
    and variant bits set, or from the clock and a random number. *)
Theorem randomUuid_v4 webCrypto dateNow rand :
  platform_ok webCrypto -> dateNow < 2 ^ 48 -> rand < 2 ^ 53 ->
  matches v4_format (randomUuid webCrypto dateNow rand) = true.
Proof.
  intros Hp Hd Hr. destruct webCrypto as [[[uuid|] [bytes|]]|]; cbn in *;
    try exact Hp; try (by apply uuid_of_clock_v4).
  destruct Hp. by apply uuid_of_bytes_v4.
Qed.

Definition demo_crypto : WebCrypto :=
  {| crypto_randomUUID := None; crypto_randomValues := Some (map N.of_nat (seq 240 16)) |}.

Lemma randomUuid_v4_witness :
  randomUuid (Some demo_crypto) 0 0 = "f0f1f2f3-f4f5-46f7-b8f9-fafbfcfdfeff"
  /\ matches v4_format (randomUuid (Some demo_crypto) 0 0) = true
  /\ matches v4_format (randomUuid None 1700000000000 9007199254740990) = true.
Proof.
  split; [vm_compute; reflexivity|]. split; apply randomUuid_v4; try done; try lia.
  split; [done|]. repeat constructor.
Defined.
