(* ===== verification/Devices.v ===== *)
(** * Device rows

    [DateTime] models src/lib/dateTime.ts and the Module [Rows]
    src/app/device-management/lib/deviceManagementData.ts: how the rows of
    the device endpoints become what the device pages show, how a device's
    detail is merged into its row, and how the audit trail is composed.

    Reading a date and the local time zone are parameters: [date_parse]
    gives the time value of a text in milliseconds, [None] for an invalid
    date, and [local] the calendar fields of a time value.  A missing field
    and null are both [None]. *)

From S2P Require Import Prelude JsNumber JsString JsValue Commands RenderModel RenderLaws.
Import Results(NumberOrString, ANumber, AString, CommandState, state_str, trim_or, trim_or_null).

Local Open Scope Z_scope.

(** ** src/lib/dateTime.ts *)

Record LocalTime := {
  fullYear : Z; month : Z; date : Z; hours : Z; minutes : Z; secs : Z;
}.

Module DateTime.
Section Zone.
Context (date_parse : string -> option Z) (local : Z -> LocalTime).

Definition pad2 (value : Z) : string := padStart 2 "0" (Num.digits value).

Definition formatLocalDateKey (d : LocalTime) : string :=
  Num.digits (fullYear d) +:+ "-" +:+ pad2 (month d + 1) +:+ "-" +:+ pad2 (date d).

Definition clock (d : LocalTime) : string :=
  pad2 (hours d) +:+ ":" +:+ pad2 (minutes d) +:+ ":" +:+ pad2 (secs d).

(** [!iso], then an invalid date, give the fallback. *)
Definition time_of (iso : option string) : option Z :=
  match iso with
  | Some iso => if truthy_str iso then date_parse iso else None
  | None => None
  end.

Definition formatLocalTime (iso : option string) (fallback : string) : string :=
  match time_of iso with Some t => clock (local t) | None => fallback end.

Definition formatLocalDateTime (iso : option string) (fallback : string) : string :=
  match time_of iso with
  | Some t => formatLocalDateKey (local t) +:+ " " +:+ formatLocalTime iso "00:00:00"
  | None => fallback
  end.

(** [value.replace(' ', 'T')] *)
Fixpoint space_to_T (value : string) : string :=
  match value with
  | "" => ""
  | String c s => if Ascii.eqb c " " then String "T" s else String c (space_to_T s)
  end.

Definition parseLocalDateTime (value : string) : Z := date_parse (space_to_T value) ?? 0.

End Zone.
End DateTime.

(** ** deviceManagementData.ts *)

Module Rows.
Import DateTime.

Inductive DeviceStatus := online | offline | quarantined | degraded.
Inductive ComplianceStatus := compliant | non_compliant | drift.

Definition status_str (s : DeviceStatus) : string :=
  match s with
  | online => "online" | offline => "offline" | quarantined => "quarantined" | degraded => "degraded"
  end.
Definition compliance_str (c : ComplianceStatus) : string :=
  match c with compliant => "compliant" | non_compliant => "non_compliant" | drift => "drift" end.

Record Device := {
  id : string;
  hostname : string;
  osBuild : string;
  owner : string;
  status : DeviceStatus;
  riskScore : num;
  compliance : ComplianceStatus;
  lastSeen : string;
  agentVersion : string;
  policySync : option bool;
  kernelGuard : option bool;
  ipAddress : option string;
  sessionId : option string;
}.

(** The fields the list and the detail endpoint share, as far as they are
    read ([resolved_connection_mode] is not). *)
Record DeviceFields := {
  owner_email : option string;
  device_name : option string;
  lifecycle_state : option string;
  last_seen : option string;
  agent_version : option string;
  os_build : option string;
  compliance_status : option string;
  risk_score : option NumberOrString;
  policy_in_sync : option bool;
  kernel_guard : option bool;
  ip_address : option string;
  session_id : option string;
  resolved_os_build : option string;
  resolved_presence_state : option string;
  resolved_compliance_status : option string;
  resolved_policy_in_sync : option bool;
}.

Record ListDeviceApi := { device_id : string; listed : DeviceFields }.

(** The detail adds the nested compliance and telemetry; the id it repeats
    is not read. *)
Record DetailDeviceApi := {
  detailed : DeviceFields;
  compliance_of : option string;
  telemetry_risk : option NumberOrString;
}.

Definition VALID_STATUSES : list DeviceStatus := [online; offline; degraded; quarantined].

Definition normalizeStatus (value : option string) : DeviceStatus :=
  let normalized := toLowerCase (value ?? "") in
  if (normalized === "online") || (normalized === "active") then online
  else if normalized === "quarantined" then quarantined
  else if normalized === "degraded" then degraded
  else offline.

Definition normalizeCompliance (value : option string) : ComplianceStatus :=
  let normalized := toLowerCase (value ?? "") in
  if normalized === "compliant" then compliant
  else if (normalized === "drift") || (normalized === "degraded") || (normalized === "unknown") then drift
  else non_compliant.

Definition one : num := Num.of_Z 1.

(** [normalizeRisk] on a number. *)
Definition risk_of (parsed : num) : num :=
  if negb (Num.is_finite parsed) || Num.le parsed Num.zero then Num.zero
  else if Num.gt parsed one then Num.clamp Num.zero one (Num.div parsed (Num.of_Z 100))
  else Num.clamp Num.zero one parsed.

Definition normalizeRisk (value : option NumberOrString) : num :=
  risk_of (match value with
           | Some (ANumber n) => n
           | Some (AString s) => number_of_string s
           | None => Num.zero
           end).

Definition clampPercent (value : option num) : num :=
  match value with
  | Some v => if Num.is_finite v then Num.clamp Num.zero (Num.of_Z 100) v else Num.zero
  | None => Num.zero
  end.

Definition parseStatusCsv (value : option string) : list DeviceStatus :=
  match value with
  | None => []
  | Some value =>
      if negb (truthy_str value) then []
      else omap (fun v => let v := toLowerCase (trim v) in
                          List.find (fun s => status_str s === v) VALID_STATUSES) (split "," value)
  end.

(** [a?.trim() || b] where [b] may be nullish. *)
Definition trim_or_else (a b : option string) : option string := trim_or_null a ??? b.

Section Zone.
Context (date_parse : string -> option Z) (local : Z -> LocalTime).

Definition formatDateTime (value : option string) : string :=
  formatLocalDateTime date_parse local value "-".
Definition formatTimeOnly (value : option string) : string :=
  formatLocalTime date_parse local value "-".
Definition formatAuditTimestamp (value : option string) : string :=
  formatLocalDateTime date_parse local value "-".

Definition formatDuration (startIso endIso : option string) : option string :=
  match time_of date_parse startIso, time_of date_parse endIso with
  | Some start, Some stop =>
      if stop <? start then None
      else Some (Num.to_string (Num.round (Num.div (Num.of_Z (stop - start)) (Num.of_Z 1000))) +:+ "s")
  | _, _ => None
  end.

Definition mapListDevice (it : ListDeviceApi) : Device :=
  let f := listed it in
  {| id := device_id it;
     hostname := trim_or (device_name f) (device_id it);
     osBuild := trim_or (resolved_os_build f) (trim_or (os_build f) "-");
     owner := trim_or (owner_email f) "Unknown";
     status := normalizeStatus (trim_or_else (resolved_presence_state f) (lifecycle_state f));
     riskScore := normalizeRisk (risk_score f);
     compliance := normalizeCompliance
                     (trim_or_else (resolved_compliance_status f) (compliance_status f));
     lastSeen := formatDateTime (last_seen f);
     agentVersion := trim_or (agent_version f) "-";
     policySync := resolved_policy_in_sync f ??? policy_in_sync f;
     kernelGuard := kernel_guard f;
     ipAddress := trim_or_null (ip_address f);
     sessionId := trim_or_null (session_id f) |}.

Definition mergeDeviceDetail (base : Device) (detail : DetailDeviceApi) : Device :=
  let f := detailed detail in
  let detailLastSeen := formatDateTime (last_seen f) in
  {| id := id base;
     hostname := trim_or (device_name f) (hostname base);
     osBuild := trim_or (resolved_os_build f) (trim_or (os_build f) (osBuild base));
     owner := trim_or (owner_email f) (owner base);
     status := normalizeStatus (trim_or_else (resolved_presence_state f)
                 (Some (lifecycle_state f ?? status_str (status base))));
     riskScore := normalizeRisk (Some (risk_score f ?? telemetry_risk detail ?? ANumber (riskScore base)));
     compliance := normalizeCompliance (trim_or_else (resolved_compliance_status f)
                     (Some (compliance_of detail ?? compliance_status f
                              ?? compliance_str (compliance base))));
     lastSeen := if detailLastSeen !== "-" then detailLastSeen else lastSeen base;
     agentVersion := trim_or (agent_version f) (agentVersion base);
     policySync := resolved_policy_in_sync f ??? (policy_in_sync f ??? policySync base);
     kernelGuard := kernel_guard f ??? kernelGuard base;
     ipAddress := trim_or_null (ip_address f) ??? ipAddress base;
     sessionId := trim_or_null (session_id f) ??? sessionId base |}.

(** *** The drawer's command history and the audit trail *)

Record DeviceCommandRowApi := {
  command_id : option string;
  cmd_device_id : option string;
  method : option string;
  params : option obj;
  cmd_state : option string;
  queued_at : option string;
  completed_at : option string;
  result_status : option string;
  error_code : option NumberOrString;
  error_message : option string;
  reason : option string;
  actor_email : option string;
}.

(** [category] is not read. *)
Record DeviceAlertApi := {
  alert_id : option string;
  alert_device_id : option string;
  alert_severity : option string;
  message : option string;
  timestamp : option string;
  acknowledged : option bool;
}.

Record DrawerCommandEntry := {
  entry_id : string;
  entry_method : string;
  entry_params : obj;
  entry_state : CommandState;
  entry_actor : string;
  queuedAt : string;
  completedAt : option string;
  duration : option string;
  resultPreview : option string;
}.

Inductive Outcome := success | failure | pending.

Record AuditEntry := {
  audit_id : string;
  audit_timestamp : string;
  actor : string;
  actorRole : string;
  eventType : string;
  action : string;
  target : string;
  detail : string;
  outcome : Outcome;
}.

(** Unlike the one of commandResults.ts, this reader does not trim. *)
Definition normalizeCommandState (value : option string) : CommandState :=
  let normalized := toLowerCase (value ?? "") in
  List.find (fun s => state_str s === normalized)
    [Results.queued; Results.dispatched; Results.ack_received; Results.executing;
     Results.completed; Results.failed; Results.expired; Results.rejected] ?? Results.queued.

Definition number_text (v : NumberOrString) : string :=
  match v with ANumber n => Num.to_string n | AString s => s end.

Definition mapCommandHistoryEntry (row : DeviceCommandRowApi) : DrawerCommandEntry :=
  {| entry_id := trim_or (command_id row) "unknown";
     entry_method := trim_or (method row) "unknown";
     entry_params := params row ?? [];
     entry_state := normalizeCommandState (cmd_state row);
     entry_actor := trim_or (actor_email row) "system";
     queuedAt := formatTimeOnly (queued_at row);
     completedAt := match completed_at row with
                    | Some c => if truthy_str c then Some (formatTimeOnly (Some c)) else None
                    | None => None
                    end;
     duration := formatDuration (queued_at row) (completed_at row);
     resultPreview := trim_or_null (error_message row) ??? (trim_or_null (reason row)
       ??? (trim_or_null (result_status row)
       ??? match error_code row with Some c => Some ("error " +:+ number_text c) | None => None end)) |}.

Definition inferActorRole (actor : string) : string :=
  let lowered := toLowerCase actor in
  if lowered === "system" then "System"
  else if includes lowered "admin" then "Admin"
  else if includes lowered "viewer" then "Viewer"
  else "Operator".

(** [clock_text] is [String(Date.now())]. *)
Definition mapCommandRowToAuditEntry (clock_text : string) (row : DeviceCommandRowApi) : AuditEntry :=
  let state := normalizeCommandState (cmd_state row) in
  let actor := trim_or (actor_email row) "system" in
  {| audit_id := trim_or (command_id row) ("cmd-" +:+ clock_text);
     audit_timestamp := formatAuditTimestamp (queued_at row ??? completed_at row);
     actor := actor;
     actorRole := inferActorRole actor;
     eventType := "command_execution";
     action := match state with
               | Results.completed => "COMMAND_COMPLETED"
               | _ => "COMMAND_" +:+ toUpperCase (state_str state)
               end;
     target := trim_or (cmd_device_id row) "device";
     detail := trim_or (error_message row) (trim_or (reason row)
                 ((method row ?? "command") +:+ " dispatched"));
     outcome := match state with
                | Results.completed => success
                | Results.failed | Results.expired | Results.rejected => failure
                | _ => pending
                end |}.

Definition mapAlertRowToAuditEntry (clock_text : string) (row : DeviceAlertApi) : AuditEntry :=
  let isAcked := acknowledged row ?? false in
  let severity := toLowerCase (alert_severity row ?? "unknown") in
  {| audit_id := trim_or (alert_id row) ("alert-" +:+ clock_text);
     audit_timestamp := formatAuditTimestamp (timestamp row);
     actor := "system";
     actorRole := "System";
     eventType := "system_event";
     action := if isAcked then "ALERT_ACKNOWLEDGED" else "ALERT_RAISED";
     target := trim_or (alert_device_id row) (trim_or (alert_id row) "fleet");
     detail := trim_or (message row) (severity +:+ " alert");
     outcome := if isAcked then success else if severity === "critical" then failure else pending |}.

(** The comparator of the trail is negative: the later entry first, entries
    without a readable time last. *)
Definition newer (a b : AuditEntry) : bool :=
  match date_parse (audit_timestamp a), date_parse (audit_timestamp b) with
  | Some at_, Some bt => bt - at_ <? 0
  | Some _, None => true
  | None, _ => false
  end.

(** [i] counts the readings of the clock. *)
Definition composeAuditEntries (clock_text : nat -> string)
    (commands : list DeviceCommandRowApi) (alerts : list DeviceAlertApi) : list AuditEntry :=
  stable_sort newer
    (imap (fun i => mapCommandRowToAuditEntry (clock_text i)) commands
     ++ imap (fun i => mapAlertRowToAuditEntry (clock_text (length commands + i)%nat)) alerts).

End Zone.

(** *** Risk scores *)

Lemma risk_cases x :
  risk_of x = Num.zero \/ (Num.lt Num.zero (risk_of x) = true /\ Num.le (risk_of x) one = true).
Proof.
  unfold risk_of. destruct (Num.is_finite x) eqn:Hf; [|by left]. cbn [negb orb].
  destruct (Num.le x Num.zero); [by left|].
  destruct (Num.gt x one); apply Num.clamp_positive; try done; auto with js.
  by apply Num.div_not_nan.
Qed.

Lemma risk_of_idem x : risk_of (risk_of x) = risk_of x.
Proof.
  destruct (risk_cases x) as [->|[H0 H1]]; [done|]. revert H0 H1. generalize (risk_of x). intros r H0 H1.
  assert (Num.is_finite r = true) as Hf by (by destruct r as [[]|[]| |[]]).
  assert (Num.le r Num.zero = false) as Hz by (by destruct r as [[]|[]| |[]]).
  assert (Num.gt r one = false) as Hg.
  { unfold Num.gt, Num.le, SFltb, SFleb in *. rewrite (Num.compare_sym r one).
    by destruct (SFcompare r one) as [[]|]. }
  unfold risk_of. rewrite Hf, Hz, Hg. by apply Num.clamp_fixed.
Qed.

Lemma status_roundtrip s : normalizeStatus (Some (status_str s)) = s.
Proof. by destruct s. Qed.
Lemma compliance_roundtrip c : normalizeCompliance (Some (compliance_str c)) = c.
Proof. by destruct c. Qed.

Section Laws.
Context (date_parse : string -> option Z) (local : Z -> LocalTime).

Lemma risk_within x : Num.within Num.zero one (risk_of x) = true.
Proof.
  destruct (risk_cases x) as [->|[H0 H1]]; [done|]. unfold Num.within.
  by rewrite (Num.lt_le _ _ H0), H1.
Qed.

(** What the pages rely on in a device row. *)
Definition row_ok (d : Device) : Prop :=
  tidy (hostname d) /\ tidy (osBuild d) /\ tidy (owner d) /\ tidy (agentVersion d)
  /\ Num.within Num.zero one (riskScore d) = true
  /\ (forall s, ipAddress d = Some s -> tidy s) /\ (forall s, sessionId d = Some s -> tidy s).

Lemma merge_keeps_ok d detail : row_ok d -> row_ok (mergeDeviceDetail date_parse local d detail).
Proof.
  intros (H1 & H2 & H3 & H4 & H5 & H6 & H7). unfold row_ok.
  cbn [hostname osBuild owner agentVersion riskScore ipAddress sessionId mergeDeviceDetail].
  split_and!; try (by repeat apply Results.trim_or_tidy); try apply risk_within.
  - intros s. destruct (trim_or_null (ip_address _)) eqn:E; [|apply H6].
    intros [= <-]. by apply Results.trim_or_null_tidy in E.
  - intros s. destruct (trim_or_null (session_id _)) eqn:E; [|apply H7].
    intros [= <-]. by apply Results.trim_or_null_tidy in E.
Qed.

(** Device rows can be shown: for a device with an id, the mapped row
    has a trimmed, non-empty name, build, owner and version, a risk between
    0 and 1 and no blank address or session, and merging details, any number
    of them, keeps it so. *)
Theorem device_rows_ok (it : ListDeviceApi) (details : list DetailDeviceApi) :
  tidy (device_id it) ->
  let d := fold_left (mergeDeviceDetail date_parse local) details (mapListDevice date_parse local it) in
  row_ok d /\ id d = device_id it.
Proof.
  intros Hid. assert (row_ok (mapListDevice date_parse local it)) as Hok.
  { unfold row_ok.
    cbn [hostname osBuild owner agentVersion riskScore ipAddress sessionId mapListDevice].
    split_and!; try (by repeat apply Results.trim_or_tidy); try apply risk_within;
      intros s; apply Results.trim_or_null_tidy. }
  cbn zeta. assert (id (mapListDevice date_parse local it) = device_id it) as Hi by done.
  revert Hok Hi. generalize (mapListDevice date_parse local it).
  induction details as [|x details IH]; intros d Hok Hi; [done|]. cbn [fold_left].
  apply IH; [by apply merge_keeps_ok|done].
Qed.

(** A detail that says nothing, and one that repeats a list row. *)
Definition silent : DeviceFields :=
  {| owner_email := None; device_name := None; lifecycle_state := None; last_seen := None;
     agent_version := None; os_build := None; compliance_status := None; risk_score := None;
     policy_in_sync := None; kernel_guard := None; ip_address := None; session_id := None;
     resolved_os_build := None; resolved_presence_state := None;
     resolved_compliance_status := None; resolved_policy_in_sync := None |}.

Definition only (f : DeviceFields) : DetailDeviceApi :=
  {| detailed := f; compliance_of := None; telemetry_risk := None |}.

Lemma trim_or_twice v d : trim_or v (trim_or v d) = trim_or v d.
Proof. unfold trim_or, or_str. by case_match. Qed.

Lemma trim_or_twice2 v w d : trim_or v (trim_or w (trim_or v (trim_or w d))) = trim_or v (trim_or w d).
Proof. unfold trim_or, or_str. by repeat case_match. Qed.

Lemma or_twice {A} (a b : option A) : (a ??? (a ??? b)) = (a ??? b).
Proof. by destruct a. Qed.

Lemma or_twice2 {A} (a b c : option A) : (a ??? (b ??? (a ??? (b ??? c)))) = (a ??? (b ??? c)).
Proof. by destruct a, b. Qed.

Lemma or_same {A} (a : option A) : (a ??? a) = a.
Proof. by destruct a. Qed.

Lemma or_same2 {A} (a b : option A) : (a ??? (b ??? (a ??? b))) = (a ??? b).
Proof. by destruct a, b. Qed.

Ltac by_fields := unfold mergeDeviceDetail, mapListDevice; cbn; f_equal.

(** Merging a detail is stable: merging it again changes nothing, a
    detail that says nothing leaves the mapped row as it is, and so does one
    that repeats the row. *)
Theorem device_merge_stable (it : ListDeviceApi) (base : Device) (detail : DetailDeviceApi) :
  let merge := mergeDeviceDetail date_parse local in
  let row := mapListDevice date_parse local it in
  merge (merge base detail) detail = merge base detail
  /\ merge row (only silent) = row
  /\ merge row (only (listed it)) = row.
Proof.
  cbn zeta. split_and!.
  - by_fields; auto using trim_or_twice, trim_or_twice2, or_twice, or_twice2.
    + unfold trim_or_else. destruct (trim_or_null _); [done|]. cbn.
      destruct (lifecycle_state _); [done|apply status_roundtrip].
    + destruct (risk_score _); [done|]. destruct (telemetry_risk _); [done|apply risk_of_idem].
    + unfold trim_or_else. destruct (trim_or_null _); [done|]. cbn.
      destruct (compliance_of _); [done|].
      destruct (compliance_status _); [done|apply compliance_roundtrip].
    + by destruct (_ !== _).
  - by_fields; auto using status_roundtrip, compliance_roundtrip. apply risk_of_idem.
  - by_fields; auto using trim_or_twice, trim_or_twice2, or_same, or_same2.
    + unfold trim_or_else. destruct (trim_or_null _); [done|]. by destruct (lifecycle_state _).
    + destruct (risk_score _); [done|apply risk_of_idem].
    + unfold trim_or_else. destruct (trim_or_null _); [done|]. by destruct (compliance_status _).
    + by destruct (_ !== _).
Qed.

(** *** The audit trail *)

Lemma newer_asym a b : newer date_parse a b = true -> newer date_parse b a = false.
Proof. unfold newer. repeat case_match; rewrite ?Z.ltb_lt, ?Z.ltb_ge; try done; lia. Qed.

Lemma newer_negtrans a b c :
  newer date_parse a b = false -> newer date_parse b c = false -> newer date_parse a c = false.
Proof. unfold newer. repeat case_match; rewrite ?Z.ltb_ge; try done; lia. Qed.

(** The audit trail is complete and in order: it has exactly one entry
    for each command and each alert, an entry whose time can be read stands
    before every one whose time cannot, and among the readable ones the later
    stands first. *)
Theorem audit_trail_ordered (clock_text : nat -> string)
    (commands : list DeviceCommandRowApi) (alerts : list DeviceAlertApi) :
  let trail := composeAuditEntries date_parse local clock_text commands alerts in
  length trail = (length commands + length alerts)%nat
  /\ (forall i row, commands !! i = Some row ->
        mapCommandRowToAuditEntry date_parse local (clock_text i) row ∈ trail)
  /\ (forall i row, alerts !! i = Some row ->
        mapAlertRowToAuditEntry date_parse local (clock_text (length commands + i)%nat) row ∈ trail)
  /\ forall i j a b, (i < j)%nat -> trail !! i = Some a -> trail !! j = Some b ->
       match date_parse (audit_timestamp a), date_parse (audit_timestamp b) with
       | Some ta, Some tb => tb <= ta
       | None, Some _ => False
       | _, None => True
       end.
Proof.
  cbn zeta. unfold composeAuditEntries. set (entries := imap _ commands ++ _).
  pose proof (stable_sort_perm (newer date_parse) entries) as Hp. split_and!.
  - rewrite Hp. unfold entries. by rewrite length_app, !length_imap.
  - intros i row Hi. rewrite Hp. apply elem_of_app. left. apply elem_of_lookup_imap. by exists i, row.
  - intros i row Hi. rewrite Hp. apply elem_of_app. right. apply elem_of_lookup_imap. by exists i, row.
  - intros i j a b Hij Ha Hb.
    assert (newer date_parse b a = false) as Hn.
    { eapply in_order_lookup; [|done..]. apply stable_sort_order; eauto using newer_asym, newer_negtrans. }
    unfold newer in Hn. repeat case_match; try done. apply Z.ltb_ge in Hn. lia.
Qed.

End Laws.

Definition demo_device : ListDeviceApi := {| device_id := "dev-1"; listed := silent |}.

Lemma device_rows_ok_witness :
  tidy (device_id demo_device)
  /\ row_ok (mergeDeviceDetail (fun _ => None) (fun _ => Build_LocalTime 0 0 0 0 0 0)
               (mapListDevice (fun _ => None) (fun _ => Build_LocalTime 0 0 0 0 0 0) demo_device)
               (only silent)).
Proof.
  assert (tidy (device_id demo_device)) as H by done. split; [exact H|].
  destruct (device_rows_ok (fun _ => None) (fun _ => Build_LocalTime 0 0 0 0 0 0) demo_device
              [only silent] H) as [Hok _]. exact Hok.
Defined.
End Rows.
