(* ===== verification/AuditTrail.v ===== *)
(** * The audit trail section

    Models src/components/AuditTrailSection.tsx: the filters of the table,
    the counts of the facets and the export as CSV.  [csv_read] is a reader
    of the CSV format of RFC 4180, against which the export is judged. *)

From S2P Require Import Prelude JsNumber JsString JsValue Commands RenderModel RenderLaws Devices.
Import Rows(AuditEntry, audit_id, audit_timestamp, actor, actorRole, eventType, action, target, detail,
  outcome, Outcome, success, failure, pending).

Local Open Scope Z_scope.

(** ** Filters *)

(** 'all' is [None]. *)
Record Filters := {
  typeFilter : option string;
  actorFilter : option string;
  dateFrom : string;
  dateTo : string;
}.

(** [e.timestamp.split(' ')[0]] *)
Definition entry_date (e : AuditEntry) : string := hd "" (split " " (audit_timestamp e)).

Definition is_all_or (f : option string) (v : string) : bool :=
  match f with None => true | Some f => v === f end.

(** Texts are compared by their units. *)
Definition passes (f : Filters) (e : AuditEntry) : bool :=
  is_all_or (typeFilter f) (eventType e) && is_all_or (actorFilter f) (actor e)
  && (negb (truthy_str (dateFrom f)) || negb (String.ltb (entry_date e) (dateFrom f)))
  && (negb (truthy_str (dateTo f)) || negb (String.ltb (dateTo f) (entry_date e))).

Definition filtered (loading : bool) (error : option string) (f : Filters) (entries : list AuditEntry)
    : list AuditEntry :=
  if loading || or_else (fun _ => true) error false then [] else List.filter (passes f) entries.

Definition visible (expanded : bool) (maxRows : nat) (shown : list AuditEntry) : list AuditEntry :=
  if expanded then shown else take maxRows shown.

Definition clearDateFilter (f : Filters) : Filters :=
  {| typeFilter := typeFilter f; actorFilter := actorFilter f; dateFrom := ""; dateTo := "" |}.

(** [Array.from(new Set(entries.map((e) => e.actor)))] *)
Definition actors (entries : list AuditEntry) : list string :=
  fold_left (fun l e => if existsb (String.eqb (actor e)) l then l else l ++ [actor e]) entries [].

(** [counts[t]] after the loop; a type is one of four names, none of which
    objects inherit. *)
Definition facet_count (entries : list AuditEntry) (t : string) : nat :=
  fold_left (fun n e => if eventType e === t then S n else n) entries 0%nat.

(** ** The export *)

Definition outcome_str (o : Outcome) : string :=
  match o with success => "success" | failure => "failure" | pending => "pending" end.

Definition csv_headers : list string :=
  ["ID"; "Timestamp"; "Actor"; "Role"; "Type"; "Action"; "Target"; "Detail"; "Outcome"].

(** [text.replace(/Q/g, QQ)] for the double quote Q. *)
Definition double_quotes (text : string) : string :=
  sflat (fun c => if Ascii.eqb c dquote then String dquote (String dquote "") else String c "") text.

Definition quoted_cell (text : string) : string := String dquote (double_quotes text +:+ String dquote "").

Definition csv_row (e : AuditEntry) : list string :=
  [audit_id e; audit_timestamp e; actor e; actorRole e; eventType e; action e; target e;
   quoted_cell (detail e); outcome_str (outcome e)].

(** The text of the file, and its name; [now] is the clock. *)
Definition csv_text (entries : list AuditEntry) : string :=
  join newline (join "," csv_headers :: map (fun e => join "," (csv_row e)) entries).

Definition csv_name (title : string) (now : Z) : string :=
  "audit-trail-" +:+ replace_runs is_ws "-" false (toLowerCase title) +:+ "-" +:+ Num.digits now +:+ ".csv".

(** ** Reading CSV *)

Definition line_feed : ascii := ascii_of_N 10.

(** [field] is the cell read so far and [row] the cells before it. *)
Fixpoint csv_go (quoted : bool) (field : string) (row : list string) (s : string) : list (list string) :=
  match s with
  | "" => [row ++ [field]]
  | String c s =>
      if quoted then
        if Ascii.eqb c dquote then
          match s with
          | String d s' => if Ascii.eqb d dquote then csv_go true (field +:+ String dquote "") row s'
                           else csv_go false field row s
          | "" => csv_go false field row s
          end
        else csv_go true (field +:+ String c "") row s
      else if Ascii.eqb c "," then csv_go false "" (row ++ [field]) s
      else if Ascii.eqb c line_feed then (row ++ [field]) :: csv_go false "" [] s
      else if Ascii.eqb c dquote && (field === "") then csv_go true "" row s
      else csv_go false (field +:+ String c "") row s
  end.

Definition csv_read (s : string) : list (list string) := csv_go false "" [] s.

(** ** The export can be read back *)

(** What a cell ends with: the next cell, the next line, or nothing. *)
Definition ends_cell (rest : string) : Prop :=
  rest = "" \/ (exists r, rest = String "," r) \/ (exists r, rest = String line_feed r).

(** The text is read as the cell [value]. *)
Definition reads_as (text value : string) : Prop :=
  forall row rest, ends_cell rest -> csv_go false "" row (text +:+ rest) = csv_go false value row rest.

(** A text without separators and quotes. *)
Definition clean (s : string) : bool :=
  sforall (fun c => negb (Ascii.eqb c "," || Ascii.eqb c line_feed || Ascii.eqb c dquote)) s.

Lemma append_char acc c s : (acc +:+ String c "") +:+ s = acc +:+ String c s.
Proof. by rewrite append_assoc. Qed.

Lemma clean_reads s : clean s = true -> reads_as s s.
Proof.
  intros Hs row rest _. assert (forall acc, csv_go false acc row (s +:+ rest) = csv_go false (acc +:+ s) row rest) as H.
  { induction s as [|c s IH]; intros acc; cbn [String.append]; [by rewrite append_nil_r|].
    unfold clean in Hs. cbn [sforall] in Hs. apply andb_true_iff in Hs as [Hc Hs].
    apply negb_true_iff, orb_false_iff in Hc as [[Hc1 Hc2]%orb_false_iff Hc3].
    cbn [csv_go]. rewrite Hc1, Hc2, Hc3. cbn [andb]. rewrite IH by done. by rewrite append_char. }
  apply H.
Qed.

Lemma quoted_reads s : reads_as (quoted_cell s) s.
Proof.
  intros row rest Hrest. unfold quoted_cell. cbn [String.append csv_go].
  change (Ascii.eqb dquote ",") with false. change (Ascii.eqb dquote line_feed) with false.
  change (Ascii.eqb dquote dquote) with true. cbn [andb String.eqb]. rewrite append_assoc. cbn [String.append].
  assert (forall acc, csv_go true acc row (double_quotes s +:+ String dquote rest)
                      = csv_go false (acc +:+ s) row rest) as H; [|apply H].
  unfold double_quotes. induction s as [|c s IH]; intros acc; cbn [sflat String.append].
  - cbn [csv_go]. change (Ascii.eqb dquote dquote) with true. cbn iota. rewrite append_nil_r.
    destruct Hrest as [->|[[r ->]|[r ->]]]; done.
  - destruct (Ascii.eqb_spec c dquote) as [->|Hc]; cbn [String.append csv_go].
    + change (Ascii.eqb dquote dquote) with true. cbn iota. rewrite IH. by rewrite append_char.
    + destruct (Ascii.eqb_spec c dquote); [done|]. rewrite IH. by rewrite append_char.
Qed.

Lemma outcome_clean o : clean (outcome_str o) = true.
Proof. by destruct o. Qed.

(** A line of cells, then the rest of the file. *)
Lemma line_reads texts values : Forall2 reads_as texts values -> texts <> [] ->
  forall row rest, rest = "" \/ (exists r, rest = String line_feed r) ->
  csv_go false "" row (join "," texts +:+ rest)
  = csv_go false (List.last values "") (row ++ removelast values) rest.
Proof.
  induction 1 as [|t v ts vs Ht Hts IH]; intros Hne row rest Hrest; [done|].
  destruct Hts as [|t' v' ts vs Ht' Hts].
  - cbn. rewrite app_nil_r. apply Ht. destruct Hrest as [->|[r ->]]; [by left|right; right; by exists r].
  - change (join "," (t :: t' :: ts)) with (t +:+ String "," (join "," (t' :: ts))).
    rewrite append_assoc, Ht by (right; left; by eexists). cbn [String.append csv_go].
    change (Ascii.eqb "," ",") with true. cbn iota. rewrite IH by done.
    change (removelast (v :: v' :: vs)) with (v :: removelast (v' :: vs)). by rewrite <- app_assoc.
Qed.

(** The entry's fields other than the detail are clean. *)
Definition clean_entry (e : AuditEntry) : bool :=
  forallb clean [audit_id e; audit_timestamp e; actor e; actorRole e; eventType e; action e; target e].

(** The cells of an entry. *)
Definition cells (e : AuditEntry) : list string :=
  [audit_id e; audit_timestamp e; actor e; actorRole e; eventType e; action e; target e;
   detail e; outcome_str (outcome e)].

Lemma row_reads e : clean_entry e = true -> Forall2 reads_as (csv_row e) (cells e).
Proof.
  intros H. unfold clean_entry in H. cbn [forallb] in H. rewrite !andb_true_iff in H.
  destruct H as (H1 & H2 & H3 & H4 & H5 & H6 & H7 & _).
  repeat constructor; auto using clean_reads, quoted_reads, outcome_clean.
Qed.

Lemma lines_read lines values : Forall2 (Forall2 reads_as) lines values ->
  Forall (fun l => l <> []) lines -> lines <> [] ->
  csv_read (join newline (map (join ",") lines)) = values.
Proof.
  unfold csv_read. induction 1 as [|l v ls vs Hl Hls IH]; intros Hne Hnil; [done|].
  apply Forall_cons_iff in Hne as [Hn Hne].
  assert (v <> []) as Hv by (by destruct Hl).
  destruct Hls as [|l' v' ls vs Hl' Hls].
  - cbn [map join]. rewrite <- (append_nil_r (join "," l)), (line_reads l v Hl) by (done || by left).
    cbn [csv_go]. by rewrite app_nil_l, <- app_removelast_last.
  - change (join newline (map (join ",") (l :: l' :: ls)))
      with (join "," l +:+ String line_feed (join newline (map (join ",") (l' :: ls)))).
    rewrite (line_reads l v Hl) by (done || right; by eexists). cbn [csv_go].
    change (Ascii.eqb line_feed ",") with false. change (Ascii.eqb line_feed line_feed) with true. cbn iota.
    rewrite app_nil_l, <- app_removelast_last by done. f_equal. by apply IH.
Qed.

(** [C40] The exported audit trail can be read back: when no field other than
    the detail contains a comma, a quote or a line break, a CSV reader gets
    the header and exactly the entries' fields back, whatever the details
    contain. *)
Theorem csv_roundtrip (entries : list AuditEntry) :
  forallb clean_entry entries = true ->
  csv_read (csv_text entries) = csv_headers :: map cells entries.
Proof.
  intros H. unfold csv_text. rewrite <- (map_map csv_row (join ",")).
  change (join "," csv_headers :: map (join ",") (map csv_row entries))
    with (map (join ",") (csv_headers :: map csv_row entries)).
  apply lines_read; [|constructor; [done|]|done].
  - constructor; [repeat constructor; by apply clean_reads|].
    induction entries as [|e l IH]; [constructor|]. cbn in H. apply andb_true_iff in H as [He Hl].
    constructor; [by apply row_reads|by apply IH].
  - clear. induction entries; constructor; done.
Qed.

(** ** The table *)

Lemma facet_count_spec entries t :
  facet_count entries t = length (List.filter (fun e => eventType e === t) entries).
Proof.
  unfold facet_count. assert (forall n, fold_left (fun n e => if eventType e === t then S n else n) entries n
    = (n + length (List.filter (fun e => eventType e === t) entries))%nat) as H; [|apply H].
  induction entries as [|e l IH]; intros n; cbn; [lia|]. rewrite IH. destruct (_ === t); cbn; lia.
Qed.

(** Each actor is offered once. *)
Lemma actors_spec entries :
  NoDup (actors entries) /\ forall a, a ∈ actors entries <-> exists e, e ∈ entries /\ actor e = a.
Proof.
  unfold actors. assert (forall l, NoDup l ->
    let l' := fold_left (fun l e => if existsb (String.eqb (actor e)) l then l else l ++ [actor e]) entries l in
    NoDup l' /\ forall a, a ∈ l' <-> a ∈ l \/ exists e, e ∈ entries /\ actor e = a) as H.
  { induction entries as [|e es IH]; intros l Hl; cbn zeta; cbn [fold_left].
    { split; [done|]. intros a. split; [by left|]. intros [?|(e & He%elem_of_nil & _)]; done. }
    destruct (existsb (String.eqb (actor e)) l) eqn:E.
    - destruct (IH l Hl) as [H1 H2]. split; [done|]. intros a. rewrite H2. split.
      + intros [?|(e' & He' & ?)]; [by left|right; exists e'; split; [by right|done]].
      + intros [?|(e' & [->|He']%elem_of_cons & <-)]; [by left|left|right; by exists e'].
        apply existsb_exists in E as (x & Hx & ->%String.eqb_eq). by apply list_elem_of_In.
    - assert (actor e ∉ l) as Hni.
      { intros Hin%list_elem_of_In. assert (existsb (String.eqb (actor e)) l = true); [|congruence].
        apply existsb_exists. exists (actor e). split; [done|apply String.eqb_refl]. }
      destruct (IH (l ++ [actor e])) as [H1 H2].
      { apply list.NoDup_app. split_and!; [done| |apply NoDup_singleton]. intros x Hx ->%list_elem_of_singleton. done. }
      split; [done|]. intros a. rewrite H2, elem_of_app, list_elem_of_singleton. split.
      + intros [[?| ->]|(e' & He' & ?)]; [by left|right; exists e; split; [left|done]|].
        right. exists e'. split; [by right|done].
      + intros [?|(e' & [->|He']%elem_of_cons & <-)]; [by left; left|by left; right|right; by exists e']. }
  destruct (H [] ltac:(constructor)) as [H1 H2]. split; [done|]. intros a. rewrite H2, elem_of_nil. tauto.
Qed.

Module AuditDemo.
Definition note (who what : string) : AuditEntry :=
  {| audit_id := "AUD-1"; audit_timestamp := "2026-01-05 10:00:00"; actor := who; actorRole := "Operator";
     eventType := "user_action"; action := "NOTE"; target := "dev-1"; detail := what; outcome := success |}.

Lemma csv_roundtrip_witness :
  forallb clean_entry [note "ada" (String dquote "a, b")] = true
  /\ csv_read (csv_text [note "ada" (String dquote "a, b")])
     = [csv_headers; cells (note "ada" (String dquote "a, b"))].
Proof.
  assert (forallb clean_entry [note "ada" (String dquote "a, b")] = true) as H by reflexivity.
  split; [exact H|exact (csv_roundtrip _ H)].
Defined.

(** An actor with a comma shifts the columns. *)
Lemma csv_comma_shifts :
  map length (csv_read (csv_text [note "Lovelace, Ada" "x"])) = [9%nat; 10%nat].
Proof. vm_compute. reflexivity. Qed.
End AuditDemo.
