(* ===== verification/Client.v ===== *)
(** * Reading responses in the browser

    The pages read the JSON of the route handlers with a cast to the type
    they expect, so a value of another type flows on until an operation
    rejects it.  This file models the operations they apply to such values:
    iteration, [map], [?.trim()], [new Date] and the formatting of
    src/lib/dateTime.ts, and the fetch of a JSON payload.  [date_parse] and
    [local] are the parameters of Module DateTime. *)

From S2P Require Import Prelude JsNumber JsString JsValue Http Session Commands RenderModel RenderLaws Devices.
Import DateTime.

Local Open Scope Z_scope.

(** ** Values of unknown type *)

(** [for (const x of v)]; a string iterates over its characters. *)
Definition for_of (v : jsval) : res (list jsval) :=
  match v with
  | JArr l => Ok l
  | JStr s => Ok (map (fun c => JStr (String c "")) (String.list_ascii_of_string s))
  | _ => Exn "value is not iterable"
  end.

(** [v.map(...)] and the like: only an array has the method. *)
Definition array_of (v : jsval) : res (list jsval) :=
  match v with JArr l => Ok l | _ => Exn "map is not a function" end.

(** [v.length === 0] *)
Definition length_zero (v : jsval) : bool :=
  match v with
  | JArr [] | JStr "" => true
  | JObj o => match get o "length" with JNum n => Num.eqb n Num.zero | _ => false end
  | _ => false
  end.

(** [v?.trim() || null] *)
Definition trimmed (v : jsval) : res (option string) :=
  match v with
  | JUndef | JNull => Ok None
  | JStr s => Ok (let t := trim s in if truthy_str t then Some t else None)
  | _ => Exn "trim is not a function"
  end.

(** [payload.k?.trim() || d], for a payload already known not to be null. *)
Definition trimmed_or (payload : jsval) (k d : string) : res string :=
  let! t := trimmed (prop payload k) in Ok (t ?? d).

(** [String(payload.k ?? d).toLowerCase()] *)
Definition lowered (v : jsval) (d : string) : res string :=
  let! s := str_or v d in Ok (toLowerCase s).

(** ** Sorting *)

(** [l.sort((a, b) => key(b) - key(a))] for a key that may throw: a list
    of at least two elements has the key of each one read. *)
Definition latest {A} (key : A -> Z) (a b : A) : bool := key b - key a <? 0.

Definition sort_latest {A} (key : A -> res Z) (l : list A) : res (list A) :=
  match l with
  | [] | [_] => Ok l
  | _ => let! keyed := res_mapM (fun a => let! k := key a in Ok (k, a)) l in
         Ok (map snd (stable_sort (latest fst) keyed))
  end.

(** ** Dates *)

(** The time value of a number of milliseconds (TimeClip). *)
Definition time_clip (x : num) : option Z :=
  match x with
  | S754_zero _ => Some 0
  | S754_finite s m e =>
      let '(p, q) := Num.frac m e in
      if 8640000000000000 * q <? p then None else Some (if s then - (p / q) else p / q)
  | _ => None
  end.

Section Zone.
Context (date_parse : string -> option Z) (local : Z -> LocalTime).

(** [new Date(v).getTime()], [None] for an invalid date. *)
Definition date_value (v : jsval) : res (option Z) :=
  match v with
  | JUndef => Ok None
  | JNull => Ok (Some 0)
  | JBool b => Ok (Some (if b then 1 else 0))
  | JNum n => Ok (time_clip n)
  | _ => let! s := to_str v in Ok (date_parse s)
  end.

(** The instant a formatter shows: none for a falsy or an invalid one. *)
Definition iso_time (iso : jsval) : res (option Z) :=
  if truthy iso then date_value iso else Ok None.

(** [formatLocalTime] and [formatLocalDateTime] on any value. *)
Definition local_time (iso : jsval) (fallback : string) : res string :=
  let! t := iso_time iso in
  Ok (match t with Some t => clock (local t) | None => fallback end).

Definition local_date_time (iso : jsval) (fallback : string) : res string :=
  let! t := iso_time iso in
  Ok (match t with
      | Some t => formatLocalDateKey (local t) +:+ " " +:+ clock (local t)
      | None => fallback
      end).

(** [Date.parse(value)] behind a test that the value is truthy. *)
Definition parse_iso (value : jsval) : res (option Z) :=
  if truthy value then let! s := to_str value in Ok (date_parse s) else Ok None.

(** On texts, the formatters are those of Module DateTime. *)
Lemma local_time_text s fallback :
  local_time (JStr s) fallback = Ok (formatLocalTime date_parse local (Some s) fallback)
  /\ local_date_time (JStr s) fallback = Ok (formatLocalDateTime date_parse local (Some s) fallback).
Proof.
  unfold local_time, local_date_time, formatLocalDateTime, formatLocalTime, time_of, iso_time. cbn.
  by destruct (truthy_str s); cbn; [destruct (date_parse s)|].
Qed.

(** Reading a time fails only on an object that cannot become a text. *)
Lemma iso_time_plain v : plain v = true -> returns (iso_time v).
Proof.
  intros Hv. unfold iso_time, date_value. destruct (truthy v); [|by eexists].
  pose proof (plain_to_str v Hv). destruct v; try (by eexists); by apply returns_bind; [|eexists].
Qed.

Lemma parse_iso_plain v : plain v = true -> returns (parse_iso v).
Proof.
  intros Hv. unfold parse_iso. destruct (truthy v); [|by eexists].
  by apply returns_bind; [apply plain_to_str|eexists].
Qed.
End Zone.

(** ** Fetching *)

Definition get_request (url : string) : FetchRequest :=
  {| f_method := "GET"; f_url := url; f_headers := []; f_body := None |}.

(** [await response.json()] *)
Definition read_json (r : FetchResponse) : io jsval :=
  match resp_json r with Some v => Ret v | None => Throw "Unexpected token" end.

(** A GET whose response must be ok, and its payload. *)
Definition get_json (what url : string) : io jsval :=
  let* response := fetch (get_request url) in
  if ok response then read_json response
  else Throw (what +:+ "_fetch_failed_" +:+ Num.digits (status response)).

Lemma get_json_requests P what url : P (get_request url) -> all_requests P (get_json what url).
Proof.
  intros H. apply all_requests_bind; [auto with js|]. intros r. unfold read_json. by repeat case_match.
Qed.

Lemma get_json_once what url : at_most 1 (get_json what url).
Proof.
  apply at_most_then_silent; [auto with js|]. intros r. unfold read_json. by repeat case_match.
Qed.

#[export] Hint Resolve get_json_requests get_json_once : js.

(** ** Laws of sorting by a key *)

Section SortLatest.
Context {A : Type}.

Lemma latest_asym (key : A -> Z) a b : latest key a b = true -> latest key b a = false.
Proof. unfold latest. rewrite Z.ltb_lt, Z.ltb_ge. lia. Qed.

Lemma latest_negtrans (key : A -> Z) a b c :
  latest key a b = false -> latest key b c = false -> latest key a c = false.
Proof. unfold latest. rewrite !Z.ltb_ge. lia. Qed.

Lemma stable_sort_latest (key : A -> Z) l :
  stable_sort (latest key) l ≡ₚ l /\ in_order (latest key) (stable_sort (latest key) l).
Proof.
  split; [apply stable_sort_perm|]. apply stable_sort_order; eauto using latest_asym, latest_negtrans.
Qed.

(** In an ordered list what follows is not later. *)
Lemma in_order_latest (key : A -> Z) l1 l2 a b :
  in_order (latest key) (l1 ++ l2) -> a ∈ l1 -> b ∈ l2 -> key b <= key a.
Proof.
  intros Ho [i Ha]%list_elem_of_lookup [j Hb]%list_elem_of_lookup.
  assert (latest key b a = false) as H.
  { eapply (in_order_lookup _ (l1 ++ l2) i (length l1 + j)); [done| |by apply lookup_app_l_Some|].
    - apply lookup_lt_Some in Ha. lia.
    - rewrite lookup_app_r by lia. by replace (length l1 + j - length l1)%nat with j by lia. }
  unfold latest in H. apply Z.ltb_ge in H. lia.
Qed.

Lemma insert_keyed (key : A -> Z) x l :
  insert_sorted (latest fst) (key x, x) (map (fun a => (key a, a)) l)
  = map (fun a => (key a, a)) (insert_sorted (latest key) x l).
Proof.
  induction l as [|y l IH]; [done|]. cbn [map insert_sorted].
  change (latest fst (key y, y) (key x, x)) with (latest key y x).
  destruct (latest key y x); [|done]. by rewrite IH.
Qed.

(** When no key throws, the sort is the stable sort by the key. *)
Lemma sort_latest_ok (key : A -> res Z) (k : A -> Z) l :
  (forall a, a ∈ l -> key a = Ok (k a)) -> sort_latest key l = Ok (stable_sort (latest k) l).
Proof.
  intros Hk. assert (res_mapM (fun a => let! k := key a in Ok (k, a)) l = Ok (map (fun a => (k a, a)) l)) as H.
  { induction l as [|a l IH]; [done|]. cbn. rewrite Hk by left. cbn. rewrite IH; [done|].
    intros b Hb. apply Hk. by right. }
  destruct l as [|a [|b l]]; [done..|]. unfold sort_latest. rewrite H. cbn [res_bind]. f_equal.
  clear. assert (forall l, stable_sort (latest fst) (map (fun a => (k a, a)) l)
                           = map (fun a => (k a, a)) (stable_sort (latest k) l)) as ->.
  { intros l'. unfold stable_sort. induction l' as [|c l' IH]; [done|].
    cbn [map fold_right]. rewrite IH. apply insert_keyed. }
  rewrite map_map. apply map_id.
Qed.
End SortLatest.
