(* ===== verification/AuthState.v ===== *)
(** * The signed-in user in the browser

    Models the state of AuthProvider in src/contexts/AuthContext.tsx: the
    user the pages see, set by [refreshUser], by a page after signing in, and
    by [logout].  The user is the value the server sent.  Requests are
    answered in any order; each answer is the event that settles them. *)

From stdpp Require Import gmap.
From S2P Require Import Prelude JsNumber JsString JsValue Auth Http Session Client.

(** ** The requests *)

Definition me_url : FetchRequest := get_request "/api/auth/me".
Definition logout_url : FetchRequest :=
  {| f_method := "POST"; f_url := "/api/auth/logout"; f_headers := []; f_body := None |}.

(** [payload.authenticated ? payload.user ?? null : null] *)
Definition payload_user (payload : jsval) : res jsval :=
  let! authenticated := member payload "authenticated" in
  Ok (if truthy authenticated then vnullish (prop payload "user") JNull else JNull).

(** The user an answer of /api/auth/me names; any failure is no user. *)
Definition me_user (r : option FetchResponse) : jsval :=
  match r with
  | None => JNull
  | Some r =>
      if negb (ok r) then JNull
      else match resp_json r with
           | None => JNull
           | Some payload => match payload_user payload with Ok u => u | Exn _ => JNull end
           end
  end.

Definition refreshUser : io jsval := Fetch me_url (fun r => Ret (me_user r)).

(** ** The provider *)

(** [meInFlight] and [logoutsInFlight] count the requests that are not
    answered; [initial] tells whether the first refresh is among them. *)
Record Provider := {
  user : jsval;
  loading : bool;
  initial : bool;
  meInFlight : nat;
  logoutsInFlight : nat;
}.

(** Mounted: the effect has started its refresh. *)
Definition provider_start : Provider :=
  {| user := JNull; loading := true; initial := true; meInFlight := 0; logoutsInFlight := 0 |}.

Inductive AuthEvent :=
| FirstAnswer (r : option FetchResponse)
| StartRefresh
| MeAnswer (r : option FetchResponse)
| SetUser (u : jsval)
| StartLogout
| LogoutAnswer.

Inductive provides : Provider -> AuthEvent -> Provider -> Prop :=
| provides_first p r : initial p = true ->
    provides p (FirstAnswer r)
      {| user := me_user r; loading := false; initial := false; meInFlight := meInFlight p;
         logoutsInFlight := logoutsInFlight p |}
| provides_refresh p :
    provides p StartRefresh
      {| user := user p; loading := loading p; initial := initial p; meInFlight := S (meInFlight p);
         logoutsInFlight := logoutsInFlight p |}
| provides_me p r n : meInFlight p = S n ->
    provides p (MeAnswer r)
      {| user := me_user r; loading := loading p; initial := initial p; meInFlight := n;
         logoutsInFlight := logoutsInFlight p |}
| provides_set p u :
    provides p (SetUser u)
      {| user := u; loading := loading p; initial := initial p; meInFlight := meInFlight p;
         logoutsInFlight := logoutsInFlight p |}
| provides_logout p :
    provides p StartLogout
      {| user := user p; loading := loading p; initial := initial p; meInFlight := meInFlight p;
         logoutsInFlight := S (logoutsInFlight p) |}
| provides_logged_out p n : logoutsInFlight p = S n ->
    provides p LogoutAnswer
      {| user := JNull; loading := loading p; initial := initial p; meInFlight := meInFlight p;
         logoutsInFlight := n |}.

Inductive runs : Provider -> list AuthEvent -> Provider -> Prop :=
| runs_nil p : runs p [] p
| runs_cons p e p' es p'' : provides p e p' -> runs p' es p'' -> runs p (e :: es) p''.

(** [hasPermission] on the value in the state: no user has none, an admin
    all, and a role that is not in the table none. *)
Definition value_role (u : jsval) : option UserRole :=
  match prop u "role" with
  | JStr "admin" => Some admin
  | JStr "operator" => Some operator
  | JStr "viewer" => Some viewer
  | _ => None
  end.

Definition user_may (u : jsval) (permission : Permissions.PermissionKey) : bool :=
  if negb (truthy u) then false
  else match value_role u with
       | Some admin => true
       | Some r => Permissions.ROLE_PERMISSIONS r permission
       | None => false
       end.

(** ** The state and the session *)

Section Env.
Context (env : string -> option string).

(** The response shows the provider a user whose role the cookie has. *)
Definition user_with_cookie (resp : NextResponse) : Prop :=
  response_ok resp = true ->
  exists v u secure, res_body resp = JsonBody v /\ payload_user v = Ok (JObj (user_obj u))
    /\ res_cookies resp !! cookie_role = Some (role_cookie secure (u_role u))
    /\ value_role (JObj (user_obj u)) = Some (u_role u)
    /\ forall p, user_may (JObj (user_obj u)) p = Permissions.ROLE_PERMISSIONS (u_role u) p.

Lemma user_obj_role u : value_role (JObj (user_obj u)) = Some (u_role u).
Proof. by destruct u as [? ? ? [] ?]. Qed.

Lemma user_obj_may u p : user_may (JObj (user_obj u)) p = Permissions.ROLE_PERMISSIONS (u_role u) p.
Proof. by destruct u as [? ? ? [] ?]. Qed.

Lemma me_respond_user request sessionId roleCookie a :
  all_results user_with_cookie (me_respond env request sessionId roleCookie a).
Proof.
  unfold me_respond. destruct (ok (meResponse a)); cbn [negb]; [|by destruct (negb _ && negb _)].
  destruct (if truthy _ then _ else _) as [[u|]|]; [|done..]. cbn [lift bind].
  assert (forall resp, response_ok resp = true ->
    res_body resp = JsonBody (JObj [("authenticated", JBool true); ("user", JObj (user_obj u))]) ->
    (exists secure, res_cookies resp !! cookie_role = Some (role_cookie secure (u_role u))) ->
    user_with_cookie resp) as H.
  { intros resp _ Hb [secure Hc] _. exists (JObj [("authenticated", JBool true); ("user", JObj (user_obj u))]), u, secure.
    split_and!; [done|done|done|apply user_obj_role|intros p; apply user_obj_may]. }
  destruct (truthy_str (activeRefreshToken a) && truthy_str sessionId); cbn [all_results]; apply H; try done.
  - unfold attachTokenCookies. by destruct (normalizeRole _ ??? roleCookie).
  - unfold attachTokenCookies. by destruct (normalizeRole _ ??? roleCookie).
  - exists (shouldUseSecureCookies env (Some request)). unfold attachTokenCookies.
    assert (normalizeRole (Some (role_str (u_role u))) = Some (u_role u)) as -> by (by destruct (u_role u)).
    cbn [nullish_or]. apply lookup_insert_eq.
  - exists (shouldUseSecureCookies env (Some request)). apply lookup_insert_eq.
Qed.

(** [C35] The pages and the page guard agree about the user: whatever the
    control plane answers, when the session route makes the provider show a
    user, the same response stores that user's role in the cookie the guard
    reads, and the user has exactly the permissions of that role. *)
Theorem user_matches_cookie (request : NextRequest) :
  all_results user_with_cookie (me_GET env request).
Proof.
  unfold me_GET. destruct (truthy_str _); cbn [negb]; [|done].
  apply (all_results_bind (fun _ => True)); [auto with js|]. intros [first|] _; [|done].
  apply (all_results_bind (fun _ => True)); [auto with js|]. intros [a|] _; [|done].
  apply me_respond_user.
Qed.
End Env.

(** ** A race *)

Definition json_answer (o : obj) : option FetchResponse :=
  Some {| status := 200; resp_headers := ∅; resp_body := Some (json_text o) |}.

(** An answer to a refresh that was sent before signing out arrives after
    it: the pages show the user again. *)
Lemma late_refresh_restores_user :
  exists p, runs provider_start
    [FirstAnswer None; StartRefresh; StartLogout; LogoutAnswer;
     MeAnswer (json_answer [("authenticated", JBool true); ("user", JObj [("role", JStr "admin")])])] p
  /\ user_may (user p) Permissions.manage_users = true /\ logoutsInFlight p = 0%nat.
Proof.
  eexists. split; [|split].
  - eapply runs_cons; [by apply provides_first|]. eapply runs_cons; [apply provides_refresh|].
    eapply runs_cons; [apply provides_logout|]. eapply runs_cons; [by apply provides_logged_out|].
    eapply runs_cons; [by apply provides_me|apply runs_nil].
  - vm_compute. reflexivity.
  - reflexivity.
Qed.
