(* ===== verification/Dashboard.v ===== *)
(** * The dashboard

    Models src/app/dashboard/hooks/useDashboardData.ts: the four fetches of a
    load (devices by page, alerts, commands by cursor, audit events), the
    aggregation of their rows into a snapshot, and the hook's state.

    Parameters: [date_parse] and [local] as in Module DateTime, [local_day]
    the time value of [new Date(y, m, d, 0, 0, 0, 0)], and [day_label] the
    text Intl.DateTimeFormat gives for the day.  The loop over the device
    pages runs on fuel; [None] is a loop that has not ended. *)

From S2P Require Import Prelude JsNumber JsString JsValue Http Session Commands RenderModel RenderLaws Devices Client.
Import DateTime.
Import Rows(DeviceStatus, online, offline, quarantined, degraded, status_str, risk_of,
  AuditEntry, Outcome, success, failure, pending).

Local Open Scope Z_scope.

Definition PAGE_SIZE : Z := 200.
Definition COMMAND_FETCH_MAX_PAGES : nat := 10.
Definition COMMAND_WINDOW_DAYS : nat := 7.

(** ** The rows *)

Inductive ComplianceStatus := compliant | non_compliant | drift | unknown.

(** A time of a row is the value the payload holds. *)
Record NormalizedDevice := {
  d_id : string;
  d_name : string;
  d_owner : string;
  d_status : DeviceStatus;
  d_compliance : ComplianceStatus;
  d_risk : num;
  d_lastSeenIso : jsval;
  d_agentVersion : option string;
}.

Record NormalizedAlert := {
  al_id : string;
  al_severity : string;
  al_message : string;
  al_deviceId : option string;
  al_timestampIso : jsval;
  al_acknowledged : bool;
}.

Record NormalizedCommand := {
  c_id : string;
  c_method : string;
  c_state : string;
  c_deviceId : option string;
  c_queuedAtIso : jsval;
  c_completedAtIso : jsval;
  c_errorCode : option string;
  c_errorMessage : option string;
  c_actorEmail : option string;
}.

Definition normalizeStatus (value : jsval) : res DeviceStatus :=
  let! normalized := lowered value "" in
  Ok (if (normalized === "active") || (normalized === "online") then online
      else if normalized === "quarantined" then quarantined
      else if normalized === "degraded" then degraded
      else offline).

Definition normalizeCompliance (value : jsval) : res ComplianceStatus :=
  let! normalized := lowered value "" in
  Ok (if normalized === "compliant" then compliant
      else if (normalized === "drift") || (normalized === "non_compliant") then drift
      else if normalized === "unknown" then unknown
      else non_compliant).

Definition normalizeRisk (value : jsval) : res num :=
  let! parsed := match value with
                 | JNum n => Ok n
                 | _ => to_number (vnullish value (JNum Num.zero))
                 end in
  Ok (risk_of parsed).

(** [command.completedAtIso ?? command.queuedAtIso ?? null] *)
Definition commandEventTime (command : NormalizedCommand) : jsval :=
  vnullish (c_completedAtIso command) (vnullish (c_queuedAtIso command) JNull).

(** The id of a row, [None] for a row that is skipped. *)
Definition row_id (row : jsval) (k : string) : res (option string) :=
  let! s := member_str row k "" in
  Ok (if truthy_str (trim s) then Some (trim s) else None).

Definition read_device (row : jsval) : res (option NormalizedDevice) :=
  let! found := row_id row "device_id" in
  match found with
  | None => Ok None
  | Some id =>
      let! name := trimmed_or row "device_name" id in
      let! owner := trimmed_or row "owner_email" "Unknown" in
      let! status := normalizeStatus (prop row "lifecycle_state") in
      let! compliance := normalizeCompliance (prop row "compliance_status") in
      let! risk := normalizeRisk (prop row "risk_score") in
      let! agentVersion := trimmed (prop row "agent_version") in
      Ok (Some {| d_id := id; d_name := name; d_owner := owner; d_status := status;
                  d_compliance := compliance; d_risk := risk;
                  d_lastSeenIso := vnullish (prop row "last_seen") JNull;
                  d_agentVersion := agentVersion |})
  end.

Definition read_alert (row : jsval) : res (option NormalizedAlert) :=
  let! found := row_id row "alert_id" in
  match found with
  | None => Ok None
  | Some id =>
      let! severity := lowered (prop row "severity") "info" in
      let! message := trimmed_or row "message" "Alert event" in
      let! deviceId := trimmed (prop row "device_id") in
      Ok (Some {| al_id := id; al_severity := severity; al_message := message;
                  al_deviceId := deviceId;
                  al_timestampIso := vnullish (prop row "timestamp") JNull;
                  al_acknowledged := truthy (prop row "acknowledged") |})
  end.

(** ** Fetching *)

Definition device_page_url (page : num) : string :=
  "/api/devices?per_page=" +:+ Num.digits PAGE_SIZE +:+ "&page=" +:+ Num.to_string page.

(** [Number(payload.meta?.k ?? d)] *)
Definition page_number (payload : jsval) (k : string) (d : num) : res num :=
  to_number (vnullish (prop (prop payload "meta") k) (JNum d)).

(** What one page of devices tells: its rows, the devices among them, the
    page that comes next and the last one. *)
Definition read_device_page (payload : jsval) (page : num)
    : res (list jsval * list NormalizedDevice * num * num) :=
  let! field := member payload "devices" in
  let! rows := for_of (vnullish field (JArr [])) in
  let! found := res_mapM read_device rows in
  let! current := page_number payload "current_page" page in
  let! last := page_number payload "last_page" current in
  Ok (rows, omap id found, Num.add current (Num.of_Z 1),
      if Num.is_finite last && Num.gt last Num.zero then last else current).

Fixpoint device_pages (fuel : nat) (devices : list NormalizedDevice) (page lastPage : num)
    : io (option (list NormalizedDevice)) :=
  if negb (Num.le page lastPage) then Ret (Some devices)
  else match fuel with
       | O => Ret None
       | S fuel =>
           let* payload := get_json "devices" (device_page_url page) in
           let* read := lift (read_device_page payload page) in
           let '(rows, found, next, last) := read in
           match rows with
           | [] => Ret (Some (devices ++ found))
           | _ => device_pages fuel (devices ++ found) next last
           end
       end.

Definition fetchDevices (fuel : nat) : io (option (list NormalizedDevice)) :=
  device_pages fuel [] (Num.of_Z 1) (Num.of_Z 1).

Definition fetchAlerts : io (list NormalizedAlert) :=
  let* payload := get_json "alerts" "/api/alerts?limit=200" in
  lift (let! field := member payload "alerts" in
        let! rows := array_of (vnullish field (JArr [])) in
        let! found := res_mapM read_alert rows in
        Ok (omap id found)).

Section Zone.
Context (date_parse : string -> option Z) (local : Z -> LocalTime).

Definition parseIsoMs (value : jsval) : res (option Z) := parse_iso date_parse value.

(** The time the paging goes by: completed, else queued, else 0. *)
Definition command_event_ms (queuedAtIso completedAtIso : jsval) : res Z :=
  let! done := parseIsoMs completedAtIso in
  match done with
  | Some ms => Ok ms
  | None => let! queued := parseIsoMs queuedAtIso in Ok (queued ?? 0)
  end.

Definition read_command (row : jsval) : res (option (Z * NormalizedCommand)) :=
  let! found := row_id row "command_id" in
  match found with
  | None => Ok None
  | Some id =>
      let queuedAtIso := vnullish (prop row "queued_at") JNull in
      let completedAtIso := vnullish (prop row "completed_at") JNull in
      let! eventMs := command_event_ms queuedAtIso completedAtIso in
      let! method := trimmed_or row "method" "unknown" in
      let! state := lowered (prop row "state") "queued" in
      let! deviceId := trimmed (prop row "device_id") in
      let code := prop row "error_code" in
      let! errorCode := if is_nullish code then Ok None else let! s := to_str code in Ok (Some s) in
      let! errorMessage := trimmed (prop row "error_message") in
      let! actorEmail := trimmed (prop row "actor_email") in
      Ok (Some (eventMs,
        {| c_id := id; c_method := method; c_state := state; c_deviceId := deviceId;
           c_queuedAtIso := queuedAtIso; c_completedAtIso := completedAtIso;
           c_errorCode := errorCode; c_errorMessage := errorMessage; c_actorEmail := actorEmail |}))
  end.

Definition MAX_SAFE_INTEGER : Z := 2 ^ 53 - 1.

Definition older (oldestSeen eventMs : Z) : Z :=
  if (0 <? eventMs) && (eventMs <? oldestSeen) then eventMs else oldestSeen.

(** [new URLSearchParams({ limit, before? }).toString()] *)
Definition command_page_url (before : jsval) : res string :=
  let first := "/api/commands?limit=" +:+ Num.digits PAGE_SIZE in
  if truthy before then let! s := to_str before in Ok (first +:+ "&before=" +:+ form_encode s)
  else Ok first.

(** The commands of a page and the oldest event among them. *)
Definition read_command_page (field : jsval) : res (Z * list NormalizedCommand) :=
  let! rows := for_of field in
  let! found := res_mapM read_command rows in
  let found := omap id found in
  Ok (fold_left older (map fst found) MAX_SAFE_INTEGER, map snd found).

Fixpoint command_pages (pages : nat) (windowStartMs : Z) (commands : list NormalizedCommand)
    (before : jsval) : io (list NormalizedCommand) :=
  match pages with
  | O => Ret commands
  | S pages =>
      let* url := lift (command_page_url before) in
      let* payload := get_json "commands" url in
      let* field := lift (member payload "commands") in
      let field := vnullish field (JArr []) in
      if length_zero field then Ret commands
      else
        let* read := lift (read_command_page field) in
        let '(oldestSeen, found) := read in
        let commands := commands ++ found in
        let before := vnullish (prop payload "next_before") JNull in
        if negb (truthy before) then Ret commands
        else if oldestSeen <? windowStartMs then Ret commands
        else command_pages pages windowStartMs commands before
  end.

Definition fetchCommands (windowStartMs : Z) : io (list NormalizedCommand) :=
  command_pages COMMAND_FETCH_MAX_PAGES windowStartMs [] JNull.

Definition formatLocalEventTime (iso : jsval) : res string :=
  local_time date_parse local iso "--:--:--".
Definition formatAuditTimestamp (iso : jsval) : res string :=
  local_date_time date_parse local iso "1970-01-01 00:00:00".

(** *** Audit events *)

(** [String(value ?? '').trim().toLowerCase()] *)
Definition trimmed_lower (value : jsval) : res string :=
  let! s := str_or value "" in Ok (toLowerCase (trim s)).

Definition normalizeAuditEventType (value : jsval) : res string :=
  let! normalized := trimmed_lower value in
  Ok (if (normalized === "user_action") || (normalized === "command_execution")
         || (normalized === "policy_change") then normalized else "system_event").

Definition normalizeAuditOutcome (value : jsval) : res Outcome :=
  let! normalized := trimmed_lower value in
  Ok (if normalized === "success" then success
      else if normalized === "failure" then failure else pending).

Definition labelAuditRole (value : jsval) : res string :=
  let! normalized := trimmed_lower value in
  Ok (if negb (truthy_str normalized) then "System"
      else if normalized === "admin" then "Admin"
      else if normalized === "viewer" then "Viewer"
      else if normalized === "operator" then "Operator"
      else if normalized === "system" then "System"
      else toUpperCase (stake 1 normalized) +:+ sdrop 1 normalized).

(** [[timestamp, action, target, index].filter(Boolean).join('|')] or the
    index, for an event without an id. *)
Definition audit_key (event : jsval) (index : nat) : res string :=
  let! parts := res_mapM to_str (List.filter truthy
    [prop event "timestamp"; prop event "action"; prop event "target"; JNum (Num.of_nat index)]) in
  Ok (or_str (join "|" parts) ("audit-" +:+ Num.digits (Z.of_nat index))).

Definition read_audit_event (index : nat) (event : jsval) : res AuditEntry :=
  let! given := member event "id" in
  let! id := if is_nullish given then audit_key event index else to_str given in
  let! timestamp := formatAuditTimestamp (vnullish (prop event "timestamp") JNull) in
  let! actor := str_or (prop event "actor") "system" in
  let! role := labelAuditRole (prop event "actor_role") in
  let! eventType := normalizeAuditEventType (prop event "event_type") in
  let! action := str_or (prop event "action") "EVENT" in
  let! target := str_or (prop event "target") "" in
  let! detail := str_or (prop event "detail") "" in
  let! outcome := normalizeAuditOutcome (prop event "outcome") in
  Ok {| Rows.audit_id := id; Rows.audit_timestamp := timestamp; Rows.actor := actor;
        Rows.actorRole := role; Rows.eventType := eventType; Rows.action := action;
        Rows.target := target; Rows.detail := detail; Rows.outcome := outcome |}.

Definition fetchAuditEntries : io (list AuditEntry) :=
  let* payload := get_json "audit" "/api/audit/events?page=1&per_page=120" in
  lift (let! field := member payload "events" in
        let! events := array_of (vnullish field (JArr [])) in
        res_mapM (fun ie => read_audit_event ie.1 ie.2) (imap pair events)).

End Zone.

(** ** The snapshot *)

Record DashboardKpiData := {
  totalDevices : nat;
  onlineDevices : nat;
  offlineDevices : nat;
  quarantinedDevices : nat;
  activeCommands : nat;
  failingCommandsCount : nat;
  criticalAlerts : nat;
  complianceDrift : nat;
  avgRiskScore : num;
  fleetOnlineRate : num;
}.

Record FleetStatusDatum := { fs_name : string; fs_value : nat; fs_color : string }.

Record CommandVolumeDatum := {
  v_day : string; v_completed : nat; v_failed : nat; v_expired : nat;
}.

Record FailingCommandItem := {
  f_id : string;
  f_device : string;
  f_method : string;
  f_errorCode : option string;
  f_errorMsg : string;
  f_failedAt : string;
}.

(** [at_status] is 'quarantined' or 'degraded'. *)
Record AttentionDeviceItem := {
  at_id : string;
  at_name : string;
  at_status : DeviceStatus;
  at_reason : string;
  at_since : string;
}.

Inductive ActivityType := act_command | act_alert | act_device.

(** An activity item, with the time it is sorted by. *)
Record ActivityItem := {
  a_id : string;
  a_type : ActivityType;
  a_title : string;
  a_detail : string;
  a_sortAt : Z;
  a_time : string;
}.

Record DashboardActivityItem := {
  da_id : string;
  da_type : ActivityType;
  da_title : string;
  da_detail : string;
  da_time : string;
}.

(** A feed event; [w_type] is 'alert', 'command_status' or 'device_state',
    and [read] is always false. *)
Record WsEvent := {
  w_id : string;
  w_type : string;
  w_severity : string;
  w_title : string;
  w_detail : string;
  w_timestamp : string;
}.

Record DashboardSnapshot := {
  kpi : DashboardKpiData;
  fleetStatus : list FleetStatusDatum;
  commandVolume : list CommandVolumeDatum;
  failingCommands : list FailingCommandItem;
  attentionDevices : list AttentionDeviceItem;
  activityItems : list DashboardActivityItem;
  auditEntries : list AuditEntry;
  liveFeedEvents : list WsEvent;
}.

Definition EMPTY_KPI : DashboardKpiData :=
  {| totalDevices := 0; onlineDevices := 0; offlineDevices := 0; quarantinedDevices := 0;
     activeCommands := 0; failingCommandsCount := 0; criticalAlerts := 0; complianceDrift := 0;
     avgRiskScore := Num.zero; fleetOnlineRate := Num.zero |}.

Definition fleet_status (onlineCount offlineCount degradedCount quarantinedCount : nat)
    : list FleetStatusDatum :=
  [ {| fs_name := "Online"; fs_value := onlineCount; fs_color := "hsl(142 71% 45%)" |};
    {| fs_name := "Offline"; fs_value := offlineCount; fs_color := "hsl(240 5% 45%)" |};
    {| fs_name := "Degraded"; fs_value := degradedCount; fs_color := "hsl(38 92% 50%)" |};
    {| fs_name := "Quarantined"; fs_value := quarantinedCount; fs_color := "hsl(0 72% 51%)" |} ].

Definition EMPTY_SNAPSHOT : DashboardSnapshot :=
  {| kpi := EMPTY_KPI; fleetStatus := fleet_status 0 0 0 0; commandVolume := [];
     failingCommands := []; attentionDevices := []; activityItems := []; auditEntries := [];
     liveFeedEvents := [] |}.

(** [l.filter(p).length] *)
Definition count {A} (p : A -> bool) (l : list A) : nat := length (List.filter p l).

Definition has_status (s : DeviceStatus) (d : NormalizedDevice) : bool :=
  status_str (d_status d) === status_str s.

Definition activeStates : list string := ["queued"; "dispatched"; "ack_received"; "executing"].
Definition failedStates : list string := ["failed"; "expired"; "rejected"].
Definition in_states (states : list string) (state : string) : bool :=
  existsb (String.eqb state) states.

Definition drifted (d : NormalizedDevice) : bool :=
  match d_compliance d with drift | non_compliant => true | _ => false end.

Definition needs_attention (d : NormalizedDevice) : bool :=
  has_status quarantined d || has_status degraded d.

(** [Number(x.toFixed(n))] *)
Definition fixed (n : Z) (x : num) : num := number_of_string (Num.to_fixed n x).

Definition online_rate (onlineCount total : nat) : num :=
  if (0 <? total)%nat then
    fixed 1 (Num.mul (Num.div (Num.of_nat onlineCount) (Num.of_nat total)) (Num.of_Z 100))
  else Num.zero.

Definition average_risk (devices : list NormalizedDevice) : num :=
  if (0 <? length devices)%nat then
    fixed 4 (Num.div (fold_left (fun sum d => Num.add sum (d_risk d)) devices Num.zero)
               (Num.of_nat (length devices)))
  else Num.zero.

Definition kpi_of (devices : list NormalizedDevice) (alerts : list NormalizedAlert)
    (commands : list NormalizedCommand) : DashboardKpiData :=
  {| totalDevices := length devices;
     onlineDevices := count (has_status online) devices;
     offlineDevices := count (has_status offline) devices;
     quarantinedDevices := count (has_status quarantined) devices;
     activeCommands := count (fun c => in_states activeStates (c_state c)) commands;
     failingCommandsCount := count (fun c => in_states failedStates (c_state c)) commands;
     criticalAlerts := count (fun a => al_severity a === "critical") alerts;
     complianceDrift := count drifted devices;
     avgRiskScore := average_risk devices;
     fleetOnlineRate := online_rate (count (has_status online) devices) (length devices) |}.

Section Snapshot.
Context (date_parse : string -> option Z) (local : Z -> LocalTime).
Context (local_day : Z -> Z -> Z -> Z) (day_label : LocalTime -> string).

(** *** Commands by day *)

Definition day_at (now : LocalTime) (offset : nat) : LocalTime :=
  local (local_day (fullYear now) (month now) (date now - Z.of_nat offset)).

(** The days of the window, the oldest first. *)
Definition window_days (now : LocalTime) : list LocalTime :=
  map (day_at now) (rev (seq 0 COMMAND_WINDOW_DAYS)).

Definition empty_datum (day : LocalTime) : CommandVolumeDatum :=
  {| v_day := day_label day; v_completed := 0; v_failed := 0; v_expired := 0 |}.

Definition dayBuckets (days : list LocalTime) : list (string * CommandVolumeDatum) :=
  fold_left (fun m day => map_set m (formatLocalDateKey day) (empty_datum day)) days [].

(** One command counted in its day's bucket. *)
Definition count_command (state : string) (v : CommandVolumeDatum) : CommandVolumeDatum :=
  if state === "completed" then
    {| v_day := v_day v; v_completed := S (v_completed v); v_failed := v_failed v; v_expired := v_expired v |}
  else if state === "expired" then
    {| v_day := v_day v; v_completed := v_completed v; v_failed := v_failed v; v_expired := S (v_expired v) |}
  else if (state === "failed") || (state === "rejected") then
    {| v_day := v_day v; v_completed := v_completed v; v_failed := S (v_failed v); v_expired := v_expired v |}
  else v.

(** The day a command falls on, [None] without a time ([!eventMs]). *)
Definition command_day (command : NormalizedCommand) : res (option string) :=
  let! eventMs := parseIsoMs date_parse (commandEventTime command) in
  Ok (match eventMs with
      | Some ms => if ms =? 0 then None else Some (formatLocalDateKey (local ms))
      | None => None
      end).

Definition add_command (buckets : list (string * CommandVolumeDatum)) (command : NormalizedCommand)
    : res (list (string * CommandVolumeDatum)) :=
  let! day := command_day command in
  Ok (match day with
      | None => buckets
      | Some dayKey =>
          match own_get buckets dayKey with
          | Some bucket => replace buckets dayKey (count_command (c_state command) bucket)
          | None => buckets
          end
      end).

Fixpoint add_commands (buckets : list (string * CommandVolumeDatum))
    (commands : list NormalizedCommand) : res (list (string * CommandVolumeDatum)) :=
  match commands with
  | [] => Ok buckets
  | c :: commands => let! buckets := add_command buckets c in add_commands buckets commands
  end.

Definition command_volume (now : Z) (commands : list NormalizedCommand) : res (list CommandVolumeDatum) :=
  let! buckets := add_commands (dayBuckets (window_days (local now))) commands in
  Ok (map snd buckets).

(** *** What needs attention *)

(** [parseIsoMs(iso) ?? 0] *)
Definition ms_or_zero (iso : jsval) : res Z := let! ms := parseIsoMs date_parse iso in Ok (ms ?? 0).

(** [new Map(devices.map((d) => [d.id, d.name])).get(id)]: the last one wins. *)
Definition deviceNameById (devices : list NormalizedDevice) (id : string) : option string :=
  own_get (rev (map (fun d => (d_id d, d_name d)) devices)) id.

Definition failing_item (devices : list NormalizedDevice) (command : NormalizedCommand)
    : res FailingCommandItem :=
  let! failedAt := formatLocalEventTime date_parse local (commandEventTime command) in
  Ok {| f_id := c_id command;
        f_device := or_else (fun id => deviceNameById devices id ?? id) (c_deviceId command) "Unknown device";
        f_method := c_method command;
        f_errorCode := c_errorCode command;
        f_errorMsg := c_errorMessage command ?? "Execution failed";
        f_failedAt := failedAt |}.

Definition failing_commands (devices : list NormalizedDevice) (commands : list NormalizedCommand)
    : res (list FailingCommandItem) :=
  let! sorted := sort_latest (fun c => ms_or_zero (commandEventTime c))
                   (List.filter (fun c => in_states failedStates (c_state c)) commands) in
  res_mapM (failing_item devices) (take 6 sorted).

Definition attention_reason (device : NormalizedDevice) : string :=
  if has_status quarantined device then "Device quarantined by policy"
  else if drifted device then "Compliance drift detected"
  else if Num.ge (d_risk device) (Num.of_decimal false 6 (-1)) then
    "Elevated risk score (" +:+ Num.to_fixed 1 (Num.mul (d_risk device) (Num.of_Z 100)) +:+ "/100)"
  else "Degraded device health reported".

Definition attention_item (device : NormalizedDevice) : res AttentionDeviceItem :=
  let! since := formatLocalEventTime date_parse local (d_lastSeenIso device) in
  Ok {| at_id := d_id device;
        at_name := d_name device;
        at_status := if has_status quarantined device then quarantined else degraded;
        at_reason := attention_reason device;
        at_since := "since " +:+ since |}.

Definition attention_devices (devices : list NormalizedDevice) : res (list AttentionDeviceItem) :=
  let! sorted := sort_latest (fun d => ms_or_zero (d_lastSeenIso d))
                   (List.filter needs_attention devices) in
  res_mapM attention_item (take 6 sorted).

(** *** Activity *)

Definition activity (kind : ActivityType) (id title detail : string) (ts : jsval) : res ActivityItem :=
  let! sortAt := ms_or_zero ts in
  let! time := formatLocalEventTime date_parse local ts in
  Ok {| a_id := id; a_type := kind; a_title := title; a_detail := detail;
        a_sortAt := sortAt; a_time := time |}.

Definition commandActivity (c : NormalizedCommand) : res ActivityItem :=
  activity act_command ("activity-command-" +:+ c_id c) (c_id c +:+ " " +:+ c_state c)
    (c_method c +:+ " on " +:+ (c_deviceId c ?? "device")) (commandEventTime c).

Definition alertActivity (a : NormalizedAlert) : res ActivityItem :=
  activity act_alert ("activity-alert-" +:+ al_id a) (toUpperCase (al_severity a) +:+ " alert")
    (al_message a) (al_timestampIso a).

Definition deviceActivity (d : NormalizedDevice) : res ActivityItem :=
  activity act_device ("activity-device-" +:+ d_id d) (d_name d +:+ " heartbeat")
    (status_str (d_status d) +:+ " - Agent " +:+ (d_agentVersion d ?? "-")) (d_lastSeenIso d).

Definition all_activity (devices : list NormalizedDevice) (alerts : list NormalizedAlert)
    (commands : list NormalizedCommand) : res (list ActivityItem) :=
  let! cs := res_mapM commandActivity commands in
  let! als := res_mapM alertActivity alerts in
  let! ds := res_mapM deviceActivity (List.filter (fun d => truthy (d_lastSeenIso d)) devices) in
  Ok (cs ++ als ++ ds).

(** The twelve latest dated items. *)
Definition recent (items : list ActivityItem) : list ActivityItem :=
  take 12 (stable_sort (latest a_sortAt) (List.filter (fun i => 0 <? a_sortAt i) items)).

Definition activity_item (i : ActivityItem) : DashboardActivityItem :=
  {| da_id := a_id i; da_type := a_type i; da_title := a_title i; da_detail := a_detail i; da_time := a_time i |}.

Definition feed_event (i : ActivityItem) : WsEvent :=
  {| w_id := "feed-" +:+ a_id i;
     w_type := match a_type i with
               | act_alert => "alert" | act_command => "command_status" | act_device => "device_state"
               end;
     w_severity := match a_type i with
                   | act_alert => if startsWith (toLowerCase (a_title i)) "critical" then "critical" else "warning"
                   | act_command => if includes (a_title i) "failed" || includes (a_title i) "expired"
                                       || includes (a_title i) "rejected" then "warning" else "info"
                   | act_device => "info"
                   end;
     w_title := a_title i;
     w_detail := a_detail i;
     w_timestamp := a_time i |}.

(** *** The trail shown when the audit endpoint fails *)

Definition commandAudit (c : NormalizedCommand) : res AuditEntry :=
  let state := toLowerCase (c_state c) in
  let! timestamp := formatAuditTimestamp date_parse local (commandEventTime c) in
  Ok {| Rows.audit_id := "AUD-CMD-" +:+ c_id c;
        Rows.audit_timestamp := timestamp;
        Rows.actor := c_actorEmail c ?? "system";
        Rows.actorRole := or_else (fun _ => "Operator") (c_actorEmail c) "System";
        Rows.eventType := "command_execution";
        Rows.action := "COMMAND_" +:+ toUpperCase state;
        Rows.target := c_deviceId c ?? "fleet";
        Rows.detail := c_method c +:+ " (" +:+ c_id c +:+ ")"
                         +:+ or_else (fun m => " - " +:+ m) (c_errorMessage c) "";
        Rows.outcome := if state === "completed" then success
                        else if in_states failedStates state then failure else pending |}.

Definition alertAudit (a : NormalizedAlert) : res AuditEntry :=
  let! timestamp := formatAuditTimestamp date_parse local (al_timestampIso a) in
  Ok {| Rows.audit_id := "AUD-ALT-" +:+ al_id a;
        Rows.audit_timestamp := timestamp;
        Rows.actor := "system";
        Rows.actorRole := "System";
        Rows.eventType := "system_event";
        Rows.action := "ALERT_RAISED";
        Rows.target := al_deviceId a ?? al_id a;
        Rows.detail := toUpperCase (al_severity a) +:+ " - " +:+ al_message a;
        Rows.outcome := if al_severity a === "info" then pending else failure |}.

Definition audit_time (e : AuditEntry) : Z := parseLocalDateTime date_parse (Rows.audit_timestamp e).

Definition audit_entries (alerts : list NormalizedAlert) (commands : list NormalizedCommand)
    : res (list AuditEntry) :=
  let! cs := res_mapM commandAudit commands in
  let! als := res_mapM alertAudit alerts in
  Ok (take 120 (stable_sort (latest audit_time) (cs ++ als))).

(** [now] is the clock's reading. *)
Definition buildSnapshot (now : Z) (devices : list NormalizedDevice) (alerts : list NormalizedAlert)
    (commands : list NormalizedCommand) : res DashboardSnapshot :=
  let! volume := command_volume now commands in
  let! failing := failing_commands devices commands in
  let! attention := attention_devices devices in
  let! items := all_activity devices alerts commands in
  let! audit := audit_entries alerts commands in
  Ok {| kpi := kpi_of devices alerts commands;
        fleetStatus := fleet_status (count (has_status online) devices) (count (has_status offline) devices)
                         (count (has_status degraded) devices) (count (has_status quarantined) devices);
        commandVolume := volume;
        failingCommands := failing;
        attentionDevices := attention;
        activityItems := map activity_item (recent items);
        auditEntries := audit;
        liveFeedEvents := map feed_event (recent items) |}.

End Snapshot.

(** ** JSON.stringify of a snapshot *)

Definition jnat (n : nat) : jsval := JNum (Num.of_nat n).
Definition jopt (s : option string) : jsval := match s with Some s => JStr s | None => JNull end.

Definition kpi_json (k : DashboardKpiData) : jsval :=
  JObj [("totalDevices", jnat (totalDevices k)); ("onlineDevices", jnat (onlineDevices k));
        ("offlineDevices", jnat (offlineDevices k)); ("quarantinedDevices", jnat (quarantinedDevices k));
        ("activeCommands", jnat (activeCommands k)); ("failingCommands", jnat (failingCommandsCount k));
        ("criticalAlerts", jnat (criticalAlerts k)); ("complianceDrift", jnat (complianceDrift k));
        ("avgRiskScore", JNum (avgRiskScore k)); ("fleetOnlineRate", JNum (fleetOnlineRate k))].

Definition fleet_json (f : FleetStatusDatum) : jsval :=
  JObj [("name", JStr (fs_name f)); ("value", jnat (fs_value f)); ("color", JStr (fs_color f))].

Definition volume_json (v : CommandVolumeDatum) : jsval :=
  JObj [("day", JStr (v_day v)); ("completed", jnat (v_completed v));
        ("failed", jnat (v_failed v)); ("expired", jnat (v_expired v))].

Definition failing_json (f : FailingCommandItem) : jsval :=
  JObj [("id", JStr (f_id f)); ("device", JStr (f_device f)); ("method", JStr (f_method f));
        ("errorCode", jopt (f_errorCode f)); ("errorMsg", JStr (f_errorMsg f));
        ("failedAt", JStr (f_failedAt f))].

Definition attention_json (a : AttentionDeviceItem) : jsval :=
  JObj [("id", JStr (at_id a)); ("name", JStr (at_name a)); ("status", JStr (status_str (at_status a)));
        ("reason", JStr (at_reason a)); ("since", JStr (at_since a))].

Definition activity_type_str (t : ActivityType) : string :=
  match t with act_command => "command" | act_alert => "alert" | act_device => "device" end.

Definition activity_json (i : DashboardActivityItem) : jsval :=
  JObj [("id", JStr (da_id i)); ("type", JStr (activity_type_str (da_type i)));
        ("title", JStr (da_title i)); ("detail", JStr (da_detail i)); ("time", JStr (da_time i))].

Definition outcome_str (o : Outcome) : string :=
  match o with success => "success" | failure => "failure" | pending => "pending" end.

Definition audit_json (e : AuditEntry) : jsval :=
  JObj [("id", JStr (Rows.audit_id e)); ("timestamp", JStr (Rows.audit_timestamp e));
        ("actor", JStr (Rows.actor e)); ("actorRole", JStr (Rows.actorRole e));
        ("eventType", JStr (Rows.eventType e)); ("action", JStr (Rows.action e));
        ("target", JStr (Rows.target e)); ("detail", JStr (Rows.detail e));
        ("outcome", JStr (outcome_str (Rows.outcome e)))].

Definition feed_json (w : WsEvent) : jsval :=
  JObj [("id", JStr (w_id w)); ("type", JStr (w_type w)); ("severity", JStr (w_severity w));
        ("title", JStr (w_title w)); ("detail", JStr (w_detail w));
        ("timestamp", JStr (w_timestamp w)); ("read", JBool false)].

Definition signature (s : DashboardSnapshot) : string :=
  json_text [("kpi", kpi_json (kpi s));
             ("fleetStatus", JArr (map fleet_json (fleetStatus s)));
             ("commandVolume", JArr (map volume_json (commandVolume s)));
             ("failingCommands", JArr (map failing_json (failingCommands s)));
             ("attentionDevices", JArr (map attention_json (attentionDevices s)));
             ("activityItems", JArr (map activity_json (activityItems s)));
             ("auditEntries", JArr (map audit_json (auditEntries s)));
             ("liveFeedEvents", JArr (map feed_json (liveFeedEvents s)))].

(** ** The hook *)

Record DashboardErrors := {
  err_devices : option string;
  err_alerts : option string;
  err_commands : option string;
  err_audit : option string;
}.

(** The results of [Promise.allSettled]; [None] is a rejected fetch. *)
Record LoadResults := {
  devicesResult : option (list NormalizedDevice);
  alertsResult : option (list NormalizedAlert);
  commandsResult : option (list NormalizedCommand);
  auditResult : option (list AuditEntry);
}.

Inductive LoadMode := initial | refresh.

(** The hook's state and refs.  Loads are numbered in the order they start,
    which is also the number of their AbortController; [abortRef] is the
    current one, [aborted] those whose signal is aborted and [running] the
    loads that await their fetches. *)
Record HookState := {
  data : DashboardSnapshot;
  loading : bool;
  refreshing : bool;
  errors : DashboardErrors;
  lastRefreshLabel : string;
  dataSignature : string;
  abortRef : option nat;
  aborted : list nat;
  running : list nat;
  started : nat;
  mounted : bool;
}.

Definition no_errors : DashboardErrors :=
  {| err_devices := None; err_alerts := None; err_commands := None; err_audit := None |}.

Definition hook_init : HookState :=
  {| data := EMPTY_SNAPSHOT; loading := true; refreshing := false; errors := no_errors;
     lastRefreshLabel := ""; dataSignature := ""; abortRef := None; aborted := [];
     running := []; started := 0; mounted := true |}.

(** [load] up to its [await]: the flag, the previous load aborted, a new
    controller. *)
Definition load_start (mode : LoadMode) (s : HookState) : HookState :=
  {| data := data s;
     loading := match mode with initial => true | refresh => loading s end;
     refreshing := match mode with refresh => true | initial => refreshing s end;
     errors := errors s; lastRefreshLabel := lastRefreshLabel s; dataSignature := dataSignature s;
     abortRef := Some (started s);
     aborted := match abortRef s with Some i => i :: aborted s | None => aborted s end;
     running := started s :: running s;
     started := S (started s);
     mounted := mounted s |}.

Definition load_error {A} (r : option A) : option string :=
  match r with None => Some "Failed to load data" | Some _ => None end.

Definition errors_of (r : LoadResults) : DashboardErrors :=
  {| err_devices := load_error (devicesResult r); err_alerts := load_error (alertsResult r);
     err_commands := load_error (commandsResult r); err_audit := load_error (auditResult r) |}.

Definition with_audit (r : LoadResults) (s : DashboardSnapshot) : DashboardSnapshot :=
  {| kpi := kpi s; fleetStatus := fleetStatus s; commandVolume := commandVolume s;
     failingCommands := failingCommands s; attentionDevices := attentionDevices s;
     activityItems := activityItems s; auditEntries := auditResult r ?? auditEntries s;
     liveFeedEvents := liveFeedEvents s |}.

Section Hook.
Context (date_parse : string -> option Z) (local : Z -> LocalTime).
Context (local_day : Z -> Z -> Z -> Z) (day_label : LocalTime -> string).

Definition finalSnapshot (now : Z) (r : LoadResults) : res DashboardSnapshot :=
  let! snapshot := buildSnapshot date_parse local local_day day_label now
                     (devicesResult r ?? []) (alertsResult r ?? []) (commandsResult r ?? []) in
  Ok (with_audit r snapshot).

(** A load leaves [running] when it goes on after its [await]. *)
Definition resume (i : nat) (s : HookState) : HookState :=
  {| data := data s; loading := loading s; refreshing := refreshing s; errors := errors s;
     lastRefreshLabel := lastRefreshLabel s; dataSignature := dataSignature s;
     abortRef := abortRef s; aborted := aborted s;
     running := List.filter (fun j => negb (Nat.eqb i j)) (running s);
     started := started s; mounted := mounted s |}.

Definition set_errors (e : DashboardErrors) (s : HookState) : HookState :=
  {| data := data s; loading := loading s; refreshing := refreshing s; errors := e;
     lastRefreshLabel := lastRefreshLabel s; dataSignature := dataSignature s;
     abortRef := abortRef s; aborted := aborted s; running := running s;
     started := started s; mounted := mounted s |}.

Definition show (now : Z) (snapshot : DashboardSnapshot) (s : HookState) : HookState :=
  let fresh := signature snapshot !== dataSignature s in
  {| data := if fresh then snapshot else data s;
     loading := false;
     refreshing := false;
     errors := errors s;
     lastRefreshLabel := clock (local now);
     dataSignature := if fresh then signature snapshot else dataSignature s;
     abortRef := abortRef s; aborted := aborted s; running := running s;
     started := started s; mounted := mounted s |}.

(** [load] after its [await].  A snapshot that throws rejects the promise
    of [load], which nothing awaits: the errors are set and no more. *)
Definition load_settle (i : nat) (now : Z) (r : LoadResults) (s : HookState) : HookState :=
  let s := resume i s in
  if bool_decide (i ∈ aborted s) then s
  else
    let s := set_errors (errors_of r) s in
    match finalSnapshot now r with
    | Ok snapshot => show now snapshot s
    | Exn _ => s
    end.

(** The effect's clean-up; the timers start no load after it. *)
Definition unmount (s : HookState) : HookState :=
  {| data := data s; loading := loading s; refreshing := refreshing s; errors := errors s;
     lastRefreshLabel := lastRefreshLabel s; dataSignature := dataSignature s;
     abortRef := abortRef s;
     aborted := match abortRef s with Some i => i :: aborted s | None => aborted s end;
     running := running s; started := started s; mounted := false |}.

Inductive Event :=
| Start (mode : LoadMode)
| Settle (i : nat) (now : Z) (r : LoadResults)
| Unmount.

(** Loads start by a timer or a click, and settle in any order. *)
Inductive step : HookState -> Event -> HookState -> Prop :=
| step_start mode s : mounted s = true -> step s (Start mode) (load_start mode s)
| step_settle i now r s : i ∈ running s -> step s (Settle i now r) (load_settle i now r s)
| step_unmount s : mounted s = true -> step s Unmount (unmount s).

Inductive reaches : list Event -> HookState -> Prop :=
| reaches_init : reaches [] hook_init
| reaches_step es e s s' : reaches es s -> step s e s' -> reaches (es ++ [e]) s'.

End Hook.
