(* ===== verification/DashboardLaws.v ===== *)
(** * Laws of the dashboard

    Paging reads every page once and in order, the command window is
    complete, the snapshot's numbers and lists are what the rows say, and the
    hook shows the load that started last. *)

From Stdlib Require Import Sorted.
From S2P Require Import Prelude JsNumber JsInteger JsString JsValue Http Session Commands RenderModel RenderLaws Devices Client Dashboard.
Import DateTime.
Import Rows(DeviceStatus, online, offline, quarantined, degraded, status_str, risk_of,
  AuditEntry, Outcome, success, failure, pending).

Local Open Scope Z_scope.

(** ** Running a GET *)

Section Serving.
Context {S : Type} {up : Upstream S}.

(** The upstream answers the GET of [url] with [payload] and moves on. *)
Definition serves_json (s : S) (url : string) (payload : jsval) (s' : S) : Prop :=
  exists r, answer s (get_request url) = (s', Some r) /\ ok r = true /\ resp_json r = Some payload.

Lemma run_get_json {A} what url payload s s' (k : jsval -> io A) :
  serves_json s url payload s' ->
  run s (bind (get_json what url) k)
  = let '(tr, s2, out) := run s' (k payload) in (get_request url :: tr, s2, out).
Proof.
  intros (r & Ha & Hok & Hj). unfold get_json. cbn. rewrite Ha. cbn. rewrite Hok. unfold read_json.
  rewrite Hj. cbn. done.
Qed.

End Serving.

Lemma bind_lift_ok {A B} (m : res A) a (k : A -> io B) : m = Ok a -> bind (lift m) k = k a.
Proof. by intros ->. Qed.

(** ** Device pages *)

(** What the control plane's paginator sends for page [k] of [last]. *)
Definition device_page (rows : list jsval) (k last : Z) (payload : jsval) : Prop :=
  is_nullish payload = false
  /\ prop payload "devices" = JArr rows
  /\ prop (prop payload "meta") "current_page" = JNum (Num.of_Z k)
  /\ prop (prop payload "meta") "last_page" = JNum (Num.of_Z last).

(** The devices of some rows, when none of them throws. *)
Definition devices_in (rows : list jsval) : res (list NormalizedDevice) :=
  let! found := res_mapM read_device rows in Ok (omap id found).

Lemma read_device_page_ok rows ds k last payload :
  device_page rows k last payload -> devices_in rows = Ok ds -> safe k -> safe last ->
  safe (k + 1) ->
  read_device_page payload (Num.of_Z k) = Ok (rows, ds, Num.of_Z (k + 1), Num.of_Z last).
Proof.
  intros (Hn & Hd & Hc & Hl) Hds Hk Hlast Hk1. unfold read_device_page, member, page_number.
  rewrite Hn, Hc, Hl. cbn [res_bind]. rewrite Hd. cbn [vnullish is_nullish for_of res_bind].
  unfold devices_in in Hds. destruct (res_mapM read_device rows) as [found|]; [|done].
  cbn [res_bind] in *. injection Hds as <-. cbn [to_number res_bind].
  destruct (of_Z_positive last Hlast) as [-> ->]. by rewrite of_Z_add.
Qed.

Section Paging.
Context {S : Type} {up : Upstream S}.

(** The server, as long as [serves] holds, has the pages [pages] and answers
    the request for each of them. *)
Context (serves : S -> Prop) (pages : list (list jsval)).
Hypothesis answers : forall s k rows, serves s -> pages !! k = Some rows ->
  exists s' payload, serves_json s (device_page_url (Num.of_Z (Z.of_nat k + 1))) payload s' /\ serves s'
    /\ device_page rows (Z.of_nat k + 1) (Z.of_nat (length pages)) payload.

Definition page_request (k : nat) : FetchRequest :=
  get_request (device_page_url (Num.of_Z (Z.of_nat k + 1))).

Lemma device_pages_from dss :
  Forall2 (fun rows ds => devices_in rows = Ok ds) pages dss ->
  (forall k, (k + 1 < length pages)%nat -> pages !! k <> Some []) ->
  Z.of_nat (length pages) + 1 < 2 ^ 53 ->
  forall n k fuel s devices last, (k + n = length pages)%nat -> (n <= fuel)%nat -> serves s ->
  Num.le (Num.of_Z (Z.of_nat k + 1)) last = (0 <? n)%nat ->
  exists s', serves s' /\
    run s (device_pages fuel devices (Num.of_Z (Z.of_nat k + 1)) last)
    = (map page_request (seq k n), s', Ok (Some (devices ++ concat (drop k dss)))).
Proof.
  intros Hds Hne Hlen n. pose proof (Forall2_length Hds) as Hl.
  induction n as [|n IH]; intros k fuel s devices last Hk Hf Hs Hle.
  - exists s. split; [done|]. rewrite drop_ge, app_nil_r by lia.
    by destruct fuel; cbn [device_pages]; rewrite Hle.
  - destruct fuel as [|fuel]; [lia|]. cbn [device_pages]. rewrite Hle.
    destruct (lookup_lt_is_Some_2 pages k) as [rows Hr]; [lia|].
    destruct (Forall2_lookup_l _ _ _ _ _ Hds Hr) as (ds & Hd & Hrd).
    destruct (answers s k rows Hs Hr) as (s1 & payload & Hj & Hs1 & Hpage).
    cbn [negb Nat.ltb Nat.leb]. rewrite (run_get_json _ _ payload s s1) by done.
    rewrite (bind_lift_ok _ _ _ (read_device_page_ok rows ds _ _ payload Hpage Hrd
               ltac:(split; lia) ltac:(split; lia) ltac:(split; lia))).
    rewrite (drop_S dss ds k Hd). cbn [concat seq map].
    destruct (IH (1 + k)%nat fuel s1 (devices ++ ds) (Num.of_Z (Z.of_nat (length pages))))
      as (s2 & Hs2 & Hrun); [lia..|done| |].
    { rewrite of_Z_le by (split; lia). destruct (Nat.ltb_spec 0 n); [apply Z.leb_le|apply Z.leb_gt]; lia. }
    destruct rows as [|row rows].
    + assert (n = 0)%nat as -> by (destruct n; [done|exfalso; apply (Hne k); [lia|done]]).
      cbn. exists s1. split; [done|]. by rewrite drop_ge, app_nil_r by lia.
    + exists s2. split; [done|].
      replace (Z.of_nat k + 1 + 1) with (Z.of_nat (1 + k) + 1) by lia. rewrite Hrun.
      by rewrite <- app_assoc.
Qed.

(** The fleet is read completely: against a server that pages as the
    control plane does, reading the devices ends, requests every page once
    and in order, and returns the devices of all pages in their order. *)
Theorem fetchDevices_complete (dss : list (list NormalizedDevice)) (fuel : nat) (s : S) :
  Forall2 (fun rows ds => devices_in rows = Ok ds) pages dss ->
  (forall k, (k + 1 < length pages)%nat -> pages !! k <> Some []) ->
  (0 < length pages <= fuel)%nat -> Z.of_nat (length pages) + 1 < 2 ^ 53 -> serves s ->
  trace s (fetchDevices fuel) = map page_request (seq 0 (length pages))
  /\ outcome s (fetchDevices fuel) = Ok (Some (concat dss)).
Proof.
  intros Hds Hne Hf Hlen Hs.
  destruct (device_pages_from dss Hds Hne Hlen (length pages) 0 fuel s [] (Num.of_Z 1)) as (s' & _ & Hrun);
    [lia..|done| |].
  { destruct (Nat.ltb_spec 0 (length pages)); [done|lia]. }
  unfold trace, outcome, fetchDevices. change (Num.of_Z 1) with (Num.of_Z (Z.of_nat 0 + 1)) at 1 3.
  by rewrite Hrun.
Qed.

End Paging.

(** ** Command pages *)

Section Cursor.
Context {S : Type} {up : Upstream S} (date_parse : string -> option Z).

(** The commands of some rows with the time of each one's event. *)
Definition commands_in (rows : list jsval) : res (list (Z * NormalizedCommand)) :=
  let! found := res_mapM (read_command date_parse) rows in Ok (omap id found).

(** The feed: page [k] is asked for with [cursor k] and tells [cursor (k + 1)];
    only the last page may be empty, and the feed ends there. *)
Context (serves : S -> Prop) (pages : list (list jsval)) (cursor : nat -> jsval).
Hypothesis answers : forall s k rows, serves s -> pages !! k = Some rows ->
  exists s' url payload, command_page_url (cursor k) = Ok url /\ serves_json s url payload s' /\ serves s'
    /\ is_nullish payload = false /\ prop payload "commands" = JArr rows
    /\ vnullish (prop payload "next_before") JNull = cursor (k + 1)%nat.
Hypothesis more : forall k rows, pages !! k = Some rows -> (k + 1 < length pages)%nat ->
  rows <> [] /\ truthy (cursor (k + 1)%nat) = true.
Hypothesis ends : forall k rows, pages !! k = Some rows -> (k + 1 = length pages)%nat ->
  rows = [] \/ truthy (cursor (k + 1)%nat) = false.

(** A page holds a command from before the window. *)
Definition reaches_back (windowStartMs : Z) (found : list (Z * NormalizedCommand)) : Prop :=
  exists e c, (e, c) ∈ found /\ 0 < e < windowStartMs.

Lemma older_spec es : forall oldest W, fold_left older es oldest < W ->
  oldest < W \/ exists e, e ∈ es /\ 0 < e < W.
Proof.
  induction es as [|e es IH]; intros oldest W H; [by left|]. cbn in H.
  destruct (IH _ _ H) as [H1|(e' & He & Hlt)]; [|right; exists e'; split; [by right|done]].
  unfold older in H1. destruct ((0 <? e) && (e <? oldest)) eqn:E; [|by left].
  right. exists e. split; [left|]. apply andb_true_iff in E as [E _]. apply Z.ltb_lt in E. done.
Qed.

Lemma read_command_page_ok rows found :
  commands_in rows = Ok found ->
  read_command_page date_parse (JArr rows)
  = Ok (fold_left older (map fst found) MAX_SAFE_INTEGER, map snd found).
Proof.
  unfold commands_in, read_command_page. cbn [for_of res_bind].
  destruct (res_mapM _ rows) as [l|]; [|done]. by intros [= <-].
Qed.

Lemma command_pages_bounded b : forall W acc before, at_most b (command_pages date_parse b W acc before).
Proof.
  induction b as [|b IH]; intros W acc before; [done|]. cbn [command_pages].
  destruct (command_page_url before) as [url|e]; cbn [lift bind]; [|done].
  apply (at_most_bind 1); [auto with js|]. intros payload.
  destruct (member payload "commands") as [field|e]; cbn [lift bind]; [|done].
  destruct (length_zero _); [done|].
  destruct (read_command_page _ _) as [[oldest found]|e]; cbn [lift bind]; [|done].
  by repeat case_match.
Qed.

(** One page read and what is done about it. *)
Lemma command_page_step W b acc s k rows found :
  serves s -> pages !! k = Some rows -> commands_in rows = Ok found ->
  exists s', serves s' /\
    outcome s (command_pages date_parse (Datatypes.S b) W acc (cursor k))
    = outcome s' (if length_zero (JArr rows) then Ret acc
        else if negb (truthy (cursor (k + 1)%nat)) then Ret (acc ++ map snd found)
        else if fold_left older (map fst found) MAX_SAFE_INTEGER <? W then Ret (acc ++ map snd found)
        else command_pages date_parse b W (acc ++ map snd found) (cursor (k + 1)%nat)).
Proof.
  intros Hs Hr Hf. destruct (answers s k rows Hs Hr) as (s1 & url & payload & Hu & Hj & Hs1 & Hn & Hp & Hc).
  exists s1. split; [done|]. unfold outcome. cbn [command_pages]. rewrite (bind_lift_ok _ _ _ Hu).
  rewrite (run_get_json _ _ payload s s1) by done. unfold member. rewrite Hn, Hp. cbn [lift bind].
  rewrite Hc. change (vnullish (JArr rows) (JArr [])) with (JArr rows).
  rewrite (read_command_page_ok rows found) by done. destruct (length_zero _); cbn [lift bind]; [done|].
  repeat case_match; by destruct (run _ _) as [[]] || idtac.
Qed.

Lemma command_pages_from founds W :
  Forall2 (fun rows found => commands_in rows = Ok found) pages founds ->
  W <= MAX_SAFE_INTEGER ->
  forall b k s acc, (k < length pages)%nat -> serves s ->
  exists m, (m <= b)%nat /\ (k + m <= length pages)%nat
    /\ outcome s (command_pages date_parse b W acc (cursor k))
       = Ok (acc ++ concat (map (map snd) (take m (drop k founds))))
    /\ (m = b \/ (k + m = length pages)%nat
        \/ exists i found, (i < k + m)%nat /\ founds !! i = Some found /\ reaches_back W found).
Proof.
  intros Hf HW b. pose proof (Forall2_length Hf) as Hl.
  induction b as [|b IH]; intros k s acc Hk Hs.
  { exists 0%nat. rewrite app_nil_r. split_and!; [done|lia|done|by left]. }
  destruct (lookup_lt_is_Some_2 pages k) as [rows Hr]; [done|].
  destruct (Forall2_lookup_l _ _ _ _ _ Hf Hr) as (found & Hd & Hrd).
  destruct (command_page_step W b acc s k rows found Hs Hr Hrd) as (s1 & Hs1 & ->).
  rewrite (drop_S founds found k Hd).
  destruct (decide (k + 1 < length pages)%nat) as [Hmore|Hend].
  - destruct (more k rows Hr Hmore) as [Hne ->].
    assert (length_zero (JArr rows) = false) as -> by (by destruct rows). cbn [negb].
    destruct (_ <? W) eqn:Ho.
    + exists 1%nat. cbn. rewrite take_0, app_nil_r. split_and!; [lia|lia|done|]. right. right.
      exists k, found. split_and!; [lia|done|]. apply Z.ltb_lt, older_spec in Ho as [Ho|(e & He & Hlt)]; [lia|].
      apply list_elem_of_In, in_map_iff in He as ([e' c] & <- & Hin). exists e', c.
      by apply list_elem_of_In in Hin.
    + destruct (IH (k + 1)%nat s1 (acc ++ map snd found)) as (m & Hm & Hkm & -> & Hstop); [done..|].
      exists (Datatypes.S m). cbn [take map concat]. rewrite <- app_assoc. replace (Datatypes.S k) with (k + 1)%nat by lia.
      split_and!; [lia|lia|done|]. destruct Hstop as [->|[H|(i & f & Hi & H)]]; [by left|right; left; lia|].
      right. right. exists i, f. split; [lia|done].
  - exists 1%nat. cbn [take map concat]. rewrite take_0, app_nil_r. assert (k + 1 = length pages)%nat as He by lia.
    split_and!; [lia|lia| |right; left; lia]. destruct (ends k rows Hr He) as [->| ->].
    + injection Hrd as <-. cbn. by rewrite app_nil_r.
    + destruct rows; [|done]. injection Hrd as <-. cbn. by rewrite app_nil_r.
Qed.

(** [queued_at] in milliseconds, 0 when it cannot be read. *)
Definition queued_ms (c : NormalizedCommand) : Z :=
  match parseIsoMs date_parse (c_queuedAtIso c) with Ok (Some ms) => ms | _ => 0 end.

(** The command window is complete: the commands are read with at most
    ten requests.  Against a feed that is ordered by queueing time, newest
    first, and in which nothing completes before it is queued, the result is
    the feed's first pages, and unless ten pages were read every command
    left out was queued before the window. *)
Theorem fetchCommands_window (founds : list (list (Z * NormalizedCommand))) (windowStartMs : Z) (s : S) :
  Forall2 (fun rows found => commands_in rows = Ok found) pages founds ->
  pages <> [] -> cursor 0 = JNull -> windowStartMs <= MAX_SAFE_INTEGER -> serves s ->
  (forall i j f g e c e' c', (i < j)%nat -> founds !! i = Some f -> founds !! j = Some g ->
     (e, c) ∈ f -> (e', c') ∈ g -> queued_ms c' <= queued_ms c) ->
  (forall f e c, f ∈ founds -> (e, c) ∈ f -> 0 < e -> queued_ms c <= e) ->
  (length (trace s (fetchCommands date_parse windowStartMs)) <= COMMAND_FETCH_MAX_PAGES)%nat
  /\ exists m, (m <= COMMAND_FETCH_MAX_PAGES)%nat
     /\ outcome s (fetchCommands date_parse windowStartMs) = Ok (concat (map (map snd) (take m founds)))
     /\ (m = COMMAND_FETCH_MAX_PAGES
         \/ forall j g e c, (m <= j)%nat -> founds !! j = Some g -> (e, c) ∈ g ->
              queued_ms c < windowStartMs).
Proof.
  intros Hf Hp H0 HW Hs Hord Hdone. split; [apply at_most_trace, command_pages_bounded|].
  pose proof (Forall2_length Hf) as Hl.
  destruct (command_pages_from founds windowStartMs Hf HW COMMAND_FETCH_MAX_PAGES 0 s [])
    as (m & Hm & _ & Hout & Hstop); [|done|].
  { destruct (length pages) eqn:E; [by apply nil_length_inv in E|lia]. }
  unfold fetchCommands. rewrite <- H0, Hout. exists m. split_and!; [done|by rewrite drop_0|].
  destruct Hstop as [->|[Hend|(i & f & Hi & Hfi & e & c & Hec & He)]]; [by left|right..]; intros j g e' c' Hj Hg Hin.
  - apply lookup_lt_Some in Hg. lia.
  - assert (queued_ms c' <= queued_ms c) by (eapply (Hord i j); [lia|done..]).
    assert (queued_ms c <= e) by (apply (Hdone f e c); [by eapply list_elem_of_lookup_2|done|lia]). lia.
Qed.
End Cursor.

(** ** Numbers of the snapshot *)

Lemma count_cons {A} (p : A -> bool) a l : count p (a :: l) = ((if p a then 1 else 0) + count p l)%nat.
Proof. unfold count. cbn. by destruct (p a). Qed.

#[local] Instance device_status_dec : EqDecision DeviceStatus.
Proof. solve_decision. Defined.
#[local] Instance compliance_status_dec : EqDecision ComplianceStatus.
Proof. solve_decision. Defined.

(** The reference: how many elements have a property. *)
Definition how_many {A} (P : A -> Prop) `{!forall a, Decision (P a)} (l : list A) : nat := length (base.filter P l).

Lemma count_how_many {A} (p : A -> bool) (P : A -> Prop) `{!forall a, Decision (P a)} l :
  (forall a, p a = true <-> P a) -> count p l = how_many P l.
Proof.
  intros Hp. unfold how_many. induction l as [|a l IH]; [done|]. rewrite count_cons, filter_cons, IH.
  specialize (Hp a). case_decide; destruct (p a); cbn [length]; naive_solver.
Qed.

Lemma has_status_spec st d : has_status st d = true <-> d_status d = st.
Proof. unfold has_status. rewrite String.eqb_eq. split; [by destruct (d_status d), st|by intros ->]. Qed.

Lemma in_states_spec l st : in_states l st = true <-> st ∈ l.
Proof.
  unfold in_states. rewrite existsb_exists, list_elem_of_In. split; [|intros H; exists st; by rewrite String.eqb_refl].
  by intros (x & Hx & ->%String.eqb_eq).
Qed.

Lemma drifted_spec d : drifted d = true <-> d_compliance d = drift \/ d_compliance d = non_compliant.
Proof. unfold drifted. destruct (d_compliance d); naive_solver. Qed.

Lemma fleet_partition devices :
  (count (has_status online) devices + count (has_status offline) devices
   + count (has_status degraded) devices + count (has_status quarantined) devices)%nat = length devices.
Proof.
  induction devices as [|d devices IH]; [done|]. rewrite !count_cons. cbn [length].
  rewrite <- IH. unfold has_status. destruct (d_status d); cbn; lia.
Qed.

(** *** Buckets *)

Lemma replace_own {V} (f : V -> V) (m : list (string * V)) k b :
  NoDup (map fst m) -> own_get m k = Some b ->
  replace m k (f b) = map (fun kv => (kv.1, if k === kv.1 then f kv.2 else kv.2)) m.
Proof.
  induction m as [|[k' v] m IH]; [done|]. cbn. intros [Hk' Hm]%list.NoDup_cons.
  destruct (k === k') eqn:E.
  - apply String.eqb_eq in E as ->. intros [= <-]. f_equal.
    rewrite <- (map_id m) at 1. apply map_ext_in. intros [k v'] Hin. cbn.
    destruct (k' === k) eqn:E; [|done]. apply String.eqb_eq in E as <-. destruct Hk'.
    apply list_elem_of_In. by apply (in_map fst) in Hin.
  - intros Hb. by rewrite IH.
Qed.

Lemma own_get_none {V} (m : list (string * V)) k kv : own_get m k = None -> In kv m -> (k === kv.1) = false.
Proof.
  induction m as [|[k' v] m IH]; [done|]. cbn. destruct (k === k') eqn:E; [done|].
  intros Hm [<-|Hin]; [done|by apply IH].
Qed.

Section Volume.
Context (date_parse : string -> option Z) (local : Z -> LocalTime).
Context (local_day : Z -> Z -> Z -> Z) (day_label : LocalTime -> string).

(** A command that falls on the day with this key. *)
Definition falls_on (key : string) (c : NormalizedCommand) : bool :=
  match command_day date_parse local c with Ok (Some k) => k === key | _ => false end.

(** The reference: for a day, how many of its commands completed, failed or
    were rejected, and expired. *)
Definition day_volume (commands : list NormalizedCommand) (day : LocalTime) : CommandVolumeDatum :=
  let mine := List.filter (falls_on (formatLocalDateKey day)) commands in
  {| v_day := day_label day;
     v_completed := count (fun c => c_state c === "completed") mine;
     v_failed := count (fun c => in_states ["failed"; "rejected"] (c_state c)) mine;
     v_expired := count (fun c => c_state c === "expired") mine |}.

Definition count_on (key : string) (v : CommandVolumeDatum) (c : NormalizedCommand) : CommandVolumeDatum :=
  if falls_on key c then count_command (c_state c) v else v.

Lemma add_command_spec m c m' :
  NoDup (map fst m) -> add_command date_parse local m c = Ok m' ->
  m' = map (fun kv => (kv.1, count_on kv.1 kv.2 c)) m.
Proof.
  intros Hm. unfold add_command, count_on, falls_on.
  destruct (command_day _ _ _) as [[key|]|]; [| |done]; cbn [res_bind]; intros [= <-].
  - destruct (own_get m key) as [b|] eqn:E; [by apply replace_own|].
    rewrite <- (map_id m) at 1. apply map_ext_in. intros [k v] Hin.
    by rewrite (own_get_none m key (k, v)).
  - rewrite <- (map_id m) at 1. by apply map_ext_in; intros [].
Qed.

Lemma add_commands_spec commands : forall m m',
  NoDup (map fst m) -> add_commands date_parse local m commands = Ok m' ->
  m' = map (fun kv => (kv.1, fold_left (count_on kv.1) commands kv.2)) m.
Proof.
  induction commands as [|c commands IH]; intros m m' Hm; cbn.
  - intros [= <-]. rewrite <- (map_id m) at 1. by apply map_ext_in; intros [].
  - destruct (add_command _ _ m c) as [m1|] eqn:E; [|done]. apply add_command_spec in E as ->; [|done].
    intros H. apply IH in H as ->; rewrite map_map; done.
Qed.

Lemma dayBuckets_distinct days : forall acc,
  NoDup (map fst acc ++ map formatLocalDateKey days) ->
  fold_left (fun m day => map_set m (formatLocalDateKey day) (empty_datum day_label day)) days acc
  = acc ++ map (fun day => (formatLocalDateKey day, empty_datum day_label day)) days.
Proof.
  induction days as [|day days IH]; intros acc Hnd; cbn; [by rewrite app_nil_r|].
  assert (own_get acc (formatLocalDateKey day) = None) as Hget.
  { destruct (own_get acc _) eqn:E; [|done]. apply own_get_elem, (in_map fst) in E.
    apply list.NoDup_app in Hnd as (_ & Hnd & _). destruct (Hnd (formatLocalDateKey day));
      [by apply list_elem_of_In|left]. }
  unfold map_set at 2, has_own. rewrite Hget, IH, <- app_assoc; [done|].
  rewrite map_app. cbn. by rewrite <- app_assoc.
Qed.

Lemma fold_count key commands : forall v,
  fold_left (count_on key) commands v =
  let mine := List.filter (falls_on key) commands in
  {| v_day := v_day v;
     v_completed := v_completed v + count (fun c => c_state c === "completed") mine;
     v_failed := v_failed v + count (fun c => in_states ["failed"; "rejected"] (c_state c)) mine;
     v_expired := v_expired v + count (fun c => c_state c === "expired") mine |}%nat.
Proof.
  induction commands as [|c commands IH]; intros v; cbn zeta.
  - cbn. rewrite !Nat.add_0_r. by destruct v.
  - cbn [fold_left List.filter]. rewrite IH. unfold count_on at 1 2 3 4. cbn zeta.
    destruct (falls_on key c); [|done]. rewrite !count_cons. unfold count_command, in_states. cbn [existsb].
    destruct (c_state c === "completed") eqn:E1; [apply String.eqb_eq in E1 as ->; cbn; f_equal; lia|].
    destruct (c_state c === "expired") eqn:E2; [apply String.eqb_eq in E2 as ->; cbn; f_equal; lia|].
    destruct (_ === "failed"), (_ === "rejected"); cbn; f_equal; lia.
Qed.

Lemma command_volume_spec now commands volume :
  NoDup (map formatLocalDateKey (window_days local local_day (local now))) ->
  command_volume date_parse local local_day day_label now commands = Ok volume ->
  volume = map (day_volume commands) (window_days local local_day (local now)).
Proof.
  intros Hnd. unfold command_volume, dayBuckets. rewrite (dayBuckets_distinct _ []) by done.
  destruct (add_commands _ _ _ commands) as [m|] eqn:E; cbn [res_bind]; [|done]. intros [= <-].
  apply add_commands_spec in E as ->; cbn [app]; [|by rewrite map_map].
  rewrite !map_map. apply map_ext. intros day. cbn [snd fst]. apply fold_count.
Qed.

(** What each figure names, counted in the answers. *)
Definition figures_right (devices : list NormalizedDevice) (alerts : list NormalizedAlert)
    (commands : list NormalizedCommand) (k : DashboardKpiData) : Prop :=
  let ups := how_many (fun d => d_status d = online) devices in
  totalDevices k = length devices
  /\ onlineDevices k = ups
  /\ offlineDevices k = how_many (fun d => d_status d = offline) devices
  /\ quarantinedDevices k = how_many (fun d => d_status d = quarantined) devices
  /\ complianceDrift k = how_many (fun d => d_compliance d = drift \/ d_compliance d = non_compliant) devices
  /\ activeCommands k = how_many (fun c => c_state c ∈ ["queued"; "dispatched"; "ack_received"; "executing"]) commands
  /\ failingCommandsCount k = how_many (fun c => c_state c ∈ ["failed"; "expired"; "rejected"]) commands
  /\ criticalAlerts k = how_many (fun a => al_severity a = "critical") alerts
  /\ (devices = [] -> fleetOnlineRate k = Num.zero /\ avgRiskScore k = Num.zero)
  /\ (devices <> [] ->
       let quotient := Num.div (Num.of_nat ups) (Num.of_nat (length devices)) in
       let risks := fold_left Num.add (map d_risk devices) Num.zero in
       fleetOnlineRate k = number_of_string (Num.to_fixed 1 (Num.mul quotient (Num.of_Z 100)))
       /\ avgRiskScore k = number_of_string (Num.to_fixed 4 (Num.div risks (Num.of_nat (length devices))))).

Lemma kpi_right devices alerts commands : figures_right devices alerts commands (kpi_of devices alerts commands).
Proof.
  unfold figures_right, kpi_of.
  cbn [totalDevices onlineDevices offlineDevices quarantinedDevices complianceDrift activeCommands failingCommandsCount
    criticalAlerts fleetOnlineRate avgRiskScore].
  rewrite (count_how_many (has_status online) (fun d => d_status d = online)) by apply has_status_spec.
  split_and!; try done; try (apply count_how_many; intros; apply has_status_spec || apply in_states_spec || apply drifted_spec).
  - apply count_how_many. intros a. apply String.eqb_eq.
  - by intros ->.
  - intros Hne. unfold online_rate, average_risk.
    replace (0 <? length devices)%nat with true by (symmetry; apply Nat.ltb_lt; destruct devices; [done|cbn; lia]).
    split; [done|]. unfold fixed. do 3 f_equal. generalize Num.zero.
    induction devices as [|d l IH]; intros z; [done|]. cbn [fold_left map].
    destruct l; [done|]. by apply IH.
Qed.

(** [C18] The numbers of the dashboard are right.  The four states of the
    ring are the numbers of online, offline, degraded and quarantined
    devices, and add up to the fleet.  Each figure is the number of what it
    names: devices, those online, offline, quarantined and drifted from their
    policy or not compliant with it, commands queued, dispatched,
    acknowledged or executing, commands failed, expired or rejected, and
    critical alerts; the online rate is the share of the devices online in
    percent to one decimal, and the average risk that of the devices to four
    decimals, both zero without a device.  Each bar of the week counts the
    commands whose event falls on that day by how they ended, if the seven
    days of the calendar have different dates. *)
Theorem snapshot_counts now devices alerts commands snap :
  buildSnapshot date_parse local local_day day_label now devices alerts commands = Ok snap ->
  figures_right devices alerts commands (kpi snap)
  /\ map (fun f => (fs_name f, fs_value f)) (fleetStatus snap)
     = [("Online", how_many (fun d => d_status d = online) devices);
        ("Offline", how_many (fun d => d_status d = offline) devices);
        ("Degraded", how_many (fun d => d_status d = degraded) devices);
        ("Quarantined", how_many (fun d => d_status d = quarantined) devices)]
  /\ list_sum (map fs_value (fleetStatus snap)) = length devices
  /\ (NoDup (map formatLocalDateKey (window_days local local_day (local now))) ->
      commandVolume snap = map (day_volume commands) (window_days local local_day (local now))).
Proof.
  unfold buildSnapshot. intros H.
  destruct (command_volume _ _ _ _ _ _) as [volume|] eqn:Ev; cbn [res_bind] in H; [|done].
  repeat match type of H with res_bind ?m _ = _ => destruct m; cbn [res_bind] in H; [|done] end.
  injection H as <-. cbn [kpi fleetStatus fleet_status map fs_name fs_value commandVolume].
  rewrite <- !(count_how_many (has_status _) (fun d => d_status d = _)) by apply has_status_spec.
  split_and!; [apply kpi_right|done| |].
  - rewrite <- (fleet_partition devices). cbn [list_sum foldr]. lia.
  - intros Hnd. by apply command_volume_spec in Ev.
Qed.
End Volume.

(** ** Lists of the snapshot *)

(** [shown] are the [n] elements of [l] with the latest key, latest first. *)
Definition top {A} (n : nat) (key : A -> Z) (l shown : list A) : Prop :=
  exists rest, l ≡ₚ shown ++ rest
    /\ length shown = Nat.min n (length l)
    /\ StronglySorted (fun a b => key b <= key a) shown
    /\ forall a b, a ∈ shown -> b ∈ rest -> key b <= key a.

Lemma in_order_sorted {A} (key : A -> Z) l :
  in_order (latest key) l -> StronglySorted (fun a b => key b <= key a) l.
Proof.
  unfold in_order. induction 1 as [|a l Hl IH Ha]; constructor; [done|].
  eapply List.Forall_impl; [|exact Ha]. intros b Hb. unfold latest in Hb. apply Z.ltb_ge in Hb. lia.
Qed.

Lemma in_order_app_l {A} (before : A -> A -> bool) l1 l2 :
  in_order before (l1 ++ l2) -> in_order before l1.
Proof.
  unfold in_order. induction l1 as [|a l1 IH]; cbn; intros H; [constructor|].
  apply StronglySorted_inv in H as [H1 H2]. apply List.Forall_app in H2 as [H2 _]. by constructor; auto.
Qed.

Lemma top_sorted {A} n (key : A -> Z) l : top n key l (take n (stable_sort (latest key) l)).
Proof.
  destruct (stable_sort_latest key l) as [Hp Ho]. exists (drop n (stable_sort (latest key) l)).
  rewrite <- (take_drop n (stable_sort _ _)) in Ho. split_and!.
  - by rewrite take_drop, Hp.
  - by rewrite length_take, Hp.
  - by eapply in_order_sorted, in_order_app_l.
  - intros a b. by apply in_order_latest.
Qed.

(** The value of a key that was read. *)
Definition key_of {A} (key : A -> res Z) (a : A) : Z := match key a with Ok z => z | Exn _ => 0 end.

Lemma sort_latest_inv {A} (key : A -> res Z) l sorted :
  sort_latest key l = Ok sorted -> sorted = stable_sort (latest (key_of key)) l.
Proof.
  destruct l as [|a [|b l]]; [by intros [= <-]..|].
  intros H. rewrite (sort_latest_ok key (key_of key)) in H; [congruence|].
  unfold sort_latest in H. revert H. generalize (a :: b :: l) as l'. intros l' H x Hx.
  destruct (res_mapM _ l') as [keyed|] eqn:E; [|done]. clear H.
  revert keyed E. induction Hx as [x l'|x y l' Hx IH]; intros keyed E; cbn in E; unfold key_of.
  - by destruct (key x).
  - destruct (key y); [|done]. cbn in E. destruct (res_mapM _ l') as [ks|] eqn:E'; [|done].
    by apply (IH ks).
Qed.

Section Lists.
Context (date_parse : string -> option Z) (local : Z -> LocalTime).
Context (local_day : Z -> Z -> Z -> Z) (day_label : LocalTime -> string).

Definition event_ms (c : NormalizedCommand) : Z :=
  key_of (fun c => ms_or_zero date_parse (commandEventTime c)) c.
Definition seen_ms (d : NormalizedDevice) : Z :=
  key_of (fun d => ms_or_zero date_parse (d_lastSeenIso d)) d.

(** The dashboard's lists show the latest of what they name: the six
    latest failed commands, the six devices in quarantine or degraded seen
    last, the twelve latest dated activities, once as activity and once as
    feed events, and the 120 latest entries of the trail, each list latest
    first and nothing left out that is later than something shown. *)
Theorem snapshot_lists now devices alerts commands snap :
  buildSnapshot date_parse local local_day day_label now devices alerts commands = Ok snap ->
  (exists shown, top 6 event_ms (List.filter (fun c => in_states failedStates (c_state c)) commands) shown
     /\ res_mapM (failing_item date_parse local devices) shown = Ok (failingCommands snap))
  /\ (exists shown, top 6 seen_ms (List.filter needs_attention devices) shown
     /\ res_mapM (attention_item date_parse local) shown = Ok (attentionDevices snap))
  /\ (exists items shown, all_activity date_parse local devices alerts commands = Ok items
     /\ top 12 a_sortAt (List.filter (fun i => 0 <? a_sortAt i) items) shown
     /\ activityItems snap = map activity_item shown /\ liveFeedEvents snap = map feed_event shown)
  /\ (exists cs als, res_mapM (commandAudit date_parse local) commands = Ok cs
     /\ res_mapM (alertAudit date_parse local) alerts = Ok als
     /\ top 120 (audit_time date_parse) (cs ++ als) (auditEntries snap)).
Proof.
  unfold buildSnapshot. intros H. destruct (command_volume _ _ _ _ _ _); cbn [res_bind] in H; [|done].
  destruct (failing_commands _ _ _ _) as [failing|] eqn:Ef; cbn [res_bind] in H; [|done].
  destruct (attention_devices _ _ _) as [attention|] eqn:Ea; cbn [res_bind] in H; [|done].
  destruct (all_activity _ _ _ _ _) as [items|] eqn:Ei; cbn [res_bind] in H; [|done].
  destruct (audit_entries _ _ _ _) as [audit|] eqn:Eu; cbn [res_bind] in H; [|done].
  injection H as <-. cbn [failingCommands attentionDevices activityItems liveFeedEvents auditEntries].
  split_and!.
  - unfold failing_commands in Ef. destruct (sort_latest _ _) as [sorted|] eqn:E; [|done].
    apply sort_latest_inv in E as ->. eexists. split; [apply top_sorted|exact Ef].
  - unfold attention_devices in Ea. destruct (sort_latest _ _) as [sorted|] eqn:E; [|done].
    apply sort_latest_inv in E as ->. eexists. split; [apply top_sorted|exact Ea].
  - exists items, (recent items). split_and!; try done. apply top_sorted.
  - unfold audit_entries in Eu. destruct (res_mapM _ commands) as [cs|]; [|done].
    cbn [res_bind] in Eu. destruct (res_mapM _ alerts) as [als|]; [|done].
    injection Eu as <-. exists cs, als. split_and!; [done..|apply top_sorted].
Qed.

(** *** The snapshot exists *)

(** Rows whose times can be turned into texts, as every JSON value can that
    does not have its own [toString]. *)
Definition plain_rows (devices : list NormalizedDevice) (alerts : list NormalizedAlert)
    (commands : list NormalizedCommand) : Prop :=
  Forall (fun d => plain (d_lastSeenIso d) = true) devices
  /\ Forall (fun a => plain (al_timestampIso a) = true) alerts
  /\ Forall (fun c => plain (commandEventTime c) = true) commands.

Lemma returns_ms v : plain v = true -> returns (ms_or_zero date_parse v).
Proof. intros. by apply returns_bind; [apply parse_iso_plain|eexists]. Qed.
Lemma returns_time v : plain v = true -> returns (formatLocalEventTime date_parse local v).
Proof. intros. by apply returns_bind; [apply iso_time_plain|eexists]. Qed.
Lemma returns_stamp v : plain v = true -> returns (formatAuditTimestamp date_parse local v).
Proof. intros. by apply returns_bind; [apply iso_time_plain|eexists]. Qed.

Lemma returns_sort {A} (key : A -> res Z) l :
  Forall (fun a => returns (key a)) l -> exists sorted, sort_latest key l = Ok sorted /\ sorted ≡ₚ l.
Proof.
  intros H. exists (stable_sort (latest (key_of key)) l). split; [|apply stable_sort_perm].
  apply sort_latest_ok. intros a Ha. rewrite List.Forall_forall in H.
  destruct (H a) as [z Hz]; [by apply list_elem_of_In|].
  unfold key_of. by rewrite Hz.
Qed.

Lemma returns_top {A B} (key : A -> res Z) (f : A -> res B) n l :
  Forall (fun a => returns (key a)) l -> Forall (fun a => returns (f a)) l ->
  returns (let! sorted := sort_latest key l in res_mapM f (take n sorted)).
Proof.
  intros Hk Hf. destruct (returns_sort key l Hk) as (sorted & -> & Hp). cbn [res_bind].
  apply returns_mapM. apply Forall_take. by rewrite Hp.
Qed.

Lemma returns_volume now commands :
  Forall (fun c => plain (commandEventTime c) = true) commands ->
  returns (command_volume date_parse local local_day day_label now commands).
Proof.
  intros H. apply returns_bind; [|by eexists]. generalize (dayBuckets day_label (window_days local local_day (local now))).
  induction H as [|c commands Hc H IH]; intros m; [by eexists|]. cbn.
  apply returns_bind; [|done]. apply returns_bind; [|by eexists].
  apply returns_bind; [by apply parse_iso_plain|by eexists].
Qed.

Lemma returns_activity kind id title detail ts :
  plain ts = true -> returns (activity date_parse local kind id title detail ts).
Proof.
  intros H. apply returns_bind; [by apply returns_ms|]. intros ?.
  apply returns_bind; [by apply returns_time|by eexists].
Qed.

Lemma Forall_list_filter {A} (P : A -> Prop) p l : Forall P l -> Forall P (List.filter p l).
Proof. induction 1; cbn; [constructor|]. case_match; [by constructor|done]. Qed.

Ltac each H := eapply List.Forall_impl; [|exact H]; intros ? ?; cbn beta.

(** The snapshot of plain rows exists. *)
Lemma buildSnapshot_returns now devices alerts commands :
  plain_rows devices alerts commands ->
  returns (buildSnapshot date_parse local local_day day_label now devices alerts commands).
Proof.
  intros (Hd & Ha & Hc). unfold buildSnapshot. apply returns_bind; [by apply returns_volume|]. intros ?.
  apply returns_bind; [apply returns_top; apply Forall_list_filter; each Hc|intros ?].
  { by apply returns_ms. }
  { by apply returns_bind; [apply returns_time|eexists]. }
  apply returns_bind; [apply returns_top; apply Forall_list_filter; each Hd|intros ?].
  { by apply returns_ms. }
  { by apply returns_bind; [apply returns_time|eexists]. }
  apply returns_bind; [|intros ?; apply returns_bind; [|by eexists]];
    repeat (apply returns_bind; [apply returns_mapM|intros ?]); try (by eexists).
  - each Hc. by apply returns_activity.
  - each Ha. by apply returns_activity.
  - apply Forall_list_filter. each Hd. by apply returns_activity.
  - each Hc. by apply returns_bind; [apply returns_stamp|eexists].
  - each Ha. by apply returns_bind; [apply returns_stamp|eexists].
Qed.

End Lists.

(** ** The hook shows the load that started last *)

Section HookLaws.
Context (date_parse : string -> option Z) (local : Z -> LocalTime).
Context (local_day : Z -> Z -> Z -> Z) (day_label : LocalTime -> string).

Abbreviation final := (finalSnapshot date_parse local local_day day_label).
Abbreviation reaches := (reaches date_parse local local_day day_label).

(** What the page promises: how many loads were started, whether the last
    of them is still awaited, and the answer on display with its time. *)
Record View := { loads : nat; busy : bool; shown : option (Z * LoadResults); open : bool }.

Definition view_init : View := {| loads := 0; busy := false; shown := None; open := true |}.

Definition view_step (v : View) (e : Event) : View :=
  match e with
  | Start _ => {| loads := S (loads v); busy := true; shown := shown v; open := open v |}
  | Settle i now r =>
      if Nat.eqb (S i) (loads v) && open v
      then {| loads := loads v; busy := false; shown := Some (now, r); open := open v |}
      else v
  | Unmount => {| loads := loads v; busy := busy v; shown := shown v; open := false |}
  end.

Definition view (es : list Event) : View := fold_left view_step es view_init.

Definition plain_results (r : LoadResults) : Prop :=
  plain_rows (devicesResult r ?? []) (alertsResult r ?? []) (commandsResult r ?? []).

Definition plain_event (e : Event) : Prop :=
  match e with Settle _ _ r => plain_results r | _ => True end.

(** The state displays the answer: its errors, its data and its time. *)
Definition displays (s : HookState) (answer : option (Z * LoadResults)) : Prop :=
  match answer with
  | None => errors s = no_errors /\ data s = EMPTY_SNAPSHOT /\ dataSignature s = ""
  | Some (now, r) =>
      errors s = errors_of r /\ lastRefreshLabel s = clock (local now)
      /\ dataSignature s = signature (data s)
      /\ exists snap, final now r = Ok snap /\ signature (data s) = signature snap
  end.

Record simulates (s : HookState) (v : View) : Prop := {
  sim_loads : started s = loads v;
  sim_open : mounted s = open v;
  sim_current : abortRef s = match loads v with O => None | S i => Some i end;
  sim_aborted : forall i, i ∈ aborted s -> (i < loads v)%nat;
  sim_running : forall i, i ∈ running s ->
    (i < loads v)%nat /\ (i ∈ aborted s <-> S i <> loads v \/ open v = false);
  sim_awaited : busy v = true -> open v = true -> pred (loads v) ∈ running s;
  sim_idle : busy v = false -> (0 < loads v)%nat -> loading s = false /\ refreshing s = false;
  sim_busy : busy v = true -> loading s || refreshing s = true;
  sim_shown : displays s (shown v);
}.

Lemma signature_nonempty s : signature s <> "".
Proof. done. Qed.

Lemma final_returns now r : plain_results r -> returns (final now r).
Proof. intros H. by apply returns_bind; [apply buildSnapshot_returns|eexists]. Qed.

Lemma show_displays now r snap s :
  final now r = Ok snap -> errors s = errors_of r ->
  dataSignature s = "" \/ dataSignature s = signature (data s) ->
  displays (show local now snap s) (Some (now, r)).
Proof.
  intros Hf He Hs. unfold displays, show. cbn [errors lastRefreshLabel data dataSignature].
  destruct (signature snap === dataSignature s) eqn:E; cbn [negb]; split_and!; try done.
  - apply String.eqb_eq in E. destruct Hs as [Hs|Hs]; [|done]. rewrite Hs in E.
    by destruct (signature_nonempty snap).
  - exists snap. split; [done|]. apply String.eqb_eq in E. destruct Hs as [Hs|Hs]; [|congruence].
    rewrite Hs in E. by destruct (signature_nonempty snap).
  - by exists snap.
Qed.

Lemma displays_signature s answer :
  displays s answer -> dataSignature s = "" \/ dataSignature s = signature (data s).
Proof. destruct answer as [[]|]; [intros (_ & _ & H & _); by right|intros (_ & _ & H); by left]. Qed.

Lemma elem_of_resume i j s : j ∈ running (resume i s) <-> j ∈ running s /\ i <> j.
Proof.
  unfold resume. cbn [running]. rewrite !list_elem_of_In, filter_In, negb_true_iff, Nat.eqb_neq. done.
Qed.

Lemma sim_start mode s v : simulates s v -> mounted s = true -> simulates (load_start mode s) (view_step v (Start mode)).
Proof.
  intros [Hl Ho Hc Ha Hr Hw Hi Hb Hs] Hm. assert (open v = true) as Hov by congruence.
  constructor; cbn [load_start view_step started loads mounted open abortRef aborted running busy loading
    refreshing pred]; rewrite ?Hl, ?Hc; try done.
  - intros i. destruct (loads v) as [|n] eqn:E; [intros Hin; specialize (Ha i Hin); lia|].
    intros [->|Hin]%elem_of_cons; [lia|]. specialize (Ha i Hin). lia.
  - intros i [->|Hin]%elem_of_cons.
    + split; [lia|]. split; [|by intros [|]; [|congruence]]. intros Hin. exfalso.
      destruct (loads v) as [|n] eqn:E; [specialize (Ha _ Hin); lia|].
      apply elem_of_cons in Hin as [Hin|Hin]; [lia|specialize (Ha _ Hin); lia].
    + destruct (Hr i Hin) as [Hlt Hab]. split; [lia|]. split; [lia|]. intros _.
      destruct (loads v) as [|n] eqn:E; [lia|]. destruct (decide (i = n)) as [->|Hne]; [left|right].
      apply Hab. left. lia.
  - intros _ _. left.
  - by destruct mode; cbn; rewrite ?orb_true_r.
Qed.

Lemma sim_unmount s v : simulates s v -> simulates (unmount s) (view_step v Unmount).
Proof.
  intros [Hl Ho Hc Ha Hr Hw Hi Hb Hs].
  constructor; cbn [unmount view_step started loads mounted open abortRef aborted running busy loading
    refreshing]; rewrite ?Hl, ?Hc; try done.
  - intros i. destruct (loads v) as [|n] eqn:E; [by apply Ha|].
    intros [->|Hin]%elem_of_cons; [lia|by apply Ha].
  - intros i Hin. destruct (Hr i Hin) as [Hlt Hab]. split; [done|]. split; [by right|]. intros _.
    destruct (loads v) as [|n] eqn:E; [lia|]. destruct (decide (i = n)) as [->|Hne]; [left|right].
    apply Hab. left. lia.
Qed.

Lemma sim_settle i now r s v :
  simulates s v -> i ∈ running s -> plain_results r ->
  simulates (load_settle date_parse local local_day day_label i now r s) (view_step v (Settle i now r)).
Proof.
  intros [Hl Ho Hc Ha Hr Hw Hi Hb Hs] Hin Hp. destruct (Hr i Hin) as [Hlt Hab].
  cbn [view_step]. unfold load_settle. change (aborted (resume i s)) with (aborted s).
  assert (forall j, j ∈ running (resume i s) ->
    (j < loads v)%nat /\ (j ∈ aborted s <-> S j <> loads v \/ open v = false)) as Hrun.
  { intros j [Hj _]%elem_of_resume. by apply Hr. }
  destruct (Nat.eqb (S i) (loads v) && open v) eqn:E.
  - apply andb_true_iff in E as [E%Nat.eqb_eq Eo]. rewrite bool_decide_eq_false_2.
    2:{ intros Hx%Hab. destruct Hx as [|Hx]; [done|congruence]. }
    destruct (final_returns now r Hp) as [snap Hsnap]. rewrite Hsnap.
    constructor; try done. apply show_displays; [done..|]. exact (displays_signature s _ Hs).
  - rewrite bool_decide_eq_true_2.
    2:{ apply Hab. apply andb_false_iff in E as [E%Nat.eqb_neq|E]; auto. }
    constructor; try done. intros H1 H2. apply elem_of_resume. split; [by apply Hw|].
    rewrite H2, andb_true_r in E. apply Nat.eqb_neq in E. lia.
Qed.

Lemma reaches_simulates es s : reaches es s -> Forall plain_event es -> simulates s (view es).
Proof.
  induction 1 as [|es e s s' Hr IH Hstep]; intros Hp.
  - constructor; try done; cbn; intros; try lia; by apply elem_of_nil in H.
  - apply Forall_app in Hp as [Hes He]. apply Forall_cons_iff in He as [He _].
    specialize (IH Hes). unfold view. rewrite fold_left_app. cbn [fold_left]. fold (view es).
    destruct Hstep; [by apply sim_start|by apply sim_settle|by apply sim_unmount].
Qed.

(** [C10] The dashboard shows the load that started last: however loads
    start, overlap, settle out of order and are abandoned, the errors, data
    and time on display are those of the last answer that belonged to the
    newest load when it arrived, an older load never overwrites it, and the
    busy indicators are off exactly when the newest load has settled. *)
Theorem dashboard_shows_newest (es : list Event) (s : HookState) :
  reaches es s -> Forall plain_event es ->
  displays s (shown (view es))
  /\ ((0 < loads (view es))%nat -> loading s || refreshing s = busy (view es))
  /\ (busy (view es) = true -> open (view es) = true -> pred (loads (view es)) ∈ running s).
Proof.
  intros Hr Hp. destruct (reaches_simulates es s Hr Hp) as [Hl Ho Hc Ha Hrun Hw Hi Hb Hs].
  split_and!; [done| |done]. intros H0. destruct (busy (view es)); [by apply Hb|].
  by destruct (Hi eq_refl H0) as [-> ->].
Qed.
End HookLaws.

(** ** Demonstrations *)

Module DashboardDemo.

(** A server that answers each URL of a table with its payload. *)
Definition reply (table : list (string * obj)) (url : string) : option FetchResponse :=
  match own_get table url with
  | Some o => Some {| status := 200; resp_headers := ∅; resp_body := Some (json_text o) |}
  | None => None
  end.

Definition table_server (table : list (string * obj)) : Upstream unit :=
  fun s r => (s, reply table (f_url r)).

Definition device_row (id state : string) : jsval :=
  JObj [("device_id", JStr id); ("lifecycle_state", JStr state); ("last_seen", JStr "t7500")].

Definition device_payload (rows : list jsval) (k last : Z) : obj :=
  [("devices", JArr rows);
   ("meta", JObj [("current_page", JNum (Num.of_Z k)); ("last_page", JNum (Num.of_Z last))])].

Definition demo_pages : list (list jsval) :=
  [[device_row "dev-1" "active"; device_row "dev-2" "quarantined"]; [device_row "dev-3" "offline"]].

Definition demo_pager : Upstream unit :=
  table_server (imap (fun k rows => (device_page_url (Num.of_Z (Z.of_nat k + 1)),
                                     device_payload rows (Z.of_nat k + 1) 2)) demo_pages).

Definition read (rows : list jsval) : list NormalizedDevice :=
  match devices_in rows with Ok ds => ds | Exn _ => [] end.

Lemma fetchDevices_complete_witness :
  trace (up := demo_pager) tt (fetchDevices 2) = map page_request [0; 1]%nat
  /\ outcome (up := demo_pager) tt (fetchDevices 2) = Ok (Some (concat (map read demo_pages))).
Proof.
  apply (fetchDevices_complete (up := demo_pager) (fun _ => True) demo_pages).
  - intros [] k rows _ Hk. exists tt, (JObj (device_payload rows (Z.of_nat k + 1) 2)).
    assert (device_page rows (Z.of_nat k + 1) 2 (JObj (device_payload rows (Z.of_nat k + 1) 2))) as Hp
      by (repeat split).
    split; [|split; [exact I|exact Hp]]. clear Hp.
    destruct k as [|[|k]]; [injection Hk as <-..|discriminate Hk];
      (eexists; split; [vm_compute; reflexivity|split; [reflexivity|vm_compute; reflexivity]]).
  - repeat constructor.
  - intros [|[|k]] Hk Hr; cbn in Hk; try lia; done.
  - cbn. lia.
  - cbn. lia.
  - done.
Defined.

(** A server that always sends the first of two pages. *)
Definition stuck_server : Upstream unit := fun s _ =>
  (s, Some {| status := 200; resp_headers := ∅;
              resp_body := Some (json_text (device_payload [device_row "dev-1" "active"] 1 2)) |}).

Lemma stuck_page fuel devices page last :
  Num.le page last = true ->
  outcome (up := stuck_server) tt (device_pages (S fuel) devices page last)
  = outcome (up := stuck_server) tt
      (device_pages fuel (devices ++ read [device_row "dev-1" "active"]) (Num.of_Z 2) (Num.of_Z 2)).
Proof.
  intros Hle. unfold outcome. cbn [device_pages]. rewrite Hle. cbn [negb].
  rewrite (run_get_json _ _ (JObj (device_payload [device_row "dev-1" "active"] 1 2)) tt tt).
  2:{ eexists. split_and!; [reflexivity|done|vm_compute; reflexivity]. }
  rewrite (bind_lift_ok _ ([device_row "dev-1" "active"], read [device_row "dev-1" "active"],
    Num.of_Z 2, Num.of_Z 2)) by (vm_compute; reflexivity).
  by destruct (run _ _) as [[]].
Qed.

(** Reading the devices relies on the server to move on: one that repeats a
    page is asked for ever. *)
Lemma paging_diverges fuel : outcome (up := stuck_server) tt (fetchDevices fuel) = Ok None.
Proof.
  assert (forall fuel devices, outcome (up := stuck_server) tt
    (device_pages fuel devices (Num.of_Z 2) (Num.of_Z 2)) = Ok None) as H.
  { clear. intros fuel. induction fuel as [|fuel IH]; intros devices; [done|].
    rewrite stuck_page by done. apply IH. }
  destruct fuel as [|fuel]; [done|]. unfold fetchDevices. by rewrite stuck_page.
Qed.

(** *** A week of ten-second days *)

(** A time is written t<milliseconds>; every day lasts ten seconds. *)
Definition demo_parse (s : string) : option Z :=
  match s with
  | String "t" ds => Z.of_N <$> decimal_value ds 0%N
  | _ => None
  end.

Definition demo_local (t : Z) : LocalTime :=
  {| fullYear := 2026; month := 0; date := t / 10000; hours := 0; minutes := 0; secs := (t / 1000) mod 10 |}.
Definition demo_day (_ _ d : Z) : Z := d * 10000.
Definition demo_label (d : LocalTime) : string := "Jan " +:+ Num.digits (date d).

Definition command_row (id state queued completed : string) : jsval :=
  JObj [("command_id", JStr id); ("state", JStr state); ("device_id", JStr "dev-1");
        ("queued_at", JStr queued); ("completed_at", JStr completed)].

(** Two pages of commands; the second is asked for by the cursor t20000. *)
Definition command_feed : list (list jsval) :=
  [[command_row "cmd-3" "completed" "t80000" "t81000"; command_row "cmd-2" "failed" "t20000" "t21000"];
   [command_row "cmd-1" "completed" "t10000" "t85000"]].

Definition feed_cursor (k : nat) : jsval := match k with 1%nat => JStr "t20000" | _ => JNull end.

Definition feed_server : Upstream unit :=
  table_server
    [("/api/commands?limit=200",
      [("commands", JArr (command_feed !!! 0%nat)); ("next_before", JStr "t20000")]);
     ("/api/commands?limit=200&before=t20000",
      [("commands", JArr (command_feed !!! 1%nat)); ("next_before", JNull)])].

Definition read_feed (rows : list jsval) : list (Z * NormalizedCommand) :=
  match commands_in demo_parse rows with Ok cs => cs | Exn _ => [] end.

Lemma feed_answers s k rows :
  command_feed !! k = Some rows ->
  exists s' url payload, command_page_url (feed_cursor k) = Ok url
    /\ serves_json (up := feed_server) s url payload s' /\ True
    /\ is_nullish payload = false /\ prop payload "commands" = JArr rows
    /\ vnullish (prop payload "next_before") JNull = feed_cursor (k + 1)%nat.
Proof.
  destruct s, k as [|[|k]]; intros Hk; [injection Hk as <-..|discriminate Hk];
    eexists tt, _, (JObj _); (split; [vm_compute; reflexivity|]);
    (split; [eexists; split; [vm_compute; reflexivity|split; [reflexivity|vm_compute; reflexivity]]|]);
    repeat split; vm_compute; reflexivity.
Qed.

Lemma fetchCommands_window_witness :
  (length (trace (up := feed_server) tt (fetchCommands demo_parse 30000)) <= 10)%nat.
Proof.
  refine (proj1 (fetchCommands_window (up := feed_server) demo_parse (fun _ => True) command_feed feed_cursor
    (fun s k rows _ => feed_answers s k rows) _ _ (map read_feed command_feed) 30000 tt _ _ _ _ I _ _)).
  - intros [|[|k]] rows Hr Hk; cbn in Hk; try lia; injection Hr as <-; done.
  - intros [|[|k]] rows Hr Hk; cbn in Hk; try lia; by right.
  - repeat constructor.
  - done.
  - done.
  - vm_compute. done.
  - intros [|[|i]] [|[|j]] f g e c e' c' Hij Hf Hg; cbn in Hij; try lia; try done.
    injection Hf as <-. injection Hg as <-. intros Hc%list_elem_of_In Hc'%list_elem_of_In.
    vm_compute in Hc, Hc'.
    destruct Hc as [[= <- <-]|[[= <- <-]|[]]], Hc' as [[= <- <-]|[]]; vm_compute; discriminate.
  - intros f e c [<-|[<-|[]]]%list_elem_of_In Hc%list_elem_of_In _; vm_compute in Hc.
    + destruct Hc as [[= <- <-]|[[= <- <-]|[]]]; vm_compute; discriminate.
    + destruct Hc as [[= <- <-]|[]]; vm_compute; discriminate.
Defined.

(** The window is by queueing time: [cmd-1], queued before it and completed
    inside it, is missed. *)
Lemma late_completion_missed :
  match outcome (up := feed_server) tt (fetchCommands demo_parse 30000) with
  | Ok cs => map c_id cs = ["cmd-3"; "cmd-2"]
  | Exn _ => False
  end
  /\ existsb (fun c => (c_id c.2 === "cmd-1") && (30000 <=? c.1)) (read_feed (command_feed !!! 1%nat)) = true.
Proof. split; vm_compute; reflexivity. Qed.

(** *** A snapshot *)

Definition demo_commands : list NormalizedCommand := map snd (concat (map read_feed command_feed)).
Definition demo_devices : list NormalizedDevice := concat (map read demo_pages).
Definition demo_results : LoadResults :=
  {| devicesResult := Some demo_devices; alertsResult := None; commandsResult := Some demo_commands;
     auditResult := None |}.

Abbreviation demo_build := (buildSnapshot demo_parse demo_local demo_day demo_label).

Definition demo_snapshot : DashboardSnapshot :=
  match demo_build 85000 demo_devices [] demo_commands with Ok s => s | Exn _ => EMPTY_SNAPSHOT end.

Lemma demo_snapshot_ok : demo_build 85000 demo_devices [] demo_commands = Ok demo_snapshot.
Proof. vm_compute. reflexivity. Qed.

Lemma snapshot_counts_witness :
  figures_right demo_devices [] demo_commands (kpi demo_snapshot)
  /\ totalDevices (kpi demo_snapshot) = 3%nat
  /\ commandVolume demo_snapshot
     = map (day_volume demo_parse demo_local demo_label demo_commands)
           (window_days demo_local demo_day (demo_local 85000)).
Proof.
  destruct (snapshot_counts demo_parse demo_local demo_day demo_label 85000 demo_devices [] demo_commands
    demo_snapshot demo_snapshot_ok) as (Hk & _ & _ & Hv).
  split; [exact Hk|split; [vm_compute; reflexivity|]]. apply Hv.
  refine (bool_decide_unpack (NoDup _) _). vm_compute. exact I.
Defined.

Lemma snapshot_lists_witness :
  exists shown, top 6 (event_ms demo_parse)
    (List.filter (fun c => in_states failedStates (c_state c)) demo_commands) shown
    /\ res_mapM (failing_item demo_parse demo_local demo_devices) shown = Ok (failingCommands demo_snapshot).
Proof.
  destruct (snapshot_lists demo_parse demo_local demo_day demo_label 85000 demo_devices [] demo_commands
    demo_snapshot demo_snapshot_ok) as [H _]. exact H.
Defined.

(** A feed event of a completed command is a warning when its id reads so. *)
Lemma feed_warns_by_id :
  w_severity (feed_event {| a_id := "activity-command-failed-1"; a_type := act_command;
    a_title := "failed-1 completed"; a_detail := ""; a_sortAt := 1; a_time := "" |}) = "warning".
Proof. done. Qed.

(** *** Two overlapping loads *)

(** The first load is overtaken by a refresh and answers last. *)
Definition overlap : list Event :=
  [Start initial; Start refresh; Settle 1 85000 demo_results;
   Settle 0 86000 {| devicesResult := None; alertsResult := None; commandsResult := None; auditResult := None |}].

Definition play (e : Event) (s : HookState) : HookState :=
  match e with
  | Start mode => load_start mode s
  | Settle i now r => load_settle demo_parse demo_local demo_day demo_label i now r s
  | Unmount => unmount s
  end.

Definition after_overlap : HookState := fold_left (fun s e => play e s) overlap hook_init.

Lemma dashboard_shows_newest_witness :
  displays demo_parse demo_local demo_day demo_label after_overlap (Some (85000, demo_results))
  /\ loading after_overlap || refreshing after_overlap = false.
Proof.
  assert (reaches demo_parse demo_local demo_day demo_label overlap after_overlap) as Hr.
  { unfold overlap. change [Start initial; ?a; ?b; ?c] with (((([] ++ [Start initial]) ++ [a]) ++ [b]) ++ [c]).
    repeat eapply reaches_step; [constructor|..].
    - by apply step_start.
    - by apply step_start.
    - apply step_settle. by left.
    - apply step_settle. by left. }
  destruct (dashboard_shows_newest demo_parse demo_local demo_day demo_label overlap after_overlap Hr)
    as (Hd & Hb & _).
  { repeat constructor. }
  split; [exact Hd|]. apply Hb. cbn. lia.
Defined.
End DashboardDemo.
