(* ===== verification/Pairing.v ===== *)
(** * Pairing a device

    Models src/components/DevicePairingModal.tsx: the modal in which a user
    starts a pairing session, waits for the agent, compares the device and
    confirms it.  [State] holds the component's state; [Machine] adds what
    runs beside it: the requests in flight, the instance of the polling
    effect (a number that changes with the effect's dependencies) and the
    devices handed to [onPaired].  Clicks, timers and answers are the events
    of a step relation and come in any order; the state updates of one event
    are one commit, after which the effects with changed dependencies run.

    [date_parse] is Date.parse; the clock's readings are part of the events.
    The remaining time is computed in whole milliseconds, where the doubles
    are exact. *)

From S2P Require Import Prelude JsNumber JsString JsValue Http Session Client.

Local Open Scope Z_scope.

(** ** Payloads *)

Inductive PairingStep := init | pending_agent | pending_confirmation | paired | expired | error.

(** [os] is always 'Windows' and [agentVersion] 'unknown'. *)
Record PendingDevice := {
  deviceId : string;
  deviceName : string;
  deviceIdSuffix : string;
  detectedAt : string;
}.

Definition DEFAULT_TTL_SECONDS : Z := 300.

(** [String(v ?? '').trim()] *)
Definition field (v : jsval) (k : string) : res string :=
  let! s := member_str v k "" in Ok (trim s).

Definition parseApiError (payload : jsval) (fallback : string) : res string :=
  if negb (truthy payload) || negb (is_object_type payload) then Ok fallback
  else
    let! reason := field payload "reason" in
    let! message := field payload "message" in
    let! status := field payload "status" in
    Ok (if truthy_str reason && truthy_str message then reason +:+ ": " +:+ message
        else or_str reason (or_str message (or_str status fallback))).

(** [s.slice(-6)] *)
Definition last_six (s : string) : string := sdrop (String.length s - 6) s.

(** [iso] is the clock as an ISO text. *)
Definition toPendingDevice (iso : string) (payload : jsval) : res (option PendingDevice) :=
  let! deviceId := field payload "device_id" in
  let! deviceName := field payload "device_name" in
  if negb (truthy_str deviceId) || negb (truthy_str deviceName) then Ok None
  else
    let! suffixRaw := field payload "device_id_suffix" in
    let! detectedAt := str_or (prop payload "detected_at") iso in
    Ok (Some {| deviceId := deviceId; deviceName := deviceName;
                deviceIdSuffix := toUpperCase (or_str suffixRaw (last_six deviceId));
                detectedAt := detectedAt |}).

(** ** The component's state *)

(** [expiresAt] and [timeLeft] are numbers of milliseconds and seconds. *)
Record State := {
  step : PairingStep;
  pairCode : string;
  pairSessionId : string;
  pairToken : string;
  timeLeft : Z;
  expiresAt : Z;
  pendingDevice : option PendingDevice;
  deviceNameInput : string;
  deviceIdSuffixInput : string;
  confirmError : string;
  confirming : bool;
  pollCount : nat;
  busy : bool;
}.

Definition resetState : State :=
  {| step := init; pairCode := ""; pairSessionId := ""; pairToken := ""; timeLeft := 0;
     expiresAt := 0; pendingDevice := None; deviceNameInput := ""; deviceIdSuffixInput := "";
     confirmError := ""; confirming := false; pollCount := 0; busy := false |}.

Section Setters.
Context (u : State).

Definition setStep (v : PairingStep) : State :=
  {| step := v; pairCode := pairCode u; pairSessionId := pairSessionId u; pairToken := pairToken u;
     timeLeft := timeLeft u; expiresAt := expiresAt u; pendingDevice := pendingDevice u;
     deviceNameInput := deviceNameInput u; deviceIdSuffixInput := deviceIdSuffixInput u;
     confirmError := confirmError u; confirming := confirming u; pollCount := pollCount u; busy := busy u |}.
Definition setPairCode (v : string) : State :=
  {| step := step u; pairCode := v; pairSessionId := pairSessionId u; pairToken := pairToken u;
     timeLeft := timeLeft u; expiresAt := expiresAt u; pendingDevice := pendingDevice u;
     deviceNameInput := deviceNameInput u; deviceIdSuffixInput := deviceIdSuffixInput u;
     confirmError := confirmError u; confirming := confirming u; pollCount := pollCount u; busy := busy u |}.
Definition setPairToken (v : string) : State :=
  {| step := step u; pairCode := pairCode u; pairSessionId := pairSessionId u; pairToken := v;
     timeLeft := timeLeft u; expiresAt := expiresAt u; pendingDevice := pendingDevice u;
     deviceNameInput := deviceNameInput u; deviceIdSuffixInput := deviceIdSuffixInput u;
     confirmError := confirmError u; confirming := confirming u; pollCount := pollCount u; busy := busy u |}.
Definition setTimeLeft (v : Z) : State :=
  {| step := step u; pairCode := pairCode u; pairSessionId := pairSessionId u; pairToken := pairToken u;
     timeLeft := v; expiresAt := expiresAt u; pendingDevice := pendingDevice u;
     deviceNameInput := deviceNameInput u; deviceIdSuffixInput := deviceIdSuffixInput u;
     confirmError := confirmError u; confirming := confirming u; pollCount := pollCount u; busy := busy u |}.
Definition setExpiresAt (v : Z) : State :=
  {| step := step u; pairCode := pairCode u; pairSessionId := pairSessionId u; pairToken := pairToken u;
     timeLeft := timeLeft u; expiresAt := v; pendingDevice := pendingDevice u;
     deviceNameInput := deviceNameInput u; deviceIdSuffixInput := deviceIdSuffixInput u;
     confirmError := confirmError u; confirming := confirming u; pollCount := pollCount u; busy := busy u |}.
Definition setPendingDevice (v : option PendingDevice) : State :=
  {| step := step u; pairCode := pairCode u; pairSessionId := pairSessionId u; pairToken := pairToken u;
     timeLeft := timeLeft u; expiresAt := expiresAt u; pendingDevice := v;
     deviceNameInput := deviceNameInput u; deviceIdSuffixInput := deviceIdSuffixInput u;
     confirmError := confirmError u; confirming := confirming u; pollCount := pollCount u; busy := busy u |}.
Definition setInputs (name suffix : string) : State :=
  {| step := step u; pairCode := pairCode u; pairSessionId := pairSessionId u; pairToken := pairToken u;
     timeLeft := timeLeft u; expiresAt := expiresAt u; pendingDevice := pendingDevice u;
     deviceNameInput := name; deviceIdSuffixInput := suffix;
     confirmError := confirmError u; confirming := confirming u; pollCount := pollCount u; busy := busy u |}.
Definition setConfirmError (v : string) : State :=
  {| step := step u; pairCode := pairCode u; pairSessionId := pairSessionId u; pairToken := pairToken u;
     timeLeft := timeLeft u; expiresAt := expiresAt u; pendingDevice := pendingDevice u;
     deviceNameInput := deviceNameInput u; deviceIdSuffixInput := deviceIdSuffixInput u;
     confirmError := v; confirming := confirming u; pollCount := pollCount u; busy := busy u |}.
Definition setConfirming (v : bool) : State :=
  {| step := step u; pairCode := pairCode u; pairSessionId := pairSessionId u; pairToken := pairToken u;
     timeLeft := timeLeft u; expiresAt := expiresAt u; pendingDevice := pendingDevice u;
     deviceNameInput := deviceNameInput u; deviceIdSuffixInput := deviceIdSuffixInput u;
     confirmError := confirmError u; confirming := v; pollCount := pollCount u; busy := busy u |}.
Definition setPollCount (v : nat) : State :=
  {| step := step u; pairCode := pairCode u; pairSessionId := pairSessionId u; pairToken := pairToken u;
     timeLeft := timeLeft u; expiresAt := expiresAt u; pendingDevice := pendingDevice u;
     deviceNameInput := deviceNameInput u; deviceIdSuffixInput := deviceIdSuffixInput u;
     confirmError := confirmError u; confirming := confirming u; pollCount := v; busy := busy u |}.
Definition setBusy (v : bool) : State :=
  {| step := step u; pairCode := pairCode u; pairSessionId := pairSessionId u; pairToken := pairToken u;
     timeLeft := timeLeft u; expiresAt := expiresAt u; pendingDevice := pendingDevice u;
     deviceNameInput := deviceNameInput u; deviceIdSuffixInput := deviceIdSuffixInput u;
     confirmError := confirmError u; confirming := confirming u; pollCount := pollCount u; busy := v |}.
Definition setSession (session code : string) : State :=
  {| step := step u; pairCode := code; pairSessionId := session; pairToken := pairToken u;
     timeLeft := timeLeft u; expiresAt := expiresAt u; pendingDevice := pendingDevice u;
     deviceNameInput := deviceNameInput u; deviceIdSuffixInput := deviceIdSuffixInput u;
     confirmError := confirmError u; confirming := confirming u; pollCount := pollCount u; busy := busy u |}.
End Setters.

(** [Math.max(0, Math.ceil((expiresAt - now) / 1000))] *)
Definition seconds_left (expiresAt now : Z) : Z := Z.max 0 (- (- (expiresAt - now) / 1000)).

Definition pending_step (s : PairingStep) : bool :=
  match s with pending_agent | pending_confirmation => true | _ => false end.

Section Dates.
Context (date_parse : string -> option Z).

(** ** Starting a session *)

Definition init_request : FetchRequest :=
  {| f_method := "POST"; f_url := "/api/pair/init"; f_headers := [json_content]; f_body := Some "{}" |}.

(** [startPairing] before its [await]. *)
Definition start_begin (u : State) : State := setPollCount (setConfirmError (setBusy u true) "") 0.

(** Session, code and expiry that the answer names, or the error. *)
Definition init_answer (now : Z) (r : option FetchResponse) : res (string * string * Z) :=
  match r with
  | None => Exn "fetch failed"
  | Some r =>
      let payload := json_or_empty r in
      if negb (ok r) then
        let! message := parseApiError payload ("pair_init_failed_" +:+ Num.digits (status r)) in
        Exn message
      else
        let! sessionId := field payload "pair_session_id" in
        let! code := field payload "pair_code" in
        let! expiresAtRaw := field payload "expires_at" in
        let expiresAtMs := date_parse expiresAtRaw ?? (now + DEFAULT_TTL_SECONDS * 1000) in
        if negb (truthy_str sessionId) || negb (truthy_str code) then Exn "pair_init_missing_fields"
        else Ok (sessionId, code, expiresAtMs)
  end.

(** [startPairing] after its [await]; [now] and [now'] are the two readings
    of the clock. *)
Definition start_end (now now' : Z) (r : option FetchResponse) (u : State) : State :=
  setBusy
    (match init_answer now r with
     | Ok (sessionId, code, expiresAtMs) =>
         let u := setSession u sessionId code in
         let u := setPairToken u "" in
         let u := setPendingDevice u None in
         let u := setInputs u "" "" in
         let u := setExpiresAt u expiresAtMs in
         let u := setTimeLeft u (seconds_left expiresAtMs now') in
         setStep u pending_agent
     | Exn message => setStep (setConfirmError u message) error
     end) false.

(** ** The timer and the poll *)

(** One tick of the timer, which runs while [ticking]. *)
Definition ticking (u : State) : bool := pending_step (step u) && negb (expiresAt u =? 0).

Definition tick (now : Z) (u : State) : State :=
  let next := seconds_left (expiresAt u) now in
  let u := setTimeLeft u next in
  if next <=? 0 then setStep u expired else u.

(** The polling effect runs while there is a session in a pending step. *)
Definition polling (u : State) : bool := truthy_str (pairSessionId u) && pending_step (step u).

Definition poll_request (session : string) : FetchRequest :=
  get_request ("/api/pair/session/" +:+ encodeURIComponent session).

(** A field of the payload is read; when that throws, the poll stops with
    what was set so far. *)
Definition with_field (payload : jsval) (k : string) (u : State) (next : string -> State) : State :=
  match field payload k with Ok s => next s | Exn _ => u end.

Definition poll_status (iso : string) (payload : jsval) (u : State) : State :=
  match lowered (prop payload "status") "" with
  | Exn _ => u
  | Ok status =>
      if status === "expired" then setStep u expired
      else if status === "pending_confirmation" then
        match toPendingDevice iso payload with
        | Ok (Some device) => setStep (setPendingDevice u (Some device)) pending_confirmation
        | _ => u
        end
      else if status === "paired" then setStep u paired
      else u
  end.

Definition poll_payload (now : Z) (iso : string) (payload : jsval) (u : State) : State :=
  with_field payload "pair_code" u (fun nextCode =>
  let u := if truthy_str nextCode then setPairCode u nextCode else u in
  with_field payload "pair_token" u (fun nextToken =>
  let u := if truthy_str nextToken then setPairToken u nextToken else u in
  with_field payload "expires_at" u (fun expiryRaw =>
  let u := if truthy_str expiryRaw then
             match date_parse expiryRaw with
             | Some nextExpiry => setTimeLeft (setExpiresAt u nextExpiry) (seconds_left nextExpiry now)
             | None => u
             end
           else u in
  poll_status iso payload u))).

(** [pollOnce] after its [await], when it is not cancelled. *)
Definition poll_end (now : Z) (iso : string) (r : option FetchResponse) (u : State) : State :=
  let u := match r with
           | None => u
           | Some r =>
               if negb (ok r) then (if status r =? 404 then setStep u expired else u)
               else poll_payload now iso (json_or_empty r) u
           end in
  setPollCount u (S (pollCount u)).

(** *** The shown time *)

(** [Math.floor(seconds / 60)] and [seconds % 60], padded. *)
Definition formatTime (seconds : Z) : string :=
  padStart 2 "0" (Num.digits (seconds / 60)) +:+ ":" +:+ padStart 2 "0" (Num.digits (seconds mod 60)).

End Dates.

(** ** Confirming *)

(** A confirmation in flight: what was sent and for which device. *)
Record Confirm := { cf_token : string; cf_session : string; cf_device : PendingDevice }.

Definition confirm_request (c : Confirm) : FetchRequest :=
  {| f_method := "POST"; f_url := "/api/pair/confirm"; f_headers := [json_content];
     f_body := Some (json_text [("pair_token", JStr (cf_token c)); ("pair_session_id", JStr (cf_session c))]) |}.

(** [handleConfirm] before its [await]: the new state, and the request when
    the checks pass. *)
Definition confirm_begin (u : State) : State * option Confirm :=
  match pendingDevice u with
  | None => (u, None)
  | Some device =>
      let u := setConfirmError u "" in
      if trim (deviceNameInput u) !== deviceName device then
        (setConfirmError u "Device name does not match. Check the name shown above and try again.", None)
      else if toUpperCase (trim (deviceIdSuffixInput u)) !== toUpperCase (deviceIdSuffix device) then
        (setConfirmError u
           "Device ID suffix does not match. Enter the last 6 characters of the device ID shown above.", None)
      else if negb (truthy_str (pairToken u)) then
        (setConfirmError u "Pair token not available yet. Wait a few seconds and retry.", None)
      else
        (setConfirming u true,
         Some {| cf_token := pairToken u; cf_session := pairSessionId u; cf_device := device |})
  end.

(** The answer to a confirmation: nothing, or the message of the error. *)
Definition confirm_answer (r : option FetchResponse) : option string :=
  match r with
  | None => Some "fetch failed"
  | Some r =>
      if ok r then None
      else match parseApiError (json_or_empty r) ("pair_confirm_failed_" +:+ Num.digits (status r)) with
           | Ok message => Some message
           | Exn message => Some message
           end
  end.

(** [handleConfirm] after its [await]. *)
Definition confirm_end (r : option FetchResponse) (u : State) : State :=
  setConfirming
    (match confirm_answer r with
     | None => setStep u paired
     | Some message => setConfirmError u message
     end) false.

(** The button is enabled. *)
Definition can_confirm (u : State) : bool :=
  match step u, pendingDevice u with
  | pending_confirmation, Some _ =>
      negb (confirming u) && truthy_str (deviceNameInput u)
      && negb (Nat.ltb (String.length (deviceIdSuffixInput u)) 6)
  | _, _ => false
  end.

(** A step that offers to start again. *)
Definition can_restart (u : State) : bool :=
  match step u with
  | pending_confirmation => match pendingDevice u with Some _ => true | None => false end
  | expired | error => true
  | _ => false
  end.

(** The modal shows something besides its title. *)
Definition shows_something (u : State) : bool :=
  match step u with
  | pending_confirmation | paired => match pendingDevice u with Some _ => true | None => false end
  | _ => true
  end.

(** ** The machine *)

(** [effect] numbers the instances of the polling effect; [polls] are the
    polls in flight with their instance and session, [inits] the number of
    starts in flight, [confirms] the confirmations in flight.  [sent] are
    all requests, the latest first, [told] the payloads the polls applied
    with the session they asked about, [notified] the calls of [onPaired]. *)
Record Machine := {
  ui : State;
  mounted : bool;
  effect : nat;
  polls : list (nat * string);
  inits : nat;
  confirms : list Confirm;
  sent : list FetchRequest;
  told : list (string * jsval);
  notified : list PendingDevice;
}.

Definition start : Machine :=
  {| ui := resetState; mounted := true; effect := 0; polls := []; inits := 0; confirms := [];
     sent := []; told := []; notified := [] |}.

Definition same_step (a b : PairingStep) : bool :=
  match a, b with
  | init, init | pending_agent, pending_agent | pending_confirmation, pending_confirmation
  | paired, paired | expired, expired | error, error => true
  | _, _ => false
  end.

(** The polling effect sends a poll when it starts and at each interval. *)
Definition send_poll (m : Machine) : Machine :=
  {| ui := ui m; mounted := mounted m; effect := effect m;
     polls := (effect m, pairSessionId (ui m)) :: polls m; inits := inits m; confirms := confirms m;
     sent := poll_request (pairSessionId (ui m)) :: sent m; told := told m; notified := notified m |}.

(** The state changes; a change of [pairSessionId] or [step] ends the
    polling effect and starts it anew.  An unmounted component keeps its
    state. *)
Definition commit (u : State) (m : Machine) : Machine :=
  if negb (mounted m) then m
  else
    let same := (pairSessionId u === pairSessionId (ui m)) && same_step (step u) (step (ui m)) in
    let m := {| ui := u; mounted := mounted m; effect := if same then effect m else S (effect m);
                polls := polls m; inits := inits m; confirms := confirms m; sent := sent m;
                told := told m; notified := notified m |} in
    if negb same && polling u then send_poll m else m.

(** [void startPairing()]: the request goes out. *)
Definition send_init (m : Machine) : Machine :=
  {| ui := ui m; mounted := mounted m; effect := effect m; polls := polls m; inits := S (inits m);
     confirms := confirms m; sent := init_request :: sent m; told := told m; notified := notified m |}.

Definition send_confirm (c : Confirm) (m : Machine) : Machine :=
  {| ui := ui m; mounted := mounted m; effect := effect m; polls := polls m; inits := inits m;
     confirms := c :: confirms m; sent := confirm_request c :: sent m; told := told m;
     notified := notified m |}.

(** What an event leaves of the requests in flight and of the ghost log. *)
Definition settle (polls' : list (nat * string)) (inits' : nat) (confirms' : list Confirm)
    (told' : list (string * jsval)) (notified' : list PendingDevice) (m : Machine) : Machine :=
  {| ui := ui m; mounted := mounted m; effect := effect m; polls := polls'; inits := inits';
     confirms := confirms'; sent := sent m; told := told'; notified := notified' |}.

(** The payload a poll applies. *)
Definition applied (r : option FetchResponse) : list jsval :=
  match r with Some r => if ok r then [json_or_empty r] else [] | None => [] end.

Section Machine.
Context (date_parse : string -> option Z).

Inductive Event :=
| ClickStart
| ClickRestart
| ClickConfirm
| TypeName (text : string)
| TypeSuffix (text : string)
| Tick (now : Z)
| Interval
| InitAnswer (now now' : Z) (r : option FetchResponse)
| PollAnswer (instance : nat) (session : string) (now : Z) (iso : string) (r : option FetchResponse)
| ConfirmAnswer (c : Confirm) (r : option FetchResponse)
| Close.

(** Each event with the condition of its button, field or timer. *)
Inductive fires : Event -> Machine -> Machine -> Prop :=
| fires_start m :
    mounted m = true -> step (ui m) = init -> busy (ui m) = false ->
    fires ClickStart m (send_init (commit (start_begin (ui m)) m))
| fires_restart m :
    mounted m = true -> can_restart (ui m) = true ->
    fires ClickRestart m (send_init (commit (start_begin resetState) m))
| fires_confirm m u c :
    mounted m = true -> can_confirm (ui m) = true -> confirm_begin (ui m) = (u, c) ->
    fires ClickConfirm m (match c with Some c => send_confirm c | None => id end (commit u m))
| fires_name m text :
    mounted m = true -> step (ui m) = pending_confirmation ->
    fires (TypeName text) m
      (commit (setConfirmError (setInputs (ui m) text (deviceIdSuffixInput (ui m))) "") m)
| fires_suffix m text :
    mounted m = true -> step (ui m) = pending_confirmation -> (String.length text <= 6)%nat ->
    fires (TypeSuffix text) m
      (commit (setConfirmError (setInputs (ui m) (deviceNameInput (ui m)) (toUpperCase text)) "") m)
| fires_tick m now :
    mounted m = true -> ticking (ui m) = true -> fires (Tick now) m (commit (tick now (ui m)) m)
| fires_interval m :
    mounted m = true -> polling (ui m) = true -> fires Interval m (send_poll m)
| fires_init_answer m now now' r n :
    inits m = S n ->
    fires (InitAnswer now now' r) m
      (commit (start_end date_parse now now' r (ui m))
        (settle (polls m) n (confirms m) (told m) (notified m) m))
| fires_poll_live m session now iso r l1 l2 :
    polls m = l1 ++ (effect m, session) :: l2 -> mounted m = true ->
    fires (PollAnswer (effect m) session now iso r) m
      (commit (poll_end date_parse now iso r (ui m))
        (settle (l1 ++ l2) (inits m) (confirms m) (map (pair session) (applied r) ++ told m) (notified m) m))
| fires_poll_cancelled m instance session now iso r l1 l2 :
    polls m = l1 ++ (instance, session) :: l2 -> mounted m = false \/ instance <> effect m ->
    fires (PollAnswer instance session now iso r) m
      (settle (l1 ++ l2) (inits m) (confirms m) (told m) (notified m) m)
| fires_confirm_answer m c r l1 l2 :
    confirms m = l1 ++ c :: l2 ->
    fires (ConfirmAnswer c r) m
      (commit (confirm_end r (ui m))
        (settle (polls m) (inits m) (l1 ++ l2) (told m)
          (match confirm_answer r with None => cf_device c :: notified m | Some _ => notified m end) m))
| fires_close m :
    mounted m = true ->
    fires Close m {| ui := ui m; mounted := false; effect := S (effect m); polls := polls m;
                     inits := inits m; confirms := confirms m; sent := sent m; told := told m;
                     notified := notified m |}.

Inductive reachable : Machine -> Prop :=
| reachable_start : reachable start
| reachable_step e m m' : reachable m -> fires e m m' -> reachable m'.

(** ** Invariants *)

(** A text that the session's server told in this field. *)
Definition told_field (log : list (string * jsval)) (session k value : string) : Prop :=
  exists payload, (session, payload) ∈ log /\ field payload k = Ok value.

Definition told_device (log : list (string * jsval)) (session : string) (d : PendingDevice) : Prop :=
  exists payload iso, (session, payload) ∈ log /\ toPendingDevice iso payload = Ok (Some d).

(** What is on display belongs to the session on display. *)
Record good_ui (log : list (string * jsval)) (u : State) : Prop := {
  good_token : pairToken u <> "" -> told_field log (pairSessionId u) "pair_token" (pairToken u);
  good_device : forall d, pendingDevice u = Some d -> told_device log (pairSessionId u) d;
  good_confirmation : step u = pending_confirmation -> pendingDevice u <> None;
  good_session : pending_step (step u) = true -> pairSessionId u <> "" /\ pairCode u <> "";
}.

(** At most one start is in flight, and the modal says so. *)
Definition flight_ok (n : nat) (u : State) : Prop :=
  ((0 < n)%nat -> n = 1%nat /\ busy u = true /\ (step u = init \/ step u = paired))
  /\ (busy u = true -> (0 < n)%nat).

(** A poll of the running effect asks about the session on display. *)
Definition polls_ok (m : Machine) : Prop :=
  forall i session, (i, session) ∈ polls m ->
    (i <= effect m)%nat
    /\ (i = effect m -> mounted m = true -> session = pairSessionId (ui m) /\ polling (ui m) = true).

(** A confirmation names a device and a token that its session told. *)
Definition confirm_ok (log : list (string * jsval)) (c : Confirm) : Prop :=
  cf_token c <> "" /\ told_field log (cf_session c) "pair_token" (cf_token c)
  /\ told_device log (cf_session c) (cf_device c).

Record log_ok (m : Machine) : Prop := {
  log_sent : forall r, r ∈ sent m -> f_url r = "/api/pair/confirm" ->
    exists c, r = confirm_request c /\ confirm_ok (told m) c;
  log_confirms : forall c, c ∈ confirms m -> confirm_ok (told m) c /\ confirm_request c ∈ sent m;
  log_notified : forall d, d ∈ notified m ->
    exists c, cf_device c = d /\ confirm_ok (told m) c /\ confirm_request c ∈ sent m;
}.

Record coherent (m : Machine) : Prop := {
  co_ui : good_ui (told m) (ui m);
  co_flight : mounted m = true -> flight_ok (inits m) (ui m);
  co_polls : polls_ok m;
  co_log : log_ok m;
}.

Lemma told_field_mono log log' session k v :
  told_field log session k v -> told_field (log' ++ log) session k v.
Proof. intros (p & Hp & Hk). exists p. split; [apply elem_of_app; by right|done]. Qed.

Lemma told_device_mono log log' session d :
  told_device log session d -> told_device (log' ++ log) session d.
Proof. intros (p & iso & Hp & Hk). exists p, iso. split; [apply elem_of_app; by right|done]. Qed.

Lemma confirm_ok_mono log log' c : confirm_ok log c -> confirm_ok (log' ++ log) c.
Proof. intros (? & ? & ?). split_and!; auto using told_field_mono, told_device_mono. Qed.

Lemma good_ui_mono log log' u : good_ui log u -> good_ui (log' ++ log) u.
Proof. intros [? ? ? ?]. constructor; auto using told_field_mono, told_device_mono. Qed.

(** Updates that keep what the invariant speaks of. *)
Definition same_session (u u' : State) : Prop :=
  pairToken u' = pairToken u /\ pendingDevice u' = pendingDevice u
  /\ pairSessionId u' = pairSessionId u /\ pairCode u' = pairCode u.

Lemma good_ui_keep log u u' :
  good_ui log u -> same_session u u' -> step u' = step u \/ pending_step (step u') = false -> good_ui log u'.
Proof.
  intros [H1 H2 H3 H4] (Ht & Hd & Hs & Hc) Hstep. constructor; rewrite ?Ht, ?Hd, ?Hs, ?Hc; try done.
  - destruct Hstep as [->|Hstep]; [done|]. intros E. by rewrite E in Hstep.
  - destruct Hstep as [->|Hstep]; [done|]. by rewrite Hstep.
Qed.

Lemma same_step_eq a b : same_step a b = true -> a = b.
Proof. by destruct a, b. Qed.

(** A commit keeps the machine coherent when the new state is good. *)
Lemma commit_polls u m : polls_ok m -> polls_ok (commit u m).
Proof.
  intros Hp. unfold commit. destruct (mounted m) eqn:Hm; [|done]. cbn [negb].
  destruct ((pairSessionId u === pairSessionId (ui m)) && same_step (step u) (step (ui m))) eqn:E; cbn [negb andb].
  - apply andb_true_iff in E as [Es%String.eqb_eq Et%same_step_eq]. intros i session Hin.
    destruct (Hp i session Hin) as [Hle Heq]. split; [done|]. cbn [effect ui mounted]. intros Hi _.
    unfold polling. rewrite Es, Et. by apply Heq.
  - assert (forall i session, (i, session) ∈ polls m -> (i < S (effect m))%nat) as Hlt.
    { intros i session Hin. destruct (Hp i session Hin). lia. }
    destruct (polling u) eqn:Hpoll; intros i session; cbn [polls send_poll effect mounted ui].
    + intros [[= -> ->]|Hin]%elem_of_cons; [done|]. specialize (Hlt _ _ Hin). split; [lia|lia].
    + intros Hin. specialize (Hlt _ _ Hin). split; [lia|lia].
Qed.

(** Any other request may be sent. *)
Lemma log_ok_send r m m' :
  log_ok m -> sent m' = r :: sent m -> confirms m' = confirms m -> told m' = told m ->
  notified m' = notified m -> f_url r <> "/api/pair/confirm" -> log_ok m'.
Proof.
  intros [H1 H2 H3] Es Ec Et En Hr. constructor; rewrite ?Es, ?Ec, ?Et, ?En.
  - intros r' [->|Hr']%elem_of_cons Hu; [done|by apply H1].
  - intros c Hc. destruct (H2 c Hc). split; [done|by right].
  - intros d Hd. destruct (H3 d Hd) as (c & ? & ? & ?). exists c. split_and!; [done..|by right].
Qed.

Lemma commit_log u m : log_ok m -> log_ok (commit u m).
Proof.
  intros Hl. unfold commit. destruct (mounted m); [|done]. cbn [negb].
  destruct (negb _ && polling u); [|by destruct Hl; constructor]. eapply log_ok_send; [exact Hl|reflexivity..|discriminate].
Qed.

(** What a commit leaves alone. *)
Lemma commit_rest u m :
  told (commit u m) = told m /\ inits (commit u m) = inits m /\ mounted (commit u m) = mounted m
  /\ confirms (commit u m) = confirms m /\ notified (commit u m) = notified m
  /\ ui (commit u m) = if mounted m then u else ui m.
Proof.
  unfold commit. destruct (mounted m) eqn:Hm; [|done]. cbn [negb].
  by destruct (negb _ && polling u).
Qed.

Lemma commit_coherent u m :
  good_ui (told m) (ui m) -> polls_ok m -> log_ok m ->
  (mounted m = true -> good_ui (told m) u /\ flight_ok (inits m) u) -> coherent (commit u m).
Proof.
  intros Hg Hp Hl Hu. destruct (commit_rest u m) as (Ht & Hi & Hm & _ & _ & Hui).
  constructor; [| |by apply commit_polls|by apply commit_log]; rewrite ?Ht, ?Hi, ?Hm, ?Hui.
  - destruct (mounted m); [by apply Hu|done].
  - intros E. rewrite E. by apply Hu.
Qed.

(** *** Each event *)

Lemma send_init_coherent u m :
  good_ui (told m) u -> polls_ok m -> log_ok m -> mounted m = true ->
  inits m = 0%nat -> busy u = true -> step u = init -> good_ui (told m) (ui m) ->
  coherent (send_init (commit u m)).
Proof.
  intros Hu Hp Hl Hm Hi Hb Hs Hg. destruct (commit_rest u m) as (Ht & Hci & Hcm & _ & _ & Hui).
  rewrite Hm in Hui. constructor; cbn [send_init told ui mounted inits].
  - by rewrite Ht, Hui.
  - intros _. rewrite Hci, Hi, Hui. split; [intros _; split_and!; auto|lia].
  - by apply (commit_polls u) in Hp.
  - apply (commit_log u) in Hl. eapply log_ok_send; [exact Hl|reflexivity..|discriminate].
Qed.

(** In the steps that poll, restart or count down no start is in flight. *)
Lemma no_start_in_flight m :
  coherent m -> mounted m = true -> busy (ui m) = false \/ (step (ui m) <> init /\ step (ui m) <> paired) ->
  inits m = 0%nat /\ busy (ui m) = false.
Proof.
  intros Hc Hm Hs. destruct (co_flight m Hc Hm) as [H1 H2].
  destruct (inits m) as [|n]; [|destruct (H1 ltac:(lia)) as (_ & ? & ?); naive_solver congruence].
  split; [done|]. destruct (busy (ui m)); [|done]. specialize (H2 eq_refl). lia.
Qed.

Lemma idle_flight u : busy u = false -> flight_ok 0 u.
Proof. intros Hb. split; [lia|congruence]. Qed.

(** An event whose update leaves the session alone. *)
Lemma commit_keeps u m :
  coherent m -> same_session (ui m) u -> busy u = busy (ui m) ->
  step u = step (ui m) -> coherent (commit u m).
Proof.
  intros [Hg Hf Hp Hl] Hs Hb Hst. apply commit_coherent; try done. intros Hm.
  split; [by eapply good_ui_keep; eauto|]. specialize (Hf Hm). unfold flight_ok in *. by rewrite Hb, Hst.
Qed.

Lemma poll_status_good iso payload log u :
  good_ui log u -> pending_step (step u) = true -> (pairSessionId u, payload) ∈ log ->
  good_ui log (poll_status iso payload u) /\ busy (poll_status iso payload u) = busy u.
Proof.
  intros Hg Hs Hin. unfold poll_status. destruct (lowered _ _) as [st|]; [|done].
  assert (forall st', pending_step st' = false -> good_ui log (setStep u st')) as Hend.
  { intros st' Hst. eapply good_ui_keep; [exact Hg|done|by right]. }
  destruct (st === "expired"); [by split; [apply Hend|]|].
  destruct (st === "pending_confirmation").
  - destruct (toPendingDevice iso payload) as [[d|]|] eqn:E; try done. split; [|done].
    destruct Hg as [H1 H2 H3 H4]. constructor; try done; cbn.
    + intros d' [= <-]. by exists payload, iso.
    + intros _. by apply H4.
  - by destruct (st === "paired"); [split; [apply Hend|]|].
Qed.

Lemma poll_payload_good now iso payload log u :
  good_ui log u -> pending_step (step u) = true ->
  good_ui ((pairSessionId u, payload) :: log) (poll_payload date_parse now iso payload u)
  /\ busy (poll_payload date_parse now iso payload u) = busy u.
Proof.
  intros Hg Hs. apply (good_ui_mono log [(pairSessionId u, payload)]) in Hg. cbn [app] in Hg.
  unfold poll_payload, with_field. destruct (field payload "pair_code") as [code|]; [|done].
  assert (good_ui ((pairSessionId u, payload) :: log) (if truthy_str code then setPairCode u code else u)) as H1.
  { destruct (truthy_str code) eqn:E; [|done]. apply truthy_str_spec in E. destruct Hg as [G1 G2 G3 G4].
    constructor; try done. cbn. intros Hp. by split; [apply G4|]. }
  destruct (field payload "pair_token") as [token|] eqn:Et; [|by destruct (truthy_str code)].
  set (u1 := if truthy_str code then setPairCode u code else u) in *.
  assert (pairSessionId u1 = pairSessionId u /\ step u1 = step u /\ busy u1 = busy u) as (Es & Est & Eb)
    by (unfold u1; by destruct (truthy_str code)).
  rewrite <- Es, <- Est, <- Eb in *. clearbody u1. clear Hg Es Est Eb u.
  assert (good_ui ((pairSessionId u1, payload) :: log) (if truthy_str token then setPairToken u1 token else u1)) as H2.
  { destruct (truthy_str token) eqn:E; [|done]. destruct H1 as [G1 G2 G3 G4].
    constructor; try done. cbn. intros _. exists payload. split; [left|done]. }
  destruct (field payload "expires_at") as [expiry|]; [|by destruct (truthy_str token)].
  set (u2 := if truthy_str token then setPairToken u1 token else u1) in *.
  assert (pairSessionId u2 = pairSessionId u1 /\ step u2 = step u1 /\ busy u2 = busy u1) as (Es & Est & Eb)
    by (unfold u2; by destruct (truthy_str token)).
  rewrite <- Es, <- Est, <- Eb in *. clearbody u2. clear H1 Es Est Eb u1.
  destruct (truthy_str expiry); [|by apply poll_status_good; [..|left]].
  destruct (date_parse expiry) as [t|]; [|by apply poll_status_good; [..|left]].
  apply (poll_status_good iso payload _ (setTimeLeft (setExpiresAt u2 t) (seconds_left t now)));
    [|done|left]. eapply good_ui_keep; [exact H2|done|by left].
Qed.

Lemma poll_end_good now iso r log u :
  good_ui log u -> pending_step (step u) = true ->
  good_ui (map (pair (pairSessionId u)) (applied r) ++ log) (poll_end date_parse now iso r u)
  /\ busy (poll_end date_parse now iso r u) = busy u.
Proof.
  intros Hg Hs. unfold poll_end, applied.
  assert (forall l v, good_ui l v -> good_ui l (setPollCount v (S (pollCount v)))) as Hcount.
  { intros l v H. eapply good_ui_keep; [exact H|done|by left]. }
  destruct r as [r|]; [|by split; [apply Hcount|]]. destruct (ok r); cbn [negb].
  - destruct (poll_payload_good now iso (json_or_empty r) log u Hg Hs). by split; [apply Hcount|].
  - destruct (status r =? 404); (split; [apply Hcount|done]); [|done].
    eapply good_ui_keep; [exact Hg|done|by right].
Qed.

Lemma start_end_good now now' r log u :
  good_ui log u ->
  good_ui log (start_end date_parse now now' r u) /\ busy (start_end date_parse now now' r u) = false.
Proof.
  intros Hg. split; [|done]. unfold start_end.
  destruct (init_answer date_parse now r) as [[[session code] t]|message] eqn:E.
  - constructor; try done. cbn. intros _. unfold init_answer in E. destruct r as [r|]; [|done].
    destruct (negb (ok r)); [by destruct (parseApiError _ _)|].
    destruct (field _ "pair_session_id") as [s1|]; [|done].
    destruct (field _ "pair_code") as [c1|]; [|done]. destruct (field _ "expires_at"); [|done].
    cbn [res_bind] in E. destruct (truthy_str s1) eqn:E1; [|done]. destruct (truthy_str c1) eqn:E2; [|done].
    injection E as <- <- _. by split; apply truthy_str_spec.
  - eapply good_ui_keep; [exact Hg|done|by right].
Qed.

Lemma confirm_begin_same u u' c : confirm_begin u = (u', c) ->
  same_session u u' /\ busy u' = busy u /\ step u' = step u
  /\ forall k, c = Some k -> pendingDevice u = Some (cf_device k) /\ cf_token k = pairToken u
       /\ pairToken u <> "" /\ cf_session k = pairSessionId u
       /\ trim (deviceNameInput u) = deviceName (cf_device k)
       /\ toUpperCase (trim (deviceIdSuffixInput u)) = toUpperCase (deviceIdSuffix (cf_device k)).
Proof.
  unfold confirm_begin. destruct (pendingDevice u) as [d|] eqn:Ed; [|by intros [= <- <-]].
  destruct (_ === deviceName d) eqn:E1; [|by intros [= <- <-]]. cbn [negb].
  destruct (_ === toUpperCase (deviceIdSuffix d)) eqn:E2; [|by intros [= <- <-]]. cbn [negb].
  destruct (truthy_str (pairToken u)) eqn:E3; cbn; rewrite E3; [|by intros [= <- <-]].
  intros [= <- <-]. split_and!; try done. intros k [= <-].
  apply String.eqb_eq in E1, E2. apply truthy_str_spec in E3. by split_and!.
Qed.

Lemma polls_ok_less l1 x l2 m n cs log ds :
  polls_ok m -> polls m = l1 ++ x :: l2 -> polls_ok (settle (l1 ++ l2) n cs log ds m).
Proof.
  intros Hp E i session Hin. cbn [polls settle effect mounted ui] in *. apply Hp. rewrite E.
  apply elem_of_app in Hin as [Hin|Hin]; apply elem_of_app; [by left|by right; right].
Qed.

Lemma log_ok_told l n log m :
  log_ok m -> log_ok (settle l n (confirms m) (log ++ told m) (notified m) m).
Proof.
  intros [H1 H2 H3]. constructor; cbn [settle sent confirms told notified].
  - intros r Hr Hu. destruct (H1 r Hr Hu) as (c & -> & Hc). exists c. split; [done|by apply confirm_ok_mono].
  - intros c Hc. destruct (H2 c Hc). split; [by apply confirm_ok_mono|done].
  - intros d Hd. destruct (H3 d Hd) as (c & ? & ? & ?). exists c. split_and!; [done|by apply confirm_ok_mono|done].
Qed.

Lemma poll_live_coherent m session now iso r l1 l2 :
  coherent m -> polls m = l1 ++ (effect m, session) :: l2 -> mounted m = true ->
  coherent (commit (poll_end date_parse now iso r (ui m))
    (settle (l1 ++ l2) (inits m) (confirms m) (map (pair session) (applied r) ++ told m) (notified m) m)).
Proof.
  intros Hc E Hm. destruct (co_polls m Hc (effect m) session) as [_ [-> Hpoll]];
    [by rewrite E; apply elem_of_app; right; left|done|done|].
  assert (pending_step (step (ui m)) = true) as Hs.
  { unfold polling in Hpoll. by apply andb_true_iff in Hpoll as [_ ?]. }
  destruct (no_start_in_flight m Hc Hm) as [Hi Hb]; [right; by destruct (step (ui m))|].
  destruct Hc as [Hg Hf Hp Hl]. destruct (poll_end_good now iso r (told m) (ui m) Hg Hs) as [Hgood Hbusy].
  apply commit_coherent; cbn [settle told ui mounted inits].
  - by apply good_ui_mono.
  - by eapply polls_ok_less.
  - by apply log_ok_told.
  - intros _. split; [done|]. rewrite Hi. apply idle_flight. congruence.
Qed.

Lemma confirm_answer_coherent m c r l1 l2 :
  coherent m -> confirms m = l1 ++ c :: l2 ->
  coherent (commit (confirm_end r (ui m))
    (settle (polls m) (inits m) (l1 ++ l2) (told m)
      (match confirm_answer r with None => cf_device c :: notified m | Some _ => notified m end) m)).
Proof.
  intros [Hg Hf Hp [H1 H2 H3]] E. apply commit_coherent; cbn [settle told ui mounted inits]; try done.
  - constructor; cbn [settle sent confirms told notified]; [done| |].
    + intros k Hk. apply H2. rewrite E. apply elem_of_app in Hk as [Hk|Hk]; apply elem_of_app; [by left|by right; right].
    + intros d Hd. destruct (confirm_answer r); [by apply H3|].
      apply elem_of_cons in Hd as [->|Hd]; [|by apply H3]. exists c.
      destruct (H2 c); [rewrite E; apply elem_of_app; right; left|done].
  - intros Hm. specialize (Hf Hm). unfold confirm_end. destruct (confirm_answer r); split.
    + eapply good_ui_keep; [exact Hg|done|by left].
    + exact Hf.
    + eapply good_ui_keep; [exact Hg|done|by right].
    + destruct Hf as [F1 F2]. split; [intros Hn|exact F2]. destruct (F1 Hn) as (? & ? & _). split_and!; auto.
Qed.

Lemma confirm_coherent m u c :
  coherent m -> confirm_begin (ui m) = (u, c) -> mounted m = true ->
  coherent (match c with Some c => send_confirm c | None => id end (commit u m)).
Proof.
  intros Hc E Hm. destruct (confirm_begin_same _ _ _ E) as (Hs & Hb & Hst & Hk).
  pose proof (commit_keeps u m Hc Hs Hb Hst) as Hcc. destruct c as [k|]; [|done].
  destruct (Hk k eq_refl) as (Hd & Ht & Hne & Hsess & _). destruct (co_ui m Hc) as [G1 G2 _ _].
  assert (confirm_ok (told (commit u m)) k) as Hok.
  { destruct (commit_rest u m) as (-> & _). unfold confirm_ok. rewrite Ht, Hsess.
    split_and!; [done|by apply G1|by apply G2]. }
  destruct Hcc as [Hg Hf Hp [H1 H2 H3]]. constructor; [done..|].
  constructor; cbn [send_confirm sent confirms told notified].
  - intros r [->|Hr]%elem_of_cons Hu; [by exists k|by apply H1].
  - intros c [->|Hin]%elem_of_cons; [split; [done|left]|]. destruct (H2 c Hin). split; [done|by right].
  - intros d Hin. destruct (H3 d Hin) as (c & ? & ? & ?). exists c. split_and!; [done..|by right].
Qed.

Lemma fires_coherent e m m' : coherent m -> fires e m m' -> coherent m'.
Proof.
  intros Hc Hf. destruct Hf as [m Hm Hs Hb|m Hm Hr|m u c Hm _ E|m text Hm Hs|m text Hm Hs _|m now Hm Ht
    |m Hm Hp|m now now' r n Hi|m session now iso r l1 l2 E Hm|m i session now iso r l1 l2 E Hx|m c r l1 l2 E|m Hm].
  - destruct (no_start_in_flight m Hc Hm) as [Hi _]; [by left|]. destruct Hc as [Hg Hf Hp Hl].
    apply send_init_coherent; try done. eapply good_ui_keep; [exact Hg|done|by left].
  - destruct (no_start_in_flight m Hc Hm) as [Hi _].
    { right. unfold can_restart in Hr. by destruct (step (ui m)). }
    destruct Hc as [Hg Hf Hp Hl]. by apply send_init_coherent.
  - by apply confirm_coherent.
  - by apply commit_keeps.
  - by apply commit_keeps.
  - destruct (no_start_in_flight m Hc Hm) as [Hi Hb].
    { right. unfold ticking in Ht. by destruct (step (ui m)). }
    destruct Hc as [Hg Hf Hp Hl]. apply commit_coherent; try done. intros _. rewrite Hi. unfold tick.
    destruct (_ <=? 0); (split; [eapply good_ui_keep; [exact Hg|done|by (left + right)]|by apply idle_flight]).
  - destruct Hc as [Hg Hf Hpo Hl]. constructor; try done.
    + intros i session. cbn [send_poll polls effect mounted ui].
      intros [[= -> ->]|Hin]%elem_of_cons; [done|by apply Hpo].
    + eapply log_ok_send; [exact Hl|reflexivity..|discriminate].
  - destruct Hc as [Hg Hf Hp Hl]. destruct (start_end_good now now' r (told m) (ui m) Hg) as [Hgood Hbusy].
    apply commit_coherent; cbn [settle told ui mounted inits]; try done.
    { by destruct Hl; constructor. }
    intros Hm. split; [done|]. destruct (Hf Hm) as [F1 _]. destruct F1 as [F1 _]; [lia|].
    assert (n = 0%nat) as -> by lia. by apply idle_flight.
  - by apply poll_live_coherent.
  - destruct Hc as [Hg Hf Hp Hl]. constructor; [done|done|by eapply polls_ok_less|by destruct Hl; constructor].
  - by apply confirm_answer_coherent.
  - destruct Hc as [Hg Hf Hp Hl]. constructor; [done|done| |by destruct Hl; constructor].
    intros i session Hin. destruct (Hp i session Hin). cbn [effect mounted]. split; [lia|done].
Qed.

Lemma reachable_coherent m : reachable m -> coherent m.
Proof.
  induction 1 as [|e m m' _ IH Hf]; [|by eapply fires_coherent].
  constructor; [by constructor| | |].
  - intros _. by apply idle_flight.
  - intros i session Hin. by apply elem_of_nil in Hin.
  - by constructor; intros ? H%elem_of_nil.
Qed.

(** ** What the modal promises *)

(** [C11] Only the device on display is confirmed: whatever the user does
    and however answers are delayed, lost or out of order, every
    confirmation sent carries a token that its own session told, for a
    device the same session told; it is sent by a click with the name and
    the suffix of that device typed in; and only such devices are reported
    as paired. *)
Theorem pairing_confirms_shown (m : Machine) :
  reachable m ->
  (forall r, r ∈ sent m -> f_url r = "/api/pair/confirm" ->
     exists c, r = confirm_request c /\ confirm_ok (told m) c)
  /\ (forall d, d ∈ notified m ->
     exists c, cf_device c = d /\ confirm_ok (told m) c /\ confirm_request c ∈ sent m)
  /\ (forall e m' c, fires e m m' -> confirms m' = c :: confirms m ->
     e = ClickConfirm /\ pendingDevice (ui m) = Some (cf_device c)
     /\ cf_session c = pairSessionId (ui m) /\ cf_token c = pairToken (ui m)
     /\ trim (deviceNameInput (ui m)) = deviceName (cf_device c)
     /\ toUpperCase (trim (deviceIdSuffixInput (ui m))) = toUpperCase (deviceIdSuffix (cf_device c))).
Proof.
  intros Hr. destruct (reachable_coherent m Hr) as [_ _ _ [H1 _ H3]]. split_and!; [done..|].
  intros e m' c Hf Hc. assert (forall l : list Confirm, l <> c :: l) as Hself by (by induction l; congruence).
  destruct Hf as [| |m u k Hm _ E| | | | | | | |m k r l1 l2 E|]; cbn in Hc;
    rewrite ?(proj1 (proj2 (proj2 (proj2 (commit_rest _ _))))) in Hc; cbn in Hc; try (by destruct (Hself _ Hc)).
  - destruct (confirm_begin_same _ _ _ E) as (_ & _ & _ & Hk). destruct k as [k|]; cbn in Hc;
      rewrite (proj1 (proj2 (proj2 (proj2 (commit_rest _ _))))) in Hc; [|by destruct (Hself _ Hc)].
    injection Hc as ->. destruct (Hk c eq_refl) as (? & ? & ? & ? & ? & ?). by split_and!.
  - rewrite E in Hc. apply (f_equal length) in Hc. rewrite !length_app in Hc. cbn in Hc.
    rewrite length_app in Hc. cbn in Hc. lia.
Qed.

Lemma told_device_shape log session d :
  told_device log session d ->
  trim (deviceName d) = deviceName d /\ deviceName d <> ""
  /\ toUpperCase (deviceIdSuffix d) = deviceIdSuffix d.
Proof.
  intros (payload & iso & _ & H). unfold toPendingDevice, field in H.
  destruct (member_str payload "device_id" "") as [id|]; [|done].
  destruct (member_str payload "device_name" "") as [name|]; [|done]. cbn [res_bind] in H.
  destruct (truthy_str (trim id)); [|done]. destruct (truthy_str (trim name)) eqn:E; [|done].
  destruct (member_str payload "device_id_suffix" "") as [sfx|]; [|done].
  cbn [negb orb res_bind] in H. destruct (str_or _ iso); [|done]. injection H as <-. cbn.
  split_and!; [apply trim_idem|by apply truthy_str_spec|apply toUpperCase_idem].
Qed.

(** A confirmation goes out when the fields hold what is shown. *)
Lemma confirm_begin_match u d :
  pendingDevice u = Some d -> pairToken u <> "" -> trim (deviceNameInput u) = deviceName d ->
  toUpperCase (trim (deviceIdSuffixInput u)) = toUpperCase (deviceIdSuffix d) ->
  confirm_begin u = (setConfirming (setConfirmError u "") true,
    Some {| cf_token := pairToken u; cf_session := pairSessionId u; cf_device := d |}).
Proof.
  intros Hd Ht Hn Hs. unfold confirm_begin. rewrite Hd. cbn [setConfirmError deviceNameInput deviceIdSuffixInput pairToken].
  rewrite Hn, Hs, !String.eqb_refl. apply truthy_str_spec in Ht. by rewrite Ht.
Qed.

Lemma commit_ui u m : mounted m = true -> ui (commit u m) = u.
Proof. intros Hm. destruct (commit_rest u m) as (_ & _ & _ & _ & _ & ->). by rewrite Hm. Qed.

Lemma commit_mounted u m : mounted (commit u m) = mounted m.
Proof. apply commit_rest. Qed.

Lemma commit_confirms u m : confirms (commit u m) = confirms m.
Proof. apply commit_rest. Qed.

Lemma confirm_as_shown m d :
  mounted m = true -> step (ui m) = pending_confirmation -> pendingDevice (ui m) = Some d ->
  confirming (ui m) = false -> pairToken (ui m) <> "" ->
  String.length (deviceIdSuffix d) = 6%nat -> trim (deviceIdSuffix d) = deviceIdSuffix d ->
  trim (deviceName d) = deviceName d -> deviceName d <> "" ->
  toUpperCase (deviceIdSuffix d) = deviceIdSuffix d ->
  exists m1 m2 m3, fires (TypeName (deviceName d)) m m1 /\ fires (TypeSuffix (deviceIdSuffix d)) m1 m2
    /\ fires ClickConfirm m2 m3
    /\ confirms m3 = {| cf_token := pairToken (ui m); cf_session := pairSessionId (ui m);
                        cf_device := d |} :: confirms m.
Proof.
  intros Hm Hs Hd Hc Ht Hlen Htrim Hn Hne Hup.
  set (u1 := setConfirmError (setInputs (ui m) (deviceName d) (deviceIdSuffixInput (ui m))) "").
  set (u2 := setConfirmError (setInputs u1 (deviceName d) (deviceIdSuffix d)) "").
  exists (commit u1 m), (commit u2 (commit u1 m)). eexists. split_and!.
  - by apply fires_name.
  - assert (u2 = setConfirmError (setInputs (ui (commit u1 m)) (deviceNameInput (ui (commit u1 m)))
      (toUpperCase (deviceIdSuffix d))) "") as -> by (by rewrite commit_ui, Hup).
    apply fires_suffix; rewrite ?commit_mounted, ?commit_ui by done; try done. lia.
  - apply fires_confirm; rewrite ?commit_mounted; [done| |].
    + rewrite commit_ui by (by rewrite commit_mounted). unfold can_confirm. cbn. rewrite Hs, Hd, Hc, Hlen.
      apply truthy_str_spec in Hne. by rewrite Hne.
    + rewrite commit_ui by (by rewrite commit_mounted). apply confirm_begin_match; try done.
      change (deviceIdSuffixInput u2) with (deviceIdSuffix d). by rewrite Htrim.
  - cbn. by rewrite !commit_confirms.
Qed.

(** [C37] The modal always has a way on: a step that asks for a confirmation
    has a device to show, a pending step has a session and a code, at most
    one start is in flight and the start button is off meanwhile.  Once the
    token is there, typing the name and the six characters as shown and
    clicking sends the confirmation of that device. *)
Theorem pairing_can_be_confirmed (m : Machine) :
  reachable m -> mounted m = true ->
  (step (ui m) = paired \/ shows_something (ui m) = true)
  /\ (pending_step (step (ui m)) = true -> pairSessionId (ui m) <> "" /\ pairCode (ui m) <> "")
  /\ (inits m <= 1)%nat /\ (busy (ui m) = true <-> inits m = 1%nat)
  /\ forall d, step (ui m) = pending_confirmation -> pendingDevice (ui m) = Some d ->
       confirming (ui m) = false -> pairToken (ui m) <> "" ->
       String.length (deviceIdSuffix d) = 6%nat -> trim (deviceIdSuffix d) = deviceIdSuffix d ->
       exists m1 m2 m3, fires (TypeName (deviceName d)) m m1 /\ fires (TypeSuffix (deviceIdSuffix d)) m1 m2
         /\ fires ClickConfirm m2 m3
         /\ confirms m3 = {| cf_token := pairToken (ui m); cf_session := pairSessionId (ui m);
                             cf_device := d |} :: confirms m.
Proof.
  intros Hr Hm. destruct (reachable_coherent m Hr) as [[G1 G2 G3 G4] Hf _ _]. destruct (Hf Hm) as [F1 F2].
  assert (inits m <= 1)%nat as Hi by (destruct (inits m) as [|n]; [lia|destruct F1; lia]).
  split_and!; [| |done| |].
  - unfold shows_something. destruct (step (ui m)); auto. right.
    destruct (pendingDevice (ui m)); [done|by destruct G3].
  - done.
  - split; [intros Hb%F2; lia|]. intros E. destruct F1 as (_ & Hb & _); [lia|done].
  - intros d Hs Hd Hc Ht Hlen Htrim. destruct (told_device_shape _ _ _ (G2 d Hd)) as (Hn & Hne & Hup).
    by apply confirm_as_shown.
Qed.
End Machine.

(** ** Demonstrations *)

Module PairingDemo.

Definition json_reply (o : obj) : option FetchResponse :=
  Some {| status := 200; resp_headers := ∅; resp_body := Some (json_text o) |}.

Definition started : option FetchResponse :=
  json_reply [("pair_session_id", JStr "s-1"); ("pair_code", JStr "123456")].
Definition detected : option FetchResponse :=
  json_reply [("status", JStr "pending_confirmation"); ("pair_token", JStr "tok-1");
              ("device_id", JStr "dev-abc123"); ("device_name", JStr "Laptop")].
Definition restarted : option FetchResponse :=
  json_reply [("pair_session_id", JStr "s-2"); ("pair_code", JStr "654321")].
Definition done_reply : option FetchResponse := json_reply [("status", JStr "paired")].

Definition no_date (_ : string) : option Z := None.

(** A click, the session, and the agent found. *)
Definition clicked : Machine := send_init (commit (start_begin (ui start)) start).

Definition waiting : Machine :=
  commit (start_end no_date 1000 1000 started (ui clicked))
    (settle (polls clicked) 0 (confirms clicked) (told clicked) (notified clicked) clicked).

Definition asked : Machine :=
  commit (poll_end no_date 2000 "" detected (ui waiting))
    (settle ([] ++ []) (inits waiting) (confirms waiting)
      (map (pair "s-1") (applied detected) ++ told waiting) (notified waiting) waiting).

Lemma waiting_reachable : reachable no_date waiting.
Proof.
  apply (reachable_step _ (InitAnswer 1000 1000 started) clicked).
  - apply (reachable_step _ ClickStart start); [apply reachable_start|by apply fires_start].
  - by apply fires_init_answer.
Qed.

Lemma asked_reachable : reachable no_date asked.
Proof.
  apply (reachable_step _ (PollAnswer (effect waiting) "s-1" 2000 "" detected) waiting);
    [apply waiting_reachable|]. apply fires_poll_live; vm_compute; reflexivity.
Qed.

Definition laptop : PendingDevice :=
  {| deviceId := "dev-abc123"; deviceName := "Laptop"; deviceIdSuffix := "ABC123"; detectedAt := "" |}.

Lemma pairing_can_be_confirmed_witness :
  mounted asked = true /\ exists m1 m2 m3,
    fires no_date (TypeName "Laptop") asked m1 /\ fires no_date (TypeSuffix "ABC123") m1 m2
    /\ fires no_date ClickConfirm m2 m3
    /\ confirms m3 = [{| cf_token := "tok-1"; cf_session := "s-1"; cf_device := laptop |}].
Proof.
  assert (mounted asked = true) as Hm by (vm_compute; reflexivity). split; [exact Hm|].
  destruct (pairing_can_be_confirmed no_date asked asked_reachable Hm) as (_ & _ & _ & _ & H).
  assert (pairToken (ui asked) = "tok-1") as Et by (vm_compute; reflexivity).
  assert (pairSessionId (ui asked) = "s-1") as Es by (vm_compute; reflexivity).
  assert (confirms asked = []) as Ec by (vm_compute; reflexivity).
  specialize (H laptop). rewrite Et, Es, Ec in H.
  apply H; try (vm_compute; reflexivity). discriminate.
Defined.

(** A session that turns out to be paired before its device was shown leaves
    the modal empty, and nothing is reported. *)
Definition paired_unseen : Machine :=
  commit (poll_end no_date 2000 "" done_reply (ui waiting))
    (settle ([] ++ []) (inits waiting) (confirms waiting)
      (map (pair "s-1") (applied done_reply) ++ told waiting) (notified waiting) waiting).

Lemma paired_modal_empty :
  reachable no_date paired_unseen
  /\ step (ui paired_unseen) = paired /\ shows_something (ui paired_unseen) = false
  /\ notified paired_unseen = [].
Proof.
  split; [|vm_compute; done].
  apply (reachable_step _ (PollAnswer (effect waiting) "s-1" 2000 "" done_reply) waiting);
    [apply waiting_reachable|]. apply fires_poll_live; vm_compute; reflexivity.
Qed.

(** A confirmation answered after 'Reject & Restart' ends the new session:
    the modal is empty and polls no more. *)
Definition named : Machine :=
  commit (setConfirmError (setInputs (ui asked) "Laptop" (deviceIdSuffixInput (ui asked))) "") asked.
Definition typed : Machine :=
  commit (setConfirmError (setInputs (ui named) (deviceNameInput (ui named)) (toUpperCase "ABC123")) "") named.
Definition the_confirm : Confirm := {| cf_token := "tok-1"; cf_session := "s-1"; cf_device := laptop |}.
Definition confirmed : Machine :=
  send_confirm the_confirm (commit (confirm_begin (ui typed)).1 typed).
Definition rejected : Machine := send_init (commit (start_begin resetState) confirmed).
Definition renewed : Machine :=
  commit (start_end no_date 3000 3000 restarted (ui rejected))
    (settle (polls rejected) 0 (confirms rejected) (told rejected) (notified rejected) rejected).
Definition hijacked : Machine :=
  commit (confirm_end done_reply (ui renewed))
    (settle (polls renewed) (inits renewed) ([] ++ []) (told renewed)
      (match confirm_answer done_reply with None => laptop :: notified renewed | Some _ => notified renewed end)
      renewed).

Lemma confirmed_reachable : reachable no_date confirmed.
Proof.
  apply (reachable_step _ ClickConfirm typed).
  2:{ apply (fires_confirm _ typed (confirm_begin (ui typed)).1 (Some the_confirm)); vm_compute; reflexivity. }
  apply (reachable_step _ (TypeSuffix "ABC123") named).
  2:{ apply fires_suffix; vm_compute; [reflexivity..|lia]. }
  apply (reachable_step _ (TypeName "Laptop") asked); [apply asked_reachable|].
  apply fires_name; vm_compute; reflexivity.
Qed.

Lemma pairing_confirms_shown_witness :
  confirm_request the_confirm ∈ sent confirmed
  /\ exists c, confirm_request the_confirm = confirm_request c /\ confirm_ok (told confirmed) c.
Proof.
  assert (confirm_request the_confirm ∈ sent confirmed) as Hs by (vm_compute; apply list_elem_of_here).
  split; [exact Hs|].
  destruct (pairing_confirms_shown no_date confirmed confirmed_reachable) as (H & _).
  exact (H _ Hs eq_refl).
Defined.

Lemma late_confirmation_ends_new_session :
  reachable no_date hijacked
  /\ step (ui renewed) = pending_agent /\ pairSessionId (ui renewed) = "s-2" /\ polling (ui renewed) = true
  /\ pairSessionId (ui hijacked) = "s-2" /\ step (ui hijacked) = paired
  /\ shows_something (ui hijacked) = false /\ polling (ui hijacked) = false.
Proof.
  split; [|vm_compute; done].
  apply (reachable_step _ (ConfirmAnswer the_confirm done_reply) renewed).
  2:{ apply (fires_confirm_answer _ renewed the_confirm done_reply [] []). vm_compute. reflexivity. }
  apply (reachable_step _ (InitAnswer 3000 3000 restarted) rejected).
  2:{ apply fires_init_answer. vm_compute. reflexivity. }
  apply (reachable_step _ ClickRestart confirmed); [apply confirmed_reachable|].
  apply fires_restart; vm_compute; reflexivity.
Qed.

End PairingDemo.
