(* ===== verification/Explorer.v ===== *)
(** * The file explorer of a command result

    Models FileExplorerSection and the helpers above it in
    src/components/results/CommandResultPresentation.tsx: paths, the entries
    and the folder they stand in, the tree and the listing, navigation with
    its history, and the loading of folders that the snapshot left out.

    [locale_base] is the negative result of localeCompare with base
    sensitivity, [locale_plain] the one without options. *)

From stdpp Require Import gmap sorting.
From S2P Require Import Prelude JsNumber JsString JsValue Http Session Commands RenderModel Renderer RenderLaws Client.

Local Open Scope Z_scope.

(** ** Paths *)

Definition normalizeExplorerPath (value : string) : string :=
  let raw := trim value in
  if negb (truthy_str raw) then "/"
  else or_str (strip_end (Ascii.eqb "/") (replace_runs is_separator "/" false raw)) "/".

Definition explorerParentPath (path : string) : option string :=
  let normalized := normalizeExplorerPath path in
  if normalized === "/" then None
  else
    let parts := path_parts normalized in
    if (length parts <=? 1)%nat then None else Some (join "/" (removelast parts)).

Definition kib : num := Num.of_Z 1024.

Definition formatBytes (value : option num) : string :=
  match value with
  | None => "-"
  | Some v =>
      if negb (Num.is_finite v) then "-"
      else if Num.lt v kib then Num.to_string v +:+ " B"
      else if Num.lt v (Num.of_Z (1024 * 1024)) then Num.to_fixed 1 (Num.div v kib) +:+ " KB"
      else if Num.lt v (Num.of_Z (1024 * 1024 * 1024)) then
        Num.to_fixed 1 (Num.div v (Num.of_Z (1024 * 1024))) +:+ " MB"
      else Num.to_fixed 2 (Num.div v (Num.of_Z (1024 * 1024 * 1024))) +:+ " GB"
  end.

Definition toWindowsPath (path : string) : string :=
  let normalized := normalizeExplorerPath path in
  if normalized === "/" then String backslash ""
  else smap (fun c => if Ascii.eqb c "/" then backslash else c) normalized.

(** ** Entries *)

Definition with_paths (path : string) (parent : option string) (e : ResultFilesystemEntry)
    : ResultFilesystemEntry :=
  {| e_name := e_name e; e_path := path; e_type := e_type e; e_parentPath := parent; e_size := e_size e;
     e_extension := e_extension e; e_modifiedAt := e_modifiedAt e; e_createdAt := e_createdAt e;
     e_isHidden := e_isHidden e; e_isSystem := e_isSystem e; e_isSymlink := e_isSymlink e;
     e_targetPath := e_targetPath e; e_downloadable := e_downloadable e;
     e_downloadMethod := e_downloadMethod e |}.

Definition normalizeExplorerEntries (entries : list ResultFilesystemEntry) : list ResultFilesystemEntry :=
  List.filter (fun e => e_path e !== "/")
    (map (fun e => with_paths (normalizeExplorerPath (e_path e))
                     (or_else (fun p => Some (normalizeExplorerPath p)) (e_parentPath e)
                        (explorerParentPath (e_path e))) e) entries).

Definition usersCandidatePath (rootPath : string) (initialEntries : list ResultFilesystemEntry) : string :=
  let wanted := toLowerCase (rootPath +:+ "/Users") in
  match List.find (fun e => toLowerCase (e_path e) === wanted) initialEntries with
  | Some candidate => e_path candidate
  | None => rootPath
  end.

Section Entries.
Context (rootPath : string) (entries : list ResultFilesystemEntry).

(** The folder an entry stands in. *)
Definition parent_key (e : ResultFilesystemEntry) : string :=
  normalizeExplorerPath (e_parentPath e ?? rootPath).

(** [childrenByParent.get(path) ?? []]: the Map groups the entries in their
    order. *)
Definition children (path : string) : list ResultFilesystemEntry :=
  List.filter (fun e => parent_key e === path) entries.

Definition isDirectoryLike (e : ResultFilesystemEntry) : bool :=
  is_directory e || existsb (fun c => parent_key c === e_path e) entries.

(** *** The listing *)

Inductive SortBy := by_name | by_modifiedAt | by_size | by_type.
Inductive SortDirection := asc | desc.

Record View := {
  search : string; sortBy : SortBy; sortDirection : SortDirection; showHidden : bool; showSystem : bool;
}.

Definition shown_by_flags (v : View) (e : ResultFilesystemEntry) : bool :=
  (showHidden v || negb (e_isHidden e)) && (showSystem v || negb (e_isSystem e)).

Definition matches (v : View) (e : ResultFilesystemEntry) : bool :=
  let lowered := toLowerCase (trim (search v)) in
  if negb (shown_by_flags v e) then false
  else if negb (truthy_str lowered) then true
  else includes (toLowerCase (e_name e)) lowered || includes (toLowerCase (e_path e)) lowered
       || includes (toLowerCase (e_extension e ?? "")) lowered.

Definition type_str (t : EntryType) : string :=
  match t with e_file => "file" | e_directory => "directory" | e_other => "other" end.

Context (locale_base locale_plain : string -> string -> bool).

(** [cmp < 0]; the sign of a difference of sizes is their order. *)
Definition column_before (s : SortBy) (a b : ResultFilesystemEntry) : bool :=
  match s with
  | by_name => locale_base (e_name a) (e_name b)
  | by_type => locale_base (e_extension a ?? type_str (e_type a)) (e_extension b ?? type_str (e_type b))
  | by_size => Num.lt (e_size a ?? Num.of_Z (-1)) (e_size b ?? Num.of_Z (-1))
  | by_modifiedAt => locale_plain (e_modifiedAt a ?? "") (e_modifiedAt b ?? "")
  end.

Definition listed_before (v : View) (a b : ResultFilesystemEntry) : bool :=
  if Bool.eqb (isDirectoryLike a) (isDirectoryLike b) then
    match sortDirection v with
    | asc => column_before (sortBy v) a b
    | desc => column_before (sortBy v) b a
    end
  else isDirectoryLike a.

Definition visibleCurrentChildren (v : View) (currentPath : string) : list ResultFilesystemEntry :=
  stable_sort (listed_before v) (List.filter (matches v) (children (normalizeExplorerPath currentPath))).

(** [nextSort[(nextSort.indexOf(sortBy) + 1) % 4]] *)
Definition next_sort (s : SortBy) : SortBy :=
  match s with
  | by_name => by_modifiedAt | by_modifiedAt => by_size | by_size => by_type | by_type => by_name
  end.

Definition selectedEntry (selectedPath : option string) : option ResultFilesystemEntry :=
  match selectedPath with
  | Some p => if truthy_str p then List.find (fun e => e_path e === p) entries else None
  | None => None
  end.

(** *** The tree *)

Inductive Tree := Node (path displayName : string) (expanded current toggle : bool) (below : list Tree).

(** The recursion follows the expanded folders; it runs on fuel. *)
Fixpoint renderTree (fuel : nat) (v : View) (expandedPaths : list string) (currentPath path : string)
    : option Tree :=
  match fuel with
  | O => None
  | S fuel =>
      let visibleChildren := List.filter (shown_by_flags v) (List.filter isDirectoryLike (children path)) in
      let isExpanded := existsb (String.eqb path) expandedPaths in
      let displayName := if path === rootPath then rootPath else List.last (split "/" path) "" in
      below ← (if isExpanded then
                 mapM (fun child => renderTree fuel v expandedPaths currentPath (e_path child)) visibleChildren
               else Some []);
      Some (Node path (or_str displayName "/") isExpanded
              (normalizeExplorerPath path === normalizeExplorerPath currentPath)
              (negb (length visibleChildren =? 0)%nat) below)
  end.
End Entries.

Definition breadcrumbs (currentPath : string) : list string :=
  let normalized := normalizeExplorerPath currentPath in
  if normalized === "/" then ["/"]
  else
    let parts := path_parts normalized in
    map (fun index => join "/" (take (S index) parts)) (seq 0 (length parts)).

(** ** Navigation *)

Record Nav := {
  currentPath : string;
  selectedPath : option string;
  backStack : list string;
  forwardStack : list string;
  expandedPaths : list string;
}.

(** A Set: [add] keeps what is there. *)
Definition set_add (x : string) (l : list string) : list string :=
  if existsb (String.eqb x) l then l else l ++ [x].

Definition nav_boot (rootPath candidate : string) : Nav :=
  {| currentPath := candidate; selectedPath := None;
     backStack := if candidate !== rootPath then [rootPath] else [];
     forwardStack := []; expandedPaths := set_add candidate [rootPath] |}.

Definition navigateTo (nextPath : string) (s : Nav) : Nav :=
  let normalized := normalizeExplorerPath nextPath in
  if normalized === currentPath s then s
  else {| currentPath := normalized; selectedPath := None; backStack := backStack s ++ [currentPath s];
          forwardStack := []; expandedPaths := set_add normalized (expandedPaths s) |}.

Definition goBack (s : Nav) : Nav :=
  match backStack s !! pred (length (backStack s)) with
  | None => s
  | Some previous =>
      {| currentPath := previous; selectedPath := None; backStack := removelast (backStack s);
         forwardStack := forwardStack s ++ [currentPath s]; expandedPaths := expandedPaths s |}
  end.

Definition goForward (s : Nav) : Nav :=
  match forwardStack s !! pred (length (forwardStack s)) with
  | None => s
  | Some next =>
      {| currentPath := next; selectedPath := None; backStack := backStack s ++ [currentPath s];
         forwardStack := removelast (forwardStack s); expandedPaths := expandedPaths s |}
  end.

Definition goUp (s : Nav) : Nav :=
  match explorerParentPath (currentPath s) with
  | Some parent => if truthy_str parent then navigateTo parent s else s
  | None => s
  end.

Definition select (path : string) (s : Nav) : Nav :=
  {| currentPath := currentPath s; selectedPath := Some path; backStack := backStack s;
     forwardStack := forwardStack s; expandedPaths := expandedPaths s |}.

Definition toggleExpanded (path : string) (s : Nav) : Nav :=
  {| currentPath := currentPath s; selectedPath := selectedPath s; backStack := backStack s;
     forwardStack := forwardStack s;
     expandedPaths := if existsb (String.eqb path) (expandedPaths s)
                      then List.filter (fun p => p !== path) (expandedPaths s)
                      else expandedPaths s ++ [path] |}.

(** ** Loading a folder *)

Definition LAZY_ATTEMPT_TTL_MS : Z := 300000.

(** The module's state, shared by all explorers. *)
Record LazyGate := { lazyAttemptGate : gmap string Z; lazyBlockedPaths : gset string }.

(** An explorer's own part: the folder being loaded, the error, and the
    folders attempted and loaded since it booted. *)
Record Hydration := {
  hydratingPath : option string;
  hydrationError : option string;
  attemptedPaths : gset string;
  hydratedPaths : gset string;
}.

(** The folders that have an entry in the snapshot count as loaded. *)
Definition hydration_boot (initialEntries : list ResultFilesystemEntry) : Hydration :=
  let materialized := list_to_set (omap (fun e => or_else (fun p => Some (normalizeExplorerPath p))
                                                    (e_parentPath e) None) initialEntries) in
  {| hydratingPath := None; hydrationError := None; attemptedPaths := materialized;
     hydratedPaths := materialized |}.

Definition attempt_key (deviceId path : string) : string := deviceId +:+ ":" +:+ normalizeExplorerPath path.

(** [typeof last === 'number' && Date.now() - last < TTL] *)
Definition recent_attempt (g : LazyGate) (key : string) (now : Z) : bool :=
  match lazyAttemptGate g !! key with
  | Some lastAttempt => now - lastAttempt <? LAZY_ATTEMPT_TTL_MS
  | None => false
  end.

(** [hydratePath] up to its first request: what it leaves of the gate, and
    the explorer's new state when it goes on.  The clock is read twice: at
    [now] for the age of the last attempt, at [later] to note this one. *)
Definition hydrate_begin (partial force : bool) (deviceId path : string) (now later : Z) (g : LazyGate)
    (h : Hydration) : LazyGate * option Hydration :=
  let normalizedPath := normalizeExplorerPath path in
  let key := attempt_key deviceId path in
  let g := if force then {| lazyAttemptGate := lazyAttemptGate g;
                            lazyBlockedPaths := lazyBlockedPaths g ∖ {[key]} |} else g in
  if negb partial then (g, None)
  else if bool_decide (hydratingPath h = Some normalizedPath) then (g, None)
  else if negb force && bool_decide (key ∈ lazyBlockedPaths g) then (g, None)
  else if negb force && bool_decide (normalizedPath ∈ attemptedPaths h) then (g, None)
  else if negb force && recent_attempt g key now then (g, None)
  else if bool_decide (normalizedPath ∈ hydratedPaths h) then (g, None)
  else
    ({| lazyAttemptGate := <[key := later]> (lazyAttemptGate g); lazyBlockedPaths := lazyBlockedPaths g |},
     Some {| hydratingPath := Some normalizedPath; hydrationError := None;
             attemptedPaths := {[normalizedPath]} ∪ attemptedPaths h; hydratedPaths := hydratedPaths h |}).

(** *** The requests *)

Definition list_files_params (path : string) : obj :=
  [("path", JStr path); ("recursive", JBool false); ("max_depth", JNum (Num.of_Z 1));
   ("limit", JNum (Num.of_Z 200)); ("include_hidden", JBool false); ("include_system", JBool false);
   ("follow_symlinks", JBool false)].

Definition browse_request (uuid deviceId path : string) : FetchRequest :=
  {| f_method := "POST"; f_url := "/api/commands"; f_headers := [json_content];
     f_body := Some (json_text
       [("client_message_id", JStr uuid); ("device_id", JStr deviceId); ("method", JStr "list_files");
        ("params", JObj (list_files_params (toWindowsPath (normalizeExplorerPath path))));
        ("sensitive", JBool false)]) |}.

Definition detail_request (commandId : string) : FetchRequest :=
  get_request ("/api/commands/" +:+ encodeURIComponent commandId).

(** [throw new Error(text || fallback)] with the text of the response. *)
Definition throw_text {A} (r : FetchResponse) (fallback : string) : io A :=
  match resp_body r with
  | Some text => Throw (or_str (trim text) fallback)
  | None => Throw "body unavailable"
  end.

Definition terminal_states : list string := ["completed"; "failed"; "expired"; "rejected"].

Definition timeoutMs : Z := 90000.

(** The polls of a command's detail; [clock i] is the reading before the
    poll [i].  [None] is a loop that has not ended. *)
Fixpoint poll_detail (fuel : nat) (clock : nat -> Z) (i : nat) (startedAt : Z) (commandId : string)
    (detailPayload : option jsval) : io (option (option jsval)) :=
  if negb (clock i - startedAt <? timeoutMs) then Ret (Some detailPayload)
  else match fuel with
       | O => Ret None
       | S fuel =>
           let* r := fetch (detail_request commandId) in
           if negb (ok r) then throw_text r "Failed to load lazy browse command status."
           else
             let* detail := read_json r in
             let* state := lift (member_str detail "state" "") in
             if existsb (String.eqb (toLowerCase (trim state))) terminal_states
             then Ret (Some (Some detail))
             else poll_detail fuel clock (S i) startedAt commandId (Some detail)
       end.

(** Dispatch and polls: the last detail seen. *)
Definition browse (fuel : nat) (clock : nat -> Z) (uuid deviceId path : string) : io (option jsval) :=
  let* r := fetch (browse_request uuid deviceId path) in
  if negb (ok r) then throw_text r "Failed to dispatch lazy folder browse command."
  else
    let* payload := read_json r in
    let* s := lift (member_str payload "command_id" "") in
    let commandId := trim s in
    if negb (truthy_str commandId) then Throw "Missing command_id from lazy browse dispatch response."
    else
      let* detail := poll_detail fuel clock 0 (clock 0%nat) commandId None in
      match detail with
      | None => Ret None
      | Some None => Throw "Lazy browse command returned no detail payload."
      | Some (Some detail) => Ret (Some detail)
      end.

(** *** The result *)

(** [map.set(next.path, existing ? { ...existing, ...next } : next)]: every
    field of an entry is present, so the new entry replaces the old one in
    its place. *)
Definition merge_entry (entries : list ResultFilesystemEntry) (next : ResultFilesystemEntry)
    : list ResultFilesystemEntry :=
  if existsb (fun e => e_path e === e_path next) entries
  then map (fun e => if e_path e === e_path next then next else e) entries
  else entries ++ [next].

(** [new Map(prev.map((entry) => [entry.path, entry]))] and the new ones. *)
Definition merge_entries (prev incoming : list ResultFilesystemEntry) : list ResultFilesystemEntry :=
  fold_left merge_entry incoming (fold_left merge_entry prev []).

Definition hydrate_success (path : string) (incoming : list ResultFilesystemEntry) (h : Hydration) : Hydration :=
  let normalizedPath := normalizeExplorerPath path in
  let parents := omap (fun e => or_else (fun p => Some (normalizeExplorerPath p)) (e_parentPath e) None) incoming in
  {| hydratingPath := if bool_decide (hydratingPath h = Some normalizedPath) then None else hydratingPath h;
     hydrationError := hydrationError h;
     attemptedPaths := attemptedPaths h;
     hydratedPaths := {[normalizedPath]} ∪ list_to_set parents ∪ hydratedPaths h |}.

Definition blocks (message : string) : bool :=
  includes (toLowerCase message) "invalid_params"
  || includes (toLowerCase message) "limit field must not be greater than 1000".

Definition hydrate_failure (deviceId path message : string) (g : LazyGate) (h : Hydration)
    : LazyGate * Hydration :=
  let normalizedPath := normalizeExplorerPath path in
  ({| lazyAttemptGate := lazyAttemptGate g;
      lazyBlockedPaths := if blocks message then {[attempt_key deviceId path]} ∪ lazyBlockedPaths g
                          else lazyBlockedPaths g |},
   {| hydratingPath := if bool_decide (hydratingPath h = Some normalizedPath) then None else hydratingPath h;
      hydrationError := Some message;
      attemptedPaths := attemptedPaths h; hydratedPaths := hydratedPaths h |}).

(** The filesystem section of the merged row's rendering. *)
Definition lazy_filesystem (vm : ResultViewModel) : option ResultFilesystemDefinition :=
  (fix go l := match l with
   | [] => None
   | s :: l => match widget s with w_filesystem f => Some f | _ => go l end
   end) (sections vm).

(** The entries a load adds, from the command's detail. *)
Definition lazy_incoming (locale_before : string -> string -> bool) (url_pathname : string -> option string)
    (baseRow : Results.NormalizedCommandResult) (detail : Results.CommandListRowApi)
    : res (list ResultFilesystemEntry) :=
  let merged := Results.mergeCommandDetail url_pathname baseRow detail in
  let! vm := renderResult locale_before "list_files" merged in
  match lazy_filesystem vm with
  | None => Exn "Lazy browse command did not return filesystem data."
  | Some f => Ok (normalizeExplorerEntries (fs_entries f))
  end.

(** The effect that loads the current folder: no entry is known in it and it
    was not loaded before. *)
Definition auto_hydrates (autoHydrate partial : bool) (rootPath : string)
    (entries : list ResultFilesystemEntry) (current : string) (h : Hydration) : bool :=
  let normalizedCurrent := normalizeExplorerPath current in
  autoHydrate && partial && (length (children rootPath entries normalizedCurrent) =? 0)%nat
  && negb (bool_decide (normalizedCurrent ∈ hydratedPaths h)).

(** The payloads the explorer copies for the user. *)
Definition copyBrowsePayload (path : string) : string :=
  json_text_indented [("method", JStr "list_files"); ("params", JObj (list_files_params path))].

Definition copyDownloadPayload (selected : option ResultFilesystemEntry) : option string :=
  match selected with
  | Some e =>
      match e_downloadMethod e with
      | Some m => if e_downloadable e && truthy_str m
                  then Some (json_text_indented [("method", JStr m); ("params", JObj [("path", JStr (e_path e))])])
                  else None
      | None => None
      end
  | None => None
  end.

(** ** Tabs and tables of a result *)

(** The tab shown: the chosen one as long as it exists. *)
Definition tab_ids (vm : ResultViewModel) : list string := map sec_id (sections vm) ++ ["debug"].

Definition currentTab (vm : ResultViewModel) (activeTab : string) : string :=
  if existsb (String.eqb activeTab) (tab_ids vm) then activeTab else hd "debug" (tab_ids vm).

Definition activeSection (vm : ResultViewModel) (activeTab : string) : option ResultSectionDefinition :=
  List.find (fun s => sec_id s === currentTab vm activeTab) (sections vm).

(** The column and direction a table is sorted by. *)
Definition changeSort (value : string) (s : option string * SortDirection) : option string * SortDirection :=
  let '(tableSortBy, direction) := s in
  if bool_decide (tableSortBy = Some value)
  then (tableSortBy, match direction with asc => desc | desc => asc end)
  else (Some value, asc).

Section Table.
(** [localeCompare] with numeric collation and base sensitivity. *)
Context (locale_numeric : string -> string -> bool).

(** Every row of a table has all its columns. *)
Definition cell (row : list (string * string)) (column : string) : string := own_get row column ?? "".

Definition table_filter (table : ResultTableDefinition) (search : string) : list (list (string * string)) :=
  let lowered := toLowerCase (trim search) in
  List.filter (fun row => negb (truthy_str lowered)
                          || existsb (fun c => includes (toLowerCase (cell row c)) lowered) (columns table))
    (rows table).

Definition row_before (sort : option string * SortDirection) (a b : list (string * string)) : bool :=
  match sort with
  | (None, _) => false
  | (Some c, asc) => truthy_str c && locale_numeric (cell a c) (cell b c)
  | (Some c, desc) => truthy_str c && locale_numeric (cell b c) (cell a c)
  end.

Definition table_rows (table : ResultTableDefinition) (search : string) (sort : option string * SortDirection)
    : list (list (string * string)) :=
  stable_sort (row_before sort) (table_filter table search).
End Table.
