(* ===== verification/ExplorerLaws.v ===== *)
(** * Laws of the file explorer

    The history behaves like a browser's, a folder's listing is complete and
    in order, the tree ends for entries that lie below their folders, and
    loading folders is bounded. *)

From Stdlib Require Import Sorted.
From stdpp Require Import gmap sorting.
From S2P Require Import Prelude JsNumber JsString JsValue Http Session Commands RenderModel Renderer RenderLaws Client Explorer.

Local Open Scope Z_scope.

(** ** Navigation *)

Inductive NavOp := GoTo (path : string) | Back | Forward | Up | Select (path : string) | Toggle (path : string).

Definition nav_step (s : Nav) (op : NavOp) : Nav :=
  match op with
  | GoTo p => navigateTo p s
  | Back => goBack s
  | Forward => goForward s
  | Up => goUp s
  | Select p => select p s
  | Toggle p => toggleExpanded p s
  end.

(** The folders of the history, the oldest first, and the place in it. *)
Definition history (s : Nav) : list string := backStack s ++ currentPath s :: rev (forwardStack s).
Definition position (s : Nav) : nat := length (backStack s).

Lemma stack_cases (l : list string) : l = [] \/ exists l' x, l = l' ++ [x].
Proof. destruct l as [|x l' _] using rev_ind; [by left|right; by exists l', x]. Qed.

Lemma lookup_top (l : list string) x : (l ++ [x]) !! pred (length (l ++ [x])) = Some x.
Proof. rewrite length_app. cbn. rewrite Nat.add_1_r. by apply list_lookup_middle. Qed.

Lemma goBack_spec s l x : backStack s = l ++ [x] ->
  goBack s = {| currentPath := x; selectedPath := None; backStack := l;
                forwardStack := forwardStack s ++ [currentPath s]; expandedPaths := expandedPaths s |}.
Proof. intros E. unfold goBack. by rewrite E, lookup_top, removelast_last. Qed.

Lemma goForward_spec s l x : forwardStack s = l ++ [x] ->
  goForward s = {| currentPath := x; selectedPath := None; backStack := backStack s ++ [currentPath s];
                   forwardStack := l; expandedPaths := expandedPaths s |}.
Proof. intros E. unfold goForward. by rewrite E, lookup_top, removelast_last. Qed.

Lemma goBack_history s : history (goBack s) = history s /\ position (goBack s) = pred (position s).
Proof.
  unfold history, position. destruct (stack_cases (backStack s)) as [E|(l & x & E)].
  - unfold goBack. rewrite E. cbn. by rewrite E.
  - rewrite (goBack_spec s l x E), E. cbn. rewrite rev_app_distr, length_app, <- app_assoc. cbn.
    split; [done|lia].
Qed.

Lemma goForward_history s :
  history (goForward s) = history s
  /\ position (goForward s) = Nat.min (S (position s)) (pred (length (history s))).
Proof.
  unfold history, position. destruct (stack_cases (forwardStack s)) as [E|(l & x & E)].
  - unfold goForward. rewrite E. cbn -[Nat.min]. rewrite E, length_app. cbn -[Nat.min]. split; [done|lia].
  - rewrite (goForward_spec s l x E), E. cbn -[Nat.min].
    rewrite rev_app_distr, !length_app, <- app_assoc. cbn -[Nat.min]. split; [done|lia].
Qed.

(** A path the explorer may be at. *)
Definition visited (root candidate p : string) : Prop :=
  p = root \/ p = candidate \/ exists q, p = normalizeExplorerPath q.

Lemma navigateTo_history p s :
  navigateTo p s = s \/
  history (navigateTo p s) = backStack s ++ [currentPath s; normalizeExplorerPath p].
Proof.
  unfold navigateTo. destruct (_ === _); [by left|right]. unfold history. cbn. by rewrite <- app_assoc.
Qed.

Lemma nav_step_visited root candidate s op :
  Forall (visited root candidate) (history s) -> Forall (visited root candidate) (history (nav_step s op)).
Proof.
  intros H. assert (forall p, Forall (visited root candidate) (history (navigateTo p s))) as Hgo.
  { intros p. destruct (navigateTo_history p s) as [->| ->]; [done|]. unfold history in H.
    rewrite Forall_app, Forall_cons_iff in *. destruct H as (Hb & Hc & _). split_and!; [done..|].
    constructor; [|constructor]. right. right. by exists p. }
  destruct op; cbn [nav_step]; try done.
  - by destruct (goBack_history s) as [-> _].
  - by destruct (goForward_history s) as [-> _].
  - unfold goUp. destruct (explorerParentPath _) as [p|]; [|done]. by destruct (truthy_str p).
Qed.

(** The explorer's history works like a browser's: going back and
    forward moves one place in an unchanged history and stops at its ends,
    they undo each other, going to another folder and back returns to where
    one was, and wherever one goes every folder of the history is the root,
    the folder it opened at, or a normalised path. *)
Theorem explorer_history (root candidate : string) (ops : list NavOp) :
  let s := fold_left nav_step ops (nav_boot root candidate) in
  (history (goBack s) = history s /\ position (goBack s) = pred (position s))
  /\ (history (goForward s) = history s
      /\ position (goForward s) = Nat.min (S (position s)) (pred (length (history s))))
  /\ (backStack s <> [] -> currentPath (goForward (goBack s)) = currentPath s
        /\ backStack (goForward (goBack s)) = backStack s /\ forwardStack (goForward (goBack s)) = forwardStack s)
  /\ (forall p, normalizeExplorerPath p <> currentPath s ->
        currentPath (navigateTo p s) = normalizeExplorerPath p
        /\ currentPath (goBack (navigateTo p s)) = currentPath s
        /\ backStack (goBack (navigateTo p s)) = backStack s)
  /\ Forall (visited root candidate) (history s).
Proof.
  cbn zeta. set (s := fold_left _ _ _). split_and!; try apply goBack_history; try apply goForward_history.
  - intros Hb. destruct (stack_cases (backStack s)) as [E|(l & x & E)]; [done|].
    rewrite (goBack_spec s l x E), E. by erewrite goForward_spec.
  - intros p Hp. unfold navigateTo. apply String.eqb_neq in Hp. rewrite Hp. by erewrite goBack_spec.
  - subst s. assert (Forall (visited root candidate) (history (nav_boot root candidate))) as H0.
    { unfold history, nav_boot. cbn. destruct (_ === root); repeat (apply List.Forall_cons || apply List.Forall_nil); unfold visited; auto. }
    revert H0. generalize (nav_boot root candidate). induction ops as [|op ops IH]; intros s Hs; [done|].
    cbn. by apply IH, nav_step_visited.
Qed.

(** ** The listing of a folder *)

Section Listing.
Context (rootPath : string) (entries : list ResultFilesystemEntry).
Context (locale_base locale_plain : string -> string -> bool).
(** [localeCompare] is a consistent comparison, with and without options. *)
Hypothesis base_asym : forall a b, locale_base a b = true -> locale_base b a = false.
Hypothesis base_negtrans : forall a b c,
  locale_base a b = false -> locale_base b c = false -> locale_base a c = false.
Hypothesis plain_asym : forall a b, locale_plain a b = true -> locale_plain b a = false.
Hypothesis plain_negtrans : forall a b c,
  locale_plain a b = false -> locale_plain b c = false -> locale_plain a c = false.

Abbreviation column := (column_before locale_base locale_plain).
Abbreviation before := (listed_before rootPath entries locale_base locale_plain).

(** A size that is a number. *)
Definition sized (e : ResultFilesystemEntry) : Prop :=
  match e_size e with Some n => Num.is_nan n = false | None => True end.

Lemma column_asym s a b : column s a b = true -> column s b a = false.
Proof. destruct s; cbn; eauto using Num.lt_asym. Qed.

Lemma column_negtrans s a b c :
  sized b -> column s a b = false -> column s b c = false -> column s a c = false.
Proof.
  intros Hb. destruct s; cbn; eauto. apply Num.lt_negtrans. unfold sized in Hb. by destruct (e_size b).
Qed.

(** The order one column gives in one direction. *)
Definition directed (v : View) (a b : ResultFilesystemEntry) : bool :=
  match sortDirection v with asc => column (sortBy v) a b | desc => column (sortBy v) b a end.

Lemma before_asym v a b : before v a b = true -> before v b a = false.
Proof.
  unfold listed_before. destruct (isDirectoryLike _ _ a), (isDirectoryLike _ _ b); cbn; try done;
    destruct (sortDirection v); apply column_asym.
Qed.

Lemma before_negtrans v a b c :
  sized b -> before v a b = false -> before v b c = false -> before v a c = false.
Proof.
  intros Hb. unfold listed_before.
  destruct (isDirectoryLike _ _ a), (isDirectoryLike _ _ b), (isDirectoryLike _ _ c); cbn; try done;
    destruct (sortDirection v); eauto using column_negtrans.
Qed.

Lemma insert_order v x l :
  Forall sized (x :: l) -> in_order (before v) l -> in_order (before v) (insert_sorted (before v) x l).
Proof.
  intros Hs. unfold in_order. induction 1 as [|y l Hl IH Hy]; cbn; [by repeat constructor|].
  rewrite !Forall_cons_iff in Hs. destruct Hs as (Hx & Hsy & Hsl). destruct (before v y x) eqn:E.
  - constructor; [apply IH; by constructor|]. rewrite insert_sorted_perm. constructor; [by apply before_asym|done].
  - constructor; [by constructor|]. constructor; [done|].
    rewrite List.Forall_forall in *. intros z Hz. by apply (before_negtrans v z y x); [|apply Hy|].
Qed.

Lemma sort_order v l : Forall sized l -> in_order (before v) (stable_sort (before v) l).
Proof.
  induction 1 as [|x l Hx Hl IH]; [constructor|]. apply insert_order; [|done].
  constructor; [done|]. assert (Forall sized (stable_sort (before v) l)) as H by (by rewrite stable_sort_perm).
  exact H.
Qed.

(** A folder's listing is complete and in order: it holds exactly the
    entries of that folder that the filters let through, folders before
    files, and within each group in the order of the chosen column and
    direction. *)
Theorem folder_listing (v : View) (path : string) :
  Forall sized entries ->
  let shown := visibleCurrentChildren rootPath entries locale_base locale_plain v path in
  shown ≡ₚ List.filter (fun e => (parent_key rootPath e === normalizeExplorerPath path) && matches v e) entries
  /\ forall i j a b, (i < j)%nat -> shown !! i = Some a -> shown !! j = Some b ->
       (isDirectoryLike rootPath entries b = true -> isDirectoryLike rootPath entries a = true)
       /\ (isDirectoryLike rootPath entries a = isDirectoryLike rootPath entries b -> directed v b a = false).
Proof.
  intros Hs. cbn zeta. unfold visibleCurrentChildren, children. split.
  - rewrite stable_sort_perm. clear. induction entries as [|e l IH]; [done|]. cbn.
    destruct (_ === _); cbn; [|done]. by destruct (matches v e); rewrite IH.
  - intros i j a b Hij Ha Hb. assert (before v b a = false) as H.
    { eapply in_order_lookup; [|done..]. apply sort_order. rewrite !List.Forall_forall in *.
      intros e [[He _]%filter_In _]%filter_In. by apply Hs. }
    unfold listed_before in H. unfold directed.
    destruct (isDirectoryLike _ _ a), (isDirectoryLike _ _ b); cbn in H; split; try done.
Qed.
End Listing.

(** ** The tree *)

Definition rank (path : string) : nat := length (path_parts path).

Section Tree.
Context (rootPath : string) (entries : list ResultFilesystemEntry).

(** An entry lies deeper than the folder it stands in. *)
Definition below_parent (e : ResultFilesystemEntry) : bool :=
  (rank (parent_key rootPath e) <? rank (e_path e))%nat.

Definition depth : nat := fold_right (fun e n => Nat.max (rank (e_path e)) n) 0%nat entries.

Lemma rank_depth e : e ∈ entries -> (rank (e_path e) <= depth)%nat.
Proof.
  unfold depth. induction 1 as [e l|e x l _ IH]; cbn; lia.
Qed.

Lemma child_rank path e :
  forallb below_parent entries = true -> e ∈ children rootPath entries path ->
  (rank path < rank (e_path e) <= depth)%nat.
Proof.
  intros Hb He. unfold children in He. apply list_elem_of_In, filter_In in He as [He E%String.eqb_eq].
  rewrite forallb_forall in Hb. specialize (Hb e He). unfold below_parent in Hb. rewrite E in Hb.
  apply Nat.ltb_lt in Hb. split; [done|]. by apply rank_depth, list_elem_of_In.
Qed.

Lemma mapM_stable {A B} (f g : A -> option B) l :
  (forall x, x ∈ l -> exists y, f x = Some y /\ g x = Some y) -> exists ys, mapM f l = Some ys /\ mapM g l = Some ys.
Proof.
  induction l as [|x l IH]; intros H; [by eexists|].
  destruct (H x) as (y & Hf & Hg); [left|]. destruct IH as (ys & Hfs & Hgs); [intros z Hz; apply H; by right|].
  exists (y :: ys). cbn. by rewrite Hf, Hg, Hfs, Hgs.
Qed.

Lemma tree_from n : forall v expanded current path m,
  forallb below_parent entries = true ->
  (depth < n + rank path)%nat -> (0 < n <= m)%nat ->
  exists t, renderTree rootPath entries n v expanded current path = Some t
    /\ renderTree rootPath entries m v expanded current path = Some t.
Proof.
  induction n as [|n IH]; intros v expanded current path m Hb Hd Hm; [lia|]. destruct m as [|m]; [lia|].
  cbn [renderTree]. set (visible := List.filter (shown_by_flags v) _).
  assert (forall e, e ∈ visible -> e ∈ children rootPath entries path) as Hin.
  { intros e He. unfold visible in He. apply list_elem_of_In, filter_In in He as [[He _]%filter_In _].
    by apply list_elem_of_In. }
  destruct (existsb (String.eqb path) expanded); [|by eexists].
  destruct (mapM_stable
    (fun child => renderTree rootPath entries n v expanded current (e_path child))
    (fun child => renderTree rootPath entries m v expanded current (e_path child)) visible) as (ts & H1 & H2).
  { intros e He. destruct (child_rank path e Hb (Hin e He)). apply IH; [done|lia|lia]. }
  rewrite H1, H2. cbn. by eexists.
Qed.

(** The folder tree is finite: when every entry lies deeper than the
    folder it stands in, drawing the tree ends, whatever is expanded, and a
    recursion as deep as the deepest entry gives all of it. *)
Theorem tree_terminates (v : View) (expanded : list string) (current path : string) :
  forallb below_parent entries = true ->
  exists t, forall fuel, (depth < fuel)%nat ->
    renderTree rootPath entries fuel v expanded current path = Some t.
Proof.
  intros Hb. destruct (tree_from (S depth) v expanded current path (S depth) Hb) as (t & H0 & _); [lia..|].
  exists t. intros fuel Hf. destruct (tree_from (S depth) v expanded current path fuel Hb) as (t' & H1 & H2); [lia..|].
  congruence.
Qed.
End Tree.

(** A path of the agent, of two segments or more, lies below its folder. *)
Lemma explorer_path_join segs :
  segs <> [] -> Forall segment segs -> trim (join "/" segs) = join "/" segs ->
  normalizeExplorerPath (join "/" segs) = join "/" segs.
Proof.
  intros Hne Hs Ht. destruct (canonical_join "" segs Hne Hs (or_introl eq_refl) Ht) as [Hc Hj]. cbn in Hc.
  unfold normalizeExplorerPath. rewrite Ht. apply truthy_str_spec in Hj as Hj'. rewrite Hj'. cbn [negb].
  unfold toCanonicalPath in Hc. rewrite Ht in Hc.
  destruct (join "/" segs === "") eqn:E; [by apply String.eqb_eq in E|].
  change (normalizePathSeparator (join "/" segs)) with (replace_runs is_separator "/" false (join "/" segs)) in Hc.
  unfold or_str, truthy_str. destruct (strip_end _ _ === "") eqn:E2; cbn [negb]; exact Hc.
Qed.

Lemma agent_entry_below rootPath segs e :
  Forall segment segs -> (2 <= length segs)%nat -> e_path e = join "/" segs ->
  e_parentPath e = parentPathOf (e_path e) ->
  trim (join "/" segs) = join "/" segs -> trim (join "/" (removelast segs)) = join "/" (removelast segs) ->
  forall e', e' ∈ normalizeExplorerEntries [e] -> below_parent rootPath e' = true.
Proof.
  intros Hs Hlen Hp Hpar Ht Ht' e' He'. assert (segs <> []) as Hne by (by destruct segs; cbn in Hlen; [lia|]).
  assert (Forall segment (removelast segs)) as Hs'.
  { rewrite List.Forall_forall in *. intros x Hx. apply Hs. rewrite (app_removelast_last "" Hne).
    apply in_app_iff. by left. }
  assert (length (removelast segs) = pred (length segs)) as Hl.
  { rewrite (app_removelast_last "" Hne) at 2. rewrite length_app. cbn. lia. }
  assert (removelast segs <> []) as Hne' by (intros E; rewrite E in Hl; cbn in Hl; lia).
  destruct (canonical_join "" segs Hne Hs (or_introl eq_refl) Ht) as [Hc Hj]. cbn in Hc.
  assert (parentPathOf (join "/" segs) = Some (join "/" (removelast segs))) as Hpp.
  { unfold parentPathOf. rewrite Hc, path_parts_join by done. apply truthy_str_spec in Hj as ->. cbn [negb orb].
    destruct (String.eqb_spec (join "/" segs) "/") as [E|_].
    { assert (path_parts (join "/" segs) = segs) as Hq by (by apply path_parts_join). rewrite E in Hq. cbn in Hq. by subst. }
    destruct (Nat.leb_spec (length segs) 1); [lia|done]. }
  assert (join "/" (removelast segs) <> "") as Hj'.
  { by apply (canonical_join "" (removelast segs) Hne' Hs' (or_introl eq_refl) Ht'). }
  rewrite Hp, Hpp in Hpar. apply list_elem_of_In in He'. unfold normalizeExplorerEntries in He'.
  apply filter_In in He' as [[<-|[]] _]. unfold below_parent, parent_key, rank. cbn [with_paths e_path e_parentPath].
  rewrite Hpar, Hp. cbn [or_else]. apply truthy_str_spec in Hj' as ->.
  rewrite !explorer_path_join by done. cbn [nullish]. rewrite explorer_path_join, !path_parts_join by done.
  apply Nat.ltb_lt. lia.
Qed.

(** ** Loading folders *)

(** A call of [hydratePath] without [force], as the page makes them: from
    any explorer, for any folder, at any time; the request it sends, if it
    sends one, is logged with its key and time, the latest first. *)
Inductive loads : list (string * Z) -> LazyGate -> Prop :=
| loads_none : loads [] {| lazyAttemptGate := ∅; lazyBlockedPaths := ∅ |}
| loads_refused log g g' partial deviceId path now later h :
    loads log g -> hydrate_begin partial false deviceId path now later g h = (g', None) -> loads log g'
| loads_sent log g g' partial deviceId path now later h h' :
    loads log g -> now <= later -> hydrate_begin partial false deviceId path now later g h = (g', Some h') ->
    loads ((attempt_key deviceId path, later) :: log) g'
| loads_failed log g deviceId path message h :
    loads log g -> loads log (hydrate_failure deviceId path message g h).1.

(** The times at which the folder [key] was asked for, the latest first. *)
Definition times (key : string) (log : list (string * Z)) : list Z :=
  map snd (List.filter (fun e => e.1 === key) log).

Definition spaced : list Z -> Prop := StronglySorted (fun later earlier => earlier + LAZY_ATTEMPT_TTL_MS <= later).

Lemma hydrate_refused partial deviceId path now later g h g' :
  hydrate_begin partial false deviceId path now later g h = (g', None) -> g' = g.
Proof. unfold hydrate_begin. cbn [negb andb]. repeat case_match; by intros [= <-]. Qed.

Lemma hydrate_sent partial deviceId path now later g h g' h' :
  hydrate_begin partial false deviceId path now later g h = (g', Some h') ->
  lazyAttemptGate g' = <[attempt_key deviceId path := later]> (lazyAttemptGate g)
  /\ lazyBlockedPaths g' = lazyBlockedPaths g
  /\ recent_attempt g (attempt_key deviceId path) now = false
  /\ attempt_key deviceId path ∉ lazyBlockedPaths g
  /\ normalizeExplorerPath path ∉ attemptedPaths h /\ normalizeExplorerPath path ∈ attemptedPaths h'.
Proof.
  unfold hydrate_begin. cbn [negb andb]. destruct partial; [|done]. cbn [negb].
  repeat (case_bool_decide; [done|]). destruct (recent_attempt _ _ _) eqn:E; [done|].
  case_bool_decide; [done|]. intros [= <- <-]. cbn. split_and!; try done. set_solver.
Qed.

Lemma loads_spaced log g : loads log g ->
  forall key, spaced (times key log)
    /\ lazyAttemptGate g !! key = head (times key log).
Proof.
  induction 1 as [|log g g' partial deviceId path now later h _ IH E|log g g' partial deviceId path now later h h' _ IH Hclock E
    |log g deviceId path message h _ IH]; intros key.
  - split; [apply SSorted_nil|apply lookup_empty].
  - apply hydrate_refused in E as ->. apply IH.
  - apply hydrate_sent in E as (Hg & _ & Hr & _). destruct (IH key) as [Hs Hh]. rewrite Hg.
    unfold times. cbn [List.filter fst]. destruct (String.eqb_spec (attempt_key deviceId path) key) as [<-|Hne].
    + rewrite lookup_insert_eq. cbn [map snd head]. split; [|done]. constructor; [done|].
      unfold recent_attempt in Hr. rewrite Hh in Hr. fold (times (attempt_key deviceId path) log).
      destruct (times (attempt_key deviceId path) log) as [|t ts]; [constructor|]. cbn in Hr. apply Z.ltb_ge in Hr.
      apply StronglySorted_inv in Hs as [_ Hs]. constructor; [lia|].
      eapply List.Forall_impl; [|exact Hs]. cbn. intros. unfold LAZY_ATTEMPT_TTL_MS in *. lia.
    + rewrite lookup_insert_ne by done. done.
  - apply IH.
Qed.

(** *** The polls end *)

Lemma poll_detail_bounded fuel : forall clock i startedAt commandId last,
  at_most fuel (poll_detail fuel clock i startedAt commandId last).
Proof.
  induction fuel as [|fuel IH]; intros clock i startedAt commandId last; cbn [poll_detail];
    destruct (negb _); try done.
  apply (at_most_bind 1); [auto with js|]. intros r. destruct (ok r); cbn [negb].
  - unfold read_json. destruct (resp_json r) as [detail|]; cbn [bind]; [|done].
    destruct (member_str detail "state" "") as [st|]; cbn [lift bind]; [|done]. by destruct (existsb _ _).
  - unfold throw_text. by destruct (resp_body r).
Qed.

(** A clock that moves on by a second from poll to poll, as the timer makes
    sure. *)
Definition ticks (clock : nat -> Z) : Prop := forall i, clock i + 1000 <= clock (S i).

Lemma ticks_from clock i : ticks clock -> clock 0%nat + 1000 * Z.of_nat i <= clock i.
Proof. intros H. induction i as [|i IH]; [lia|]. specialize (H i). lia. Qed.

Lemma poll_detail_ends clock startedAt commandId : ticks clock -> startedAt = clock 0%nat ->
  forall fuel i last, (90 <= fuel + i)%nat ->
  all_results (fun r => r <> None) (poll_detail fuel clock i startedAt commandId last).
Proof.
  intros Ht -> fuel. induction fuel as [|fuel IH]; intros i last Hf; cbn [poll_detail].
  - pose proof (ticks_from clock i Ht). unfold timeoutMs. destruct (Z.ltb_spec (clock i - clock 0%nat) 90000); [lia|done].
  - destruct (negb _); [done|]. apply (all_results_bind (fun _ => True)); [auto with js|]. intros r _.
    destruct (ok r); cbn [negb].
    + unfold read_json. destruct (resp_json r) as [detail|]; cbn [bind]; [|done].
      destruct (member_str detail "state" "") as [st|]; cbn [lift bind]; [|done].
      destruct (existsb _ _); [done|]. apply IH. lia.
    + unfold throw_text. by destruct (resp_body r).
Qed.

(** [C36] Loading folders is bounded: whatever explorers are open and
    however loads fail, the same folder of the same device is asked for at
    most once in five minutes; loading one folder sends at most 91 requests,
    and on a clock that the timer moves on it always ends. *)
Theorem lazy_loading_bounded (log : list (string * Z)) (g : LazyGate) (clock : nat -> Z)
    (uuid deviceId path : string) :
  loads log g -> ticks clock ->
  (forall key, spaced (times key log))
  /\ at_most 91 (browse 90 clock uuid deviceId path)
  /\ all_results (fun r => r <> None) (browse 90 clock uuid deviceId path).
Proof.
  intros Hl Ht. split_and!.
  - intros key. by apply (loads_spaced log g Hl).
  - unfold browse. apply (at_most_bind 1 90); [auto with js|]. intros r. destruct (ok r); cbn [negb].
    + unfold read_json. destruct (resp_json r) as [payload|]; cbn [bind]; [|done].
      destruct (member_str payload "command_id" "") as [s|]; cbn [lift bind]; [|done].
      destruct (truthy_str (trim s)); cbn [negb]; [|done].
      apply at_most_then_silent; [apply poll_detail_bounded|]. by intros [[]|].
    + unfold throw_text. by destruct (resp_body r).
  - unfold browse. apply (all_results_bind (fun _ => True)); [auto with js|]. intros r _. destruct (ok r); cbn [negb].
    + unfold read_json. destruct (resp_json r) as [payload|]; cbn [bind]; [|done].
      destruct (member_str payload "command_id" "") as [s|]; cbn [lift bind]; [|done].
      destruct (truthy_str (trim s)); cbn [negb]; [|done].
      eapply all_results_bind; [by apply (poll_detail_ends clock); [..|lia]|]. by intros [[]|].
    + unfold throw_text. by destruct (resp_body r).
Qed.

(** *** Merging *)

Lemma merge_entry_paths l e :
  NoDup (map e_path l) -> NoDup (map e_path (merge_entry l e))
  /\ (forall p, p ∈ map e_path (merge_entry l e) <-> p ∈ map e_path l \/ p = e_path e).
Proof.
  intros Hl. unfold merge_entry.
  destruct (existsb _ l) eqn:E.
  - assert (map e_path (map (fun e' => if e_path e' === e_path e then e else e') l) = map e_path l) as ->.
    { rewrite map_map. apply map_ext. intros a. destruct (String.eqb_spec (e_path a) (e_path e)); congruence. }
    split; [done|]. intros p. split; [by left|]. intros [Hp| ->]; [done|].
    apply existsb_exists in E as (x & Hx & Ex%String.eqb_eq). rewrite <- Ex. by apply list_elem_of_In, in_map.
  - rewrite map_app. cbn. split.
    + apply list.NoDup_app. split_and!; [done| |apply NoDup_singleton].
      intros p Hp ->%list_elem_of_singleton. apply list_elem_of_In, in_map_iff in Hp as (x & Ex & Hx).
      assert (existsb (fun e' => e_path e' === e_path e) l = true) as H; [|congruence].
      apply existsb_exists. exists x. split; [done|by apply String.eqb_eq].
    + intros p. by rewrite elem_of_app, list_elem_of_singleton.
Qed.

Lemma merge_fold l' : forall l, NoDup (map e_path l) ->
  NoDup (map e_path (fold_left merge_entry l' l))
  /\ (forall p, p ∈ map e_path (fold_left merge_entry l' l) <-> p ∈ map e_path l \/ p ∈ map e_path l').
Proof.
  induction l' as [|e l' IH]; intros l Hl; cbn [fold_left map].
  - split; [done|]. intros p. rewrite elem_of_nil. tauto.
  - destruct (merge_entry_paths l e Hl) as [H1 H2]. destruct (IH _ H1) as [H3 H4]. split; [done|].
    intros p. rewrite H4, H2, elem_of_cons. tauto.
Qed.

(** After a load every path is there once: those before and the new ones. *)
Lemma merge_entries_paths prev incoming :
  NoDup (map e_path (merge_entries prev incoming))
  /\ forall p, p ∈ map e_path (merge_entries prev incoming) <-> p ∈ map e_path prev \/ p ∈ map e_path incoming.
Proof.
  unfold merge_entries. destruct (merge_fold prev []) as [H1 H2]; [constructor|].
  destruct (merge_fold incoming _ H1) as [H3 H4]. split; [done|].
  intros p. rewrite H4, H2. cbn [map]. rewrite elem_of_nil. tauto.
Qed.

(** A folder whose load failed is not asked for again while the explorer is
    open, however long one waits: the button below an empty folder calls
    [hydratePath] without [force]. *)
Lemma failed_load_not_retried partial deviceId path now later g h g' h' message now' later' :
  hydrate_begin partial false deviceId path now later g h = (g', Some h') ->
  let '(g2, h2) := hydrate_failure deviceId path message g' h' in
  hydrate_begin partial false deviceId path now' later' g2 h2 = (g2, None).
Proof.
  intros (_ & _ & _ & _ & _ & Ha)%hydrate_sent. unfold hydrate_failure, hydrate_begin. cbn [negb andb].
  destruct partial; [|done]. cbn [negb]. repeat (case_bool_decide; try done).
Qed.

(** ** Tabs and tables *)

(** The tab shown is one of the tabs. *)
Lemma currentTab_exists vm activeTab : currentTab vm activeTab ∈ tab_ids vm.
Proof.
  unfold currentTab. destruct (existsb _ _) eqn:E.
  - apply existsb_exists in E as (x & Hx & ->%String.eqb_eq). by apply list_elem_of_In.
  - unfold tab_ids. destruct (map sec_id (sections vm)); left.
Qed.

(** Clicking a column sorts by it, and clicking again turns the order. *)
Lemma changeSort_twice c s :
  (changeSort c s).1 = Some c /\ changeSort c (changeSort c (changeSort c s)) = changeSort c s.
Proof. unfold changeSort. destruct s as [k []]; repeat (case_bool_decide; simplify_eq/=; try done). Qed.

Lemma table_rows_complete locale_numeric table search sort :
  table_rows locale_numeric table search sort ≡ₚ table_filter table search
  /\ table_filter table "" = rows table.
Proof.
  split; [apply stable_sort_perm|]. unfold table_filter. cbn. by induction (rows table) as [|r l IH]; cbn; f_equal.
Qed.

(** ** Demonstrations *)

Module ExplorerDemo.

Definition file (path : string) (parent : option string) (kind : EntryType) (size : option num)
    : ResultFilesystemEntry :=
  {| e_name := List.last (path_parts path) ""; e_path := path; e_type := kind; e_parentPath := parent;
     e_size := size; e_extension := None; e_modifiedAt := None; e_createdAt := None; e_isHidden := false;
     e_isSystem := false; e_isSymlink := false; e_targetPath := None; e_downloadable := false;
     e_downloadMethod := None |}.

Definition demo_entries : list ResultFilesystemEntry :=
  [file "C:/notes.txt" (Some "C:") e_file (Some (Num.of_Z 10));
   file "C:/Users" (Some "C:") e_directory None;
   file "C:/Users/ada" (Some "C:/Users") e_directory None].

Definition plain_view : View :=
  {| search := ""; sortBy := by_size; sortDirection := asc; showHidden := false; showSystem := false |}.

Definition shorter (a b : string) : bool := Nat.ltb (String.length a) (String.length b).

Lemma shorter_asym a b : shorter a b = true -> shorter b a = false.
Proof. unfold shorter. rewrite Nat.ltb_lt, Nat.ltb_ge. lia. Qed.
Lemma shorter_negtrans a b c : shorter a b = false -> shorter b c = false -> shorter a c = false.
Proof. unfold shorter. rewrite !Nat.ltb_ge. lia. Qed.

Lemma folder_listing_witness :
  map e_path (visibleCurrentChildren "C:" demo_entries shorter shorter plain_view "C:\")
  = ["C:/Users"; "C:/notes.txt"]
  /\ visibleCurrentChildren "C:" demo_entries shorter shorter plain_view "C:\"
     ≡ₚ List.filter (fun e => (parent_key "C:" e === normalizeExplorerPath "C:\") && matches plain_view e) demo_entries.
Proof.
  split; [vm_compute; reflexivity|].
  destruct (folder_listing "C:" demo_entries shorter shorter shorter_asym shorter_negtrans shorter_asym
    shorter_negtrans plain_view "C:\") as [H _]; [|exact H].
  repeat (apply List.Forall_cons || apply List.Forall_nil); vm_compute; done.
Defined.

Lemma tree_terminates_witness :
  forallb (below_parent "C:") demo_entries = true
  /\ exists t, forall fuel, (3 < fuel)%nat ->
       renderTree "C:" demo_entries fuel plain_view ["C:"; "C:/Users"] "C:" "C:" = Some t.
Proof.
  assert (forallb (below_parent "C:") demo_entries = true) as H by (vm_compute; reflexivity).
  split; [exact H|]. exact (tree_terminates "C:" demo_entries plain_view ["C:"; "C:/Users"] "C:" "C:" H).
Defined.

(** A listing that contains the root itself: the root stands below itself,
    and drawing the tree never ends. *)
Definition rooted : list ResultFilesystemEntry :=
  normalizeExplorerEntries [file "C:\" None e_directory None; file "C:/Users" (Some "C:") e_directory None].

Lemma rooted_mapM {B} (f : ResultFilesystemEntry -> option B) :
  (forall e, e_path e = "C:" -> f e = None) -> mapM f rooted = None.
Proof.
  intros Hf. assert (exists e l, rooted = e :: l /\ e_path e = "C:") as (e & l & -> & He)
    by (do 2 eexists; vm_compute; done). cbn. by rewrite Hf.
Qed.

Lemma root_entry_loops fuel : renderTree "C:" rooted fuel plain_view ["C:"] "C:" "C:" = None.
Proof.
  induction fuel as [|fuel IH]; [done|]. cbn [renderTree].
  assert (List.filter (shown_by_flags plain_view)
    (List.filter (isDirectoryLike "C:" rooted) (children "C:" rooted "C:")) = rooted) as ->
    by (vm_compute; reflexivity).
  change (existsb (String.eqb "C:") ["C:"]) with true. cbn iota.
  rewrite rooted_mapM; [done|]. intros e ->. exact IH.
Qed.

Lemma lazy_loading_bounded_witness :
  at_most 91 (browse 90 (fun i => 1000 * Z.of_nat i) "u" "dev-1" "C:/Users")
  /\ spaced (times "dev-1:C:/Users" [("dev-1:C:/Users", 5)]).
Proof.
  assert (loads [("dev-1:C:/Users", 5)]
    (hydrate_begin true false "dev-1" "C:/Users" 4 5 {| lazyAttemptGate := ∅; lazyBlockedPaths := ∅ |}
       (hydration_boot [])).1) as Hl.
  { apply (loads_sent [] {| lazyAttemptGate := ∅; lazyBlockedPaths := ∅ |} _ true "dev-1" "C:/Users" 4 5
      (hydration_boot []) {| hydratingPath := Some "C:/Users"; hydrationError := None;
        attemptedPaths := {["C:/Users"]} ∪ attemptedPaths (hydration_boot []);
        hydratedPaths := hydratedPaths (hydration_boot []) |}); [constructor|lia|].
    vm_compute. reflexivity. }
  destruct (lazy_loading_bounded _ _ (fun i => 1000 * Z.of_nat i) "u" "dev-1" "C:/Users" Hl) as (H1 & H2 & _).
  { intros i. cbn. lia. }
  split; [exact H2|apply H1].
Defined.

End ExplorerDemo.
