(* ===== verification/Loader.v ===== *)
(** * Pages that poll a list

    The pages of devices, commands, history and schedules and the operator's
    console load their data in the same way (fetchDevices, fetchCommands,
    fetchHistory, loadData, fetchDashboardData): a load aborts the one before
    it through an AbortController kept in a ref, sets a flag according to its
    mode, and clears the flag when it ends; a timer starts silent loads.
    This file models that protocol once.  [Page] is what a page brings: what
    it does with an answer, with the rejection of an aborted request, and
    with the clicks of its user.  The law assumed of the platform is that the
    promise of an aborted request rejects with an AbortError. *)

From S2P Require Import Prelude.

(** ** Answers *)

(** What comes of one request: nothing (the promise rejects), or a status
    and a body; the body is [None] when it is not JSON.  The pages read it
    at the type their code declares. *)
Inductive Reply (A : Type) := Unreachable | Replied (code : Z) (body : option A).
Arguments Unreachable {A}.
Arguments Replied {A} code body.

Definition reply_ok {A} (r : Reply A) : bool :=
  match r with Replied code _ => (200 <=? code)%Z && (code <=? 299)%Z | Unreachable => false end.

(** The payload of a response that must be ok. *)
Definition payload_of {A} (r : Reply A) : option A :=
  match r with Replied _ body => if reply_ok r then body else None | Unreachable => None end.

(** A load of several answers is read part by part: each part says what it
    makes of the page, and whether it went through; a body that is no JSON
    is an exception, and ends the load. *)
Definition Part (State : Type) := State -> State * bool.

Definition part {State A} (r : Reply A) (taken : A -> State -> State) (failed_part : State -> State) : Part State := fun s =>
  if reply_ok r then match payload_of r with Some payload => (taken payload s, true) | None => (s, false) end
  else (failed_part s, true).

Fixpoint parts {State} (ps : list (Part State)) (s : State) : State * bool :=
  match ps with
  | [] => (s, true)
  | p :: ps => let '(s, fine) := p s in if fine then parts ps s else (s, false)
  end.

(** An accepted answer has a body that is JSON. *)
Definition body_read {A} (r : Reply A) : bool := negb (reply_ok r) || bool_decide (is_Some (payload_of r)).

Lemma refused_payload {A} (r : Reply A) : reply_ok r = false -> payload_of r = None.
Proof. destruct r as [|code body]; [done|]. cbn. by intros ->. Qed.

Lemma part_read {State A} (r : Reply A) taken blank (s : State) :
  body_read r = true ->
  part r taken blank s = (match payload_of r with Some p => taken p s | None => blank s end, true).
Proof.
  unfold body_read, part. destruct (reply_ok r) eqn:E; cbn.
  - case_bool_decide as H; [|done]. by destruct H as [p ->].
  - intros _. by rewrite refused_payload.
Qed.

Lemma parts_keep {State} (I : State -> Prop) (ps : list (Part State)) s :
  List.Forall (fun p : Part State => forall s, I s -> I (p s).1) ps -> I s -> I (parts ps s).1.
Proof.
  intros Hps. revert s. induction Hps as [|p ps Hp _ IH]; intros s Hs; [done|]. cbn [parts].
  specialize (Hp s Hs). destruct (p s) as [s' []]; auto.
Qed.

Lemma part_keep {State A} (I : State -> Prop) (r : Reply A) taken blank (s : State) :
  (forall p, payload_of r = Some p -> I (taken p s)) -> I (blank s) -> I s -> I (part r taken blank s).1.
Proof.
  intros Ht Hb Hs. unfold part. destruct (reply_ok r); [|done].
  destruct (payload_of r) eqn:E; [by apply Ht|done].
Qed.

(** ** Pages *)

Inductive Mode := initial | refresh | silent.

#[export] Instance Mode_eq_dec : EqDecision Mode.
Proof. solve_decision. Defined.

(** What a page shows: its data, and an error if the last load failed. *)
Record Shown (Data : Type) := { data : Data; error : option string }.
Arguments data {Data}.
Arguments error {Data}.
Arguments Build_Shown {Data}.

(** [settle] is the body of a load after its responses, [overtaken] the same
    when it was aborted and what had not arrived rejects with an AbortError,
    [act] what a click does. *)
Class Page (Data Answer Act : Type) := {
  settle : Mode -> Answer -> Shown Data -> Shown Data;
  overtaken : Answer -> Shown Data -> Shown Data;
  act : Act -> Data -> Data;
}.

(** The page ignores a load that was aborted. *)
Class QuietAbort (Data Answer Act : Type) {P : Page Data Answer Act} : Prop :=
  quiet_abort : forall (a : Answer) s, overtaken (Act := Act) a s = s.

(** A property of the data that no answer and no click breaks. *)
Class PageInvariant {Data Answer Act : Type} {P : Page Data Answer Act} (I : Data -> Prop) : Prop := {
  invariant_settle mode a s : I (data s) -> I (data (settle mode a s));
  invariant_overtaken (a : Answer) s : I (data s) -> I (data (overtaken a s));
  invariant_act x d : I d -> I (act x d);
}.

(** ** The protocol *)

(** [abortRef] is the controller of the last load; [running] the loads that
    have not ended, [aborted] those whose controller was aborted. *)
Record Loader (Data : Type) := {
  shown : Shown Data;
  isLoading : bool;
  isRefreshing : bool;
  abortRef : option nat;
  aborted : list nat;
  running : list (nat * Mode);
  started : nat;
  mounted : bool;
}.
Arguments shown {Data}.
Arguments isLoading {Data}.
Arguments isRefreshing {Data}.
Arguments abortRef {Data}.
Arguments aborted {Data}.
Arguments running {Data}.
Arguments started {Data}.
Arguments mounted {Data}.
Arguments Build_Loader {Data}.

Section Protocol.
Context {Data Answer Act : Type} {P : Page Data Answer Act}.

Definition loader_init (d : Data) : Loader Data :=
  {| shown := {| data := d; error := None |}; isLoading := true; isRefreshing := false;
     abortRef := None; aborted := []; running := []; started := 0; mounted := true |}.

Definition abort_current (s : Loader Data) : list nat :=
  match abortRef s with Some i => i :: aborted s | None => aborted s end.

Definition load_start (mode : Mode) (s : Loader Data) : Loader Data :=
  {| shown := shown s;
     isLoading := match mode with initial => true | _ => isLoading s end;
     isRefreshing := match mode with refresh => true | _ => isRefreshing s end;
     abortRef := Some (started s);
     aborted := abort_current s;
     running := (started s, mode) :: running s;
     started := S (started s);
     mounted := mounted s |}.

(** A load goes on after its responses, and its [finally] clears the flag of
    its mode.  Once unmounted, the page is not updated. *)
Definition load_end (i : nat) (mode : Mode) (a : Answer) (s : Loader Data) : Loader Data :=
  {| shown := if negb (mounted s) then shown s
              else if bool_decide (i ∈ aborted s) then overtaken a (shown s)
              else settle mode a (shown s);
     isLoading := match mode with initial => false | _ => isLoading s end;
     isRefreshing := match mode with refresh => false | _ => isRefreshing s end;
     abortRef := abortRef s;
     aborted := aborted s;
     running := List.filter (fun r => negb (Nat.eqb i r.1)) (running s);
     started := started s;
     mounted := mounted s |}.

Definition page_act (x : Act) (s : Loader Data) : Loader Data :=
  {| shown := {| data := act x (data (shown s)); error := error (shown s) |};
     isLoading := isLoading s; isRefreshing := isRefreshing s; abortRef := abortRef s;
     aborted := aborted s; running := running s; started := started s; mounted := mounted s |}.

(** The clean-up of the polling effect. *)
Definition unmount (s : Loader Data) : Loader Data :=
  {| shown := shown s; isLoading := isLoading s; isRefreshing := isRefreshing s;
     abortRef := abortRef s; aborted := abort_current s; running := running s;
     started := started s; mounted := false |}.

Inductive Event := Start (mode : Mode) | End (i : nat) (a : Answer) | Click (x : Act) | Unmount.

Inductive step : Loader Data -> Event -> Loader Data -> Prop :=
| step_start mode s : mounted s = true -> step s (Start mode) (load_start mode s)
| step_end i mode a s : (i, mode) ∈ running s -> step s (End i a) (load_end i mode a s)
| step_click x s : mounted s = true -> step s (Click x) (page_act x s)
| step_unmount s : mounted s = true -> step s Unmount (unmount s).

(** A page begins with the load its first effect starts. *)
Inductive reaches (d : Data) : list Event -> Loader Data -> Prop :=
| reaches_init : reaches d [Start initial] (load_start initial (loader_init d))
| reaches_step es e s s' : reaches d es s -> step s e s' -> reaches d (es ++ [e]) s'.

(** ** What a page promises *)

(** The specification knows no controllers: the newest load settles the
    page, and an overtaken one is left to [overtaken]. *)
Record View := { loads : nat; newest : Mode; on_show : Shown Data; open : bool }.

Definition view_init (d : Data) : View :=
  {| loads := 0; newest := initial; on_show := {| data := d; error := None |}; open := true |}.

Definition view_step (v : View) (e : Event) : View :=
  match e with
  | Start mode => {| loads := S (loads v); newest := mode; on_show := on_show v; open := open v |}
  | End i a =>
      {| loads := loads v; newest := newest v;
         on_show := if negb (open v) then on_show v
                    else if Nat.eqb (S i) (loads v) then settle (newest v) a (on_show v)
                    else overtaken a (on_show v);
         open := open v |}
  | Click x => {| loads := loads v; newest := newest v;
                  on_show := {| data := act x (data (on_show v)); error := error (on_show v) |};
                  open := open v |}
  | Unmount => {| loads := loads v; newest := newest v; on_show := on_show v; open := false |}
  end.

Definition view (d : Data) (es : list Event) : View := fold_left view_step es (view_init d).

Lemma view_snoc d es e : view d (es ++ [e]) = view_step (view d es) e.
Proof. unfold view. by rewrite fold_left_app. Qed.

Record simulates (s : Loader Data) (v : View) : Prop := {
  sim_loads : started s = loads v;
  sim_open : mounted s = open v;
  sim_current : abortRef s = match loads v with O => None | S i => Some i end;
  sim_aborted i : i ∈ aborted s -> (i < loads v)%nat;
  sim_running i mode : (i, mode) ∈ running s ->
    (i < loads v)%nat /\ (S i = loads v -> mode = newest v)
    /\ (i ∈ aborted s <-> S i <> loads v \/ open v = false);
  sim_numbered : NoDup (map fst (running s));
  sim_loading : isLoading s = true -> exists i, (i, initial) ∈ running s;
  sim_refreshing : isRefreshing s = true -> exists i, (i, refresh) ∈ running s;
}.

(** Aborting the current load leaves every load but one yet to come aborted. *)
Lemma abort_current_all s v i :
  simulates s v -> (i ∈ aborted s <-> S i <> loads v \/ open v = false) -> (i < loads v)%nat ->
  i ∈ abort_current s.
Proof.
  intros Hs Hab Hlt. unfold abort_current. rewrite (sim_current _ _ Hs).
  destruct (loads v) as [|n]; [lia|]. destruct (decide (i = n)) as [->|Hne]; [left|right].
  apply Hab. left. lia.
Qed.

Lemma abort_current_lt s v i : simulates s v -> i ∈ abort_current s -> (i < loads v)%nat.
Proof.
  intros Hs. unfold abort_current. rewrite (sim_current _ _ Hs).
  pose proof (sim_aborted _ _ Hs i). destruct (loads v) as [|n]; [done|].
  intros [->|Hin]%elem_of_cons; [lia|auto].
Qed.

Lemma loader_sim_start mode s v :
  simulates s v -> mounted s = true -> simulates (load_start mode s) (view_step v (Start mode)).
Proof.
  intros Hs Hm. pose proof (sim_open _ _ Hs) as Ho. rewrite Hm in Ho. pose proof (sim_loads _ _ Hs) as Hl.
  constructor; cbn [load_start view_step started loads mounted open abortRef aborted running newest
    isLoading isRefreshing].
  - by rewrite Hl.
  - congruence.
  - by rewrite Hl.
  - intros i Hi%(abort_current_lt s v); [lia|done].
  - intros i md [[= -> ->]|Hin]%elem_of_cons.
    + rewrite Hl. split_and!; [lia|done|]. split; [|intros [|]; congruence].
      intros Hi%(abort_current_lt s v); [lia|done].
    + destruct (sim_running _ _ Hs i md Hin) as (Hlt & _ & Hab). split_and!; [lia|lia|].
      split; [lia|]. intros _. by eapply abort_current_all.
  - cbn [map fst]. apply list.NoDup_cons. split; [|apply Hs]. intros ([i md] & E & Hi)%list_elem_of_fmap.
    destruct (sim_running _ _ Hs _ _ Hi) as [Hlt _]. cbn in E. lia.
  - intros Hload. destruct mode; [eexists; by left|..];
      destruct (sim_loading _ _ Hs Hload) as [i Hi]; exists i; by right.
  - intros Hload. destruct mode; [|eexists; by left|];
      destruct (sim_refreshing _ _ Hs Hload) as [i Hi]; exists i; by right.
Qed.

Lemma loader_sim_unmount s v : simulates s v -> simulates (unmount s) (view_step v Unmount).
Proof.
  intros Hs. constructor; cbn [unmount view_step started loads mounted open abortRef aborted running newest
    isLoading isRefreshing]; try apply Hs; [done|..].
  - intros i Hi. by eapply abort_current_lt.
  - intros i md Hin. destruct (sim_running _ _ Hs i md Hin) as (Hlt & Hmd & Hab).
    split_and!; [done..|]. split; [by right|]. intros _. by eapply abort_current_all.
Qed.

Lemma sim_click x s v : simulates s v -> simulates (page_act x s) (view_step v (Click x)).
Proof. intros Hs. constructor; apply Hs. Qed.

Lemma elem_of_ended i (l : list (nat * Mode)) j md :
  (j, md) ∈ List.filter (fun r => negb (Nat.eqb i r.1)) l <-> (j, md) ∈ l /\ i <> j.
Proof. rewrite !list_elem_of_In, filter_In, negb_true_iff, Nat.eqb_neq. done. Qed.

Lemma same_number (l : list (nat * Mode)) i m m' :
  NoDup (map fst l) -> (i, m) ∈ l -> (i, m') ∈ l -> m = m'.
Proof.
  intros Hn [j Hj]%list_elem_of_lookup [k Hk]%list_elem_of_lookup.
  assert (j = k) as ->; [|congruence].
  apply (NoDup_lookup (map fst l) j k i Hn); by rewrite list_lookup_fmap, ?Hj, ?Hk.
Qed.

Lemma NoDup_ended i (l : list (nat * Mode)) :
  NoDup (map fst l) -> NoDup (map fst (List.filter (fun r => negb (Nat.eqb i r.1)) l)).
Proof.
  induction l as [|[j m] l IH]; [done|]. cbn [map fst List.filter]. intros [Hj Hl]%list.NoDup_cons.
  destruct (Nat.eqb i j) eqn:E; cbn [negb map fst]; [auto|]. apply list.NoDup_cons. split; [|auto].
  intros ([k m'] & -> & Hk)%list_elem_of_fmap. apply elem_of_ended in Hk as [Hk _].
  apply Hj. apply list_elem_of_fmap. by exists (k, m').
Qed.

(** A flag stays explained by a load that is still running. *)
Lemma flag_explained (s : Loader Data) i mode flag md :
  NoDup (map fst (running s)) -> (i, mode) ∈ running s -> mode <> md ->
  (flag = true -> exists j, (j, md) ∈ running s) ->
  flag = true -> exists j, (j, md) ∈ List.filter (fun r => negb (Nat.eqb i r.1)) (running s).
Proof.
  intros Hn Hi Hne Hf Hflag. destruct (Hf Hflag) as [j Hj]. exists j. apply elem_of_ended. split; [done|].
  intros <-. by destruct Hne; eapply same_number.
Qed.

Lemma sim_end i mode a s v :
  simulates s v -> (i, mode) ∈ running s -> simulates (load_end i mode a s) (view_step v (End i a)).
Proof.
  intros Hs Hin. pose proof (sim_numbered _ _ Hs) as Hn.
  constructor; cbn [view_step loads newest open]; try apply Hs;
    cbn [load_end running isLoading isRefreshing aborted].
  - intros j md [Hj _]%elem_of_ended. by apply Hs.
  - by apply NoDup_ended.
  - destruct mode; [done|..]; (eapply flag_explained; [done..|apply Hs]).
  - destruct mode; [|done|]; (eapply flag_explained; [done..|apply Hs]).
Qed.

Lemma loader_reaches_simulates d es s : reaches d es s -> simulates s (view d es).
Proof.
  induction 1 as [|es e s s' Hr IH Hstep].
  - constructor; cbn; try done.
    + by intros i ?%elem_of_nil.
    + intros i md [= -> ->]%list_elem_of_singleton. split_and!; [lia|done|].
      split; [by intros ?%elem_of_nil|by intros [|]].
    + apply NoDup_singleton.
    + intros _. exists 0%nat. by left.
  - rewrite view_snoc. destruct Hstep; auto using loader_sim_start, sim_end, sim_click, loader_sim_unmount.
Qed.

(** ** What is shown *)

(** The data and the error on display are those of the specification. *)
Lemma shown_step s v e s' :
  simulates s v -> step s e s' -> shown s = on_show v -> shown s' = on_show (view_step v e).
Proof.
  intros Hs Hstep He. destruct Hstep as [mode s Hm|i mode a s Hi|x s Hm|s Hm];
    cbn [load_start page_act unmount shown view_step on_show]; rewrite ?He; try done.
  destruct (sim_running _ _ Hs i mode Hi) as (_ & Hmode & Hab). cbn [load_end shown].
  rewrite (sim_open _ _ Hs), He. destruct (open v) eqn:Eo; cbn [negb]; [|done].
  destruct (Nat.eqb_spec (S i) (loads v)) as [E|E].
  - rewrite bool_decide_eq_false_2, (Hmode E); [done|]. intros [|]%Hab; congruence.
  - by rewrite bool_decide_eq_true_2 by (apply Hab; by left).
Qed.

Lemma shown_spec d es s : reaches d es s -> shown s = on_show (view d es).
Proof.
  induction 1 as [|es e s s' Hr IH Hstep]; [done|]. rewrite view_snoc.
  by eapply shown_step; [apply loader_reaches_simulates| |].
Qed.

(** The events without the ends of overtaken loads, [n] loads having been
    started before them. *)
Fixpoint without_overtaken (n : nat) (es : list Event) : list Event :=
  match es with
  | [] => []
  | Start mode :: es => Start mode :: without_overtaken (S n) es
  | End i a :: es => if Nat.eqb (S i) n then End i a :: without_overtaken n es else without_overtaken n es
  | e :: es => e :: without_overtaken n es
  end.

(** A page that ignores an aborted load shows what it would without it. *)
Lemma quiet_view `{!QuietAbort Data Answer Act} es v :
  fold_left view_step (without_overtaken (loads v) es) v = fold_left view_step es v.
Proof.
  revert v. induction es as [|[mode|i a|x|] es IH]; intros v; cbn [without_overtaken fold_left]; [done|..].
  - exact (IH (view_step v (Start mode))).
  - destruct (Nat.eqb (S i) (loads v)) eqn:E; cbn [fold_left]; [exact (IH (view_step v (End i a)))|].
    rewrite IH. f_equal. cbn [view_step]. rewrite E, quiet_abort. by destruct v as [l n s []].
  - exact (IH (view_step v (Click x))).
  - exact (IH (view_step v Unmount)).
Qed.

(** [C13] What a polled page shows: for every page of this kind, whatever
    loads start, overlap, are aborted and end in any order between the
    clicks of the user, until it is closed the page shows what is made of
    its initial data by the answers of the loads that were the newest when
    they ended (through [settle], at the mode they were started with), by
    the ends of the others (through what the page does on an AbortError)
    and by the clicks, in their order.  On a page that ignores an AbortError
    the loads that were overtaken might as well never have ended.  The page
    says it loads or refreshes only while such a load is under way. *)
Theorem page_shows_newest (d : Data) (es : list Event) (s : Loader Data) :
  reaches d es s ->
  shown s = on_show (view d es)
  /\ (QuietAbort Data Answer Act -> shown s = on_show (view d (without_overtaken 0 es)))
  /\ (isLoading s = true -> exists i, (i, initial) ∈ running s)
  /\ (isRefreshing s = true -> exists i, (i, refresh) ∈ running s).
Proof.
  intros Hr. pose proof (loader_reaches_simulates d es s Hr) as Hs.
  split_and!; [by apply shown_spec| |apply Hs..].
  intros Hq. rewrite (shown_spec d es s Hr). symmetry. apply (f_equal on_show), (quiet_view es (view_init d)).
Qed.

(** Every load is overtaken before it ends, as by a server that takes longer
    than the interval of the timer. *)
Fixpoint starved (n : nat) (es : list Event) : bool :=
  match es with
  | [] => true
  | Start _ :: es => starved (S n) es
  | End i _ :: es => Nat.ltb (S i) n && starved n es
  | _ :: _ => false
  end.

Lemma starved_view `{!QuietAbort Data Answer Act} es v :
  starved (loads v) es = true -> on_show (fold_left view_step es v) = on_show v.
Proof.
  rewrite <- quiet_view. revert v.
  induction es as [|[mode|i a|x|] es IH]; intros v; cbn [starved without_overtaken fold_left]; try done.
  - exact (IH (view_step v (Start mode))).
  - intros [Hi%Nat.ltb_lt H]%andb_prop.
    replace (Nat.eqb (S i) (loads v)) with false by (symmetry; apply Nat.eqb_neq; lia). by apply IH.
Qed.

(** Such a page shows its initial data for ever, and no error. *)
Lemma slow_server_starves `{!QuietAbort Data Answer Act} d es s :
  reaches d es s -> starved 0 es = true -> shown s = {| data := d; error := None |}.
Proof. intros Hr Hs. rewrite (shown_spec d es s Hr). by apply starved_view. Qed.

(** ** Invariants of the data *)

Lemma page_invariant (I : Data -> Prop) `{!PageInvariant I} d es s :
  I d -> reaches d es s -> I (data (shown s)).
Proof.
  intros Hd. induction 1 as [|es e s s' Hr IH Hstep]; [done|].
  destruct Hstep; cbn [load_start load_end page_act unmount shown data]; try done.
  - destruct (negb _); [done|]. case_bool_decide; [by apply invariant_overtaken|by apply invariant_settle].
  - by apply invariant_act.
Qed.
End Protocol.
