(* ===== verification/Tables.v ===== *)
(** * Tables of the pages

    What the tables of several pages share: sets of selected rows, which
    iterate in the order of insertion, pages of a fixed size, and the
    direction of a sorted column.  The code writes these in place in each
    page; the definitions name one place each. *)

From stdpp Require Import sets.
From S2P Require Import Prelude JsString RenderModel RenderLaws.

(** ** Sets of strings *)

Definition has (l : list string) (x : string) : bool := existsb (String.eqb x) l.

(** [new Set(l)] *)
Definition set_of (l : list string) : list string :=
  fold_left (fun acc x => if has acc x then acc else acc ++ [x]) l [].

(** A click on a row: out of the selection, or into it. *)
Definition set_toggle (x : string) (l : list string) : list string :=
  if has l x then List.filter (fun y => y !== x) l else l ++ [x].

Lemma has_true l x : has l x = true <-> x ∈ l.
Proof.
  unfold has. rewrite existsb_exists, list_elem_of_In. split.
  - by intros (y & Hy & ->%String.eqb_eq).
  - intros Hx. exists x. split; [done|by apply String.eqb_eq].
Qed.

Lemma has_false l x : has l x = false <-> x ∉ l.
Proof. rewrite <- has_true. by destruct (has l x). Qed.

Lemma set_of_acc l acc :
  NoDup acc ->
  NoDup (fold_left (fun acc x => if has acc x then acc else acc ++ [x]) l acc)
  /\ forall x, x ∈ fold_left (fun acc x => if has acc x then acc else acc ++ [x]) l acc <-> x ∈ acc \/ x ∈ l.
Proof.
  revert acc. induction l as [|y l IH]; intros acc Hacc; cbn [fold_left].
  { split; [done|]. intros x. rewrite elem_of_nil. tauto. }
  destruct (has acc y) eqn:E.
  - destruct (IH acc Hacc) as [Hn He]. split; [done|]. intros x. rewrite He, elem_of_cons.
    apply has_true in E. set_solver.
  - apply has_false in E. destruct (IH (acc ++ [y])) as [Hn He].
    { apply list.NoDup_app. split_and!; [done| |apply NoDup_singleton]. set_solver. }
    split; [done|]. intros x. rewrite He. set_solver.
Qed.

Lemma set_of_nodup l : NoDup (set_of l).
Proof. apply set_of_acc, NoDup_nil_2. Qed.

Lemma elem_of_set_of l x : x ∈ set_of l <-> x ∈ l.
Proof. unfold set_of. rewrite (proj2 (set_of_acc l [] (NoDup_nil_2))). set_solver. Qed.

Lemma set_of_id l : NoDup l -> set_of l = l.
Proof.
  enough (forall acc, NoDup (acc ++ l) ->
    fold_left (fun acc x => if has acc x then acc else acc ++ [x]) l acc = acc ++ l) as H by apply (H []).
  induction l as [|x l IH]; intros acc Hn; cbn [fold_left]; [by rewrite app_nil_r|].
  assert (has acc x = false) as ->.
  { apply has_false. intros Hx. apply list.NoDup_app in Hn as (_ & Hd & _). apply (Hd x Hx). left. }
  rewrite IH; rewrite <- app_assoc; done.
Qed.

Lemma set_of_set l l' : set_of (set_of l ++ l') = set_of (l ++ l').
Proof.
  pose proof (set_of_id _ (set_of_nodup l)) as H. unfold set_of in *. by rewrite !fold_left_app, H.
Qed.

(** The order of [Array.prototype.sort] without a comparator. *)
Lemma text_asym a b : String.ltb a b = true -> String.ltb b a = false.
Proof. unfold String.ltb. rewrite (String.compare_antisym b a). by destruct (String.compare a b). Qed.

Lemma text_negtrans a b c : String.ltb a b = false -> String.ltb b c = false -> String.ltb a c = false.
Proof.
  unfold String.ltb. revert b c. induction a as [|x a IH]; intros [|y b] [|z c]; cbn; try done.
  unfold Ascii.compare. destruct (N.compare_spec (N_of_ascii x) (N_of_ascii y)) as [Hxy|Hxy|Hxy]; try done;
    destruct (N.compare_spec (N_of_ascii y) (N_of_ascii z)) as [Hyz|Hyz|Hyz]; try done;
    destruct (N.compare_spec (N_of_ascii x) (N_of_ascii z)) as [Hxz|Hxz|Hxz]; try done; try lia.
  apply IH.
Qed.

Lemma sorted_set l :
  let l' := stable_sort String.ltb (set_of l) in
  NoDup l' /\ in_order String.ltb l' /\ forall x, x ∈ l' <-> x ∈ l.
Proof.
  cbn. split_and!.
  - rewrite stable_sort_perm. apply set_of_nodup.
  - apply stable_sort_order; [apply text_asym|apply text_negtrans].
  - intros x. by rewrite stable_sort_perm, elem_of_set_of.
Qed.

Lemma elem_of_keep (f : string -> bool) l x : x ∈ List.filter f l <-> x ∈ l /\ f x = true.
Proof. by rewrite !list_elem_of_In, filter_In. Qed.

Lemma nodup_keep (f : string -> bool) l : NoDup l -> NoDup (List.filter f l).
Proof.
  induction l as [|x l IH]; [done|]. intros [Hx Hl]%list.NoDup_cons. cbn.
  destruct (f x); [|auto]. apply list.NoDup_cons. split; [|auto]. by intros [? _]%elem_of_keep.
Qed.

Lemma set_toggle_nodup x l : NoDup l -> NoDup (set_toggle x l).
Proof.
  intros Hl. unfold set_toggle. destruct (has l x) eqn:E; [by apply nodup_keep|].
  apply has_false in E. apply list.NoDup_app. split_and!; [done| |apply NoDup_singleton]. set_solver.
Qed.

(** A toggle changes the row clicked and no other. *)
Lemma elem_of_toggle x y l :
  NoDup l -> (y ∈ set_toggle x l <-> if decide (x = y) then x ∉ l else y ∈ l).
Proof.
  intros Hl. unfold set_toggle. destruct (has l x) eqn:E.
  - apply has_true in E. rewrite elem_of_keep, negb_true_iff, String.eqb_neq.
    destruct (decide (x = y)) as [->|]; [tauto|]. naive_solver.
  - apply has_false in E. destruct (decide (x = y)) as [->|]; set_solver.
Qed.

Lemma filter_all {A} (f : A -> bool) l : (forall x, f x = true) -> List.filter f l = l.
Proof. intros Hf. induction l as [|x l IH]; cbn; [done|]. by rewrite Hf, IH. Qed.

(** The length of what a predicate keeps. *)
Definition count_if {A} (f : A -> bool) (l : list A) : nat := length (List.filter f l).

Lemma count_if_le {A} (f : A -> bool) l : (count_if f l <= length l)%nat.
Proof. apply filter_length_le. Qed.

Lemma count_if_split {A} (f : A -> bool) l : count_if f l + count_if (fun x => negb (f x)) l = length l.
Proof. unfold count_if. induction l as [|x l IH]; [done|]. cbn. destruct (f x); cbn; lia. Qed.

(** ** Pages *)

Section Pages.
Context {A : Type} (size : nat).

(** [Math.ceil(n / size)] *)
Definition page_count (n : nat) : nat := (n + (size - 1)) / size.

(** [rows.slice((page - 1) * size, page * size)] *)
Definition page_rows (page : nat) (rows : list A) : list A := take size (drop ((page - 1) * size) rows).

(** The effect that keeps the current page in range. *)
Definition clamp_page (page n : nat) : nat :=
  let totalPages := Nat.max 1 (page_count n) in
  if Nat.ltb totalPages page then totalPages else page.

Lemma clamp_range page n : (1 <= page)%nat -> (1 <= clamp_page page n <= Nat.max 1 (page_count n))%nat.
Proof. intros H. unfold clamp_page. destruct (Nat.ltb_spec (Nat.max 1 (page_count n)) page); lia. Qed.

Lemma clamp_id page n : (page <= Nat.max 1 (page_count n))%nat -> clamp_page page n = page.
Proof. intros H. unfold clamp_page. destruct (Nat.ltb_spec (Nat.max 1 (page_count n)) page); lia. Qed.

Context (Hsize : (0 < size)%nat).

Lemma page_count_cons n : (0 < n)%nat -> page_count n = S (page_count (n - size)).
Proof.
  intros Hn. unfold page_count. destruct (Nat.le_gt_cases size n) as [H|H].
  - replace (n + (size - 1))%nat with ((n - size + (size - 1)) + 1 * size)%nat by lia.
    rewrite Nat.div_add by lia. lia.
  - replace (n - size)%nat with 0%nat by lia. rewrite (Nat.div_small (0 + _)) by lia.
    symmetry. apply (Nat.div_unique _ _ 1 (n - 1)); lia.
Qed.

(** The pages, one after another, are the rows. *)
Lemma pages_partition (rows : list A) :
  concat (map (fun page => page_rows page rows) (seq 1 (page_count (length rows)))) = rows.
Proof.
  remember (length rows) as n eqn:En. revert rows En.
  induction n as [n IH] using lt_wf_ind. intros rows ->.
  destruct (decide (length rows = 0%nat)) as [H0|H0].
  { apply nil_length_inv in H0 as ->. unfold page_count. cbn. by rewrite Nat.div_small by lia. }
  rewrite page_count_cons by lia. cbn [seq map concat].
  replace (page_rows 1 rows) with (take size rows) by done.
  rewrite <- seq_shift, map_map.
  erewrite map_ext_in; [rewrite <- (length_drop rows size)|].
  - rewrite (IH (length (drop size rows))); [apply take_drop|rewrite length_drop; lia|done].
  - intros page Hp. apply in_seq in Hp. unfold page_rows. rewrite drop_drop. do 2 f_equal.
    destruct page as [|page]; [lia|]. cbn. rewrite !Nat.sub_0_r. lia.
Qed.

(** A page in range shows something. *)
Lemma page_shows_rows (page : nat) (rows : list A) :
  (1 <= page <= page_count (length rows))%nat -> page_rows page rows <> [].
Proof.
  intros [H1 H2] E. apply (f_equal length) in E. unfold page_rows in E. cbn in E.
  rewrite length_take, length_drop in E.
  assert ((page - 1) * size < length rows)%nat; [|lia].
  unfold page_count in H2.
  pose proof (Nat.div_mod_eq (length rows + (size - 1)) size).
  assert (page * size <= length rows + (size - 1))%nat by nia. nia.
Qed.

(** The page the table shows is empty only when there are no rows. *)
Lemma clamped_page_shows page (rows : list A) :
  (1 <= page)%nat -> rows <> [] -> page_rows (clamp_page page (length rows)) rows <> [].
Proof.
  intros Hp Hr. apply page_shows_rows. pose proof (clamp_range page (length rows) Hp).
  assert (0 < length rows)%nat by (destruct rows; [done|cbn; lia]).
  rewrite (page_count_cons (length rows)) in * by lia. lia.
Qed.
End Pages.

(** ** Sorted columns *)

Inductive SortDir := asc | desc.

Definition flip (dir : SortDir) : SortDir := match dir with asc => desc | desc => asc end.

(** The comparison of a column in its direction; ties keep their order. *)
Definition directed {A} (dir : SortDir) (before : A -> A -> bool) (a b : A) : bool :=
  match dir with asc => before a b | desc => before b a end.

Definition sorted_by {A} (dir : SortDir) (before : A -> A -> bool) (rows : list A) : list A :=
  stable_sort (directed dir before) rows.

Lemma sorted_by_perm {A} dir (before : A -> A -> bool) rows : sorted_by dir before rows ≡ₚ rows.
Proof. apply stable_sort_perm. Qed.

Lemma sorted_by_order {A} dir (before : A -> A -> bool) rows :
  (forall a b, before a b = true -> before b a = false) ->
  (forall a b c, before a b = false -> before b c = false -> before a c = false) ->
  in_order (directed dir before) (sorted_by dir before rows).
Proof.
  intros Ha Ht. apply stable_sort_order; destruct dir; cbn; eauto.
Qed.
