(* ===== verification/DevicePage.v ===== *)
(** * The page of devices

    src/app/device-management/components/DeviceManagementContent.tsx: the
    polled list of devices, its filters, order and pages, the selection, the
    drawer with the detail of a device, and commands sent to the selection.
    [DeviceData] is the state of the component besides that of its loader
    ([Loader]); after every change the effects that open the device named in
    the URL and keep the current page in range have run ([effects]).
    [date_parse] and [local] are the parameters of Module DateTime, [locale]
    the negative result of localeCompare, [uuid] numbers the random
    identifiers. *)

From stdpp Require Import sets.
From S2P Require Import Prelude JsNumber JsString JsValue Http Session Commands RenderModel RenderLaws Devices Loader Tables.
Import Rows.

Local Open Scope Z_scope.

(** ** State *)

Inductive SortKey :=
| by_id | by_hostname | by_osBuild | by_owner | by_status | by_riskScore | by_compliance
| by_lastSeen | by_agentVersion.

#[export] Instance SortKey_eq_dec : EqDecision SortKey.
Proof. solve_decision. Defined.

(** [detail] is the device whose detail is awaited. *)
Record DeviceData := {
  devices : list Device;
  search : string;
  statusFilter : string;
  statusCsvFilter : option (list DeviceStatus);
  complianceFilter : string;
  sortKey : SortKey;
  sortDir : SortDir;
  selectedIds : list string;
  selectedDevice : option Device;
  currentPage : nat;
  pendingOpenDeviceId : option string;
  detail : option Device;
}.

Definition device_init : DeviceData :=
  {| devices := []; search := ""; statusFilter := "all"; statusCsvFilter := None;
     complianceFilter := "all"; sortKey := by_lastSeen; sortDir := desc; selectedIds := [];
     selectedDevice := None; currentPage := 1; pendingOpenDeviceId := None; detail := None |}.

Definition pageSize : nat := 10.

Definition setDevices (l : list Device) (d : DeviceData) : DeviceData :=
  {| devices := l; search := search d; statusFilter := statusFilter d;
     statusCsvFilter := statusCsvFilter d; complianceFilter := complianceFilter d;
     sortKey := sortKey d; sortDir := sortDir d; selectedIds := selectedIds d;
     selectedDevice := selectedDevice d; currentPage := currentPage d;
     pendingOpenDeviceId := pendingOpenDeviceId d; detail := detail d |}.
Definition setFilters (s st : string) (csv : option (list DeviceStatus)) (c : string) (d : DeviceData) : DeviceData :=
  {| devices := devices d; search := s; statusFilter := st; statusCsvFilter := csv; complianceFilter := c;
     sortKey := sortKey d; sortDir := sortDir d; selectedIds := selectedIds d;
     selectedDevice := selectedDevice d; currentPage := 1;
     pendingOpenDeviceId := pendingOpenDeviceId d; detail := detail d |}.
Definition setSort (k : SortKey) (dir : SortDir) (d : DeviceData) : DeviceData :=
  {| devices := devices d; search := search d; statusFilter := statusFilter d;
     statusCsvFilter := statusCsvFilter d; complianceFilter := complianceFilter d;
     sortKey := k; sortDir := dir; selectedIds := selectedIds d;
     selectedDevice := selectedDevice d; currentPage := currentPage d;
     pendingOpenDeviceId := pendingOpenDeviceId d; detail := detail d |}.
Definition setSelectedIds (l : list string) (d : DeviceData) : DeviceData :=
  {| devices := devices d; search := search d; statusFilter := statusFilter d;
     statusCsvFilter := statusCsvFilter d; complianceFilter := complianceFilter d;
     sortKey := sortKey d; sortDir := sortDir d; selectedIds := l;
     selectedDevice := selectedDevice d; currentPage := currentPage d;
     pendingOpenDeviceId := pendingOpenDeviceId d; detail := detail d |}.
Definition setCurrentPage (page : nat) (d : DeviceData) : DeviceData :=
  {| devices := devices d; search := search d; statusFilter := statusFilter d;
     statusCsvFilter := statusCsvFilter d; complianceFilter := complianceFilter d;
     sortKey := sortKey d; sortDir := sortDir d; selectedIds := selectedIds d;
     selectedDevice := selectedDevice d; currentPage := page;
     pendingOpenDeviceId := pendingOpenDeviceId d; detail := detail d |}.
(** The drawer: the device it shows and the one whose detail is awaited. *)
Definition setDrawer (shown awaited : option Device) (d : DeviceData) : DeviceData :=
  {| devices := devices d; search := search d; statusFilter := statusFilter d;
     statusCsvFilter := statusCsvFilter d; complianceFilter := complianceFilter d;
     sortKey := sortKey d; sortDir := sortDir d; selectedIds := selectedIds d;
     selectedDevice := shown; currentPage := currentPage d;
     pendingOpenDeviceId := pendingOpenDeviceId d; detail := awaited |}.
Definition setPendingOpen (p : option string) (d : DeviceData) : DeviceData :=
  {| devices := devices d; search := search d; statusFilter := statusFilter d;
     statusCsvFilter := statusCsvFilter d; complianceFilter := complianceFilter d;
     sortKey := sortKey d; sortDir := sortDir d; selectedIds := selectedIds d;
     selectedDevice := selectedDevice d; currentPage := currentPage d;
     pendingOpenDeviceId := p; detail := detail d |}.

(** ** The table *)

(** [matchSearch && matchStatus && matchCompliance] *)
Definition device_matches (d : DeviceData) (x : Device) : bool :=
  let loweredSearch := toLowerCase (trim (search d)) in
  let matchSearch :=
    negb (truthy_str loweredSearch) || includes (toLowerCase (hostname x)) loweredSearch
    || includes (toLowerCase (id x)) loweredSearch || includes (toLowerCase (owner x)) loweredSearch in
  let matchStatus :=
    match statusCsvFilter d with
    | Some (_ :: _ as statuses) => existsb (fun s => status_str s === status_str (status x)) statuses
    | _ => (statusFilter d === "all") || (status_str (status x) === statusFilter d)
    end in
  let matchCompliance :=
    (complianceFilter d === "all") || (compliance_str (compliance x) === complianceFilter d) in
  matchSearch && matchStatus && matchCompliance.

Section Table.
Context (date_parse : string -> option Z) (locale : string -> string -> bool).

(** The comparison of two rows by a column, ascending. *)
Definition column_before (key : SortKey) (a b : Device) : bool :=
  match key with
  | by_lastSeen =>
      match date_parse (lastSeen a), date_parse (lastSeen b) with
      | Some av, Some bv => av <? bv
      | _, _ => locale (lastSeen a) (lastSeen b)
      end
  | by_id => locale (id a) (id b)
  | by_hostname => locale (hostname a) (hostname b)
  | by_osBuild => locale (osBuild a) (osBuild b)
  | by_owner => locale (owner a) (owner b)
  | by_status => locale (status_str (status a)) (status_str (status b))
  | by_compliance => locale (compliance_str (compliance a)) (compliance_str (compliance b))
  | by_agentVersion => locale (agentVersion a) (agentVersion b)
  | by_riskScore => Num.lt (riskScore a) (riskScore b)
  end.

Definition filtered (d : DeviceData) : list Device :=
  sorted_by (sortDir d) (column_before (sortKey d)) (List.filter (device_matches d) (devices d)).

Definition paginatedData (d : DeviceData) : list Device := page_rows pageSize (currentPage d) (filtered d).

Definition toggleSort (key : SortKey) (d : DeviceData) : DeviceData :=
  if decide (sortKey d = key) then setSort key (flip (sortDir d)) d else setSort key asc d.

Definition toggleSelect (x : string) (d : DeviceData) : DeviceData :=
  setSelectedIds (set_toggle x (selectedIds d)) d.

Definition toggleAll (d : DeviceData) : DeviceData :=
  if Nat.eqb (length (selectedIds d)) (length (filtered d)) then setSelectedIds [] d
  else setSelectedIds (set_of (map id (filtered d))) d.

(** [useSearchParams] *)
Definition url_params (statusParam idParam : option string) (d : DeviceData) : DeviceData :=
  let d := match parseStatusCsv statusParam with
           | [] => d
           | [st] => setFilters (search d) (status_str st) None (complianceFilter d) d
           | statuses => setFilters (search d) "all" (Some statuses) (complianceFilter d) d
           end in
  match idParam with
  | Some x => if truthy_str x then setPendingOpen (Some x) d else d
  | None => d
  end.

(** ** The drawer *)

(** [openDeviceWithDetail] up to its request, which replaces the one before. *)
Definition open_device (x : string) (d : DeviceData) : DeviceData :=
  match List.find (fun y => id y === x) (devices d) with
  | Some base => setDrawer (Some base) (Some base) d
  | None => d
  end.

Definition detail_request (x : string) (enc : string -> string) : FetchRequest :=
  {| f_method := "GET"; f_url := "/api/devices/" +:+ enc x; f_headers := []; f_body := None |}.

Context (local : Z -> LocalTime).

(** The rest of it. *)
Definition detail_end (r : Reply DetailDeviceApi) (d : DeviceData) : DeviceData :=
  match detail d with
  | None => d
  | Some base =>
      let d := setDrawer (selectedDevice d) None d in
      match payload_of r with
      | None => d
      | Some payload =>
          let merged := mergeDeviceDetail date_parse local base payload in
          setDrawer (Some merged) None
            (setDevices (map (fun y => if id y === id merged then merged else y) (devices d)) d)
      end
  end.

(** ** Effects and clicks *)

Definition open_pending (d : DeviceData) : DeviceData :=
  match pendingOpenDeviceId d, devices d with
  | Some x, _ :: _ => setPendingOpen None (open_device x d)
  | _, _ => d
  end.

Definition clamp_current (d : DeviceData) : DeviceData :=
  setCurrentPage (clamp_page pageSize (currentPage d) (length (filtered d))) d.

Definition effects (d : DeviceData) : DeviceData := clamp_current (open_pending d).

Inductive Act :=
| Search (s : string) | FilterStatus (s : string) | FilterCompliance (s : string) | ClearFilters
| ToggleSort (key : SortKey) | ToggleSelect (x : string) | ToggleAll | ClearSelection
| GoTo (page : nat) | UrlParams (statusParam idParam : option string)
| Open (x : string) | DetailEnd (r : Reply DetailDeviceApi) | CloseDrawer.

(** A row is clicked only where it is shown, a page only where it exists. *)
Definition click (a : Act) (d : DeviceData) : DeviceData :=
  match a with
  | Search s => setFilters s (statusFilter d) (statusCsvFilter d) (complianceFilter d) d
  | FilterStatus s => setFilters (search d) s None (complianceFilter d) d
  | FilterCompliance s => setFilters (search d) (statusFilter d) (statusCsvFilter d) s d
  | ClearFilters => setFilters "" "all" None "all" d
  | ToggleSort key => toggleSort key d
  | ToggleSelect x => if has (map id (paginatedData d)) x then toggleSelect x d else d
  | ToggleAll => toggleAll d
  | ClearSelection => setSelectedIds [] d
  | GoTo page =>
      if Nat.leb 1 page && Nat.leb page (page_count pageSize (length (filtered d)))
      then setCurrentPage page d else d
  | UrlParams statusParam idParam => url_params statusParam idParam d
  | Open x => open_device x d
  | DetailEnd r => detail_end r d
  | CloseDrawer => setDrawer None (detail d) d
  end.

(** ** Loading *)

Definition list_request : FetchRequest :=
  {| f_method := "GET"; f_url := "/api/devices?per_page=200"; f_headers := []; f_body := None |}.

(** [fetchDevices] after its response. *)
Definition devices_end (mode : Mode) (r : Reply (list ListDeviceApi)) (s : Shown DeviceData) : Shown DeviceData :=
  let d := data s in
  match payload_of r with
  | Some rows =>
      let mapped := map (mapListDevice date_parse local) rows in
      {| data := effects (setSelectedIds (List.filter (fun x => existsb (fun y => id y === x) mapped)
                                            (selectedIds d)) (setDevices mapped d));
         error := None |}
  | None =>
      {| data := match mode with
                 | initial => effects (setSelectedIds [] (setDevices [] d))
                 | _ => d
                 end;
         error := Some "Failed to load data" |}
  end.

#[export] Instance device_page : Page DeviceData (Reply (list ListDeviceApi)) Act := {
  settle := devices_end;
  overtaken := fun _ s => s;
  act := fun a d => effects (click a d);
}.

#[export] Instance device_page_quiet : QuietAbort DeviceData (Reply (list ListDeviceApi)) Act.
Proof. by intros r s. Qed.
End Table.

(** ** Commands to the selection *)

Section Batch.
Context (uuid : nat -> string).

Definition dispatch_request (k : nat) (deviceId method : string) (params : obj) (sensitive : bool) : FetchRequest :=
  {| f_method := "POST"; f_url := "/api/commands"; f_headers := [json_content];
     f_body := Some (json_text
       [("client_message_id", JStr ("dm-" +:+ deviceId +:+ "-" +:+ method +:+ "-" +:+ uuid k));
        ("device_id", JStr deviceId); ("method", JStr method); ("params", JObj params);
        ("sensitive", JBool sensitive)]) |}.

(** [dispatchCommandToDevice] after its response: the command's id, or why
    there is none; [Exn] when the request rejects. *)
Definition dispatch_result (r : option FetchResponse) : res (jsval + jsval) :=
  match r with
  | None => Exn "Failed to fetch"
  | Some response =>
      let data := json_or_empty response in
      let! command_id := member data "command_id" in
      if negb (ok response) || negb (truthy command_id)
      then Ok (inr (vnullish (prop data "reason") (vnullish (prop data "message")
                      (JStr ("http_" +:+ Num.digits (Http.status response))))))
      else Ok (inl command_id)
  end.

Definition batch_requests (method : string) (params : obj) (sensitive : bool) (d : DeviceData) : list FetchRequest :=
  imap (fun k deviceId => dispatch_request k deviceId method params sensitive) (selectedIds d).

Definition plural (n : nat) : string := if Nat.eqb n 1 then "" else "s".
Definition is_sent (r : jsval + jsval) : bool := match r with inl _ => true | inr _ => false end.

(** [dispatchBatch] after its responses: the messages it shows. *)
Definition batch_report (label : string) (rs : list (option FetchResponse)) : list string :=
  match res_mapM dispatch_result rs with
  | Exn _ => ["Failed to load data"]
  | Ok results =>
      let successCount := length (List.filter is_sent results) in
      let failCount := (length results - successCount)%nat in
      (if Nat.ltb 0 successCount
       then [label +:+ ": dispatched to " +:+ Num.digits (Z.of_nat successCount) +:+ " device" +:+ plural successCount]
       else [])
      ++ (if Nat.ltb 0 failCount
          then [label +:+ ": failed for " +:+ Num.digits (Z.of_nat failCount) +:+ " device" +:+ plural failCount]
          else [])
  end.
End Batch.

(** ** Laws *)

Section Laws.
Context (date_parse : string -> option Z) (locale : string -> string -> bool) (local : Z -> LocalTime).

Abbreviation listing := (filtered date_parse locale).
Abbreviation effects' := (effects date_parse locale).
Abbreviation click' := (click date_parse locale local).

Definition selection_ok (d : DeviceData) : Prop :=
  NoDup (selectedIds d) /\ selectedIds d ⊆ map id (devices d) /\ (1 <= currentPage d)%nat.

Definition coherent (d : DeviceData) : Prop :=
  selection_ok d /\ (currentPage d <= Nat.max 1 (page_count pageSize (length (listing d))))%nat.

Lemma open_pending_ok d : selection_ok d -> selection_ok (open_pending d).
Proof.
  intros H. unfold open_pending. destruct (pendingOpenDeviceId d) as [x|]; [|done].
  destruct (devices d) eqn:E; [done|]. unfold open_device. by destruct (List.find _ _).
Qed.

Lemma effects_coherent d : selection_ok d -> coherent (effects' d).
Proof.
  intros H%open_pending_ok. unfold effects, coherent, selection_ok. destruct H as (Hn & Hs & Hp).
  pose proof (clamp_range pageSize (currentPage (open_pending d))
    (length (listing (open_pending d))) Hp) as [H1 H2].
  split; [|exact H2]. by split_and!.
Qed.

(** The rows of the table are devices that are loaded. *)
Lemma listing_perm d : listing d ≡ₚ List.filter (device_matches d) (devices d).
Proof. apply sorted_by_perm. Qed.

Lemma listing_devices d x : x ∈ map id (listing d) -> x ∈ map id (devices d).
Proof.
  intros (y & -> & Hy)%list_elem_of_fmap. rewrite (listing_perm d) in Hy.
  apply list_elem_of_In, filter_In in Hy as [Hy _]. apply list_elem_of_fmap. exists y.
  split; [done|by apply list_elem_of_In].
Qed.

Lemma page_listing d x : x ∈ map id (paginatedData date_parse locale d) -> x ∈ map id (listing d).
Proof.
  intros (y & -> & Hy)%list_elem_of_fmap. apply list_elem_of_fmap. exists y. split; [done|].
  unfold paginatedData, page_rows in Hy. by apply subseteq_take, subseteq_drop in Hy.
Qed.

Lemma replace_ids (m : Device) l : map id (map (fun y => if id y === id m then m else y) l) = map id l.
Proof.
  rewrite map_map. apply map_ext. intros y. by destruct (id y === id m) eqn:E; [apply String.eqb_eq in E|].
Qed.

Lemma none_selected d : (1 <= currentPage d)%nat -> selection_ok (setSelectedIds [] d).
Proof. intros H. split_and!; [apply NoDup_nil_2|cbn; set_solver|done]. Qed.

Lemma click_ok a d : selection_ok d -> selection_ok (click' a d).
Proof.
  intros (Hn & Hs & Hp). destruct a; cbn [click]; try (split_and!; first [done|cbn; lia]).
  - unfold toggleSort. by destruct (decide _); split_and!.
  - destruct (has _ x) eqn:E; [|by split_and!]. apply has_true, page_listing, listing_devices in E.
    split_and!; [by apply set_toggle_nodup| |done]. cbn. intros y Hy.
    apply elem_of_toggle in Hy; [|done]. destruct (decide (x = y)) as [<-|]; [done|by apply Hs].
  - unfold toggleAll. destruct (Nat.eqb _ _); [by apply none_selected|].
    split_and!; [apply set_of_nodup| |done]. cbn. intros y Hy.
    apply (listing_devices d). by apply (elem_of_set_of (map id (listing d))).
  - by apply none_selected.
  - destruct (_ && _) eqn:E; [|by split_and!]. apply andb_prop in E as [E%Nat.leb_le _]. by split_and!.
  - unfold url_params. destruct (parseStatusCsv _) as [|? []], idParam as [x|];
      try destruct (truthy_str x); split_and!; cbn; first [done|lia].
  - unfold open_device. by destruct (List.find _ _); split_and!.
  - unfold detail_end. destruct (detail d) as [base|]; [|by split_and!].
    destruct (payload_of r); [|by split_and!]. split_and!; [done| |done]. cbn [setDrawer setDevices devices selectedIds].
    by rewrite replace_ids.
Qed.

(** A request that sends the method to the device. *)
Definition commands (method x : string) (r : FetchRequest) : Prop :=
  f_method r = "POST" /\ f_url r = "/api/commands"
  /\ exists o, f_body r = Some (json_text o)
      /\ own_get o "device_id" = Some (JStr x) /\ own_get o "method" = Some (JStr method).

Lemma batch_commands uuid method params sensitive d :
  Forall2 (commands method) (selectedIds d) (batch_requests uuid method params sensitive d).
Proof.
  apply Forall2_same_length_lookup_2; [by unfold batch_requests; rewrite length_imap|].
  intros k x r Hx Hr. unfold batch_requests in Hr. rewrite list_lookup_imap, Hx in Hr. injection Hr as <-.
  split_and!; [done..|]. by eexists.
Qed.

#[local] Instance page_of : Page DeviceData (Reply (list ListDeviceApi)) Act :=
  device_page date_parse locale local.

#[local] Instance coherent_invariant : PageInvariant coherent.
Proof.
  split; [|done|].
  - intros mode r s [(Hn & Hs & Hp) Hc]. cbn. unfold devices_end. destruct (payload_of r) as [rows|]; cbn [data].
    + apply effects_coherent. split_and!; [by apply nodup_keep| |done]. cbn.
      intros x [_ Hx]%elem_of_keep. apply existsb_exists in Hx as (y & Hy & <-%String.eqb_eq).
      apply list_elem_of_In. by apply in_map.
    + destruct mode; try done. apply effects_coherent. by apply none_selected.
  - intros a d [Hd _]. cbn. by apply effects_coherent, click_ok.
Qed.

(** [C19] The table of devices: in every state the page can reach, the
    selected devices are distinct and among those loaded, the current page
    is in range and empty only when nothing passes the filters, the pages
    together show exactly the devices that pass, and a command to the
    selection is one request for each selected device and for no other. *)
Theorem device_table_coherent (es : list Event) (s : Loader DeviceData) (uuid : nat -> string)
    (method : string) (params : obj) (sensitive : bool) :
  reaches device_init es s ->
  let d := data (shown s) in
  NoDup (selectedIds d) /\ selectedIds d ⊆ map id (devices d)
  /\ (listing d <> [] -> paginatedData date_parse locale d <> [])
  /\ concat (map (fun page => page_rows pageSize page (listing d))
               (seq 1 (page_count pageSize (length (listing d))))) = listing d
  /\ listing d ≡ₚ List.filter (device_matches d) (devices d)
  /\ Forall2 (commands method) (selectedIds d) (batch_requests uuid method params sensitive d).
Proof.
  intros Hr d. assert (coherent d) as [(Hn & Hs & Hp) Hc].
  { eapply page_invariant; [apply coherent_invariant| |exact Hr]. split; [by apply none_selected|cbn; lia]. }
  split_and!; [done..| | | |].
  - intros Hl. unfold paginatedData. rewrite <- (clamp_id pageSize (currentPage d) (length (listing d)) Hc).
    apply clamped_page_shows; [unfold pageSize; lia|done..].
  - apply pages_partition. unfold pageSize. lia.
  - apply listing_perm.
  - apply batch_commands.
Qed.
End Laws.

(** ** Demonstrations *)

Module DeviceDemo.

Definition no_date (_ : string) : option Z := None.
Definition midnight (_ : Z) : LocalTime :=
  {| fullYear := 2026; month := 1; date := 1; hours := 0; minutes := 0; secs := 0 |}.
Definition device (x host : string) : ListDeviceApi :=
  {| device_id := x;
     listed := {| owner_email := None; device_name := Some host; lifecycle_state := Some "online";
                  last_seen := None; agent_version := None; os_build := None; compliance_status := None;
                  risk_score := None; policy_in_sync := None; kernel_guard := None; ip_address := None;
                  session_id := None; resolved_os_build := None; resolved_presence_state := None;
                  resolved_compliance_status := None; resolved_policy_in_sync := None |} |}.

#[local] Instance demo_page : Page DeviceData (Reply (list ListDeviceApi)) Act :=
  device_page no_date String.ltb midnight.
#[local] Instance demo_quiet : QuietAbort DeviceData (Reply (list ListDeviceApi)) Act :=
  device_page_quiet no_date String.ltb midnight.

Definition fleet : Reply (list ListDeviceApi) := Replied 200 (Some [device "d-1" "alpha"; device "d-2" "beta"]).

(** The list arrives, and the first device is selected. *)
Definition loaded : Loader DeviceData :=
  load_end 0 initial fleet (load_start initial (loader_init device_init)).
Definition picked : Loader DeviceData := page_act (ToggleSelect "d-1") loaded.

Lemma loaded_reached : reaches device_init [Start initial; End 0 fleet] loaded.
Proof.
  apply (reaches_step _ [Start initial] (End 0 fleet) _ _ (reaches_init _)).
  apply (step_end 0 initial). by left.
Qed.

Lemma picked_reached : reaches device_init [Start initial; End 0 fleet; Click (ToggleSelect "d-1")] picked.
Proof.
  apply (reaches_step _ [Start initial; End 0 fleet] (Click (ToggleSelect "d-1")) _ _ loaded_reached).
  by apply step_click.
Qed.

Lemma device_table_coherent_witness :
  selectedIds (data (shown picked)) = ["d-1"]
  /\ Forall2 (commands "ping") ["d-1"]
       (batch_requests (fun _ => "u") "ping" [] false (data (shown picked))).
Proof.
  assert (selectedIds (data (shown picked)) = ["d-1"]) as E by (vm_compute; reflexivity).
  split; [exact E|].
  destruct (device_table_coherent no_date String.ltb midnight _ picked (fun _ => "u") "ping" [] false
    picked_reached) as (_ & _ & _ & _ & _ & H).
  rewrite <- E at 1. exact H.
Defined.

(** The load of the timer overtakes the first one, is answered with one
    device, and only then the first one ends. *)
Definition one_left : Reply (list ListDeviceApi) := Replied 200 (Some [device "d-1" "alpha"]).
Definition polled : list (Event (Answer := Reply (list ListDeviceApi)) (Act := Act)) :=
  [Start initial; Start Loader.silent; End 1 one_left; End 0 fleet].
Definition overlapped : Loader DeviceData :=
  load_end 0 initial fleet (load_end 1 Loader.silent one_left
    (load_start Loader.silent (load_start initial (loader_init device_init)))).

Lemma overlapped_reached : reaches device_init polled overlapped.
Proof.
  apply (reaches_step _ [Start initial; Start Loader.silent; End 1 one_left] (End 0 fleet)
           (load_end 1 Loader.silent one_left (load_start Loader.silent (load_start initial (loader_init device_init))))).
  - apply (reaches_step _ [Start initial; Start Loader.silent] (End 1 one_left)
             (load_start Loader.silent (load_start initial (loader_init device_init)))).
    + apply (reaches_step _ [Start initial] (Start Loader.silent) _ _ (reaches_init _)). by apply step_start.
    + apply step_end. by left.
  - apply step_end. by left.
Qed.

Lemma page_shows_newest_witness :
  shown overlapped = on_show (view device_init [Start initial; Start Loader.silent; End 1 one_left])
  /\ map id (devices (data (shown overlapped))) = ["d-1"].
Proof.
  split; [|vm_compute; reflexivity].
  exact (proj1 (proj2 (page_shows_newest device_init _ overlapped overlapped_reached)) demo_quiet).
Defined.

(** A drawer closed before its detail arrives opens again. *)
Lemma drawer_reopens :
  let d := data (shown loaded) in
  let empty := {| detailed := listed (device "" ""); compliance_of := None; telemetry_risk := None |} in
  let closed := act CloseDrawer (act (Open "d-1") d) in
  selectedDevice closed = None
  /\ selectedDevice (act (DetailEnd (Replied 200 (Some empty))) closed) <> None.
Proof. split; vm_compute; done. Qed.

(** With as many devices selected as pass the filter, 'Select All' clears
    the selection, even when the selected ones do not pass. *)
Lemma select_all_clears :
  let d := act (Search "beta") (data (shown picked)) in
  map id (filtered no_date String.ltb d) = ["d-2"] /\ selectedIds d = ["d-1"]
  /\ selectedIds (act ToggleAll d) = [].
Proof. split_and!; vm_compute; reflexivity. Qed.

(** A silent load that overtakes the first one leaves the page without its
    indicator, without data and without an error. *)
Lemma overtaken_looks_empty :
  let s := load_end 0 initial Unreachable (load_start Loader.silent (load_start initial (loader_init device_init))) in
  isLoading s = false /\ devices (data (shown s)) = [] /\ error (shown s) = None
  /\ running s = [(1%nat, Loader.silent)].
Proof. by split_and!. Qed.

End DeviceDemo.
