(* ===== verification/Dispatching.v ===== *)
(** * Sending commands

    src/app/command-dispatch/components/DispatchCommandModal.tsx: the risk of
    a method, the methods a device offers, the form, its submission and the
    answer.  The operator's console has the same tables and error texts in
    code of its own ([OperatorConsole]).  The form is run by react-hook-form,
    which calls [onSubmit] only with values that pass the rules the code
    registers; these rules are [form_valid]. *)

From S2P Require Import Prelude JsNumber JsString JsValue Http Session Commands RenderModel RenderLaws Tables.
Import Resolver Params.

Local Open Scope Z_scope.

(** ** Methods *)

Inductive Risk := low | medium | high.

#[export] Instance Risk_eq_dec : EqDecision Risk.
Proof. solve_decision. Defined.

Definition MEDIUM_RISK_METHODS : list string :=
  ["lock_screen"; "reboot_device"; "shutdown_device"; "logout_user"].
Definition HIGH_RISK_METHODS : list string :=
  ["wipe_device"; "factory_reset"; "unenroll_device"; "upload_file"; "create_directory"; "create_file";
   "delete_file"; "delete_directory"; "kill_process"; "kill_process_tree"].
Definition TWO_FACTOR_METHODS : list string :=
  ["wipe_device"; "factory_reset"; "shutdown_device"; "upload_file"; "create_directory"; "create_file";
   "delete_file"; "delete_directory"; "kill_process"; "kill_process_tree"].

Definition methodRisk (method : string) : Risk :=
  if has HIGH_RISK_METHODS method then high
  else if has MEDIUM_RISK_METHODS method then medium
  else low.

(** [risk === 'high' || risk === 'medium'] *)
Definition risky (r : Risk) : bool := match r with low => false | _ => true end.

Definition methodDescription (method : string) : string :=
  if method === "ping" then "Send a ping to verify agent connectivity and runtime response."
  else if method === "lock_screen" then
    "Lock the device screen immediately. User will need to re-authenticate."
  else if method === "collect_system_info" then "Collect host profile and operating system information."
  else if method === "list_processes" then "List active processes from the target endpoint."
  else if method === "list_files" then
    "Default scope is C:\Users when path is omitted. Set path to C:\ for a full-drive scan."
  else if method === "upload_file" then "Fetch an artifact by artifact_id and write it to destination path."
  else if method === "create_directory" then
    "Create a directory at an explicit path. Supports recursive parent creation."
  else if method === "create_file" then
    "Create an empty file at an explicit path. Use overwrite=true to truncate existing files."
  else if method === "delete_file" then "Hard-delete a regular file. confirm=true is required."
  else if method === "delete_directory" then
    "Hard-delete a directory recursively. confirm=true is required."
  else if method === "network_info" then "Collect active network interfaces and routes."
  else "Dispatch this command to the selected endpoint.".

Record MethodOption := {
  m_id : string; m_label : string; m_risk : Risk; m_requires2fa : bool; m_desc : string;
}.

Record CapabilitiesResponse := {
  canonical_methods : option (list string);
  runtime_supported_methods : option (list string);
}.

(** The distinct methods of a payload, what runs now before what is known. *)
Definition listed_methods (payload : option CapabilitiesResponse) : list string :=
  let runtime := (payload ≫= runtime_supported_methods) ?? [] in
  let canonical := (payload ≫= canonical_methods) ?? [] in
  let source := if Nat.ltb 0 (length runtime) then runtime else canonical in
  stable_sort String.ltb (set_of (List.filter truthy_str (map trim source))).

Definition buildMethodOptions (payload : option CapabilitiesResponse) : list MethodOption :=
  map (fun x => {| m_id := x; m_label := x; m_risk := methodRisk x;
                   m_requires2fa := has TWO_FACTOR_METHODS x; m_desc := methodDescription x |})
    (listed_methods payload).

(** ** Errors *)

(** [Object.values(errors)] holds lists of messages, or messages. *)
Fixpoint first_message (l : list jsval) : option string :=
  match l with
  | [] => None
  | JArr (JStr s :: _) :: _ => Some s
  | JStr s :: l => if trim s !== "" then Some s else first_message l
  | _ :: l => first_message l
  end.

Definition firstValidationError (errors : jsval) : option string :=
  if negb (truthy errors) || negb (is_object_type errors) then None
  else first_message (map snd (own_entries errors)).

(** [rules.length > 0 ? `compliance_failed: ${rules.join(', ')}` : reason] *)
Definition compliance_text (rules : jsval) : res string :=
  match rules with
  | JArr (_ :: _ as l) =>
      let! parts := res_mapM (fun x => if is_nullish x then Ok "" else to_str x) l in
      Ok ("compliance_failed: " +:+ join ", " parts)
  | JStr (String _ _) => Exn "rules.join is not a function"
  | JObj o =>
      let! n := to_number (get o "length") in
      if Num.gt n Num.zero then Exn "rules.join is not a function" else Ok "compliance_failed"
  | _ => Ok "compliance_failed"
  end.

Definition formatDispatchError (payload : jsval) (statusCode : Z) : res jsval :=
  let! errors := member payload "errors" in
  match firstValidationError errors with
  | Some (String _ _ as m) => Ok (JStr m)
  | _ =>
      let reason := vnullish (prop payload "reason") (vnullish (prop payload "message")
                      (JStr ("http_" +:+ Num.digits statusCode))) in
      match reason with
      | JStr "compliance_failed" =>
          let compliance := prop payload "compliance" in
          let! text := compliance_text (vnullish (if is_nullish compliance then JUndef
                                                  else prop compliance "failed_rules") (JArr [])) in
          Ok (JStr text)
      | _ => Ok reason
      end
  end.

(** The id of the command an answer announces; otherwise the error that is
    thrown, whose message is the text of the reason. *)
Definition dispatch_answer (r : option FetchResponse) : res jsval :=
  match r with
  | None => Exn "Failed to fetch"
  | Some response =>
      let payload := json_or_empty response in
      let! command_id := if ok response then member payload "command_id" else Ok JUndef in
      if truthy command_id then Ok command_id
      else
        let! reason := formatDispatchError payload (Http.status response) in
        let! text := to_str reason in
        Exn text
  end.

(** ** The form *)

Record FormValues := { deviceId : string; method : string; twoFactorCode : string; paramsJson : string }.

(** The modal as it opens, and the parameters it offers for a method. *)
Definition form_init : FormValues := {| deviceId := ""; method := ""; twoFactorCode := ""; paramsJson := "{}" |}.

Definition offered_params (selected : string) : string :=
  if negb (truthy_str selected) then "{}"
  else match defaultParamsForCommand selected with
       | JObj template => json_text_indented template
       | _ => "{}"
       end.

Definition blank (s : string) : bool := trim s === "".

Definition params_valid (hint : jsval) (value : string) : bool :=
  if blank value then negb (truthy hint)
  else match json_parse value with Some (JObj _) => true | _ => false end.

Section Modal.
Context (methods : list MethodOption).

Definition methodMeta (selected : string) : option MethodOption :=
  List.find (fun m => m_id m === selected) methods.
Definition requires2fa (selected : string) : bool :=
  match methodMeta selected with Some m => m_requires2fa m | None => false end.

(** The rules registered with the fields. *)
Definition form_valid (data : FormValues) : bool :=
  let hint := if truthy_str (method data) then requiredParamsHintForCommand (method data) else JNull in
  truthy_str (deviceId data) && truthy_str (method data)
  && (negb (requires2fa (method data)) || Nat.eqb (String.length (twoFactorCode data)) 6)
  && (negb (truthy hint) || truthy_str (paramsJson data)) && params_valid hint (paramsJson data).

(** [JSON.parse(text || '{}')], which must be an object. *)
Definition parse_params (text : string) : option obj :=
  match json_parse (or_str text "{}") with Some (JObj o) => Some o | _ => None end.

Inductive Dispatch := Refuse (message : string) | Send (body : obj).

Definition command_request (body : obj) : FetchRequest :=
  {| f_method := "POST"; f_url := "/api/commands"; f_headers := [json_content];
     f_body := Some (json_text body) |}.

Definition onSubmit (uuid : string) (data : FormValues) : Dispatch :=
  match parse_params (paramsJson data) with
  | None => Refuse "Dispatch failed: invalid JSON parameters"
  | Some params =>
      match validateCommandParams (method data) params with
      | Some message => Refuse ("Dispatch failed: " +:+ message)
      | None =>
          let resolvedMethod := resolveCommandMethod (method data) in
          match to_str resolvedMethod with
          | Exn message => Refuse ("Dispatch failed: " +:+ message)
          | Ok text =>
              Send [("client_message_id",
                       JStr ("dispatch-modal-" +:+ deviceId data +:+ "-" +:+ text +:+ "-" +:+ uuid));
                    ("device_id", JStr (deviceId data)); ("method", resolvedMethod); ("params", JObj params);
                    ("sensitive", JBool (match methodMeta (method data) with
                                         | Some m => risky (m_risk m) | None => false end));
                    ("two_factor_code", if truthy_str (twoFactorCode data) then JStr (twoFactorCode data)
                                        else JUndef)]
          end
      end
  end.

(** What the answer leaves: the id shown on success, or an error message. *)
Definition submit_end (r : option FetchResponse) : jsval + string :=
  match dispatch_answer r with
  | Ok command_id => inl command_id
  | Exn message => inr ("Dispatch failed: " +:+ message)
  end.
End Modal.

(** ** Laws *)

(** The option of a listed method says its risk. *)
Lemma methodMeta_listed payload x :
  x ∈ listed_methods payload ->
  exists m, methodMeta (buildMethodOptions payload) x = Some m
    /\ m_risk m = methodRisk x /\ m_requires2fa m = has TWO_FACTOR_METHODS x.
Proof.
  intros Hx. unfold methodMeta, buildMethodOptions. induction (listed_methods payload) as [|y l IH].
  { by apply elem_of_nil in Hx. }
  cbn [map List.find m_id]. destruct (y === x) eqn:E.
  - apply String.eqb_eq in E as ->. by eexists.
  - apply IH. apply elem_of_cons in Hx as [->|Hx]; [|done]. by rewrite String.eqb_refl in E.
Qed.

Lemma resolved_text x : exists text, to_str (resolveCommandMethod x) = Ok text.
Proof.
  destruct (resolve_cases x) as [(s & _ & ->)|[(_ & _ & ->)|(_ & _ & ->)]]; [by eexists..|].
  unfold inherited. repeat case_match; by eexists.
Qed.

Lemma parse_params_text text params :
  parse_params text = Some params <-> json_parse (or_str text "{}") = Some (JObj params).
Proof. unfold parse_params. repeat case_match; naive_solver. Qed.

(** [C20] A command leaves the dispatch form only as it was meant: with the
    rules of the form passed, it is sent exactly when its parameters are a
    JSON object that meets the requirements of the method; the request names
    the chosen device, the method's current name and those parameters, is
    marked sensitive exactly when the method is of medium or high risk, and
    carries a code of six characters when the method needs a second
    factor. *)
Theorem modal_dispatch_sound (payload : option CapabilitiesResponse) (uuid : string) (data : FormValues) :
  form_valid (buildMethodOptions payload) data = true -> method data ∈ listed_methods payload ->
  ((exists body, onSubmit (buildMethodOptions payload) uuid data = Send body)
   <-> exists params, json_parse (or_str (paramsJson data) "{}") = Some (JObj params)
       /\ validateCommandParams (method data) params = None)
  /\ forall body, onSubmit (buildMethodOptions payload) uuid data = Send body ->
       own_get body "device_id" = Some (JStr (deviceId data))
       /\ own_get body "method" = Some (resolveCommandMethod (method data))
       /\ (exists params, own_get body "params" = Some (JObj params)
            /\ json_parse (or_str (paramsJson data) "{}") = Some (JObj params))
       /\ own_get body "sensitive" = Some (JBool (risky (methodRisk (method data))))
       /\ (method data ∈ TWO_FACTOR_METHODS ->
             exists code, own_get body "two_factor_code" = Some (JStr code) /\ String.length code = 6%nat).
Proof.
  intros Hv Hl. destruct (methodMeta_listed payload _ Hl) as (m & Hm & Hr & H2).
  destruct (resolved_text (method data)) as [text Ht]. unfold onSubmit. rewrite Ht, Hm. split.
  - split.
    + intros [body Hb]. destruct (parse_params _) as [params|] eqn:Ep; [|done]. exists params.
      split; [by apply parse_params_text|]. by destruct (validateCommandParams _ _).
    + intros (params & ->%parse_params_text & ->). by eexists.
  - intros body Hb. destruct (parse_params _) as [params|] eqn:Ep; [|done].
    destruct (validateCommandParams _ _); [done|]. injection Hb as <-.
    split_and!; [done..| | |].
    + exists params. split; [done|by apply parse_params_text].
    + cbn. by rewrite Hr.
    + intros Ht2%has_true. unfold form_valid, requires2fa in Hv. rewrite Hm, H2, Ht2, !andb_true_iff in Hv.
      destruct Hv as [[[_ Hv] _] _]. apply Nat.eqb_eq in Hv.
      exists (twoFactorCode data). cbn. by destruct (twoFactorCode data).
Qed.

(** ** Demonstrations *)

Module DispatchDemo.

Definition offered : option CapabilitiesResponse :=
  Some {| canonical_methods := None; runtime_supported_methods := Some ["wipe_device"; " ping"; "ping"] |}.

Definition wipe (code : string) : FormValues :=
  {| deviceId := "d-1"; method := "wipe_device"; twoFactorCode := code; paramsJson := "{}" |}.

Lemma listed_demo : listed_methods offered = ["ping"; "wipe_device"].
Proof. vm_compute. reflexivity. Qed.

Lemma modal_dispatch_sound_witness :
  form_valid (buildMethodOptions offered) (wipe "123456") = true
  /\ exists body, onSubmit (buildMethodOptions offered) "u" (wipe "123456") = Send body.
Proof.
  assert (form_valid (buildMethodOptions offered) (wipe "123456") = true) as Hv by (vm_compute; reflexivity).
  assert (method (wipe "123456") ∈ listed_methods offered) as Hl by (apply has_true; vm_compute; reflexivity).
  split; [exact Hv|].
  destruct (modal_dispatch_sound offered "u" (wipe "123456") Hv Hl) as [[_ H] _]. apply H.
  exists []. split; vm_compute; reflexivity.
Defined.

(** The code of the second factor is announced as six digits, but any six
    characters pass. *)
Lemma two_factor_letters : form_valid (buildMethodOptions offered) (wipe "abcdef") = true.
Proof. vm_compute. reflexivity. Qed.

(** White space for optional parameters passes the form and is refused by
    its submission. *)
Lemma blank_params_refused :
  let data := {| deviceId := "d-1"; method := "ping"; twoFactorCode := ""; paramsJson := " " |} in
  form_valid (buildMethodOptions offered) data = true
  /\ onSubmit (buildMethodOptions offered) "u" data = Refuse "Dispatch failed: invalid JSON parameters".
Proof. split; vm_compute; reflexivity. Qed.

End DispatchDemo.
