(* ===== verification/OperatorConsole.v ===== *)
(** * The operator's console

    src/app/operator-console/components/OperatorDashboard.tsx: the polled
    overview of devices, commands and alerts, the feed made of them, the
    acknowledgement of alerts, and the modal in which a command is composed,
    confirmed and sent.  The overview is a [Page] of [Loader]; the modal is a
    state machine of its own.  The tables of risks and the error texts are
    those of [Dispatching], which the source repeats.  [date_parse] and
    [local] are the parameters of Module DateTime, [url_pathname] the one of
    Module Results. *)

From stdpp Require Import sets.
From S2P Require Import Prelude JsNumber JsString JsValue Http Session Commands RenderModel RenderLaws Devices Client Loader Tables Dispatching.
Import Resolver Params Results.

Local Open Scope Z_scope.

(** ** Rows *)

Record Device := {
  d_id : string; d_hostname : string; d_status : Rows.DeviceStatus; d_riskScore : num;
  d_compliance : Rows.ComplianceStatus; d_lastSeen : string; d_os : string;
}.

Inductive CommandStatus := dispatched | ack | completed | failed.

Record RecentCommand := {
  rc_id : string; rc_method : string; rc_deviceId : string; rc_deviceName : string;
  rc_status : CommandStatus; rc_issuedAt : string; rc_queuedAtIso : option string;
}.

Inductive AlertSeverity := critical | warning | info.

Record AlertRow := {
  al_id : string; al_title : string; al_severity : AlertSeverity; al_deviceName : string;
  al_time : string; al_timestampIso : option string; al_acknowledged : bool;
}.

Record OperatorMethod := { om_id : string; om_label : string; om_risk : Risk; om_desc : string }.

(** An alert of AlertsApiResponse. *)
Record AlertApi := {
  alert_id : option string; alert_device_id : option string; alert_severity : option string;
  alert_message : option string; alert_timestamp : option string; alert_acknowledged : option bool;
}.

Record WsEvent := {
  w_id : string; w_type : string; w_severity : AlertSeverity; w_title : string; w_detail : string;
  w_device : string; w_timestamp : string;
}.

Definition normalizeSeverity (value : option string) : AlertSeverity :=
  let normalized := toLowerCase (value ?? "") in
  if normalized === "critical" then critical
  else if normalized === "warning" then warning
  else info.

Definition toRecentCommandStatus (state : CommandState) : CommandStatus :=
  let s := state_str state in
  if s === "completed" then completed
  else if s === "ack_received" then ack
  else if (s === "failed") || (s === "expired") || (s === "rejected") then failed
  else dispatched.

Definition status_text (s : CommandStatus) : string :=
  match s with dispatched => "dispatched" | ack => "ack" | completed => "completed" | failed => "failed" end.

Definition methodDescription (method : string) : string :=
  if method === "ping" then "Verify agent connectivity and runtime response."
  else if method === "lock_screen" then "Lock the device screen immediately."
  else if method === "collect_system_info" then "Collect host system profile and health details."
  else if method === "list_processes" then "List currently running processes."
  else if method === "network_info" then "Collect active network interface and route details."
  else if method === "download_file" then "Download one file from the endpoint (path required)."
  else if method === "upload_file" then
    "Upload an artifact to the endpoint (artifact_id and destination required)."
  else if method === "create_directory" then "Create a directory on the endpoint (path required)."
  else if method === "create_file" then "Create a file on the endpoint (path required)."
  else if method === "delete_file" then "Hard-delete a file (path and confirm=true required)."
  else if method === "delete_directory" then
    "Hard-delete a directory recursively (path and confirm=true required)."
  else if method === "kill_process" then "Terminate a process by PID."
  else if method === "kill_process_tree" then "Terminate a process tree by PID."
  else "Run this command on the selected device.".

Definition buildOperatorMethods (payload : option CapabilitiesResponse) : list OperatorMethod :=
  map (fun x => {| om_id := x; om_label := x; om_risk := methodRisk x; om_desc := methodDescription x |})
    (listed_methods payload).

Definition toLocalDevice (x : Rows.Device) : Device :=
  {| d_id := Rows.id x; d_hostname := Rows.hostname x; d_status := Rows.status x;
     d_riskScore := Rows.riskScore x; d_compliance := Rows.compliance x; d_lastSeen := Rows.lastSeen x;
     d_os := Rows.osBuild x |}.

(** ** The overview *)

Record Overview := {
  devices : list Device;
  recentCommands : list RecentCommand;
  alerts : list AlertRow;
  operatorMethods : list OperatorMethod;
  commandsTodayCount : nat;
  ackInFlight : list string;
}.

Definition overview_init : Overview :=
  {| devices := []; recentCommands := []; alerts := []; operatorMethods := []; commandsTodayCount := 0;
     ackInFlight := [] |}.

Section Zone.
Context (date_parse : string -> option Z) (local : Z -> LocalTime).
Context (url_pathname : string -> option string).

Definition parseTimeMs (value : option string) : Z :=
  match value with Some v => if truthy_str v then date_parse v ?? 0 else 0 | None => 0 end.

Definition isSameLocalDay (iso : option string) (now : Z) : bool :=
  match DateTime.time_of date_parse iso with
  | None => false
  | Some t =>
      (fullYear (local t) =? fullYear (local now)) && (month (local t) =? month (local now))
      && (Devices.date (local t) =? Devices.date (local now))
  end.

Definition recent_command (row : NormalizedCommandResult) : RecentCommand :=
  {| rc_id := commandId row; rc_method := nMethod row; rc_deviceId := Results.deviceId row;
     rc_deviceName := or_str (deviceName row) (Results.deviceId row);
     rc_status := toRecentCommandStatus (nState row);
     rc_issuedAt := DateTime.formatLocalTime date_parse local (queuedAt row) "-";
     rc_queuedAtIso := queuedAt row |}.

(** The id of an alert that has none is made of what it has. *)
Definition alert_key (a : AlertApi) (index : nat) : string :=
  let parts := omap (fun o => if truthy_str (o ?? "") then o else None)
                 [alert_timestamp a; alert_message a; alert_severity a;
                  if Nat.eqb index 0 then None else Some (Num.digits (Z.of_nat index))] in
  or_str (trim (alert_id a ?? ""))
    (or_str (join "|" parts) ("alert-" +:+ Num.digits (Z.of_nat index))).

Definition alert_row (index : nat) (a : AlertApi) : AlertRow :=
  {| al_id := alert_key a index;
     al_title := or_str (trim (alert_message a ?? "Alert")) "Alert";
     al_severity := normalizeSeverity (alert_severity a);
     al_deviceName := or_str (trim (alert_device_id a ?? "unknown")) "unknown";
     al_time := DateTime.formatLocalTime date_parse local (alert_timestamp a) "--:--:--";
     al_timestampIso := alert_timestamp a;
     al_acknowledged := alert_acknowledged a ?? false |}.

Definition use_devices (rows : list Rows.ListDeviceApi) (d : Overview) : Overview :=
  {| devices := map toLocalDevice (map (Rows.mapListDevice date_parse local) rows);
     recentCommands := recentCommands d; alerts := alerts d; operatorMethods := operatorMethods d;
     commandsTodayCount := commandsTodayCount d; ackInFlight := ackInFlight d |}.

Definition use_commands (now : Z) (rows : list CommandListRowApi) (d : Overview) : Overview :=
  let mappedRows := stable_sort (latest (fun r => parseTimeMs (queuedAt r)))
                      (map (mapCommandListRow url_pathname) rows) in
  {| devices := devices d;
     recentCommands := map recent_command (take 10 mappedRows);
     alerts := alerts d; operatorMethods := operatorMethods d;
     commandsTodayCount := length (List.filter (fun r => isSameLocalDay (queuedAt r) now) mappedRows);
     ackInFlight := ackInFlight d |}.

Definition use_alerts (rows : list AlertApi) (d : Overview) : Overview :=
  {| devices := devices d; recentCommands := recentCommands d;
     alerts := take 8 (stable_sort (latest (fun r => parseTimeMs (al_timestampIso r))) (imap alert_row rows));
     operatorMethods := operatorMethods d; commandsTodayCount := commandsTodayCount d;
     ackInFlight := ackInFlight d |}.

Definition use_capabilities (c : CapabilitiesResponse) (d : Overview) : Overview :=
  {| devices := devices d; recentCommands := recentCommands d; alerts := alerts d;
     operatorMethods := buildOperatorMethods (Some c); commandsTodayCount := commandsTodayCount d;
     ackInFlight := ackInFlight d |}.

(** ** Loading *)

(** The four responses of [fetchDashboardData], and when the commands are
    counted. *)
Record Answers := {
  devicesRes : Reply (list Rows.ListDeviceApi);
  commandsRes : Reply (list CommandListRowApi);
  alertsRes : Reply (list AlertApi);
  capabilitiesRes : Reply CapabilitiesResponse;
  counted_at : Z;
}.

(** The parts are read one after another; [hadError] goes on, an exception
    (a body that is not JSON) ends the load. *)
Inductive Progress := Going (hadError : bool) | Thrown.

Definition part {A} (r : Reply A) (use : A -> Overview -> Overview) (st : Overview * Progress) : Overview * Progress :=
  match st with
  | (d, Thrown) => (d, Thrown)
  | (d, Going hadError) =>
      match r with
      | Unreachable => (d, Going true)
      | Replied _ body =>
          if reply_ok r then match body with Some a => (use a d, Going hadError) | None => (d, Thrown) end
          else (d, Going true)
      end
  end.

Definition read_answers (a : Answers) (d : Overview) : Overview * Progress :=
  part (capabilitiesRes a) use_capabilities
    (part (alertsRes a) use_alerts
       (part (commandsRes a) (use_commands (counted_at a))
          (part (devicesRes a) use_devices (d, Going false)))).

Definition overview_end (_ : Mode) (a : Answers) (s : Shown Overview) : Shown Overview :=
  let '(d, p) := read_answers a (data s) in
  {| data := d; error := match p with Going false => None | _ => Some "Failed to load data" end |}.

(** A load reads its responses in one step, so an abort falls before the
    first body is read.  Of an aborted load, the requests without a response reject, which
    [Promise.allSettled] turns into results; reading the body of a response
    rejects with the AbortError that ends the load quietly. *)
Definition overview_overtaken (a : Answers) (s : Shown Overview) : Shown Overview :=
  if reply_ok (devicesRes a) || reply_ok (commandsRes a) || reply_ok (alertsRes a) || reply_ok (capabilitiesRes a)
  then s
  else {| data := data s; error := Some "Failed to load data" |}.

(** ** Alerts *)

Inductive Act := AckStart (x : string) | AckEnd (x : string) (accepted : bool).

Definition setAlerts (l : list AlertRow) (busy : list string) (d : Overview) : Overview :=
  {| devices := devices d; recentCommands := recentCommands d; alerts := l;
     operatorMethods := operatorMethods d; commandsTodayCount := commandsTodayCount d; ackInFlight := busy |}.

Definition acknowledged (x : string) (r : AlertRow) : AlertRow :=
  if al_id r === x then
    {| al_id := al_id r; al_title := al_title r; al_severity := al_severity r;
       al_deviceName := al_deviceName r; al_time := al_time r; al_timestampIso := al_timestampIso r;
       al_acknowledged := true |}
  else r.

Definition ack_request (x : string) : FetchRequest :=
  {| f_method := "POST"; f_url := "/api/alerts/" +:+ encodeURIComponent x +:+ "/ack"; f_headers := [];
     f_body := None |}.

(** [acknowledgeAlert] before and after its request. *)
Definition acknowledgeAlert (a : Act) (d : Overview) : Overview :=
  match a with
  | AckStart x => setAlerts (alerts d) (if has (ackInFlight d) x then ackInFlight d else ackInFlight d ++ [x]) d
  | AckEnd x accepted =>
      setAlerts (if accepted then map (acknowledged x) (alerts d) else alerts d)
        (List.filter (fun y => y !== x) (ackInFlight d)) d
  end.

Definition unacknowledgedAlerts (d : Overview) : list AlertRow :=
  List.filter (fun r => negb (al_acknowledged r)) (alerts d).

#[export] Instance operator_page : Page Overview Answers Act := {
  settle := overview_end;
  overtaken := overview_overtaken;
  act := acknowledgeAlert;
}.

(** ** The feed *)

Definition alert_event (r : AlertRow) : Z * WsEvent :=
  (parseTimeMs (al_timestampIso r),
   {| w_id := "feed-alert-" +:+ al_id r; w_type := "alert"; w_severity := al_severity r;
      w_title := al_title r; w_detail := al_deviceName r +:+ " - " +:+ al_title r;
      w_device := al_deviceName r; w_timestamp := al_time r |}).

Definition command_event (c : RecentCommand) : Z * WsEvent :=
  (parseTimeMs (rc_queuedAtIso c),
   {| w_id := "feed-command-" +:+ rc_id c; w_type := "command_status";
      w_severity := match rc_status c with failed => warning | _ => info end;
      w_title := rc_id c +:+ " " +:+ status_text (rc_status c);
      w_detail := rc_method c +:+ " on " +:+ rc_deviceName c;
      w_device := rc_deviceName c; w_timestamp := rc_issuedAt c |}).

Definition device_event (x : Device) : Z * WsEvent :=
  (parseTimeMs (Some (d_lastSeen x)),
   {| w_id := "feed-device-" +:+ d_id x; w_type := "device_state";
      w_severity := match d_status x with Rows.degraded | Rows.quarantined => warning | _ => info end;
      w_title := d_hostname x +:+ " " +:+ Rows.status_str (d_status x);
      w_detail := d_os x +:+ " - risk " +:+ Num.to_fixed 0 (Num.mul (d_riskScore x) (Num.of_Z 100));
      w_device := d_hostname x;
      w_timestamp := DateTime.formatLocalTime date_parse local (Some (d_lastSeen x)) "--:--:--" |}).

Definition buildLiveFeedEvents (d : Overview) : list WsEvent :=
  map snd (take 12 (stable_sort (latest fst)
    (map alert_event (alerts d) ++ map command_event (recentCommands d)
     ++ map device_event (take 6 (devices d))))).
End Zone.

(** ** The dispatch modal *)

Inductive ModalStep := compose | confirm.

(** The component's state, with the props it is rendered with; [inflight]
    counts the requests under way, [sent] are the bodies of all requests, the
    latest first. *)
Record Modal := {
  p_devices : list Device;
  p_methods : list OperatorMethod;
  selectedDevice : string;
  selectedMethod : string;
  m_paramsJson : string;
  paramsError : string;
  deviceNameConfirm : string;
  deviceIdSuffix : string;
  m_twoFactorCode : string;
  confirmError : string;
  loading : bool;
  submitted : bool;
  m_step : ModalStep;
  inflight : nat;
  sent : list obj;
}.

Definition modal_init (ds : list Device) (ms : list OperatorMethod) (initialDeviceId : option string) : Modal :=
  {| p_devices := ds; p_methods := ms; selectedDevice := initialDeviceId ?? ""; selectedMethod := "";
     m_paramsJson := "{}"; paramsError := ""; deviceNameConfirm := ""; deviceIdSuffix := "";
     m_twoFactorCode := ""; confirmError := ""; loading := false; submitted := false; m_step := compose;
     inflight := 0; sent := [] |}.

Definition setProps (ds : list Device) (ms : list OperatorMethod) (m : Modal) : Modal :=
  {| p_devices := ds; p_methods := ms; selectedDevice := selectedDevice m; selectedMethod := selectedMethod m;
     m_paramsJson := m_paramsJson m; paramsError := paramsError m; deviceNameConfirm := deviceNameConfirm m;
     deviceIdSuffix := deviceIdSuffix m; m_twoFactorCode := m_twoFactorCode m; confirmError := confirmError m;
     loading := loading m; submitted := submitted m; m_step := m_step m; inflight := inflight m; sent := sent m |}.
Definition setSelected (dev meth : string) (m : Modal) : Modal :=
  {| p_devices := p_devices m; p_methods := p_methods m; selectedDevice := dev; selectedMethod := meth;
     m_paramsJson := m_paramsJson m; paramsError := paramsError m; deviceNameConfirm := deviceNameConfirm m;
     deviceIdSuffix := deviceIdSuffix m; m_twoFactorCode := m_twoFactorCode m; confirmError := confirmError m;
     loading := loading m; submitted := submitted m; m_step := m_step m; inflight := inflight m; sent := sent m |}.
Definition setParams (text err code : string) (m : Modal) : Modal :=
  {| p_devices := p_devices m; p_methods := p_methods m; selectedDevice := selectedDevice m;
     selectedMethod := selectedMethod m; m_paramsJson := text; paramsError := err;
     deviceNameConfirm := deviceNameConfirm m; deviceIdSuffix := deviceIdSuffix m; m_twoFactorCode := code;
     confirmError := confirmError m; loading := loading m; submitted := submitted m; m_step := m_step m;
     inflight := inflight m; sent := sent m |}.
Definition setConfirm (name suffix err : string) (m : Modal) : Modal :=
  {| p_devices := p_devices m; p_methods := p_methods m; selectedDevice := selectedDevice m;
     selectedMethod := selectedMethod m; m_paramsJson := m_paramsJson m; paramsError := paramsError m;
     deviceNameConfirm := name; deviceIdSuffix := suffix; m_twoFactorCode := m_twoFactorCode m;
     confirmError := err; loading := loading m; submitted := submitted m; m_step := m_step m;
     inflight := inflight m; sent := sent m |}.
Definition setParamsError (err : string) (m : Modal) : Modal := setParams (m_paramsJson m) err (m_twoFactorCode m) m.
Definition setConfirmError (err : string) (m : Modal) : Modal :=
  setConfirm (deviceNameConfirm m) (deviceIdSuffix m) err m.
Definition setStep (st : ModalStep) (m : Modal) : Modal :=
  {| p_devices := p_devices m; p_methods := p_methods m; selectedDevice := selectedDevice m;
     selectedMethod := selectedMethod m; m_paramsJson := m_paramsJson m; paramsError := paramsError m;
     deviceNameConfirm := deviceNameConfirm m; deviceIdSuffix := deviceIdSuffix m;
     m_twoFactorCode := m_twoFactorCode m; confirmError := confirmError m; loading := loading m;
     submitted := submitted m; m_step := st; inflight := inflight m; sent := sent m |}.
(** The request goes out, and what its answer leaves. *)
Definition send_body (body : obj) (m : Modal) : Modal :=
  {| p_devices := p_devices m; p_methods := p_methods m; selectedDevice := selectedDevice m;
     selectedMethod := selectedMethod m; m_paramsJson := m_paramsJson m; paramsError := paramsError m;
     deviceNameConfirm := deviceNameConfirm m; deviceIdSuffix := deviceIdSuffix m;
     m_twoFactorCode := m_twoFactorCode m; confirmError := confirmError m; loading := true;
     submitted := submitted m; m_step := m_step m; inflight := S (inflight m); sent := body :: sent m |}.
Definition dispatch_end (r : option FetchResponse) (m : Modal) : Modal :=
  {| p_devices := p_devices m; p_methods := p_methods m; selectedDevice := selectedDevice m;
     selectedMethod := selectedMethod m; m_paramsJson := m_paramsJson m; paramsError := paramsError m;
     deviceNameConfirm := deviceNameConfirm m; deviceIdSuffix := deviceIdSuffix m;
     m_twoFactorCode := m_twoFactorCode m; confirmError := confirmError m; loading := false;
     submitted := match dispatch_answer r with Ok _ => true | Exn _ => submitted m end;
     m_step := m_step m; inflight := pred (inflight m); sent := sent m |}.

(** *** What the modal derives *)

Definition modal_device (m : Modal) : option Device :=
  List.find (fun x => d_id x === selectedDevice m) (p_devices m).
Definition modal_method (m : Modal) : option OperatorMethod :=
  List.find (fun x => om_id x === selectedMethod m) (p_methods m).
Definition needsConfirm (m : Modal) : bool :=
  match modal_method m with Some x => risky (om_risk x) | None => false end.
(** By the current name of the method. *)
Definition needs2fa (m : Modal) : bool :=
  if truthy_str (selectedMethod m)
  then match resolveCommandMethod (selectedMethod m) with
       | JStr resolved => has TWO_FACTOR_METHODS resolved
       | _ => false
       end
  else false.

(** The effect of a new method. *)
Definition method_effect (m : Modal) : Modal := setParams (offered_params (selectedMethod m)) "" "" m.

(** The parameters as handleProceed and handleDispatch check them. *)
Definition checked_params (m : Modal) : obj + string :=
  match json_parse (or_str (m_paramsJson m) "{}") with
  | None => inr "Invalid JSON parameters"
  | Some (JObj params) =>
      match validateCommandParams (selectedMethod m) params with
      | Some message => inr message
      | None => inl params
      end
  | Some _ => inr "Parameters must be a JSON object"
  end.

Definition suffix_of (s : string) : string := sdrop (String.length s - 6) s.
Definition six_digits (s : string) : bool := Nat.eqb (String.length s) 6 && sforall is_digit s.

(** The message of the confirmation, if it fails. *)
Definition confirm_failure (x : Device) (m : Modal) : option string :=
  if negb (needsConfirm m) then None
  else if trim (deviceNameConfirm m) !== d_hostname x then Some "Device name does not match."
  else if toUpperCase (trim (deviceIdSuffix m)) !== toUpperCase (suffix_of (d_id x))
  then Some "Device ID suffix does not match."
  else if needs2fa m && negb (six_digits (trim (m_twoFactorCode m)))
  then Some "Enter a valid 6-digit 2FA code."
  else None.

Definition dispatch_body (uuid : string) (x : Device) (params : obj) (m : Modal) : res obj :=
  let resolvedMethod := resolveCommandMethod (selectedMethod m) in
  let! text := to_str resolvedMethod in
  Ok [("client_message_id", JStr ("operator-console-" +:+ d_id x +:+ "-" +:+ text +:+ "-" +:+ uuid));
      ("device_id", JStr (d_id x)); ("method", resolvedMethod); ("params", JObj params);
      ("sensitive", JBool (needsConfirm m));
      ("two_factor_code", if needs2fa m then JStr (trim (m_twoFactorCode m)) else JUndef)].

(** *** Handlers *)

Definition handleDispatch (uuid : string) (m : Modal) : Modal :=
  match modal_device m, modal_method m with
  | Some x, Some _ =>
      match checked_params m with
      | inr message => setParamsError message m
      | inl params =>
          let m := setParamsError "" m in
          match confirm_failure x m with
          | Some message => setConfirmError message m
          | None =>
              match dispatch_body uuid x params m with
              | Ok body => send_body body m
              | Exn _ => m
              end
          end
      end
  | _, _ => m
  end.

Definition handleProceed (uuid : string) (m : Modal) : Modal :=
  if negb (truthy_str (selectedDevice m)) || negb (truthy_str (selectedMethod m)) then m
  else match checked_params m with
       | inr message => setParamsError message m
       | inl _ =>
           let m := setParamsError "" m in
           if needsConfirm m then setStep confirm m else handleDispatch uuid m
       end.

(** The buttons. *)
Definition can_proceed (m : Modal) : bool :=
  negb (submitted m) && match m_step m with compose => true | confirm => false end
  && truthy_str (selectedDevice m) && truthy_str (selectedMethod m)
  && negb (Nat.eqb (length (p_methods m)) 0) && negb (loading m).
Definition can_execute (m : Modal) : bool :=
  negb (submitted m) && match m_step m with compose => false | confirm => true end
  && negb (loading m) && truthy_str (deviceNameConfirm m) && Nat.leb 6 (String.length (deviceIdSuffix m))
  && (negb (needs2fa m) || Nat.eqb (String.length (m_twoFactorCode m)) 6).

(** [value.replace(/\D/g, '').slice(0, 6)] *)
Definition code_input (value : string) : string :=
  stake 6 (String.string_of_list_ascii (List.filter is_digit (String.list_ascii_of_string value))).

Inductive ModalEvent :=
| NewProps (ds : list Device) (ms : list OperatorMethod)
| SelectDevice (x : string) | SelectMethod (x : string) | TypeParams (s : string)
| TypeName (s : string) | TypeSuffix (s : string) | TypeCode (s : string)
| Proceed (uuid : string) | Execute (uuid : string) | Back | Answer (r : option FetchResponse).

Inductive fires : ModalEvent -> Modal -> Modal -> Prop :=
| fires_props ds ms m : fires (NewProps ds ms) m (setProps ds ms m)
| fires_device x m : m_step m = compose -> fires (SelectDevice x) m (setSelected x (selectedMethod m) m)
| fires_method x m : m_step m = compose ->
    fires (SelectMethod x) m
      (let m' := setParamsError "" (setConfirmError "" (setSelected (selectedDevice m) x m)) in
       if x === selectedMethod m then m' else method_effect m')
| fires_params s m : m_step m = compose -> fires (TypeParams s) m (setParams s "" (m_twoFactorCode m) m)
| fires_name s m : m_step m = confirm -> fires (TypeName s) m (setConfirm s (deviceIdSuffix m) "" m)
| fires_suffix s m : m_step m = confirm ->
    fires (TypeSuffix s) m (setConfirm (deviceNameConfirm m) (toUpperCase s) "" m)
| fires_code s m : m_step m = confirm ->
    fires (TypeCode s) m (setConfirmError "" (setParams (m_paramsJson m) (paramsError m) (code_input s) m))
| fires_proceed uuid m : can_proceed m = true -> fires (Proceed uuid) m (handleProceed uuid m)
| fires_execute uuid m : can_execute m = true -> fires (Execute uuid) m (handleDispatch uuid m)
| fires_back m : m_step m = confirm -> fires Back m (setStep compose m)
| fires_answer r m : (0 < inflight m)%nat -> fires (Answer r) m (dispatch_end r m).

Inductive opened : Modal -> Prop :=
| opened_init ds ms i : opened (modal_init ds ms i)
| opened_step e m m' : opened m -> fires e m m' -> opened m'.

(** ** Laws of the modal *)

(** What a request must have behind it. *)
Definition authorised (m : Modal) (body : obj) : Prop :=
  exists x meth params,
    x ∈ p_devices m /\ d_id x = selectedDevice m /\ meth ∈ p_methods m /\ om_id meth = selectedMethod m
    /\ own_get body "device_id" = Some (JStr (d_id x))
    /\ own_get body "method" = Some (resolveCommandMethod (selectedMethod m))
    /\ own_get body "params" = Some (JObj params)
    /\ json_parse (or_str (m_paramsJson m) "{}") = Some (JObj params)
    /\ validateCommandParams (selectedMethod m) params = None
    /\ own_get body "sensitive" = Some (JBool (risky (om_risk meth)))
    /\ (risky (om_risk meth) = true ->
        trim (deviceNameConfirm m) = d_hostname x
        /\ toUpperCase (trim (deviceIdSuffix m)) = toUpperCase (suffix_of (d_id x))
        /\ (needs2fa m = true -> exists code,
              own_get body "two_factor_code" = Some (JStr code) /\ six_digits code = true)).

Lemma not_longer {A} (x : A) l : l <> x :: l.
Proof. intros E%(f_equal length). cbn in E. lia. Qed.

Lemma checked_params_ok m params :
  checked_params m = inl params <->
  json_parse (or_str (m_paramsJson m) "{}") = Some (JObj params)
  /\ validateCommandParams (selectedMethod m) params = None.
Proof.
  unfold checked_params. destruct (json_parse _) as [[| | | | | |o|]|]; try naive_solver.
  destruct (validateCommandParams _ o) eqn:E; naive_solver.
Qed.

Lemma confirm_failure_none x m :
  confirm_failure x m = None -> needsConfirm m = true ->
  trim (deviceNameConfirm m) = d_hostname x
  /\ toUpperCase (trim (deviceIdSuffix m)) = toUpperCase (suffix_of (d_id x))
  /\ (needs2fa m = true -> six_digits (trim (m_twoFactorCode m)) = true).
Proof.
  unfold confirm_failure. intros H Hn. rewrite Hn in H. cbn [negb] in H.
  destruct (trim (deviceNameConfirm m) === _) eqn:E1; cbn [negb] in H; [|done].
  destruct (toUpperCase (trim (deviceIdSuffix m)) === _) eqn:E2; cbn [negb] in H; [|done].
  apply String.eqb_eq in E1, E2. split_and!; [done..|]. intros H2. rewrite H2 in H.
  by destruct (six_digits _).
Qed.

(** Sending from a state that passes every check. *)
Lemma handleDispatch_ready uuid m x meth params :
  modal_device m = Some x -> modal_method m = Some meth -> checked_params m = inl params ->
  confirm_failure x m = None ->
  exists body, handleDispatch uuid m = send_body body (setParamsError "" m)
    /\ dispatch_body uuid x params m = Ok body.
Proof.
  intros Hx Hm Hp Hc. unfold handleDispatch. rewrite Hx, Hm, Hp.
  change (confirm_failure x (setParamsError "" m)) with (confirm_failure x m). rewrite Hc.
  change (dispatch_body uuid x params (setParamsError "" m)) with (dispatch_body uuid x params m).
  unfold dispatch_body. destruct (resolved_text (selectedMethod m)) as [text ->]. by eexists.
Qed.

Lemma handleDispatch_cases uuid m :
  (sent (handleDispatch uuid m) = sent m /\ inflight (handleDispatch uuid m) = inflight m
   /\ loading (handleDispatch uuid m) = loading m)
  \/ exists x meth params body,
      modal_device m = Some x /\ modal_method m = Some meth /\ checked_params m = inl params
      /\ confirm_failure x m = None /\ dispatch_body uuid x params m = Ok body
      /\ handleDispatch uuid m = send_body body (setParamsError "" m).
Proof.
  destruct (modal_device m) as [x|] eqn:Hx; [|left; unfold handleDispatch; by rewrite Hx].
  destruct (modal_method m) as [meth|] eqn:Hm; [|left; unfold handleDispatch; by rewrite Hx, Hm].
  destruct (checked_params m) as [params|] eqn:Hp; [|left; unfold handleDispatch; by rewrite Hx, Hm, Hp].
  destruct (confirm_failure x m) as [msg|] eqn:Hc.
  - left. unfold handleDispatch. rewrite Hx, Hm, Hp.
    change (confirm_failure x (setParamsError "" m)) with (confirm_failure x m). by rewrite Hc.
  - right. destruct (handleDispatch_ready uuid m x meth params Hx Hm Hp Hc) as (body & Hd & Hb).
    by exists x, meth, params, body.
Qed.

Lemma find_elem {A} (f : A -> bool) l x : List.find f l = Some x -> x ∈ l /\ f x = true.
Proof. intros [H1 H2]%find_some. by rewrite list_elem_of_In. Qed.

Lemma handleDispatch_authorised uuid m body :
  sent (handleDispatch uuid m) = body :: sent m -> authorised m body.
Proof.
  intros H. destruct (handleDispatch_cases uuid m) as [(E & _)|(x & meth & params & b & Hx & Hm & Hp & Hc & Hb & Hd)].
  { rewrite E in H. by apply not_longer in H. }
  rewrite Hd in H. injection H as <-. unfold dispatch_body in Hb.
  destruct (to_str _) as [text|]; [|done]. injection Hb as <-.
  apply checked_params_ok in Hp as [Hj Hv].
  destruct (find_elem _ _ _ Hx) as [Hxin Hxid%String.eqb_eq].
  destruct (find_elem _ _ _ Hm) as [Hmin Hmid%String.eqb_eq].
  assert (needsConfirm m = risky (om_risk meth)) as Hr by (unfold needsConfirm; by rewrite Hm).
  exists x, meth, params. split_and!; try done; [by cbn; rewrite Hr|]. intros Hrisk. rewrite <- Hr in Hrisk.
  destruct (confirm_failure_none x m Hc Hrisk) as (H1 & H2 & H3). split_and!; [done..|].
  intros H2fa. exists (trim (m_twoFactorCode m)). cbn. by rewrite H2fa, (H3 H2fa).
Qed.

Lemma handleProceed_cases uuid m :
  (sent (handleProceed uuid m) = sent m /\ inflight (handleProceed uuid m) = inflight m
   /\ loading (handleProceed uuid m) = loading m)
  \/ (needsConfirm m = false /\ handleProceed uuid m = handleDispatch uuid (setParamsError "" m)).
Proof.
  unfold handleProceed. destruct (_ || _); [by left|]. destruct (checked_params m); [|by left].
  change (needsConfirm (setParamsError "" m)) with (needsConfirm m). destruct (needsConfirm m); [by left|by right].
Qed.

Lemma authorised_error err m body : authorised (setParamsError err m) body -> authorised m body.
Proof. done. Qed.

Definition single (m : Modal) : Prop := (inflight m <= 1)%nat /\ (loading m = true <-> inflight m = 1%nat).

Lemma handleDispatch_single uuid m : loading m = false -> single m -> single (handleDispatch uuid m).
Proof.
  intros Hl [H1 H2]. destruct (handleDispatch_cases uuid m) as [(_ & Hi & Hl')|(x & ? & ? & b & _ & _ & _ & _ & _ & ->)].
  - unfold single. by rewrite Hi, Hl'.
  - assert (inflight m <> 1%nat) by (intros E; apply H2 in E; congruence).
    unfold single. cbn. split; [lia|]. split; [lia|done].
Qed.

Lemma can_proceed_idle m : can_proceed m = true -> loading m = false.
Proof. unfold can_proceed. rewrite !andb_true_iff, !negb_true_iff. tauto. Qed.

Lemma can_execute_idle m : can_execute m = true -> loading m = false.
Proof. unfold can_execute. rewrite !andb_true_iff, !negb_true_iff. tauto. Qed.

Lemma opened_single m : opened m -> single m.
Proof.
  induction 1 as [|e m m' _ IH Hf]; [by split; [cbn; lia|]|].
  destruct Hf as [| |x m Hs| | | | |uuid m Hc|uuid m Hc| |r m Hr]; try exact IH.
  - cbn zeta. by destruct (x === selectedMethod m).
  - apply can_proceed_idle in Hc. destruct (handleProceed_cases uuid m) as [(_ & Hi & Hl)|[_ ->]].
    + unfold single. by rewrite Hi, Hl.
    + by apply handleDispatch_single.
  - apply can_execute_idle in Hc. by apply handleDispatch_single.
  - destruct IH as [H1 H2]. unfold single. cbn. split; [lia|]. split; [done|lia].
Qed.

(** [C12] No dangerous command leaves the operator's console unconfirmed:
    whatever is clicked and typed and however the lists change meanwhile, at
    most one request is under way, and each one is for the selected device
    and method, both among those shown, with parameters that meet the
    method's requirements; when the method is listed as of medium or high
    risk it is marked sensitive and sent only from the confirmation step,
    with the name and the last six characters of the device typed in, and
    with a code of six digits where its current name needs a second factor.
    A modal that passes all these checks does send. *)
Theorem operator_dispatch_confirmed (m : Modal) :
  opened m ->
  (inflight m <= 1)%nat
  /\ (forall e m' body, fires e m m' -> sent m' = body :: sent m ->
        authorised m body /\ inflight m = 0%nat
        /\ (needsConfirm m = true -> exists uuid, e = Execute uuid /\ can_execute m = true))
  /\ (forall uuid x meth params,
        modal_device m = Some x -> modal_method m = Some meth -> checked_params m = inl params ->
        confirm_failure x m = None -> exists body, sent (handleDispatch uuid m) = body :: sent m).
Proof.
  intros Ho. destruct (opened_single m Ho) as [H1 H2]. split_and!; [done| |].
  - assert (loading m = false -> inflight m = 0%nat) as Hidle.
    { intros Hl. destruct (inflight m) as [|[|n]]; [done| |lia]. by rewrite (proj2 H2) in Hl. }
    intros e m' body Hf Hs. destruct Hf; try (by apply not_longer in Hs).
    + cbn zeta in Hs. destruct (x === selectedMethod m); by apply not_longer in Hs.
    + apply can_proceed_idle in H. destruct (handleProceed_cases uuid m) as [(E & _)|[Hn E]]; rewrite E in Hs.
      { by apply not_longer in Hs. }
      split_and!; [|by apply Hidle|congruence]. apply (authorised_error ""). eapply handleDispatch_authorised.
      exact Hs.
    + split_and!; [by eapply handleDispatch_authorised|by apply Hidle, can_execute_idle|].
      intros _. by exists uuid.
  - intros uuid x meth params Hx Hm Hp Hc.
    destruct (handleDispatch_ready uuid m x meth params Hx Hm Hp Hc) as (body & -> & _). by exists body.
Qed.

(** ** Demonstrations *)

Module OperatorDemo.

Definition desk : Device :=
  {| d_id := "dev-abc123"; d_hostname := "Front desk"; d_status := Rows.online; d_riskScore := Num.zero;
     d_compliance := Rows.compliant; d_lastSeen := ""; d_os := "" |}.
Definition offer (l : list string) : list OperatorMethod :=
  buildOperatorMethods (Some {| canonical_methods := None; runtime_supported_methods := Some l |}).

(** A wipe is composed, confirmed and executed. *)
Definition chosen : Modal :=
  let m := modal_init [desk] (offer ["ping"; "wipe_device"]) (Some "dev-abc123") in
  method_effect (setParamsError "" (setConfirmError "" (setSelected (selectedDevice m) "wipe_device" m))).
Definition asked : Modal := handleProceed "u-1" chosen.
Definition named : Modal := setConfirm "Front desk" (deviceIdSuffix asked) "" asked.
Definition suffixed : Modal := setConfirm (deviceNameConfirm named) (toUpperCase "abc123") "" named.
Definition coded : Modal :=
  setConfirmError "" (setParams (m_paramsJson suffixed) (paramsError suffixed) (code_input "123 456") suffixed).

Lemma coded_opened : opened coded.
Proof.
  apply (opened_step (TypeCode "123 456") suffixed); [|by apply fires_code].
  apply (opened_step (TypeSuffix "abc123") named); [|by apply fires_suffix].
  apply (opened_step (TypeName "Front desk") asked); [|by apply fires_name].
  apply (opened_step (Proceed "u-1") chosen); [|apply fires_proceed; vm_compute; reflexivity].
  apply (opened_step (SelectMethod "wipe_device")
           (modal_init [desk] (offer ["ping"; "wipe_device"]) (Some "dev-abc123"))); [constructor|].
  by apply (fires_method "wipe_device").
Qed.

Lemma operator_dispatch_confirmed_witness :
  can_execute coded = true /\ exists body, sent (handleDispatch "u-1" coded) = [body].
Proof.
  split; [vm_compute; reflexivity|].
  destruct (operator_dispatch_confirmed coded coded_opened) as (_ & _ & H).
  destruct (H "u-1" desk {| om_id := "wipe_device"; om_label := "wipe_device"; om_risk := high;
                            om_desc := "Run this command on the selected device." |} []) as [body Hb];
    [vm_compute; reflexivity..|].
  exists body. exact Hb.
Defined.

(** The risk is looked up by the name in the list, the second factor by the
    current name: a deletion listed under its former name is sent at once,
    not marked sensitive and with an empty code. *)
Definition former : Modal :=
  let m := setSelected "dev-abc123" "delete-file" (modal_init [desk] (offer ["delete-file"]) None) in
  setParams (json_text [("path", JStr "C:/x"); ("confirm", JBool true)]) "" "" m.

Lemma former_name_unconfirmed :
  can_proceed former = true /\ needs2fa former = true /\ needsConfirm former = false
  /\ match sent (handleProceed "u" former) with
     | [body] => own_get body "method" = Some (JStr "delete_file")
                 /\ own_get body "sensitive" = Some (JBool false)
                 /\ own_get body "two_factor_code" = Some (JStr "")
     | _ => False
     end.
Proof. split_and!; vm_compute; try reflexivity. split_and!; reflexivity. Qed.

(** A load that is overtaken before its responses arrive reports an error
    that did not happen, while the load that overtook it is under way. *)
Definition nothing : Answers :=
  {| devicesRes := Unreachable; commandsRes := Unreachable; alertsRes := Unreachable;
     capabilitiesRes := Unreachable; counted_at := 0 |}.

Lemma overtaken_reports_error (date_parse : string -> option Z) (local : Z -> LocalTime) url_pathname :
  let P := operator_page date_parse local url_pathname in
  let s := load_end 0 initial nothing (load_start silent (load_start initial (loader_init overview_init))) in
  error (shown s) = Some "Failed to load data" /\ running s = [(1%nat, silent)].
Proof. done. Qed.

End OperatorDemo.
