(* ===== verification/DispatchPage.v ===== *)
(** * The page of dispatched commands

    src/app/command-dispatch/components/CommandDispatchContent.tsx and
    CommandDispatchAuditTrail.tsx: the polled list of commands, its tabs,
    filters, order and pages, the selection, and commands sent again.  A row
    is a CommandListRowApi with the fields the pages of commands read beyond
    that type.  [date_parse], [local] and [locale] are as in [DevicePage],
    [url_pathname] is the parameter of Module Results.  The laws are in
    [HistoryPage], with those of the history. *)

From stdpp Require Import sets.
From S2P Require Import Prelude JsNumber JsString JsValue Http Session Commands RenderModel RenderLaws Devices Client Loader Tables Dispatching.
Import Resolver Results.

Local Open Scope Z_scope.

(** ** Rows *)

Record CommandRow := {
  row_api : CommandListRowApi;
  ack_at : jsval;
  priority_of : jsval;
  requires_2fa : jsval;
  requires2fa_of : jsval;
  batch_id : jsval;
}.

(** [String(row.priority ?? '').toLowerCase() === 'high'] *)
Definition is_high (v : jsval) : res bool := let! s := lowered v "" in Ok (s === "high").

Section Times.
Context (date_parse : string -> option Z).

Definition parseTimeMs (value : option string) : Z :=
  match value with Some v => if truthy_str v then date_parse v ?? 0 else 0 | None => 0 end.

(** Rows by the time they were queued, the latest first. *)
Definition latest_queued {A} (queued : A -> option string) : list A -> list A :=
  stable_sort (latest (fun a => parseTimeMs (queued a))).
End Times.

(** [JSON.stringify] of a command sent again. *)
Definition again_body (prefix deviceId method : string) (params : obj) (sensitive : bool) (uuid : string) : obj :=
  [("client_message_id", JStr (prefix +:+ deviceId +:+ "-" +:+ method +:+ "-" +:+ uuid));
   ("device_id", JStr deviceId); ("method", resolveCommandMethod method); ("params", JObj params);
   ("sensitive", JBool sensitive)].

(** ** Commands *)

Record Command := {
  id : string; traceId : string; deviceId : string; hostname : string; method : string;
  state : CommandState; actor : string; originChannel : CommandOriginChannel;
  queuedAt : string; queuedAtIso : option string; dispatchedAt : option string;
  dispatchedAtIso : option string; ackAt : option string; ackAtIso : option string;
  completedAt : option string; completedAtIso : option string; errorCode : option num;
  errorMessage : option string; reason : option string; high_priority : bool; requires2fa : bool;
  params : obj;
}.

Inductive SortKey :=
| by_id | by_hostname | by_method | by_state | by_actor | by_originChannel | by_queuedAt | by_ackAt
| by_completedAt.

#[export] Instance SortKey_eq_dec : EqDecision SortKey.
Proof. solve_decision. Defined.

Definition all_states : list CommandState :=
  [queued; dispatched; ack_received; executing; completed; failed; expired; rejected].

(** [stateTabs]: the states behind each tab. *)
Definition stateTabs : list (string * list CommandState) :=
  [("all", all_states); ("active", [queued; dispatched; ack_received; executing]);
   ("completed", [completed]); ("failed", [failed; expired; rejected])].

Definition allowedStates (activeTab : string) : list CommandState :=
  match List.find (fun t => t.1 === activeTab) stateTabs with Some t => t.2 | None => [] end.

Section Zone.
Context (date_parse : string -> option Z) (local : Z -> LocalTime).
Context (url_pathname : string -> option string) (locale : string -> string -> bool).

Abbreviation local_time' := (DateTime.formatLocalTime date_parse local).

(** A time shown only where there is one. *)
Definition shown_time (iso : option string) : option string :=
  if truthy_str (iso ?? "") then Some (local_time' iso "-") else None.

Definition toCommand (row : CommandRow) : res Command :=
  let r := mapCommandListRow url_pathname (row_api row) in
  let ackAtIso := as_string (ack_at row) in
  let! high := is_high (priority_of row) in
  Ok {| id := commandId r;
        traceId := Results.traceId r ?? "-";
        deviceId := Results.deviceId r;
        hostname := or_str (deviceName r) (Results.deviceId r);
        method := nMethod r;
        state := nState r;
        actor := actorEmail r;
        originChannel := Results.originChannel r;
        queuedAt := local_time' (Results.queuedAt r) "-";
        queuedAtIso := Results.queuedAt r;
        dispatchedAt := shown_time (Results.dispatchedAt r);
        dispatchedAtIso := Results.dispatchedAt r;
        ackAt := shown_time ackAtIso;
        ackAtIso := ackAtIso;
        completedAt := shown_time (Results.completedAt r);
        completedAtIso := Results.completedAt r;
        errorCode := Results.errorCode r;
        errorMessage := Results.errorMessage r;
        reason := nReason r;
        high_priority := high;
        requires2fa := truthy (vnullish (requires_2fa row) (vnullish (requires2fa_of row) (JBool false)));
        params := nParams r |}.

(** [sortCommands]: the comparison of a column, ascending. *)
Definition column_before (key : SortKey) (a b : Command) : bool :=
  let by_time (f : Command -> option string) := parseTimeMs date_parse (f a) <? parseTimeMs date_parse (f b) in
  match key with
  | by_queuedAt => by_time queuedAtIso
  | by_ackAt => by_time ackAtIso
  | by_completedAt => by_time completedAtIso
  | by_id => locale (id a) (id b)
  | by_hostname => locale (hostname a) (hostname b)
  | by_method => locale (method a) (method b)
  | by_state => locale (state_str (state a)) (state_str (state b))
  | by_actor => locale (actor a) (actor b)
  | by_originChannel => locale (channel_str (originChannel a)) (channel_str (originChannel b))
  end.

Record DispatchData := {
  commands : list Command;
  activeTab : string;
  search : string;
  sourceFilter : string;
  sortKey : SortKey;
  sortDir : SortDir;
  selectedIds : list string;
  currentPage : nat;
  isRetrying : bool;
}.

Definition dispatch_init : DispatchData :=
  {| commands := []; activeTab := "all"; search := ""; sourceFilter := "all"; sortKey := by_queuedAt;
     sortDir := desc; selectedIds := []; currentPage := 1; isRetrying := false |}.

Definition pageSize : nat := 8.

Definition matches (d : DispatchData) (c : Command) : bool :=
  let lowered := toLowerCase (trim (search d)) in
  existsb (fun s => state_str s === state_str (state c)) (allowedStates (activeTab d))
  && (negb (truthy_str lowered) || includes (toLowerCase (id c)) lowered
      || includes (toLowerCase (hostname c)) lowered || includes (toLowerCase (method c)) lowered
      || includes (toLowerCase (actor c)) lowered)
  && ((sourceFilter d === "all") || (channel_str (originChannel c) === sourceFilter d)).

Definition filtered (d : DispatchData) : list Command :=
  sorted_by (sortDir d) (column_before (sortKey d)) (List.filter (matches d) (commands d)).

Definition paginatedData (d : DispatchData) : list Command := page_rows pageSize (currentPage d) (filtered d).

Definition sources (d : DispatchData) : list string :=
  stable_sort String.ltb (set_of (map (fun c => channel_str (originChannel c)) (commands d))).

Definition tab_count (d : DispatchData) (tab : string) : nat :=
  if tab === "all" then length (commands d)
  else length (List.filter (fun c => existsb (fun s => state_str s === state_str (state c)) (allowedStates tab))
                 (commands d)).

Definition setView (tab s source : string) (page : nat) (d : DispatchData) : DispatchData :=
  {| commands := commands d; activeTab := tab; search := s; sourceFilter := source; sortKey := sortKey d;
     sortDir := sortDir d; selectedIds := selectedIds d; currentPage := page; isRetrying := isRetrying d |}.
Definition setSort (k : SortKey) (dir : SortDir) (d : DispatchData) : DispatchData :=
  {| commands := commands d; activeTab := activeTab d; search := search d; sourceFilter := sourceFilter d;
     sortKey := k; sortDir := dir; selectedIds := selectedIds d; currentPage := currentPage d;
     isRetrying := isRetrying d |}.
Definition setSelection (l : list string) (busy : bool) (d : DispatchData) : DispatchData :=
  {| commands := commands d; activeTab := activeTab d; search := search d; sourceFilter := sourceFilter d;
     sortKey := sortKey d; sortDir := sortDir d; selectedIds := l; currentPage := currentPage d;
     isRetrying := busy |}.
Definition setCommands (l : list Command) (d : DispatchData) : DispatchData :=
  {| commands := l; activeTab := activeTab d; search := search d; sourceFilter := sourceFilter d;
     sortKey := sortKey d; sortDir := sortDir d; selectedIds := selectedIds d; currentPage := currentPage d;
     isRetrying := isRetrying d |}.

Definition clamp_current (d : DispatchData) : DispatchData :=
  setView (activeTab d) (search d) (sourceFilter d) (clamp_page pageSize (currentPage d) (length (filtered d))) d.

Definition toggleSort (key : SortKey) (d : DispatchData) : DispatchData :=
  if decide (sortKey d = key) then setSort key (flip (sortDir d)) d
  else setSort key (match key with by_queuedAt => desc | _ => asc end) d.

(** The check box above the rows. *)
Definition select_page (d : DispatchData) : DispatchData :=
  if Nat.eqb (length (selectedIds d)) (length (paginatedData d)) then setSelection [] (isRetrying d) d
  else setSelection (set_of (map id (paginatedData d))) (isRetrying d) d.

(** *** Sending again *)

Definition retry_body (uuid : string) (c : Command) : obj :=
  again_body "command-dispatch-retry-" (deviceId c) (method c) (params c) (high_priority c || requires2fa c) uuid.

(** The commands [retrySelected] sends. *)
Definition retried (d : DispatchData) : list Command :=
  List.filter (fun c => has (selectedIds d) (id c)) (commands d).

(** [Boolean(response.ok && payload.command_id)], false when anything throws. *)
Definition retry_ok (r : option FetchResponse) : bool :=
  match r with
  | None => false
  | Some response =>
      match member (json_or_empty response) "command_id" with
      | Ok command_id => ok response && truthy command_id
      | Exn _ => false
      end
  end.

Definition retry_report (results : list bool) : list string :=
  let successCount := length (List.filter (fun b => b) results) in
  let failCount := (length results - successCount)%nat in
  let plural n := if Nat.eqb n 1 then "" else "s" in
  (if Nat.ltb 0 successCount
   then ["Retried " +:+ Num.digits (Z.of_nat successCount) +:+ " command" +:+ plural successCount] else [])
  ++ (if Nat.ltb 0 failCount
      then ["Failed to retry " +:+ Num.digits (Z.of_nat failCount) +:+ " command" +:+ plural failCount] else []).

(** *** The page *)

Inductive Act :=
| Tab (t : string) | Search (s : string) | Source (s : string) | ToggleSort (key : SortKey)
| ToggleSelect (x : string) | SelectPage | ClearSelection | GoTo (page : nat)
| RetryStart | RetryEnd.

Definition click (a : Act) (d : DispatchData) : DispatchData :=
  match a with
  | Tab t => setView t (search d) (sourceFilter d) 1 d
  | Search s => setView (activeTab d) s (sourceFilter d) 1 d
  | Source s => setView (activeTab d) (search d) s 1 d
  | ToggleSort key => toggleSort key d
  | ToggleSelect x =>
      if has (map id (paginatedData d)) x then setSelection (set_toggle x (selectedIds d)) (isRetrying d) d else d
  | SelectPage => select_page d
  | ClearSelection => setSelection [] (isRetrying d) d
  | GoTo page =>
      if Nat.leb 1 page && Nat.leb page (page_count pageSize (length (filtered d)))
      then setView (activeTab d) (search d) (sourceFilter d) page d else d
  | RetryStart => if Nat.eqb (length (selectedIds d)) 0 then d else setSelection (selectedIds d) true d
  | RetryEnd => setSelection [] false d
  end.

(** [fetchCommands] after its response. *)
Definition commands_end (mode : Mode) (r : Reply (list CommandRow)) (s : Shown DispatchData) : Shown DispatchData :=
  let d := data s in
  let failure := {| data := match mode with initial => clamp_current (setCommands [] d) | _ => d end;
                    error := Some "Failed to load data" |} in
  match payload_of r with
  | None => failure
  | Some rows =>
      match res_mapM toCommand rows with
      | Exn _ => failure
      | Ok mapped =>
          let mapped := latest_queued date_parse queuedAtIso mapped in
          {| data := clamp_current (setSelection
                       (List.filter (fun x => existsb (fun c => id c === x) mapped) (selectedIds d))
                       (isRetrying d) (setCommands mapped d));
             error := None |}
      end
  end.

#[export] Instance dispatch_page : Page DispatchData (Reply (list CommandRow)) Act := {
  settle := commands_end;
  overtaken := fun _ s => s;
  act := fun a d => clamp_current (click a d);
}.

#[export] Instance dispatch_page_quiet : QuietAbort DispatchData (Reply (list CommandRow)) Act.
Proof. by intros r s. Qed.

(** *** The audit trail below it *)

Definition toAuditEntry (row : CommandListRowApi) : Rows.AuditEntry :=
  let r := mapCommandListRow url_pathname row in
  {| Rows.audit_id := "AUD-CMD-" +:+ commandId r;
     Rows.audit_timestamp := DateTime.formatLocalDateTime date_parse local (Results.completedAt r ??? Results.queuedAt r) "-";
     Rows.actor := actorEmail r;
     Rows.actorRole := if actorEmail r === "system" then "System" else "Operator";
     Rows.eventType := "command_execution";
     Rows.action := "COMMAND_" +:+ toUpperCase (state_str (nState r));
     Rows.target := Results.deviceId r;
     Rows.detail := nMethod r +:+ " (" +:+ commandId r +:+ ")"
                    +:+ (match Results.errorMessage r with
                         | Some m => if truthy_str m then " - " +:+ m else "" | None => "" end);
     Rows.outcome := match nState r with
                     | completed => Rows.success
                     | failed | expired | rejected => Rows.failure
                     | _ => Rows.pending
                     end |}.

Definition parseSortTime (value : string) : Z := date_parse value ?? 0.

(** [load] after its response; only an initial load shows that it loads. *)
Definition trail_end (mode : Mode) (r : Reply (list CommandListRowApi)) (s : Shown (list Rows.AuditEntry))
    : Shown (list Rows.AuditEntry) :=
  match payload_of r with
  | Some rows =>
      {| data := take 120 (stable_sort (latest (fun e => parseSortTime (Rows.audit_timestamp e))) (map toAuditEntry rows));
         error := None |}
  | None =>
      {| data := match mode with initial => [] | _ => data s end; error := Some "Failed to load data" |}
  end.

#[export] Instance trail_page : Page (list Rows.AuditEntry) (Reply (list CommandListRowApi)) Empty_set := {
  settle := trail_end;
  overtaken := fun _ s => s;
  act := fun _ d => d;
}.

#[export] Instance trail_page_quiet : QuietAbort (list Rows.AuditEntry) (Reply (list CommandListRowApi)) Empty_set.
Proof. by intros r s. Qed.
End Zone.
