(* ===== verification/HistoryPage.v ===== *)
(** * The history of commands

    src/app/command-history/components/CommandHistoryContent.tsx: the polled
    history, its filters and order, and commands sent again; with the laws
    of this list and of the one of [DispatchPage], whose parameters it
    shares. *)

From stdpp Require Import sets.
From S2P Require Import Prelude JsNumber JsString JsValue Http Session Commands RenderModel RenderLaws Devices Client Loader Tables Dispatching DispatchPage.
Import Resolver Results.

Local Open Scope Z_scope.

(** ** Rows *)

Record HistoryCommand := {
  id : string; traceId : string; deviceId : string; hostname : string; method : string;
  state : CommandState; actor : string; originChannel : CommandOriginChannel;
  queuedAt : string; queuedAtIso : option string; completedAt : option string;
  completedAtIso : option string; duration : option string; errorMessage : option string;
  high_priority : bool; batchId : option string; preview : string; resultType : option string;
  params : obj;
}.

(** The columns with a heading; [completedAt] has none, but the code sorts
    by it too. *)
Inductive SortKey :=
| by_id | by_hostname | by_method | by_state | by_actor | by_originChannel | by_queuedAt | by_duration
| by_completedAt.

#[export] Instance SortKey_eq_dec : EqDecision SortKey.
Proof. solve_decision. Defined.

(** A text that is not blank, trimmed. *)
Definition text_of (v : jsval) : option string :=
  match v with JStr s => if truthy_str (trim s) then Some (trim s) else None | _ => None end.

Section Zone.
Context (date_parse : string -> option Z) (local : Z -> LocalTime).
Context (url_pathname : string -> option string) (locale : string -> string -> bool).

Definition formatDuration (startIso endIso : option string) : option string :=
  if negb (truthy_str (startIso ?? "")) || negb (truthy_str (endIso ?? "")) then None
  else
    let start := parseTimeMs date_parse startIso in
    let stop := parseTimeMs date_parse endIso in
    if (start =? 0) || (stop =? 0) || (stop <? start) then None
    else Some (Num.to_string (Num.round (Num.div (Num.of_Z (stop - start)) (Num.of_Z 1000))) +:+ "s").

Definition toHistoryCommand (row : CommandRow) : res HistoryCommand :=
  let r := mapCommandListRow url_pathname (row_api row) in
  let! high := is_high (priority_of row) in
  let kind := match nResult r with
              | None => JUndef
              | Some o => let meta := get o "meta" in if is_nullish meta then JUndef else prop meta "kind"
              end in
  Ok {| id := commandId r;
        traceId := Results.traceId r ?? "-";
        deviceId := Results.deviceId r;
        hostname := or_str (deviceName r) (Results.deviceId r);
        method := nMethod r;
        state := nState r;
        actor := actorEmail r;
        originChannel := Results.originChannel r;
        queuedAt := DateTime.formatLocalDateTime date_parse local (Results.queuedAt r) "-";
        queuedAtIso := Results.queuedAt r;
        completedAt := if truthy_str (Results.completedAt r ?? "")
                       then Some (DateTime.formatLocalDateTime date_parse local (Results.completedAt r) "-")
                       else None;
        completedAtIso := Results.completedAt r;
        duration := formatDuration (Results.queuedAt r) (Results.completedAt r);
        errorMessage := Results.errorMessage r ??? nReason r;
        high_priority := high;
        batchId := text_of (batch_id row);
        preview := resultPreview r;
        resultType := text_of kind;
        params := nParams r |}.

Record Filters := {
  search : string; deviceFilter : string; methodFilter : string; actorFilter : string;
  sourceFilter : string; stateFilter : string; dateFrom : string; dateTo : string;
}.

Definition no_filters : Filters :=
  {| search := ""; deviceFilter := "all"; methodFilter := "all"; actorFilter := "all";
     sourceFilter := "all"; stateFilter := "all"; dateFrom := ""; dateTo := "" |}.

Definition all_or (filter value : string) : bool := (filter === "all") || (value === filter).

Definition matches (f : Filters) (c : HistoryCommand) : bool :=
  let lowered := toLowerCase (trim (search f)) in
  let fromMs := if truthy_str (dateFrom f) then parseTimeMs date_parse (Some (dateFrom f +:+ "T00:00:00")) else 0 in
  let toMs := if truthy_str (dateTo f) then parseTimeMs date_parse (Some (dateTo f +:+ "T23:59:59")) else 0 in
  let queuedMs := parseTimeMs date_parse (queuedAtIso c) in
  (negb (truthy_str lowered) || includes (toLowerCase (id c)) lowered
   || includes (toLowerCase (hostname c)) lowered || includes (toLowerCase (method c)) lowered
   || includes (toLowerCase (actor c)) lowered || includes (toLowerCase (traceId c)) lowered)
  && all_or (deviceFilter f) (hostname c) && all_or (methodFilter f) (method c)
  && all_or (actorFilter f) (actor c) && all_or (sourceFilter f) (channel_str (originChannel c))
  && all_or (stateFilter f) (state_str (state c))
  && ((fromMs =? 0) || (fromMs <=? queuedMs)) && ((toMs =? 0) || (queuedMs <=? toMs)).

Definition column_before (key : SortKey) (a b : HistoryCommand) : bool :=
  let by_time (f : HistoryCommand -> option string) :=
    parseTimeMs date_parse (f a) <? parseTimeMs date_parse (f b) in
  match key with
  | by_queuedAt => by_time queuedAtIso
  | by_completedAt => by_time completedAtIso
  | by_id => locale (id a) (id b)
  | by_hostname => locale (hostname a) (hostname b)
  | by_method => locale (method a) (method b)
  | by_state => locale (state_str (state a)) (state_str (state b))
  | by_actor => locale (actor a) (actor b)
  | by_originChannel => locale (channel_str (originChannel a)) (channel_str (originChannel b))
  | by_duration => locale (duration a ?? "") (duration b ?? "")
  end.

Record HistoryData := {
  history : list HistoryCommand;
  filters : Filters;
  sortKey : SortKey;
  sortDir : SortDir;
  expandedId : option string;
  isReplaying : list string;
}.

Definition history_init : HistoryData :=
  {| history := []; filters := no_filters; sortKey := by_queuedAt; sortDir := desc; expandedId := None;
     isReplaying := [] |}.

Definition filtered (d : HistoryData) : list HistoryCommand :=
  sorted_by (sortDir d) (column_before (sortKey d)) (List.filter (matches (filters d)) (history d)).

(** The values the filters offer. *)
Definition choices (f : HistoryCommand -> string) (d : HistoryData) : list string :=
  stable_sort String.ltb (set_of (map f (history d))).

Definition setHistory (l : list HistoryCommand) (d : HistoryData) : HistoryData :=
  {| history := l; filters := filters d; sortKey := sortKey d; sortDir := sortDir d;
     expandedId := expandedId d; isReplaying := isReplaying d |}.
Definition setFilters (f : Filters) (d : HistoryData) : HistoryData :=
  {| history := history d; filters := f; sortKey := sortKey d; sortDir := sortDir d;
     expandedId := expandedId d; isReplaying := isReplaying d |}.
Definition setSort (k : SortKey) (dir : SortDir) (d : HistoryData) : HistoryData :=
  {| history := history d; filters := filters d; sortKey := k; sortDir := dir;
     expandedId := expandedId d; isReplaying := isReplaying d |}.
Definition setRow (x : option string) (busy : list string) (d : HistoryData) : HistoryData :=
  {| history := history d; filters := filters d; sortKey := sortKey d; sortDir := sortDir d;
     expandedId := x; isReplaying := busy |}.

Definition toggleSort (key : SortKey) (d : HistoryData) : HistoryData :=
  if decide (sortKey d = key) then setSort key (flip (sortDir d)) d
  else setSort key (match key with by_queuedAt => desc | _ => asc end) d.

Definition toggle_row (x : string) (d : HistoryData) : HistoryData :=
  setRow (match expandedId d with Some y => if y === x then None else Some x | None => Some x end)
    (isReplaying d) d.

(** *** Sending again *)

Definition replay_body (uuid : string) (c : HistoryCommand) : obj :=
  again_body "history-replay-" (deviceId c) (method c) (params c) (high_priority c) uuid.

(** [replayCommand] around its request; the button of a command that is
    being replayed is disabled. *)
Definition replay_start (x : string) (d : HistoryData) : HistoryData :=
  if has (isReplaying d) x then d else setRow (expandedId d) (isReplaying d ++ [x]) d.
Definition replay_end (x : string) (d : HistoryData) : HistoryData :=
  setRow (expandedId d) (List.filter (fun y => y !== x) (isReplaying d)) d.

Inductive Act :=
| Filter (f : Filters) | ClearFilters | ToggleSort (key : SortKey) | ToggleRow (x : string)
| ReplayStart (x : string) | ReplayEnd (x : string).

Definition click (a : Act) (d : HistoryData) : HistoryData :=
  match a with
  | Filter f => setFilters f d
  | ClearFilters => setFilters no_filters d
  | ToggleSort key => toggleSort key d
  | ToggleRow x => toggle_row x d
  | ReplayStart x => replay_start x d
  | ReplayEnd x => replay_end x d
  end.

(** [fetchHistory] after its response. *)
Definition history_end (mode : Mode) (r : Reply (list CommandRow)) (s : Shown HistoryData) : Shown HistoryData :=
  let failure := {| data := match mode with initial => setHistory [] (data s) | _ => data s end;
                    error := Some "Failed to load data" |} in
  match payload_of r with
  | None => failure
  | Some rows =>
      match res_mapM toHistoryCommand rows with
      | Exn _ => failure
      | Ok mapped => {| data := setHistory (latest_queued date_parse queuedAtIso mapped) (data s); error := None |}
      end
  end.

#[export] Instance history_page : Page HistoryData (Reply (list CommandRow)) Act := {
  settle := history_end;
  overtaken := fun _ s => s;
  act := click;
}.

#[export] Instance history_page_quiet : QuietAbort HistoryData (Reply (list CommandRow)) Act.
Proof. by intros r s. Qed.
End Zone.

(** ** Laws *)

Section Laws.
Context (date_parse : string -> option Z) (locale : string -> string -> bool).
Context (locale_asym : forall a b, locale a b = true -> locale b a = false).
Context (locale_negtrans : forall a b c, locale a b = false -> locale b c = false -> locale a c = false).

Lemma time_asym x y : (x <? y) = true -> (y <? x) = false.
Proof. rewrite Z.ltb_lt, Z.ltb_ge. lia. Qed.

Lemma time_negtrans x y z : (x <? y) = false -> (y <? z) = false -> (x <? z) = false.
Proof. rewrite !Z.ltb_ge. lia. Qed.

Lemma dispatched_order dir key rows :
  in_order (directed dir (DispatchPage.column_before date_parse locale key))
    (sorted_by dir (DispatchPage.column_before date_parse locale key) rows).
Proof. apply sorted_by_order; destruct key; cbn; eauto using time_asym, time_negtrans. Qed.

Lemma history_order dir key rows :
  in_order (directed dir (column_before date_parse locale key))
    (sorted_by dir (column_before date_parse locale key) rows).
Proof. apply sorted_by_order; destruct key; cbn; eauto using time_asym, time_negtrans. Qed.

Lemma all_states_allowed c : existsb (fun s => state_str s === state_str c) DispatchPage.all_states = true.
Proof. by destruct c. Qed.

(** Without a search and a source, a tab shows its states. *)
Lemma tab_matches tab page d c :
  DispatchPage.matches (DispatchPage.setView tab "" "all" page d) c
  = existsb (fun s => state_str s === state_str (DispatchPage.state c)) (DispatchPage.allowedStates tab).
Proof. unfold DispatchPage.matches. cbn. by rewrite !andb_true_r. Qed.

Lemma tab_counted tab page d :
  length (DispatchPage.filtered date_parse locale (DispatchPage.setView tab "" "all" page d))
  = DispatchPage.tab_count d tab.
Proof.
  unfold DispatchPage.filtered. rewrite (Permutation_length (sorted_by_perm _ _ _)).
  rewrite (filter_ext _ _ (tab_matches tab page d)). unfold DispatchPage.tab_count.
  destruct (tab === "all") eqn:E; [|done]. apply String.eqb_eq in E as ->.
  rewrite filter_all; [done|]. intros c. apply all_states_allowed.
Qed.

Lemma cleared_matches c : matches date_parse no_filters c = true.
Proof. done. Qed.

(** The lists of commands: with a collation that orders texts, the
    dispatched commands and the history show exactly the commands that pass
    their filters, in the order of the chosen column and direction; the
    pages of the former show each row once, the number on each of its tabs
    is the number of rows the tab shows without a search or a source, and clearing the filters of the
    latter shows every command. *)
Theorem command_listings (d : DispatchPage.DispatchData) (h : HistoryData) (tab : string) (page : nat) :
  let rows := DispatchPage.filtered date_parse locale d in
  rows ≡ₚ List.filter (DispatchPage.matches d) (DispatchPage.commands d)
  /\ in_order (directed (DispatchPage.sortDir d) (DispatchPage.column_before date_parse locale (DispatchPage.sortKey d))) rows
  /\ concat (map (fun k => page_rows DispatchPage.pageSize k rows)
               (seq 1 (page_count DispatchPage.pageSize (length rows)))) = rows
  /\ length (DispatchPage.filtered date_parse locale (DispatchPage.setView tab "" "all" page d))
     = DispatchPage.tab_count d tab
  /\ filtered date_parse locale h
     ≡ₚ List.filter (matches date_parse (filters h)) (history h)
  /\ in_order (directed (sortDir h) (column_before date_parse locale (sortKey h)))
       (filtered date_parse locale h)
  /\ filtered date_parse locale (setFilters no_filters h) ≡ₚ history h.
Proof.
  cbn zeta. split_and!.
  - apply sorted_by_perm.
  - apply dispatched_order.
  - apply pages_partition. unfold DispatchPage.pageSize. lia.
  - apply tab_counted.
  - apply sorted_by_perm.
  - apply history_order.
  - unfold filtered. rewrite sorted_by_perm. cbn [setFilters filters history].
    by rewrite filter_all by apply cleared_matches.
Qed.
End Laws.

(** ** Demonstrations *)

Module PagesDemo.

Definition no_date (_ : string) : option Z := None.
Definition midnight (_ : Z) : LocalTime :=
  {| fullYear := 2026; month := 1; Devices.date := 1; hours := 0; minutes := 0; secs := 0 |}.
Definition no_url (_ : string) : option string := None.
Definition shorter (a b : string) : bool := Nat.ltb (String.length a) (String.length b).

Definition sent_row (command method state : string) : CommandRow :=
  {| row_api := {| command_id := Some command; device_id := Some "d-1"; device_name := None;
               Results.method := Some method; Results.params := None; Results.state := Some state;
               execution_state := None; queued_at := None; dispatched_at := None; completed_at := None;
               trace_id := None; result := JUndef; result_status := None; result_notes := None;
               artifact_url := None; artifact_checksum := None; error_code := None; error_message := None;
               Results.reason := None; actor_email := None; origin_channel := None; origin_session_id := None;
               origin_mobile_device_id := None |};
     ack_at := JUndef; priority_of := JUndef; requires_2fa := JUndef; requires2fa_of := JUndef;
     batch_id := JUndef |}.

#[local] Instance demo_dispatch : Page DispatchPage.DispatchData (Reply (list CommandRow)) DispatchPage.Act :=
  DispatchPage.dispatch_page no_date midnight no_url shorter.
#[local] Instance demo_history : Page HistoryData (Reply (list CommandRow)) Act :=
  history_page no_date midnight no_url.

Definition listed : Reply (list CommandRow) :=
  Replied 200 (Some [sent_row "c-1" "ping" "completed"; sent_row "c-22" "wipe_device" "failed"]).
Definition page : Shown DispatchPage.DispatchData :=
  settle initial listed {| data := DispatchPage.dispatch_init; error := None |}.
Definition past : Shown HistoryData :=
  settle initial listed {| data := history_init; error := None |}.

Lemma command_listings_witness :
  length (DispatchPage.filtered no_date shorter (DispatchPage.setView "failed" "" "all" 1 (data page))) = 1%nat
  /\ DispatchPage.tab_count (data page) "failed" = 1%nat.
Proof.
  assert (DispatchPage.tab_count (data page) "failed" = 1%nat) as E by (vm_compute; reflexivity).
  split; [|exact E]. rewrite <- E.
  destruct (command_listings no_date shorter
    (fun a b => ltac:(unfold shorter; rewrite Nat.ltb_lt, Nat.ltb_ge; lia))
    (fun a b c => ltac:(unfold shorter; rewrite !Nat.ltb_ge; lia))
    (data page) (data past) "failed" 1) as (_ & _ & _ & H & _).
  exact H.
Defined.

(** A command of high risk is sent again as if it were harmless: only its
    priority and an explicit flag count, not the risk of its method. *)
Lemma retry_not_sensitive :
  map (fun c => (own_get (DispatchPage.retry_body "u" c) "sensitive", methodRisk (DispatchPage.method c)))
    (List.filter (fun c => DispatchPage.id c === "c-22") (DispatchPage.commands (data page)))
  = [(Some (JBool false), high)]
  /\ map (fun c => own_get (replay_body "u" c) "sensitive")
       (List.filter (fun c => id c === "c-22") (history (data past)))
     = [Some (JBool false)].
Proof. split; vm_compute; reflexivity. Qed.

(** Of the selection every command is sent again, whatever its state, while
    a row offers this only for one that failed or expired. *)
Lemma retry_sends_completed :
  let d := act (DispatchPage.ToggleSelect "c-1") (data page) in
  map DispatchPage.state (DispatchPage.retried d) = [completed].
Proof. vm_compute. reflexivity. Qed.

(** When the list fails to load anew, the rows go and the selection stays. *)
Lemma selection_outlives_list :
  let d := act (DispatchPage.ToggleSelect "c-1") (data page) in
  let s := settle initial Unreachable {| data := d; error := None |} in
  DispatchPage.commands (data s) = [] /\ DispatchPage.selectedIds (data s) = ["c-1"]
  /\ DispatchPage.retried (data s) = [].
Proof. split_and!; vm_compute; reflexivity. Qed.

(** Durations are ordered as texts: ten seconds come before nine. *)
Lemma durations_sort_as_text c c' :
  duration c = Some "10s" -> duration c' = Some "9s" ->
  column_before no_date String.ltb by_duration c c' = true.
Proof. intros E E'. cbn. by rewrite E, E'. Qed.

End PagesDemo.
