(* ===== verification/Scheduling.v ===== *)
(** * Scheduled commands

    src/app/command-scheduling/components/CommandSchedulingContent.tsx: the
    rows of schedules and runs, the polled page, the form of a new schedule
    and the requests that create, pause, resume, run and delete one.
    [date_parse] is that of Module DateTime; [locale_date] and
    [locale_datetime] are toLocaleDateString and toLocaleString on a valid
    date, [locale] the negative result of localeCompare. *)

From stdpp Require Import sets.
From S2P Require Import Prelude JsNumber JsString JsValue Http Session Commands RenderModel RenderLaws Loader Tables Dispatching.
Import Resolver.

Local Open Scope Z_scope.

(** ** Rows *)

Inductive ScheduleStatus := active | paused | schedule_completed | schedule_failed.
Inductive RunStatus := success | run_failed | running_run | skipped.

Record ScheduledJob := {
  j_id : string; j_name : string; j_command : string; j_params : obj; j_deviceIds : list string;
  j_cronExpression : string; j_cronDescription : string; j_status : ScheduleStatus;
  j_nextRun : option string; j_lastRun : option string; j_lastRunStatus : option RunStatus;
  j_batchId : string; j_totalRuns : num; j_successRuns : num; j_failedRuns : num;
  j_createdAt : string; j_createdBy : string; j_enabled : bool; j_timezone : string;
}.

Record RunRecord := {
  r_id : string; r_batchId : string; r_jobId : string; r_jobName : string; r_deviceId : string;
  r_hostname : string; r_status : RunStatus; r_startedAt : string; r_completedAt : option string;
  r_duration : option string; r_commandId : option string; r_error : option string;
}.

Record ApiScheduleRow := {
  s_id : string; s_name : option string; s_method : option string; s_params : option obj;
  resolved_device_ids : option (list string); target_ids : option (list string);
  cron_expression : option string; timezone : option string; enabled : option bool;
  last_run_at : option string; next_run_at : option string; last_run_status : option string;
  total_runs : option num; success_runs : option num; failed_runs : option num;
  created_at : option string; created_by_email : option string;
}.

Record ApiRunRow := {
  ar_id : string; ar_batch_id : option string; job_id : option string; job_name : option string;
  ar_device_id : option string; ar_hostname : option string; ar_status : option string;
  started_at : option string; ar_completed_at : option string; duration_seconds : option num;
  ar_command_id : option string; ar_error_message : option string;
}.

Definition CRON_PRESETS : list (string * string) :=
  [("Every 5 minutes", "*/5 * * * *"); ("Every 15 minutes", "*/15 * * * *"); ("Every hour", "0 * * * *");
   ("Every 6 hours", "0 */6 * * *"); ("Daily at midnight", "0 0 * * *"); ("Daily at 9am", "0 9 * * *");
   ("Weekly (Mon 9am)", "0 9 * * 1"); ("Monthly (1st, midnight)", "0 0 1 * *")].

Definition describeCron (expression : string) : string :=
  match List.find (fun p => p.2 === expression) CRON_PRESETS with Some p => p.1 | None => expression end.

Definition mapRunStatus (value : option string) : RunStatus :=
  let normalized := toLowerCase (trim (value ?? "")) in
  if (normalized === "success") || (normalized === "completed") then success
  else if (normalized === "failed") || (normalized === "error") || (normalized === "expired")
          || (normalized === "rejected") then run_failed
  else running_run.

Definition mapScheduleStatus (b : bool) : ScheduleStatus := if b then active else paused.

Definition truthy_text (o : option string) : option string :=
  match o with Some s => if truthy_str s then Some s else None | None => None end.

Section Dates.
Context (date_parse : string -> option Z) (locale_date locale_datetime : Z -> string).

Definition formatDate (value : option string) : string :=
  match truthy_text value ≫= date_parse with Some t => locale_date t | None => "-" end.

Definition formatDateTime (value : option string) : option string :=
  locale_datetime <$> (truthy_text value ≫= date_parse).

Definition target_devices (row : ApiScheduleRow) : list string :=
  match resolved_device_ids row with
  | Some (_ :: _ as ids) => ids
  | _ => target_ids row ?? []
  end.

Definition toScheduledJob (row : ApiScheduleRow) : ScheduledJob :=
  let cronExpression := cron_expression row ?? "" in
  let on := enabled row ?? false in
  {| j_id := s_id row;
     j_name := s_name row ?? "Unnamed schedule";
     j_command := s_method row ?? "unknown";
     j_params := s_params row ?? [];
     j_deviceIds := target_devices row;
     j_cronExpression := cronExpression;
     j_cronDescription := describeCron cronExpression;
     j_status := mapScheduleStatus on;
     j_nextRun := formatDateTime (next_run_at row);
     j_lastRun := formatDateTime (last_run_at row);
     j_lastRunStatus := (fun s => mapRunStatus (Some s)) <$> truthy_text (last_run_status row);
     j_batchId := "SCH-" +:+ toUpperCase (sdrop (String.length (s_id row) - 6) (s_id row));
     j_totalRuns := total_runs row ?? Num.zero;
     j_successRuns := success_runs row ?? Num.zero;
     j_failedRuns := failed_runs row ?? Num.zero;
     j_createdAt := formatDate (created_at row);
     j_createdBy := created_by_email row ?? "unknown";
     j_enabled := on;
     j_timezone := timezone row ?? "UTC" |}.

Definition toRunRecord (row : ApiRunRow) : RunRecord :=
  let seconds := duration_seconds row ?? Num.zero in
  {| r_id := ar_id row;
     r_batchId := ar_batch_id row ?? ar_id row;
     r_jobId := job_id row ?? "";
     r_jobName := job_name row ?? "Unknown job";
     r_deviceId := ar_device_id row ?? "";
     r_hostname := ar_hostname row ?? ar_device_id row ?? "unknown-device";
     r_status := mapRunStatus (ar_status row);
     r_startedAt := formatDateTime (started_at row) ?? "-";
     r_completedAt := formatDateTime (ar_completed_at row);
     r_duration := if Num.gt seconds Num.zero then Some (Num.to_string seconds +:+ "s") else None;
     r_commandId := truthy_text (ar_command_id row);
     r_error := truthy_text (ar_error_message row) |}.
End Dates.

(** ** State *)

Record DeviceOption := { o_id : string; o_label : string }.

(** The form of a new schedule; [None] while the modal is closed. *)
Record CreateForm := {
  f_name : string; f_command : string; f_cronExpression : string; f_cronDescription : string;
  f_deviceIds : list string;
}.

Record ScheduleData := {
  jobs : list ScheduledJob;
  runs : list RunRecord;
  selectedJobId : option string;
  historyFilter : string;
  deviceOptions : list DeviceOption;
  commandOptions : list string;
  createForm : option CreateForm;
  isSaving : bool;
}.

Definition schedule_init : ScheduleData :=
  {| jobs := []; runs := []; selectedJobId := None; historyFilter := "all"; deviceOptions := [];
     commandOptions := []; createForm := None; isSaving := false |}.

Definition selectedJob (d : ScheduleData) : option ScheduledJob :=
  match selectedJobId d with
  | Some x => List.find (fun j => j_id j === x) (jobs d)
  | None => None
  end.

Definition filteredRuns (d : ScheduleData) : list RunRecord :=
  if historyFilter d === "all" then runs d
  else List.filter (fun r => (r_batchId r === historyFilter d) || (r_jobId r === historyFilter d)) (runs d).

(** The last runs of a job. *)
Definition job_runs (d : ScheduleData) (j : ScheduledJob) : list RunRecord :=
  take 8 (List.filter (fun r => r_jobId r === j_id j) (runs d)).

Definition total (f : ScheduledJob -> num) (l : list ScheduledJob) : num :=
  fold_left (fun acc j => Num.add acc (f j)) l Num.zero.

Definition success_rate (l : list ScheduledJob) : string :=
  Num.to_string (Num.round (Num.mul (Num.div (total j_successRuns l)
    (Num.max (total j_totalRuns l) (Num.of_Z 1))) (Num.of_Z 100))) +:+ "%".

Definition setJobs (js : list ScheduledJob) (rs : list RunRecord) (sel : option string) (d : ScheduleData) : ScheduleData :=
  {| jobs := js; runs := rs; selectedJobId := sel; historyFilter := historyFilter d;
     deviceOptions := deviceOptions d; commandOptions := commandOptions d; createForm := createForm d;
     isSaving := isSaving d |}.
Definition setOptions (ds : list DeviceOption) (cs : list string) (d : ScheduleData) : ScheduleData :=
  {| jobs := jobs d; runs := runs d; selectedJobId := selectedJobId d; historyFilter := historyFilter d;
     deviceOptions := ds; commandOptions := cs; createForm := createForm d; isSaving := isSaving d |}.
Definition setForm (f : option CreateForm) (saving : bool) (d : ScheduleData) : ScheduleData :=
  {| jobs := jobs d; runs := runs d; selectedJobId := selectedJobId d; historyFilter := historyFilter d;
     deviceOptions := deviceOptions d; commandOptions := commandOptions d; createForm := f; isSaving := saving |}.
Definition setHistoryFilter (v : string) (d : ScheduleData) : ScheduleData :=
  {| jobs := jobs d; runs := runs d; selectedJobId := selectedJobId d; historyFilter := v;
     deviceOptions := deviceOptions d; commandOptions := commandOptions d; createForm := createForm d;
     isSaving := isSaving d |}.

(** ** The form *)

(** The modal as it opens. *)
Definition form_open (d : ScheduleData) : CreateForm :=
  {| f_name := ""; f_command := hd "" (commandOptions d); f_cronExpression := "0 * * * *";
     f_cronDescription := "Every hour"; f_deviceIds := [] |}.

(** The command the select box shows. *)
Definition shown_command (d : ScheduleData) (f : CreateForm) : string :=
  or_str (f_command f) (hd "" (commandOptions d)).

Definition toggleDevice (x : string) (f : CreateForm) : CreateForm :=
  {| f_name := f_name f; f_command := f_command f; f_cronExpression := f_cronExpression f;
     f_cronDescription := f_cronDescription f; f_deviceIds := set_toggle x (f_deviceIds f) |}.

Definition json_request (verb url : string) (body : option obj) : FetchRequest :=
  {| f_method := verb; f_url := url; f_headers := [json_content]; f_body := json_text <$> body |}.

(** [createSchedule]; [zone] is the time zone of the browser. *)
Definition create_body (zone : string) (f : CreateForm) : obj :=
  [("name", JStr (trim (f_name f))); ("method", resolveCommandMethod (f_command f)); ("params", JObj []);
   ("target_type", JStr "device"); ("target_ids", JArr (map JStr (f_deviceIds f)));
   ("cron_expression", JStr (f_cronExpression f)); ("timezone", JStr (or_str zone "UTC"));
   ("enabled", JBool true)].

(** [handleSave]: the body of the request it leads to, if any. *)
Definition handleSave (zone : string) (f : CreateForm) : option obj :=
  if negb (truthy_str (trim (f_name f))) || negb (truthy_str (f_command f))
     || Nat.eqb (length (f_deviceIds f)) 0
  then None
  else Some (create_body zone f).

(** The other requests. *)
Definition schedule_url (x : string) : string := "/api/schedules/" +:+ encodeURIComponent x.
Definition toggle_request (d : ScheduleData) (x : string) : option FetchRequest :=
  match List.find (fun j => j_id j === x) (jobs d) with
  | Some job => Some (json_request "PATCH" (schedule_url x) (Some [("enabled", JBool (negb (j_enabled job)))]))
  | None => None
  end.
Definition delete_request (x : string) : FetchRequest :=
  {| f_method := "DELETE"; f_url := schedule_url x; f_headers := []; f_body := None |}.
Definition run_request (job : ScheduledJob) : FetchRequest :=
  json_request "POST" (schedule_url (j_id job) +:+ "/run-now") None.

(** ** Clicks *)

(** A job is clicked only where it is listed.  [Deleted] is deleteJob after
    its response; [selected] is the selection when it was called, which is
    the one it compares with. *)

Inductive Act :=
| SelectJob (x : string) | FilterHistory (v : string) | OpenCreate | CloseCreate
| TypeName (s : string) | PickCommand (s : string) | TypeCron (s : string) | PickPreset (label value : string)
| ToggleDevice (x : string) | Save (zone : string) | SaveEnd (created : bool)
| Deleted (x : string) (selected : option string).

Definition in_form (g : CreateForm -> CreateForm) (d : ScheduleData) : ScheduleData :=
  setForm (g <$> createForm d) (isSaving d) d.

Definition click (a : Act) (d : ScheduleData) : ScheduleData :=
  match a with
  | SelectJob x =>
      if negb (existsb (fun j => j_id j === x) (jobs d)) then d
      else setJobs (jobs d) (runs d)
        (match selectedJobId d with Some y => if y === x then None else Some x | None => Some x end) d
  | FilterHistory v => setHistoryFilter v d
  | OpenCreate => setForm (Some (form_open d)) (isSaving d) d
  | CloseCreate => setForm None (isSaving d) d
  | TypeName s => in_form (fun f => {| f_name := s; f_command := f_command f; f_cronExpression := f_cronExpression f;
                                       f_cronDescription := f_cronDescription f; f_deviceIds := f_deviceIds f |}) d
  | PickCommand s => in_form (fun f => {| f_name := f_name f; f_command := s; f_cronExpression := f_cronExpression f;
                                          f_cronDescription := f_cronDescription f; f_deviceIds := f_deviceIds f |}) d
  | TypeCron s => in_form (fun f => {| f_name := f_name f; f_command := f_command f; f_cronExpression := s;
                                       f_cronDescription := f_cronDescription f; f_deviceIds := f_deviceIds f |}) d
  | PickPreset label value =>
      in_form (fun f => {| f_name := f_name f; f_command := f_command f; f_cronExpression := value;
                           f_cronDescription := label; f_deviceIds := f_deviceIds f |}) d
  | ToggleDevice x => in_form (toggleDevice x) d
  | Save zone =>
      match createForm d with
      | Some f => if isSaving d then d
                  else match handleSave zone f with
                       | Some _ => setForm (Some f) true d
                       | None => d
                       end
      | None => d
      end
  | SaveEnd created => setForm (if created then None else createForm d) false d
  | Deleted x selected =>
      if bool_decide (selected = Some x) then setJobs (jobs d) (runs d) None d else d
  end.

(** The request a click sends, besides the load it may start. *)
Definition sends (a : Act) (d : ScheduleData) : option FetchRequest :=
  match a, createForm d with
  | Save zone, Some f =>
      if isSaving d then None else json_request "POST" "/api/schedules" ∘ Some <$> handleSave zone f
  | _, _ => None
  end.

(** ** Loading *)

Record Answers := {
  schedulesRes : Reply (list ApiScheduleRow);
  runsRes : Reply (list ApiRunRow);
  devicesRes : Reply (list (string * option string));
  capabilitiesRes : Reply CapabilitiesResponse;
}.

(** The payload of a response that may fail: [d] stands in for a refusal;
    [None] when the body is not JSON. *)
Definition optional {A} (d : A) (r : Reply A) : option A :=
  match r with
  | Unreachable => None
  | Replied _ body => if reply_ok r then body else Some d
  end.

Definition device_option (p : string * option string) : DeviceOption :=
  {| o_id := p.1;
     o_label := match truthy_text p.2 with Some name => name +:+ " (" +:+ p.1 +:+ ")" | None => p.1 end |}.

Section Load.
Context (date_parse : string -> option Z) (locale_date locale_datetime : Z -> string).
Context (locale : string -> string -> bool).

Definition schedules_end (mode : Mode) (a : Answers) (s : Shown ScheduleData) : Shown ScheduleData :=
  let d := data s in
  match payload_of (schedulesRes a), payload_of (runsRes a), optional [] (devicesRes a),
        optional {| canonical_methods := Some []; runtime_supported_methods := Some [] |} (capabilitiesRes a) with
  | Some schedules, Some rs, Some devices, Some capabilities =>
      let nextJobs := map (toScheduledJob date_parse locale_date locale_datetime) schedules in
      let nextRuns := map (toRunRecord date_parse locale_datetime) rs in
      let keep := match selectedJobId d with
                  | Some x => if truthy_str x && existsb (fun j => j_id j === x) nextJobs then Some x else None
                  | None => None
                  end in
      let methods := stable_sort String.ltb
        (set_of ((runtime_supported_methods capabilities ?? []) ++ (canonical_methods capabilities ?? []))) in
      {| data := setOptions (stable_sort (fun x y => locale (o_label x) (o_label y)) (map device_option devices))
                   methods (setJobs nextJobs nextRuns keep d);
         error := None |}
  | _, _, _, _ =>
      {| data := match mode with initial => setJobs [] [] (selectedJobId d) d | _ => d end;
         error := Some "Failed to load schedule data" |}
  end.

#[export] Instance schedule_page : Page ScheduleData Answers Act := {
  settle := schedules_end;
  overtaken := fun _ s => s;
  act := click;
}.

#[export] Instance schedule_page_quiet : QuietAbort ScheduleData Answers Act.
Proof. by intros r s. Qed.
End Load.

(** ** Laws *)

(** The devices of a form are distinct. *)
Definition form_ok (d : ScheduleData) : Prop :=
  match createForm d with Some f => NoDup (f_deviceIds f) | None => True end.

Lemma in_form_ok g d :
  (forall f, NoDup (f_deviceIds f) -> NoDup (f_deviceIds (g f))) -> form_ok d -> form_ok (in_form g d).
Proof. unfold form_ok, in_form. cbn. destruct (createForm d); cbn; auto. Qed.

Lemma click_form_ok a d : form_ok d -> form_ok (click a d).
Proof.
  intros Hd. destruct a; cbn [click]; try exact Hd; try exact I; try (by apply in_form_ok).
  - by destruct (negb _).
  - apply NoDup_nil_2.
  - apply in_form_ok; [|done]. intros f Hf. by apply set_toggle_nodup.
  - unfold form_ok in *. destruct (createForm d) as [f|] eqn:E; [|by rewrite E].
    destruct (isSaving d); [by rewrite E|]. destruct (handleSave zone f); cbn; [done|by rewrite E].
  - unfold form_ok in *. cbn. by destruct created.
  - by case_bool_decide.
Qed.

Lemma handleSave_some zone f body :
  handleSave zone f = Some body <->
  trim (f_name f) <> "" /\ f_command f <> "" /\ f_deviceIds f <> [] /\ body = create_body zone f.
Proof.
  unfold handleSave, truthy_str.
  destruct (String.eqb_spec (trim (f_name f)) ""), (String.eqb_spec (f_command f) ""),
    (f_deviceIds f) as [|x l]; cbn; naive_solver.
Qed.

Section Page.
Context (date_parse : string -> option Z) (locale_date locale_datetime : Z -> string).
Context (locale : string -> string -> bool).

#[local] Instance page_of : Page ScheduleData Answers Act :=
  schedule_page date_parse locale_date locale_datetime locale.

#[local] Instance form_invariant : PageInvariant form_ok.
Proof.
  split; [|done|].
  - intros mode a s Hs. cbn. unfold schedules_end. repeat case_match; exact Hs.
  - intros a d Hd. by apply click_form_ok.
Qed.

(** ** Creations under way *)

(** The page and the requests of its creations that were not answered yet.
    A click may send one; [SaveEnd], and nothing else, is what the page does
    when one is answered (or lost), and it happens once for each.  Once the
    page is closed an answer finds nothing to change. *)
Definition sent_by (e : Event (Answer := Answers) (Act := Act)) (s : Loader ScheduleData) : list FetchRequest :=
  match e with Click a => option_list (sends a (data (shown s))) | _ => [] end.

Definition answers_creation (e : Event (Answer := Answers) (Act := Act)) : bool :=
  match e with Click (SaveEnd _) => true | _ => false end.

Inductive works : list Event -> Loader ScheduleData -> list FetchRequest -> Prop :=
| works_init : works [Start initial] (load_start initial (loader_init schedule_init)) []
| works_step es e s s' underway :
    works es s underway -> step s e s' -> answers_creation e = false ->
    works (es ++ [e]) s' (underway ++ sent_by e s)
| works_answer es created s s' before r after :
    works es s (before ++ r :: after) -> step s (Click (SaveEnd created)) s' ->
    works (es ++ [Click (SaveEnd created)]) s' (before ++ after)
| works_late es s before r after :
    works es s (before ++ r :: after) -> mounted s = false -> works es s (before ++ after).

Lemma works_reaches es s underway : works es s underway -> reaches schedule_init es s.
Proof. induction 1; eauto using reaches_init, reaches_step. Qed.

(** Only [Save] and [SaveEnd] touch the flag. *)
Lemma click_flag a d :
  answers_creation (Click a) = false ->
  isSaving (click a d) = bool_decide (is_Some (sends a d)) || isSaving d.
Proof.
  destruct a; intros H; try discriminate H; try reflexivity; cbn [click sends].
  - by destruct (negb _).
  - destruct (createForm d) as [f|]; [|done]. destruct (isSaving d) eqn:E; [by rewrite orb_true_r|].
    destruct (handleSave zone f); [done|]. by rewrite E.
  - by case_bool_decide.
Qed.

(** The flag tells whether a creation is under way, and there is at most one. *)
Definition flag_tells (s : Loader ScheduleData) (underway : list FetchRequest) : Prop :=
  (length underway <= 1)%nat
  /\ (mounted s = true -> isSaving (data (shown s)) = negb (Nat.eqb (length underway) 0)).

Lemma sends_idle a d r : sends a d = Some r -> isSaving d = false.
Proof. unfold sends. destruct a; try done. destruct (createForm d); [|done]. by destruct (isSaving d). Qed.

Lemma works_flag es s underway : works es s underway -> flag_tells s underway.
Proof.
  induction 1 as [|es e s s' q _ [Hq Hf] Hstep He|es created s s' q1 r q2 _ [Hq _] Hstep|es s q1 r q2 _ [Hq _] Hm].
  - split; [cbn; lia|done].
  - destruct Hstep as [mode s Hm|i mode a s Hi|x s Hm|s Hm]; cbn [sent_by]; rewrite ?app_nil_r; try done.
    + split; [done|]. cbn [load_end mounted shown]. intros Hm. rewrite <- (Hf Hm), Hm. cbn [negb].
      case_bool_decide; [done|]. cbn. unfold schedules_end. repeat case_match; done.
    + specialize (Hf Hm). unfold flag_tells.
      change (isSaving (data (shown (page_act x s)))) with (isSaving (click x (data (shown s)))).
      rewrite (click_flag x _ He).
      destruct (sends x (data (shown s))) as [r|] eqn:E; cbn [option_list].
      * apply sends_idle in E. rewrite E in Hf. destruct q; [|done]. by split.
      * rewrite app_nil_r. split; [done|]. intros _. by rewrite <- Hf.
  - inversion Hstep; subst. rewrite length_app in Hq. cbn in Hq. destruct q1, q2; cbn in Hq; try lia.
    by split; [cbn; lia|].
  - rewrite length_app in Hq. cbn in Hq. split; [rewrite length_app; lia|]. by rewrite Hm.
Qed.

(** [C38] Schedules are created as filled in and one at a time: whatever the
    user clicks, the loads do and the service answers, at most one creation
    is under way at any time, also when the form was closed and opened again
    meanwhile.  A click sends a creation exactly when none is under way, the
    form is open and has a name that is not blank, a command and a device;
    the request then is a POST with the trimmed name, the current name of the
    command, no parameters, the chosen devices, each once, the expression,
    and the zone of the browser, or UTC when it has none. *)
Theorem schedule_created_once (es : list Event) (s : Loader ScheduleData) (underway : list FetchRequest) :
  works es s underway -> mounted s = true ->
  let d := data (shown s) in
  (length underway <= 1)%nat
  /\ (forall a r, sends a d = Some r <->
        exists zone f, a = Save zone /\ underway = [] /\ createForm d = Some f
          /\ trim (f_name f) <> "" /\ f_command f <> "" /\ f_deviceIds f <> [] /\ NoDup (f_deviceIds f)
          /\ f_method r = "POST" /\ f_url r = "/api/schedules" /\ f_headers r = [json_content]
          /\ f_body r = Some (json_text
               [("name", JStr (trim (f_name f))); ("method", resolveCommandMethod (f_command f)); ("params", JObj []);
                ("target_type", JStr "device"); ("target_ids", JArr (map JStr (f_deviceIds f)));
                ("cron_expression", JStr (f_cronExpression f));
                ("timezone", JStr (if zone === "" then "UTC" else zone)); ("enabled", JBool true)])).
Proof.
  intros Hw Hm d. destruct (works_flag _ _ _ Hw) as [Hq Hf]. specialize (Hf Hm). fold d in Hf.
  assert (form_ok d) as Hd by exact (page_invariant form_ok schedule_init es s I (works_reaches _ _ _ Hw)).
  split; [done|]. intros a r. split.
  - intros Hr. pose proof (sends_idle _ _ _ Hr) as Hi. unfold sends in Hr. destruct a as [| | | | | | | | |zone| |]; try done.
    unfold form_ok in Hd. destruct (createForm d) as [f|]; [|done]. rewrite Hi in Hr, Hf.
    apply fmap_Some in Hr as (body & Hb & ->). apply handleSave_some in Hb as (H1 & H2 & H3 & ->).
    exists zone, f. destruct underway; [|done]. split_and!; try done. cbn. unfold create_body, or_str, truthy_str.
    by destruct (String.eqb zone "").
  - intros (zone & f & -> & -> & Hform & H1 & H2 & H3 & _ & Rm & Ru & Rh & Rb). cbn in Hf. unfold sends. rewrite Hform, Hf.
    rewrite (proj2 (handleSave_some zone f _) (conj H1 (conj H2 (conj H3 eq_refl)))). cbn. f_equal.
    destruct r as [m u h b]. cbn in Rm, Ru, Rh, Rb. subst. unfold json_request. do 2 f_equal. cbn.
    unfold create_body, or_str, truthy_str. by destruct (String.eqb zone "").
Qed.
End Page.

(** A preset is described by its label. *)
Lemma presets_described : map (fun p => describeCron p.2) CRON_PRESETS = map fst CRON_PRESETS.
Proof. vm_compute. reflexivity. Qed.

(** ** Demonstrations *)

Module ScheduleDemo.

Definition no_date (_ : string) : option Z := None.
Definition no_text (_ : Z) : string := "".

#[local] Instance demo_page : Page ScheduleData Answers Act :=
  schedule_page no_date no_text no_text String.ltb.

Definition answers : Answers :=
  {| schedulesRes := Replied 200 (Some []); runsRes := Replied 200 (Some []);
     devicesRes := Replied 200 (Some [("d-1", Some "Laptop")]);
     capabilitiesRes := Replied 200 (Some {| canonical_methods := Some ["ping"];
                                             runtime_supported_methods := None |}) |}.

Definition loaded : Loader ScheduleData :=
  load_end 0 initial answers (load_start initial (loader_init schedule_init)).
Definition filled : Loader ScheduleData :=
  page_act (ToggleDevice "d-1") (page_act (TypeName " Nightly ") (page_act OpenCreate loaded)).

(** The form is saved, closed, opened and filled in again before the service
    answers. *)
Definition again : Loader ScheduleData :=
  page_act (ToggleDevice "d-1") (page_act (TypeName "Weekly") (page_act OpenCreate (page_act CloseCreate
    (page_act (Save "UTC") filled)))).

Lemma again_reached :
  works no_date no_text no_text String.ltb
    ([Start initial] ++ [End 0 answers] ++ map Click
       [OpenCreate; TypeName " Nightly "; ToggleDevice "d-1"; Save "UTC"; CloseCreate; OpenCreate; TypeName "Weekly";
        ToggleDevice "d-1"])
    again (option_list (sends (Save "UTC") (data (shown filled)))).
Proof.
  assert (forall es s q x, works no_date no_text no_text String.ltb es s q -> mounted s = true ->
    answers_creation (Click x) = false ->
    works no_date no_text no_text String.ltb (es ++ [Click x]) (page_act x s) (q ++ option_list (sends x (data (shown s))))) as Hclick.
  { intros es s q x Hw Hm Hx. by apply (works_step _ _ _ _ es (Click x) s); [|apply step_click|]. }
  assert (works no_date no_text no_text String.ltb ([Start initial] ++ [End 0 answers]) loaded []) as Hw.
  { apply (works_step _ _ _ _ _ (End 0 answers) _ _ [] (works_init _ _ _ _)); [|done].
    apply (step_end 0 initial). by left. }
  apply (Hclick _ _ _ OpenCreate) in Hw; [|done..]. apply (Hclick _ _ _ (TypeName " Nightly ")) in Hw; [|done..].
  apply (Hclick _ _ _ (ToggleDevice "d-1")) in Hw; [|done..]. apply (Hclick _ _ _ (Save "UTC")) in Hw; [|done..].
  apply (Hclick _ _ _ CloseCreate) in Hw; [|done..]. apply (Hclick _ _ _ OpenCreate) in Hw; [|done..].
  apply (Hclick _ _ _ (TypeName "Weekly")) in Hw; [|done..]. apply (Hclick _ _ _ (ToggleDevice "d-1")) in Hw; [|done..].
  rewrite !app_nil_r in Hw. exact Hw.
Qed.

(** The second form is complete, and yet not sent while the first one is under
    way. *)
Lemma schedule_created_once_witness :
  length (option_list (sends (Save "UTC") (data (shown filled)))) = 1%nat
  /\ (handleSave "UTC" <$> createForm (data (shown again))) <> Some None
  /\ sends (Save "UTC") (data (shown again)) = None.
Proof.
  destruct (schedule_created_once no_date no_text no_text String.ltb _ again _ again_reached eq_refl) as [_ H].
  split; [vm_compute; reflexivity|split; [vm_compute; discriminate|]].
  destruct (sends (Save "UTC") (data (shown again))) as [r|] eqn:E; [|reflexivity].
  destruct (proj1 (H (Save "UTC") r) E) as (zone & f & _ & Hnone & _). exfalso. revert Hnone.
  vm_compute. discriminate.
Defined.

(** A form opened before the commands have arrived shows the first of them
    and yet has none: it cannot be saved. *)
Lemma shown_command_not_saved :
  let s := page_act (ToggleDevice "d-1") (page_act (TypeName "Nightly")
             (load_end 0 initial answers (page_act OpenCreate (load_start initial (loader_init schedule_init))))) in
  match createForm (data (shown s)) with
  | Some f => shown_command (data (shown s)) f = "ping" /\ handleSave "UTC" f = None
  | None => False
  end.
Proof. vm_compute. split; reflexivity. Qed.

End ScheduleDemo.
