(* ===== verification/AppLock.v ===== *)
(** * App lock

    The programs a device refuses to run: the policies, and in Module Panel
    src/app/device-detail/components/DeviceAppLockQuickPanel.tsx, which edits
    the policy of one device.  The manager for all devices is
    [AppLockManager].  [locale] is the negative result of localeCompare,
    [now] a reading of Date.now(). *)

From S2P Require Import Prelude JsNumber JsString JsValue Http Session Commands RenderModel RenderLaws Tables.
Import Resolver Results.

Local Open Scope Z_scope.

(** ** Policies *)

Inductive MatchType := basename | full_path.

#[export] Instance MatchType_eq_dec : EqDecision MatchType.
Proof. solve_decision. Defined.

Definition match_str (m : MatchType) : string :=
  match m with basename => "basename" | full_path => "full_path" end.

(** The action of a rule is always [block]. *)
Record AppLockRule := {
  rule_id : string;
  match_type : MatchType;
  value : string;
  priority : num;
  expires_at : option string;
}.

#[export] Instance eta_rule : Eta AppLockRule := fun r =>
  {| rule_id := rule_id r; match_type := match_type r; value := value r; priority := priority r;
     expires_at := expires_at r |}.

(** The mode is always [blocklist] and the fail mode always [open]. *)
Record AppLockBundle := {
  enabled : bool;
  policy_version : string;
  policy_hash : string;
  event_dedupe_sec : num;
  kill_running_on_apply : bool;
  updated_at : string;
  rules : list AppLockRule;
}.

#[export] Instance eta_bundle : Eta AppLockBundle := fun b =>
  {| enabled := enabled b; policy_version := policy_version b; policy_hash := policy_hash b;
     event_dedupe_sec := event_dedupe_sec b; kill_running_on_apply := kill_running_on_apply b;
     updated_at := updated_at b; rules := rules b |}.

Definition DEFAULT_BUNDLE : AppLockBundle :=
  {| enabled := false; policy_version := ""; policy_hash := ""; event_dedupe_sec := Num.of_Z 30;
     kill_running_on_apply := true; updated_at := ""; rules := [] |}.

Definition new_rule (rid : string) (m : MatchType) (v : string) (p : num) : AppLockRule :=
  {| rule_id := rid; match_type := m; value := v; priority := p; expires_at := None |}.

(** A rule as it is sent; [norm] brings its value into normal form. *)
Definition rule_fields (norm : MatchType -> string -> string) (r : AppLockRule) : obj :=
  [("rule_id", JStr (rule_id r)); ("match_type", JStr (match_str (match_type r)));
   ("value", JStr (norm (match_type r) (value r))); ("action", JStr "block");
   ("priority", JNum (priority r));
   ("expires_at", match expires_at r with Some t => JStr t | None => JNull end)].
Definition rule_payload (norm : MatchType -> string -> string) (r : AppLockRule) : jsval := JObj (rule_fields norm r).

(** The answer to a request for the policy: the [app_lock] of an accepted
    payload, or the message shown. *)
Definition policy_answer (failure : string) (r : option FetchResponse) : res jsval :=
  match r with
  | None => Exn "Failed to fetch"
  | Some response =>
      match resp_json response with
      | None => Exn "Unexpected token"
      | Some json =>
          let! app_lock := if ok response then member json "app_lock" else Ok JUndef in
          if truthy app_lock then Ok app_lock
          else
            let! message := member json "message" in
            let! text := to_str (vnullish message (JStr failure)) in
            Exn text
      end
  end.

(** ** The panel of a device *)

Module Panel.

Definition QUICK_APP_PRESETS : list (string * string) :=
  [("WhatsApp", "whatsapp.root.exe"); ("Discord", "discord.exe"); ("Telegram", "telegram.exe");
   ("Steam", "steam.exe"); ("Epic Games", "epicgameslauncher.exe"); ("Battle.net", "battle.net.exe");
   ("Chrome", "chrome.exe"); ("Edge", "msedge.exe"); ("Firefox", "firefox.exe"); ("Opera", "opera.exe")].

Definition pathBasename (v : string) : string :=
  List.last (List.filter truthy_str (split_by is_separator v)) "".

Definition back_slashes (s : string) : string := smap (fun c => if Ascii.eqb c "/" then backslash else c) s.

Definition normalizePath (v : string) : string := toLowerCase (back_slashes (trim v)).

Definition normalizeBasename (v : string) (allowImplicitExe : bool) : string :=
  let trimmed := trim v in
  if negb (truthy_str trimmed) then ""
  else
    let candidate := toLowerCase (pathBasename trimmed) in
    if negb (truthy_str candidate) then ""
    else if endsWith candidate ".exe" then candidate
    else if allowImplicitExe && negb (includes candidate ".") then candidate +:+ ".exe"
    else "".

Definition normalizeRuleValue (m : MatchType) (v : string) : string :=
  match m with basename => normalizeBasename v true | full_path => normalizePath v end.

(** [Number.isFinite(Number(v)) ? Number(v) : d] *)
Definition finite_or (v : jsval) (d : num) : res num :=
  let! n := to_number v in Ok (if Num.is_finite n then n else d).

Definition coerce_rule (rule : obj) : res AppLockRule :=
  let! rid := str_or (get rule "rule_id") "" in
  let! v := str_or (get rule "value") "" in
  let! p := finite_or (get rule "priority") (Num.of_Z 1000) in
  let! expires := if truthy (get rule "expires_at")
                  then let! t := to_str (get rule "expires_at") in Ok (Some t) else Ok None in
  Ok {| rule_id := rid;
        match_type := match get rule "match_type" with
                      | JStr s => if s === "full_path" then full_path else basename
                      | _ => basename
                      end;
        value := v; priority := p; expires_at := expires |}.

Definition coerceBundle (raw : jsval) : res AppLockBundle :=
  if negb (truthy raw) then Ok DEFAULT_BUNDLE
  else
    let rawRules := as_array (prop raw "rules") ?? [] in
    let! coerced := res_mapM coerce_rule (omap as_object rawRules) in
    let! version := str_or (prop raw "policy_version") "" in
    let! hash := str_or (prop raw "policy_hash") "" in
    let! dedupe := finite_or (prop raw "event_dedupe_sec") (Num.of_Z 30) in
    let! updated := str_or (prop raw "updated_at") "" in
    Ok {| enabled := truthy (prop raw "enabled");
          policy_version := version; policy_hash := hash; event_dedupe_sec := dedupe;
          kill_running_on_apply := match prop raw "kill_running_on_apply" with
                                   | JUndef => true
                                   | v => truthy v
                                   end;
          updated_at := updated;
          rules := List.filter (fun r => (rule_id r !== "") && (trim (value r) !== "")) coerced |}.

(** The units that [/[^a-z0-9._-]+/gi] keeps. *)
Definition id_char (c : ascii) : bool :=
  is_alnum c || Ascii.eqb c "." || Ascii.eqb c "_" || Ascii.eqb c "-".

Definition sanitizeRuleId (raw : string) : string :=
  stake 64 (toLowerCase (replace_runs (fun c => negb (id_char c)) "-" false raw)).

Definition ruleMatches (rule : AppLockRule) (m : MatchType) (v : string) : bool :=
  bool_decide (match_type rule = m) && (normalizeRuleValue m (value rule) === normalizeRuleValue m v).

Definition ruleIsBlocked (b : AppLockBundle) (m : MatchType) (v : string) : bool :=
  if negb (enabled b) then false
  else
    let normalized := normalizeRuleValue m v in
    truthy_str normalized && existsb (fun rule => ruleMatches rule m normalized) (rules b).

(** *** The programs seen on the device *)

Record DiscoveredApp := {
  app_basename : string;
  displayName : string;
  processCount : nat;
  paths : list string;
}.

#[export] Instance eta_app : Eta DiscoveredApp := fun a =>
  {| app_basename := app_basename a; displayName := displayName a; processCount := processCount a;
     paths := paths a |}.

(** One process counted under its basename; [paths] is a Set. *)
Definition note_process (seen : list (string * DiscoveredApp)) (item : jsval) : list (string * DiscoveredApp) :=
  match as_object item with
  | None => seen
  | Some entry =>
      let rawName := as_string (get entry "name") ?? "" in
      let rawPath := as_string (get entry "path") ?? "" in
      let name := or_str (normalizeBasename rawName false) (normalizeBasename rawPath false) in
      if negb (truthy_str name) then seen
      else
        let current := own_get seen name ??
          {| app_basename := name; displayName := name; processCount := 0; paths := [] |} in
        let current := current <| processCount := S (processCount current) |> in
        let current :=
          if (trim rawPath !== "") && negb (has (paths current) (normalizePath rawPath))
          then current <| paths := paths current ++ [normalizePath rawPath] |> else current in
        let current :=
          if endsWith (toLowerCase (trim rawName)) ".exe"
          then current <| displayName := trim rawName |> else current in
        map_set seen name current
  end.

(** The processes a result lists, if it is one of [list_processes]. *)
Definition listed_processes (row : NormalizedCommandResult) : list jsval :=
  match resolveCommandMethod (nMethod row), nResult row with
  | JStr m, Some result =>
      if m === "list_processes"
      then match as_object (get result "data") with
           | Some data => as_array (get data "processes") ?? []
           | None => []
           end
      else []
  | _, _ => []
  end.

Section Locale.
Context (locale : string -> string -> bool).

Definition uniqueSorted (values : list string) : list string := stable_sort locale (set_of values).

Definition sortRules : list AppLockRule -> list AppLockRule :=
  stable_sort (fun a b =>
    let d := Num.sub (priority a) (priority b) in
    if Num.truthy d then Num.lt d Num.zero else locale (rule_id a) (rule_id b)).

Definition extractDiscoveredApps (results : list NormalizedCommandResult) : list DiscoveredApp :=
  stable_sort (fun a b => locale (displayName a) (displayName b))
    (map (fun kv => kv.2 <| paths := uniqueSorted (paths kv.2) |>)
       (fold_left note_process (concat (map listed_processes results)) [])).

Definition appIsBlocked (b : AppLockBundle) (app : DiscoveredApp) : bool :=
  if negb (enabled b) then false
  else existsb (fun rule =>
         match match_type rule with
         | basename => normalizeRuleValue basename (value rule) === app_basename app
         | full_path => has (paths app) (normalizeRuleValue full_path (value rule))
         end) (rules b).

(** *** Changes *)

(** The policy with other rules: in order, and enforced if there are any. *)
Definition with_rules (next : list AppLockRule) (b : AppLockBundle) : AppLockBundle :=
  b <| enabled := negb (Nat.eqb (length (sortRules next)) 0) |> <| rules := sortRules next |>.

Definition fresh_id (deviceId v : string) (now : N) : string :=
  or_str (sanitizeRuleId ("dev-" +:+ deviceId +:+ "-" +:+ v +:+ "-" +:+ base36 now)) ("rule-" +:+ base36 now).

Definition toggleDiscoveredApp (deviceId : string) (now : N) (app : DiscoveredApp) (b : AppLockBundle) : AppLockBundle :=
  let normalizedAppPaths := map (normalizeRuleValue full_path) (paths app) in
  let named rule := bool_decide (match_type rule = basename)
                    && (normalizeRuleValue basename (value rule) === app_basename app) in
  if appIsBlocked b app then
    with_rules
      (List.filter (fun rule =>
         match match_type rule with
         | basename => normalizeRuleValue basename (value rule) !== app_basename app
         | full_path => negb (has normalizedAppPaths (normalizeRuleValue full_path (value rule)))
         end) (rules b)) b
  else if existsb named (rules b) then with_rules (rules b) b
  else with_rules (rules b ++ [new_rule (fresh_id deviceId (app_basename app) now) basename
                                 (app_basename app) (Num.of_Z 100)]) b.

(** [togglePreset], and [toggleCustomRule] once its value is not blank. *)
Definition toggleRule (deviceId : string) (now : N) (m : MatchType) (v : string) (b : AppLockBundle) : AppLockBundle :=
  let kept := List.filter (fun rule => negb (ruleMatches rule m v)) (rules b) in
  if ruleIsBlocked b m v then with_rules kept b
  else with_rules (kept ++ [new_rule (fresh_id deviceId v now) m v (Num.of_Z 100)]) b.

Definition removeRule (rule : AppLockRule) (b : AppLockBundle) : AppLockBundle :=
  with_rules (List.filter (fun item => rule_id item !== rule_id rule) (rules b)) b.

(** *** The component *)

Record State := {
  bundle : AppLockBundle;
  loadingPolicy : bool;
  savingKey : option string;
  search : string;
  customMatchType : MatchType;
  customApp : string;
}.

#[export] Instance eta_panel : Eta State := fun s =>
  {| bundle := bundle s; loadingPolicy := loadingPolicy s; savingKey := savingKey s; search := search s;
     customMatchType := customMatchType s; customApp := customApp s |}.

Definition init : State :=
  {| bundle := DEFAULT_BUNDLE; loadingPolicy := false; savingKey := None; search := "";
     customMatchType := basename; customApp := "" |}.

Definition filteredApps (s : State) (apps : list DiscoveredApp) : list DiscoveredApp :=
  let needle := toLowerCase (trim (search s)) in
  if negb (truthy_str needle) then apps
  else List.filter (fun app =>
         includes (toLowerCase (displayName app)) needle || includes (app_basename app) needle
         || existsb (fun path => includes path needle) (paths app)) apps.

Definition customNormalizedValue (s : State) : string := normalizeRuleValue (customMatchType s) (customApp s).
Definition customBlocked (s : State) : bool :=
  truthy_str (customNormalizedValue s) && ruleIsBlocked (bundle s) (customMatchType s) (customNormalizedValue s).
Definition activeRules (s : State) : list AppLockRule := sortRules (rules (bundle s)).
Definition enforcementArmed (b : AppLockBundle) : bool := enabled b && negb (Nat.eqb (length (rules b)) 0).

Definition scopedPolicyUrl (deviceId : string) : string :=
  "/api/policy/app-lock?device_id=" +:+ encodeURIComponent deviceId.

(** [loadPolicy] and [persistPolicy] around their requests. *)
Definition load_start (s : State) : State := s <| loadingPolicy := true |>.
Definition load_end (r : option FetchResponse) (s : State) : State :=
  match (let! app_lock := policy_answer "Failed to load app-lock policy" r in coerceBundle app_lock) with
  | Ok b => s <| bundle := b |> <| loadingPolicy := false |>
  | Exn _ => s <| loadingPolicy := false |>
  end.

Definition policy_payload (b : AppLockBundle) : obj :=
  [("enabled", JBool (enabled b)); ("mode", JStr "blocklist"); ("fail_mode", JStr "open");
   ("event_dedupe_sec", JNum (event_dedupe_sec b));
   ("kill_running_on_apply", JBool (kill_running_on_apply b));
   ("rules", JArr (map (rule_payload normalizeRuleValue) (rules b)))].

Definition save_start (key : string) (s : State) : State := s <| savingKey := Some key |>.
Definition save_end (r : option FetchResponse) (s : State) : State :=
  match (let! app_lock := policy_answer "Failed to save app-lock policy" r in coerceBundle app_lock) with
  | Ok b => s <| bundle := b |> <| savingKey := None |>
  | Exn _ => s <| savingKey := None |>
  end.

(** A click that changes the policy: the key it is saved under, and the
    policy it sends. *)
Inductive Change :=
| ToggleApp (app : DiscoveredApp)
| ToggleCustom
| TogglePreset (label name : string)
| Remove (rule : AppLockRule).

Definition change (deviceId : string) (now : N) (c : Change) (s : State) : option (string * AppLockBundle) :=
  let b := bundle s in
  match c with
  | ToggleApp app => Some (app_basename app, toggleDiscoveredApp deviceId now app b)
  | ToggleCustom =>
      let v := customNormalizedValue s in
      if negb (truthy_str v) then None
      else Some ("custom-" +:+ match_str (customMatchType s) +:+ "-" +:+ v,
                 toggleRule deviceId now (customMatchType s) v b)
  | TogglePreset _ name =>
      let v := normalizeRuleValue basename name in
      Some ("preset-" +:+ v, toggleRule deviceId now basename v b)
  | Remove rule => Some ("remove-" +:+ rule_id rule, removeRule rule b)
  end.

Definition put_request (deviceId : string) (b : AppLockBundle) : FetchRequest :=
  {| f_method := "PUT"; f_url := scopedPolicyUrl deviceId; f_headers := [json_content];
     f_body := Some (json_text (policy_payload b)) |}.
End Locale.
End Panel.
