(* ===== verification/AppLockManager.v ===== *)
(** * The app lock of the settings

    src/app/settings/components/AppLockManagerSection.tsx: the policy of all
    devices, edited as a draft that is saved as a whole.  Its normal form of a
    rule differs from that of the panel ([AppLock.Panel]). *)

From S2P Require Import Prelude JsNumber JsString JsValue AppLock.

Local Open Scope Z_scope.

Module Manager.

Definition normalizeBasename (v : string) : string :=
  let trimmed := toLowerCase (trim v) in
  if negb (truthy_str trimmed) then ""
  else if endsWith trimmed ".exe" then trimmed else trimmed +:+ ".exe".

Definition normalizeRuleValue (m : MatchType) (v : string) : string :=
  match m with basename => normalizeBasename v | full_path => trim v end.

Definition id_char (c : ascii) : bool := is_alnum c || Ascii.eqb c "." || Ascii.eqb c "-".

Definition makeRuleId (m : MatchType) (v : string) (now : N) : string :=
  let clean := toLowerCase (replace_runs (fun c => negb (id_char c)) "-" false (normalizeRuleValue m v)) in
  let stamp := base36 now in
  "rule-" +:+ clean +:+ "-" +:+ sdrop (String.length stamp - 6) stamp.

Record State := {
  bundle : AppLockBundle;
  loading : bool;
  saving : bool;
  newMatchType : MatchType;
  newValue : string;
  newPriority : num;
  checkValue : string;
  confirmClearOpen : bool;
}.

#[export] Instance eta_manager : Eta State := fun s =>
  {| bundle := bundle s; loading := loading s; saving := saving s; newMatchType := newMatchType s;
     newValue := newValue s; newPriority := newPriority s; checkValue := checkValue s;
     confirmClearOpen := confirmClearOpen s |}.

Definition init : State :=
  {| bundle := DEFAULT_BUNDLE; loading := false; saving := false; newMatchType := basename; newValue := "";
     newPriority := Num.of_Z 100; checkValue := ""; confirmClearOpen := false |}.

(** The rule that matches what is checked, and whether it is enforced. *)
Definition blockedCheck (s : State) : option (bool * option AppLockRule) :=
  let input := trim (checkValue s) in
  if negb (truthy_str input) then None
  else
    let matchedRule := List.find (fun rule =>
      match match_type rule with
      | basename => normalizeBasename (value rule) === normalizeBasename input
      | full_path => toLowerCase (value rule) === toLowerCase input
      end) (rules (bundle s)) in
    Some (enabled (bundle s) && bool_decide (is_Some matchedRule), matchedRule).

Definition policy_payload (b : AppLockBundle) : obj :=
  [("enabled", JBool (enabled b)); ("mode", JStr "blocklist"); ("fail_mode", JStr "open");
   ("event_dedupe_sec", JNum (event_dedupe_sec b));
   ("rules", JArr (map (rule_payload normalizeRuleValue) (rules b)))].

(** [Number(x) || d] on a number, and the two ranges. *)
Definition or_num (x d : num) : num := if Num.truthy x then x else d.
Definition clamp_priority (x : num) : num :=
  Num.max (Num.of_Z 1) (Num.min (Num.of_Z 999999) (or_num x (Num.of_Z 100))).
Definition clamp_dedupe (x : num) : num :=
  Num.max (Num.of_Z 1) (Num.min (Num.of_Z 3600) (or_num x (Num.of_Z 30))).

Definition same_rule (m : MatchType) (normalized : string) (rule : AppLockRule) : bool :=
  bool_decide (match_type rule = m) && (normalizeRuleValue (match_type rule) (value rule) === normalized).

Definition addRule (now : N) (s : State) : State :=
  let normalized := normalizeRuleValue (newMatchType s) (newValue s) in
  if negb (truthy_str normalized) then s
  else if existsb (same_rule (newMatchType s) normalized) (rules (bundle s)) then s
  else
    let nextRule := new_rule (makeRuleId (newMatchType s) normalized now) (newMatchType s) normalized
                      (clamp_priority (newPriority s)) in
    s <| bundle := (bundle s) <| rules := rules (bundle s) ++ [nextRule] |> |>
      <| newValue := "" |> <| newPriority := Num.of_Z 100 |>.

Definition removeRule (rid : string) (s : State) : State :=
  s <| bundle := (bundle s) <| rules := List.filter (fun rule => rule_id rule !== rid) (rules (bundle s)) |> |>.

(** [loadPolicy], [savePolicy] and [clearPolicy] after their responses; the
    accepted policy is read at its declared type. *)
Definition load_end (r : option AppLockBundle) (s : State) : State :=
  match r with
  | Some b => s <| bundle := b |> <| loading := false |>
  | None => s <| loading := false |>
  end.
Definition save_end (r : option AppLockBundle) (s : State) : State :=
  match r with
  | Some b => s <| bundle := b |> <| saving := false |>
  | None => s <| saving := false |>
  end.

Inductive Event :=
| LoadStart | LoadEnd (r : option AppLockBundle)
| SaveStart | SaveEnd (r : option AppLockBundle)
| AskClear | CancelClear | ClearStart
| SetEnabled (on : bool) | SetDedupe (x : num)
| SetMatchType (m : MatchType) | TypeValue (v : string) | SetPriority (x : num) | TypeCheck (v : string)
| Add (now : N) | RemoveRule (rid : string).

(** One event; a click on a disabled button does nothing. *)
Definition step (e : Event) (s : State) : State :=
  match e with
  | LoadStart => if loading s then s else s <| loading := true |>
  | LoadEnd r => load_end r s
  | SaveStart => if saving s then s else s <| saving := true |>
  | SaveEnd r => save_end r s
  | AskClear => if saving s then s else s <| confirmClearOpen := true |>
  | CancelClear => if saving s then s else s <| confirmClearOpen := false |>
  | ClearStart => if saving s || negb (confirmClearOpen s) then s
                  else s <| confirmClearOpen := false |> <| saving := true |>
  | SetEnabled on => s <| bundle := (bundle s) <| enabled := on |> |>
  | SetDedupe x => s <| bundle := (bundle s) <| event_dedupe_sec := clamp_dedupe x |> |>
  | SetMatchType m => s <| newMatchType := m |>
  | TypeValue v => s <| newValue := v |>
  | SetPriority x => s <| newPriority := or_num x (Num.of_Z 100) |>
  | TypeCheck v => s <| checkValue := v |>
  | Add now => addRule now s
  | RemoveRule rid => removeRule rid s
  end.
End Manager.
