(* ===== verification/AppLockLaws.v ===== *)
(** * Laws of the app lock

    What the clicks of the panel of [AppLock] do to the programs that are
    blocked, seen after the service has stored the policy it was sent and the
    panel has read it back; and what the manager's rules promise. *)

From stdpp Require Import sets.
From S2P Require Import Prelude JsNumber JsString JsValue Http Session Commands RenderModel RenderLaws Tables AppLock AppLockManager.
Import Results.

Local Open Scope Z_scope.

(** ** Normal forms *)

Module PanelLaws.
Import Panel.

Lemma separator_lower c : is_separator (lower_char c) = is_separator c.
Proof. all_chars c. Qed.

Lemma slash_ws c : is_ws (if Ascii.eqb c "/" then backslash else c) = is_ws c.
Proof. all_chars c. Qed.

Lemma slash_idem c (f := fun c => if Ascii.eqb c "/" then backslash else c) :
  lower_char (f (lower_char (f c))) = lower_char (f c).
Proof. all_chars c. Qed.

Lemma normalizePath_trim v : normalizePath v = trim (toLowerCase (back_slashes v)).
Proof.
  unfold normalizePath, back_slashes. by rewrite (smap_trim _ _ slash_ws), toLowerCase_trim.
Qed.

Lemma normalizePath_idem v : normalizePath (normalizePath v) = normalizePath v.
Proof.
  rewrite (normalizePath_trim v). unfold normalizePath. rewrite trim_idem. fold (normalizePath (toLowerCase (back_slashes v))).
  rewrite normalizePath_trim. f_equal. unfold toLowerCase, back_slashes.
  induction v as [|c v IH]; [done|]. cbn [smap]. by rewrite slash_idem, IH.
Qed.

Definition no_separator (s : string) : bool := sforall (fun c => negb (is_separator c)) s.

Lemma basename_no_separator v : no_separator (pathBasename v) = true.
Proof.
  unfold pathBasename, no_separator.
  destruct (List.filter truthy_str (split_by is_separator v)) as [|x l] eqn:E; [done|].
  apply split_by_pieces with v. assert (In (List.last (x :: l) "") (x :: l)) as Hin.
  { destruct (exists_last (l := x :: l)) as (l' & y & ->); [done|]. rewrite last_last. apply in_or_app. right. by left. }
  rewrite <- E in Hin at 2. by apply filter_In in Hin as [? _].
Qed.

Lemma basename_whole s : s <> "" -> no_separator s = true -> pathBasename s = s.
Proof.
  intros Hs Hn. unfold pathBasename. rewrite split_by_whole by done. cbn.
  by apply truthy_str_spec in Hs as ->.
Qed.

(** A name in normal form: without directories, in lower case, an .exe. *)
Lemma normalizeBasename_form v allow :
  let b := normalizeBasename v allow in
  b <> "" -> no_separator b = true /\ toLowerCase b = b /\ endsWith b ".exe" = true.
Proof.
  unfold normalizeBasename. destruct (negb (truthy_str (trim v))); [done|].
  pose proof (basename_no_separator (trim v)) as Hsep.
  set (p := pathBasename (trim v)) in *. set (c := toLowerCase p).
  assert (no_separator c = true /\ toLowerCase c = c) as [Hc Hl].
  { split; [|apply toLowerCase_idem]. unfold c, no_separator, toLowerCase in *.
    rewrite sforall_smap. revert Hsep. apply sforall_mono. intros a. by rewrite separator_lower. }
  destruct (negb (truthy_str c)); [done|]. cbn zeta.
  destruct (endsWith c ".exe") eqn:E; [done|]. destruct (allow && negb (includes c ".")); [|done].
  intros _. unfold no_separator, toLowerCase in *. rewrite sforall_app, Hc, smap_app, Hl. split_and!; [done|done|].
  apply endsWith_app.
Qed.

Lemma normalizeBasename_settled v allow :
  let b := normalizeBasename v allow in b <> "" -> trim b = b -> normalizeBasename b true = b.
Proof.
  intros b Hb Ht. destruct (normalizeBasename_form v allow Hb) as (Hn & Hl & He). fold b in Hn, Hl, He.
  clearbody b. unfold normalizeBasename. rewrite Ht. apply truthy_str_spec in Hb as Hb'. rewrite Hb'. cbn.
  by rewrite basename_whole, Hl, Hb', He.
Qed.

(** A value that is its own normal form. *)
Definition settled (m : MatchType) (v : string) : Prop := v <> "" /\ normalizeRuleValue m v = v.

Definition target (r : AppLockRule) : MatchType * string := (match_type r, normalizeRuleValue (match_type r) (value r)).

(** A rule whose normal form is stable: reading back what was sent gives it
    again. *)
Definition kept (r : AppLockRule) : Prop :=
  rule_id r <> "" /\ settled (match_type r) (normalizeRuleValue (match_type r) (value r)).

Lemma settled_not_blank m v : settled m v -> trim v <> "".
Proof.
  intros [Hv Hn] Ht. apply Hv. rewrite <- Hn. destruct m; cbn.
  - unfold normalizeBasename. by rewrite Ht.
  - unfold normalizePath. by rewrite Ht.
Qed.

(** ** What is blocked *)

(** A rule's target hits an app. *)
Definition hits (app : DiscoveredApp) (t : MatchType * string) : bool :=
  match t.1 with basename => t.2 === app_basename app | full_path => has (paths app) t.2 end.

Definition is_target (m : MatchType) (v : string) (t : MatchType * string) : bool :=
  bool_decide (t.1 = m) && (t.2 === v).

Lemma existsb_perm {A} (f : A -> bool) l l' : l ≡ₚ l' -> existsb f l = existsb f l'.
Proof.
  induction 1 as [| |x y l|]; cbn; [done|by f_equal| |congruence].
  by rewrite !orb_assoc, (orb_comm (f y)).
Qed.

Lemma existsb_map' {A B} (f : B -> bool) (g : A -> B) l : existsb f (map g l) = existsb (fun x => f (g x)) l.
Proof. induction l; cbn; [done|by f_equal]. Qed.

Lemma existsb_same {A} (f g : A -> bool) l : (forall x, f x = g x) -> existsb f l = existsb g l.
Proof. intros H. induction l; cbn; [done|]. by rewrite H, IHl. Qed.

Lemma appIsBlocked_targets b app :
  appIsBlocked b app = enabled b && existsb (hits app) (map target (rules b)).
Proof.
  unfold appIsBlocked. destruct (enabled b); [cbn|done]. rewrite existsb_map'. apply existsb_same.
  intros r. unfold hits, target. by destruct (match_type r).
Qed.

Lemma ruleIsBlocked_targets b m v :
  settled m v -> ruleIsBlocked b m v = enabled b && existsb (is_target m v) (map target (rules b)).
Proof.
  intros [Hv Hn]. unfold ruleIsBlocked. rewrite Hn. apply truthy_str_spec in Hv as ->.
  destruct (enabled b); [cbn|done]. rewrite existsb_map'. apply existsb_same.
  intros r. unfold ruleMatches, is_target, target. rewrite Hn. cbn.
  by destruct (decide (match_type r = m)) as [->|?]; [|rewrite !bool_decide_eq_false_2].
Qed.

Section Changes.
Context (locale : string -> string -> bool).

Lemma sortRules_perm l : sortRules locale l ≡ₚ l.
Proof. apply stable_sort_perm. Qed.

(** With other rules the policy is enforced exactly by those rules. *)
Lemma enforced_by f l b :
  enabled (with_rules locale l b) && existsb f (map target (rules (with_rules locale l b)))
  = existsb f (map target l).
Proof.
  cbn. rewrite (existsb_perm f _ (map target l)) by (by rewrite sortRules_perm).
  destruct (sortRules locale l) eqn:E; cbn; [|done].
  pose proof (sortRules_perm l) as Hp. rewrite E in Hp. by apply Permutation_nil in Hp as ->.
Qed.

Lemma existsb_filter_out {A} (f g : A -> bool) l :
  (forall x, f x = true -> g x = true) -> existsb f (List.filter g l) = existsb f l.
Proof.
  intros H. induction l as [|x l IH]; cbn; [done|]. destruct (g x) eqn:E; cbn; rewrite IH; [done|].
  destruct (f x) eqn:Ef; [|done]. apply H in Ef. congruence.
Qed.

Lemma existsb_filter_none {A} (f g : A -> bool) l :
  (forall x, g x = true -> f x = false) -> existsb f (List.filter g l) = false.
Proof.
  intros H. induction l as [|x l IH]; cbn; [done|]. destruct (g x) eqn:E; cbn; [|done]. by rewrite H.
Qed.

(** An app as it is discovered, up to white space around its name. *)
Definition clean_app (app : DiscoveredApp) : Prop :=
  settled basename (app_basename app) /\ Forall (settled full_path) (paths app).

(** Neither the name nor a path in common. *)
Definition apart (app other : DiscoveredApp) : Prop :=
  app_basename app <> app_basename other /\ forall p, p ∈ paths app -> p ∉ paths other.

Lemma apart_hits app other t : apart app other -> hits other t = true -> hits app t = false.
Proof.
  intros [Hn Hp]. unfold hits. destruct t as [[] v]; cbn.
  - intros ->%String.eqb_eq. by apply String.eqb_neq.
  - intros Hv%has_true. apply has_false. intros Hin. by apply (Hp v).
Qed.

Lemma normalized_paths app : clean_app app -> map (normalizeRuleValue full_path) (paths app) = paths app.
Proof.
  intros [_ Hp]. induction Hp as [|p l [_ Hn] Hl IH]; [done|]. cbn in *. by rewrite Hn, IH.
Qed.

(** The rules that stay are those that do not hit the app. *)
Lemma unblocked_rules app r :
  clean_app app ->
  match match_type r with
  | basename => normalizeRuleValue basename (value r) !== app_basename app
  | full_path => negb (has (map (normalizeRuleValue full_path) (paths app)) (normalizeRuleValue full_path (value r)))
  end = negb (hits app (target r)).
Proof. intros H. rewrite normalized_paths by done. unfold hits, target. by destruct (match_type r). Qed.

Lemma toggle_app_flips deviceId now app b :
  clean_app app ->
  appIsBlocked (toggleDiscoveredApp locale deviceId now app b) app = negb (appIsBlocked b app).
Proof.
  intros Happ. unfold toggleDiscoveredApp. destruct (appIsBlocked b app) eqn:Eb.
  - rewrite appIsBlocked_targets, enforced_by, existsb_map'. apply existsb_filter_none.
    intros r. rewrite unblocked_rules by done. by destruct (hits app (target r)).
  - destruct (existsb _ (rules b)) eqn:Ee; rewrite appIsBlocked_targets, enforced_by, existsb_map'; cbn.
    + apply existsb_exists in Ee as (r & Hr & [Hm Hv]%andb_true_iff). apply existsb_exists.
      exists r. split; [done|]. unfold hits, target. apply bool_decide_eq_true in Hm as Hm'. by rewrite Hm'.
    + rewrite existsb_app. cbn. unfold hits, target. cbn. destruct Happ as [[_ Hn] _]. cbn in Hn.
      by rewrite Hn, String.eqb_refl, orb_true_r.
Qed.

(** Some rule hits the app, whether or not the policy is enforced. *)
Definition has_rule (b : AppLockBundle) (app : DiscoveredApp) : bool := existsb (hits app) (map target (rules b)).

Lemma toggle_app_others deviceId now app other b :
  clean_app app -> apart app other ->
  appIsBlocked (toggleDiscoveredApp locale deviceId now app b) other = has_rule b other.
Proof.
  intros Happ Hap. unfold has_rule. rewrite existsb_map'.
  unfold toggleDiscoveredApp. destruct (appIsBlocked b app).
  - rewrite appIsBlocked_targets, enforced_by, existsb_map'. apply existsb_filter_out.
    intros r Hr. rewrite unblocked_rules by done. by rewrite (apart_hits app other).
  - destruct (existsb _ (rules b)); rewrite appIsBlocked_targets, enforced_by, existsb_map'; [done|].
    rewrite existsb_app. cbn. rewrite orb_false_r. unfold hits at 2, target. cbn.
    destruct Happ as [[_ Hn] _]. cbn in Hn. rewrite Hn. destruct Hap as [Hne _].
    by apply String.eqb_neq in Hne as ->; rewrite orb_false_r.
Qed.

Lemma ruleMatches_target r m v : settled m v -> ruleMatches r m v = is_target m v (target r).
Proof.
  intros [_ Hn]. unfold ruleMatches, is_target, target. rewrite Hn. cbn.
  by destruct (decide (match_type r = m)) as [->|?]; [|rewrite !bool_decide_eq_false_2].
Qed.

Lemma toggle_rule_others deviceId now m v other b :
  settled m v -> hits other (m, v) = false ->
  appIsBlocked (toggleRule locale deviceId now m v b) other = has_rule b other.
Proof.
  intros Hv Hh. unfold has_rule. rewrite existsb_map'.
  assert (existsb (fun r => hits other (target r)) (List.filter (fun r => negb (ruleMatches r m v)) (rules b))
          = existsb (fun r => hits other (target r)) (rules b)) as Hf.
  { apply existsb_filter_out. intros r Hr. rewrite ruleMatches_target by done. apply negb_true_iff, not_true_iff_false.
    unfold is_target. intros [Hm%bool_decide_eq_true Ht%String.eqb_eq]%andb_true_iff.
    destruct (target r) as [m' v']. cbn in Hm, Ht. congruence. }
  unfold toggleRule. destruct (ruleIsBlocked b m v); rewrite appIsBlocked_targets, enforced_by, existsb_map'; [done|].
  rewrite existsb_app, Hf. cbn. unfold target at 2. cbn. destruct Hv as [_ ->]. by rewrite Hh, !orb_false_r.
Qed.

Lemma remove_others rule other b :
  (forall r, In r (rules b) -> rule_id r = rule_id rule -> hits other (target r) = false) ->
  appIsBlocked (removeRule locale rule b) other = has_rule b other.
Proof.
  intros H. unfold removeRule, has_rule. rewrite appIsBlocked_targets, enforced_by, !existsb_map'.
  induction (rules b) as [|r l IH]; [done|]. cbn [List.filter existsb].
  rewrite <- IH by (intros; apply H; [by right|done]). destruct (String.eqb_spec (rule_id r) (rule_id rule)) as [E|E];
    cbn [negb existsb]; [|done]. by rewrite (H r (or_introl eq_refl) E).
Qed.

Lemma toggle_rule_flips deviceId now m v b :
  settled m v -> ruleIsBlocked (toggleRule locale deviceId now m v b) m v = negb (ruleIsBlocked b m v).
Proof.
  intros Hv. assert (forall r, ruleMatches r m v = is_target m v (target r)) as Hm
    by (intros r; by apply ruleMatches_target).
  unfold toggleRule. destruct (ruleIsBlocked b m v) eqn:Eb;
    rewrite ruleIsBlocked_targets, enforced_by, existsb_map' by done.
  - apply existsb_filter_none. intros r. rewrite Hm. by destruct (is_target m v (target r)).
  - rewrite existsb_app. cbn. unfold is_target at 2, target. cbn. destruct Hv as [_ Hn]. rewrite Hn.
    by rewrite bool_decide_eq_true_2, String.eqb_refl, orb_true_r.
Qed.

(** ** Reading back what was sent *)

(** What a service that stores the policy answers with. *)
Definition stored (b : AppLockBundle) (version hash updated : string) : obj :=
  policy_payload b ++ [("policy_version", JStr version); ("policy_hash", JStr hash); ("updated_at", JStr updated)].

Definition stores (b : AppLockBundle) (r : FetchResponse) : Prop :=
  ok r = true
  /\ exists version hash updated, resp_json r = Some (JObj [("app_lock", JObj (stored b version hash updated))]).

Lemma coerce_rule_sent r :
  exists r', coerce_rule (rule_fields normalizeRuleValue r) = Ok r'
    /\ rule_id r' = rule_id r /\ match_type r' = match_type r
    /\ value r' = normalizeRuleValue (match_type r) (value r).
Proof.
  unfold rule_fields, coerce_rule, finite_or, str_or. cbn.
  destruct (expires_at r) as [t|]; cbn; [destruct (truthy_str t); cbn|];
    (eexists; split; [reflexivity|]; split_and!; [done| |done]; by destruct (match_type r)).
Qed.

Lemma kept_reread r r' :
  kept r -> rule_id r' = rule_id r -> match_type r' = match_type r ->
  value r' = normalizeRuleValue (match_type r) (value r) ->
  (rule_id r' !== "") && (trim (value r') !== "") = true /\ target r' = target r.
Proof.
  intros [Hid Hs] Ei Em Ev. split.
  - rewrite Ei, Ev. apply andb_true_iff. split; apply negb_true_iff, String.eqb_neq; [done|].
    by eapply settled_not_blank.
  - unfold target. rewrite Em, Ev. by rewrite (proj2 Hs).
Qed.

Lemma coerce_rules_sent l :
  Forall kept l ->
  exists l', res_mapM coerce_rule (omap as_object (map (rule_payload normalizeRuleValue) l)) = Ok l'
    /\ List.filter (fun r => (rule_id r !== "") && (trim (value r) !== "")) l' = l'
    /\ map target l' = map target l.
Proof.
  induction 1 as [|r l Hr Hl (l' & Hm & Hf & Ht)]; [by exists []|].
  destruct (coerce_rule_sent r) as (r' & Hc & Ei & Em & Ev).
  destruct (kept_reread r r' Hr Ei Em Ev) as [Hk Hr'].
  exists (r' :: l'). cbn [map omap list_omap rule_payload res_mapM as_object].
  rewrite Hc. cbn [res_bind]. rewrite Hm. cbn [res_bind].
  split; [done|]. cbn [List.filter map]. by rewrite Hk, Hf, Hr', Ht.
Qed.

Lemma coerce_stored b version hash updated :
  Forall kept (rules b) ->
  exists b', coerceBundle (JObj (stored b version hash updated)) = Ok b'
    /\ enabled b' = enabled b /\ map target (rules b') = map target (rules b).
Proof.
  intros (l' & Hm & Hf & Ht)%coerce_rules_sent.
  unfold coerceBundle, stored, str_or, finite_or. cbn -[omap]. rewrite Hm. cbn. rewrite Hf.
  eexists. split; [reflexivity|]. done.
Qed.

(** The panel shows the policy that was stored. *)
Lemma save_end_stored key b r s :
  Forall kept (rules b) -> stores b r ->
  let s' := save_end (Some r) (save_start key s) in
  savingKey s' = None /\ enabled (bundle s') = enabled b /\ map target (rules (bundle s')) = map target (rules b)
  /\ customMatchType s' = customMatchType s /\ customApp s' = customApp s.
Proof.
  intros Hk (Hok & v & h & u & Hj). destruct (coerce_stored b v h u Hk) as (b' & Hc & He & Ht).
  unfold save_end, policy_answer. rewrite Hj, Hok. cbn -[coerceBundle stored]. rewrite Hc. done.
Qed.

Lemma fresh_id_nonempty deviceId v now : fresh_id deviceId v now <> "".
Proof. by apply or_str_nonempty. Qed.

Lemma with_rules_kept l b : Forall kept l -> Forall kept (rules (with_rules locale l b)).
Proof. intros H. cbn. by rewrite sortRules_perm. Qed.

Lemma kept_filter f l : Forall kept l -> Forall kept (List.filter f l).
Proof. rewrite !List.Forall_forall. intros H r [Hr _]%filter_In. auto. Qed.

Lemma kept_new deviceId now m v : settled m v -> kept (new_rule (fresh_id deviceId v now) m v (Num.of_Z 100)).
Proof. intros [Hv Hn]. split; [apply fresh_id_nonempty|]. cbn. rewrite Hn. by split. Qed.

(** ** The programs seen *)

(** An entry stands under its own name, which is in normal form, with paths
    in normal form and each once. *)
Definition seen_ok (kv : string * DiscoveredApp) : Prop :=
  app_basename kv.2 = kv.1 /\ (exists v, kv.1 = normalizeBasename v false) /\ kv.1 <> ""
  /\ NoDup (paths kv.2) /\ Forall (settled full_path) (paths kv.2).

Lemma path_settled v : trim v <> "" -> settled full_path (normalizePath v).
Proof.
  intros Hv. split; [|apply normalizePath_idem]. unfold normalizePath, toLowerCase, back_slashes.
  intros E%String.eqb_eq. rewrite !smap_empty in E. by apply String.eqb_eq in E.
Qed.

Lemma own_get_seen seen name app :
  Forall seen_ok seen -> own_get seen name = Some app -> seen_ok (name, app).
Proof. rewrite List.Forall_forall. intros H E%own_get_elem. by apply H. Qed.

(** The process has a name it is counted under. *)
Definition named (item : jsval) : bool :=
  match as_object item with
  | None => false
  | Some entry =>
      truthy_str (or_str (normalizeBasename (as_string (get entry "name") ?? "") false)
                         (normalizeBasename (as_string (get entry "path") ?? "") false))
  end.

Definition counted (seen : list (string * DiscoveredApp)) : nat :=
  list_sum (map (fun kv => processCount kv.2) seen).

Lemma note_process_ok seen item :
  Forall seen_ok seen -> List.NoDup (keys seen) ->
  Forall seen_ok (note_process seen item) /\ List.NoDup (keys (note_process seen item))
  /\ counted (note_process seen item) = (counted seen + if named item then 1 else 0)%nat.
Proof.
  intros Hs Hn. unfold note_process, named. destruct (as_object item) as [entry|]; [|split_and!; [done|done|lia]].
  set (rawName := as_string (get entry "name") ?? ""). set (rawPath := as_string (get entry "path") ?? "").
  set (name := or_str (normalizeBasename rawName false) (normalizeBasename rawPath false)).
  destruct (truthy_str name) eqn:En; cbn [negb]; [|split_and!; [done|done|lia]].
  set (start := own_get seen name ?? _).
  assert (seen_ok (name, start)) as (Hb & Hv & Hne & Hnd & Hp).
  { unfold start. destruct (own_get seen name) as [app|] eqn:E; cbn; [by eapply own_get_seen|].
    unfold seen_ok; cbn. split_and!; [done| |by apply truthy_str_spec|apply NoDup_nil_2|done].
    unfold name, or_str. destruct (truthy_str (normalizeBasename rawName false)); eauto. }
  assert (processCount start = match own_get seen name with Some v => processCount v | None => 0 end)%nat as Hc
    by (unfold start; by destruct (own_get seen name)).
  set (withPath := if _ && _ then _ else _).
  assert (seen_ok (name, withPath) /\ processCount withPath = S (processCount start)) as [Hok Hcount].
  { unfold withPath. destruct (trim rawPath === "") eqn:Et; [done|]. cbn -[has].
    destruct (has (paths start) (normalizePath rawPath)) eqn:Eh; [done|]. apply has_false in Eh. split; [|done].
    unfold seen_ok; cbn. split_and!; [done|done|done| |].
    - apply list.NoDup_app. split_and!; [done| |apply NoDup_singleton]. set_solver.
    - apply Forall_app. split; [done|]. constructor; [|done]. by apply path_settled, String.eqb_neq. }
  set (final := if endsWith _ _ then _ else _).
  assert (seen_ok (name, final) /\ processCount final = S (processCount start)) as [Hok' Hcount']
    by (unfold final; by destruct (endsWith _ _)).
  clearbody final. split_and!; [by apply map_set_forall|by apply map_set_nodup|].
  pose proof (map_set_sum processCount seen name final). unfold counted in *. lia.
Qed.

Lemma fold_note_process items seen :
  Forall seen_ok seen -> List.NoDup (keys seen) ->
  let seen' := fold_left note_process items seen in
  Forall seen_ok seen' /\ List.NoDup (keys seen')
  /\ counted seen' = (counted seen + length (List.filter named items))%nat.
Proof.
  revert seen. induction items as [|item items IH]; intros seen Hs Hn; cbn [fold_left List.filter].
  { split_and!; [done|done|]. cbn [length]. lia. }
  destruct (note_process_ok seen item Hs Hn) as (Hs' & Hn' & Hc). destruct (IH _ Hs' Hn') as (? & ? & ->).
  split_and!; [done|done|]. rewrite Hc. destruct (named item); cbn [length]; lia.
Qed.

(** The apps offered are distinct, clean up to white space around a name, and
    account for every process that has a name. *)
Lemma discovered_apps results :
  let apps := extractDiscoveredApps locale results in
  NoDup (map app_basename apps)
  /\ (forall app, app ∈ apps -> trim (app_basename app) = app_basename app -> clean_app app)
  /\ list_sum (map processCount apps) = length (List.filter named (concat (map listed_processes results))).
Proof.
  destruct (fold_note_process (concat (map listed_processes results)) []) as (Hs & Hn & Hc); [done|by constructor|].
  unfold extractDiscoveredApps. set (seen := fold_left note_process _ []) in *.
  set (finish := fun kv : string * DiscoveredApp => kv.2 <| paths := uniqueSorted locale (paths kv.2) |>).
  cbn zeta. split_and!.
  - rewrite stable_sort_perm, map_map. apply NoDup_ListNoDup.
    replace (map _ seen) with (keys seen); [done|]. unfold keys. apply map_ext_in. intros kv Hkv.
    rewrite List.Forall_forall in Hs. cbn. by destruct (Hs kv Hkv) as [-> _].
  - intros app Happ Ht. rewrite stable_sort_perm in Happ.
    apply list_elem_of_In, in_map_iff in Happ as (kv & <- & Hkv). rewrite List.Forall_forall in Hs.
    destruct (Hs kv Hkv) as (Hb & (v & Hv) & Hne & _ & Hp). cbn in Ht. split; cbn.
    + rewrite Hb in *. split; [done|]. rewrite Hv in *. by apply (normalizeBasename_settled v false).
    + apply List.Forall_forall. intros p Hin. rewrite List.Forall_forall in Hp. apply Hp.
      rewrite <- list_elem_of_In in *. unfold uniqueSorted in Hin. rewrite stable_sort_perm in Hin.
      by apply elem_of_set_of.
  - rewrite stable_sort_perm, map_map. done.
Qed.

(** A click on something the panel shows, whose name is in normal form. *)
Definition clean_change (results : list NormalizedCommandResult) (c : Change) (s : State) : Prop :=
  match c with
  | ToggleApp app =>
      app ∈ extractDiscoveredApps locale results /\ trim (app_basename app) = app_basename app
  | ToggleCustom => settled (customMatchType s) (customNormalizedValue s)
  | TogglePreset label name => (label, name) ∈ QUICK_APP_PRESETS
  | Remove _ => True
  end.

Lemma preset_settled label name :
  (label, name) ∈ QUICK_APP_PRESETS -> normalizeRuleValue basename name = name /\ settled basename name.
Proof.
  unfold QUICK_APP_PRESETS, settled. rewrite !elem_of_cons, elem_of_nil. intros H.
  destruct_or! H; try done; injection H as _ ->; by vm_compute.
Qed.

Lemma change_kept results deviceId now c s key next :
  Forall kept (rules (bundle s)) -> clean_change results c s ->
  change locale deviceId now c s = Some (key, next) -> Forall kept (rules next).
Proof.
  intros Hk Hc. assert (forall m v, settled m v -> Forall kept (rules (toggleRule locale deviceId now m v (bundle s)))) as Ht.
  { intros m v Hv. unfold toggleRule. destruct (ruleIsBlocked _ _ _); apply with_rules_kept; [by apply kept_filter|].
    apply Forall_app. split; [by apply kept_filter|]. constructor; [by apply kept_new|done]. }
  destruct c as [app| |label name|rule]; cbn [change].
  - intros [= <- <-]. unfold toggleDiscoveredApp.
    destruct (appIsBlocked _ _); [by apply with_rules_kept, kept_filter|].
    destruct (existsb _ _); apply with_rules_kept; [done|]. apply Forall_app. split; [done|].
    constructor; [|done]. destruct Hc as [Hin Hn]. by apply kept_new, (discovered_apps results).
  - destruct (negb _); [done|]. intros [= <- <-]. by apply Ht.
  - destruct (preset_settled _ _ Hc) as [-> Hs]. intros [= <- <-]. by apply Ht.
  - intros [= <- <-]. by apply with_rules_kept, kept_filter.
Qed.

Lemma change_enforced deviceId now c s key next :
  change locale deviceId now c s = Some (key, next) -> enabled next = negb (Nat.eqb (length (rules next)) 0).
Proof.
  destruct c; cbn [change]; [intros [= _ <-]|destruct (negb _); [done|]; intros [= _ <-]|intros [= _ <-]..];
    unfold toggleDiscoveredApp, toggleRule, removeRule; repeat case_match; done.
Qed.

(** An app the change is not about: one that shares neither the name nor a
    path with the app toggled, that the preset or the custom value does not
    name, or that no rule with the identifier of the one removed names. *)
Definition not_about (c : Change) (s : State) (other : DiscoveredApp) : Prop :=
  match c with
  | ToggleApp app => apart app other
  | ToggleCustom => hits other (customMatchType s, customNormalizedValue s) = false
  | TogglePreset _ name => hits other (basename, name) = false
  | Remove rule => forall r, In r (rules (bundle s)) -> rule_id r = rule_id rule -> hits other (target r) = false
  end.

Lemma change_others results deviceId now c s key next other :
  clean_change results c s -> change locale deviceId now c s = Some (key, next) -> not_about c s other ->
  appIsBlocked next other = has_rule (bundle s) other.
Proof.
  intros Hc. destruct c as [app| |label name|rule]; cbn [change not_about].
  - intros [= <- <-] Ho. destruct Hc as [Hin Hn].
    apply toggle_app_others; [|done]. by apply (discovered_apps results).
  - destruct (negb _); [done|]. intros [= <- <-] Ho. by apply toggle_rule_others.
  - destruct (preset_settled _ _ Hc) as [-> Hs]. intros [= <- <-] Ho. by apply toggle_rule_others.
  - intros [= <- <-] Ho. by apply remove_others.
Qed.

(** [C29] A click on the app lock does what it says, when every rule has an
    identifier and a value with a normal form that is its own, and the name
    clicked on is in normal form.  Once the service has stored the policy it
    was sent, an app that was toggled is blocked if and only if it was not
    before, and so are a quick preset and a custom rule; a rule that was
    removed is gone.  Every app the click is not about is then blocked
    exactly if some rule names it: as before, if the policy was enforced.
    The policy is enforced exactly if it has rules, and the panel is ready
    for the next click. *)
Theorem app_lock_toggles (results : list NormalizedCommandResult) (deviceId : string) (now : N) (c : Change) (s : State) (key : string)
    (next : AppLockBundle) (r : FetchResponse) :
  Forall kept (rules (bundle s)) -> clean_change results c s ->
  change locale deviceId now c s = Some (key, next) -> stores next r ->
  let s' := save_end (Some r) (save_start key s) in
  savingKey s' = None
  /\ enabled (bundle s') = negb (Nat.eqb (length (rules (bundle s'))) 0)
  /\ match c with
     | ToggleApp app => appIsBlocked (bundle s') app = negb (appIsBlocked (bundle s) app)
     | ToggleCustom => customBlocked s' = negb (customBlocked s)
     | TogglePreset _ name =>
         ruleIsBlocked (bundle s') basename name = negb (ruleIsBlocked (bundle s) basename name)
     | Remove rule =>
         map target (rules (bundle s'))
         ≡ₚ map target (List.filter (fun item => rule_id item !== rule_id rule) (rules (bundle s)))
     end
  /\ forall other, not_about c s other ->
       appIsBlocked (bundle s') other = has_rule (bundle s) other
       /\ (enabled (bundle s) = true -> appIsBlocked (bundle s') other = appIsBlocked (bundle s) other).
Proof.
  intros Hk Hc Hch Hst s'. pose proof (change_kept _ _ _ _ _ _ _ Hk Hc Hch) as Hk'.
  destruct (save_end_stored key next r s Hk' Hst) as (Hkey & He & Ht & Hcm & Hca). fold s' in Hkey, He, Ht, Hcm, Hca.
  assert (forall app, appIsBlocked (bundle s') app = appIsBlocked next app) as Happ
    by (intros app; by rewrite !appIsBlocked_targets, He, Ht).
  assert (forall m v, settled m v -> ruleIsBlocked (bundle s') m v = ruleIsBlocked next m v) as Hrule
    by (intros m v Hv; by rewrite !ruleIsBlocked_targets, He, Ht).
  split_and!; [done|rewrite He, <- (length_map target), Ht, length_map; by eapply change_enforced| |].
  - destruct c as [app| |label name|rule]; cbn [change] in Hch.
    + injection Hch as <- <-. destruct Hc as [Hin Hn]. rewrite Happ. apply toggle_app_flips. by apply (discovered_apps results).
    + destruct (truthy_str (customNormalizedValue s)) eqn:Ev; [|done]. injection Hch as <- <-.
      unfold customBlocked. assert (customNormalizedValue s' = customNormalizedValue s) as ->
        by (unfold customNormalizedValue; by rewrite Hcm, Hca).
      rewrite Ev, Hcm. cbn. by rewrite Hrule, toggle_rule_flips.
    + destruct (preset_settled _ _ Hc) as [En Hs]. rewrite En in Hch. injection Hch as <- <-.
      by rewrite Hrule, toggle_rule_flips.
    + injection Hch as <- <-. rewrite Ht. cbn. by rewrite sortRules_perm.
  - intros other Ho. rewrite Happ, (change_others _ _ _ _ _ _ _ _ Hc Hch Ho). split; [done|].
    intros Hen. by rewrite appIsBlocked_targets, Hen.
Qed.
End Changes.
End PanelLaws.

(** ** The manager *)

Module ManagerLaws.
Import Manager.

Lemma normalizeBasename_idem v : Manager.normalizeBasename (Manager.normalizeBasename v) = Manager.normalizeBasename v.
Proof.
  unfold Manager.normalizeBasename at 2 3. destruct (truthy_str (toLowerCase (trim v))) eqn:Et; [|done]. cbn.
  assert (tidy (toLowerCase (trim v))) as [Htr Hne].
  { apply tidy_lower. split; [apply trim_idem|]. intros E. by rewrite E in Et. }
  set (t := toLowerCase (trim v)) in *. assert (toLowerCase t = t) as Hl by apply toLowerCase_idem.
  destruct (endsWith t ".exe") eqn:Ee; unfold Manager.normalizeBasename.
  - by rewrite Htr, Hl, Et, Ee.
  - rewrite trim_app by done. unfold toLowerCase in *. rewrite smap_app, Hl. cbn [smap].
    rewrite endsWith_app. apply truthy_str_spec in Hne. destruct t; [done|]. done.
Qed.

Lemma manager_normal_idem m v : Manager.normalizeRuleValue m (Manager.normalizeRuleValue m v) = Manager.normalizeRuleValue m v.
Proof. destruct m; cbn; [apply normalizeBasename_idem|apply trim_idem]. Qed.

(** What a rule is about. *)
Definition subject (r : AppLockRule) : MatchType * string :=
  (match_type r, Manager.normalizeRuleValue (match_type r) (value r)).

Lemma same_rule_subject m v r : same_rule m v r = true <-> subject r = (m, v).
Proof.
  unfold same_rule, subject. rewrite andb_true_iff, bool_decide_eq_true, String.eqb_eq.
  split; [by intros [-> ->]|by intros [= -> ->]].
Qed.

(** Every policy the service answers with has one rule per subject. *)
Definition answers_distinct (e : Event) : Prop :=
  match e with
  | LoadEnd (Some b) | SaveEnd (Some b) => NoDup (map subject (rules b))
  | _ => True
  end.

Definition run (es : list Event) : State := fold_left (fun s e => step e s) es init.

Lemma addRule_distinct now s :
  NoDup (map subject (rules (bundle s))) -> NoDup (map subject (rules (bundle (addRule now s)))).
Proof.
  intros Hs. unfold addRule. destruct (negb _); [done|]. destruct (existsb _ _) eqn:E; [done|]. cbn.
  rewrite map_app. apply list.NoDup_app. split_and!; [done| |apply NoDup_singleton]. cbn.
  intros t Ht Hin%list_elem_of_singleton. unfold subject in Hin. cbn in Hin. rewrite manager_normal_idem in Hin.
  apply list_elem_of_In, in_map_iff in Ht as (r & Hr & Hrin). apply not_true_iff_false in E. apply E, existsb_exists.
  exists r. split; [done|]. apply same_rule_subject. congruence.
Qed.

Lemma filter_subject f l : NoDup (map subject l) -> NoDup (map subject (List.filter f l)).
Proof.
  induction l as [|r l IH]; [done|]. cbn. intros [Hr Hl]%list.NoDup_cons. destruct (f r); [|auto]. cbn.
  apply list.NoDup_cons. split; [|auto]. rewrite list_elem_of_In, in_map_iff in *.
  intros (x & Hx & [Hin _]%filter_In). eauto.
Qed.

Lemma step_distinct e s :
  answers_distinct e -> NoDup (map subject (rules (bundle s))) -> NoDup (map subject (rules (bundle (step e s)))).
Proof.
  intros Ha Hs. destruct e as [|[b|]| |[b|]| | | | | | | | | |now|rid]; cbn [step]; try done;
    try (repeat case_match; done); [by apply addRule_distinct|by apply filter_subject].
Qed.

Lemma run_distinct es : Forall answers_distinct es -> NoDup (map subject (rules (bundle (run es)))).
Proof.
  unfold run. assert (forall s, NoDup (map subject (rules (bundle s))) -> Forall answers_distinct es ->
    NoDup (map subject (rules (bundle (fold_left (fun s e => step e s) es s))))) as H.
  { induction es as [|e es IH]; [done|]. intros s Hs [He Hes]%List.Forall_cons_iff. cbn. apply IH; [|done]. by apply step_distinct. }
  apply H. apply NoDup_nil_2.
Qed.

Lemma clamp_priority_within x : Num.within (Num.of_Z 1) (Num.of_Z 999999) (clamp_priority x) = true.
Proof.
  apply (Num.clamp_within (Num.of_Z 1) (Num.of_Z 999999) (or_num x (Num.of_Z 100))); [by vm_compute|].
  unfold or_num. destruct (Num.truthy x) eqn:E; [|by vm_compute]. by destruct x.
Qed.

(** A rule that was added is found by the check. *)
Lemma added_is_blocked s rules' v m now p :
  v <> "" -> Manager.normalizeRuleValue m v <> "" ->
  let r := new_rule (makeRuleId m (Manager.normalizeRuleValue m v) now) m (Manager.normalizeRuleValue m v) p in
  rules (bundle s) = rules' ++ [r] -> enabled (bundle s) = true -> checkValue s = v ->
  exists rule, blockedCheck s = Some (true, Some rule).
Proof.
  intros Hv Hn r Hr He Hc. unfold blockedCheck. rewrite Hc, He.
  assert (truthy_str (trim v) = true) as ->.
  { apply truthy_str_spec. intros E. apply Hn. destruct m; cbn; [|done]. unfold Manager.normalizeBasename. by rewrite E. }
  cbn. match goal with |- context [List.find ?h _] => set (hit := h) end.
  destruct (List.find hit (rules (bundle s))) as [rule|] eqn:E; [by eexists|].
  exfalso. apply find_none with (x := r) in E; [|rewrite Hr; apply in_or_app; right; by left].
  unfold hit, r in E. destruct m; cbn in E.
  - rewrite normalizeBasename_idem in E. unfold Manager.normalizeBasename in E at 2. rewrite trim_idem in E.
    change (Manager.normalizeBasename v === Manager.normalizeBasename v = false) in E. by rewrite String.eqb_refl in E.
  - by rewrite String.eqb_refl in E.
Qed.

(** The rules of the manager: whatever is loaded, typed, added, removed
    and saved, there is at most one rule per program as long as the service
    answers so; adding a program that has a rule changes nothing; one that
    has none gets exactly one more rule, with a priority from 1 to 999999,
    and with the policy enforced the check then calls it blocked. *)
Theorem manager_rules (es : list Event) (now : N) :
  Forall answers_distinct es ->
  let s := run es in
  let v := Manager.normalizeRuleValue (newMatchType s) (newValue s) in
  NoDup (map subject (rules (bundle s)))
  /\ (v = "" \/ (newMatchType s, v) ∈ map subject (rules (bundle s)) -> addRule now s = s)
  /\ (v <> "" -> (newMatchType s, v) ∉ map subject (rules (bundle s)) ->
      exists r, rules (bundle (addRule now s)) = rules (bundle s) ++ [r] /\ subject r = (newMatchType s, v)
        /\ Num.within (Num.of_Z 1) (Num.of_Z 999999) (priority r) = true
        /\ (enabled (bundle s) = true -> exists rule,
              blockedCheck (step (TypeCheck (newValue s)) (addRule now s)) = Some (true, Some rule))).
Proof.
  intros Hes s v. split; [by apply run_distinct|]. clearbody s.
  assert (existsb (same_rule (newMatchType s) v) (rules (bundle s)) = true
          <-> (newMatchType s, v) ∈ map subject (rules (bundle s))) as He.
  { rewrite existsb_exists, list_elem_of_In, in_map_iff. setoid_rewrite same_rule_subject. naive_solver. }
  unfold addRule. fold v. split.
  - intros [Hv|Hin%He]; [by rewrite Hv|]. rewrite Hin. by destruct (negb _).
  - intros Hv Hn. rewrite <- He, not_true_iff_false in Hn. apply truthy_str_spec in Hv as Ht. rewrite Ht, Hn. cbn [negb].
    eexists. split; [reflexivity|]. split_and!.
    + unfold subject. cbn. unfold v. by rewrite manager_normal_idem.
    + apply clamp_priority_within.
    + intros Hen. eapply (added_is_blocked _ (rules (bundle s)) (newValue s) (newMatchType s) now); try done.
      intros E. apply Hv. unfold v. rewrite E. by destruct (newMatchType s).
Qed.
End ManagerLaws.

(** ** Demonstrations *)

Module AppLockDemo.
Import Panel PanelLaws.

Definition by_text (a b : string) : bool := String.ltb a b.

Definition rule (rid name : string) : AppLockRule := new_rule rid basename name (Num.of_Z 100).

Definition policy (on : bool) (l : list AppLockRule) : AppLockBundle :=
  DEFAULT_BUNDLE <| enabled := on |> <| rules := l |>.

(** A process list of the device. *)
Definition inventory : NormalizedCommandResult :=
  row_with "list_processes"
    (JObj [("processes", JArr [JObj [("name", JStr "Steam.exe"); ("path", JStr "C:/Games/Steam.exe")];
                               JObj [("name", JStr "steam.exe")];
                               JObj [("name", JStr "svchost"); ("path", JStr "C:\Windows\svchost.exe")]])]).

Definition steam : DiscoveredApp :=
  {| app_basename := "steam.exe"; displayName := "steam.exe"; processCount := 2; paths := ["c:\games\steam.exe"] |}.

Definition chrome : DiscoveredApp :=
  {| app_basename := "chrome.exe"; displayName := "chrome.exe"; processCount := 1; paths := [] |}.

Definition start : State := init <| bundle := policy true [rule "r1" "chrome.exe"] |>.
Definition blocking : AppLockBundle := toggleDiscoveredApp by_text "dev-1" 1700000000000 steam (bundle start).
Definition reply : FetchResponse :=
  {| status := 200; resp_headers := ∅; resp_body := Some (json_text [("app_lock", JObj (stored blocking "v2" "h2" "now"))]) |}.

Lemma app_lock_toggles_witness :
  let s' := save_end (Some reply) (save_start "steam.exe" start) in
  appIsBlocked (bundle start) steam = false /\ appIsBlocked (bundle s') steam = true
  /\ appIsBlocked (bundle s') chrome = true.
Proof.
  cbn zeta. split; [vm_compute; reflexivity|].
  refine (_ (app_lock_toggles by_text [inventory] "dev-1" 1700000000000 (ToggleApp steam) start
    "steam.exe" blocking reply _ _ _ _)).
  - intros (_ & _ & H & Ho). split; [rewrite H; vm_compute; reflexivity|].
    rewrite (proj1 (Ho chrome ltac:(split; [discriminate|intros p _ H'; by apply elem_of_nil in H']))).
    vm_compute. reflexivity.
  - repeat constructor; vm_compute; congruence.
  - split; [|vm_compute; reflexivity]. apply list_elem_of_In.
    vm_compute. left. reflexivity.
  - reflexivity.
  - split; [reflexivity|]. exists "v2", "h2", "now". vm_compute. reflexivity.
Defined.

Definition typed : list Manager.Event :=
  [Manager.LoadEnd (Some (policy true [rule "r1" "chrome.exe"])); Manager.TypeValue " Steam"].

Lemma manager_rules_witness :
  let s := ManagerLaws.run typed in
  Manager.newValue s = " Steam"
  /\ exists rule, Manager.blockedCheck (Manager.step (Manager.TypeCheck (Manager.newValue s)) (Manager.addRule 1 s))
      = Some (true, Some rule).
Proof.
  cbn zeta. split; [reflexivity|].
  refine (_ (proj2 (proj2 (ManagerLaws.manager_rules typed 1 _)) _ _)).
  - intros (r & _ & _ & _ & H). apply H. reflexivity.
  - repeat constructor. intros H. by apply list_elem_of_In in H.
  - vm_compute. congruence.
  - intros H. apply list_elem_of_In in H. vm_compute in H. destruct H as [H|[]]. congruence.
Defined.

(** *** Where the panel falls short *)

(** Removing one rule of a policy that is switched off switches it on: the
    programs of the other rules become blocked. *)
Lemma remove_enables :
  let b := policy false [rule "r1" "chrome.exe"; rule "r2" "steam.exe"] in
  appIsBlocked b steam = false /\ appIsBlocked (removeRule by_text (rule "r1" "chrome.exe") b) steam = true.
Proof. vm_compute. done. Qed.

(** So does blocking another program. *)
Lemma block_enables_others :
  let b := policy false [rule "r2" "steam.exe"] in
  appIsBlocked b steam = false
  /\ appIsBlocked (toggleRule by_text "dev-1" 1700000000000 basename "chrome.exe" b) steam = true.
Proof. vm_compute. done. Qed.

(** The identifier of a rule is cut to 64 units, time included: two paths of
    a device whose identifier is a UUID get the same one, and removing either
    rule removes both. *)
Definition uuid : string := "0b5f2d3c-7a41-4c55-9c5e-1f2e3d4c5b6a".
Definition two_paths : AppLockBundle :=
  toggleRule by_text uuid 1700000009999 full_path "c:\program files\my games\two.exe"
    (toggleRule by_text uuid 1700000000000 full_path "c:\program files\my games\one.exe" DEFAULT_BUNDLE).

Lemma long_ids_collide :
  length (rules two_paths) = 2%nat
  /\ forall r, r ∈ rules two_paths -> rules (removeRule by_text r two_paths) = [].
Proof.
  split; [by vm_compute|]. intros r Hr. apply list_elem_of_In in Hr. vm_compute in Hr.
  destruct Hr as [<-|[<-|[]]]; by vm_compute.
Qed.

(** A name rule for something that is not an .exe is sent without its value,
    so any change of the policy drops it. *)
Lemma other_names_lost :
  let b := policy true [rule "r1" "setup.msi"] in
  let next := toggleRule by_text "dev-1" 1700000000000 basename "chrome.exe" b in
  exists b', coerceBundle (JObj (stored next "v2" "h2" "now")) = Ok b' /\ length (rules next) = 2%nat
    /\ map value (rules b') = ["chrome.exe"].
Proof. eexists. split; [vm_compute; reflexivity|]. by vm_compute. Qed.
End AppLockDemo.
