(* ===== verification/Requests.v ===== *)
(** * Requests of the administration pages

    The pages of settings, webhooks and system health each have a function
    [requestJson]: fetch a route of the same origin, read the body as JSON
    ([{}] when it is not), and throw the message of the body unless the
    status is ok.  An accepted body is read at the type the caller declares;
    a refused one is read dynamically, as the code does. *)

From S2P Require Import Prelude JsNumber JsString JsValue Http Session.

(** What comes of one request: the promise rejects, the status is not ok and
    there is a body, or the status is ok and there is a payload. *)
Inductive Response (A : Type) := Unreachable | Refused (body : jsval) | Accepted (payload : A).
Arguments Unreachable {A}.
Arguments Refused {A} body.
Arguments Accepted {A} payload.

Definition accepted {A} (r : Response A) : bool := match r with Accepted _ => true | _ => false end.

(** The text of a value if it is a string. *)
Definition text_of (v : jsval) : option string := match v with JStr s => Some s | _ => None end.

Definition network_error : string := "Failed to fetch".

Definition request_json {A} (message : jsval -> res string) (r : Response A) : res A :=
  match r with
  | Unreachable => Exn network_error
  | Refused body => let! text := message body in Exn text
  | Accepted payload => Ok payload
  end.

(** The message of a refusal: of webhooks and system health, and of
    settings, which also looks into [payload.error]. *)
Definition plain_refusal (payload : jsval) : res string :=
  let! message := member payload "message" in Ok (text_of message ?? "request_failed").

Definition settings_refusal (payload : jsval) : res string :=
  let! message := member payload "message" in
  match text_of message with
  | Some text => Ok text
  | None =>
      let! error := member payload "error" in
      Ok (text_of (prop error "message") ?? "request_failed")
  end.

(** A request for a route of the page's origin. *)
Definition route_request (method url : string) (body : option string) : FetchRequest :=
  {| f_method := method; f_url := url; f_headers := [json_content]; f_body := body |}.

Lemma request_json_ok {A} message (r : Response A) a : request_json message r = Ok a <-> r = Accepted a.
Proof.
  destruct r as [|body|payload]; cbn; [done| |split; intros H; by inversion H].
  split; [|done]. by destruct (message body).
Qed.

Lemma request_json_exn {A} message (r : Response A) :
  accepted r = false -> exists text, request_json message r = Exn text.
Proof. destruct r as [|body|]; cbn; [eauto| |done]. destruct (message body); cbn; eauto. Qed.

Lemma request_json_accepted {A} message (r : Response A) :
  accepted r = true -> exists payload, r = Accepted payload /\ request_json message r = Ok payload.
Proof. destruct r; cbn; [done|done|eauto]. Qed.
