(* ===== verification/Settings.v ===== *)
(** * The settings page

    src/app/settings/components/SettingsContent.tsx: alert rules, policy
    entries, compliance thresholds, the permissions of the roles and the team
    members.  One load fetches all five lists and a ref keeps a second load
    from starting; edits go into drafts; a change is one request, and its
    answer is put into the lists.  [AlertRuleRow],
    [PolicyEntryRow] and [ComplianceThresholdRow] are the rows that edit an
    item in place. *)

From S2P Require Import Prelude JsNumber JsString JsValue Http Session RenderModel Tables Requests.

(** ** Data *)

Inductive Role := admin | operator | viewer.
Inductive AccountStatus := active | inactive | pending_account.
Inductive Severity := critical | warning | info.

#[export] Instance Role_eq_dec : EqDecision Role.
Proof. solve_decision. Defined.

Definition role_str (r : Role) : string :=
  match r with admin => "admin" | operator => "operator" | viewer => "viewer" end.
Definition status_str (s : AccountStatus) : string :=
  match s with active => "active" | inactive => "inactive" | pending_account => "pending" end.
Definition severity_str (s : Severity) : string :=
  match s with critical => "critical" | warning => "warning" | info => "info" end.

Record AlertRule := {
  rule_id : string;
  rule_name : string;
  condition : string;
  rule_severity : Severity;
  channels : list string;
  rule_enabled : bool;
}.

Record PolicyEntry := {
  policy_id : string;
  policy_key : string;
  policy_value : option string;
  policy_scope : string;
  value_type : string;
  description : option string;
  is_mutable : bool;
}.

Record ComplianceThreshold := {
  threshold_id : string;
  control : string;
  metric : string;
  threshold : num;
  unit_text : option string;
  threshold_severity : Severity;
  threshold_enabled : bool;
}.

Record TeamDevice := {
  device_id : string;
  device_name : string;
  lifecycle_state : string;
  os_build : option string;
}.

Record TeamMember := {
  member_id : string;
  display_name : string;
  email : string;
  member_role : Role;
  account_status : AccountStatus;
  device_access : list string;
}.

#[export] Instance eta_alert : Eta AlertRule := fun r =>
  {| rule_id := rule_id r; rule_name := rule_name r; condition := condition r;
     rule_severity := rule_severity r; channels := channels r; rule_enabled := rule_enabled r |}.
#[export] Instance eta_threshold : Eta ComplianceThreshold := fun t =>
  {| threshold_id := threshold_id t; control := control t; metric := metric t; threshold := threshold t;
     unit_text := unit_text t; threshold_severity := threshold_severity t;
     threshold_enabled := threshold_enabled t |}.
#[export] Instance eta_member : Eta TeamMember := fun m =>
  {| member_id := member_id m; display_name := display_name m; email := email m;
     member_role := member_role m; account_status := account_status m; device_access := device_access m |}.

(** [Record<Role, Record<string, boolean>>]; the code allows for a role the
    service left out. *)
Definition Grants := list (string * bool).
Definition PermissionsMatrix := Role -> option Grants.

Definition no_permissions : PermissionsMatrix := fun _ => Some [].

(** [{ ...matrix, [role]: grants }] *)
Definition set_role (role : Role) (grants : option Grants) (matrix : PermissionsMatrix) : PermissionsMatrix :=
  fun r => if decide (r = role) then grants else matrix r.

(** [matrix[role]?.[key]] *)
Definition grant (matrix : PermissionsMatrix) (role : Role) (key : string) : jsval :=
  match matrix role with
  | Some grants => match own_get grants key with Some b => JBool b | None => inherited key end
  | None => JUndef
  end.

Definition BASE_PERMISSION_KEYS : list string :=
  ["view_devices"; "manage_devices"; "send_commands"; "send_sensitive_commands"; "view_alerts";
   "acknowledge_alerts"; "view_compliance"; "manage_compliance"; "view_audit"; "manage_users";
   "manage_settings"; "export_data"; "pair_devices"].

Definition capitalize (part : string) : string := toUpperCase (stake 1 part) +:+ sdrop 1 part.

Definition prettyPermission (value : string) : string := join " " (map capitalize (split "_" value)).

(** ** The page *)

Record RuleForm := { f_name : string; f_condition : string; f_severity : Severity; channelsCsv : string }.
Record ThresholdForm := { t_control : string; t_metric : string; t_threshold : string; t_unit : string; t_severity : Severity }.
Record MemberForm := { m_display_name : string; m_email : string; m_role : Role; m_status : AccountStatus }.

Definition empty_rule : RuleForm :=
  {| f_name := ""; f_condition := ""; f_severity := warning; channelsCsv := "email" |}.
Definition empty_threshold : ThresholdForm :=
  {| t_control := ""; t_metric := ""; t_threshold := ""; t_unit := ""; t_severity := warning |}.
Definition empty_member : MemberForm :=
  {| m_display_name := ""; m_email := ""; m_role := viewer; m_status := pending_account |}.

#[export] Instance eta_rule_form : Eta RuleForm := fun f =>
  {| f_name := f_name f; f_condition := f_condition f; f_severity := f_severity f; channelsCsv := channelsCsv f |}.
#[export] Instance eta_threshold_form : Eta ThresholdForm := fun f =>
  {| t_control := t_control f; t_metric := t_metric f; t_threshold := t_threshold f; t_unit := t_unit f;
     t_severity := t_severity f |}.
#[export] Instance eta_member_form : Eta MemberForm := fun f =>
  {| m_display_name := m_display_name f; m_email := m_email f; m_role := m_role f; m_status := m_status f |}.

Record State := {
  loading : bool;
  refreshing : bool;
  inFlight : bool;
  alertRules : list AlertRule;
  policyEntries : list PolicyEntry;
  thresholds : list ComplianceThreshold;
  permissions : PermissionsMatrix;
  members : list TeamMember;
  devices : list TeamDevice;
  newRule : RuleForm;
  newThreshold : ThresholdForm;
  newMember : MemberForm;
  expandedMemberId : option string;
  memberDrafts : list (string * TeamMember);
  roleDrafts : PermissionsMatrix;
}.

#[export] Instance eta_settings : Eta State := fun s =>
  {| loading := loading s; refreshing := refreshing s; inFlight := inFlight s; alertRules := alertRules s;
     policyEntries := policyEntries s; thresholds := thresholds s; permissions := permissions s;
     members := members s; devices := devices s; newRule := newRule s; newThreshold := newThreshold s;
     newMember := newMember s; expandedMemberId := expandedMemberId s; memberDrafts := memberDrafts s;
     roleDrafts := roleDrafts s |}.

Definition init : State :=
  {| loading := true; refreshing := false; inFlight := false; alertRules := []; policyEntries := [];
     thresholds := []; permissions := no_permissions; members := []; devices := []; newRule := empty_rule;
     newThreshold := empty_threshold; newMember := empty_member; expandedMemberId := None;
     memberDrafts := []; roleDrafts := no_permissions |}.

(** [Array.from(dynamic.values()).sort()] *)
Definition permissionKeys (s : State) : list string :=
  let added role := match permissions s role with Some grants => keys grants | None => [] end in
  stable_sort String.ltb
    (set_of (BASE_PERMISSION_KEYS ++ added admin ++ added operator ++ added viewer)).

(** Whether the box of a permission is checked. *)
Definition checked (s : State) (role : Role) (key : string) : bool := truthy (grant (roleDrafts s) role key).

(** [memberDrafts[member.id] ?? member] *)
Definition draft_of (s : State) (m : TeamMember) : TeamMember := own_get (memberDrafts s) (member_id m) ?? m.
Definition granted (s : State) (m : TeamMember) (device : string) : bool := has (device_access (draft_of s m)) device.

(** *** Loading *)

(** The payloads of the five requests; a list the service leaves out is
    [None]. *)
Record Answers := {
  rulesRes : Response (option (list AlertRule));
  policyRes : Response (option (list PolicyEntry));
  thresholdsRes : Response (option (list ComplianceThreshold));
  matrixRes : Response (option PermissionsMatrix);
  membersRes : Response (option (list TeamMember) * option (list TeamDevice));
}.

Definition requestJson {A} (r : Response A) : res A := request_json settings_refusal r.

(** [loadAll] up to its requests. *)
Definition load_start (showLoader : bool) (s : State) : option State :=
  if inFlight s then None
  else Some (s <| inFlight := true |> <| loading := if showLoader then true else loading s |> <| refreshing := true |>).

(** [reduce]: a draft for each member, under its id. *)
Definition drafts_of (ms : list TeamMember) : list (string * TeamMember) :=
  fold_left (fun acc m => put acc (member_id m) m) ms [].

Definition loaded (a : Answers) (s : State) : res State :=
  let! rules := requestJson (rulesRes a) in
  let! entries := requestJson (policyRes a) in
  let! limits := requestJson (thresholdsRes a) in
  let! matrix := requestJson (matrixRes a) in
  let! team := requestJson (membersRes a) in
  let matrix := matrix ?? no_permissions in
  let ms := team.1 ?? [] in
  Ok (s <| alertRules := rules ?? [] |> <| policyEntries := entries ?? [] |> <| thresholds := limits ?? [] |>
        <| permissions := matrix |> <| roleDrafts := matrix |> <| members := ms |>
        <| devices := team.2 ?? [] |> <| memberDrafts := drafts_of ms |>).

(** [loadAll] after its responses, with its [finally]. *)
Definition load_end (a : Answers) (s : State) : State :=
  let s' := match loaded a s with Ok s' => s' | Exn _ => s end in
  s' <| inFlight := false |> <| loading := false |> <| refreshing := false |>.

(** *** Changes *)

Definition strings (l : list string) : jsval := JArr (map JStr l).
Definition or_null (o : option string) : jsval := match o with Some t => JStr t | None => JNull end.
Definition grants_object (g : option Grants) : jsval :=
  match g with Some g => JObj (map (fun kv => (kv.1, JBool kv.2)) g) | None => JUndef end.

(** [csv.split(',').map(trim).filter(Boolean)] *)
Definition channels_of (csv : string) : list string := List.filter truthy_str (map trim (split "," csv)).

Definition blank (s : string) : bool := negb (truthy_str (trim s)).

Definition settings_url (path : string) : string := "/api/settings/" +:+ path.
Definition send (method path : string) (body : obj) : FetchRequest :=
  route_request method (settings_url path) (Some (json_text body)).
Definition send_delete (path : string) : FetchRequest := route_request "DELETE" (settings_url path) None.

(** [prev.map((item) => (item.id === id ? x : item))] and
    [prev.filter((item) => item.id !== id)] *)
Definition map_id {A} (id_of : A -> string) (id : string) (x : A) (l : list A) : list A :=
  map (fun item => if id_of item === id then x else item) l.
Definition drop_id {A} (id_of : A -> string) (id : string) (l : list A) : list A :=
  List.filter (fun item => id_of item !== id) l.

(** A handler: what it sends ([None] when it returns before its request),
    what it does with the payload, and what it reports then. *)
Record Handler (A : Type) := {
  sends : State -> option FetchRequest;
  receives : A -> State -> State;
  reports : string;
}.
Arguments sends {A}.
Arguments receives {A}.
Arguments reports {A}.

Definition handleCreateAlertRule : Handler AlertRule := {|
  sends s :=
    let f := newRule s in
    if blank (f_name f) || blank (f_condition f) then None
    else Some (send "POST" "alert-rules"
      [("name", JStr (trim (f_name f))); ("condition", JStr (trim (f_condition f)));
       ("severity", JStr (severity_str (f_severity f))); ("channels", strings (channels_of (channelsCsv f)));
       ("enabled", JBool true)]);
  receives rule s := s <| alertRules := rule :: alertRules s |> <| newRule := empty_rule |>;
  reports := "Alert rule created" |}.

Definition handleUpdateAlertRule (id : string) (patch : obj) : Handler AlertRule := {|
  sends _ := Some (send "PATCH" ("alert-rules/" +:+ id) patch);
  receives rule s := s <| alertRules := map_id rule_id id rule (alertRules s) |>;
  reports := "Alert rule updated" |}.

Definition handleDeleteAlertRule (id : string) : Handler unit := {|
  sends _ := Some (send_delete ("alert-rules/" +:+ id));
  receives _ s := s <| alertRules := drop_id rule_id id (alertRules s) |>;
  reports := "Alert rule deleted" |}.

Definition handleUpdatePolicy (id value : string) : Handler PolicyEntry := {|
  sends _ := Some (send "PATCH" ("policy-entries/" +:+ id) [("policy_value", JStr value)]);
  receives entry s := s <| policyEntries := map_id policy_id id entry (policyEntries s) |>;
  reports := "Policy updated" |}.

Definition handleCreateThreshold : Handler ComplianceThreshold := {|
  sends s :=
    let f := newThreshold s in
    if blank (t_control f) || blank (t_metric f) || (t_threshold f === "") then None
    else Some (send "POST" "compliance-thresholds"
      [("control", JStr (trim (t_control f))); ("metric", JStr (trim (t_metric f)));
       ("threshold", JNum (number_of_string (t_threshold f)));
       ("unit", or_else JStr (Some (trim (t_unit f))) JNull);
       ("severity", JStr (severity_str (t_severity f))); ("enabled", JBool true)]);
  receives t s := s <| thresholds := thresholds s ++ [t] |> <| newThreshold := empty_threshold |>;
  reports := "Compliance threshold created" |}.

Definition handleUpdateThreshold (id : string) (patch : obj) : Handler ComplianceThreshold := {|
  sends _ := Some (send "PATCH" ("compliance-thresholds/" +:+ id) patch);
  receives t s := s <| thresholds := map_id threshold_id id t (thresholds s) |>;
  reports := "Compliance threshold updated" |}.

Definition handleDeleteThreshold (id : string) : Handler unit := {|
  sends _ := Some (send_delete ("compliance-thresholds/" +:+ id));
  receives _ s := s <| thresholds := drop_id threshold_id id (thresholds s) |>;
  reports := "Compliance threshold deleted" |}.

Definition handleSaveRolePermissions (role : Role) : Handler Grants := {|
  sends s := Some (send "PATCH" ("roles/" +:+ role_str role +:+ "/permissions")
                     [("permissions", grants_object (roleDrafts s role))]);
  receives grants s :=
    s <| permissions := set_role role (Some grants) (permissions s) |>
      <| roleDrafts := set_role role (Some grants) (roleDrafts s) |>;
  reports := role_str role +:+ " permissions updated" |}.

Definition handleCreateMember : Handler TeamMember := {|
  sends s :=
    let f := newMember s in
    if blank (m_display_name f) || blank (m_email f) then None
    else Some (send "POST" "team-members"
      [("display_name", JStr (trim (m_display_name f))); ("email", JStr (trim (m_email f)));
       ("role", JStr (role_str (m_role f))); ("account_status", JStr (status_str (m_status f)));
       ("device_access", strings [])]);
  receives m s :=
    s <| members := m :: members s |> <| memberDrafts := put (memberDrafts s) (member_id m) m |>
      <| newMember := empty_member |>;
  reports := "Team member created" |}.

(** The answer about one member goes into the list and into the draft. *)
Definition member_answer (id : string) (m : TeamMember) (s : State) : State :=
  s <| members := map_id member_id id m (members s) |> <| memberDrafts := put (memberDrafts s) id m |>.

Definition handleSaveMember (id : string) : Handler TeamMember := {|
  sends s :=
    draft ← own_get (memberDrafts s) id;
    Some (send "PATCH" ("team-members/" +:+ id)
      [("display_name", JStr (display_name draft)); ("role", JStr (role_str (member_role draft)));
       ("account_status", JStr (status_str (account_status draft)));
       ("device_access", strings (device_access draft))]);
  receives := member_answer id;
  reports := "Team member updated" |}.

Definition handleActivateMember (id : string) : Handler TeamMember := {|
  sends _ := Some (send "POST" ("team-members/" +:+ id +:+ "/activate") []);
  receives := member_answer id;
  reports := "Member activated" |}.

Definition handleDeactivateMember (id : string) : Handler TeamMember := {|
  sends _ := Some (send "POST" ("team-members/" +:+ id +:+ "/deactivate") []);
  receives := member_answer id;
  reports := "Member deactivated" |}.

(** The calls of the handlers, with what they close over. *)
Inductive Change :=
| CreateAlertRule
| UpdateAlertRule (id : string) (patch : obj)
| DeleteAlertRule (id : string)
| UpdatePolicy (id value : string)
| CreateThreshold
| UpdateThreshold (id : string) (patch : obj)
| DeleteThreshold (id : string)
| SaveRolePermissions (role : Role)
| CreateMember
| SaveMember (id : string)
| ActivateMember (id : string)
| DeactivateMember (id : string).

Definition payload_of (c : Change) : Type :=
  match c with
  | CreateAlertRule | UpdateAlertRule _ _ => AlertRule
  | UpdatePolicy _ _ => PolicyEntry
  | CreateThreshold | UpdateThreshold _ _ => ComplianceThreshold
  | SaveRolePermissions _ => Grants
  | CreateMember | SaveMember _ | ActivateMember _ | DeactivateMember _ => TeamMember
  | DeleteAlertRule _ | DeleteThreshold _ => unit
  end.

Definition handler (c : Change) : Handler (payload_of c) :=
  match c with
  | CreateAlertRule => handleCreateAlertRule
  | UpdateAlertRule id patch => handleUpdateAlertRule id patch
  | DeleteAlertRule id => handleDeleteAlertRule id
  | UpdatePolicy id value => handleUpdatePolicy id value
  | CreateThreshold => handleCreateThreshold
  | UpdateThreshold id patch => handleUpdateThreshold id patch
  | DeleteThreshold id => handleDeleteThreshold id
  | SaveRolePermissions role => handleSaveRolePermissions role
  | CreateMember => handleCreateMember
  | SaveMember id => handleSaveMember id
  | ActivateMember id => handleActivateMember id
  | DeactivateMember id => handleDeactivateMember id
  end.

Definition request (c : Change) (s : State) : option FetchRequest := sends (handler c) s.

(** A handler after its response: the page, and the message it shows. *)
Inductive Toast := ToastSuccess (text : string) | ToastError (text : string).

Definition finish (c : Change) (r : Response (payload_of c)) (s : State) : State * Toast :=
  match requestJson r with
  | Ok payload => (receives (handler c) payload s, ToastSuccess (reports (handler c)))
  | Exn text => (s, ToastError text)
  end.

(** *** Edits *)

Definition handleTogglePermission (role : Role) (key : string) (s : State) : State :=
  let grants := roleDrafts s role ?? [] in
  let old := vnullish (grant (roleDrafts s) role key) (JBool false) in
  s <| roleDrafts := set_role role (Some (put grants key (negb (truthy old)))) (roleDrafts s) |>.

Inductive MemberPatch := SetName (name : string) | SetRole (role : Role) | SetStatus (status : AccountStatus)
| SetDevices (ids : list string).

Definition patched (p : MemberPatch) (m : TeamMember) : TeamMember :=
  match p with
  | SetName name => m <| display_name := name |>
  | SetRole role => m <| member_role := role |>
  | SetStatus status => m <| account_status := status |>
  | SetDevices ids => m <| device_access := ids |>
  end.

(** The controls are in the row of a listed member, which always has a draft
    ([SettingsLaws.settings_run_sound]). *)
Definition updateMemberDraft (id : string) (p : MemberPatch) (s : State) : State :=
  match own_get (memberDrafts s) id with
  | Some draft => s <| memberDrafts := put (memberDrafts s) id (patched p draft) |>
  | None => s
  end.

Definition toggleMemberDevice (id device : string) (s : State) : State :=
  match own_get (memberDrafts s) id with
  | None => s
  | Some draft => updateMemberDraft id (SetDevices (set_toggle device (device_access draft))) s
  end.

Inductive Edit :=
| RuleName (v : string) | RuleSeverity (v : Severity) | RuleCondition (v : string) | RuleChannels (v : string)
| ThresholdControl (v : string) | ThresholdMetric (v : string) | ThresholdValue (v : string)
| ThresholdUnit (v : string) | ThresholdSeverity (v : Severity)
| MemberName (v : string) | MemberEmail (v : string) | MemberRole (v : Role) | MemberStatus (v : AccountStatus)
| TogglePermission (role : Role) (key : string)
| PatchMember (id : string) (p : MemberPatch)
| ToggleDevice (id device : string)
| Manage (id : string).

Definition edit (e : Edit) (s : State) : State :=
  match e with
  | RuleName v => s <| newRule := (newRule s) <| f_name := v |> |>
  | RuleSeverity v => s <| newRule := (newRule s) <| f_severity := v |> |>
  | RuleCondition v => s <| newRule := (newRule s) <| f_condition := v |> |>
  | RuleChannels v => s <| newRule := (newRule s) <| channelsCsv := v |> |>
  | ThresholdControl v => s <| newThreshold := (newThreshold s) <| t_control := v |> |>
  | ThresholdMetric v => s <| newThreshold := (newThreshold s) <| t_metric := v |> |>
  | ThresholdValue v => s <| newThreshold := (newThreshold s) <| t_threshold := v |> |>
  | ThresholdUnit v => s <| newThreshold := (newThreshold s) <| t_unit := v |> |>
  | ThresholdSeverity v => s <| newThreshold := (newThreshold s) <| t_severity := v |> |>
  | MemberName v => s <| newMember := (newMember s) <| m_display_name := v |> |>
  | MemberEmail v => s <| newMember := (newMember s) <| m_email := v |> |>
  | MemberRole v => s <| newMember := (newMember s) <| m_role := v |> |>
  | MemberStatus v => s <| newMember := (newMember s) <| m_status := v |> |>
  | TogglePermission role key => handleTogglePermission role key s
  | PatchMember id p => updateMemberDraft id p s
  | ToggleDevice id device => toggleMemberDevice id device s
  | Manage id => s <| expandedMemberId :=
      if bool_decide (expandedMemberId s = Some id) then None else Some id |>
  end.

(** *** Runs *)

(** The page with the requests that have not been answered. *)
Record Run := { page : State; loads : nat; open : list Change }.

#[export] Instance eta_run : Eta Run := fun r => {| page := page r; loads := loads r; open := open r |}.

Inductive Event :=
| Load (showLoader : bool)
| Loaded (a : Answers)
| Submit (c : Change)
| Answered (c : Change) (r : Response (payload_of c))
| Edited (e : Edit).

Inductive step : Run -> Event -> Run -> Prop :=
| step_load b r s : load_start b (page r) = Some s ->
    step r (Load b) {| page := s; loads := S (loads r); open := open r |}
| step_busy b r : load_start b (page r) = None -> step r (Load b) r
| step_loaded a n r : loads r = S n ->
    step r (Loaded a) {| page := load_end a (page r); loads := n; open := open r |}
| step_submit c r q : request c (page r) = Some q ->
    step r (Submit c) {| page := page r; loads := loads r; open := c :: open r |}
| step_answered c a r before after : open r = before ++ c :: after ->
    step r (Answered c a) {| page := (finish c a (page r)).1; loads := loads r; open := before ++ after |}
| step_edited e r : step r (Edited e) {| page := edit e (page r); loads := loads r; open := open r |}.

(** The page begins with the load of its first effect. *)
Definition start : Run := {| page := default init (load_start true init); loads := 1; open := [] |}.

Inductive reaches : list Event -> Run -> Prop :=
| reaches_start : reaches [] start
| reaches_step es e r r' : reaches es r -> step r e r' -> reaches (es ++ [e]) r'.

(** ** Rows *)

(** A row keeps a draft of its item; when the list brings another object for
    the item, an effect replaces the draft. *)
Record AlertRuleRow := { rule : AlertRule; rule_editing : bool; rule_draft : AlertRule }.

#[export] Instance eta_alert_row : Eta AlertRuleRow := fun r =>
  {| rule := rule r; rule_editing := rule_editing r; rule_draft := rule_draft r |}.

Definition rule_row (x : AlertRule) : AlertRuleRow := {| rule := x; rule_editing := false; rule_draft := x |}.
Definition receive_rule (x : AlertRule) (r : AlertRuleRow) : AlertRuleRow := r <| rule := x |> <| rule_draft := x |>.

Definition type_channels (text : string) (r : AlertRuleRow) : AlertRuleRow :=
  r <| rule_draft := (rule_draft r) <| channels := channels_of text |> |>.

(** The text of the channels' field. *)
Definition channels_text (r : AlertRuleRow) : string := join "," (channels (rule_draft r)).

Definition rule_patch (x : AlertRule) : obj :=
  [("name", JStr (rule_name x)); ("condition", JStr (condition x)); ("severity", JStr (severity_str (rule_severity x)));
   ("channels", strings (channels x)); ("enabled", JBool (rule_enabled x))].

Definition save_rule (r : AlertRuleRow) : AlertRuleRow * Change :=
  (r <| rule_editing := false |>, UpdateAlertRule (rule_id (rule r)) (rule_patch (rule_draft r))).
Definition toggle_rule (r : AlertRuleRow) : Change :=
  UpdateAlertRule (rule_id (rule r)) [("enabled", JBool (negb (rule_enabled (rule r))))].

(** The row of a policy entry takes the value over when editing begins; its
    button is there for a mutable entry only. *)
Record PolicyEntryRow := { entry : PolicyEntry; entry_editing : bool; entry_text : string }.

#[export] Instance eta_policy_row : Eta PolicyEntryRow := fun r =>
  {| entry := entry r; entry_editing := entry_editing r; entry_text := entry_text r |}.

Definition entry_row (x : PolicyEntry) : PolicyEntryRow :=
  {| entry := x; entry_editing := false; entry_text := policy_value x ?? "" |}.
Definition receive_entry (x : PolicyEntry) (r : PolicyEntryRow) : PolicyEntryRow := r <| entry := x |>.

Definition toggle_editing (r : PolicyEntryRow) : PolicyEntryRow :=
  if negb (is_mutable (entry r)) then r
  else r <| entry_text := if entry_editing r then entry_text r else policy_value (entry r) ?? "" |>
         <| entry_editing := negb (entry_editing r) |>.
Definition type_entry (v : string) (r : PolicyEntryRow) : PolicyEntryRow :=
  if entry_editing r then r <| entry_text := v |> else r.
Definition save_entry (r : PolicyEntryRow) : option (PolicyEntryRow * Change) :=
  if entry_editing r
  then Some (r <| entry_editing := false |>, UpdatePolicy (policy_id (entry r)) (entry_text r)) else None.

Record ComplianceThresholdRow :=
  { item : ComplianceThreshold; item_editing : bool; item_draft : ComplianceThreshold }.

#[export] Instance eta_threshold_row : Eta ComplianceThresholdRow := fun r =>
  {| item := item r; item_editing := item_editing r; item_draft := item_draft r |}.

Definition threshold_row (x : ComplianceThreshold) : ComplianceThresholdRow :=
  {| item := x; item_editing := false; item_draft := x |}.
Definition receive_threshold (x : ComplianceThreshold) (r : ComplianceThresholdRow) : ComplianceThresholdRow :=
  r <| item := x |> <| item_draft := x |>.

(** [Number(event.target.value || 0)] *)
Definition type_threshold (v : string) (r : ComplianceThresholdRow) : ComplianceThresholdRow :=
  r <| item_draft := (item_draft r) <| threshold := if truthy_str v then number_of_string v else Num.zero |> |>.

Definition threshold_patch (x : ComplianceThreshold) : obj :=
  [("control", JStr (control x)); ("metric", JStr (metric x)); ("threshold", JNum (threshold x));
   ("unit", or_null (unit_text x)); ("severity", JStr (severity_str (threshold_severity x)));
   ("enabled", JBool (threshold_enabled x))].

Definition save_threshold (r : ComplianceThresholdRow) : ComplianceThresholdRow * Change :=
  (r <| item_editing := false |>, UpdateThreshold (threshold_id (item r)) (threshold_patch (item_draft r))).
Definition toggle_threshold (r : ComplianceThresholdRow) : Change :=
  UpdateThreshold (threshold_id (item r)) [("enabled", JBool (negb (threshold_enabled (item r))))].
