(* ===== verification/SettingsLaws.v ===== *)
(** * What the settings page guarantees

    Loads never overlap and their flags follow them; every listed member has
    a draft under its id, so that its save button always sends what its row
    shows; a box changes alone and is sent as it is shown; a request that
    fails changes nothing but the message. *)

From S2P Require Import Prelude JsNumber JsString JsValue Http RenderModel RenderLaws Tables Requests Settings.

(** ** Runs *)

(** The service answers a request about a member with that member. *)
Definition about (c : Change) : payload_of c -> Prop :=
  match c with
  | SaveMember id | ActivateMember id | DeactivateMember id => fun m => member_id m = id
  | _ => fun _ => True
  end.

Definition answers_asked (e : Event) : Prop :=
  match e with Answered c (Accepted payload) => about c payload | _ => True end.

(** Drafts are kept under their ids, and each of these members has one. *)
Definition drafts_ok (ms : list TeamMember) (drafts : list (string * TeamMember)) : Prop :=
  (forall id d, own_get drafts id = Some d -> member_id d = id)
  /\ forall m, m ∈ ms -> is_Some (own_get drafts (member_id m)).

Lemma drafts_put ms drafts id m :
  member_id m = id -> drafts_ok ms drafts -> drafts_ok ms (put drafts id m).
Proof.
  intros Hid [Hkey Hall]. split.
  - intros k d. destruct (decide (k = id)) as [->|Hne].
    + rewrite own_get_put_eq. by intros [= <-].
    + rewrite own_get_put_ne by done. apply Hkey.
  - intros x Hx. destruct (decide (member_id x = id)) as [->|Hne].
    + rewrite own_get_put_eq. eauto.
    + rewrite own_get_put_ne by done. by apply Hall.
Qed.

Lemma drafts_cons ms drafts m : drafts_ok ms drafts -> drafts_ok (m :: ms) (put drafts (member_id m) m).
Proof.
  intros H. destruct (drafts_put ms drafts (member_id m) m eq_refl H) as [Hkey Hall].
  split; [done|]. intros x [->|Hx]%elem_of_cons; [|by apply Hall]. rewrite own_get_put_eq. eauto.
Qed.

Lemma drafts_map ms drafts id m :
  member_id m = id -> drafts_ok ms drafts -> drafts_ok (map_id member_id id m ms) (put drafts id m).
Proof.
  intros Hid H. destruct (drafts_put ms drafts id m Hid H) as [Hkey Hall]. split; [done|].
  intros x (y & Heq & Hy)%list_elem_of_In%in_map_iff. apply list_elem_of_In in Hy.
  destruct (member_id y === id); subst x; [|by apply Hall]. rewrite Hid, own_get_put_eq. eauto.
Qed.

Lemma drafts_of_ok ms : drafts_ok ms (drafts_of ms).
Proof.
  unfold drafts_of. enough (forall seen acc, drafts_ok seen acc ->
    drafts_ok (ms ++ seen) (fold_left (fun acc m => put acc (member_id m) m) ms acc)) as H.
  { rewrite <- (app_nil_r ms) at 1. apply H. split; [done|]. by intros m ?%elem_of_nil. }
  induction ms as [|m ms IH]; intros seen acc H; [done|]. cbn.
  destruct (IH (m :: seen) _ (drafts_cons _ _ m H)) as [Hkey Hall].
  split; [done|]. intros x Hx. apply Hall. revert Hx. cbn. rewrite elem_of_cons, !elem_of_app, elem_of_cons. tauto.
Qed.

Definition flags (s : State) : bool * bool * bool := (inFlight s, refreshing s, loading s).
Definition settled (s : State) : State := s <| inFlight := false |> <| loading := false |> <| refreshing := false |>.

Lemma finish_flags c r s : flags (finish c r s).1 = flags s.
Proof. unfold finish. destruct (requestJson r) as [p|]; [|done]. by destruct c. Qed.

Lemma update_draft_flags id p s : flags (updateMemberDraft id p s) = flags s.
Proof. unfold updateMemberDraft. by destruct (own_get _ _). Qed.

Lemma edit_flags e s : flags (edit e s) = flags s.
Proof.
  destruct e; try done; cbn; [apply update_draft_flags|].
  unfold toggleMemberDevice. destruct (own_get _ _); [apply update_draft_flags|done].
Qed.

Lemma update_draft_ok id p s :
  drafts_ok (members s) (memberDrafts s) ->
  drafts_ok (members (updateMemberDraft id p s)) (memberDrafts (updateMemberDraft id p s)).
Proof.
  intros H. unfold updateMemberDraft. destruct (own_get _ _) as [d|] eqn:Ed; [|done]. cbn.
  apply drafts_put; [|done]. apply H in Ed. by destruct p.
Qed.

Lemma edit_drafts e s :
  drafts_ok (members s) (memberDrafts s) -> drafts_ok (members (edit e s)) (memberDrafts (edit e s)).
Proof.
  intros H. destruct e; try done; cbn; [by apply update_draft_ok|].
  unfold toggleMemberDevice. destruct (own_get _ _); [by apply update_draft_ok|done].
Qed.

Lemma finish_drafts c r s :
  answers_asked (Answered c r) ->
  drafts_ok (members s) (memberDrafts s) ->
  drafts_ok (members (finish c r s).1) (memberDrafts (finish c r s).1).
Proof.
  intros Hr H. unfold finish. destruct (requestJson r) as [p|] eqn:E; [|done].
  apply request_json_ok in E as ->. cbn in Hr.
  destruct c; cbn in *; try done; [by apply drafts_cons|by apply drafts_map..].
Qed.

Lemma load_end_drafts a s :
  drafts_ok (members s) (memberDrafts s) -> drafts_ok (members (load_end a s)) (memberDrafts (load_end a s)).
Proof.
  intros H. unfold load_end, loaded. cbn.
  destruct (requestJson (rulesRes a)); [|done]. destruct (requestJson (policyRes a)); [|done].
  destruct (requestJson (thresholdsRes a)); [|done]. destruct (requestJson (matrixRes a)); [|done].
  destruct (requestJson (membersRes a)); [|done]. apply drafts_of_ok.
Qed.

Record sound (r : Run) : Prop := {
  sound_loads : loads r = if inFlight (page r) then 1%nat else 0%nat;
  sound_refreshing : refreshing (page r) = inFlight (page r);
  sound_loading : loading (page r) = true -> inFlight (page r) = true;
  sound_drafts : drafts_ok (members (page r)) (memberDrafts (page r));
}.

Lemma sound_same_flags s r n o :
  sound r -> flags s = flags (page r) -> n = loads r -> drafts_ok (members s) (memberDrafts s) ->
  sound {| page := s; loads := n; open := o |}.
Proof. intros H [= Hi Hr Hl] -> Hd. split; cbn; rewrite ?Hi, ?Hr, ?Hl; [apply H..|done]. Qed.

Lemma load_start_some b s s' :
  load_start b s = Some s' ->
  inFlight s = false /\ flags s' = (true, true, b || loading s)
  /\ members s' = members s /\ memberDrafts s' = memberDrafts s.
Proof. unfold load_start. destruct (inFlight s); [done|]. intros [= <-]. by destruct b. Qed.

Lemma step_sound r e r' : step r e r' -> answers_asked e -> sound r -> sound r'.
Proof.
  intros Hstep He Hr. destruct Hstep as [b r s Hs|b r Hs|a n r Hn|c r q Hq|c a r before after Ho|e r].
  - apply load_start_some in Hs as (Hidle & [= Hi Hf Hl] & Hm & Hd). pose proof (sound_loads _ Hr) as Hn.
    rewrite Hidle in Hn. split; cbn; rewrite ?Hi, ?Hf, ?Hm, ?Hd; [by rewrite Hn|done|done|apply Hr].
  - done.
  - pose proof (sound_loads _ Hr) as Hl. rewrite Hn in Hl. split; try done; [|by apply load_end_drafts, Hr].
    cbn. destruct (inFlight (page r)); lia.
  - by apply (sound_same_flags _ r); [..|apply Hr].
  - apply (sound_same_flags _ r); [done|apply finish_flags|done|by apply finish_drafts, Hr].
  - apply (sound_same_flags _ r); [done|apply edit_flags|done|by apply edit_drafts, Hr].
Qed.

Lemma start_sound : sound start.
Proof. split; cbn; [done..|]. split; [done|]. by intros m ?%elem_of_nil. Qed.

Lemma reaches_sound es r : reaches es r -> List.Forall answers_asked es -> sound r.
Proof.
  induction 1 as [|es e r r' Hr IH Hstep]; intros Hes; [apply start_sound|].
  apply List.Forall_app in Hes as [Hes He]. eapply step_sound; eauto. by apply Forall_inv in He.
Qed.

Lemma sound_member r m :
  sound r -> m ∈ members (page r) ->
  let d := draft_of (page r) m in
  member_id d = member_id m
  /\ request (SaveMember (member_id m)) (page r) = Some (send "PATCH" ("team-members/" +:+ member_id m)
       [("display_name", JStr (display_name d)); ("role", JStr (role_str (member_role d)));
        ("account_status", JStr (status_str (account_status d)));
        ("device_access", strings (device_access d))]).
Proof.
  intros Hr Hm. destruct (sound_drafts _ Hr) as [Hkey Hall]. destruct (Hall m Hm) as [d Hd].
  unfold draft_of. cbn. rewrite Hd. cbn. split; [by apply Hkey|done].
Qed.

(** [C25] The settings page, through any interleaving of its loads, edits and
    changes, with answers in any order: at most one load runs, the page knows
    when one does, its two flags show nothing else, and every listed member
    has a draft of its own, so that its save button sends exactly what its
    row shows.  The service must answer a request about a member with that
    member. *)
Theorem settings_run_sound (es : list Event) (r : Run) :
  reaches es r -> List.Forall answers_asked es ->
  (loads r = if inFlight (page r) then 1%nat else 0%nat)
  /\ refreshing (page r) = inFlight (page r)
  /\ (loading (page r) = true -> inFlight (page r) = true)
  /\ (forall a, flags (load_end a (page r)) = (false, false, false))
  /\ forall m, m ∈ members (page r) ->
       let d := draft_of (page r) m in
       member_id d = member_id m
       /\ request (SaveMember (member_id m)) (page r) = Some (send "PATCH" ("team-members/" +:+ member_id m)
            [("display_name", JStr (display_name d)); ("role", JStr (role_str (member_role d)));
             ("account_status", JStr (status_str (account_status d)));
             ("device_access", strings (device_access d))]).
Proof.
  intros Hr Hes. pose proof (reaches_sound _ _ Hr Hes) as H.
  split_and!; [apply H..|done|]. intros m Hm. by apply sound_member.
Qed.

(** ** Boxes *)

(** Reading a grant from the object that is sent. *)
Lemma grants_object_prop g key : prop (grants_object (Some g)) key = own_get (map (fun kv => (kv.1, JBool kv.2)) g) key ?? inherited key.
Proof. done. Qed.

Lemma sent_grant s role key : prop (grants_object (roleDrafts s role)) key = grant (roleDrafts s) role key.
Proof.
  unfold grant. destruct (roleDrafts s role) as [g|]; [|done]. rewrite grants_object_prop.
  induction g as [|[k b] g IH]; [done|]. cbn. by destruct (key === k).
Qed.

Lemma set_role_eq role g m : set_role role g m role = g.
Proof. unfold set_role. by rewrite decide_True. Qed.
Lemma set_role_ne role role' g m : role' <> role -> set_role role g m role' = m role'.
Proof. intros H. unfold set_role. by rewrite decide_False. Qed.

Lemma toggle_same s role key : checked (handleTogglePermission role key s) role key = negb (checked s role key).
Proof.
  unfold checked at 1, grant. cbn. rewrite set_role_eq, own_get_put_eq. cbn. f_equal.
  unfold checked. by destruct (grant (roleDrafts s) role key).
Qed.

Lemma toggle_other s role key role' key' :
  inherited key' = JUndef -> (role', key') <> (role, key) ->
  checked (handleTogglePermission role key s) role' key' = checked s role' key'.
Proof.
  intros Hkey Hne. unfold checked, grant. cbn. destruct (decide (role' = role)) as [->|Hr].
  - rewrite set_role_eq, own_get_put_ne by congruence. destruct (roleDrafts s role); [done|]. cbn. by rewrite Hkey.
  - by rewrite set_role_ne.
Qed.

Lemma granted_draft s m d device :
  own_get (memberDrafts s) (member_id m) = Some d -> granted s m device = has (device_access d) device.
Proof. intros Hd. unfold granted, draft_of. by rewrite Hd. Qed.

Lemma toggle_device_draft s m d device :
  own_get (memberDrafts s) (member_id m) = Some d ->
  memberDrafts (toggleMemberDevice (member_id m) device s)
  = put (memberDrafts s) (member_id m) (d <| device_access := set_toggle device (device_access d) |>).
Proof. intros Hd. unfold toggleMemberDevice, updateMemberDraft. by rewrite Hd. Qed.

Lemma has_set_toggle x y l : has (set_toggle x l) y = if y === x then negb (has l x) else has l y.
Proof.
  unfold set_toggle, has. destruct (existsb (String.eqb x) l) eqn:E; cbn.
  - destruct (String.eqb_spec y x) as [->|Hne].
    + apply not_true_is_false. rewrite existsb_exists. intros (z & [_ Hz]%filter_In & Heq).
      apply String.eqb_eq in Heq as ->. by rewrite String.eqb_refl in Hz.
    + clear E. induction l as [|z l IH]; [done|]. cbn. destruct (String.eqb_spec z x) as [->|Hz]; cbn; rewrite IH; [|done].
      by rewrite (proj2 (String.eqb_neq y x) Hne).
  - rewrite existsb_app. cbn. rewrite orb_false_r. destruct (String.eqb_spec y x) as [->|Hne]; [|by rewrite orb_false_r].
    by rewrite orb_true_r.
Qed.

Lemma toggle_device s m d device device' :
  own_get (memberDrafts s) (member_id m) = Some d ->
  granted (toggleMemberDevice (member_id m) device s) m device'
  = if device' === device then negb (granted s m device) else granted s m device'.
Proof.
  intros Hd. rewrite !(granted_draft s m d) by done. rewrite <- has_set_toggle.
  rewrite (granted_draft _ m (d <| device_access := set_toggle device (device_access d) |>)); [done|].
  by rewrite (toggle_device_draft s m d), own_get_put_eq.
Qed.

Lemma toggle_device_other s m m' d device device' :
  own_get (memberDrafts s) (member_id m) = Some d -> member_id m' <> member_id m ->
  granted (toggleMemberDevice (member_id m) device s) m' device' = granted s m' device'.
Proof.
  intros Hd Hne. unfold granted, draft_of. by rewrite (toggle_device_draft s m d), own_get_put_ne.
Qed.

Lemma permission_keys_elem s key :
  key ∈ permissionKeys s <->
  key ∈ BASE_PERMISSION_KEYS \/ exists role grants, permissions s role = Some grants /\ In key (keys grants).
Proof.
  unfold permissionKeys. rewrite (proj2 (proj2 (sorted_set _))), !elem_of_app, !list_elem_of_In. split.
  - intros [H|H]; [by left|right]. destruct H as [H|[H|H]];
      [exists admin|exists operator|exists viewer]; (destruct (permissions s _) as [g|]; [exists g; done|done]).
  - intros [H|(role & g & Hg & H)]; [by left|]. right. destruct role; rewrite Hg; auto.
Qed.

(** The boxes of the settings page.  The permissions are listed in order,
    each once: the base ones and all the service knows.  A click on a
    permission changes the box of that role and permission and no other, what
    is saved for a role has for each permission the value its box shows, and
    the accepted answer fixes the boxes of that role alone.  A click on a
    device changes that device's box in that member's row alone.  (A key that
    names a method of Object.prototype is excluded where its box is read from
    another object.) *)
Theorem settings_boxes (s : State) (role : Role) (key : string) (m : TeamMember) (device : string) :
  (NoDup (permissionKeys s) /\ in_order String.ltb (permissionKeys s)
   /\ forall k, k ∈ permissionKeys s <->
        k ∈ BASE_PERMISSION_KEYS \/ exists r g, permissions s r = Some g /\ In k (keys g))
  /\ checked (handleTogglePermission role key s) role key = negb (checked s role key)
  /\ (forall role' key', inherited key' = JUndef -> (role', key') <> (role, key) ->
        checked (handleTogglePermission role key s) role' key' = checked s role' key')
  /\ (exists sent, request (SaveRolePermissions role) s
                   = Some (send "PATCH" ("roles/" +:+ role_str role +:+ "/permissions") [("permissions", sent)])
        /\ forall k, truthy (prop sent k) = checked s role k)
  /\ (forall g role' k, checked (finish (SaveRolePermissions role) (Accepted g) s).1 role' k
        = if decide (role' = role) then truthy (own_get (map (fun kv => (kv.1, JBool kv.2)) g) k ?? inherited k)
          else checked s role' k)
  /\ (is_Some (own_get (memberDrafts s) (member_id m)) ->
      (forall device', granted (toggleMemberDevice (member_id m) device s) m device'
         = if device' === device then negb (granted s m device) else granted s m device')
      /\ forall m' device', member_id m' <> member_id m ->
           granted (toggleMemberDevice (member_id m) device s) m' device' = granted s m' device').
Proof.
  split_and!.
  - apply sorted_set.
  - apply sorted_set.
  - apply permission_keys_elem.
  - apply toggle_same.
  - intros role' key' Hkey Hne. by apply toggle_other.
  - eexists. split; [reflexivity|]. intros k. by rewrite sent_grant.
  - intros g role' k. unfold checked, grant. cbn. destruct (decide (role' = role)) as [->|Hne].
    + rewrite set_role_eq. f_equal. induction g as [|[k' b] g IH]; [done|]. cbn. by destruct (k === k').
    + by rewrite set_role_ne.
  - intros [d Hd]. split; intros.
    + by apply (toggle_device s m d).
    + by apply (toggle_device_other s m _ d).
Qed.

(** ** Failures *)

Definition complete (a : Answers) : bool :=
  accepted (rulesRes a) && accepted (policyRes a) && accepted (thresholdsRes a) && accepted (matrixRes a)
  && accepted (membersRes a).

Lemma refused {A} (r : Response A) : accepted r = false -> exists text, requestJson r = Exn text.
Proof. apply request_json_exn. Qed.

Lemma loaded_complete a s : complete a = true <-> exists s', loaded a s = Ok s'.
Proof.
  unfold complete, loaded, requestJson. split.
  - destruct a as [[] [] [] [] []]; cbn; try done. eauto.
  - intros [s' H]. destruct a as [r1 r2 r3 r4 r5]; cbn in *.
    destruct (request_json _ r1) eqn:E1; [|done]. destruct (request_json _ r2) eqn:E2; [|done].
    destruct (request_json _ r3) eqn:E3; [|done]. destruct (request_json _ r4) eqn:E4; [|done].
    destruct (request_json _ r5) eqn:E5; [|done].
    apply request_json_ok in E1 as ->, E2 as ->, E3 as ->, E4 as ->, E5 as ->. done.
Qed.

Definition refusal_text (o : obj) : string :=
  match text_of (get o "message") with
  | Some text => text
  | None => text_of (prop (get o "error") "message") ?? "request_failed"
  end.

(** What goes wrong on the settings page changes nothing on it.  A change
    that is refused, whatever the body, or whose service cannot be reached,
    leaves every list, form and draft as it was and shows a message: the
    message of the body, else that of its error, else a fixed one; only an
    accepted change is applied, and reports success.  A load of which any of
    the five requests fails leaves everything but the flags. *)
Theorem settings_failures (c : Change) (r : Response (payload_of c)) (a : Answers) (s : State) :
  (accepted r = false ->
     exists text, finish c r s = (s, ToastError text)
       /\ (r = Unreachable -> text = network_error)
       /\ forall o, r = Refused (JObj o) -> text = refusal_text o)
  /\ (accepted r = true ->
     exists payload, r = Accepted payload /\ finish c r s = (receives (handler c) payload s, ToastSuccess (reports (handler c))))
  /\ (complete a = false -> load_end a s = settled s).
Proof.
  split_and!.
  - intros Hr. destruct (refused r Hr) as [text E]. exists text. unfold finish. rewrite E.
    split_and!; [done|intros ->; cbn in E; congruence|]. intros o ->. revert E.
    unfold requestJson, request_json, settings_refusal, refusal_text. cbn.
    destruct (text_of (get o "message")); cbn; congruence.
  - intros (payload & -> & E)%(request_json_accepted settings_refusal). exists payload.
    split; [done|]. unfold finish, requestJson. by rewrite E.
  - intros Ha. unfold load_end, settled. destruct (loaded a s) as [s'|] eqn:E; [|done].
    enough (complete a = true) by congruence. apply (loaded_complete a s). eauto.
Qed.

(** ** Examples *)

Module SettingsDemo.

Definition ann : TeamMember :=
  {| member_id := "u-1"; display_name := "Ann"; email := "ann@x.y"; member_role := viewer;
     account_status := active; device_access := ["d-1"] |}.
Definition low : AlertRule :=
  {| rule_id := "r-1"; rule_name := "Low"; condition := "battery < 5"; rule_severity := warning;
     channels := ["email"]; rule_enabled := true |}.
Definition matrix : PermissionsMatrix := fun role =>
  match role with admin => Some [("view_devices", true)] | _ => Some [] end.

Definition answers (rules : list AlertRule) (ms : list TeamMember) : Answers :=
  {| rulesRes := Accepted (Some rules); policyRes := Accepted (Some []); thresholdsRes := Accepted (Some []);
     matrixRes := Accepted (Some matrix); membersRes := Accepted (Some ms, Some []) |}.

Definition opened : State := load_end (answers [low] [ann]) (page start).

Definition idle (s : State) : Run := {| page := s; loads := 0; open := [] |}.

Lemma opened_reached : reaches [Loaded (answers [low] [ann])] (idle opened).
Proof. apply (reaches_step [] _ start); [constructor|]. by apply (step_loaded _ 0 start). Qed.

(** Ann's device is taken away and saved, and the answer comes. *)
Definition changed : State := edit (ToggleDevice "u-1" "d-1") opened.
Definition bare_ann : TeamMember := ann <| device_access := [] |>.

Lemma saved_reached :
  reaches [Loaded (answers [low] [ann]); Edited (ToggleDevice "u-1" "d-1"); Submit (SaveMember "u-1");
           Answered (SaveMember "u-1") (Accepted bare_ann)]
    (idle (finish (SaveMember "u-1") (Accepted bare_ann) changed).1).
Proof.
  apply (reaches_step [_; _; _] _ {| page := changed; loads := 0; open := [SaveMember "u-1"] |}).
  - apply (reaches_step [_; _] _ (idle changed)); [|by eapply (step_submit _ (idle changed))].
    apply (reaches_step [_] _ (idle opened)); [apply opened_reached|]. apply (step_edited _ (idle opened)).
  - apply (step_answered _ _ {| page := changed; loads := 0; open := [SaveMember "u-1"] |} [] []). done.
Qed.

Lemma settings_run_sound_witness :
  let s := (finish (SaveMember "u-1") (Accepted bare_ann) changed).1 in
  members s = [bare_ann]
  /\ request (SaveMember "u-1") s = Some (send "PATCH" "team-members/u-1"
       [("display_name", JStr "Ann"); ("role", JStr "viewer"); ("account_status", JStr "active");
        ("device_access", strings [])]).
Proof.
  intros s. split; [reflexivity|].
  destruct (settings_run_sound _ _ saved_reached) as (_ & _ & _ & _ & H).
  { repeat constructor. }
  apply (H bare_ann). apply list_elem_of_singleton. reflexivity.
Defined.

Lemma settings_boxes_witness :
  checked opened admin "view_devices" = true
  /\ checked (handleTogglePermission admin "view_devices" opened) admin "view_devices" = false
  /\ granted (toggleMemberDevice "u-1" "d-2" opened) ann "d-1" = true
  /\ granted (toggleMemberDevice "u-1" "d-2" opened) ann "d-2" = true.
Proof.
  destruct (settings_boxes opened admin "view_devices" ann "d-2") as (_ & Hflip & _ & _ & _ & Hdev).
  destruct Hdev as [Hown _]; [vm_compute; eauto|].
  split; [reflexivity|]. split; [rewrite Hflip; reflexivity|].
  split; [apply (Hown "d-1")|apply (Hown "d-2")].
Defined.

Lemma settings_failures_witness :
  finish CreateMember (Refused (JObj [("error", JObj [("message", JStr "email taken")])])) opened
    = (opened, ToastError "email taken")
  /\ load_end {| rulesRes := Unreachable; policyRes := Accepted None; thresholdsRes := Accepted None;
                 matrixRes := Accepted None; membersRes := Accepted (None, None) |} opened = settled opened.
Proof.
  destruct (settings_failures CreateMember (Refused (JObj [("error", JObj [("message", JStr "email taken")])]))
    {| rulesRes := Unreachable; policyRes := Accepted None; thresholdsRes := Accepted None;
       matrixRes := Accepted None; membersRes := Accepted (None, None) |} opened) as (Hfail & _ & Hload).
  split; [|apply Hload; reflexivity].
  destruct Hfail as (text & E & _ & Htext); [reflexivity|]. rewrite E. f_equal. f_equal.
  apply (Htext [("error", JObj [("message", JStr "email taken")])]). reflexivity.
Defined.

(** A channel cannot be added by typing: the comma is gone as soon as it is
    typed. *)
Lemma comma_lost text r : channels_text (type_channels (text +:+ ",") r) = channels_text (type_channels text r).
Proof.
  unfold channels_text, type_channels, channels_of. cbn. rewrite split_app_sep, map_app, filter_app. cbn.
  by rewrite app_nil_r.
Qed.

(** A load that ends discards every unsaved edit, also of a row that is being
    edited. *)
Lemma load_discards_edits a s s' :
  loaded a s = Ok s' -> roleDrafts s' = permissions s' /\ memberDrafts s' = drafts_of (members s').
Proof.
  unfold loaded. destruct (requestJson (rulesRes a)); [|done]. destruct (requestJson (policyRes a)); [|done].
  destruct (requestJson (thresholdsRes a)); [|done]. destruct (requestJson (matrixRes a)); [|done].
  destruct (requestJson (membersRes a)); [|done]. by intros [= <-].
Qed.

Lemma poll_discards_typing :
  rule_draft (receive_rule low (type_channels "sms" (rule_row low <| rule_editing := true |>))) = low.
Proof. done. Qed.

(** A rule that is created while a load runs can be listed twice, and one
    that is deleted can come back. *)
Definition fresh : AlertRule := low <| rule_id := "r-2" |>.

Lemma created_twice :
  map rule_id (alertRules (finish CreateAlertRule (Accepted fresh) (load_end (answers [fresh; low] [ann]) opened)).1)
  = ["r-2"; "r-2"; "r-1"].
Proof. vm_compute. reflexivity. Qed.

Lemma deleted_returns :
  map rule_id (alertRules (load_end (answers [low] [ann]) (finish (DeleteAlertRule "r-1") (Accepted tt) opened).1))
  = ["r-1"].
Proof. vm_compute. reflexivity. Qed.

End SettingsDemo.
