(* ===== verification/Webhooks.v ===== *)
(** * The page of webhooks

    src/app/webhooks/components/WebhooksContent.tsx: endpoints with their
    signing secrets, the log of deliveries and the inbound events.  Three
    loads run independently of each other; an effect starts one again when
    the selection or a filter it depends on changes.  A handler sends one
    request and then awaits loads of its own; what it closes over (the
    selection and the filters of the render it belongs to) is kept with it,
    because a load that ends later still decides with them. *)

From S2P Require Import Prelude JsNumber JsString JsValue Http Session Tables Requests.

(** ** Data *)

Inductive WebhookStatus := active | paused | failing.
Inductive RetryPolicy := exponential | linear | none.
Inductive DeliveryStatus := pending | retrying | sent | dead_letter.

#[export] Instance WebhookStatus_eq_dec : EqDecision WebhookStatus.
Proof. solve_decision. Defined.
#[export] Instance DeliveryStatus_eq_dec : EqDecision DeliveryStatus.
Proof. solve_decision. Defined.

Definition retry_str (p : RetryPolicy) : string :=
  match p with exponential => "exponential" | linear => "linear" | none => "none" end.

Record WebhookEndpoint := {
  endpoint_id : string;
  endpoint_name : string;
  endpoint_url : string;
  endpoint_status : WebhookStatus;
  endpoint_events : list string;
  signing_algo : string;
  secret_masked : string;
  retry_policy : RetryPolicy;
  max_retries : num;
  timeout_ms : num;
  total_deliveries : num;
  success_count : num;
  failure_count : num;
  retrying_count : num;
  last_delivery : option string;
  last_status : option num;
  last_latency_ms : option num;
  endpoint_created : option string;
  endpoint_updated : option string;
  can_manage : bool;
  owner_email : option string;
}.

Record DeliveryLog := {
  delivery_id : string;
  delivery_endpoint : string;
  delivery_endpoint_name : option string;
  delivery_event : string;
  event_id : string;
  delivery_status : DeliveryStatus;
  attempt : num;
  max_attempts : num;
  next_attempt_at : option string;
  http_status : option num;
  latency_ms : option num;
  response_body : option string;
  last_error : option string;
  sent_at : option string;
  delivered_at : option string;
  delivery_created : option string;
  replayed_from : option string;
  delivery_payload : option obj;
  can_replay : bool;
}.

Record InboundEvent := {
  inbound_id : num;
  event_key : string;
  inbound_type : string;
  command_id : option string;
  received_at : option string;
  inbound_created : option string;
}.

Record EndpointDraft := {
  d_id : option string;
  d_name : string;
  d_url : string;
  d_events : list string;
  d_retry : RetryPolicy;
  d_max_retries : num;
  d_timeout : num;
}.

(** The payloads; a list the service leaves out is [None]. *)
Record EndpointsResponse := { r_endpoints : option (list WebhookEndpoint); event_catalog : option (list string) }.
Record InboundResponse := {
  r_events : option (list InboundEvent);
  last_24h : option num;
  event_breakdown : option (list (string * num));
}.
Definition DeliveriesResponse := option (list DeliveryLog).

Section Dates.
(** [new Date(text).getTime()] when it is a number, and [toLocaleString]. *)
Context (parse_date : string -> option Z) (toLocaleString : Z -> string).

Definition safeIsoLocal (input : option string) : string :=
  match input with
  | Some text => if truthy_str text then match parse_date text with Some t => toLocaleString t | None => text end else "—"
  | None => "—"
  end.
End Dates.

Definition renderSecret (masked : string) (plain : option string) : string := plain ?? masked.

(** ** The modal of an endpoint *)

Record Modal := {
  m_name : string;
  m_url : string;
  m_events : list string;
  retryPolicy : RetryPolicy;
  maxRetries : num;
  timeoutMs : num;
}.

#[export] Instance eta_modal : Eta Modal := fun m =>
  {| m_name := m_name m; m_url := m_url m; m_events := m_events m; retryPolicy := retryPolicy m;
     maxRetries := maxRetries m; timeoutMs := timeoutMs m |}.

Definition open_modal (initialValue : option EndpointDraft) : Modal :=
  match initialValue with
  | Some d => {| m_name := d_name d; m_url := d_url d; m_events := d_events d; retryPolicy := d_retry d;
                 maxRetries := d_max_retries d; timeoutMs := d_timeout d |}
  | None => {| m_name := ""; m_url := ""; m_events := []; retryPolicy := exponential;
               maxRetries := Num.of_Z 3; timeoutMs := Num.of_Z 5000 |}
  end.

(** What is typed and chosen in it. *)
Inductive Typing :=
| TypeName (v : string) | TypeUrl (v : string) | ChooseRetry (p : RetryPolicy)
| TypeRetries (v : string) | TypeTimeout (v : string) | ToggleEvent (v : string).

Definition typed (t : Typing) (m : Modal) : Modal :=
  match t with
  | TypeName v => m <| m_name := v |>
  | TypeUrl v => m <| m_url := v |>
  | ChooseRetry p => m <| retryPolicy := p |>
  | TypeRetries v => m <| maxRetries := number_of_string v |>
  | TypeTimeout v => m <| timeoutMs := number_of_string v |>
  | ToggleEvent v => m <| m_events := set_toggle v (m_events m) |>
  end.

(** [save]: what it hands to [onSubmit], if it does. *)
Definition save (m : Modal) : option EndpointDraft :=
  if negb (truthy_str (trim (m_name m))) || negb (truthy_str (trim (m_url m))) then None
  else match m_events m with
  | [] => None
  | _ => Some {| d_id := None; d_name := trim (m_name m); d_url := trim (m_url m); d_events := m_events m;
                 d_retry := retryPolicy m;
                 d_max_retries := Num.max Num.zero (Num.min (maxRetries m) (Num.of_Z 10));
                 d_timeout := Num.max (Num.of_Z 500) (Num.min (timeoutMs m) (Num.of_Z 30000)) |}
  end.

(** ** The page *)

Record State := {
  endpoints : list WebhookEndpoint;
  deliveries : list DeliveryLog;
  inboundEvents : list InboundEvent;
  inboundEventBreakdown : list (string * num);
  inboundLast24h : num;
  eventCatalog : list string;
  loadingEndpoints : bool;
  loadingDeliveries : bool;
  loadingInbound : bool;
  selectedEndpointId : option string;
  expandedDeliveryId : option string;
  revealedSecrets : list (string * string);
  createModal : option Modal;
  editModal : option (EndpointDraft * Modal);
  deliveryFilterEndpointId : string;
  deliveryFilterStatus : string;
  deliveryFilterEventType : string;
  inboundFilterEventType : string;
}.

#[export] Instance eta_webhooks : Eta State := fun s =>
  {| endpoints := endpoints s; deliveries := deliveries s; inboundEvents := inboundEvents s;
     inboundEventBreakdown := inboundEventBreakdown s; inboundLast24h := inboundLast24h s;
     eventCatalog := eventCatalog s; loadingEndpoints := loadingEndpoints s;
     loadingDeliveries := loadingDeliveries s; loadingInbound := loadingInbound s;
     selectedEndpointId := selectedEndpointId s; expandedDeliveryId := expandedDeliveryId s;
     revealedSecrets := revealedSecrets s; createModal := createModal s; editModal := editModal s;
     deliveryFilterEndpointId := deliveryFilterEndpointId s; deliveryFilterStatus := deliveryFilterStatus s;
     deliveryFilterEventType := deliveryFilterEventType s; inboundFilterEventType := inboundFilterEventType s |}.

Definition init : State :=
  {| endpoints := []; deliveries := []; inboundEvents := []; inboundEventBreakdown := [];
     inboundLast24h := Num.zero; eventCatalog := []; loadingEndpoints := false; loadingDeliveries := false;
     loadingInbound := false; selectedEndpointId := None; expandedDeliveryId := None; revealedSecrets := [];
     createModal := None; editModal := None; deliveryFilterEndpointId := ""; deliveryFilterStatus := "";
     deliveryFilterEventType := ""; inboundFilterEventType := "" |}.

Definition selectedEndpoint (s : State) : option WebhookEndpoint :=
  id ← selectedEndpointId s; List.find (fun e => endpoint_id e === id) (endpoints s).

Definition endpointDeliveries (s : State) : list DeliveryLog :=
  match selectedEndpoint s with
  | Some e => List.filter (fun d => delivery_endpoint d === endpoint_id e) (deliveries s)
  | None => []
  end.

Definition isBusy (s : State) : bool := loadingEndpoints s || loadingDeliveries s || loadingInbound s.

Record Health := {
  activeEndpoints : nat;
  failingEndpoints : nat;
  sentDeliveries : nat;
  failedDeliveries : nat;
  avgLatencyMs : num;
}.

(** The latencies of the latest fifty deliveries that arrived and have one. *)
Definition latencies (s : State) : list num :=
  map (fun d => latency_ms d ?? Num.zero)
    (take 50 (List.filter (fun d => bool_decide (is_Some (latency_ms d)) && bool_decide (delivery_status d = sent))
                (deliveries s))).

Definition health (s : State) : Health :=
  let endpoints_in st := length (List.filter (fun e => bool_decide (endpoint_status e = st)) (endpoints s)) in
  let deliveries_in st := length (List.filter (fun d => bool_decide (delivery_status d = st)) (deliveries s)) in
  {| activeEndpoints := endpoints_in active; failingEndpoints := endpoints_in failing;
     sentDeliveries := deliveries_in sent; failedDeliveries := deliveries_in dead_letter;
     avgLatencyMs :=
       match latencies s with
       | [] => Num.zero
       | l => Num.round (Num.div (fold_left Num.add l Num.zero) (Num.of_nat (length l)))
       end |}.

(** *** Loads *)

(** What a callback of one render closes over. *)
Record Closure := {
  c_selected : option string;
  c_endpoint : string;
  c_status : string;
  c_event : string;
  c_inbound : string;
}.

Definition closure_of (s : State) : Closure :=
  {| c_selected := selectedEndpointId s; c_endpoint := deliveryFilterEndpointId s;
     c_status := deliveryFilterStatus s; c_event := deliveryFilterEventType s;
     c_inbound := inboundFilterEventType s |}.

(** [params.set(k, v)] under its condition, and the URL. *)
Definition param (k v : string) : list (string * string) := if truthy_str v then [(k, v)] else [].
Definition with_query (path : string) (params : list (string * string)) : string :=
  path +:+ "?" +:+ join "&" (map (fun kv => form_encode kv.1 +:+ "=" +:+ form_encode kv.2) params).

Definition endpoints_request : FetchRequest := route_request "GET" "/api/webhooks/endpoints" None.
Definition deliveries_request (c : Closure) : FetchRequest :=
  route_request "GET" (with_query "/api/webhooks/deliveries"
    (param "endpoint_id" (c_endpoint c) ++ param "status" (c_status c) ++ param "event_type" (c_event c)
     ++ [("limit", "300")])) None.
Definition inbound_request (c : Closure) : FetchRequest :=
  route_request "GET" (with_query "/api/webhooks/inbound" (param "event_type" (c_inbound c) ++ [("limit", "300")])) None.

Inductive Toast := ToastSuccess (text : string) | ToastError (text : string).

Definition requestJson {A} (r : Response A) : res A := request_json plain_refusal r.

(** The selection after an answer; the lists were set before it is decided,
    and a missing list ends it with an exception. *)
Definition reselect (c : Closure) (answered : option (list WebhookEndpoint)) (selected : option string) : res (option string) :=
  let chosen := match c_selected c with Some id => truthy_str id | None => false end in
  match answered with
  | None => Exn "Cannot read properties of undefined"
  | Some l =>
      let first := endpoint_id <$> head l in
      if negb chosen then Ok (match l with [] => selected | _ => first end)
      else if existsb (fun e => bool_decide (Some (endpoint_id e) = c_selected c)) l then Ok selected
      else Ok first
  end.

Definition endpoints_end (c : Closure) (r : Response EndpointsResponse) (s : State) : State * list Toast :=
  let s := s <| loadingEndpoints := false |> in
  match requestJson r with
  | Exn text => (s, [ToastError text])
  | Ok payload =>
      let s := s <| endpoints := r_endpoints payload ?? [] |> <| eventCatalog := event_catalog payload ?? [] |> in
      match reselect c (r_endpoints payload) (selectedEndpointId s) with
      | Ok selected => (s <| selectedEndpointId := selected |>, [])
      | Exn text => (s, [ToastError text])
      end
  end.

Definition deliveries_end (r : Response DeliveriesResponse) (s : State) : State * list Toast :=
  let s := s <| loadingDeliveries := false |> in
  match requestJson r with
  | Exn text => (s, [ToastError text])
  | Ok payload => (s <| deliveries := payload ?? [] |>, [])
  end.

Definition inbound_end (r : Response InboundResponse) (s : State) : State * list Toast :=
  let s := s <| loadingInbound := false |> in
  match requestJson r with
  | Exn text => (s, [ToastError text])
  | Ok payload =>
      (s <| inboundEvents := r_events payload ?? [] |> <| inboundEventBreakdown := event_breakdown payload ?? [] |>
         <| inboundLast24h := last_24h payload ?? Num.zero |>, [])
  end.

(** *** Handlers *)

(** A call of a handler that sends a request, with the item its button
    belongs to. *)
Inductive Action :=
| CreateEndpoint (draft : EndpointDraft)
| UpdateEndpoint (id : string) (draft : EndpointDraft)
| DeleteEndpoint (e : WebhookEndpoint)
| ToggleEndpoint (e : WebhookEndpoint)
| TestEndpoint (e : WebhookEndpoint)
| RevealSecret (e : WebhookEndpoint)
| RotateSecret (e : WebhookEndpoint)
| ReplayDelivery (d : DeliveryLog).

(** What the code reads of the answer: the created endpoint and its secret,
    or a secret. *)
Definition payload_of (a : Action) : Type :=
  match a with
  | CreateEndpoint _ => (WebhookEndpoint * string)%type
  | RevealSecret _ | RotateSecret _ => string
  | _ => unit
  end.

Definition draft_object (d : EndpointDraft) : obj :=
  [("name", JStr (d_name d)); ("url", JStr (d_url d)); ("events", JArr (map JStr (d_events d)));
   ("retry_policy", JStr (retry_str (d_retry d))); ("max_retries", JNum (d_max_retries d));
   ("timeout_ms", JNum (d_timeout d))].

Definition endpoint_path (id : string) : string := "/api/webhooks/endpoints/" +:+ encodeURIComponent id.
Definition toggle_action (e : WebhookEndpoint) : string :=
  match endpoint_status e with paused => "resume" | _ => "pause" end.
Definition test_event (s : State) (e : WebhookEndpoint) : string :=
  head (endpoint_events e) ?? (head (eventCatalog s) ?? "command.completed").
Definition send (method url : string) (body : obj) : FetchRequest := route_request method url (Some (json_text body)).

Definition action_request (s : State) (a : Action) : FetchRequest :=
  match a with
  | CreateEndpoint draft => send "POST" "/api/webhooks/endpoints" (draft_object draft)
  | UpdateEndpoint id draft => send "PATCH" (endpoint_path id) (draft_object draft)
  | DeleteEndpoint e => send "DELETE" (endpoint_path (endpoint_id e)) []
  | ToggleEndpoint e => send "POST" (endpoint_path (endpoint_id e) +:+ "/" +:+ toggle_action e) []
  | TestEndpoint e =>
      send "POST" (endpoint_path (endpoint_id e) +:+ "/test")
        [("event_type", JStr (test_event s e));
         ("data", JObj [("source", JStr "webhooks_ui"); ("endpoint_name", JStr (endpoint_name e))])]
  | RevealSecret e => route_request "GET" (endpoint_path (endpoint_id e) +:+ "/reveal-secret") None
  | RotateSecret e => send "POST" (endpoint_path (endpoint_id e) +:+ "/rotate-secret") []
  | ReplayDelivery d => send "POST" ("/api/webhooks/deliveries/" +:+ encodeURIComponent (delivery_id d) +:+ "/replay") []
  end.

Definition reveal (id secret : string) (s : State) : State := s <| revealedSecrets := put (revealedSecrets s) id secret |>.
Definition hide (id : string) (s : State) : State := s <| revealedSecrets := remove (revealedSecrets s) id |>.

(** What a handler does with an accepted answer before it loads again. *)
Definition performed (a : Action) (s : State) : payload_of a -> State :=
  match a with
  | CreateEndpoint _ => fun p => reveal (endpoint_id p.1) p.2 s <| createModal := None |>
  | UpdateEndpoint _ _ => fun _ => s <| editModal := None |>
  | DeleteEndpoint e => fun _ => hide (endpoint_id e) s
  | RevealSecret e | RotateSecret e => fun secret => reveal (endpoint_id e) secret s
  | _ => fun _ => s
  end.

Definition report (a : Action) : list Toast :=
  match a with
  | CreateEndpoint _ => [ToastSuccess "Webhook endpoint created"]
  | UpdateEndpoint _ _ => [ToastSuccess "Webhook endpoint updated"]
  | DeleteEndpoint _ => [ToastSuccess "Webhook endpoint deleted"]
  | ToggleEndpoint e => [ToastSuccess ("Endpoint " +:+ (if toggle_action e === "pause" then "paused" else "resumed"))]
  | TestEndpoint _ => [ToastSuccess "Test delivery queued"]
  | RevealSecret _ => []
  | RotateSecret _ => [ToastSuccess "Signing secret rotated"]
  | ReplayDelivery _ => [ToastSuccess "Replay queued"]
  end.

(** The loads a handler awaits after that. *)
Inductive Load := Endpoints | Deliveries | Inbound.

Definition refreshAll : list Load := [Endpoints; Deliveries; Inbound].

Definition reloads (a : Action) : list Load :=
  match a with
  | CreateEndpoint _ | UpdateEndpoint _ _ | DeleteEndpoint _ | ToggleEndpoint _ => refreshAll
  | TestEndpoint _ | ReplayDelivery _ => [Deliveries]
  | RotateSecret _ => [Endpoints]
  | RevealSecret _ => []
  end.

(** Creating an endpoint selects it once its loads have ended. *)
Definition selects (a : Action) : payload_of a -> option string :=
  match a with CreateEndpoint _ => fun p => Some (endpoint_id p.1) | _ => fun _ => None end.

(** *** Clicks *)

Inductive Click :=
| Select (i : nat) | Expand (i : nat)
| FilterEndpoint (v : string) | FilterStatus (v : string) | FilterEvent (v : string) | FilterInbound (v : string)
| OpenCreate | CloseCreate | TypeCreate (t : Typing)
| OpenEdit | CloseEdit | TypeEdit (t : Typing)
| Hide.

(** A click on an item of a list toggles it. *)
Definition toggle_id (id : string) (current : option string) : option string :=
  if bool_decide (current = Some id) then None else Some id.

Definition draft_of (e : WebhookEndpoint) : EndpointDraft :=
  {| d_id := Some (endpoint_id e); d_name := endpoint_name e; d_url := endpoint_url e;
     d_events := endpoint_events e; d_retry := retry_policy e; d_max_retries := max_retries e;
     d_timeout := timeout_ms e |}.

(** The selected endpoint if its buttons are enabled. *)
Definition managed (s : State) : option WebhookEndpoint :=
  e ← selectedEndpoint s; if can_manage e then Some e else None.

Definition revealed (s : State) (e : WebhookEndpoint) : bool :=
  match own_get (revealedSecrets s) (endpoint_id e) with Some secret => truthy_str secret | None => false end.

(** What a click changes on the page; rows are named by their position. *)
Definition click (k : Click) (s : State) : State :=
  match k with
  | Select i =>
      match endpoints s !! i with
      | Some e => s <| selectedEndpointId := toggle_id (endpoint_id e) (selectedEndpointId s) |>
      | None => s
      end
  | Expand i =>
      match deliveries s !! i with
      | Some d => s <| expandedDeliveryId := toggle_id (delivery_id d) (expandedDeliveryId s) |>
      | None => s
      end
  | FilterEndpoint v => s <| deliveryFilterEndpointId := v |>
  | FilterStatus v => s <| deliveryFilterStatus := v |>
  | FilterEvent v => s <| deliveryFilterEventType := v |>
  | FilterInbound v => s <| inboundFilterEventType := v |>
  | OpenCreate => match createModal s with Some _ => s | None => s <| createModal := Some (open_modal None) |> end
  | CloseCreate => s <| createModal := None |>
  | TypeCreate t => s <| createModal := typed t <$> createModal s |>
  | OpenEdit =>
      match managed s with
      | None => s
      | Some e => s <| editModal := Some (draft_of e, match editModal s with
                                                       | Some (_, m) => m
                                                       | None => open_modal (Some (draft_of e))
                                                       end) |>
      end
  | CloseEdit => s <| editModal := None |>
  | TypeEdit t => s <| editModal := (fun dm => (dm.1, typed t dm.2)) <$> editModal s |>
  | Hide => match managed s with
            | Some e => if revealed s e then hide (endpoint_id e) s else s
            | None => s
            end
  end.

(** The buttons that send: which call each makes, if it is enabled. *)
Inductive Button :=
| CreateButton | UpdateButton | DeleteButton | ToggleButton | TestButton | RevealButton | RotateButton
| ReplayButton (i : nat).

Definition press (b : Button) (s : State) : option Action :=
  match b with
  | CreateButton => m ← createModal s; CreateEndpoint <$> save m
  | UpdateButton => dm ← editModal s; UpdateEndpoint (d_id dm.1 ?? "") <$> save dm.2
  | DeleteButton => DeleteEndpoint <$> managed s
  | ToggleButton => ToggleEndpoint <$> managed s
  | TestButton => TestEndpoint <$> managed s
  | RevealButton => e ← managed s; if revealed s e then None else Some (RevealSecret e)
  | RotateButton => RotateSecret <$> managed s
  | ReplayButton i =>
      d ← deliveries s !! i;
      if bool_decide (delivery_status d = dead_letter) && can_replay d then Some (ReplayDelivery d) else None
  end.

(** *** Runs *)

(** A request under way, with what its callback closes over. *)
Inductive Task := Loading (l : Load) (c : Closure) | Doing (a : Action) (c : Closure).

(** [joins]: a creation whose loads are under way, and what it selects then. *)
Record Run := {
  page : State;
  tasks : list (nat * Task);
  next : nat;
  joins : list (list nat * string);
}.

#[export] Instance eta_run : Eta Run := fun w =>
  {| page := page w; tasks := tasks w; next := next w; joins := joins w |}.

Definition begin (t : Task) (w : Run) : Run := w <| tasks := tasks w ++ [(next w, t)] |> <| next := S (next w) |>.

Definition load_flag (l : Load) (s : State) : State :=
  match l with
  | Endpoints => s <| loadingEndpoints := true |>
  | Deliveries => s <| loadingDeliveries := true |>
  | Inbound => s <| loadingInbound := true |>
  end.

Definition load (c : Closure) (w : Run) (l : Load) : Run :=
  begin (Loading l c) (w <| page := load_flag l (page w) |>).

(** After a render the effects whose dependencies changed start their loads. *)
Definition effects (old : State) (w : Run) : Run :=
  let c := closure_of (page w) in
  let o := closure_of old in
  let w := if decide (c_selected o = c_selected c) then w else load c w Endpoints in
  let w := if decide (c_endpoint o = c_endpoint c /\ c_status o = c_status c /\ c_event o = c_event c)
           then w else load c w Deliveries in
  if decide (c_inbound o = c_inbound c) then w else load c w Inbound.

Definition update (f : State -> State) (w : Run) : Run := effects (page w) (w <| page := f (page w) |>).

Definition finished (n : nat) (w : Run) : Run :=
  w <| tasks := List.filter (fun t => negb (Nat.eqb t.1 n)) (tasks w) |>.

(** A load that ended wakes the creations that awaited it. *)
Definition notify (n : nat) (w : Run) : Run :=
  let left := map (fun j => (List.filter (fun k => negb (Nat.eqb k n)) j.1, j.2)) (joins w) in
  let ready j := match j.1 with [] => true | _ => false end in
  let w := w <| joins := List.filter (fun j => negb (ready j)) left |> in
  match head (rev (List.filter ready left)) with
  | Some j => update (fun s => s <| selectedEndpointId := Some j.2 |>) w
  | None => w
  end.

Inductive Event :=
| Clicked (k : Click)
| Pressed (b : Button)
| Refreshed (ls : list Load)
| EndpointsAnswered (n : nat) (r : Response EndpointsResponse)
| DeliveriesAnswered (n : nat) (r : Response DeliveriesResponse)
| InboundAnswered (n : nat) (r : Response InboundResponse)
| ActionAnswered (n : nat) (a : Action) (r : Response (payload_of a)).

(** A handler after its response.  A rejection is nobody's: the handlers have
    no [catch]. *)
Definition action_end (n : nat) (a : Action) (c : Closure) (r : Response (payload_of a)) (w : Run) : Run * list Toast :=
  let w := finished n w in
  match requestJson r with
  | Exn _ => (w, [])
  | Ok p =>
      let w' := update (fun s => performed a s p) w in
      let ids := seq (next w') (length (reloads a)) in
      let w'' := fold_left (load c) (reloads a) w' in
      (match selects a p with Some id => w'' <| joins := joins w'' ++ [(ids, id)] |> | None => w'' end, report a)
  end.

Inductive step : Run -> Event -> Run -> Prop :=
| step_click k w : step w (Clicked k) (update (click k) w)
| step_press b a w : press b (page w) = Some a -> step w (Pressed b) (begin (Doing a (closure_of (page w))) w)
| step_refresh ls w : step w (Refreshed ls) (fold_left (load (closure_of (page w))) ls w)
| step_endpoints n c r w : (n, Loading Endpoints c) ∈ tasks w ->
    step w (EndpointsAnswered n r) (notify n (update (fun s => (endpoints_end c r s).1) (finished n w)))
| step_deliveries n c r w : (n, Loading Deliveries c) ∈ tasks w ->
    step w (DeliveriesAnswered n r) (notify n (update (fun s => (deliveries_end r s).1) (finished n w)))
| step_inbound n c r w : (n, Loading Inbound c) ∈ tasks w ->
    step w (InboundAnswered n r) (notify n (update (fun s => (inbound_end r s).1) (finished n w)))
| step_action n a c r w : (n, Doing a c) ∈ tasks w ->
    step w (ActionAnswered n a r) (action_end n a c r w).1.

(** The page begins with the three loads of its effects. *)
Definition start : Run :=
  fold_left (load (closure_of init)) refreshAll {| page := init; tasks := []; next := 0; joins := [] |}.

Inductive reaches : list Event -> Run -> Prop :=
| reaches_start : reaches [] start
| reaches_step es e w w' : reaches es w -> step w e w' -> reaches (es ++ [e]) w'.
