(* ===== verification/WebhooksLaws.v ===== *)
(** * What the page of webhooks guarantees

    Whatever is clicked and whenever answers come: only enabled buttons send,
    an endpoint is sent within its bounds, and a secret is shown only for the
    endpoint it was disclosed for.  Which endpoint is selected after a load,
    and what a failure leaves, is stated for the load and the handlers. *)

From S2P Require Import Prelude JsNumber JsString JsValue Http Tables Requests Webhooks.

(** ** What the service said so far *)

Definition offered_by (e : Event) : list WebhookEndpoint :=
  match e with EndpointsAnswered _ (Accepted p) => r_endpoints p ?? [] | _ => [] end.
Definition delivered_by (e : Event) : list DeliveryLog :=
  match e with DeliveriesAnswered _ (Accepted p) => p ?? [] | _ => [] end.
Definition disclosed (a : Action) : payload_of a -> list (string * string) :=
  match a with
  | CreateEndpoint _ => fun p => [(endpoint_id p.1, p.2)]
  | RevealSecret e | RotateSecret e => fun secret => [(endpoint_id e, secret)]
  | _ => fun _ => []
  end.
Definition disclosed_by (e : Event) : list (string * string) :=
  match e with ActionAnswered _ a (Accepted p) => disclosed a p | _ => [] end.

(** All it said in a run. *)
Definition said {A} (by_event : Event -> list A) (es : list Event) (x : A) : Prop :=
  exists e, e ∈ es /\ x ∈ by_event e.

Lemma said_app {A} (f : Event -> list A) es e x : said f es x -> said f (es ++ [e]) x.
Proof. intros (y & Hy & Hx). exists y. rewrite elem_of_app. auto. Qed.

Lemma said_last {A} (f : Event -> list A) es e x : x ∈ f e -> said f (es ++ [e]) x.
Proof. intros Hx. exists e. rewrite elem_of_app, list_elem_of_singleton. auto. Qed.

(** ** Permitted calls *)

Definition draft_ok (d : EndpointDraft) : Prop :=
  tidy (d_name d) /\ tidy (d_url d) /\ d_events d <> []
  /\ Num.within Num.zero (Num.of_Z 10) (d_max_retries d) = true
  /\ Num.within (Num.of_Z 500) (Num.of_Z 30000) (d_timeout d) = true.

Definition permitted (es : list Event) (a : Action) : Prop :=
  match a with
  | CreateEndpoint d => draft_ok d
  | UpdateEndpoint id d =>
      draft_ok d /\ exists e, said offered_by es e /\ can_manage e = true /\ endpoint_id e = id
  | DeleteEndpoint e | ToggleEndpoint e | TestEndpoint e | RevealSecret e | RotateSecret e =>
      said offered_by es e /\ can_manage e = true
  | ReplayDelivery d => said delivered_by es d /\ delivery_status d = dead_letter /\ can_replay d = true
  end.

Lemma permitted_app es e a : permitted es a -> permitted (es ++ [e]) a.
Proof.
  destruct a; cbn; try done; try (intros [H1 H2]; split; [by apply said_app|done]).
  intros (Hd & x & Hx & H). split; [done|]. exists x. split; [by apply said_app|done].
Qed.

(** The platform and the service: a number field holds the text of a number,
    and numbers come from JSON. *)
Definition typing_ok (t : Typing) : Prop :=
  match t with TypeRetries v | TypeTimeout v => Num.is_nan (number_of_string v) = false | _ => True end.
Definition endpoint_ok (e : WebhookEndpoint) : Prop :=
  Num.is_nan (max_retries e) = false /\ Num.is_nan (timeout_ms e) = false.
Definition proper (e : Event) : Prop :=
  match e with
  | Clicked (TypeCreate t) | Clicked (TypeEdit t) => typing_ok t
  | EndpointsAnswered _ (Accepted p) => List.Forall endpoint_ok (r_endpoints p ?? [])
  | _ => True
  end.

Definition modal_ok (m : Modal) : Prop := Num.is_nan (maxRetries m) = false /\ Num.is_nan (timeoutMs m) = false.

Lemma typed_ok t m : typing_ok t -> modal_ok m -> modal_ok (typed t m).
Proof. by destruct t; intros ? []. Qed.

Lemma save_ok m d : modal_ok m -> save m = Some d -> draft_ok d.
Proof.
  intros [Hr Ht]. unfold save.
  destruct (truthy_str (trim (m_name m))) eqn:En; [|done].
  destruct (truthy_str (trim (m_url m))) eqn:Eu; [|done]. cbn.
  destruct (m_events m) eqn:Ee; [done|]. intros [= <-]. split_and!; cbn.
  - by apply tidy_trim.
  - by apply tidy_trim.
  - done.
  - by apply Num.max_min_within.
  - by apply Num.max_min_within.
Qed.

(** ** The invariant *)

Record page_ok (es : list Event) (s : State) : Prop := {
  ok_endpoints e : e ∈ endpoints s -> said offered_by es e /\ endpoint_ok e;
  ok_deliveries d : d ∈ deliveries s -> said delivered_by es d;
  ok_secrets id secret : own_get (revealedSecrets s) id = Some secret -> said disclosed_by es (id, secret);
  ok_create m : createModal s = Some m -> modal_ok m;
  ok_edit d m : editModal s = Some (d, m) ->
    modal_ok m /\ exists e, said offered_by es e /\ can_manage e = true /\ d_id d = Some (endpoint_id e);
}.

Record run_ok (es : list Event) (w : Run) : Prop := {
  ok_page : page_ok es (page w);
  ok_tasks n a c : (n, Doing a c) ∈ tasks w -> permitted es a;
}.

Lemma page_ok_app es e s : page_ok es s -> page_ok (es ++ [e]) s.
Proof.
  intros H. split.
  - intros x [Hx Hn]%(ok_endpoints _ _ H). split; [by apply said_app|done].
  - intros d Hd%(ok_deliveries _ _ H). by apply said_app.
  - intros id secret Hs%(ok_secrets _ _ H). by apply said_app.
  - apply H.
  - intros d m (Hm & x & Hx & Hrest)%(ok_edit _ _ H). split; [done|]. exists x. split; [by apply said_app|done].
Qed.

Lemma run_ok_app es e w : run_ok es w -> run_ok (es ++ [e]) w.
Proof.
  intros [Hp Ht]. split; [by apply page_ok_app|]. intros n a c Hin. eapply permitted_app, Ht, Hin.
Qed.

(** What the selection, the flags and the filters are does not matter. *)
Lemma page_ok_same es s s' :
  endpoints s' = endpoints s -> deliveries s' = deliveries s -> revealedSecrets s' = revealedSecrets s ->
  createModal s' = createModal s -> editModal s' = editModal s ->
  page_ok es s -> page_ok es s'.
Proof. intros He Hd Hs Hc Hm H. split; rewrite ?He, ?Hd, ?Hs, ?Hc, ?Hm; apply H. Qed.

Lemma load_ok es c w l : run_ok es w -> run_ok es (load c w l).
Proof.
  intros [Hp Ht]. split.
  - by destruct l; apply (page_ok_same _ (page w)).
  - intros n a c'. cbn. rewrite elem_of_app, list_elem_of_singleton. intros [Hin|[=]]. by eapply Ht.
Qed.

Lemma loads_ok es c ls w : run_ok es w -> run_ok es (fold_left (load c) ls w).
Proof. revert w. induction ls as [|l ls IH]; intros w Hw; [done|]. by apply IH, load_ok. Qed.

Lemma effects_ok es old w : run_ok es w -> run_ok es (effects old w).
Proof. intros H. unfold effects. repeat case_decide; repeat apply load_ok; done. Qed.

Lemma update_ok es f w : run_ok es w -> page_ok es (f (page w)) -> run_ok es (update f w).
Proof. intros [Hp Ht] Hf. apply effects_ok. split; [done|]. exact Ht. Qed.

Lemma finished_ok es n w : run_ok es w -> run_ok es (finished n w).
Proof.
  intros [Hp Ht]. split; [done|]. intros k a c. cbn. rewrite list_elem_of_In, filter_In, <- list_elem_of_In.
  intros [Hin _]. by eapply Ht.
Qed.

Lemma notify_ok es n w : run_ok es w -> run_ok es (notify n w).
Proof.
  intros H. unfold notify. destruct (head _).
  - apply update_ok; [by destruct H; split|]. apply (page_ok_same _ (page w)); try done. apply H.
  - by destruct H; split.
Qed.

Lemma selected_listed s e : selectedEndpoint s = Some e -> e ∈ endpoints s.
Proof.
  unfold selectedEndpoint. destruct (selectedEndpointId s); [|done]. cbn. intros [H _]%find_some.
  by apply list_elem_of_In.
Qed.

Lemma managed_ok es s e : page_ok es s -> managed s = Some e -> said offered_by es e /\ can_manage e = true /\ endpoint_ok e.
Proof.
  intros H. unfold managed. destruct (selectedEndpoint s) as [x|] eqn:E; [|done]. cbn.
  destruct (can_manage x) eqn:Em; [|done]. intros [= <-].
  apply selected_listed, (ok_endpoints _ _ H) in E as [He Hn]. done.
Qed.

Lemma hide_ok es id s : page_ok es s -> page_ok es (hide id s).
Proof.
  intros H. destruct H as [He Hd Hs Hc Hm]. split; cbn; try done.
  intros id' secret Hget. apply Hs. destruct (decide (id' = id)) as [->|Hne].
  - by rewrite own_get_remove_eq in Hget.
  - by rewrite own_get_remove_ne in Hget.
Qed.

Lemma reveal_ok es id secret s : page_ok es s -> said disclosed_by es (id, secret) -> page_ok es (reveal id secret s).
Proof.
  intros [He Hd Hs Hc Hm] Hsaid. split; cbn; try done.
  intros id' secret'. destruct (decide (id' = id)) as [->|Hne].
  - rewrite own_get_put_eq. by intros [= <-].
  - rewrite own_get_put_ne by done. apply Hs.
Qed.

Lemma create_ok es s o : (forall m, o = Some m -> modal_ok m) -> page_ok es s -> page_ok es (s <| createModal := o |>).
Proof. intros Ho [He Hd Hs Hc Hm]. by split. Qed.

Lemma edit_ok es s o :
  (forall d m, o = Some (d, m) ->
     modal_ok m /\ exists e, said offered_by es e /\ can_manage e = true /\ d_id d = Some (endpoint_id e)) ->
  page_ok es s -> page_ok es (s <| editModal := o |>).
Proof. intros Ho [He Hd Hs Hc Hm]. by split. Qed.

Lemma open_edit_ok es s e :
  page_ok es s -> managed s = Some e ->
  forall d m, Some (draft_of e, match editModal s with Some (_, m) => m | None => open_modal (Some (draft_of e)) end) = Some (d, m) ->
  modal_ok m /\ exists e, said offered_by es e /\ can_manage e = true /\ d_id d = Some (endpoint_id e).
Proof.
  intros H Em d m [= <- <-]. destruct (managed_ok _ _ _ H Em) as (He & Hm & Hn). split; [|eauto].
  destruct (editModal s) as [[d m]|] eqn:Ed; [by destruct (ok_edit _ _ H _ _ Ed)|done].
Qed.

Lemma clicked_ok es k s : proper (Clicked k) -> page_ok es s -> page_ok es (click k s).
Proof.
  intros Hk H. destruct k as [i|i|v|v|v|v| | |t| | |t|]; cbn;
    try (by apply (page_ok_same _ s)).
  - destruct (endpoints s !! i); [by apply (page_ok_same _ s)|done].
  - destruct (deliveries s !! i); [by apply (page_ok_same _ s)|done].
  - destruct (createModal s) eqn:E; [done|]. apply create_ok; [|done]. by intros m [= <-].
  - by apply create_ok.
  - apply create_ok; [|done]. intros m. destruct (createModal s) as [m'|] eqn:E; [|done]. intros [= <-].
    by apply typed_ok, (ok_create _ _ H).
  - destruct (managed s) eqn:E; [|done]. apply edit_ok; [|done]. by apply open_edit_ok.
  - by apply edit_ok.
  - apply edit_ok; [|done]. intros d m. destruct (editModal s) as [[d' m']|] eqn:E; [|done]. intros [= <- <-].
    destruct (ok_edit _ _ H _ _ E) as [Hm Hx]. split; [by apply typed_ok|done].
  - destruct (managed s) as [e|] eqn:E; [|done]. destruct (revealed s e); [by apply hide_ok|done].
Qed.

Lemma press_ok es b s a : page_ok es s -> press b s = Some a -> permitted es a.
Proof.
  intros H. destruct b as [| | | | | | |i]; cbn.
  - destruct (createModal s) as [m|] eqn:E; [|done]. cbn. destruct (save m) as [d|] eqn:Es; [|done].
    intros [= <-]. eapply save_ok; [|done]. by eapply ok_create.
  - destruct (editModal s) as [[x m]|] eqn:E; [|done]. cbn. destruct (save m) as [d|] eqn:Es; [|done].
    intros [= <-]. destruct (ok_edit _ _ H _ _ E) as [Hm (e & He & Hc & Hid)]. split; [by eapply save_ok|].
    exists e. split_and!; try done. by rewrite Hid.
  - destruct (managed s) as [e|] eqn:E; [|done]. intros [= <-]. split; eapply managed_ok; done.
  - destruct (managed s) as [e|] eqn:E; [|done]. intros [= <-]. split; eapply managed_ok; done.
  - destruct (managed s) as [e|] eqn:E; [|done]. intros [= <-]. split; eapply managed_ok; done.
  - destruct (managed s) as [e|] eqn:E; [|done]. cbn. destruct (revealed s e); [done|]. intros [= <-].
    split; eapply managed_ok; done.
  - destruct (managed s) as [e|] eqn:E; [|done]. intros [= <-]. split; eapply managed_ok; done.
  - destruct (deliveries s !! i) as [d|] eqn:E; [|done]. cbn. case_bool_decide as Hd; [|done].
    destruct (can_replay d) eqn:Er; [|done]. intros [= <-]. split_and!; try done.
    by eapply (ok_deliveries _ _ H), list_elem_of_lookup_2.
Qed.

Lemma endpoints_end_ok es n c r s :
  proper (EndpointsAnswered n r) -> page_ok es s ->
  page_ok (es ++ [EndpointsAnswered n r]) (endpoints_end c r s).1.
Proof.
  intros Hr H. apply (page_ok_app _ (EndpointsAnswered n r)) in H. unfold endpoints_end.
  destruct (requestJson r) as [p|] eqn:E; [|by apply (page_ok_same _ s)].
  apply request_json_ok in E as ->. cbn in Hr.
  assert (forall e, e ∈ r_endpoints p ?? [] ->
    said offered_by (es ++ [EndpointsAnswered n (Accepted p)]) e /\ endpoint_ok e) as Hnew.
  { intros e He. split; [by apply said_last|]. rewrite List.Forall_forall in Hr. by apply Hr, list_elem_of_In. }
  destruct H as [He Hd Hs Hc Hm]. destruct (reselect _ _ _); split; done.
Qed.

Lemma deliveries_end_ok es n r s :
  page_ok es s -> page_ok (es ++ [DeliveriesAnswered n r]) (deliveries_end r s).1.
Proof.
  intros H. apply (page_ok_app _ (DeliveriesAnswered n r)) in H. unfold deliveries_end.
  destruct (requestJson r) as [p|] eqn:E; [|by apply (page_ok_same _ s)].
  apply request_json_ok in E as ->. destruct H as [He Hd Hs Hc Hm]. split; try done.
  intros d Hin. by apply said_last.
Qed.

Lemma inbound_end_ok es r s : page_ok es s -> page_ok es (inbound_end r s).1.
Proof. intros H. unfold inbound_end. by destruct (requestJson r); apply (page_ok_same _ s). Qed.

Lemma performed_ok es n a p s :
  page_ok es s -> page_ok (es ++ [ActionAnswered n a (Accepted p)]) (performed a s p).
Proof.
  intros H. apply (page_ok_app _ (ActionAnswered n a (Accepted p))) in H.
  destruct a; unfold performed; try done.
  - apply create_ok; [done|]. apply reveal_ok; [done|]. apply said_last. by left.
  - by apply edit_ok.
  - by apply hide_ok.
  - apply reveal_ok; [done|]. apply said_last. by left.
  - apply reveal_ok; [done|]. apply said_last. by left.
Qed.

Lemma event_ok es w e w' : step w e w' -> proper e -> run_ok es w -> run_ok (es ++ [e]) w'.
Proof.
  intros Hstep He Hw. pose proof (run_ok_app es e w Hw) as Hw'. destruct Hstep.
  - apply update_ok; [done|]. by apply clicked_ok, Hw'.
  - destruct Hw' as [Hp Ht]. split; [done|]. intros m x c. cbn. rewrite elem_of_app, list_elem_of_singleton.
    intros [Hin|[= -> -> ->]]; [by eapply Ht|]. by eapply press_ok.
  - by apply loads_ok.
  - apply notify_ok, update_ok; [by apply finished_ok|]. apply endpoints_end_ok; [done|]. apply Hw.
  - apply notify_ok, update_ok; [by apply finished_ok|]. apply deliveries_end_ok, Hw.
  - apply notify_ok, update_ok; [by apply finished_ok|]. apply inbound_end_ok, Hw'.
  - unfold action_end. destruct (requestJson r) as [p|] eqn:E; [|by apply finished_ok].
    apply request_json_ok in E as ->. cbn.
    match goal with |- context [fold_left (load c) ?ls ?x] => assert (run_ok (es ++ [ActionAnswered n a (Accepted p)])
      (fold_left (load c) ls x)) as Hend end.
    { apply loads_ok, update_ok; [by apply finished_ok|]. apply performed_ok, Hw. }
    destruct (selects a p); [by destruct Hend; split|done].
Qed.

Lemma start_ok : run_ok [] start.
Proof. apply loads_ok. split; [|by intros n a c H%elem_of_nil]. split; try done; by intros x H%elem_of_nil. Qed.

Lemma reaches_ok es w : reaches es w -> List.Forall proper es -> run_ok es w.
Proof.
  induction 1 as [|es e w w' Hw IH Hstep]; intros Hes; [apply start_ok|].
  apply List.Forall_app in Hes as [Hes He]. eapply event_ok; eauto. by apply Forall_inv in He.
Qed.

(** [C24] The page of webhooks, in every interleaving of clicks, loads and
    answers.  A request under way was permitted: an endpoint that is created
    or changed has a trimmed non-empty name and address, an event, between 0
    and 10 retries and a timeout between 500 and 30000 ms; an endpoint is
    changed, deleted, paused, tested, or its secret asked for or rotated, only
    if the service listed it as one the user may manage; a delivery is
    replayed only if it was listed as a dead letter that may be.  A secret is
    shown only for an endpoint for which the service disclosed it.  Number
    fields hold numbers, and the service sends numbers. *)
Theorem webhooks_permitted (es : list Event) (w : Run) :
  reaches es w -> List.Forall proper es ->
  (forall n a c, (n, Doing a c) ∈ tasks w -> permitted es a)
  /\ (forall id secret, own_get (revealedSecrets (page w)) id = Some secret -> said disclosed_by es (id, secret)).
Proof. intros Hw Hes. destruct (reaches_ok _ _ Hw Hes) as [Hp Ht]. split; [done|]. apply Hp. Qed.

(** ** Outcomes *)

Lemma listed_selected s e id :
  selectedEndpointId s = Some id -> e ∈ endpoints s -> endpoint_id e = id ->
  exists x, selectedEndpoint s = Some x /\ endpoint_id x = id.
Proof.
  intros Hs He Hid. unfold selectedEndpoint. rewrite Hs. cbn.
  destruct (List.find _ _) as [x|] eqn:E.
  - exists x. split; [done|]. apply find_some in E as [_ E]. by apply String.eqb_eq.
  - apply list_elem_of_In in He. pose proof (find_none _ _ E e He) as H. cbn in H.
    by rewrite Hid, String.eqb_refl in H.
Qed.

Lemma reselect_spec c l selected :
  c_selected c = selected -> l <> [] ->
  exists id, reselect c (Some l) selected = Ok (Some id) /\ (exists e, e ∈ l /\ endpoint_id e = id)
    /\ forall e, e ∈ l -> selected = Some (endpoint_id e) -> endpoint_id e <> "" -> id = endpoint_id e.
Proof.
  intros Hc Hl. destruct l as [|x l]; [done|]. unfold reselect. rewrite Hc.
  assert (exists e, e ∈ x :: l /\ endpoint_id e = endpoint_id x) as Hfirst by (exists x; split; [left|done]).
  destruct selected as [id|]; cbn [negb]; cycle 1.
  { exists (endpoint_id x). split_and!; [done|done|]. by intros e _ [=]. }
  destruct (truthy_str id) eqn:Eid; cbn [negb].
  - destruct (existsb _ (x :: l)) eqn:Ex.
    + exists id. split_and!; [done| |].
      * apply existsb_exists in Ex as (e & He & Heq%bool_decide_eq_true). simplify_eq. exists e.
        split; [by apply list_elem_of_In|done].
      * intros e _ [= ->]. done.
    + exists (endpoint_id x). split_and!; [done|done|]. intros e He [= ->] _. exfalso.
      apply (not_true_iff_false (existsb _ _)) in Ex. apply Ex. apply existsb_exists. exists e.
      split; [by apply list_elem_of_In|by apply bool_decide_eq_true].
  - exists (endpoint_id x). split_and!; [done|done|]. intros e _ [= ->] Hne. by apply truthy_str_spec in Hne; congruence.
Qed.

Lemma load_keeps_task c w l t : t ∈ tasks w -> t ∈ tasks (load c w l).
Proof. intros H. cbn. rewrite elem_of_app. by left. Qed.

Lemma loads_keep_task c ls w t : t ∈ tasks w -> t ∈ tasks (fold_left (load c) ls w).
Proof. revert w. induction ls as [|l ls IH]; intros w H; [done|]. by apply IH, load_keeps_task. Qed.

Lemma loads_begun c ls w l : l ∈ ls -> exists k, (k, Loading l c) ∈ tasks (fold_left (load c) ls w).
Proof.
  revert w. induction ls as [|x ls IH]; intros w; [by intros H%elem_of_nil|].
  intros [->|H]%elem_of_cons; [|by apply (IH (load c w x))]. exists (next w). apply (loads_keep_task c ls (load c w x)). cbn.
  rewrite elem_of_app, list_elem_of_singleton. by right.
Qed.

(** What the answers to the page of webhooks do.  A load of the endpoints
    that fails leaves lists and selection and shows one message; one that
    arrives with endpoints, decided with the current selection, selects one of
    them and keeps the selected one if it is still there; one that arrives
    without the list shows no endpoints.  A handler whose request fails
    changes nothing, starts nothing and reports nothing; one that succeeds
    reports what it did and starts the loads it awaits. *)
Theorem webhooks_outcomes (c : Closure) (r : Response EndpointsResponse) (s : State)
    (n : nat) (a : Action) (r' : Response (payload_of a)) (w : Run) :
  (accepted r = false -> exists text, endpoints_end c r s = (s <| loadingEndpoints := false |>, [ToastError text]))
  /\ (forall p l, r = Accepted p -> r_endpoints p = Some l -> l <> [] -> c_selected c = selectedEndpointId s ->
        exists s' e, endpoints_end c r s = (s', []) /\ endpoints s' = l /\ selectedEndpoint s' = Some e
          /\ forall x, x ∈ l -> selectedEndpointId s = Some (endpoint_id x) -> endpoint_id x <> "" ->
               selectedEndpointId s' = Some (endpoint_id x))
  /\ (forall p, r = Accepted p -> r_endpoints p = None ->
        exists text, (endpoints_end c r s).2 = [ToastError text] /\ endpoints (endpoints_end c r s).1 = [])
  /\ (accepted r' = false -> action_end n a c r' w = (finished n w, []))
  /\ (accepted r' = true ->
        (action_end n a c r' w).2 = report a
        /\ forall i l, reloads a !! i = Some l ->
             exists k, (k, Loading l c) ∈ tasks (action_end n a c r' w).1).
Proof.
  split_and!.
  - intros (text & E)%(request_json_exn plain_refusal). exists text. unfold endpoints_end, requestJson. by rewrite E.
  - intros p l -> Hl Hne Hc. destruct (reselect_spec c l (selectedEndpointId s) Hc Hne) as (id & E & (e & He & Hid) & Hkeep).
    unfold endpoints_end. cbn -[reselect]. rewrite Hl. cbn -[reselect]. rewrite E.
    set (s' := s <| loadingEndpoints := false |> <| endpoints := l |> <| eventCatalog := event_catalog p ?? [] |>
                 <| selectedEndpointId := Some id |>).
    destruct (listed_selected s' e id eq_refl He Hid) as (x & Hx & _).
    exists s', x. split_and!; [done|done|done|]. intros y Hy Hsel Hy0. cbn. f_equal. by apply Hkeep.
  - intros p -> Hl. unfold endpoints_end. cbn. rewrite Hl. eauto.
  - intros (text & E)%(request_json_exn plain_refusal). unfold action_end, requestJson. by rewrite E.
  - intros (p & -> & E)%(request_json_accepted plain_refusal). unfold action_end, requestJson. rewrite E.
    split; [done|]. intros i l Hi. apply list_elem_of_lookup_2 in Hi.
    destruct (selects a p); cbn; by apply loads_begun.
Qed.

(** ** Examples *)

Module WebhooksDemo.

Definition hook (id : string) : WebhookEndpoint :=
  {| endpoint_id := id; endpoint_name := "Hook " +:+ id; endpoint_url := "https://x.y/" +:+ id;
     endpoint_status := active; endpoint_events := ["command.completed"]; signing_algo := "hmac-sha256";
     secret_masked := "****"; retry_policy := exponential; max_retries := Num.of_Z 3;
     timeout_ms := Num.of_Z 5000; total_deliveries := Num.zero; success_count := Num.zero;
     failure_count := Num.zero; retrying_count := Num.zero; last_delivery := None; last_status := None;
     last_latency_ms := None; endpoint_created := None; endpoint_updated := None; can_manage := true;
     owner_email := None |}.

Definition listing (ids : list string) : Response EndpointsResponse :=
  Accepted {| r_endpoints := Some (map hook ids); event_catalog := Some ["command.completed"] |}.

Definition after_load (ids : list string) : Run :=
  notify 0 (update (fun s => (endpoints_end (closure_of init) (listing ids) s).1) (finished 0 start)).

Lemma load_reached ids : reaches [EndpointsAnswered 0 (listing ids)] (after_load ids).
Proof.
  apply (reaches_step [] _ start); [constructor|]. apply (step_endpoints _ (closure_of init)). left.
Qed.

Definition rotating : Run := begin (Doing (RotateSecret (hook "a")) (closure_of (page (after_load ["a"])))) (after_load ["a"]).

Lemma rotating_reached : reaches [EndpointsAnswered 0 (listing ["a"]); Pressed RotateButton] rotating.
Proof.
  apply (reaches_step [_] _ (after_load ["a"])); [apply load_reached|].
  apply (step_press _ (RotateSecret (hook "a"))). vm_compute. reflexivity.
Qed.

Lemma webhooks_permitted_witness :
  (exists n c, (n, Doing (RotateSecret (hook "a")) c) ∈ tasks rotating)
  /\ permitted [EndpointsAnswered 0 (listing ["a"]); Pressed RotateButton] (RotateSecret (hook "a")).
Proof.
  assert (exists n c, (n, Doing (RotateSecret (hook "a")) c) ∈ tasks rotating) as H.
  { eexists _, _. unfold rotating. cbn [tasks begin set]. apply elem_of_app. right. left. }
  split; [exact H|]. destruct H as (n & c & H).
  destruct (webhooks_permitted _ _ rotating_reached) as [Hp _].
  { repeat constructor. }
  exact (Hp n _ c H).
Defined.

Lemma webhooks_outcomes_witness :
  (exists s' e, endpoints_end (closure_of init) (listing ["a"; "b"]) init = (s', [])
     /\ selectedEndpoint s' = Some e)
  /\ action_end 0 (TestEndpoint (hook "a")) (closure_of init) Unreachable start = (finished 0 start, []).
Proof.
  destruct (webhooks_outcomes (closure_of init) (listing ["a"; "b"]) init 0 (TestEndpoint (hook "a")) Unreachable start)
    as (_ & Hsel & _ & Hfail & _).
  split; [|apply Hfail; reflexivity].
  destruct (Hsel _ (map hook ["a"; "b"]) eq_refl eq_refl) as (s' & e & E & _ & Hs & _); [done|reflexivity|].
  exists s', e. split; [exact E|exact Hs].
Defined.

(** An endpoint cannot be deselected: the click starts a load, and its answer
    selects the first. *)
Definition selected_of (w : Run) : option string := selectedEndpointId (page w).

Lemma deselect_jumps :
  let w := update (click (Select 1)) (after_load ["a"; "b"]) in
  let w' := update (click (Select 1)) w in
  selected_of w = Some "b" /\ selected_of w' = None
  /\ tasks w' = tasks w ++ [(5%nat, Loading Endpoints (closure_of (page w')))]
  /\ (endpoints_end (closure_of (page w')) (listing ["a"; "b"]) (page w')).1.(selectedEndpointId) = Some "a".
Proof. vm_compute. done. Qed.

(** A load that began before a click takes the selection back. *)
Lemma stale_selection :
  let w := after_load ["a"; "b"] in
  let w' := update (click (Select 1)) w in
  selected_of w = Some "a" /\ selected_of w' = Some "b"
  /\ (endpoints_end (closure_of (page w)) (listing ["c"; "b"]) (page w')).1.(selectedEndpointId) = Some "c".
Proof. vm_compute. done. Qed.

(** Saving twice before the answer creates two endpoints. *)
Definition filled : State :=
  fold_left (fun s k => click k s)
    [OpenCreate; TypeCreate (TypeName "n"); TypeCreate (TypeUrl "u"); TypeCreate (ToggleEvent "e")] init.

Lemma endpoint_created_twice : exists a, press CreateButton filled = Some a
  /\ press CreateButton (page (begin (Doing a (closure_of filled)) (start <| page := filled |>))) = Some a.
Proof. eexists. split; vm_compute; reflexivity. Qed.

(** An answer to an earlier question hides the rotated secret behind the old
    one. *)
Lemma old_secret_shown :
  own_get (revealedSecrets (performed (RevealSecret (hook "a"))
             (performed (RotateSecret (hook "a")) init "new") "old")) "a" = Some "old".
Proof. vm_compute. done. Qed.

(** The deliveries of an earlier filter can replace those of the current one:
    whatever is chosen, the last answer is shown. *)
Lemma last_answer_shown l s : deliveries (deliveries_end (Accepted (Some l)) s).1 = l.
Proof. done. Qed.

End WebhooksDemo.
