(* ===== verification/TelemetryPage.v ===== *)
(** * The page of telemetry

    src/app/telemetry-monitoring/components/TelemetryContent.tsx: the metrics
    of one device, its charts, its kernel events and its network snapshot.
    The metrics are values of unknown type, read with the functions of
    src/lib/telemetry.ts ([Telemetry]); points, events and commands have the
    fields the code declares.  [date_parse] is [Date.parse] where it is a
    number, [time_label] is [toTimeLabel], [url_pathname] the parameter of
    Module Results. *)

From S2P Require Import Prelude JsNumber JsString JsValue Http Session Commands RenderModel RenderLaws Telemetry Tables Loader.
Import Results.

(** ** Data *)

Record TelemetryHistoryPoint := {
  p_timestamp : string;
  avg_cpu : jsval;
  avg_ram : jsval;
  avg_disk_usage : jsval;
  network_tx : jsval;
  network_rx : jsval;
  risk_score_avg : jsval;
  risk_score : jsval;
  p_metrics : jsval;
}.

Record ActivityEvent := {
  a_id : string;
  a_event_type : string;
  a_timestamp : option string;
  a_detail : jsval;
}.

Record DeviceOption := { o_id : string; o_label : string }.
Record ChartPoint := { c_time : string; c_value : num }.
Record NetworkPoint := { n_time : string; n_tx : num; n_rx : num }.
Record RiskPoint := { r_time : string; r_score : num; r_event : option string }.
Record SavedWifiProfile := { ssid : string; password : string }.
Record NetworkSnapshotState := {
  networkInfo : option NormalizedCommandResult;
  listConnections : option NormalizedCommandResult;
}.

Definition timeWindows : list (string * Z) := [("1h", 1); ("6h", 6); ("24h", 24); ("7d", 24 * 7)]%Z.

Definition selectedWindow (timeWindow : string) : string * Z :=
  List.find (fun w => w.1 === timeWindow) timeWindows ?? ("24h", 24%Z).

(** ** Reading results *)

Definition isRecord (v : jsval) : bool := match v with JObj _ => true | _ => false end.

Definition whole (x : num) : num := Num.max Num.zero (Num.trunc x).

Definition parseCount (value : jsval) : option num :=
  match value with
  | JNum n => if Num.is_finite n then Some (whole n) else None
  | JStr s =>
      if truthy_str (trim s) && Num.is_finite (number_of_string s) then Some (whole (number_of_string s)) else None
  | _ => None
  end.

Definition parseStringArray (value : jsval) : list string :=
  match value with
  | JArr l => List.filter truthy_str (map trim (omap as_string l))
  | _ => []
  end.

Definition no_password : string := "(no saved password or open network)".

Definition wifi_profile (item : jsval) : option SavedWifiProfile :=
  match item with
  | JStr s => if truthy_str (trim s) then Some {| ssid := trim s; password := no_password |} else None
  | JObj o =>
      let name := match get o "ssid" with JStr s => trim s | _ => "" end in
      if negb (truthy_str name) then None
      else
        let secret := match get o "password" with JStr s => trim s | _ => "" end in
        Some {| ssid := name; password := if truthy_str secret then secret else no_password |}
  | _ => None
  end.

Definition parseSavedWifiProfiles (value : jsval) : list SavedWifiProfile :=
  match value with JArr l => omap wifi_profile l | _ => [] end.

Definition formatSavedWifiProfilesReport (profiles : list SavedWifiProfile) : string :=
  match profiles with
  | [] => "Saved Wi-Fi networks and passwords:" +:+ newline +:+ newline +:+ "(no saved Wi-Fi profiles found)"
  | _ => join newline (["Saved Wi-Fi networks and passwords:"; ""]
           ++ flat_map (fun p => ["SSID: " +:+ ssid p; "Password: " +:+ password p;
                                  "----------------------------------------"]) profiles)
  end.

(** [text.replace(c, r)]: the first occurrence. *)
Fixpoint replace_first (c : ascii) (r : string) (s : string) : string :=
  match s with
  | "" => ""
  | String x s => if Ascii.eqb x c then r +:+ s else String x (replace_first c r s)
  end.

Section Zone.
Context (date_parse : string -> option Z) (time_label : string -> string).
Context (url_pathname : string -> option string).

Definition time_or_zero (o : option string) : Z := date_parse (o ?? "") ?? 0%Z.

Definition latestCompletedByMethod (rows : list NormalizedCommandResult) (method : string) : option NormalizedCommandResult :=
  let time row := time_or_zero (completedAt row ??? queuedAt row) in
  head (stable_sort (fun a b => (time b - time a <? 0)%Z)
          (List.filter (fun row => (nMethod row === method) && (state_str (nState row) === "completed")) rows)).

(** ** The page *)

Record State := {
  devices : list DeviceOption;
  selectedDevice : string;
  timeWindow : string;
  latest : jsval;
  history : list TelemetryHistoryPoint;
  activity : list ActivityEvent;
  loading : bool;
  refreshing : bool;
  page_error : option string;
  activityError : option string;
  networkError : option string;
  networkDispatching : bool;
  networkRefreshing : bool;
  networkSnapshots : NetworkSnapshotState;
  lastUpdated : option string;
  kernelCategoryFilter : option KernelTelemetryCategory;
}.

#[export] Instance eta_telemetry : Eta State := fun s =>
  {| devices := devices s; selectedDevice := selectedDevice s; timeWindow := timeWindow s; latest := latest s;
     history := history s; activity := activity s; loading := loading s; refreshing := refreshing s;
     page_error := page_error s; activityError := activityError s; networkError := networkError s;
     networkDispatching := networkDispatching s; networkRefreshing := networkRefreshing s;
     networkSnapshots := networkSnapshots s; lastUpdated := lastUpdated s;
     kernelCategoryFilter := kernelCategoryFilter s |}.

Definition no_snapshots : NetworkSnapshotState := {| networkInfo := None; listConnections := None |}.

Definition init (initialDevice : string) : State :=
  {| devices := []; selectedDevice := initialDevice; timeWindow := "24h"; latest := JNull; history := [];
     activity := []; loading := true; refreshing := false; page_error := None; activityError := None;
     networkError := None; networkDispatching := false; networkRefreshing := false;
     networkSnapshots := no_snapshots; lastUpdated := None; kernelCategoryFilter := None |}.

Definition deviceLabel (s : State) : string :=
  (o_label <$> List.find (fun d => o_id d === selectedDevice s) (devices s)) ?? selectedDevice s.

(** [latest?.metrics ?? {}] *)
Definition latestMetrics (s : State) : jsval := vnullish (prop (latest s) "metrics") (JObj []).

Definition no_data : string := "No data available".
Definition rounded (unit : string) (o : option num) : string :=
  match o with Some x => Num.to_fixed 0 x +:+ unit | None => no_data end.

(** The tiles: labels and texts. *)
Definition summaryStats (s : State) : list (string * string) :=
  let m := prop (latestMetrics s) in
  let l := prop (latest s) in
  [("CPU (current)", rounded "%" (telemetryNumber (m "cpu")));
   ("RAM (current)", rounded "%" (telemetryNumber (m "ram")));
   ("Disk Usage", rounded "%" (telemetryNumber (m "disk_usage")));
   ("Risk Score", rounded " / 100" (telemetryRisk (m "risk_score")));
   ("Battery", rounded "%" (Num.clamp Num.zero hundred <$> telemetryNumber (m "battery_pct")));
   ("Policy Sync", telemetryBooleanStatus (vnullish (m "policy_in_sync") (l "resolved_policy_in_sync"))
                     "Synchronized" "Mismatch" "Unknown");
   ("Compliance", replace_first "_" " "
      (telemetryText (vnullish (m "compliance_status") (l "resolved_compliance_status")) "Unknown"));
   ("Presence", telemetryText (vnullish (l "resolved_presence_state") (l "presence_state")) "Unknown");
   ("Connection", telemetryText (vnullish (l "resolved_connection_mode") (l "connection_mode")) "Unknown")].

Definition metadataRows (s : State) : list (string * string) :=
  let m := prop (latestMetrics s) in
  let l := prop (latest s) in
  [("Schema", telemetryText (l "schema_version") "Unknown");
   ("Session", telemetryText (l "session_id") "Unknown");
   ("Seq", telemetryText (l "seq") "Unknown");
   ("Scope", telemetryText (l "telemetry_scope") "Unknown");
   ("Policy Hash", telemetryText (l "policy_hash") "Unknown");
   ("Masked Fields", telemetryMaskedFields (l "masked_fields") no_data);
   ("Agent Version", telemetryText (m "agent_version") "Unknown");
   ("OS Build", telemetryText (vnullish (m "os_build") (l "resolved_os_build")) "Unknown");
   ("OS Version", telemetryText (m "os_version") "Unknown");
   ("Patch Level", telemetryText (m "patch_level") "Unknown");
   ("Geo Hash", telemetryText (m "geo_hash") "Unknown");
   ("Battery", telemetryPercent (m "battery_pct") no_data)].

(** *** Charts *)

Record ChartData := {
  cpu : list ChartPoint;
  ram : list ChartPoint;
  disk : list ChartPoint;
  network : list NetworkPoint;
  risk : list RiskPoint;
}.

Definition metric (p : TelemetryHistoryPoint) (field : TelemetryHistoryPoint -> jsval) (key : string) : option num :=
  telemetryNumber (vnullish (field p) (prop (p_metrics p) key)).

Definition percent_point (field : TelemetryHistoryPoint -> jsval) (key : string) (p : TelemetryHistoryPoint) : option ChartPoint :=
  (fun v => {| c_time := time_label (p_timestamp p); c_value := Num.clamp Num.zero hundred v |}) <$> metric p field key.

Definition network_point (p : TelemetryHistoryPoint) : option NetworkPoint :=
  let tx := metric p network_tx "network_tx" in
  let rx := metric p network_rx "network_rx" in
  match tx, rx with
  | None, None => None
  | _, _ => Some {| n_time := time_label (p_timestamp p); n_tx := Num.max Num.zero (tx ?? Num.zero);
                    n_rx := Num.max Num.zero (rx ?? Num.zero) |}
  end.

(** [activity.find((item) => item.timestamp === point.timestamp)?.event_type ?? null] *)
Definition event_at (s : State) (t : string) : option string :=
  a_event_type <$> List.find (fun item => bool_decide (a_timestamp item = Some t)) (activity s).

Definition risk_point (s : State) (p : TelemetryHistoryPoint) : option RiskPoint :=
  (fun v => {| r_time := time_label (p_timestamp p); r_score := Num.clamp Num.zero hundred v;
               r_event := event_at s (p_timestamp p) |})
  <$> telemetryRisk (vnullish (vnullish (risk_score_avg p) (risk_score p)) (prop (p_metrics p) "risk_score")).

(** The points with a timestamp. *)
Definition stamped (s : State) : list TelemetryHistoryPoint := List.filter (fun p => truthy_str (p_timestamp p)) (history s).

Definition chartData (s : State) : ChartData :=
  {| cpu := omap (percent_point avg_cpu "cpu") (stamped s);
     ram := omap (percent_point avg_ram "ram") (stamped s);
     disk := omap (percent_point avg_disk_usage "disk_usage") (stamped s);
     network := omap network_point (stamped s);
     risk := omap (risk_point s) (stamped s) |}.

(** *** Kernel events *)

Record KernelRow := {
  k_id : string;
  k_event : ParsedKernelTelemetryEvent;
  k_ts : string;
  k_timestamp : string;
}.

(** The row of an event, if the value holds one and there is a timestamp;
    writing its id may throw. *)
Definition kernel_row (kernelEvent : jsval) (timestamp : string) : res (option KernelRow) :=
  if negb (truthy kernelEvent) || negb (truthy_str timestamp) then Ok None
  else match parseKernelTelemetryEvent kernelEvent with
  | None => Ok None
  | Some parsed =>
      let! id := to_str (vnullish (prop kernelEvent "event_id") (JStr "evt")) in
      Ok (Some {| k_id := id +:+ "-" +:+ timestamp; k_event := parsed; k_ts := time_label timestamp;
                  k_timestamp := timestamp |})
  end.

Definition history_row (p : TelemetryHistoryPoint) : res (option KernelRow) :=
  kernel_row (prop (p_metrics p) "kernel_event") (p_timestamp p).

Definition activity_row (item : ActivityEvent) : res (option KernelRow) :=
  if a_event_type item !== "telemetry" then Ok None
  else kernel_row (prop (vnullish (a_detail item) (JObj [])) "kernel_event") (a_timestamp item ?? "").

Definition row_key (row : KernelRow) : string := Num.to_string (eventId (k_event row)) +:+ "-" +:+ k_timestamp row.

(** A Map that keeps the first row of each key. *)
Definition add_first (acc : list (string * KernelRow)) (row : KernelRow) : list (string * KernelRow) :=
  if has_own acc (row_key row) then acc else acc ++ [(row_key row, row)].
Definition dedupe (rows : list KernelRow) : list KernelRow := map snd (fold_left add_first rows []).

(** The comparison of two readable timestamps is negative. *)
Definition later (a b : KernelRow) : bool :=
  match date_parse (k_timestamp a), date_parse (k_timestamp b) with
  | Some x, Some y => (y - x <? 0)%Z
  | _, _ => false
  end.

Definition kernelEvents (s : State) : res (list KernelRow) :=
  let! fromHistory := res_mapM history_row (history s) in
  let! fromActivity := res_mapM activity_row (activity s) in
  let merged := omap (fun row => row) (fromHistory ++ fromActivity) in
  Ok (take 25 (stable_sort later (dedupe merged))).

Definition in_category (c : KernelTelemetryCategory) (row : KernelRow) : bool :=
  category_str (category (k_event row)) === category_str c.

Definition filteredKernelEvents (s : State) (rows : list KernelRow) : list KernelRow :=
  match kernelCategoryFilter s with
  | None => rows
  | Some c => List.filter (in_category c) rows
  end.

(** [acc[event.category] = (acc[event.category] ?? 0) + 1] *)
Definition count_category (acc : list (string * nat)) (row : KernelRow) : list (string * nat) :=
  let key := category_str (category (k_event row)) in
  put acc key (S (own_get acc key ?? 0%nat)).
Definition kernelCategoryCounts (rows : list KernelRow) : list (string * nat) := fold_left count_category rows [].

Record KernelSummary := {
  k_total : nat;
  k_errorRate : option num;
  k_avgLatency : option num;
  k_maxQueueDepth : option num;
  k_maxDropCount : option num;
  k_byCategory : list (string * nat);
}.

Definition failing_event (row : KernelRow) : bool :=
  (ev_status (k_event row) !== "ok") || Num.gt (Telemetry.errorCode (k_event row)) Num.zero.

(** The finite values of a field; [Math.max(...values)]. *)
Definition finite_values (field : ParsedKernelTelemetryEvent -> num) (rows : list KernelRow) : list num :=
  List.filter Num.is_finite (map (fun row => field (k_event row)) rows).
Definition greatest (values : list num) : option num :=
  match values with [] => None | _ => Some (fold_left Num.max values (S754_infinity true)) end.

Definition kernelSummary (filtered : list KernelRow) : KernelSummary :=
  let total := length filtered in
  match filtered with
  | [] => {| k_total := total; k_errorRate := None; k_avgLatency := None; k_maxQueueDepth := None;
             k_maxDropCount := None; k_byCategory := [] |}
  | _ =>
      let failures := length (List.filter failing_event filtered) in
      let latencyValues := finite_values durationMs filtered in
      {| k_total := total;
         k_errorRate := Some (Num.mul (Num.div (Num.of_nat failures) (Num.of_nat total)) hundred);
         k_avgLatency :=
           match latencyValues with
           | [] => None
           | _ => Some (Num.div (fold_left Num.add latencyValues Num.zero) (Num.of_nat (length latencyValues)))
           end;
         k_maxQueueDepth := greatest (finite_values queueDepth filtered);
         k_maxDropCount := greatest (finite_values dropCount filtered);
         k_byCategory := kernelCategoryCounts filtered |}
  end.

(** [latest.timestamp] is a text; the age is a number only if it can be read. *)
Definition receivingTelemetry (now : Z) (s : State) : bool :=
  match prop (latest s) "timestamp" with
  | JStr t => truthy_str t && match date_parse t with Some x => (now - x <=? 120000)%Z | None => false end
  | _ => false
  end.

(** *** The network snapshot *)

Record SnapshotSummary := {
  adapterCount : num;
  routeCount : nat;
  wifiConnected : bool;
  vpnDetected : bool;
  savedWifiProfileCount : nat;
  savedWifiProfilesReport : string;
  savedWifiPasswordCount : num;
  wifiRiskSignals : list string;
  wifiPasswordsCollected : bool;
  connectionCount : num;
  topTalkersCount : nat;
  totalSeen : option num;
  truncated : bool;
  latestTimestamp : option string;
}.

(** [snapshot?.result?.data] if it is an object; every property of a missing
    one is undefined. *)
Definition snapshot_data (o : option NormalizedCommandResult) : jsval :=
  match (r ← o; nResult r) with
  | Some result => let data := get result "data" in if isRecord data then data else JNull
  | None => JNull
  end.

Definition array_length (v : jsval) : nat := match v with JArr l => length l | _ => 0 end.

(** [v && isRecord(v) && v.key === true], as a condition. *)
Definition flagged (v : jsval) (key : string) : bool := isRecord v && is_true (prop v key).

Definition networkSnapshotSummary (n : NetworkSnapshotState) : SnapshotSummary :=
  let info := prop (snapshot_data (networkInfo n)) in
  let conns := prop (snapshot_data (listConnections n)) in
  let profiles := parseSavedWifiProfiles (info "saved_wifi_profiles") in
  let count := parseCount (conns "count") ?? Num.zero in
  let seen := parseCount (conns "total_seen") in
  let times := List.filter (fun t => truthy_str (trim t))
                 (omap (fun t => t) [r ← networkInfo n; completedAt r; r ← listConnections n; completedAt r]) in
  {| adapterCount := parseCount (info "count") ?? Num.zero;
     routeCount := array_length (info "default_routes");
     wifiConnected := flagged (info "wifi") "connected";
     vpnDetected := flagged (info "vpn_summary") "detected";
     savedWifiProfileCount := length profiles;
     savedWifiProfilesReport := formatSavedWifiProfilesReport profiles;
     savedWifiPasswordCount := parseCount (info "saved_wifi_password_count") ?? Num.zero;
     wifiRiskSignals := parseStringArray (info "wifi_risk_signals");
     wifiPasswordsCollected := is_true (info "wifi_passwords_collected");
     connectionCount := count;
     topTalkersCount := array_length (conns "top_talkers_by_connection_count");
     totalSeen := seen;
     truncated := match seen with Some n => Num.gt n count | None => false end;
     latestTimestamp := head (stable_sort (fun a b => (time_or_zero (Some b) - time_or_zero (Some a) <? 0)%Z) times) |}.

(** *** Dispatching a snapshot *)

Definition snapshot_payload (uuid device method : string) (params : obj) : obj :=
  [("client_message_id", JStr uuid); ("device_id", JStr device); ("method", JStr method); ("params", JObj params)].

Definition snapshot_payloads (uuid1 uuid2 device : string) : list obj :=
  [snapshot_payload uuid1 device "network_info"
     [("limit", JNum (Num.of_Z 1000)); ("include_wifi", JBool true); ("include_routes", JBool true);
      ("include_vpn_signals", JBool true)];
   snapshot_payload uuid2 device "list_connections"
     [("limit", JNum (Num.of_Z 1000)); ("include_ipv6", JBool true); ("include_udp", JBool true);
      ("include_process_path", JBool true)]].

Definition command_request (payload : obj) : FetchRequest :=
  {| f_method := "POST"; f_url := "/api/commands"; f_headers := [json_content]; f_body := Some (json_text payload) |}.

(** What [dispatchNetworkSnapshot] sends; the button is disabled without a
    device and while it runs. *)
Definition dispatch_start (uuid1 uuid2 : string) (s : State) : option (State * list FetchRequest) :=
  if networkDispatching s || negb (truthy_str (selectedDevice s)) then None
  else Some (s <| networkDispatching := true |>,
             map command_request (snapshot_payloads uuid1 uuid2 (selectedDevice s))).

(** The message of the first response that is not ok. *)
Fixpoint dispatch_failure (rs : list FetchResponse) : option string :=
  match rs with
  | [] => None
  | r :: rs =>
      if ok r then dispatch_failure rs
      else Some (match (let! message := member (json_or_empty r) "message" in
                        to_str (vnullish message (JStr ("Dispatch failed (" +:+ Num.digits (status r) +:+ ")")))) with
                 | Ok text => text
                 | Exn text => text
                 end)
  end.

(** After the responses, [None] when one of the requests could not be sent:
    the message shown, and whether a silent load follows. *)
Definition dispatch_answer (rs : option (list FetchResponse)) : (string * bool)%type :=
  match rs with
  | None => ("Failed to fetch", false)
  | Some rs => match dispatch_failure rs with
               | Some text => (text, false)
               | None => ("Network snapshot commands dispatched", true)
               end
  end.
Definition dispatch_continue (rs : option (list FetchResponse)) (s : State) : State :=
  if (dispatch_answer rs).2 then s <| networkRefreshing := true |>
  else s <| networkDispatching := false |> <| networkRefreshing := false |>.
Definition dispatch_end (s : State) : State := s <| networkDispatching := false |> <| networkRefreshing := false |>.

(** *** Loading *)

(** What a load closes over. *)
Record Closure := { c_device : string; c_window : string }.
Definition closure_of (s : State) : Closure := {| c_device := selectedDevice s; c_window := timeWindow s |}.

Definition load_start (mode : Mode) (s : State) : State :=
  let s := match mode with initial => s <| loading := true |> | _ => s end in
  let s := match mode with refresh => s <| refreshing := true |> | _ => s end in
  match mode with silent => s | _ => s <| page_error := None |> <| activityError := None |> end.

(** The [finally] of a load, and its [catch]. *)
Definition load_finally (mode : Mode) (s : State) : State :=
  match mode with
  | initial => s <| loading := false |>
  | refresh => s <| refreshing := false |>
  | silent => s
  end.
Definition load_failed (s : State) : State :=
  s <| page_error := Some "Failed to load telemetry snapshot." |>
    <| networkError := Some "Failed to load network snapshot." |>.

(** A device of the list: its id, and its name if it has one. *)
Definition device_option (d : string * option string) : DeviceOption := {| o_id := d.1; o_label := d.2 ?? d.1 |}.

Definition effectiveDevice (selected : string) (nextDevices : list DeviceOption) : string :=
  if truthy_str selected && existsb (fun d => o_id d === selected) nextDevices then selected
  else (o_id <$> head nextDevices) ?? "".

(** The load after the list of devices: the page, and the device whose data
    it goes on to ask for. *)
Definition devices_end (mode : Mode) (c : Closure) (now : string) (r : Reply (option (list (string * option string)))) (s : State) : State * option string :=
  match payload_of r with
  | None => (load_finally mode (load_failed s), None)
  | Some payload =>
      let nextDevices := map device_option (payload ?? []) in
      let device := effectiveDevice (c_device c) nextDevices in
      let s := s <| devices := nextDevices |> <| selectedDevice := device |> in
      if truthy_str device then (s, Some device)
      else (load_finally mode
              (s <| latest := JNull |> <| history := [] |> <| activity := [] |> <| activityError := None |>
                 <| networkSnapshots := no_snapshots |> <| networkError := None |> <| lastUpdated := Some now |>), None)
  end.

Definition bundle_urls (device from to : string) : list string :=
  let d := encodeURIComponent device in
  ["/api/telemetry/devices/" +:+ d +:+ "/latest";
   "/api/telemetry/devices/" +:+ d +:+ "/history?from=" +:+ encodeURIComponent from +:+ "&to="
     +:+ encodeURIComponent to +:+ "&bucket=raw";
   "/api/telemetry/activity?device_id=" +:+ d +:+ "&limit=100";
   "/api/commands?device_id=" +:+ d +:+ "&limit=200"].

Record Bundle := {
  latestResult : Reply jsval;
  historyResult : Reply (option (list TelemetryHistoryPoint));
  activityResult : Reply (option (list ActivityEvent));
  commandResult : Reply (option (list CommandListRowApi));
}.

Definition snapshots_of (rows : list CommandListRowApi) : NetworkSnapshotState :=
  let normalized := map (mapCommandListRow url_pathname) rows in
  {| networkInfo := latestCompletedByMethod normalized "network_info";
     listConnections := latestCompletedByMethod normalized "list_connections" |}.

(** The second part is false when the body cannot be read, an exception. *)
Definition take_activity (r : Reply (option (list ActivityEvent))) (s : State) : State * bool :=
  if reply_ok r then
    match payload_of r with
    | Some events => (s <| activity := events ?? [] |> <| activityError := None |>, true)
    | None => (s, false)
    end
  else (s <| activity := [] |> <| activityError := Some "Activity feed is temporarily unavailable." |>, true).

Definition take_commands (r : Reply (option (list CommandListRowApi))) (s : State) : State * bool :=
  if reply_ok r then
    match payload_of r with
    | Some rows => (s <| networkSnapshots := snapshots_of (rows ?? []) |> <| networkError := None |>, true)
    | None => (s, false)
    end
  else (s <| networkSnapshots := no_snapshots |>
          <| networkError := Some "Network snapshot history is temporarily unavailable." |>, true).

(** The load after the four responses, whose bodies are read in one go. *)
Definition bundle_end (mode : Mode) (now : string) (b : Bundle) (s : State) : State :=
  load_finally mode
    match payload_of (latestResult b), payload_of (historyResult b) with
    | Some l, Some points =>
        let s := s <| latest := l |> <| history := points ?? [] |> in
        let '(s, fine) := take_activity (activityResult b) s in
        if negb fine then load_failed s
        else
          let '(s, fine) := take_commands (commandResult b) s in
          if negb fine then load_failed s else s <| lastUpdated := Some now |>
    | _, _ => load_failed s
    end.
End Zone.
