(* ===== verification/TelemetryPageLaws.v ===== *)
(** * What the page of telemetry shows

    The charts show every reading within its scale and in the order of the
    history; the feed of kernel events holds the latest distinct events, and
    its counts add up; a load asks for the selected device if it is listed,
    and a failure leaves the readings. *)

From S2P Require Import Prelude JsNumber JsString JsValue Http Session Commands RenderModel RenderLaws Telemetry Tables Client Loader DashboardLaws TelemetryPage.
Import Results.

Section Laws.
Context (date_parse : string -> option Z) (time_label : string -> string).
Context (url_pathname : string -> option string).

(** ** Charts *)

Definition on_scale (x : num) : Prop := Num.within Num.zero hundred x = true.

Lemma omap_forall {A B} (f : A -> option B) (P : B -> Prop) l :
  (forall a b, f a = Some b -> P b) -> List.Forall P (omap f l).
Proof.
  intros Hf. induction l as [|a l IH]; [constructor|]. cbn. destruct (f a) eqn:E; [|done]. constructor; eauto.
Qed.

(** A series has a point for each element that has a value, in order. *)
Lemma omap_labels {A B C} (f : A -> option B) (g : B -> C) (h : A -> C) l :
  (forall a b, f a = Some b -> g b = h a) ->
  map g (omap f l) = map h (List.filter (fun a => bool_decide (is_Some (f a))) l).
Proof.
  intros Hf. induction l as [|a l IH]; [done|]. cbn. destruct (f a) as [b|] eqn:E; cbn; [|done].
  f_equal; auto.
Qed.

Lemma metric_finite p field key x : metric p field key = Some x -> Num.is_finite x = true.
Proof. apply telemetryNumber_finite. Qed.

Lemma percent_point_spec field key p c :
  percent_point time_label field key p = Some c -> on_scale (c_value c) /\ c_time c = time_label (p_timestamp p).
Proof.
  unfold percent_point. destruct (metric p field key) as [x|] eqn:E; [|done]. intros [= <-].
  apply metric_finite in E. split; [|done]. apply Num.clamp_within; [done|by apply Num.finite_not_nan].
Qed.

Lemma risk_point_spec s p c :
  risk_point time_label s p = Some c ->
  on_scale (r_score c) /\ r_time c = time_label (p_timestamp p) /\ r_event c = event_at s (p_timestamp p).
Proof.
  unfold risk_point. set (v := vnullish _ _). destruct (telemetryRisk v) as [x|] eqn:E; [|done]. intros [= <-].
  split_and!; [|done..]. apply Num.clamp_within; [done|]. unfold telemetryRisk in E.
  destruct (telemetryNumber v) as [y|] eqn:Ey; [|done]. apply telemetryNumber_finite in Ey.
  assert (Num.within Num.zero hundred x = true) as [H _]%andb_true_iff; [|by destruct (Num.le_not_nan _ _ H)].
  destruct (Num.le y one); injection E as <-; apply Num.clamp_within; try done.
  - by apply Num.mul_not_nan.
  - by apply Num.finite_not_nan.
Qed.

(** The traffic of a point is a number that is not negative. *)
Definition traffic (x : num) : Prop := Num.le Num.zero x = true.

Lemma traffic_max o : (forall x, o = Some x -> Num.is_finite x = true) -> traffic (Num.max Num.zero (o ?? Num.zero)).
Proof.
  intros Ho. assert (Num.is_nan (o ?? Num.zero) = false) as H.
  { destruct o; [by apply Num.finite_not_nan, Ho|done]. }
  unfold traffic. destruct (Num.max_cases Num.zero (o ?? Num.zero) eq_refl H) as [[-> H1]|[-> H1]]; done.
Qed.

Lemma network_point_spec p c :
  network_point time_label p = Some c -> traffic (n_tx c) /\ traffic (n_rx c) /\ n_time c = time_label (p_timestamp p).
Proof.
  unfold network_point. intros H.
  assert (traffic (Num.max Num.zero (metric p network_tx "network_tx" ?? Num.zero))
          /\ traffic (Num.max Num.zero (metric p network_rx "network_rx" ?? Num.zero))) as [Htx Hrx].
  { split; apply traffic_max; apply metric_finite. }
  destruct (metric p network_tx _), (metric p network_rx _); try done; injection H as <-; done.
Qed.

(** The times of the points for which [f] has a value. *)
Definition labels_of {A} (f : TelemetryHistoryPoint -> option A) (s : State) : list string :=
  map (fun p => time_label (p_timestamp p)) (List.filter (fun p => bool_decide (is_Some (f p))) (stamped s)).

(** The charts of the page of telemetry.  Each series has one point, in the
    order of the history and with its time, for exactly the readings that have
    a timestamp and a value that can be read as a finite number; processor,
    memory, disk and risk lie between 0 and 100 whatever was reported, traffic
    is never negative, and no point is NaN. *)
Theorem telemetry_charts (s : State) :
  let d := chartData time_label s in
  List.Forall (fun c => on_scale (c_value c)) (cpu d ++ ram d ++ disk d)
  /\ List.Forall (fun c => on_scale (r_score c)) (risk d)
  /\ List.Forall (fun c => traffic (n_tx c) /\ traffic (n_rx c)) (network d)
  /\ map c_time (cpu d) = labels_of (fun p => metric p avg_cpu "cpu") s
  /\ map c_time (ram d) = labels_of (fun p => metric p avg_ram "ram") s
  /\ map c_time (disk d) = labels_of (fun p => metric p avg_disk_usage "disk_usage") s
  /\ map r_time (risk d) = labels_of (risk_point time_label s) s
  /\ map n_time (network d) = labels_of (network_point time_label) s.
Proof.
  assert (forall field key, map c_time (omap (percent_point time_label field key) (stamped s))
            = labels_of (fun p => metric p field key) s) as Hlab.
  { intros field key. erewrite omap_labels; [|intros a b Hab; by apply percent_point_spec in Hab as [_ ->]].
    unfold labels_of. f_equal. apply filter_ext. intros p. unfold percent_point.
    by destruct (metric p field key). }
  cbn. split_and!; try apply Hlab.
  - rewrite !List.Forall_app. split_and!; apply omap_forall; intros p c Hc; by apply percent_point_spec in Hc as [? _].
  - apply omap_forall. intros p c Hc. by apply risk_point_spec in Hc as [? _].
  - apply omap_forall. intros p c Hc. apply network_point_spec in Hc as (? & ? & _). done.
  - apply omap_labels. intros p c Hc. by apply risk_point_spec in Hc as (_ & ? & _).
  - apply omap_labels. intros p c Hc. by apply network_point_spec in Hc as (_ & _ & ?).
Qed.

(** ** Kernel events *)

Lemma res_mapM_elem {A B} (f : A -> res B) l bs :
  res_mapM f l = Ok bs -> forall b, b ∈ bs <-> exists a, a ∈ l /\ f a = Ok b.
Proof.
  revert bs. induction l as [|a l IH]; intros bs; cbn [res_mapM].
  - intros [= <-] b. rewrite elem_of_nil. split; [done|]. by intros (a & H%elem_of_nil & _).
  - destruct (f a) as [x|] eqn:Ef; [|done]. cbn. destruct (res_mapM f l) as [xs|]; [|done]. intros [= <-] b.
    rewrite elem_of_cons, (IH xs eq_refl). split.
    + intros [->|(y & Hy & Hb)]; [exists a|exists y]; split; try done; [left|by right].
    + intros (y & [->|Hy]%elem_of_cons & Hb); [left; congruence|right; eauto].
Qed.

Lemma omap_present {A} (l : list (option A)) x : x ∈ omap (fun o => o) l <-> Some x ∈ l.
Proof. rewrite list_elem_of_omap. naive_solver. Qed.

(** The values of a Map whose keys are those of its rows. *)
Definition keyed (acc : list (string * KernelRow)) : Prop := keys acc = map row_key (map snd acc).

Lemma add_first_spec acc row :
  keyed acc -> NoDup (keys acc) ->
  keyed (add_first acc row) /\ NoDup (keys (add_first acc row))
  /\ (forall r, r ∈ map snd (add_first acc row) -> r ∈ map snd acc \/ r = row)
  /\ (forall r, r ∈ map snd acc -> r ∈ map snd (add_first acc row))
  /\ In (row_key row) (keys (add_first acc row)).
Proof.
  intros Hk Hn. unfold add_first. destruct (has_own acc (row_key row)) eqn:E.
  - apply has_own_keys in E. split_and!; auto.
  - assert (~ In (row_key row) (keys acc)) as Hnew by (intros H%has_own_keys; congruence).
    unfold keyed, keys in *. rewrite !map_app. cbn. split_and!.
    + by rewrite Hk.
    + apply list.NoDup_app. split_and!; [done| |apply NoDup_singleton].
      intros k Hk1 ->%list_elem_of_singleton. by apply Hnew, list_elem_of_In.
    + intros r. rewrite elem_of_app, list_elem_of_singleton. tauto.
    + intros r Hr. rewrite elem_of_app. by left.
    + apply in_or_app. right. by left.
Qed.

Lemma dedupe_acc rows acc :
  keyed acc -> NoDup (keys acc) ->
  let out := fold_left add_first rows acc in
  keyed out /\ NoDup (keys out)
  /\ (forall r, r ∈ map snd out -> r ∈ map snd acc \/ r ∈ rows)
  /\ (forall r, r ∈ map snd acc -> r ∈ map snd out)
  /\ (forall r, r ∈ rows -> In (row_key r) (keys out)).
Proof.
  revert acc. induction rows as [|row rows IH]; intros acc Hk Hn; cbn zeta; cbn [fold_left].
  { split_and!; auto. by intros r H%elem_of_nil. }
  destruct (add_first_spec acc row Hk Hn) as (Hk' & Hn' & Hfrom & Hkeep & Hin).
  destruct (IH (add_first acc row) Hk' Hn') as (Hk2 & Hn2 & Hfrom2 & Hkeep2 & Hin2). split_and!; try done.
  - intros r [[H| ->]%Hfrom|H]%Hfrom2; rewrite elem_of_cons; auto.
  - auto.
  - intros r [->|H]%elem_of_cons; [|auto]. unfold keyed in *. rewrite Hk' in Hin. rewrite Hk2.
    apply in_map_iff in Hin as (x & Hx & Hin). apply in_map_iff. exists x. split; [done|].
    apply list_elem_of_In, Hkeep2. by apply list_elem_of_In.
Qed.

Lemma dedupe_spec rows :
  NoDup (map row_key (dedupe rows)) /\ (forall r, r ∈ dedupe rows -> r ∈ rows)
  /\ forall r, r ∈ rows -> exists r', r' ∈ dedupe rows /\ row_key r' = row_key r.
Proof.
  destruct (dedupe_acc rows [] eq_refl (NoDup_nil_2)) as (Hk & Hn & Hfrom & _ & Hin). unfold dedupe.
  unfold keyed in Hk. rewrite <- Hk. split_and!; [done| |].
  - intros r [H%elem_of_nil|H]%Hfrom; done.
  - intros r Hr. apply Hin in Hr. rewrite Hk in Hr. apply in_map_iff in Hr as (x & Hx & Hr). exists x.
    split; [by apply list_elem_of_In|done].
Qed.

Definition row_time (row : KernelRow) : Z := date_parse (k_timestamp row) ?? 0%Z.
Definition readable (row : KernelRow) : Prop := is_Some (date_parse (k_timestamp row)).

Lemma insert_sorted_ext {A} (f g : A -> A -> bool) x l :
  List.Forall (fun y => f y x = g y x) l -> insert_sorted f x l = insert_sorted g x l.
Proof. induction 1 as [|y l Hy _ IH]; [done|]. cbn. by rewrite Hy, IH. Qed.

Lemma stable_sort_ext {A} (f g : A -> A -> bool) l :
  (forall a b, a ∈ l -> b ∈ l -> f a b = g a b) -> stable_sort f l = stable_sort g l.
Proof.
  induction l as [|x l IH]; intros H; [done|].
  change (insert_sorted f x (stable_sort f l) = insert_sorted g x (stable_sort g l)).
  rewrite IH by (intros; apply H; by right).
  apply insert_sorted_ext. rewrite List.Forall_forall. intros y Hy. apply H; [right|left].
  apply list_elem_of_In in Hy. by rewrite stable_sort_perm in Hy.
Qed.

Lemma sorted_latest rows :
  List.Forall readable rows -> stable_sort (later date_parse) rows = stable_sort (Client.latest row_time) rows.
Proof.
  rewrite List.Forall_forall. intros H. apply stable_sort_ext. intros a b Ha%list_elem_of_In%H Hb%list_elem_of_In%H.
  unfold later, Client.latest, row_time. destruct Ha as [x ->], Hb as [y ->]. done.
Qed.

(** The events there are: those of the history and of the activity. *)
Definition event_of (s : State) (row : KernelRow) : Prop :=
  (exists p, p ∈ history s /\ history_row time_label p = Ok (Some row))
  \/ exists a, a ∈ activity s /\ activity_row time_label a = Ok (Some row).

Lemma kernel_events_inv s rows :
  kernelEvents date_parse time_label s = Ok rows ->
  exists merged, rows = take 25 (stable_sort (later date_parse) (dedupe merged))
    /\ forall row, row ∈ merged <-> event_of s row.
Proof.
  unfold kernelEvents. destruct (res_mapM _ (history s)) as [hs|] eqn:Eh; [|done].
  destruct (res_mapM _ (activity s)) as [acts|] eqn:Ea; [|done]. cbn. intros [= <-]. eexists. split; [done|].
  intros row. rewrite omap_present, elem_of_app, (res_mapM_elem _ _ _ Eh), (res_mapM_elem _ _ _ Ea). done.
Qed.

Definition all_categories : list KernelTelemetryCategory := [k_exec; k_integrity; k_attestation; k_update; k_runtime].
Definition in_count (c : KernelTelemetryCategory) (rows : list KernelRow) : nat := length (List.filter (in_category c) rows).

Lemma category_str_inj c c' : category_str c = category_str c' -> c = c'.
Proof. by destruct c, c'. Qed.

Lemma counts_acc rows acc c :
  own_get (fold_left count_category rows acc) (category_str c) ?? 0%nat
  = (own_get acc (category_str c) ?? 0%nat) + in_count c rows.
Proof.
  revert acc. induction rows as [|row rows IH]; intros acc; cbn [fold_left].
  { unfold in_count. cbn. lia. }
  rewrite IH. unfold in_count. cbn [List.filter]. unfold count_category, in_category at 2.
  destruct (String.eqb_spec (category_str (category (k_event row))) (category_str c)) as [->|Hne].
  - rewrite own_get_put_eq. cbn. lia.
  - by rewrite own_get_put_ne.
Qed.

Lemma counts_spec rows c : own_get (kernelCategoryCounts rows) (category_str c) ?? 0%nat = in_count c rows.
Proof. unfold kernelCategoryCounts. by rewrite counts_acc. Qed.

Lemma in_count_cons c row rows :
  in_count c (row :: rows) = ((if in_category c row then 1 else 0) + in_count c rows)%nat.
Proof. unfold in_count. cbn. by destruct (in_category c row). Qed.

Lemma counts_total rows : list_sum (map (fun c => in_count c rows) all_categories) = length rows.
Proof.
  induction rows as [|row rows IH]; [done|]. unfold list_sum in *. cbn [map all_categories fold_right] in *.
  rewrite !in_count_cons. unfold in_category. cbn [length]. rewrite <- IH.
  destruct (category (k_event row)); cbn -[in_count]; lia.
Qed.

Lemma rates_on_scale :
  forallb (fun n => forallb (fun k =>
    Num.within Num.zero hundred (Num.mul (Num.div (Num.of_nat k) (Num.of_nat n)) hundred)) (seq 0 (S n))) (seq 1 25) = true.
Proof. vm_compute. reflexivity. Qed.

Lemma filter_length_le {A} (f : A -> bool) l : (length (List.filter f l) <= length l)%nat.
Proof. induction l as [|x l IH]; cbn; [done|]. destruct (f x); cbn; lia. Qed.

Lemma rate_on_scale n k :
  (1 <= n <= 25)%nat -> (k <= n)%nat -> on_scale (Num.mul (Num.div (Num.of_nat k) (Num.of_nat n)) hundred).
Proof.
  intros Hn Hk. pose proof rates_on_scale as H. rewrite forallb_forall in H.
  specialize (H n ltac:(apply in_seq; lia)). rewrite forallb_forall in H. apply H, in_seq. lia.
Qed.

Lemma error_rate_on_scale rows r : (length rows <= 25)%nat -> k_errorRate (kernelSummary rows) = Some r -> on_scale r.
Proof.
  destruct rows as [|row rows]; [done|]. intros Hlen [= <-].
  apply (rate_on_scale (length (row :: rows)) (length (List.filter failing_event (row :: rows)))).
  - split; [cbn; lia|done].
  - apply filter_length_le.
Qed.

Lemma shown_of_dedupe n before merged row :
  row ∈ take n (stable_sort before (dedupe merged)) -> row ∈ merged.
Proof.
  intros H. apply (dedupe_spec merged). rewrite <- (stable_sort_perm before).
  by eapply elem_of_take in H as (i & Hi & _); eapply list_elem_of_lookup_2.
Qed.

Lemma shown_keys n before merged : NoDup (map row_key (take n (stable_sort before (dedupe merged)))).
Proof.
  destruct (dedupe_spec merged) as [Hn _]. rewrite <- (stable_sort_perm before) in Hn.
  rewrite <- (take_drop n (stable_sort before _)) in Hn. rewrite map_app in Hn. by apply list.NoDup_app in Hn as [? _].
Qed.

(** Reports whose values can be written as text. *)
Definition reports_plain (s : State) : Prop :=
  List.Forall (fun p => plain (p_metrics p) = true) (history s)
  /\ List.Forall (fun a => plain (a_detail a) = true) (activity s).

Lemma kernel_row_returns v t : plain v = true -> returns (kernel_row time_label v t).
Proof.
  intros Hv. unfold kernel_row. destruct (_ || _); [by eexists|].
  destruct (parseKernelTelemetryEvent v); [|by eexists]. apply returns_bind; [|by eexists].
  by apply plain_to_str, plain_vnullish; [apply plain_prop|].
Qed.

Lemma kernel_events_return s : reports_plain s -> returns (kernelEvents date_parse time_label s).
Proof.
  intros [Hh Ha]. unfold kernelEvents.
  apply returns_bind; [|intros hs; apply returns_bind; [|by eexists]]; apply returns_mapM.
  - eapply List.Forall_impl; [|exact Hh]. intros p Hp. by apply kernel_row_returns, plain_prop.
  - eapply List.Forall_impl; [|exact Ha]. intros a Hp. unfold activity_row.
    destruct (negb _); [by eexists|]. by apply kernel_row_returns, plain_prop, plain_vnullish.
Qed.

(** [C31] The feed of kernel events.  It has at most 25 events, all reported by
    the history or the activity of the device and no two with the same number
    and time; when their times can be read it has the latest of the distinct
    events, latest first, and leaves out nothing later.  Each category counts
    its events, the counts add up to the feed, choosing a category shows that
    many, and the error rate lies between 0 and 100.  It is computed without
    exception if the reports hold values that can be written as text. *)
Theorem kernel_feed (s : State) :
  (reports_plain s -> exists rows, kernelEvents date_parse time_label s = Ok rows)
  /\ forall rows, kernelEvents date_parse time_label s = Ok rows ->
  (length rows <= 25)%nat /\ NoDup (map row_key rows) /\ (forall row, row ∈ rows -> event_of s row)
  /\ ((forall row, event_of s row -> readable row) ->
      exists events, (forall e, e ∈ events -> event_of s e)
        /\ (forall e, event_of s e -> exists e', e' ∈ events /\ row_key e' = row_key e)
        /\ top 25 row_time events rows)
  /\ (forall c, own_get (kernelCategoryCounts rows) (category_str c) ?? 0%nat
                = length (filteredKernelEvents (s <| kernelCategoryFilter := Some c |>) rows))
  /\ list_sum (map (fun c => own_get (kernelCategoryCounts rows) (category_str c) ?? 0%nat) all_categories) = length rows
  /\ (forall r, k_errorRate (kernelSummary (filteredKernelEvents s rows)) = Some r -> on_scale r).
Proof.
  split; [apply kernel_events_return|]. intros rows (merged & -> & Hm)%kernel_events_inv.
  assert (length (take 25 (stable_sort (later date_parse) (dedupe merged))) <= 25)%nat as Hlen by (rewrite length_take; lia).
  split_and!.
  - done.
  - apply shown_keys.
  - intros row H%shown_of_dedupe. by apply Hm.
  - intros Hread. destruct (dedupe_spec merged) as (_ & Hsub & Hall). exists (dedupe merged). split_and!.
    + intros e He. by apply Hm, Hsub.
    + intros e He%Hm. by apply Hall.
    + rewrite sorted_latest; [apply top_sorted|]. rewrite List.Forall_forall. intros e He%list_elem_of_In.
      by apply Hread, Hm, Hsub.
  - intros c. apply counts_spec.
  - rewrite (map_ext _ _ (counts_spec _)). apply counts_total.
  - intros r. apply error_rate_on_scale. unfold filteredKernelEvents. destruct (kernelCategoryFilter s); [|done].
    etrans; [apply filter_length_le|done].
Qed.

(** ** Loads *)

(** Everything that is read from the device. *)
Definition readings (s : State) : jsval * list TelemetryHistoryPoint * list ActivityEvent * NetworkSnapshotState :=
  (latest s, history s, activity s, networkSnapshots s).

Lemma finally_same mode s :
  readings (load_finally mode s) = readings s /\ selectedDevice (load_finally mode s) = selectedDevice s
  /\ devices (load_finally mode s) = devices s /\ page_error (load_finally mode s) = page_error s.
Proof. by destruct mode. Qed.

Lemma effective_device_spec selected l :
  let d := effectiveDevice selected l in
  (d = "" -> forall x, head l = Some x -> o_id x = "")
  /\ (d <> "" -> exists x, x ∈ l /\ o_id x = d)
  /\ (selected <> "" -> (exists x, x ∈ l /\ o_id x = selected) -> d = selected).
Proof.
  cbn. unfold effectiveDevice. destruct (truthy_str selected && existsb _ l) eqn:E.
  - apply andb_true_iff in E as [Hs (x & Hx & Hid%String.eqb_eq)%existsb_exists].
    apply truthy_str_spec in Hs. split_and!; [done| |done]. intros _. exists x. split; [by apply list_elem_of_In|done].
  - split_and!.
    + destruct l as [|x l]; [done|]. cbn. by intros Hid y [= <-].
    + destruct l as [|x l]; [done|]. intros _. exists x. split; [left|done].
    + intros Hs%truthy_str_spec (x & Hx & Hid). rewrite Hs in E. cbn in E. exfalso.
      apply (not_true_iff_false (existsb _ l)) in E. apply E, existsb_exists. exists x.
      split; [by apply list_elem_of_In|by apply String.eqb_eq].
Qed.

Lemma dispatch_failure_none rs : dispatch_failure rs = None <-> forallb ok rs = true.
Proof. induction rs as [|r rs IH]; [done|]. cbn. by destruct (ok r). Qed.

(** Loading the page of telemetry, and taking a network snapshot.  A load
    keeps the device it was started for while that is listed, and else turns
    to the first one; it asks only for that device, which it also selects.
    Without the list, or when the latest reading or the history fails, the
    readings stay and an error is shown; when both arrive they are shown even
    if the activity or the commands cannot be read.  A snapshot sends exactly
    two commands, to the selected device, none while one is under way, and
    succeeds exactly when both were accepted. *)
Theorem telemetry_load (mode : Mode) (c : Closure) (now : string) (s : State)
    (r : Reply (option (list (string * option string)))) (b : Bundle) :
  (payload_of r = None ->
     readings (devices_end mode c now r s).1 = readings s /\ (devices_end mode c now r s).2 = None
     /\ page_error (devices_end mode c now r s).1 = Some "Failed to load telemetry snapshot.")
  /\ (forall l, payload_of r = Some l ->
        let shown := map device_option (l ?? []) in
        let '(s', next) := devices_end mode c now r s in
        devices s' = shown
        /\ (selectedDevice s' = "" <-> next = None)
        /\ (forall d, next = Some d -> d = selectedDevice s' /\ readings s' = readings s /\ exists x, x ∈ shown /\ o_id x = d)
        /\ (c_device c <> "" -> (exists x, x ∈ shown /\ o_id x = c_device c) -> next = Some (c_device c)))
  /\ (payload_of (latestResult b) = None \/ payload_of (historyResult b) = None ->
        readings (bundle_end date_parse url_pathname mode now b s) = readings s
        /\ page_error (bundle_end date_parse url_pathname mode now b s) = Some "Failed to load telemetry snapshot.")
  /\ (forall x points, payload_of (latestResult b) = Some x -> payload_of (historyResult b) = Some points ->
        latest (bundle_end date_parse url_pathname mode now b s) = x
        /\ history (bundle_end date_parse url_pathname mode now b s) = points ?? [])
  /\ (forall u1 u2 s' rs, dispatch_start u1 u2 s = Some (s', rs) ->
        rs = map command_request (snapshot_payloads u1 u2 (selectedDevice s)) /\ length rs = 2%nat
        /\ selectedDevice s <> "" /\ networkDispatching s = false /\ dispatch_start u1 u2 s' = None)
  /\ forall rs, (dispatch_answer rs).2 = true <-> exists l, rs = Some l /\ forallb ok l = true.
Proof.
  split_and!.
  - intros Hr. unfold devices_end. rewrite Hr. cbn. by destruct mode.
  - intros l Hl shown. unfold devices_end. rewrite Hl. fold shown.
    destruct (effective_device_spec (c_device c) shown) as (_ & Hin & Hkeep).
    destruct (truthy_str (effectiveDevice (c_device c) shown)) eqn:E.
    + apply truthy_str_spec in E. split_and!; [done| |..].
      * split; [by intros H; exfalso; apply E|done].
      * intros d [= <-]. split_and!; [done|done|]. by apply Hin.
      * intros H1 H2. by rewrite (Hkeep H1 H2).
    + apply truthy_str_false in E. split_and!; [by destruct mode| |done|].
      * by rewrite E; destruct mode.
      * intros H1 H2. exfalso. apply H1. by rewrite <- (Hkeep H1 H2).
  - intros H. unfold bundle_end. destruct (payload_of (latestResult b)); [|by destruct mode].
    destruct (payload_of (historyResult b)); [by destruct H|by destruct mode].
  - intros x points Hx Hp. unfold bundle_end. rewrite Hx, Hp. unfold take_activity, take_commands.
    destruct (reply_ok (activityResult b)), (payload_of (activityResult b)); cbn; try (by destruct mode);
      destruct (reply_ok (commandResult b)), (payload_of (commandResult b)); cbn; by destruct mode.
  - intros u1 u2 s' rs. unfold dispatch_start. destruct (networkDispatching s) eqn:Ed; [done|]. cbn.
    destruct (truthy_str (selectedDevice s)) eqn:Es; [|done]. intros [= <- <-]. apply truthy_str_spec in Es.
    by split_and!.
  - intros [rs|]; cbn; [|split; [done|by intros (l & [=] & _)]].
    pose proof (dispatch_failure_none rs) as H. destruct (dispatch_failure rs); cbn.
    + split; [done|]. intros (l & [= <-] & Hl). by apply H in Hl.
    + split; [|done]. intros _. exists rs. split; [done|by apply H].
Qed.
End Laws.

(** ** Examples *)

Module TelemetryDemo.

(** Times are written as numbers. *)
Definition decimal (t : string) : option Z := Z.of_N <$> decimal_value t 0.
Definition same (t : string) : string := t.
Definition no_url (u : string) : option string := None.

Definition event (n : Z) (category : string) : jsval :=
  JObj [("event_id", JNum (Num.of_Z n)); ("payload", JObj [("category", JStr category); ("status", JStr "ok")])].
Definition reading (t : string) (metrics : obj) : TelemetryHistoryPoint :=
  {| p_timestamp := t; avg_cpu := JUndef; avg_ram := JUndef; avg_disk_usage := JUndef; network_tx := JUndef;
     network_rx := JUndef; risk_score_avg := JUndef; risk_score := JUndef; p_metrics := JObj metrics |}.

Definition monitored : State := init "a"
  <| history := [reading "10" [("cpu", JStr "130%"); ("kernel_event", event 1 "exec")];
                 reading "20" [("cpu", JStr "n/a"); ("kernel_event", event 2 "update")];
                 reading "20" [("kernel_event", event 2 "update")]] |>.

Definition feed : list KernelRow := match kernelEvents decimal same monitored with Ok rows => rows | Exn _ => [] end.

Lemma kernel_feed_witness :
  kernelEvents decimal same monitored = Ok feed /\ map row_key feed = ["2-20"; "1-10"] /\ NoDup (map row_key feed).
Proof.
  assert (kernelEvents decimal same monitored = Ok feed) as H by (vm_compute; reflexivity).
  split; [exact H|]. split; [vm_compute; reflexivity|].
  destruct (kernel_feed decimal same monitored) as [_ Hf]. exact (proj1 (proj2 (Hf feed H))).
Defined.

Definition fleet : Reply (option (list (string * option string))) :=
  Replied 200 (Some (Some [("a", Some "Alpha"); ("b", None)])).
Definition arrived : Bundle :=
  {| latestResult := Replied 200 (Some (JStr "reading of a")); historyResult := Replied 200 (Some (Some []));
     activityResult := Replied 200 (Some (Some [])); commandResult := Replied 200 (Some (Some [])) |}.

Lemma telemetry_load_witness :
  (devices_end silent {| c_device := "b"; c_window := "24h" |} "now" fleet (init "b")).2 = Some "b"
  /\ latest (bundle_end decimal no_url silent "now" arrived (init "b")) = JStr "reading of a".
Proof.
  destruct (telemetry_load decimal no_url silent {| c_device := "b"; c_window := "24h" |} "now" (init "b") fleet arrived)
    as (_ & Hdev & _ & Hbun & _).
  split; [|exact (proj1 (Hbun _ _ eq_refl eq_refl))].
  specialize (Hdev _ eq_refl). cbn in Hdev. destruct Hdev as (_ & _ & _ & Hkeep). reflexivity.
Defined.

(** A reading above the scale is shown at its end, one without a number not
    at all. *)
Lemma charts_example : map c_value (cpu (chartData same monitored)) = [hundred].
Proof. vm_compute. reflexivity. Qed.

(** A load that began before another device was chosen chooses the old one
    again. *)
Lemma stale_load_reselects :
  selectedDevice (devices_end silent {| c_device := "a"; c_window := "24h" |} "now" fleet (init "a" <| selectedDevice := "b" |>)).1
  = "a".
Proof. vm_compute. reflexivity. Qed.

(** The readings of the device a load asked for are shown under whatever
    device is selected when they arrive. *)
Lemma foreign_readings_shown :
  let s := bundle_end decimal no_url silent "now" arrived (init "b") in
  selectedDevice s = "b" /\ latest s = JStr "reading of a".
Proof. done. Qed.

(** An error stays on the page after the polls succeed again. *)
Lemma error_stays :
  page_error (bundle_end decimal no_url silent "now" arrived (load_start silent (load_failed (init "a"))))
  = Some "Failed to load telemetry snapshot.".
Proof. vm_compute. reflexivity. Qed.

End TelemetryDemo.
