(* ===== verification/DeviceDetail.v ===== *)
(** * The page of one device

    src/app/device-detail/components/DeviceDetailPageContent.tsx: what is
    known about a device, its commands, telemetry, alerts and audit, and the
    library of commands with its form, the dispatch of a command and the
    polling of its result.  The page has a copy of src/lib/commandParams.ts.
    [date_parse] and [local] are the parameters of Module DateTime,
    [url_pathname] the one of Module Results.  The laws are in
    [DeviceDetailLaws]. *)

From S2P Require Import Prelude JsNumber JsString JsValue Http Session Commands RenderModel Telemetry Devices Tables Loader TelemetryPage.
Import Resolver Results DateTime.

(** ** Data *)

Inductive DeviceStatus := online | offline | quarantined | degraded.
Inductive ComplianceStatus := compliant | non_compliant | drift.
Inductive CommandBlockReason := unknown_command | not_supported_runtime.
Inductive Risk := low | medium | high | critical.

#[export] Instance DeviceStatus_eq_dec : EqDecision DeviceStatus.
Proof. solve_decision. Defined.

Record Device := {
  dev_id : string;
  dev_hostname : string;
  dev_osBuild : string;
  dev_owner : string;
  dev_status : DeviceStatus;
  dev_riskScore : num;
  dev_compliance : ComplianceStatus;
  dev_lastSeen : string;
  dev_agentVersion : string;
  dev_policySync : option bool;
  dev_kernelGuard : option bool;
  dev_cpu : string;
  dev_ram : string;
  dev_disk : string;
}.

Record CommandEntry := {
  ce_id : string;
  ce_method : string;
  ce_params : obj;
  ce_state : CommandState;
  ce_actor : string;
  ce_queuedAt : string;
  ce_completedAt : option string;
  ce_duration : option string;
  ce_resultPreview : option string;
}.

Inductive TraceStatus := done_step | active_step | pending_step | error_step.
Record TraceStep := { step_label : string; step_detail : string; step_status : TraceStatus; step_time : option string }.

(** A number, or a text. *)
Inductive Amount := Quantity (n : num) | Written (s : string).

Record DeviceDetailApi := {
  api_device_id : string;
  api_owner_email : option string;
  api_device_name : option string;
  api_lifecycle_state : option string;
  api_last_seen : option string;
  api_agent_version : option string;
  api_os_build : option string;
  api_risk_score : option Amount;
  api_policy_in_sync : option bool;
  api_compliance_status : option string;
  api_resolved_os_build : option string;
  api_resolved_presence_state : option string;
  api_resolved_compliance_status : option string;
  api_resolved_policy_in_sync : option bool;
  api_kernel_guard : option bool;
  api_cpu : option num;
  api_ram : option num;
  api_disk_usage : option num;
  api_telemetry_risk : option Amount;
}.

Record CommandCapabilities := { canonical_methods : list string; runtime_supported_methods : list string }.

Record DeviceKernelEvent := {
  ke_id : string;
  ke_category : KernelTelemetryCategory;
  ke_opcode : string;
  ke_status : string;
  ke_errorCode : num;
  ke_durationMs : num;
  ke_queueDepth : num;
  ke_timestamp : string;
}.

Record AlertApi := {
  al_id : option string;
  al_device : option string;
  al_severity : option string;
  al_message : option string;
  al_timestamp : option string;
  al_acknowledged : bool;
}.
Record DeviceAlert := { alert_id : string; alert_severity : string; alert_message : string; alert_time : string; alert_status : string }.

Record AuditApi := { au_id : option string; au_timestamp : option string; au_event_type : option string; au_summary : option string }.
Record DeviceAuditEntry := { audit_id : string; audit_type : string; audit_actor : string; audit_action : string; audit_time : string }.

(** ** The library of commands *)

Record LibraryCommand := { cmd_id : string; cmd_label : string; cmd_desc : string; cmd_risk : Risk }.
Record Category := { category : string; commands : list LibraryCommand }.

Definition command (id label desc : string) (risk : Risk) : LibraryCommand :=
  {| cmd_id := id; cmd_label := label; cmd_desc := desc; cmd_risk := risk |}.

Definition COMMAND_CATEGORIES : list Category :=
  [{| category := "System"; commands := [
      command "system-info" "System Info" "Full OS, hardware, and agent info" low;
      command "hardware-info" "Hardware Info" "CPU, RAM, GPU, motherboard details" low;
      command "performance-metrics" "Performance Metrics" "Real-time CPU, RAM, disk, network usage" low;
      command "uptime" "Uptime" "System uptime and boot time" low] |};
   {| category := "Screen & Display"; commands := [
      command "screenshot-capture" "Screenshot" "Capture current screen state" medium;
      command "display-info" "Display Info" "Monitor resolution, refresh rate, DPI" low;
      command "lock_screen" "Lock Screen" "Immediately lock the workstation" high] |};
   {| category := "Filesystem"; commands := [
      command "filesystem" "Browse Filesystem" "Interactive file tree explorer" low;
      command "download-file" "Download File" "Retrieve a file from the device" medium;
      command "upload-file" "Upload File" "Push a file to the device" high;
      command "create-file" "Create File" "Create a new file at a path" high;
      command "create-folder" "Create Folder" "Create a new directory" high;
      command "delete-file" "Delete File" "Remove a file from the device" high;
      command "delete-folder" "Delete Folder" "Remove a directory recursively" high] |};
   {| category := "Processes"; commands := [
      command "process-list" "Process List" "All running processes with CPU/RAM" low;
      command "kill-process" "Kill Process" "Terminate a process by PID or name" high;
      command "kill-process-tree" "Kill Process Tree" "Terminate a process and descendants by PID" high] |};
   {| category := "Network"; commands := [
      command "network-info" "Network Info" "Interfaces, IPs, DNS, gateway" low;
      command "ping" "Ping" "Connectivity check to the agent" low;
      command "netstat" "Netstat" "Active connections and listening ports" low;
      command "dns-lookup" "DNS Lookup" "Resolve a hostname from the device" low] |};
   {| category := "Registry"; commands := [
      command "registry-read" "Registry Read" "Read a registry key value" medium;
      command "registry-write" "Registry Write" "Write a value to the registry" high;
      command "registry-delete" "Registry Delete" "Delete a registry key" high] |};
   {| category := "Services"; commands := [
      command "services-list" "Services List" "All Windows services and their states" low;
      command "service-start" "Start Service" "Start a stopped Windows service" high;
      command "service-stop" "Stop Service" "Stop a running Windows service" high;
      command "service-restart" "Restart Service" "Restart a Windows service" high] |};
   {| category := "Event Logs"; commands := [
      command "event-logs" "Event Logs" "Windows event log entries" low;
      command "security-logs" "Security Logs" "Security audit log entries" low;
      command "application-logs" "Application Logs" "Application event log entries" low] |};
   {| category := "Scheduled Tasks"; commands := [
      command "scheduled-tasks" "Scheduled Tasks" "All Windows scheduled tasks" low;
      command "create-task" "Create Task" "Create a new scheduled task" high;
      command "delete-task" "Delete Task" "Remove a scheduled task" high] |};
   {| category := "Users & Sessions"; commands := [
      command "users-list" "Users List" "Local and domain user accounts" low;
      command "active-sessions" "Active Sessions" "Currently logged-in users" low;
      command "logout_user" "Log Off User" "Force log off a user session" high] |};
   {| category := "Power"; commands := [
      command "power-info" "Power Info" "Battery, power plan, sleep settings" low;
      command "shutdown_device" "Shutdown" "Gracefully shut down the device" critical;
      command "reboot_device" "Reboot" "Restart the device" critical;
      command "sleep" "Sleep" "Put the device to sleep" high] |};
   {| category := "Clipboard & Audio"; commands := [
      command "clipboard-read" "Read Clipboard" "Get current clipboard contents" medium;
      command "clipboard-write" "Write Clipboard" "Set clipboard contents" medium;
      command "audio-info" "Audio Info" "Audio devices and volume levels" low;
      command "set-volume" "Set Volume" "Adjust system volume level" medium] |};
   {| category := "Software"; commands := [
      command "installed-apps" "Installed Apps" "All installed applications" low;
      command "startup-items" "Startup Items" "Programs that run at startup" low;
      command "uninstall-app" "Uninstall App" "Remove an installed application" high] |}].

Definition in_search (search : string) (cmd : LibraryCommand) : bool :=
  negb (truthy_str search) || includes (toLowerCase (cmd_label cmd)) (toLowerCase search)
  || includes (toLowerCase (cmd_desc cmd)) (toLowerCase search).

Definition filteredCategories (search : string) : list Category :=
  List.filter (fun cat => negb (truthy_str search) || negb (Nat.eqb (length (commands cat)) 0))
    (map (fun cat => {| category := category cat; commands := List.filter (in_search search) (commands cat) |})
       COMMAND_CATEGORIES).

(** ** Parameters *)

Definition number (z : Z) : jsval := JNum (Num.of_Z z).

Definition COMMAND_PARAM_TEMPLATES : obj :=
  map (fun kv => (kv.1, JObj kv.2))
  [("download_file", [("path", JStr "C:\ProgramData\Quoodle\device_id"); ("max_bytes", number 4096)]);
   ("upload_file", [("artifact_id", JStr "<artifact-id>");
                    ("destination", JStr "C:\Users\Public\uploaded.bin"); ("overwrite", JBool true)]);
   ("create_directory", [("path", JStr "C:\Users\Public\quoodle_test"); ("recursive", JBool true)]);
   ("create_file", [("path", JStr "C:\Users\Public\quoodle_test\note.txt"); ("overwrite", JBool true)]);
   ("delete_file", [("path", JStr "C:\Users\Public\quoodle_test\note.txt"); ("confirm", JBool true)]);
   ("delete_directory", [("path", JStr "C:\Users\Public\quoodle_test"); ("confirm", JBool true)]);
   ("kill_process", [("pid", number 1234)]);
   ("kill_process_tree", [("pid", number 1234)])].

Definition COMMAND_REQUIRED_PARAM_HINTS : obj :=
  map (fun kv => (kv.1, JStr kv.2))
  [("download_file", "Required: path");
   ("upload_file", "Required: artifact_id, destination");
   ("create_directory", "Required: path");
   ("create_file", "Required: path");
   ("delete_file", "Required: path, confirm=true");
   ("delete_directory", "Required: path, confirm=true");
   ("kill_process", "Required: pid");
   ("kill_process_tree", "Required: pid")].

Definition defaultParamsForCommand (method : string) : jsval :=
  vnullish (index COMMAND_PARAM_TEMPLATES (resolveCommandMethod method)) JNull.

Definition requiredParamsHintForCommand (method : string) : jsval :=
  vnullish (index COMMAND_REQUIRED_PARAM_HINTS (resolveCommandMethod method)) JNull.

Definition isAcceptedValue (value : jsval) : bool :=
  match value with
  | JBool b => b
  | JNum n => Num.eqb n (Num.of_Z 1)
  | JStr s => let normalized := toLowerCase (trim s) in has ["1"; "true"; "yes"; "on"] normalized
  | _ => false
  end.

Definition whole_positive (n : num) : bool := Num.is_integer n && Num.gt n Num.zero.

Definition parsePositiveInteger (value : jsval) : option num :=
  match value with
  | JNum n => if whole_positive n then Some n else None
  | JStr s =>
      if truthy_str (trim s) && whole_positive (number_of_string s) then Some (number_of_string s) else None
  | _ => None
  end.

Definition text_param (params : obj) (k : string) : string := match get params k with JStr s => trim s | _ => "" end.

(** The message of the first missing field. *)
Definition missing (field : string) : option string := Some ("Missing required field: " +:+ field).

Definition validateCommandParams (method : string) (params : obj) : option string :=
  let lacks k := negb (truthy_str (text_param params k)) in
  match resolveCommandMethod method with
  | JStr resolved =>
      if has ["download_file"; "create_directory"; "create_file"] resolved then
        if lacks "path" then missing "path" else None
      else if resolved === "upload_file" then
        if lacks "artifact_id" then missing "artifact_id"
        else if lacks "destination" then missing "destination" else None
      else if has ["delete_file"; "delete_directory"] resolved then
        if lacks "path" then missing "path"
        else if negb (isAcceptedValue (get params "confirm")) then missing "confirm=true" else None
      else if has ["kill_process"; "kill_process_tree"] resolved then
        match parsePositiveInteger (get params "pid") with
        | Some pid => if Num.lt pid (Num.of_Z 2) then Some "Missing/invalid required field: pid (integer >= 2)" else None
        | None => Some "Missing/invalid required field: pid (integer >= 2)"
        end
      else None
  | _ => None
  end.

(** The parameters, or the message. *)
Definition parseJsonParams (input : string) : obj + string :=
  let trimmed := trim input in
  if negb (truthy_str trimmed) then inl []
  else match json_parse trimmed with
  | None => inr "Invalid JSON parameters."
  | Some (JObj o) => inl o
  | Some _ => inr "Parameters must be a JSON object."
  end.

(** ** Values of the page *)

Definition normalizeStatus (value : option string) : DeviceStatus :=
  let normalized := toLowerCase (value ?? "") in
  if (normalized === "active") || (normalized === "online") then online
  else if normalized === "quarantined" then quarantined
  else if normalized === "degraded" then degraded
  else offline.

Definition normalizeCompliance (value : option string) : ComplianceStatus :=
  let normalized := toLowerCase (value ?? "") in
  if normalized === "compliant" then compliant
  else if has ["drift"; "unknown"; "degraded"] normalized then drift
  else non_compliant.

Definition normalizeRisk (value : option Amount) : num :=
  let parsed := match value with Some (Quantity n) => n | Some (Written s) => number_of_string s | None => Num.zero end in
  if negb (Num.is_finite parsed) || Num.le parsed Num.zero then Num.zero
  else if Num.gt parsed one then Num.clamp Num.zero one (Num.div parsed hundred)
  else Num.clamp Num.zero one parsed.

Definition isTerminalState (s : CommandState) : bool :=
  match s with completed | failed | expired | rejected => true | _ => false end.

Definition filled (o : option string) : bool := match o with Some s => truthy_str s | None => false end.

Definition hasRenderableResult (row : NormalizedCommandResult) : bool :=
  match nResult row with Some (_ :: _) => true | _ => false end
  || filled (resultStatus row) || filled (resultNotes row) || filled (artifactUrl row)
  || filled (artifactChecksum row) || bool_decide (is_Some (errorCode row)) || filled (errorMessage row)
  || filled (nReason row).

Definition parseTelemetryBoolean (value : jsval) : option bool :=
  match value with
  | JBool b => Some b
  | JStr s =>
      let normalized := toLowerCase (trim s) in
      if normalized === "true" then Some true else if normalized === "false" then Some false else None
  | _ => None
  end.

Definition reasonToText (reason : CommandBlockReason) : string :=
  match reason with
  | unknown_command => "Non-canonical command id"
  | not_supported_runtime => "Not supported by current runtime"
  end.

Definition getFallbackDevice (id : string) : Device :=
  {| dev_id := id; dev_hostname := id; dev_osBuild := "-"; dev_owner := "Unknown"; dev_status := offline;
     dev_riskScore := Num.zero; dev_compliance := drift; dev_lastSeen := "-"; dev_agentVersion := "-";
     dev_policySync := None; dev_kernelGuard := None; dev_cpu := "Unknown"; dev_ram := "Unknown";
     dev_disk := "Unknown" |}.

Definition buildTraceSteps (method : string) (s : CommandState) : list TraceStep :=
  let waiting := match s with queued | dispatched => true | _ => false end in
  let running := match s with queued | dispatched | ack_received | executing => true | _ => false end in
  let at_time (pending : bool) t := if pending then None else Some t in
  let fresh := match s with queued => true | _ => false end in
  [{| step_label := "Web UI"; step_detail := "Command submitted via control plane"; step_status := done_step;
      step_time := Some "21:06:01" |};
   {| step_label := "Laravel API"; step_detail := "Validated, authorized, signed payload"; step_status := done_step;
      step_time := Some "21:06:01" |};
   {| step_label := "FastAPI Gateway"; step_detail := "Signature verified, dispatched to agent channel";
      step_status := if fresh then pending_step else done_step; step_time := at_time fresh "21:06:02" |};
   {| step_label := "Windows Agent"; step_detail := "Executing: " +:+ method;
      step_status := if waiting then pending_step
                     else match s with executing => active_step | failed => error_step | _ => done_step end;
      step_time := at_time waiting "21:06:03" |};
   {| step_label := "Result Return"; step_detail := "Agent -> FastAPI -> Laravel -> UI";
      step_status := if running then pending_step else match s with failed => error_step | _ => done_step end;
      step_time := at_time running "21:06:09" |}].

Definition MAIN_TABS : list string :=
  ["Overview"; "Copilot"; "Commands"; "Trace"; "Results"; "History"; "Telemetry"; "Alerts"; "Audit"].

Definition canViewAlerts (role : option string) : bool :=
  match role with Some r => truthy_str r && (r !== "viewer") | None => false end.

Definition mainTabs (can_view : bool) : list string :=
  if can_view then MAIN_TABS else List.filter (fun tab => tab !== "Alerts") MAIN_TABS.

(** ** The page *)

Record LiveResults := {
  live_id : string;
  live_method : string;
  live_state : CommandState;
  live_output : string;
  live_steps : list TraceStep;
}.

Record State := {
  device : Device;
  isLoadingDevice : bool;
  commandHistory : list CommandEntry;
  recentResults : list NormalizedCommandResult;
  alerts : list DeviceAlert;
  auditEntries : list DeviceAuditEntry;
  telemetry : obj;
  kernelEvents : list DeviceKernelEvent;
  activeTab : string;
  commandSearch : string;
  activeCommand : option LibraryCommand;
  commandParams : string;
  isDispatching : bool;
  liveResults : option LiveResults;
  commandCapabilities : CommandCapabilities;
}.

#[export] Instance eta_detail : Eta State := fun s =>
  {| device := device s; isLoadingDevice := isLoadingDevice s; commandHistory := commandHistory s;
     recentResults := recentResults s; alerts := alerts s; auditEntries := auditEntries s;
     telemetry := telemetry s; kernelEvents := kernelEvents s; activeTab := activeTab s;
     commandSearch := commandSearch s; activeCommand := activeCommand s; commandParams := commandParams s;
     isDispatching := isDispatching s; liveResults := liveResults s;
     commandCapabilities := commandCapabilities s |}.

(** The names of the telemetry, without readings. *)
Definition metric_names : list string :=
  ["cpu"; "ram"; "disk_usage"; "network_tx"; "network_rx"; "risk_score"; "battery_pct"].
Definition no_telemetry : obj :=
  map (fun k => (k, JNull)) (metric_names ++
    ["policy_in_sync"; "compliance_status"; "os_build"; "os_version"; "agent_version"; "patch_level"; "geo_hash";
     "schema_version"; "session_id"; "seq"; "telemetry_scope"; "policy_hash"])
  ++ [("masked_fields", JArr []); ("presence_state", JNull); ("connection_mode", JNull); ("timestamp", JNull)].

Definition no_capabilities : CommandCapabilities := {| canonical_methods := []; runtime_supported_methods := [] |}.

Definition init (deviceId : string) : State :=
  {| device := getFallbackDevice deviceId; isLoadingDevice := true; commandHistory := []; recentResults := [];
     alerts := []; auditEntries := []; telemetry := no_telemetry; kernelEvents := []; activeTab := "Overview";
     commandSearch := ""; activeCommand := None; commandParams := ""; isDispatching := false; liveResults := None;
     commandCapabilities := no_capabilities |}.

Section Zone.
Context (date_parse : string -> option Z) (local : Z -> LocalTime).
Context (url_pathname : string -> option string).

Definition formatTime (iso : option string) : string := formatLocalTime date_parse local iso "-".
Definition formatDateTime (iso : option string) : string := formatLocalDateTime date_parse local iso "-".

(** [Math.round(ms / 1000)] of a span that is not negative. *)
Definition formatDuration (startIso endIso : option string) : option string :=
  match time_of date_parse startIso, time_of date_parse endIso with
  | Some start, Some stop =>
      if (stop <? start)%Z then None else Some (Num.digits ((stop - start + 500) / 1000) +:+ "s")
  | _, _ => None
  end.

(** *** Loading *)

(** [a?.trim() || b] and [x == null ? 'Unknown' : `${x}%`] *)
Definition trim_or_else (a : option string) (b : string) : string := or_else (fun s => s) (trim <$> a) b.
Definition percent_of (o : option num) : string := match o with Some n => Num.to_string n +:+ "%" | None => "Unknown" end.

Definition mapped_device (payload : DeviceDetailApi) : Device :=
  let first a b := match trim <$> a with Some s => if truthy_str s then Some s else b | None => b end in
  {| dev_id := api_device_id payload;
     dev_hostname := trim_or_else (api_device_name payload) (api_device_id payload);
     dev_osBuild := trim_or_else (api_resolved_os_build payload) (trim_or_else (api_os_build payload) "-");
     dev_owner := trim_or_else (api_owner_email payload) "Unknown";
     dev_status := normalizeStatus (first (api_resolved_presence_state payload) (api_lifecycle_state payload));
     dev_riskScore := normalizeRisk (api_risk_score payload ??? api_telemetry_risk payload);
     dev_compliance := normalizeCompliance (first (api_resolved_compliance_status payload) (api_compliance_status payload));
     dev_lastSeen := formatDateTime (api_last_seen payload);
     dev_agentVersion := trim_or_else (api_agent_version payload) "-";
     dev_policySync := api_resolved_policy_in_sync payload ??? api_policy_in_sync payload;
     dev_kernelGuard := api_kernel_guard payload;
     dev_cpu := percent_of (api_cpu payload); dev_ram := percent_of (api_ram payload);
     dev_disk := percent_of (api_disk_usage payload) |}.

Definition command_entry (cmd : NormalizedCommandResult) : CommandEntry :=
  let text o (rest : option string) := match o with Some s => if truthy_str s then Some s else rest | None => rest end in
  {| ce_id := commandId cmd; ce_method := nMethod cmd; ce_params := nParams cmd; ce_state := nState cmd;
     ce_actor := actorEmail cmd; ce_queuedAt := formatTime (queuedAt cmd);
     ce_completedAt := if filled (completedAt cmd) then Some (formatTime (completedAt cmd)) else None;
     ce_duration := formatDuration (queuedAt cmd) (completedAt cmd);
     ce_resultPreview :=
       text (errorMessage cmd) (text (nReason cmd) (text (resultNotes cmd) (text (resultStatus cmd)
         ((fun code => "error " +:+ Num.to_string code) <$> errorCode cmd)))) |}.

(** Whether the first command is asked for again, and what comes of it. *)
Definition wants_detail (rows : list NormalizedCommandResult) : option string :=
  latest ← head rows;
  if isTerminalState (nState latest) && negb (hasRenderableResult latest) then Some (commandId latest) else None.

Definition hydrated (detail : Reply CommandListRowApi) (rows : list NormalizedCommandResult) : list NormalizedCommandResult :=
  match rows, wants_detail rows, payload_of detail with
  | latest :: rest, Some _, Some d => mergeCommandDetail url_pathname latest d :: rest
  | _, _, _ => rows
  end.

Definition take_commands (detail : Reply CommandListRowApi) (payload : option (list CommandListRowApi)) (s : State) : State :=
  let rows := hydrated detail (map (mapCommandListRow url_pathname) (payload ?? [])) in
  s <| recentResults := rows |> <| commandHistory := map command_entry rows |>.

(** [payload.k ?? null], and the same behind [metrics?.] *)
Definition or_null (v : jsval) : jsval := vnullish v JNull.
Definition taken_telemetry (p : obj) : obj :=
  let m k := prop (get p "metrics") k in
  let flag v := match v with JBool b => JBool b | _ => JNull end in
  map (fun k => (k, or_null (m k))) metric_names
  ++ [("policy_in_sync", match parseTelemetryBoolean (m "policy_in_sync") with
                         | Some b => JBool b
                         | None => flag (get p "resolved_policy_in_sync")
                         end);
      ("compliance_status", or_null (vnullish (m "compliance_status") (get p "resolved_compliance_status")));
      ("os_build", or_null (vnullish (m "os_build") (get p "resolved_os_build")))]
  ++ map (fun k => (k, or_null (m k))) ["os_version"; "agent_version"; "patch_level"; "geo_hash"]
  ++ map (fun k => (k, or_null (get p k))) ["schema_version"; "session_id"; "seq"; "telemetry_scope"; "policy_hash"]
  ++ [("masked_fields", match get p "masked_fields" with JArr l => JArr l | _ => JArr [] end);
      ("presence_state", or_null (vnullish (get p "resolved_presence_state") (get p "presence_state")));
      ("connection_mode", or_null (vnullish (get p "resolved_connection_mode") (get p "connection_mode")));
      ("timestamp", or_null (get p "timestamp"))].

(** A point of the history: its timestamp and its kernel event. *)
Definition kernel_event (point : option string * jsval) : option DeviceKernelEvent :=
  match point.1 with
  | None => None
  | Some timestamp =>
      if negb (truthy_str timestamp) || negb (truthy point.2) then None
      else (fun parsed =>
        {| ke_id := Num.to_string (eventId parsed) +:+ "-" +:+ timestamp; ke_category := Telemetry.category parsed;
           ke_opcode := opcode parsed; ke_status := ev_status parsed; ke_errorCode := Telemetry.errorCode parsed;
           ke_durationMs := durationMs parsed; ke_queueDepth := queueDepth parsed; ke_timestamp := timestamp |})
      <$> parseKernelTelemetryEvent point.2
  end.

Definition later_event (a b : DeviceKernelEvent) : bool :=
  match date_parse (ke_timestamp a), date_parse (ke_timestamp b) with
  | Some x, Some y => (y - x <? 0)%Z
  | _, _ => false
  end.

Definition taken_events (points : option (list (option string * jsval))) : list DeviceKernelEvent :=
  take 10 (stable_sort later_event (omap kernel_event (points ?? []))).

Definition taken_alerts (deviceId : string) (items : option (list AlertApi)) : list DeviceAlert :=
  map (fun item =>
    {| alert_id := al_id item ?? "unknown"; alert_severity := toLowerCase (al_severity item ?? "low");
       alert_message := al_message item ?? "No message"; alert_time := formatTime (al_timestamp item);
       alert_status := if al_acknowledged item then "acknowledged" else "open" |})
    (List.filter (fun item => bool_decide (al_device item = Some deviceId)) (items ?? [])).

Definition taken_audit (entries : option (list AuditApi)) : list DeviceAuditEntry :=
  map (fun entry =>
    {| audit_id := au_id entry ?? "unknown"; audit_type := au_event_type entry ?? "event"; audit_actor := "system";
       audit_action := au_summary entry ?? ((au_event_type entry ?? "event") +:+ " event");
       audit_time := formatTime (au_timestamp entry) |}) (entries ?? []).

Record Answers := {
  deviceRes : Reply DeviceDetailApi;
  commandsRes : Reply (option (list CommandListRowApi));
  detailRes : Reply CommandListRowApi;
  telemetryRes : Reply obj;
  telemetryHistoryRes : Reply (option (list (option string * jsval)));
  alertsRes : Reply (option (list AlertApi));
  auditRes : Reply (option (list AuditApi));
  capabilitiesRes : Reply (option (list string) * option (list string));
}.

Inductive LoadMode := interactive | silent_load.

Definition load_start (mode : LoadMode) (s : State) : State :=
  match mode with interactive => s <| isLoadingDevice := true |> | silent_load => s end.

(** [loadDeviceData] after its responses. *)
Definition load_parts (deviceId : string) (can_view : bool) (a : Answers) : list (Part State) :=
  [part (deviceRes a) (fun p s => s <| device := mapped_device p |>) (fun s => s <| device := getFallbackDevice deviceId |>);
   part (commandsRes a) (take_commands (detailRes a)) (fun s => s <| commandHistory := [] |> <| recentResults := [] |>);
   part (telemetryRes a) (fun p s => s <| telemetry := taken_telemetry p |>) (fun s => s <| telemetry := no_telemetry |>);
   part (telemetryHistoryRes a) (fun p s => s <| kernelEvents := taken_events p |>) (fun s => s <| kernelEvents := [] |>);
   (if can_view
    then part (alertsRes a) (fun p s => s <| alerts := taken_alerts deviceId p |>) (fun s => s <| alerts := [] |>)
    else fun s => (s <| alerts := [] |>, true));
   part (auditRes a) (fun p s => s <| auditEntries := taken_audit p |>) (fun s => s <| auditEntries := [] |>);
   part (capabilitiesRes a)
     (fun p s => s <| commandCapabilities := {| canonical_methods := p.1 ?? []; runtime_supported_methods := p.2 ?? [] |} |>)
     (fun s => s <| commandCapabilities := no_capabilities |>)].

Definition load_end (deviceId : string) (can_view : bool) (mode : LoadMode) (a : Answers) (s : State) : State :=
  let '(s, fine) := parts (load_parts deviceId can_view a) s in
  match mode with
  | interactive => if fine then s <| isLoadingDevice := false |> else s
  | silent_load => s
  end.

Definition load_urls (deviceId from to : string) (can_view : bool) : list string :=
  let e := encodeURIComponent deviceId in
  ["/api/devices/" +:+ e; "/api/devices/" +:+ e +:+ "/commands?limit=20";
   "/api/telemetry/devices/" +:+ e +:+ "/latest";
   "/api/telemetry/devices/" +:+ e +:+ "/history?from=" +:+ encodeURIComponent from +:+ "&to="
     +:+ encodeURIComponent to +:+ "&bucket=raw"]
  ++ (if can_view then ["/api/alerts?limit=100"] else [])
  ++ ["/api/audit/device/" +:+ e +:+ "?limit=100"; "/api/commands/capabilities?device_id=" +:+ e].
End Zone.

(** *** Summaries *)

Definition telemetryCards (t : obj) : list (string * jsval) :=
  [("CPU Usage", get t "cpu"); ("RAM Usage", get t "ram"); ("Disk Usage", get t "disk_usage");
   ("Network TX", get t "network_tx"); ("Network RX", get t "network_rx"); ("Risk Score", get t "risk_score")].

Definition telemetryMetaRows (t : obj) : list (string * string) :=
  let text k := telemetryText (get t k) "Unknown" in
  [("Schema", text "schema_version"); ("Session", text "session_id"); ("Seq", text "seq");
   ("Scope", text "telemetry_scope"); ("Policy Hash", text "policy_hash");
   ("Masked Fields", telemetryMaskedFields (get t "masked_fields") "No data available");
   ("Presence", text "presence_state"); ("Connection", text "connection_mode");
   ("Policy Sync", match get t "policy_in_sync" with
                   | JNull | JUndef => "Unknown"
                   | v => if truthy v then "Synchronized" else "Mismatch"
                   end);
   ("Compliance", replace_first "_" " " (text "compliance_status"));
   ("Battery", telemetryPercent (get t "battery_pct") "No data available");
   ("Agent Version", text "agent_version"); ("OS Build", text "os_build"); ("OS Version", text "os_version");
   ("Patch Level", text "patch_level"); ("Geo Hash", text "geo_hash")].

Definition failing_kernel_event (e : DeviceKernelEvent) : bool :=
  (ke_status e !== "ok") || Num.gt (ke_errorCode e) Num.zero.

(** The number of events, and the error rate, mean latency and depth if there
    are any. *)
Definition kernelTelemetrySummary (es : list DeviceKernelEvent) : nat * option (num * num * num) :=
  match es with
  | [] => (0%nat, None)
  | _ =>
      let n := Num.of_nat (length es) in
      (length es,
       Some (Num.mul (Num.div (Num.of_nat (length (List.filter failing_kernel_event es))) n) hundred,
             Num.div (fold_left (fun sum e => Num.add sum (ke_durationMs e)) es Num.zero) n,
             fold_left Num.max (map ke_queueDepth es) (S754_infinity true)))
  end.

Definition featuredResult (rows : list NormalizedCommandResult) : option NormalizedCommandResult :=
  List.find hasRenderableResult rows ??? head rows.

(** *** Dispatching *)

Definition getCommandBlockReason (s : State) (method : string) : option CommandBlockReason :=
  match resolveCommandMethod method with
  | JStr resolved =>
      if negb (has (canonical_methods (commandCapabilities s)) resolved) then Some unknown_command
      else if negb (has (runtime_supported_methods (commandCapabilities s)) resolved) then Some not_supported_runtime
      else None
  | _ => Some unknown_command
  end.

Definition LIST_FILES_DEFAULTS : obj :=
  [("path", JStr "C:\Users"); ("recursive", JBool false); ("max_depth", number 1); ("limit", number 200);
   ("include_hidden", JBool false); ("include_system", JBool false); ("follow_symlinks", JBool false)].

Definition effectiveParams (dispatchMethod : jsval) (params : obj) : obj :=
  match dispatchMethod, params with
  | JStr "list_files", [] => LIST_FILES_DEFAULTS
  | _, _ => params
  end.

(** [dispatchCommand] up to its request, or the reason it is blocked. *)
Definition dispatchCommand (uuid method : string) (params : obj) (sensitive : bool) (s : State) : FetchRequest + CommandBlockReason :=
  match getCommandBlockReason s method with
  | Some reason => inr reason
  | None =>
      let dispatchMethod := resolveCommandMethod method in
      inl {| f_method := "POST"; f_url := "/api/commands"; f_headers := [json_content];
             f_body := Some (json_text
               [("client_message_id", JStr uuid); ("device_id", JStr (dev_id (device s))); ("method", dispatchMethod);
                ("params", JObj (effectiveParams dispatchMethod params)); ("sensitive", JBool sensitive)]) |}
  end.

Definition risky (r : Risk) : bool := match r with high | critical => true | _ => false end.

(** The button below the form: [None] when there is none or it is disabled. *)
Definition press_dispatch (uuid : string) (s : State) : option (FetchRequest + string) :=
  cmd ← activeCommand s;
  if isDispatching s || negb (bool_decide (dev_status (device s) = online))
     || bool_decide (is_Some (getCommandBlockReason s (cmd_id cmd))) then None
  else match parseJsonParams (commandParams s) with
  | inr text => Some (inr text)
  | inl params =>
      match validateCommandParams (cmd_id cmd) params with
      | Some text => Some (inr text)
      | None =>
          match dispatchCommand uuid (cmd_id cmd) params (risky (cmd_risk cmd)) s with
          | inl request => Some (inl request)
          | inr reason => Some (inr (cmd_label cmd +:+ " blocked: " +:+ reasonToText reason))
          end
      end
  end.

(** The button in a row of the history. *)
Definition press_replay (uuid : string) (cmd : CommandEntry) (s : State) : option FetchRequest :=
  match dispatchCommand uuid (ce_method cmd) (ce_params cmd) false s with
  | inl request => Some request
  | inr _ => None
  end.

(** [scanAppsNow] *)
Definition scan_request (uuid : string) (s : State) : option FetchRequest :=
  match dispatchCommand uuid "list_processes" [] false s with inl request => Some request | inr _ => None end.

(** Choosing a command of the library, with the effect that offers its
    parameters. *)
Definition offered_params (id : string) : string :=
  match defaultParamsForCommand id with JObj o => json_text_indented o | _ => "{}" end.
Definition choose (cmd : LibraryCommand) (s : State) : State :=
  s <| activeCommand := Some cmd |> <| commandParams := offered_params (cmd_id cmd) |>.

(** [readApiError] *)
Definition first_error (errors : jsval) : option (string * jsval) :=
  match errors with
  | JObj _ | JArr _ =>
      match own_entries errors with
      | (field, JArr (detail :: _)) :: _ => Some (field, detail)
      | _ => None
      end
  | _ => None
  end.

Definition failed_rules (compliance : jsval) : res (list string) :=
  match prop compliance "failed_rules" with JArr l => res_mapM to_str l | _ => Ok [] end.

Definition general_error (payload : jsval) (reason : option string) (code : Z) : res string :=
  to_str (vnullish (prop payload "message")
    (match reason with
     | Some r => JStr r
     | None => vnullish (prop (prop payload "error") "message") (JStr ("Request failed (" +:+ Num.digits code +:+ ")"))
     end)).

Definition readApiError (response : FetchResponse) : res string :=
  let payload := default JNull (resp_json response) in
  let reason := as_string (prop payload "reason") in
  match first_error (prop payload "errors") with
  | Some (field, detail) => let! text := to_str detail in Ok (field +:+ ": " +:+ text)
  | None =>
      let! rules := if bool_decide (reason = Some "compliance_failed")
                    then failed_rules (prop payload "compliance") else Ok [] in
      match rules with
      | _ :: _ => Ok ("compliance_failed: " +:+ join ", " rules)
      | [] =>
          if bool_decide (reason = Some "2fa_required")
          then Ok "2FA is required for this command. Use a dispatch flow that includes a two-factor code."
          else general_error payload reason (status response)
      end
  end.

(** The answer to a dispatch: the id of the command, or the message shown. *)
Definition dispatched_id (r : option FetchResponse) : res string :=
  match r with
  | None => Exn "Failed to fetch"
  | Some response =>
      if negb (ok response) then let! text := readApiError response in Exn text
      else
        let! id := member_str (json_or_empty response) "command_id" "" in
        if truthy_str id then Ok id else Exn "Command dispatch failed: missing command_id"
  end.

Definition new_live (id method : string) : LiveResults :=
  {| live_id := id; live_method := method; live_state := queued; live_output := "";
     live_steps := buildTraceSteps method queued |}.

(** *** Polling *)

(** One answer: a refusal, or a state with the rest of the payload; [Lost]:
    the request or its body failed. *)
Inductive PollReply := Lost | Refused (response : FetchResponse) | Polled (payload_state : option CommandState) (payload : obj).

Definition poll_output (commandId deviceId method : string) (s : CommandState) (p : obj) : string :=
  json_text_indented
    [("command_id", vnullish (get p "command_id") (JStr commandId)); ("device_id", JStr deviceId);
     ("method", vnullish (get p "method") (JStr method)); ("params", vnullish (get p "params") (JObj []));
     ("state", JStr (state_str s)); ("result", or_null (get p "result"));
     ("error_code", or_null (get p "error_code")); ("error_message", or_null (get p "error_message"));
     ("reason", or_null (get p "reason")); ("completed_at", or_null (get p "completed_at"))].

(** What the panel shows after an answer. *)
Definition live_update (commandId method : string) (s : CommandState) (output : string) (previous : option LiveResults) : LiveResults :=
  let shown := if isTerminalState s then output else from_option live_output "" previous in
  match previous with
  | Some l => {| live_id := live_id l; live_method := live_method l; live_state := s; live_output := shown;
                 live_steps := buildTraceSteps method s |}
  | None => {| live_id := commandId; live_method := method; live_state := s; live_output := shown;
               live_steps := buildTraceSteps method s |}
  end.

Definition POLL_TIMEOUT : Z := 90000.
Definition POLL_PAUSE : Z := 2000.

(** [pollCommandUntilTerminal]: [clock i] is the time since its start when
    the [i]-th round begins, [answers i] what that round's request brings.
    The result: the panel, the message thrown if any, the requests sent. *)
Section Poll.
Context (commandId deviceId method : string) (clock : nat -> Z) (answers : nat -> PollReply).

Fixpoint poll (fuel i : nat) (live : option LiveResults) : option (option LiveResults * option string * nat) :=
  match fuel with
  | O => None
  | S fuel =>
      if negb (clock i <? POLL_TIMEOUT)%Z then Some (live, Some "Command polling timed out after 90 seconds.", i)
      else match answers i with
      | Lost => Some (live, Some "Failed to fetch", S i)
      | Refused response =>
          Some (live, Some match readApiError response with Ok text => text | Exn text => text end, S i)
      | Polled st payload =>
          let s := st ?? queued in
          let live := Some (live_update commandId method s (poll_output commandId deviceId method s payload) live) in
          if isTerminalState s then Some (live, None, S i) else poll fuel (S i) live
      end
  end.
End Poll.
