(* ===== verification/DeviceDetailLaws.v ===== *)
(** * What the page of one device guarantees

    The form sends a command exactly when everything it checks holds, and its
    copy of the validation agrees with src/lib/commandParams.ts; the polling
    of a result ends; each part of a load stands for itself, as long as the
    bodies can be read. *)

From S2P Require Import Prelude JsNumber JsString JsValue Http Session Commands RenderModel RenderLaws Telemetry Devices Tables Client Loader DashboardLaws TelemetryPage TelemetryPageLaws DeviceDetail.
Import Resolver Results DateTime DeviceDetail.

(** ** The copy of the validation *)

Lemma accepted_value_agrees v : isAcceptedValue v = Params.isAcceptedValue v.
Proof. destruct v; try done. cbn. by rewrite orb_false_r, !orb_assoc. Qed.

Lemma positive_integer_agrees v : parsePositiveInteger v = Params.parsePositiveInteger v.
Proof. destruct v; try done. cbn. unfold truthy_str. by destruct (trim _ === ""). Qed.

Lemma validation_agrees method params : validateCommandParams method params = Params.validateCommandParams method params.
Proof.
  unfold validateCommandParams, Params.validateCommandParams.
  destruct (resolveCommandMethod method) as [| | | |r| | |]; try done.
  rewrite accepted_value_agrees, positive_integer_agrees. unfold has, missing, text_param, Params.trimmed_param. cbn [existsb].
  rewrite !orb_false_r, !orb_assoc. by destruct (Params.parsePositiveInteger _).
Qed.

(** ** The form *)

Lemma block_reason_none s method :
  getCommandBlockReason s method = None <->
  exists r, resolveCommandMethod method = JStr r /\ r ∈ canonical_methods (commandCapabilities s)
    /\ r ∈ runtime_supported_methods (commandCapabilities s).
Proof.
  unfold getCommandBlockReason. destruct (resolveCommandMethod method) as [| | | |r| | |];
    try (split; [done|by intros (r & [=] & _)]).
  destruct (has (canonical_methods _) r) eqn:E1; cbn; [|split; [done|]]; cycle 1.
  { intros (r' & [= <-] & H & _). apply has_true in H. congruence. }
  destruct (has (runtime_supported_methods _) r) eqn:E2; cbn; [|split; [done|]]; cycle 1.
  { intros (r' & [= <-] & _ & H). apply has_true in H. congruence. }
  split; [|done]. intros _. exists r. by rewrite <- !has_true.
Qed.

Definition command_body (uuid device_id method : string) (params : obj) (sensitive : bool) : FetchRequest :=
  {| f_method := "POST"; f_url := "/api/commands"; f_headers := [json_content];
     f_body := Some (json_text [("client_message_id", JStr uuid); ("device_id", JStr device_id); ("method", JStr method);
                                ("params", JObj params); ("sensitive", JBool sensitive)]) |}.

Lemma dispatch_sends uuid method params sensitive s request :
  dispatchCommand uuid method params sensitive s = inl request <->
  exists r, resolveCommandMethod method = JStr r /\ r ∈ canonical_methods (commandCapabilities s)
    /\ r ∈ runtime_supported_methods (commandCapabilities s)
    /\ request = command_body uuid (dev_id (device s)) r (effectiveParams (JStr r) params) sensitive.
Proof.
  unfold dispatchCommand. pose proof (block_reason_none s method) as H.
  destruct (getCommandBlockReason s method).
  - split; [done|]. intros (r & Hr & H1 & H2 & _).
    assert (Some c = None) as Habs; [|done]. apply H. eauto.
  - destruct (proj1 H eq_refl) as (r & Hr & H1 & H2). rewrite Hr. split.
    + intros [= <-]. exists r. done.
    + intros (r' & [= <-] & _ & _ & ->). done.
Qed.

(** What the dispatch button sends, and when. *)
Definition may_dispatch (uuid : string) (s : State) (request : FetchRequest) : Prop :=
  exists cmd r params, activeCommand s = Some cmd /\ isDispatching s = false /\ dev_status (device s) = online
    /\ resolveCommandMethod (cmd_id cmd) = JStr r
    /\ r ∈ canonical_methods (commandCapabilities s) /\ r ∈ runtime_supported_methods (commandCapabilities s)
    /\ parseJsonParams (commandParams s) = inl params /\ Params.requirements r params
    /\ request = command_body uuid (dev_id (device s)) r (effectiveParams (JStr r) params) (risky (cmd_risk cmd)).

Lemma press_sends uuid s request : press_dispatch uuid s = Some (inl request) <-> may_dispatch uuid s request.
Proof.
  unfold press_dispatch, may_dispatch. destruct (activeCommand s) as [cmd|]; cycle 1.
  { split; [done|by intros (? & ? & ? & [=] & _)]. }
  cbn. destruct (isDispatching s); cbn.
  { split; [done|by intros (? & ? & ? & _ & [=] & _)]. }
  case_bool_decide as Hon; cbn.
  2: { split; [done|]. by intros (? & ? & ? & _ & _ & ? & _). }
  case_bool_decide as Hblock.
  { split; [done|]. intros (c & r & params & [= <-] & _ & _ & Hr & H1 & H2 & _). exfalso.
    assert (getCommandBlockReason s (cmd_id cmd) = None) as E by (apply block_reason_none; eauto).
    rewrite E in Hblock. by destruct Hblock. }
  destruct (parseJsonParams (commandParams s)) as [params|text]; cycle 1.
  { split; [done|]. by intros (? & ? & ? & _ & _ & _ & _ & _ & _ & [=] & _). }
  pose proof (Params.validate_iff (cmd_id cmd) params) as Hv. rewrite <- validation_agrees in Hv.
  destruct (validateCommandParams (cmd_id cmd) params) as [text|].
  { split; [done|]. intros (c & r & p & [= <-] & _ & _ & Hr & _ & _ & [= <-] & Hreq & _). rewrite Hr in Hv.
    by apply Hv in Hreq. }
  pose proof (dispatch_sends uuid (cmd_id cmd) params (risky (cmd_risk cmd)) s request) as Hd. split.
  - destruct (dispatchCommand _ _ _ _ s) as [q|]; [|done]. intros [= ->].
    destruct (proj1 Hd eq_refl) as (r & Hr & H1 & H2 & ->). exists cmd, r, params. rewrite Hr in Hv.
    split_and!; try done. by apply Hv.
  - intros (c & r & p & [= <-] & _ & _ & Hr & H1 & H2 & [= <-] & Hreq & ->).
    assert (dispatchCommand uuid (cmd_id cmd) params (risky (cmd_risk cmd)) s
            = inl (command_body uuid (dev_id (device s)) r (effectiveParams (JStr r) params) (risky (cmd_risk cmd)))) as E.
    { apply dispatch_sends. exists r. done. }
    by rewrite E.
Qed.

(** The library: each command has an id of its own, and what is offered as
    its parameters can be sent. *)
Definition library : list LibraryCommand := flat_map commands COMMAND_CATEGORIES.

Definition offer_ok (cmd : LibraryCommand) : bool :=
  match parseJsonParams (offered_params (cmd_id cmd)) with
  | inl params => bool_decide (validateCommandParams (cmd_id cmd) params = None)
  | inr _ => false
  end && match resolveCommandMethod (cmd_id cmd) with JStr _ => true | _ => false end.

Lemma library_offers : forallb offer_ok library = true.
Proof. vm_compute. reflexivity. Qed.

Lemma library_ids : NoDup (map cmd_id library).
Proof. apply (bool_decide_unpack _). vm_compute. exact I. Qed.

Lemma offered_press uuid cmd s r :
  In cmd library -> resolveCommandMethod (cmd_id cmd) = JStr r ->
  r ∈ canonical_methods (commandCapabilities s) -> r ∈ runtime_supported_methods (commandCapabilities s) ->
  isDispatching s = false -> dev_status (device s) = online ->
  exists request, press_dispatch uuid (choose cmd s) = Some (inl request).
Proof.
  intros Hin Hr H1 H2 Hd Hon. pose proof library_offers as H. rewrite forallb_forall in H. specialize (H cmd Hin).
  unfold offer_ok in H. destruct (parseJsonParams _) as [params|] eqn:Ep; [|done].
  case_bool_decide as Hv; [|done]. eexists. apply press_sends. exists cmd, r, params.
  split_and!; try done. rewrite validation_agrees in Hv. apply Params.validate_iff in Hv. by rewrite Hr in Hv.
Qed.

(** [C21] Dispatching from the page of a device.  The button sends exactly when a
    command is chosen, nothing is under way, the device is shown online, the
    current name of the command is one the platform knows and the device's
    runtime supports, and the parameters are a JSON object that meets the
    requirements of the command; it sends that command, for the device shown,
    marked sensitive exactly for high and critical risk.  The validation
    agrees with the shared one on every input.  The commands of the library
    are distinct, and each can be sent with the parameters the page offers
    wherever it is supported.  A replay sends only supported commands. *)
Theorem device_dispatch (uuid : string) (s : State) :
  (forall request, press_dispatch uuid s = Some (inl request) <-> may_dispatch uuid s request)
  /\ (forall method params, validateCommandParams method params = Params.validateCommandParams method params)
  /\ NoDup (map cmd_id library)
  /\ (forall cmd r, In cmd library -> resolveCommandMethod (cmd_id cmd) = JStr r ->
        r ∈ canonical_methods (commandCapabilities s) -> r ∈ runtime_supported_methods (commandCapabilities s) ->
        isDispatching s = false -> dev_status (device s) = online ->
        exists request, press_dispatch uuid (choose cmd s) = Some (inl request))
  /\ forall entry request, press_replay uuid entry s = Some request ->
       exists r, resolveCommandMethod (ce_method entry) = JStr r /\ r ∈ canonical_methods (commandCapabilities s)
         /\ r ∈ runtime_supported_methods (commandCapabilities s)
         /\ request = command_body uuid (dev_id (device s)) r (effectiveParams (JStr r) (ce_params entry)) false.
Proof.
  split_and!.
  - apply press_sends.
  - apply validation_agrees.
  - apply library_ids.
  - intros cmd r. apply offered_press.
  - intros entry request. unfold press_replay. destruct (dispatchCommand _ _ _ _ s) eqn:E; [|done].
    intros [= <-]. by apply dispatch_sends in E.
Qed.

(** ** Polling *)

Section Polling.
Context (commandId deviceId method : string) (clock : nat -> Z) (answers : nat -> PollReply).

(** The pause of a round takes at least as long as was asked for. *)
Hypothesis clock_start : (0 <= clock 0)%Z.
Hypothesis clock_pause : forall i, (clock i + POLL_PAUSE <= clock (S i))%Z.

Notation poll := (poll commandId deviceId method clock answers).

Lemma clock_bound i : (POLL_PAUSE * Z.of_nat i <= clock i)%Z.
Proof.
  induction i as [|i IH]; [lia|]. pose proof (clock_pause i). unfold POLL_PAUSE in *. lia.
Qed.

Lemma poll_more fuel fuel' i live out :
  poll fuel i live = Some out -> (fuel <= fuel')%nat -> poll fuel' i live = Some out.
Proof.
  revert fuel' i live. induction fuel as [|fuel IH]; intros [|fuel'] i live H Hle; try done; [lia|].
  cbn [DeviceDetail.poll] in *. destruct (negb _); [done|]. destruct (answers i); [done..|].
  destruct (isTerminalState _); [done|]. apply IH; [done|lia].
Qed.

(** A round that was not the last: its answer was read and not final. *)
Definition pending_answer (i : nat) : Prop :=
  exists st p, answers i = Polled st p /\ isTerminalState (st ?? queued) = false.

(** What is left when it is over. *)
Definition poll_result (i : nat) (out : option LiveResults * option string * nat) : Prop :=
  let '(live, err, n) := out in
  (i <= n <= 45)%nat /\ (forall k, (i <= k)%nat -> (S k < n)%nat -> pending_answer k)
  /\ (err = None -> exists st p l, (0 < n)%nat /\ answers (n - 1) = Polled st p /\ live = Some l
        /\ live_state l = st ?? queued /\ isTerminalState (live_state l) = true
        /\ live_output l = poll_output commandId deviceId method (live_state l) p
        /\ live_steps l = buildTraceSteps method (live_state l)).

Lemma poll_returns fuel i live :
  (i <= 45)%nat -> (46 <= fuel + i)%nat -> exists out, poll fuel i live = Some out /\ poll_result i out.
Proof.
  revert i live. induction fuel as [|fuel IH]; intros i live Hi Hf; [lia|]. cbn [DeviceDetail.poll].
  destruct (clock i <? POLL_TIMEOUT)%Z eqn:Ec; cbn [negb].
  2: { eexists. split; [done|]. split_and!; [lia|lia|intros k; lia|done]. }
  assert (i <= 44)%nat as Hi'.
  { apply Z.ltb_lt in Ec. pose proof (clock_bound i). unfold POLL_TIMEOUT, POLL_PAUSE in *. lia. }
  destruct (answers i) as [|response|st p] eqn:Ea.
  - eexists. split; [done|]. split_and!; [lia|lia|intros k; lia|done].
  - eexists. split; [done|]. split_and!; [lia|lia|intros k; lia|done].
  - destruct (isTerminalState (st ?? queued)) eqn:Et.
    + eexists. split; [done|]. split_and!; [lia|lia|intros k; lia|]. intros _.
      exists st, p. eexists. split_and!; [lia|by replace (S i - 1)%nat with i by lia|done| | | |];
        destruct live; cbn; by rewrite ?Et.
    + destruct (IH (S i) (Some (live_update commandId method (st ?? queued)
        (poll_output commandId deviceId method (st ?? queued) p) live))) as ([[live' err] n] & E & Hn & Hk & Herr); [lia|lia|].
      eexists. split; [exact E|]. split_and!; [lia|lia| |done].
      intros k Hk1 Hk2. destruct (decide (k = i)) as [->|Hne]; [exists st, p; done|apply Hk; lia].
Qed.

(** [C30] The polling of a command's result.  However the service answers, it
    ends after at most 45 requests with the final state and output of the
    command on the panel, the trace of that state, or with an error; every
    answer before the last was not final.  More fuel changes nothing.  The
    timer waits at least as long as it is asked to. *)
Theorem polling_ends (live : option LiveResults) :
  exists out, poll_result 0 out /\ forall fuel, (46 <= fuel)%nat -> poll fuel 0 live = Some out.
Proof.
  destruct (poll_returns 46 0 live) as (out & E & Hout); [lia|lia|]. exists out. split; [done|].
  intros fuel Hf. apply (poll_more 46); [done|lia].
Qed.
End Polling.

(** ** Loads *)

Section Loads.
Context (date_parse : string -> option Z) (local : Z -> LocalTime) (url_pathname : string -> option string).

Lemma risk_on_scale v : Num.within Num.zero one (normalizeRisk v) = true.
Proof.
  set (x := match v with Some (Quantity n) => n | Some (Written s) => number_of_string s | None => Num.zero end).
  exact (Rows.risk_within x).
Qed.

Definition bodies_read (can_view : bool) (a : Answers) : bool :=
  body_read (deviceRes a) && body_read (commandsRes a) && body_read (telemetryRes a)
  && body_read (telemetryHistoryRes a) && (negb can_view || body_read (alertsRes a)) && body_read (auditRes a)
  && body_read (capabilitiesRes a).

(** The page after the parts whose answers could all be read. *)
Definition loaded_page (deviceId : string) (can_view : bool) (a : Answers) (s : State) : State :=
  let rows := match payload_of (commandsRes a) with
              | Some p => hydrated url_pathname (detailRes a) (map (mapCommandListRow url_pathname) (p ?? []))
              | None => []
              end in
  s <| device := match payload_of (deviceRes a) with
                 | Some p => mapped_device date_parse local p
                 | None => getFallbackDevice deviceId
                 end |>
    <| recentResults := rows |> <| commandHistory := map (command_entry date_parse local) rows |>
    <| telemetry := match payload_of (telemetryRes a) with Some p => taken_telemetry p | None => no_telemetry end |>
    <| kernelEvents := match payload_of (telemetryHistoryRes a) with Some p => taken_events date_parse p | None => [] end |>
    <| alerts := if can_view then match payload_of (alertsRes a) with
                                  | Some p => taken_alerts date_parse local deviceId p
                                  | None => []
                                  end else [] |>
    <| auditEntries := match payload_of (auditRes a) with Some p => taken_audit date_parse local p | None => [] end |>
    <| commandCapabilities := match payload_of (capabilitiesRes a) with
                              | Some p => {| canonical_methods := p.1 ?? []; runtime_supported_methods := p.2 ?? [] |}
                              | None => no_capabilities
                              end |>.

Lemma parts_read deviceId can_view a s :
  bodies_read can_view a = true ->
  parts (load_parts date_parse local url_pathname deviceId can_view a) s = (loaded_page deviceId can_view a s, true).
Proof.
  unfold bodies_read. rewrite !andb_true_iff. intros [[[[[[H1 H2] H3] H4] H5] H6] H7].
  unfold load_parts. cbn [parts]. rewrite (part_read _ _ _ s H1), (part_read _ _ _ _ H2). cbn [parts].
  rewrite (part_read _ _ _ _ H3). cbn [parts]. rewrite (part_read _ _ _ _ H4). cbn [parts].
  destruct can_view; cbn [negb orb] in H5; [rewrite (part_read _ _ _ _ H5)|]; cbn [parts];
    rewrite (part_read _ _ _ _ H6); cbn [parts]; rewrite (part_read _ _ _ _ H7); cbn [parts]; unfold loaded_page, take_commands;
    destruct (payload_of (deviceRes a)), (payload_of (commandsRes a)), (payload_of (telemetryRes a)),
      (payload_of (telemetryHistoryRes a)), (payload_of (auditRes a)), (payload_of (capabilitiesRes a));
    try destruct (payload_of (alertsRes a)); reflexivity.
Qed.

Lemma taken_alerts_own deviceId items x :
  x ∈ taken_alerts date_parse local deviceId items ->
  exists item, In item (items ?? []) /\ al_device item = Some deviceId /\ alert_message x = al_message item ?? "No message".
Proof.
  intros (item & <- & [Hin H%bool_decide_eq_true]%filter_In)%list_elem_of_In%in_map_iff. exists item. done.
Qed.

Definition event_time (e : DeviceKernelEvent) : Z := date_parse (ke_timestamp e) ?? 0%Z.

Lemma taken_events_top points :
  List.Forall (fun e => is_Some (date_parse (ke_timestamp e))) (omap kernel_event (points ?? [])) ->
  top 10 event_time (omap kernel_event (points ?? [])) (taken_events date_parse points).
Proof.
  rewrite List.Forall_forall. intros H. unfold taken_events.
  rewrite (stable_sort_ext _ (Client.latest event_time)); [apply top_sorted|].
  intros a b Ha%list_elem_of_In%H Hb%list_elem_of_In%H. unfold later_event, Client.latest, event_time.
  by destruct Ha as [x ->], Hb as [y ->].
Qed.

Lemma unread_device deviceId can_view mode a s :
  body_read (deviceRes a) = false -> load_end date_parse local url_pathname deviceId can_view mode a s = s.
Proof.
  unfold body_read. rewrite orb_false_iff. intros [Hok%negb_false_iff Hbody].
  unfold load_end, load_parts. cbn [parts]. unfold part at 1. rewrite Hok.
  case_bool_decide as Hp; [done|]. destruct (payload_of (deviceRes a)); [by destruct Hp|]. by destruct mode.
Qed.

(** Loading the page of a device, when its answers fail.  As long as each
    accepted answer has a JSON body, every part of the page shows what its own
    answer says, or is empty if that was refused or lost, the device then
    being shown as offline, and the load ends its indicator; who may not see
    alerts sees none, and those shown are of this device; the kernel events
    are the ten latest; the risk lies between 0 and 1.  If the description of
    the device is accepted and cannot be read, the load changes nothing at
    all, and its indicator does not end. *)
Theorem device_load (deviceId : string) (can_view : bool) (mode : LoadMode) (a : Answers) (s : State) :
  let s' := load_end date_parse local url_pathname deviceId can_view mode a s in
  (bodies_read can_view a = true ->
     s' = (loaded_page deviceId can_view a s) <| isLoadingDevice :=
            match mode with interactive => false | silent_load => isLoadingDevice s end |>
     /\ (can_view = false -> alerts s' = [])
     /\ (payload_of (deviceRes a) = None -> dev_status (device s') = offline)
     /\ Num.within Num.zero one (dev_riskScore (device s')) = true)
  /\ (forall items x, x ∈ taken_alerts date_parse local deviceId items ->
        exists item, In item (items ?? []) /\ al_device item = Some deviceId)
  /\ (forall points,
        List.Forall (fun e => is_Some (date_parse (ke_timestamp e))) (omap kernel_event (points ?? [])) ->
        top 10 event_time (omap kernel_event (points ?? [])) (taken_events date_parse points))
  /\ (body_read (deviceRes a) = false -> s' = s).
Proof.
  split_and!.
  - intros H. unfold load_end. rewrite parts_read by done. split_and!.
    + by destruct mode.
    + intros ->. by destruct mode.
    + intros E. destruct mode; cbn; by rewrite E.
    + destruct mode; cbn; destruct (payload_of (deviceRes a)); try done; apply risk_on_scale.
  - intros items x (item & Hin & Hdev & _)%taken_alerts_own. eauto.
  - apply taken_events_top.
  - apply unread_device.
Qed.
End Loads.

(** ** Examples *)

Module DetailDemo.

Definition never (t : string) : option Z := None.
Definition no_url (u : string) : option string := None.
Definition midnight (t : Z) : LocalTime :=
  {| fullYear := 1970; month := 0; date := 1; hours := 0; minutes := 0; secs := 0 |}.

Definition lost : Answers :=
  {| deviceRes := Unreachable; commandsRes := Unreachable; detailRes := Unreachable; telemetryRes := Unreachable;
     telemetryHistoryRes := Unreachable; alertsRes := Unreachable; auditRes := Unreachable;
     capabilitiesRes := Unreachable |}.

Definition ready (d : Device) : State := init "d-1"
  <| device := d |>
  <| commandCapabilities := {| canonical_methods := ["lock_screen"; "list_files"];
                               runtime_supported_methods := ["lock_screen"; "list_files"] |} |>.
Definition up : Device :=
  {| dev_id := "d-1"; dev_hostname := "host"; dev_osBuild := "-"; dev_owner := "o"; dev_status := online;
     dev_riskScore := Num.zero; dev_compliance := compliant; dev_lastSeen := "-"; dev_agentVersion := "-";
     dev_policySync := None; dev_kernelGuard := None; dev_cpu := "-"; dev_ram := "-"; dev_disk := "-" |}.

Definition lock : LibraryCommand := command "lock_screen" "Lock Screen" "Immediately lock the workstation" high.

Lemma device_dispatch_witness :
  exists request, press_dispatch "u" (choose lock (ready up)) = Some (inl request)
    /\ may_dispatch "u" (choose lock (ready up)) request.
Proof.
  destruct (device_dispatch "u" (ready up)) as (_ & _ & _ & Hoffer & _).
  destruct (Hoffer lock "lock_screen") as [request E].
  - vm_compute. tauto.
  - reflexivity.
  - left.
  - left.
  - reflexivity.
  - reflexivity.
  - exists request. split; [exact E|].
    destruct (device_dispatch "u" (choose lock (ready up))) as (Hiff & _). exact (proj1 (Hiff request) E).
Defined.

Definition ticking (i : nat) : Z := (2000 * Z.of_nat i)%Z.
Definition second_done (i : nat) : PollReply :=
  match i with O => Polled (Some executing) [] | _ => Polled (Some completed) [("result", JStr "r")] end.

Lemma polling_ends_witness :
  exists out, poll_result "c" "d" "m" second_done 0 out
    /\ poll "c" "d" "m" ticking second_done 46 0 None = Some out.
Proof.
  destruct (polling_ends "c" "d" "m" ticking second_done) with (live := @None LiveResults) as (out & Hout & E).
  - reflexivity.
  - intros i. unfold ticking, POLL_PAUSE. lia.
  - exists out. split; [exact Hout|]. apply E. lia.
Defined.

Lemma device_load_witness :
  let s := load_end never midnight no_url "d-1" false interactive lost (ready up) in
  alerts s = [] /\ dev_status (device s) = offline.
Proof.
  destruct (device_load never midnight no_url "d-1" false interactive lost (ready up)) as (H & _).
  destruct (H eq_refl) as (_ & Halerts & Hoff & _). split; [apply Halerts|apply Hoff]; reflexivity.
Defined.

(** A poll that fails shows a device that was online as offline. *)
Lemma failed_poll_offline :
  dev_status (device (ready up)) = online
  /\ dev_status (device (load_end never midnight no_url "d-1" true silent_load lost (ready up))) = offline.
Proof. vm_compute. done. Qed.

(** A command of high risk is replayed without being marked sensitive, also
    on a device that is offline. *)
Definition locked : CommandEntry :=
  {| ce_id := "c-1"; ce_method := "lock_screen"; ce_params := []; ce_state := completed; ce_actor := "a";
     ce_queuedAt := "-"; ce_completedAt := None; ce_duration := None; ce_resultPreview := None |}.

Lemma replay_not_sensitive :
  cmd_risk lock = high /\ press_dispatch "u" (choose lock (ready (getFallbackDevice "d-1"))) = None
  /\ press_replay "u" locked (ready (getFallbackDevice "d-1")) = Some (command_body "u" "d-1" "lock_screen" [] false).
Proof. vm_compute. done. Qed.

(** The trace of a command that was rejected or expired has every step done. *)
Lemma rejected_trace_done method :
  List.Forall (fun step => step_status step = done_step) (buildTraceSteps method rejected ++ buildTraceSteps method expired).
Proof. repeat constructor. Qed.

(** The times of a trace are the same for all commands. *)
Lemma trace_times_fixed method method' s :
  map step_time (buildTraceSteps method s) = map step_time (buildTraceSteps method' s).
Proof. by destruct s. Qed.

(** Polling one command writes its state under the id of another that was
    dispatched since. *)
Lemma panel_mixed output l :
  live_id l = "c-2" ->
  live_id (live_update "c-1" "m" failed output (Some l)) = "c-2"
  /\ live_state (live_update "c-1" "m" failed output (Some l)) = failed.
Proof. done. Qed.

End DetailDemo.
