(* ===== verification/DeviceDrawer.v ===== *)
(** * The drawer of a device

    src/app/device-management/components/DeviceDetailDrawer.tsx: the drawer
    that the page of devices opens on one of them.  It loads six answers at
    once and again every few seconds, and sends the commands of its buttons,
    waiting for their results.  [date_parse] and [local] are the parameters
    of Module DateTime.  A load that was aborted can read no body any more:
    its promise rejects with an AbortError. *)

From S2P Require Import Prelude JsNumber JsString JsValue Http Session Commands RenderModel RenderLaws Client Devices Tables Loader.
Import Resolver Results DateTime Rows.

(** ** Data *)

Inductive Risk := low | medium | high.
Record QuickCommand := { quick_id : string; quick_label : string; quick_risk : Risk }.

Record TelemetryState := {
  cpu : option num;
  ram : option num;
  diskUsage : option num;
  networkTx : option num;
  networkRx : option num;
  tele_risk : option num;
  tele_time : option string;
}.

Record AlertRow := { row_id : string; row_severity : string; row_message : string; row_time : string }.
Record AuditRow := {
  au_row_id : string;
  au_row_type : string;
  au_row_actor : string;
  au_row_action : string;
  au_row_time : string;
  au_row_ok : bool;
}.

(** The payloads, as far as they are read. *)
Record TelemetryApi := {
  metric_cpu : option num;
  metric_ram : option num;
  metric_disk : option num;
  metric_tx : option num;
  metric_rx : option num;
  metric_risk : option NumberOrString;
  metrics_time : option string;
}.
Record DeviceAuditApi := {
  api_entry_id : option string;
  api_entry_time : option string;
  api_event_type : option string;
  api_summary : option string;
}.

(** The reasons are a plain object: a lookup may find an inherited value. *)
Record Capabilities := {
  canonical_methods : list string;
  runtime_supported_methods : list string;
  rejection_reasons : obj;
}.

Definition DRAWER_TABS : list string := ["Overview"; "Telemetry"; "Commands"; "Security"; "Alerts"; "Audit"].

Definition quick (id label : string) (risk : Risk) : QuickCommand :=
  {| quick_id := id; quick_label := label; quick_risk := risk |}.

Definition QUICK_COMMANDS : list QuickCommand :=
  [quick "system-info" "System Info" low; quick "screenshot-capture" "Screenshot" medium;
   quick "process-list" "Processes" low; quick "network-info" "Network" low; quick "filesystem" "Filesystem" low;
   quick "ping" "Ping" low; quick "lock_screen" "Lock Screen" high; quick "users-list" "Users" low].

Definition canViewAlerts (role : option string) : bool :=
  match role with Some r => truthy_str r && (r !== "viewer") | None => false end.

Definition drawerTabs (can_view : bool) : list string :=
  if can_view then DRAWER_TABS else List.filter (fun tab => tab !== "Alerts") DRAWER_TABS.

(** ** State *)

Record State := {
  activeTab : string;
  currentDevice : Device;
  dispatchingCmd : option string;
  isLoadingBundle : bool;
  loadError : option string;
  commandHistory : list DrawerCommandEntry;
  alerts : list AlertRow;
  auditRows : list AuditRow;
  capabilities : Capabilities;
  telemetry : TelemetryState;
}.

#[export] Instance eta_drawer : Eta State := fun s =>
  {| activeTab := activeTab s; currentDevice := currentDevice s; dispatchingCmd := dispatchingCmd s;
     isLoadingBundle := isLoadingBundle s; loadError := loadError s; commandHistory := commandHistory s;
     alerts := alerts s; auditRows := auditRows s; capabilities := capabilities s; telemetry := telemetry s |}.

Definition no_capabilities : Capabilities :=
  {| canonical_methods := []; runtime_supported_methods := []; rejection_reasons := [] |}.
Definition no_telemetry : TelemetryState :=
  {| cpu := None; ram := None; diskUsage := None; networkTx := None; networkRx := None; tele_risk := None;
     tele_time := None |}.

Definition init (device : Device) : State :=
  {| activeTab := "Overview"; currentDevice := device; dispatchingCmd := None; isLoadingBundle := true;
     loadError := None; commandHistory := []; alerts := []; auditRows := []; capabilities := no_capabilities;
     telemetry := no_telemetry |}.

(** The effect that leaves a tab which is not there. *)
Definition leave_alerts (can_view : bool) (s : State) : State :=
  if negb can_view && (activeTab s === "Alerts") then s <| activeTab := "Overview" |> else s.

Definition with_risk (risk : num) (d : Device) : Device :=
  {| id := id d; hostname := hostname d; osBuild := osBuild d; owner := owner d; status := status d;
     riskScore := risk; compliance := compliance d; lastSeen := lastSeen d; agentVersion := agentVersion d;
     policySync := policySync d; kernelGuard := kernelGuard d; ipAddress := ipAddress d; sessionId := sessionId d |}.

(** ** Loading *)

Section Zone.
Context (date_parse : string -> option Z) (local : Z -> LocalTime).

Definition formatTime (value : option string) : string := formatLocalTime date_parse local value "-".

(** The times commands are sorted by, [None] for a date that is invalid; the
    latest first, those without a time last. *)
Definition row_instant (row : DeviceCommandRowApi) : option Z :=
  date_parse ((queued_at row ??? completed_at row) ?? "").

Definition row_before (a b : DeviceCommandRowApi) : bool :=
  match row_instant a, row_instant b with
  | Some x, Some y => (y - x <? 0)%Z
  | Some _, None => true
  | None, _ => false
  end.

Definition taken_commands (rows : option (list DeviceCommandRowApi)) : list DrawerCommandEntry :=
  map (mapCommandHistoryEntry date_parse local) (stable_sort row_before (rows ?? [])).

Definition nextTelemetry (p : TelemetryApi) : TelemetryState :=
  {| cpu := metric_cpu p; ram := metric_ram p; diskUsage := metric_disk p; networkTx := metric_tx p;
     networkRx := metric_rx p; tele_risk := (fun r => normalizeRisk (Some r)) <$> metric_risk p;
     tele_time := metrics_time p |}.

Definition take_telemetry (p : TelemetryApi) (s : State) : State :=
  let s := s <| telemetry := nextTelemetry p |> in
  match tele_risk (nextTelemetry p) with
  | Some risk => s <| currentDevice := with_risk risk (currentDevice s) |>
  | None => s
  end.

Definition taken_alerts (items : option (list DeviceAlertApi)) : list AlertRow :=
  map (fun alert =>
    {| row_id := trim_or (alert_id alert) "alert"; row_severity := toLowerCase (alert_severity alert ?? "low");
       row_message := trim_or (message alert) "Alert"; row_time := formatTime (timestamp alert) |}) (items ?? []).

Definition spaced (s : string) : string := smap (fun c => if Ascii.eqb c "_" then " "%char else c) s.

(** [[timestamp, summary, index].filter(Boolean).join('|')] *)
Definition audit_fallback (entry : DeviceAuditApi) (index : nat) : string :=
  let some o := match o with Some s => if truthy_str s then [s] else [] | None => [] end in
  join "|" (some (api_entry_time entry) ++ some (api_summary entry)
            ++ match index with O => [] | _ => [Num.digits (Z.of_nat index)] end).

Definition audit_row (index : nat) (entry : DeviceAuditApi) : AuditRow :=
  let type := trim_or (api_event_type entry) "system_event" in
  let lowerSummary := toLowerCase (api_summary entry ?? "") in
  {| au_row_id := match trim_or_null (api_entry_id entry) with
                  | Some id => id
                  | None => let text := audit_fallback entry index in
                            if truthy_str text then text else "audit-" +:+ Num.digits (Z.of_nat index)
                  end;
     au_row_type := if includes type "command" then "command"
                    else if includes type "policy" then "policy" else "system";
     au_row_actor := "system";
     au_row_action := trim_or (api_summary entry) (spaced type);
     au_row_time := formatTime (api_entry_time entry);
     au_row_ok := negb (includes lowerSummary "fail") && negb (includes lowerSummary "error")
                  && negb (includes lowerSummary "reject") |}.

Definition taken_audit (entries : option (list DeviceAuditApi)) : list AuditRow := imap audit_row (entries ?? []).

Record CapabilitiesApi := {
  api_canonical : option (list string);
  api_supported : option (list string);
  api_reasons : option obj;
}.
Definition taken_capabilities (p : CapabilitiesApi) : Capabilities :=
  {| canonical_methods := api_canonical p ?? []; runtime_supported_methods := api_supported p ?? [];
     rejection_reasons := api_reasons p ?? [] |}.

Record Answers := {
  detailRes : Reply DetailDeviceApi;
  commandsRes : Reply (option (list DeviceCommandRowApi));
  telemetryRes : Reply TelemetryApi;
  alertsRes : Reply (option (list DeviceAlertApi));
  auditRes : Reply (option (list DeviceAuditApi));
  capsRes : Reply CapabilitiesApi;
}.

(** What an aborted load can still read of its answers. *)
Definition cut_reply {A} (r : Reply A) : Reply A :=
  match r with Replied code _ => Replied code None | Unreachable => Unreachable end.
Definition cut (a : Answers) : Answers :=
  {| detailRes := cut_reply (detailRes a); commandsRes := cut_reply (commandsRes a);
     telemetryRes := cut_reply (telemetryRes a); alertsRes := cut_reply (alertsRes a);
     auditRes := cut_reply (auditRes a); capsRes := cut_reply (capsRes a) |}.

Definition bundle_parts (can_view : bool) (mode : Mode) (a : Answers) : list (Part State) :=
  let when_initial (f : State -> State) (s : State) := match mode with initial => f s | _ => s end in
  [part (detailRes a)
     (fun p s => s <| currentDevice := mergeDeviceDetail date_parse local (currentDevice s) p |>) (fun s => s);
   part (commandsRes a) (fun p s => s <| commandHistory := taken_commands p |>)
     (when_initial (fun s => s <| commandHistory := [] |>));
   part (telemetryRes a) take_telemetry (fun s => s);
   (if can_view
    then part (alertsRes a) (fun p s => s <| alerts := taken_alerts p |>)
           (when_initial (fun s => s <| alerts := [] |>))
    else fun s => (s <| alerts := [] |>, true));
   part (auditRes a) (fun p s => s <| auditRows := taken_audit p |>)
     (when_initial (fun s => s <| auditRows := [] |>));
   part (capsRes a) (fun p s => s <| capabilities := taken_capabilities p |>) (fun s => s)].

Definition bundle_start (mode : Mode) (s : State) : State :=
  match mode with initial => s <| isLoadingBundle := true |> | _ => s end.

(** [loadBundle] after its answers; [aborted]: its controller was aborted. *)
Definition bundle_end (can_view : bool) (mode : Mode) (aborted : bool) (a : Answers) (s : State) : State :=
  let '(s', fine) := parts (bundle_parts can_view mode (if aborted then cut a else a)) s in
  let s'' := if fine then s' <| loadError := None |>
             else if aborted then s' else s' <| loadError := Some "Failed to load data" |> in
  match mode with initial => s'' <| isLoadingBundle := false |> | _ => s'' end.
End Zone.

(** The effect that runs whenever the page passes another object for the
    device. *)
Definition show_device (device : Device) (s : State) : State := bundle_start initial (s <| currentDevice := device |>).

Definition bundle_urls (deviceId : string) (can_view : bool) : list string :=
  let e := encodeURIComponent deviceId in
  (if can_view then ["/api/devices/" +:+ e +:+ "/alerts?limit=100"] else [])
  ++ ["/api/devices/" +:+ e; "/api/devices/" +:+ e +:+ "/commands?limit=40"; "/api/devices/" +:+ e +:+ "/telemetry";
      "/api/devices/" +:+ e +:+ "/audit?limit=100"; "/api/commands/capabilities?device_id=" +:+ e].

(** ** Cards *)

Definition card (label suffix : string) (v : option num) : string * string * num :=
  (label, match v with Some n => Num.to_string n +:+ suffix | None => "Unknown" end, clampPercent v).

(** Label, text and length of the bar. *)
Definition telemetryCards (t : TelemetryState) : list (string * string * num) :=
  [card "CPU Usage" "%" (cpu t); card "RAM Usage" "%" (ram t); card "Disk Usage" "%" (diskUsage t);
   card "Network TX" " Mbps" (networkTx t); card "Network RX" " Mbps" (networkRx t)].

(** ** Dispatching *)

Inductive Toast := ToastSuccess (text : string) | ToastError (text : string).

(** [null] is [None]; a reason of the service may be any text, or what an
    object inherits. *)
Definition commandBlockedReason (s : State) (method : string) : option jsval :=
  match canonical_methods (capabilities s) with
  | [] => None
  | canonical =>
      match resolveCommandMethod method with
      | JStr resolvedMethod =>
          if negb (has canonical resolvedMethod) then Some (JStr "unknown_command")
          else if negb (has (runtime_supported_methods (capabilities s)) resolvedMethod)
          then Some (vnullish (get (rejection_reasons (capabilities s)) resolvedMethod) (JStr "not_supported_runtime"))
          else None
      | _ => Some (JStr "unknown_command")
      end
  end.

(** [if (blockedReason)] *)
Definition blocked (s : State) (method : string) : option jsval :=
  match commandBlockedReason s method with Some r => if truthy r then Some r else None | None => None end.

Definition reasonToText (reason : jsval) : res string :=
  match reason with
  | JStr "unknown_command" => Ok "Unsupported command id"
  | JStr "not_supported_runtime" => Ok "Not supported by runtime"
  | JStr text => Ok (spaced text)
  | _ => Exn "replaceAll is not a function"
  end.

Definition LIST_FILES_DEFAULTS : obj :=
  [("path", JStr "C:\Users"); ("recursive", JBool false); ("max_depth", JNum (Num.of_Z 1));
   ("limit", JNum (Num.of_Z 200)); ("include_hidden", JBool false); ("include_system", JBool false);
   ("follow_symlinks", JBool false)].

Definition effectiveParams (dispatchMethod : jsval) (params : obj) : obj :=
  match dispatchMethod, params with
  | JStr "list_files", [] => LIST_FILES_DEFAULTS
  | _, _ => params
  end.

Definition dispatch_body (uuid deviceId : string) (dispatchMethod : jsval) (params : obj) (sensitive : bool) : res FetchRequest :=
  let! name := to_str dispatchMethod in
  Ok {| f_method := "POST"; f_url := "/api/commands"; f_headers := [json_content];
        f_body := Some (json_text
          [("client_message_id", JStr ("drawer-" +:+ deviceId +:+ "-" +:+ name +:+ "-" +:+ uuid));
           ("device_id", JStr deviceId); ("method", dispatchMethod); ("params", JObj params);
           ("sensitive", JBool sensitive)]) |}.

(** [dispatchAndWait] up to its request, or the message instead. *)
Definition dispatch_start (uuid method cmdLabel : string) (params : obj) (sensitive : bool) (s : State)
    : res (State * FetchRequest + Toast) :=
  let dispatchMethod := resolveCommandMethod method in
  let d := currentDevice s in
  if status_str (status d) !== "online" then
    Ok (inr (ToastError (hostname d +:+ " is " +:+ status_str (status d) +:+ " - cannot dispatch commands")))
  else match blocked s method with
  | Some reason =>
      let! text := reasonToText reason in Ok (inr (ToastError (cmdLabel +:+ " blocked: " +:+ text)))
  | None =>
      let! request := dispatch_body uuid (id d) dispatchMethod (effectiveParams dispatchMethod params) sensitive in
      Ok (inl (s <| dispatchingCmd := Some method |>, request))
  end.

(** A button of the quick commands, [None] when it is disabled, and the one
    in a row of the history. *)
Definition press_quick (uuid : string) (cmd : QuickCommand) (s : State) : option (res (State * FetchRequest + Toast)) :=
  if bool_decide (dispatchingCmd s = Some (quick_id cmd)) || (status_str (status (currentDevice s)) !== "online")
     || bool_decide (is_Some (blocked s (quick_id cmd))) then None
  else Some (dispatch_start uuid (quick_id cmd) (quick_label cmd) []
               match quick_risk cmd with high => true | _ => false end s).

Definition press_replay (uuid : string) (entry : DrawerCommandEntry) (s : State) : res (State * FetchRequest + Toast) :=
  dispatch_start uuid (entry_method entry) ("Replay " +:+ entry_method entry) (entry_params entry) false s.

Definition dispatch_done (s : State) : State := s <| dispatchingCmd := None |>.

(** The answer to the request: the id of the command, or the reason. *)
Definition dispatched (r : option FetchResponse) : res (string + string) :=
  match r with
  | None => Exn "Failed to fetch"
  | Some response =>
      let payload := json_or_empty response in
      let! id := if ok response then member payload "command_id" else Ok JUndef in
      if truthy id then let! text := to_str id in Ok (inl text)
      else
        let! reason := member payload "reason" in
        let! text := reasonToText (vnullish reason (vnullish (prop payload "message")
                       (JStr ("http_" +:+ Num.digits (Http.status response))))) in
        Ok (inr text)
  end.

(** *** Waiting for the result *)

Definition isTerminalState (state : string) : bool := has ["completed"; "failed"; "expired"; "rejected"] (toLowerCase state).

(** One answer of the polling; a body that is no JSON is [{}]. *)
Inductive PollReply := Lost | Refused | Polled (payload : jsval).

(** The message when the command has ended, [None] if it has not. *)
Definition final_report (cmdLabel : string) (payload : jsval) : res (option Toast) :=
  let! state := member payload "state" in
  let! text := str_or state "" in
  if negb (isTerminalState text) then Ok None
  else match state with
  | JStr "completed" => Ok (Some (ToastSuccess (cmdLabel +:+ " completed")))
  | _ =>
      let! shown := to_str state in
      let! why := to_str (vnullish (prop payload "error_message") (vnullish (prop payload "reason") (JStr "failed"))) in
      Ok (Some (ToastError (cmdLabel +:+ " " +:+ shown +:+ ": " +:+ why)))
  end.

Inductive Outcome := Reported (t : Toast) | TimedOut | Failed.

Definition POLL_DEADLINE : Z := 90000.
Definition POLL_PAUSE : Z := 2000.

(** The loop: [clock i] is the time since its start when the [i]-th round
    begins, [answers i] what the request of that round brings.  The result:
    how it ended, and the requests sent. *)
Section Poll.
Context (cmdLabel : string) (clock : nat -> Z) (answers : nat -> PollReply).

Fixpoint poll (fuel i : nat) : option (Outcome * nat) :=
  match fuel with
  | O => None
  | S fuel =>
      if negb (clock i <? POLL_DEADLINE)%Z then Some (TimedOut, i)
      else match answers i with
      | Lost => Some (Failed, S i)
      | Refused => poll fuel (S i)
      | Polled payload =>
          match final_report cmdLabel payload with
          | Ok (Some t) => Some (Reported t, S i)
          | Ok None => poll fuel (S i)
          | Exn _ => Some (Failed, S i)
          end
      end
  end.

(** The rest of [dispatchAndWait] after its answer: the messages shown,
    whether the drawer is loaded again, and the requests of the polling. *)
Definition dispatch_rest (fuel : nat) (r : option FetchResponse) : option (list Toast * bool * nat) :=
  let failed := ToastError "Failed to load data" in
  match dispatched r with
  | Exn _ => Some ([failed], false, 0%nat)
  | Ok (inr text) => Some ([ToastError (cmdLabel +:+ " failed: " +:+ text)], false, 0%nat)
  | Ok (inl id) =>
      let sent := ToastSuccess (cmdLabel +:+ " dispatched (" +:+ id +:+ ")") in
      '(outcome, n) ← poll fuel 0;
      Some match outcome with
           | Reported t => ([sent; t], true, n)
           | TimedOut => ([sent], true, n)
           | Failed => ([sent; failed], false, n)
           end
  end.
End Poll.
