(* ===== verification/DeviceDrawerLaws.v ===== *)
(** * What the drawer of a device guarantees

    Its buttons send exactly the commands they should; waiting for a result
    ends; each part of a load stands for itself, and a load that was
    overtaken brings nothing of its own. *)

From S2P Require Import Prelude JsNumber JsString JsValue Http Session Commands RenderModel RenderLaws Client Devices Tables Loader DeviceDrawer.
Import Resolver Results DateTime Rows DeviceDrawer.

(** ** Dispatching *)

(** The service gives a reason why the runtime does not support the method,
    and the reason is a false value, as the empty text. *)
Definition blank_reason (s : State) (r : string) : Prop :=
  exists v, own_get (rejection_reasons (capabilities s)) r = Some v /\ truthy v = false /\ v <> JNull /\ v <> JUndef.

(** The drawer lets the method through: no command of the device is known,
    or the method is known and supported by the runtime, or it is known, not
    supported, and the reason given for that is blank. *)
Definition let_through (s : State) (r : string) : Prop :=
  canonical_methods (capabilities s) = []
  \/ (r ∈ canonical_methods (capabilities s)
      /\ (r ∈ runtime_supported_methods (capabilities s) \/ blank_reason s r)).

Definition drawer_request (uuid deviceId method : string) (params : obj) (sensitive : bool) : FetchRequest :=
  {| f_method := "POST"; f_url := "/api/commands"; f_headers := [json_content];
     f_body := Some (json_text
       [("client_message_id", JStr ("drawer-" +:+ deviceId +:+ "-" +:+ method +:+ "-" +:+ uuid));
        ("device_id", JStr deviceId); ("method", JStr method); ("params", JObj params);
        ("sensitive", JBool sensitive)]) |}.

Lemma online_text d : status_str (status d) !== "online" = false <-> status d = online.
Proof. by destruct (status d). Qed.

Lemma inherited_truthy k : inherited k = JUndef \/ truthy (inherited k) = true.
Proof. unfold inherited. repeat case_match; auto. Qed.

Lemma reason_falsy s r :
  truthy (vnullish (get (rejection_reasons (capabilities s)) r) (JStr "not_supported_runtime")) = false <-> blank_reason s r.
Proof.
  unfold blank_reason, get. destruct (own_get _ r) as [v|]; cbn.
  - split; [|by intros (w & [= <-] & Hf & H1 & H2); destruct v].
    intros H. exists v. destruct v; done.
  - split; [|by intros (v & [=] & _)]. destruct (inherited_truthy r) as [->|Hi]; [done|].
    intros H. exfalso. destruct (inherited r); cbn in H, Hi; congruence.
Qed.

Lemma blocked_iff s method r :
  resolveCommandMethod method = JStr r -> (blocked s method = None <-> let_through s r).
Proof.
  intros Hr. unfold blocked, commandBlockedReason, let_through.
  destruct (canonical_methods (capabilities s)) as [|x l] eqn:Ec; [split; auto|]. rewrite Hr.
  destruct (has (x :: l) r) eqn:E1; cbn [negb]; cycle 1.
  { apply has_false in E1. cbn. split; [done|]. by intros [|[]]. }
  apply has_true in E1. destruct (has (runtime_supported_methods _) r) eqn:E2; cbn [negb].
  - apply has_true in E2. split; auto.
  - apply has_false in E2. rewrite <- reason_falsy. destruct (truthy _); naive_solver.
Qed.

Lemma start_sends uuid method label params sensitive s r :
  resolveCommandMethod method = JStr r ->
  forall s' request, dispatch_start uuid method label params sensitive s = Ok (inl (s', request))
    <-> status (currentDevice s) = online /\ let_through s r /\ s' = s <| dispatchingCmd := Some method |>
        /\ request = drawer_request uuid (id (currentDevice s)) r (effectiveParams (JStr r) params) sensitive.
Proof.
  intros Hr s' request. unfold dispatch_start. rewrite <- online_text, <- (blocked_iff s method r Hr), Hr.
  destruct (status_str _ !== "online"); [split; [done|by intros ([=] & _)]|].
  destruct (blocked s method) as [reason|]; cbn.
  - destruct (reasonToText reason); split; try done; by intros (_ & [=] & _).
  - split; [intros [= <- <-]; done|]. by intros (_ & _ & -> & ->).
Qed.

Lemma no_params r : effectiveParams (JStr r) [] = if r === "list_files" then LIST_FILES_DEFAULTS else [].
Proof. destruct (String.eqb_spec r "list_files") as [->|Hne]; [done|]. cbn. repeat case_match; done. Qed.

Lemma quick_resolved cmd : In cmd QUICK_COMMANDS -> exists r, resolveCommandMethod (quick_id cmd) = JStr r.
Proof.
  enough (List.Forall (fun cmd => exists r, resolveCommandMethod (quick_id cmd) = JStr r) QUICK_COMMANDS) as H
    by (rewrite List.Forall_forall in H; auto).
  repeat constructor; eexists; reflexivity.
Qed.

(** [C22] The buttons of the drawer.  A quick command is sent exactly when the
    drawer does not mark it as under way, the device is shown online, and the
    drawer lets it through: no command of the device is known yet, or the
    command is known and its runtime supports it, or it is known and the
    reason given for not supporting it is blank.  Sending marks that command
    and no other, the end of any command takes the mark away.  What is sent is
    the current name of the command for the device shown, with the parameters
    a listing of files begins with and else none, marked sensitive for locking
    the screen and nothing else.  A button that is not disabled always sends.
    A replay sends exactly when the device is online and the command is let
    through, with the parameters of its entry and never as sensitive. *)
Theorem drawer_dispatch (uuid : string) (cmd : QuickCommand) (s : State) :
  In cmd QUICK_COMMANDS ->
  exists r, resolveCommandMethod (quick_id cmd) = JStr r
    /\ (forall s' request, press_quick uuid cmd s = Some (Ok (inl (s', request))) <->
          dispatchingCmd s <> Some (quick_id cmd) /\ status (currentDevice s) = online /\ let_through s r
          /\ s' = s <| dispatchingCmd := Some (quick_id cmd) |>
          /\ request = drawer_request uuid (id (currentDevice s)) r
                         (if r === "list_files" then LIST_FILES_DEFAULTS else []) (quick_id cmd === "lock_screen"))
    /\ dispatchingCmd (dispatch_done s) = None
    /\ (press_quick uuid cmd s = None \/ exists sent, press_quick uuid cmd s = Some (Ok (inl sent)))
    /\ forall entry m s' request, resolveCommandMethod (entry_method entry) = JStr m ->
         press_replay uuid entry s = Ok (inl (s', request)) <->
         status (currentDevice s) = online /\ let_through s m
         /\ s' = s <| dispatchingCmd := Some (entry_method entry) |>
         /\ request = drawer_request uuid (id (currentDevice s)) m (effectiveParams (JStr m) (entry_params entry)) false.
Proof.
  intros Hin. destruct (quick_resolved cmd Hin) as [r Hr]. exists r. split; [done|].
  assert (match quick_risk cmd with high => true | _ => false end = (quick_id cmd === "lock_screen")) as Hrisk.
  { clear -Hin. cbn in Hin. repeat (destruct Hin as [<-|Hin]; [reflexivity|]). done. }
  rewrite <- (no_params r). unfold press_quick. rewrite Hrisk. set (sensitive := quick_id cmd === "lock_screen").
  pose proof (start_sends uuid (quick_id cmd) (quick_label cmd) [] sensitive s r Hr) as Hsend.
  split_and!.
  - intros s' request. case_bool_decide as Hd; cbn [orb]; [split; [done|by intros [[] _]]|].
    destruct (status_str _ !== "online") eqn:Eo; cbn [orb].
    { split; [done|]. intros (_ & Ho & _). apply online_text in Ho. congruence. }
    case_bool_decide as Hb.
    { split; [done|]. intros (_ & _ & Hp & _). apply (blocked_iff _ _ _ Hr) in Hp. rewrite Hp in Hb. by destruct Hb. }
    split; [intros [= H%Hsend]; tauto|]. intros (_ & H). f_equal. by apply Hsend.
  - done.
  - destruct (_ || _ || _) eqn:E; [by left|right]. apply orb_false_iff in E as [[_ Eo]%orb_false_iff Eb].
    eexists. f_equal. apply Hsend. split_and!; [by apply online_text| |reflexivity|reflexivity].
    apply (blocked_iff _ _ _ Hr). destruct (blocked s _); [by apply bool_decide_eq_false in Eb; destruct Eb|done].
  - intros entry m s' request Hm. by apply start_sends.
Qed.

(** ** Waiting *)

Section Waiting.
Context (cmdLabel : string) (clock : nat -> Z) (answers : nat -> PollReply).

(** The pause of a round takes at least as long as was asked for. *)
Hypothesis clock_start : (0 <= clock 0)%Z.
Hypothesis clock_pause : forall i, (clock i + POLL_PAUSE <= clock (S i))%Z.

Notation poll := (poll cmdLabel clock answers).

(** An answer after which the drawer asks again. *)
Definition inconclusive (a : PollReply) : Prop :=
  match a with Refused => True | Polled p => final_report cmdLabel p = Ok None | Lost => False end.

Definition wait_result (i : nat) (out : Outcome * nat) : Prop :=
  let '(outcome, n) := out in
  (i <= n <= 45)%nat /\ (forall k, (i <= k)%nat -> (S k < n)%nat -> inconclusive (answers k))
  /\ match outcome with
     | Reported t => exists p, (0 < n)%nat /\ answers (n - 1) = Polled p /\ final_report cmdLabel p = Ok (Some t)
     | TimedOut => (POLL_DEADLINE <= clock n)%Z
     | Failed => (0 < n)%nat /\ ~ inconclusive (answers (n - 1))
     end.

Lemma drawer_clock i : (POLL_PAUSE * Z.of_nat i <= clock i)%Z.
Proof. induction i as [|i IH]; [lia|]. pose proof (clock_pause i). unfold POLL_PAUSE in *. lia. Qed.

Lemma wait_more fuel fuel' i out : poll fuel i = Some out -> (fuel <= fuel')%nat -> poll fuel' i = Some out.
Proof.
  revert fuel' i. induction fuel as [|fuel IH]; intros [|fuel'] i H Hle; try done; [lia|].
  cbn [DeviceDrawer.poll] in *. destruct (negb _); [done|].
  destruct (answers i); [done|apply IH; [done|lia]|].
  destruct (final_report cmdLabel payload) as [[t|]|]; [done|apply IH; [done|lia]|done].
Qed.

Lemma wait_returns fuel i :
  (i <= 45)%nat -> (46 <= fuel + i)%nat -> exists out, poll fuel i = Some out /\ wait_result i out.
Proof.
  revert i. induction fuel as [|fuel IH]; intros i Hi Hf; [lia|]. cbn [DeviceDrawer.poll].
  destruct (clock i <? POLL_DEADLINE)%Z eqn:Ec; cbn [negb].
  2: { apply Z.ltb_ge in Ec. eexists. split; [done|]. split_and!; [lia|lia|intros k; lia|done]. }
  assert (i <= 44)%nat as Hi'.
  { apply Z.ltb_lt in Ec. pose proof (drawer_clock i). unfold POLL_DEADLINE, POLL_PAUSE in *. lia. }
  assert (inconclusive (answers i) -> exists out, poll fuel (S i) = Some out /\ wait_result i out) as Hnext.
  { intros Hinc. destruct (IH (S i)) as ([outcome n] & E & Hn & Hk & Ho); [lia|lia|].
    exists (outcome, n). split; [done|]. split_and!; [lia|lia| |done].
    intros k Hk1 Hk2. destruct (decide (k = i)) as [->|]; [done|]. apply Hk; lia. }
  assert (S i - 1 = i)%nat as Hlast by lia.
  destruct (answers i) as [| |p] eqn:Ea.
  - eexists. split; [done|]. split_and!; [lia|lia|intros k; lia|lia|]. rewrite Hlast, Ea. by intros [].
  - by apply Hnext.
  - destruct (final_report cmdLabel p) as [[t|]|] eqn:Er.
    + eexists. split; [done|]. split_and!; [lia|lia|intros k; lia|]. exists p. rewrite Hlast. split_and!; [lia|done|done].
    + by apply Hnext.
    + eexists. split; [done|]. split_and!; [lia|lia|intros k; lia|lia|]. rewrite Hlast, Ea. cbn. by rewrite Er.
Qed.

(** Waiting for the result of a command ends after at most 45 requests,
    whatever the service answers: with the message of the first answer that
    is final, at the deadline, or with a failure. *)
Theorem drawer_wait_ends : exists out, wait_result 0 out /\ forall fuel, (46 <= fuel)%nat -> poll fuel 0 = Some out.
Proof.
  destruct (wait_returns 46 0) as (out & E & Hout); [lia|lia|]. exists out. split; [done|].
  intros fuel Hf. apply (wait_more 46); [done|lia].
Qed.
End Waiting.

(** ** Loads *)

Section Loads.
Context (date_parse : string -> option Z) (local : Z -> LocalTime).

Notation bundle_end := (bundle_end date_parse local).
Notation bundle_parts := (bundle_parts date_parse local).

Lemma row_before_asym a b : row_before date_parse a b = true -> row_before date_parse b a = false.
Proof.
  unfold row_before. destruct (row_instant date_parse a), (row_instant date_parse b); try done.
  rewrite Z.ltb_lt, Z.ltb_ge. lia.
Qed.

Lemma row_before_negtrans a b c :
  row_before date_parse a b = false -> row_before date_parse b c = false -> row_before date_parse a c = false.
Proof.
  unfold row_before.
  destruct (row_instant date_parse a), (row_instant date_parse b), (row_instant date_parse c); try done.
  rewrite !Z.ltb_ge. lia.
Qed.

(** The history shows every command of the answer, the latest first. *)
Lemma taken_commands_sorted rows :
  exists sorted, sorted ≡ₚ rows ?? [] /\ in_order (row_before date_parse) sorted
    /\ taken_commands date_parse local rows = map (mapCommandHistoryEntry date_parse local) sorted.
Proof.
  exists (stable_sort (row_before date_parse) (rows ?? [])). split_and!; [apply stable_sort_perm| |done].
  apply stable_sort_order; [apply row_before_asym|apply row_before_negtrans].
Qed.

(** The device keeps its id, and can be shown. *)
Definition same_device (d : Device) (s : State) : Prop :=
  id (currentDevice s) = id d /\ (row_ok d -> row_ok (currentDevice s)).

Lemma with_risk_ok risk d : Num.within Num.zero one risk = true -> row_ok d -> row_ok (with_risk risk d).
Proof. intros Hr (H1 & H2 & H3 & H4 & _ & H6 & H7). unfold row_ok. cbn. by split_and!. Qed.

Lemma parts_same_device d can_view mode a :
  List.Forall (fun p : Part State => forall s, same_device d s -> same_device d (p s).1) (bundle_parts can_view mode a).
Proof.
  unfold bundle_parts. repeat (apply List.Forall_cons; [intros s Hs|]); try apply List.Forall_nil;
    try match goal with |- context [if can_view then _ else _] => destruct can_view end; try apply part_keep; try done; try (by destruct mode).
  - intros p _. destruct Hs as [Hid Hok]. split; [done|]. intros Hd. by apply merge_keeps_ok, Hok.
  - intros p _. unfold take_telemetry. destruct (metric_risk p) as [risk|] eqn:E; cbn; rewrite E; [|done]. cbn.
    destruct Hs as [Hid Hok]. split; [done|]. intros Hd. apply with_risk_ok; [apply risk_within|auto].
Qed.

Lemma parts_same_flag flag can_view mode a :
  List.Forall (fun p : Part State => forall s, isLoadingBundle s = flag -> isLoadingBundle (p s).1 = flag)
    (bundle_parts can_view mode a).
Proof.
  unfold bundle_parts. repeat (apply List.Forall_cons; [intros s Hs|]); try apply List.Forall_nil;
    try match goal with |- context [if can_view then _ else _] => destruct can_view end; try done;
    apply (part_keep (fun x => isLoadingBundle x = flag)); try done; try (by destruct mode).
  intros p _. unfold take_telemetry. by destruct (tele_risk (nextTelemetry p)).
Qed.

(** Every accepted answer has a body that is JSON. *)
Definition bundle_read (can_view : bool) (a : Answers) : bool :=
  body_read (detailRes a) && body_read (commandsRes a) && body_read (telemetryRes a)
  && (negb can_view || body_read (alertsRes a)) && body_read (auditRes a) && body_read (capsRes a).

(** What a part shows: its answer, else nothing at first and later what it
    showed before. *)
Definition shows {A B} (mode : Mode) (r : Reply A) (f : A -> list B) (before : list B) : list B :=
  match payload_of r with Some p => f p | None => match mode with initial => [] | _ => before end end.

Definition page_parts (s : State) :=
  (commandHistory s, alerts s, auditRows s, capabilities s, telemetry s).

Lemma bundle_parts_read can_view mode a s :
  bundle_read can_view a = true ->
  (parts (bundle_parts can_view mode a) s).2 = true
  /\ page_parts (parts (bundle_parts can_view mode a) s).1
     = (shows mode (commandsRes a) (taken_commands date_parse local) (commandHistory s),
        (if can_view then shows mode (alertsRes a) (taken_alerts date_parse local) (alerts s) else []),
        shows mode (auditRes a) (taken_audit date_parse local) (auditRows s),
        from_option taken_capabilities (capabilities s) (payload_of (capsRes a)),
        from_option nextTelemetry (telemetry s) (payload_of (telemetryRes a))).
Proof.
  unfold bundle_read. rewrite !andb_true_iff. intros [[[[[H1 H2] H3] H4] H5] H6].
  unfold bundle_parts, DeviceDrawer.bundle_parts. cbn [parts]. rewrite (part_read _ _ _ s H1). cbn [parts].
  rewrite (part_read _ _ _ _ H2). cbn [parts]. rewrite (part_read _ _ _ _ H3). cbn [parts].
  unfold shows. destruct can_view; cbn [negb orb] in H4; [rewrite (part_read _ _ _ _ H4)|]; cbn [parts];
    rewrite (part_read _ _ _ _ H5); cbn [parts]; rewrite (part_read _ _ _ _ H6); cbn [parts];
    (split; [done|]); unfold take_telemetry;
    destruct (payload_of (detailRes a)), (payload_of (commandsRes a)), (payload_of (telemetryRes a)) as [t|],
      (payload_of (auditRes a)), (payload_of (capsRes a)), mode; try destruct (payload_of (alertsRes a));
    try (destruct (metric_risk t) eqn:E; cbn; rewrite E); reflexivity.
Qed.

Lemma cut_payload {A} (r : Reply A) : payload_of (cut_reply r) = None.
Proof. destruct r as [|code body]; [done|]. cbn. by destruct (_ && _). Qed.

(** What an overtaken load leaves alone. *)
Definition untouched (can_view : bool) (mode : Mode) (s s' : State) : Prop :=
  currentDevice s' = currentDevice s /\ telemetry s' = telemetry s /\ capabilities s' = capabilities s
  /\ commandHistory s' = match mode with initial => commandHistory s' | _ => commandHistory s end
  /\ auditRows s' = match mode with initial => auditRows s' | _ => auditRows s end
  /\ (alerts s' = match mode with initial => alerts s' | _ => alerts s end \/ can_view = false /\ alerts s' = []).

Lemma cut_untouched can_view mode a s :
  untouched can_view mode s (parts (bundle_parts can_view mode (cut a)) s).1.
Proof.
  apply (parts_keep (untouched can_view mode s)); [|by destruct mode; split_and!; auto].
  unfold bundle_parts. repeat (apply List.Forall_cons; [intros s' Hs|]); try apply List.Forall_nil;
    try match goal with |- context [if can_view then _ else _] => destruct can_view end;
    try (apply part_keep; cbn [cut detailRes commandsRes telemetryRes alertsRes auditRes capsRes];
         rewrite ?cut_payload; try done); try (destruct mode; unfold untouched in *; cbn in *; naive_solver).
Qed.

(** Loading the drawer.  It keeps showing the device it was opened for,
    and that device can be shown.  As long as each accepted answer has a JSON
    body, every part shows what its own answer says; without an answer a list
    is empty at first and later stays as it was, and capabilities and
    telemetry stay as they were; there is no error, and the first load ends
    its indicator.  The history is complete, the latest command first.  A
    load that was overtaken changes neither the device nor capabilities nor
    telemetry, and brings no list of its own. *)
Theorem drawer_load (can_view : bool) (mode : Mode) (aborted : bool) (a : Answers) (s : State) :
  let s' := bundle_end can_view mode aborted a s in
  same_device (currentDevice s) s'
  /\ isLoadingBundle s' = match mode with initial => false | _ => isLoadingBundle s end
  /\ (aborted = false -> bundle_read can_view a = true ->
      loadError s' = None
      /\ page_parts s'
         = (shows mode (commandsRes a) (taken_commands date_parse local) (commandHistory s),
            (if can_view then shows mode (alertsRes a) (taken_alerts date_parse local) (alerts s) else []),
            shows mode (auditRes a) (taken_audit date_parse local) (auditRows s),
            from_option taken_capabilities (capabilities s) (payload_of (capsRes a)),
            from_option nextTelemetry (telemetry s) (payload_of (telemetryRes a))))
  /\ (forall rows, exists sorted, sorted ≡ₚ rows ?? [] /\ in_order (row_before date_parse) sorted
        /\ taken_commands date_parse local rows = map (mapCommandHistoryEntry date_parse local) sorted)
  /\ (aborted = true -> untouched can_view mode s s').
Proof.
  cbn zeta. unfold DeviceDrawer.bundle_end.
  set (ps := bundle_parts can_view mode (if aborted then cut a else a)).
  assert (same_device (currentDevice s) (parts ps s).1) as Hd by (apply parts_keep; [apply parts_same_device|done]).
  assert (isLoadingBundle (parts ps s).1 = isLoadingBundle s) as Hl.
  { apply (parts_keep (fun x => isLoadingBundle x = isLoadingBundle s)); [|done]. apply parts_same_flag. }
  split_and!; [destruct (parts ps s) as [x []], mode, aborted; done| | |apply taken_commands_sorted|].
  - destruct (parts ps s) as [x []], mode, aborted; done.
  - intros -> Hr. destruct (bundle_parts_read can_view mode a s Hr) as [Hf Hp]. unfold ps.
    destruct (parts _ s) as [x fine]. cbn in Hf, Hp. rewrite Hf, <- Hp. by destruct mode.
  - intros ->. pose proof (cut_untouched can_view mode a s) as H. unfold ps. destruct (parts _ s) as [x []], mode; done.
Qed.
End Loads.

(** ** Examples *)

Module DrawerDemo.

Definition up : Device :=
  {| id := "d-1"; hostname := "host"; osBuild := "-"; owner := "o"; status := online; riskScore := Num.zero;
     compliance := compliant; lastSeen := "-"; agentVersion := "-"; policySync := None; kernelGuard := None;
     ipAddress := None; sessionId := None |}.
Definition knows (reasons : obj) : State :=
  (init up) <| capabilities := {| canonical_methods := ["ping"; "lock_screen"];
                                  runtime_supported_methods := ["ping"]; rejection_reasons := reasons |} |>.
Definition ping : QuickCommand := quick "ping" "Ping" low.
Definition lock : QuickCommand := quick "lock_screen" "Lock Screen" high.

Lemma drawer_dispatch_witness :
  exists sent, press_quick "u" ping (knows []) = Some (Ok (inl sent)) /\ dispatchingCmd sent.1 = Some "ping"
    /\ press_quick "u" lock sent.1 = None.
Proof.
  destruct (drawer_dispatch "u" ping (knows [])) as (r & Hr & Hiff & _).
  - vm_compute. tauto.
  - injection Hr as <-. eexists (_, _). split; [|split].
    + apply Hiff. split; [discriminate|split; [reflexivity|split; [|split; reflexivity]]].
      right. split; [left|left; left].
    + reflexivity.
    + reflexivity.
Defined.

Definition never (s : string) : option Z := None.
Definition midnight (t : Z) : LocalTime := {| fullYear := 2026; month := 1; date := 1; hours := 0; minutes := 0; secs := 0 |}.
Definition lost : Answers :=
  {| detailRes := Unreachable; commandsRes := Unreachable; telemetryRes := Unreachable; alertsRes := Unreachable;
     auditRes := Unreachable; capsRes := Unreachable |}.

Lemma drawer_load_witness :
  loadError (bundle_end never midnight true refresh false lost (knows [])) = None.
Proof.
  destruct (drawer_load never midnight true refresh false lost (knows [])) as (_ & _ & H & _).
  destruct H as [H _]; [reflexivity|reflexivity|exact H].
Defined.

(** While the load of the device shown is under way, the end of the one
    before it takes the indicator away and empties the lists. *)
Lemma restart_looks_empty :
  let s := bundle_end never midnight true initial true lost (show_device up (init up)) in
  isLoadingBundle s = false /\ commandHistory s = [] /\ loadError s = None.
Proof. vm_compute. done. Qed.

(** A command that another one follows can be sent again while it is still
    under way. *)
Lemma second_dispatch_forgets s :
  s = (init up) <| dispatchingCmd := Some "ping" |> ->
  press_quick "u" ping s = None
  /\ exists sent again, press_quick "u" lock s = Some (Ok (inl sent)) /\ press_quick "u" ping sent.1 = Some (Ok (inl again)).
Proof. intros ->. split; [done|]. do 2 eexists. split; vm_compute; reflexivity. Qed.

(** An unsupported command whose reason is an empty text is sent. *)
Lemma empty_reason_unblocks :
  press_quick "u" lock (knows []) = None
  /\ exists sent, press_quick "u" lock (knows [("lock_screen", JStr "")]) = Some (Ok (inl sent)).
Proof. split; [done|]. eexists. vm_compute. reflexivity. Qed.

(** Whether a state is final is tested without regard to case, whether it is
    success with regard to it. *)
Lemma capitals_reported_failed :
  final_report "Ping" (JObj [("state", JStr "Completed")]) = Ok (Some (ToastError "Ping Completed: failed")).
Proof. reflexivity. Qed.

(** When the deadline passes, nothing is said. *)
Definition accepted : FetchResponse :=
  {| Http.status := 202; resp_headers := ∅; resp_body := Some (json_text [("command_id", JStr "c-1")]) |}.
Definition ticking (i : nat) : Z := (2000 * Z.of_nat i)%Z.

Lemma timeout_silent :
  dispatch_rest "Ping" ticking (fun _ => Refused) 46 (Some accepted)
  = Some ([ToastSuccess "Ping dispatched (c-1)"], true, 45%nat).
Proof. vm_compute. reflexivity. Qed.

End DrawerDemo.
