(* ===== verification/ResultsPage.v ===== *)
(** * The page of command results

    src/app/command-results/components/CommandResultsContent.tsx: the list of
    results, loaded page by page and polled, the details of the rows that
    were expanded, filters and order; then the laws of the page.  A load
    keeps nothing back: its answer changes the list whenever it arrives.
    [date_parse] and [local] are the parameters of Module DateTime,
    [url_pathname] the one of Module Results.  The object [details] is
    looked up by ids of commands, which are not names objects inherit. *)

From S2P Require Import Prelude JsNumber JsString JsValue Http Session Commands RenderModel RenderLaws Client Devices Tables Loader Requests.
Import Results DateTime.

(** ** Rows *)

Record CommandsApiResponse := { p_commands : option (list CommandListRowApi); next_before : option string }.

Definition knownMethodLabels : obj :=
  map (fun kv => (kv.1, JStr kv.2))
  [("ping", "Ping"); ("lock_screen", "Lock Screen"); ("logout_user", "Logout User"); ("reboot_device", "Reboot Device");
   ("shutdown_device", "Shutdown Device"); ("process_list", "Process List"); ("list_processes", "Process List");
   ("list_services", "Services"); ("list_connections", "Connections"); ("list_mounts", "Mounts");
   ("network_info", "Network Info"); ("get_active_window", "Active Window"); ("list_files", "List Files");
   ("download_file", "Download File"); ("upload_file", "Upload File"); ("create_directory", "Create Directory");
   ("create_file", "Create File"); ("delete_file", "Delete File"); ("delete_directory", "Delete Directory");
   ("system_info", "System Info"); ("collect_system_info", "System Info"); ("screenshot", "Screenshot");
   ("screenshot-capture", "Screenshot"); ("telemetry_snapshot", "Telemetry Snapshot")].

Definition methodLabel (method : string) : jsval :=
  let label := get knownMethodLabels method in
  if truthy label then label else JStr (smap (fun c => if Ascii.eqb c "_" then " "%char else c) method).

Definition status_label (s : CommandState) : string :=
  match s with
  | queued => "Queued" | dispatched => "Dispatched" | ack_received => "Acknowledged" | executing => "Executing"
  | completed => "Completed" | failed => "Failed" | expired => "Expired" | rejected => "Rejected"
  end.

(** ** Lists by id *)

(** [new Map(l.map((item) => [item.commandId, item]))] *)
Definition by_id (l : list NormalizedCommandResult) : list (string * NormalizedCommandResult) :=
  fold_left (fun m item => map_set m (commandId item) item) l [].

(** The rows of another page that are not there yet, after those that are. *)
Definition appended (prev mapped : list NormalizedCommandResult) : list NormalizedCommandResult :=
  map snd (fold_left (fun m item => if has_own m (commandId item) then m else map_set m (commandId item) item)
             mapped (by_id prev)).

(** ** State *)

(** 'all' is [None]. *)
Record Filters := {
  deviceFilter : option string;
  statusFilter : option CommandState;
  methodFilter : option string;
  sourceFilter : option CommandOriginChannel;
}.

Record State := {
  results : list NormalizedCommandResult;
  details : list (string * NormalizedCommandResult);
  expandedIds : list string;
  search : string;
  filters : Filters;
  isLoading : bool;
  isRefreshing : bool;
  error : option string;
  nextBefore : option string;
  isLoadingMore : bool;
}.

#[export] Instance eta_results : Eta State := fun s =>
  {| results := results s; details := details s; expandedIds := expandedIds s; search := search s;
     filters := filters s; isLoading := isLoading s; isRefreshing := isRefreshing s; error := error s;
     nextBefore := nextBefore s; isLoadingMore := isLoadingMore s |}.

Definition no_filters : Filters :=
  {| deviceFilter := None; statusFilter := None; methodFilter := None; sourceFilter := None |}.

Definition init : State :=
  {| results := []; details := []; expandedIds := []; search := ""; filters := no_filters; isLoading := true;
     isRefreshing := false; error := None; nextBefore := None; isLoadingMore := false |}.

Section Zone.
Context (date_parse : string -> option Z) (local : Z -> LocalTime) (url_pathname : string -> option string).

Definition formatTime (value : option string) : string := formatLocalDateTime date_parse local value "-".

Definition timelineRows (row : NormalizedCommandResult) : list (string * string * bool) :=
  let stage label at_ := (label, formatTime at_, truthy_str (at_ ?? "")) in
  [stage "Queued" (queuedAt row); stage "Dispatched" (dispatchedAt row); stage "Completed" (completedAt row)].

(** ** Loading *)

(** The options of [fetchCommandList]. *)
Record ListOptions := { opt_append : bool; opt_before : option string; opt_silent : bool }.

Definition plain_load : ListOptions := {| opt_append := false; opt_before := None; opt_silent := false |}.
Definition poll_load : ListOptions := {| opt_append := false; opt_before := None; opt_silent := true |}.

Definition list_url (o : ListOptions) : string :=
  "/api/commands?limit=50"
  +:+ match opt_before o with Some b => if truthy_str b then "&before=" +:+ form_encode b else "" | None => "" end.

(** The flag of a load that is not silent. *)
Definition set_busy (o : ListOptions) (busy : bool) (s : State) : State :=
  if opt_silent o then s
  else if opt_append o then s <| isLoadingMore := busy |> else s <| isLoading := busy |>.

(** What the request throws, or its payload. *)
Definition list_payload (r : Reply CommandsApiResponse) : res CommandsApiResponse :=
  match r with
  | Loader.Unreachable => Exn network_error
  | Replied code body =>
      if reply_ok r then match body with Some p => Ok p | None => Exn "Unexpected token" end
      else Exn ("Failed to load data (" +:+ Num.digits code +:+ ")")
  end.

Definition mapped_rows (p : CommandsApiResponse) : list NormalizedCommandResult :=
  map (mapCommandListRow url_pathname) (p_commands p ?? []).

Definition list_end (o : ListOptions) (r : Reply CommandsApiResponse) (s : State) : State :=
  set_busy o false
    match list_payload r with
    | Ok p => s <| results := if opt_append o then appended (results s) (mapped_rows p) else mapped_rows p |>
                <| nextBefore := next_before p |> <| error := None |>
    | Exn text => s <| error := Some text |>
    end.

(** The detail of a row is asked for once; its answer is merged into the row
    of the list that was shown when it was asked for. *)
Definition detail_wanted (commandId : string) (s : State) : bool := negb (has_own (details s) commandId).
Definition detail_url (commandId : string) : string := "/api/commands/" +:+ encodeURIComponent commandId.

Definition detail_end (x : string) (seen : list NormalizedCommandResult) (r : Reply CommandListRowApi) (s : State)
    : State * option string :=
  match payload_of r with
  | None => (s, Some "Failed to load data")
  | Some payload =>
      match List.find (fun item => commandId item === x) seen with
      | Some base => (s <| details := put (details s) x (mergeCommandDetail url_pathname base payload) |>, None)
      | None => (s, None)
      end
  end.

(** ** What is shown *)

Definition queued_instant (row : NormalizedCommandResult) : Z := date_parse (queuedAt row ?? "") ?? 0%Z.

Definition rows (s : State) : list NormalizedCommandResult :=
  stable_sort (latest queued_instant) (map (fun row => own_get (details s) (commandId row) ?? row) (results s)).

Definition sorted_values (f : NormalizedCommandResult -> string) (s : State) : list string :=
  stable_sort String.ltb (set_of (map f (rows s))).
Definition devices (s : State) : list string := sorted_values deviceName s.
Definition methods (s : State) : list string := sorted_values nMethod s.
Definition sources (s : State) : list string := sorted_values (fun r => channel_str (originChannel r)) s.

Definition is_all_or {A} (f : option A) (same : A -> bool) : bool := match f with None => true | Some x => same x end.

Definition matches (f : Filters) (term : string) (row : NormalizedCommandResult) : bool :=
  is_all_or (deviceFilter f) (fun x => deviceName row === x)
  && is_all_or (statusFilter f) (fun x => state_str (nState row) === state_str x)
  && is_all_or (methodFilter f) (fun x => nMethod row === x)
  && is_all_or (sourceFilter f) (fun x => channel_str (originChannel row) === channel_str x)
  && (negb (truthy_str term) || includes (toLowerCase (commandId row)) term
      || includes (toLowerCase (deviceName row)) term || includes (toLowerCase (actorEmail row)) term
      || includes (toLowerCase (nMethod row)) term).

Definition filtered (s : State) : list NormalizedCommandResult :=
  List.filter (matches (filters s) (toLowerCase (trim (search s)))) (rows s).

(** ** Events *)

(** A load of the list, [button] if the one of the refresh button, or of a
    detail, with the list of the render that asked for it. *)
Inductive Task := Listing (o : ListOptions) (button : bool) | Detail (x : string) (seen : list NormalizedCommandResult).

Record Run := { page : State; tasks : list (nat * Task); next : nat }.

#[export] Instance eta_results_run : Eta Run := fun w => {| page := page w; tasks := tasks w; next := next w |}.

Definition begin (t : Task) (w : Run) : Run := w <| tasks := tasks w ++ [(next w, t)] |> <| next := S (next w) |>.
Definition finished (n : nat) (w : Run) : Run :=
  w <| tasks := List.filter (fun t => negb (Nat.eqb t.1 n)) (tasks w) |>.
Definition update (f : State -> State) (w : Run) : Run := w <| page := f (page w) |>.

Definition load (o : ListOptions) (button : bool) (w : Run) : Run := begin (Listing o button) (update (set_busy o true) w).

(** The button below the list, [None] when it is not there or disabled. *)
Definition load_more (s : State) : option ListOptions :=
  before ← nextBefore s;
  if truthy_str before && negb (isLoadingMore s)
  then Some {| opt_append := true; opt_before := Some before; opt_silent := false |} else None.

Definition toggleExpand (x : string) (w : Run) : Run :=
  let w' := update (fun s => s <| expandedIds := set_toggle x (expandedIds s) |>) w in
  if detail_wanted x (page w) then begin (Detail x (results (page w))) w' else w'.

(** What the refresh button does when its load has ended; the message says
    that it went well. *)
Definition refresh_end (s : State) : State := s <| isRefreshing := false |>.

Inductive Event :=
| Polled | Refreshed | MoreWanted | Toggled (x : string) | Searched (term : string) | Filtered (f : Filters)
| ListAnswered (n : nat) (r : Reply CommandsApiResponse)
| DetailAnswered (n : nat) (x : string) (r : Reply CommandListRowApi).

Inductive step : Run -> Event -> Run -> Prop :=
| step_poll w : step w Polled (load poll_load false w)
| step_refresh w : step w Refreshed (load plain_load true (update (fun s => s <| isRefreshing := true |>) w))
| step_more o w : load_more (page w) = Some o -> step w MoreWanted (load o false w)
| step_toggle x row w : row ∈ filtered (page w) -> x = commandId row -> step w (Toggled x) (toggleExpand x w)
| step_search term w : step w (Searched term) (update (fun s => s <| search := term |>) w)
| step_filter f w : step w (Filtered f) (update (fun s => s <| filters := f |>) w)
| step_list n o button r w : (n, Listing o button) ∈ tasks w ->
    step w (ListAnswered n r)
      (finished n (update (fun s => let s := list_end o r s in if button then refresh_end s else s) w))
| step_detail n x seen r w : (n, Detail x seen) ∈ tasks w ->
    step w (DetailAnswered n x r) (finished n (update (fun s => (detail_end x seen r s).1) w)).

Definition start : Run := load plain_load false {| page := init; tasks := []; next := 0 |}.

Inductive reaches : list Event -> Run -> Prop :=
| reaches_start : reaches [] start
| reaches_step es e w w' : reaches es w -> step w e w' -> reaches (es ++ [e]) w'.
End Zone.

(** ** Laws *)

Section ById.
Notation keyed := (List.Forall (fun kv : string * NormalizedCommandResult => commandId kv.2 = kv.1)).

Lemma keyed_ids m : keyed m -> map commandId (map snd m) = keys m.
Proof. rewrite map_map. intros H. apply map_ext_in. intros kv Hkv. rewrite List.Forall_forall in H. by apply H. Qed.

Lemma map_set_keys (m : list (string * NormalizedCommandResult)) k v :
  keys (map_set m k v) = if has (keys m) k then keys m else keys m ++ [k].
Proof.
  unfold map_set. destruct (has_own m k) eqn:E.
  - rewrite keys_replace. apply has_own_keys, list_elem_of_In, has_true in E. by rewrite E.
  - destruct (has (keys m) k) eqn:Eh; [|unfold keys; by rewrite map_app].
    apply has_true, list_elem_of_In, has_own_keys in Eh. congruence.
Qed.

(** Setting the items one by one collects their ids as a set does. *)
Lemma collect_ids (insert : list (string * NormalizedCommandResult) -> NormalizedCommandResult -> list (string * NormalizedCommandResult)) l m :
  (forall m item, keyed m ->
     keyed (insert m item)
     /\ keys (insert m item) = if has (keys m) (commandId item) then keys m else keys m ++ [commandId item]) ->
  keyed m ->
  keyed (fold_left insert l m)
  /\ keys (fold_left insert l m)
     = fold_left (fun acc x => if has acc x then acc else acc ++ [x]) (map commandId l) (keys m).
Proof.
  intros Hstep. revert m. induction l as [|item l IH]; intros m Hm; [done|]. cbn [fold_left map].
  destruct (Hstep m item Hm) as [Hk He]. destruct (IH _ Hk) as [Hk' He']. split; [done|]. by rewrite He', He.
Qed.

Lemma by_id_ids l : keyed (by_id l) /\ keys (by_id l) = set_of (map commandId l).
Proof.
  apply collect_ids; [|constructor]. intros m item Hm. split; [by apply map_set_forall|apply map_set_keys].
Qed.

(** The ids of a list and of the page after it, each once, in order. *)
Lemma appended_ids prev mapped :
  map commandId (appended prev mapped) = set_of (map commandId prev ++ map commandId mapped).
Proof.
  unfold appended. destruct (by_id_ids prev) as [Hk He].
  destruct (collect_ids (fun m item => if has_own m (commandId item) then m else map_set m (commandId item) item)
              mapped (by_id prev)) as [Hk' He']; [|done|].
  - intros m item Hm. rewrite <- map_set_keys with (v := item). unfold map_set.
    destruct (has_own m (commandId item)) eqn:E; [by rewrite keys_replace|]. split; [|done].
    apply Forall_app. by split; [|constructor].
  - rewrite keyed_ids, He' by done. rewrite He. unfold set_of. by rewrite fold_left_app.
Qed.

End ById.

Section RunLaws.
Context (date_parse : string -> option Z) (local : Z -> LocalTime) (url_pathname : string -> option string).

Notation step := (step date_parse url_pathname).
Notation reaches := (reaches date_parse url_pathname).
Notation rows := (rows date_parse).

(** Ids are trimmed and not empty. *)
Definition tidy_ids (l : list NormalizedCommandResult) : Prop := List.Forall (fun item => tidy (commandId item)) l.

Definition results_ok (s : State) : Prop :=
  tidy_ids (results s) /\ forall k d, own_get (details s) k = Some d -> commandId d = k.

Definition run_ok (w : Run) : Prop :=
  results_ok (page w) /\ forall n x seen, (n, Detail x seen) ∈ tasks w -> tidy_ids seen.

(** The service answers a request for a detail with that command. *)
Definition answers_asked (e : Event) : Prop :=
  match e with
  | DetailAnswered _ x r => forall p, payload_of r = Some p -> command_id p = None \/ command_id p = Some x
  | _ => True
  end.

Lemma mapped_tidy p : tidy_ids (mapped_rows url_pathname p).
Proof. apply Forall_map, List.Forall_forall. intros row _. by apply trim_or_tidy. Qed.

Lemma appended_tidy prev mapped : tidy_ids prev -> tidy_ids mapped -> tidy_ids (appended prev mapped).
Proof.
  unfold tidy_ids. rewrite <- !(List.Forall_map commandId tidy), appended_ids. intros H1 H2.
  apply List.Forall_forall. intros x Hx. rewrite <- list_elem_of_In, elem_of_set_of, elem_of_app, !list_elem_of_In in Hx.
  rewrite List.Forall_forall in H1, H2. naive_solver.
Qed.

Lemma list_end_ok o r s : results_ok s -> results_ok (list_end url_pathname o r s).
Proof.
  intros [Ht Hd]. unfold list_end, set_busy, results_ok. destruct (list_payload r) as [p|]; destruct (opt_silent o), (opt_append o);
    cbn; (split; [|done]); auto using mapped_tidy, appended_tidy.
Qed.

Lemma merge_id base payload x :
  commandId base = x -> tidy x -> command_id payload = None \/ command_id payload = Some x ->
  commandId (mergeCommandDetail url_pathname base payload) = x.
Proof.
  intros Hb Hx H. cbn. unfold merged_row. cbn.
  assert ((command_id payload ?? commandId base) = x) as -> by (destruct H as [->| ->]; done).
  by apply trim_or_fix.
Qed.

Lemma detail_end_ok x seen r s :
  tidy_ids seen -> (forall p, payload_of r = Some p -> command_id p = None \/ command_id p = Some x) ->
  results_ok s -> results_ok (detail_end url_pathname x seen r s).1.
Proof.
  intros Hseen Hr [Ht Hd]. unfold detail_end. destruct (payload_of r) as [p|]; [|done].
  destruct (List.find _ seen) as [base|] eqn:E; [|done]. split; [done|]. cbn.
  apply find_some in E as [Hin Hb%String.eqb_eq]. intros k d. destruct (decide (k = x)) as [->|Hne].
  - rewrite own_get_put_eq. intros [= <-]. apply merge_id; [done| |by apply Hr].
    rewrite <- Hb. by apply (proj1 (List.Forall_forall _ _) Hseen).
  - rewrite own_get_put_ne by done. apply Hd.
Qed.

Lemma finished_task n t w : t ∈ tasks (finished n w) -> t ∈ tasks w.
Proof. cbn. rewrite !list_elem_of_In, filter_In. tauto. Qed.

Lemma results_step_ok w e w' : step w e w' -> answers_asked e -> run_ok w -> run_ok w'.
Proof.
  assert (forall o b w, run_ok w -> run_ok (load o b w)) as Hload.
  { intros o b w0 [Hp Ht]. split.
    - cbn. unfold set_busy. destruct (opt_silent o), (opt_append o); done.
    - intros n x seen. cbn. rewrite elem_of_app, list_elem_of_singleton. intros [?|[=]]. eauto. }
  intros Hs He Hw. destruct Hs as [w|w|o w Ho|x row w Hrow ->|term w|f w|n o b r w Hn|n x seen r w Hn]; auto.
  - destruct Hw as [Hp Ht]. unfold toggleExpand. destruct (detail_wanted _ _); [|done]. split; [done|].
    intros n x seen. cbn. rewrite elem_of_app, list_elem_of_singleton. intros [?|[= _ _ ->]]; [eauto|apply Hp].
  - destruct Hw as [Hp Ht]. split; [cbn; destruct b; by apply list_end_ok|].
    intros m x seen Hm%finished_task. by eapply Ht.
  - destruct Hw as [Hp Ht]. split; [cbn; apply detail_end_ok; [by eapply Ht|done|done]|].
    intros m y seen' Hm%finished_task. by eapply Ht.
Qed.

Lemma reaches_run_ok es w : reaches es w -> List.Forall answers_asked es -> run_ok w.
Proof.
  induction 1 as [|es e w w' _ IH Hstep]; intros Hes.
  - split; [split; [constructor|done]|]. intros n x seen H. cbn in H. by apply list_elem_of_singleton in H.
  - apply List.Forall_app in Hes as [Hes He]. eapply results_step_ok; [done|by inversion He|auto].
Qed.

Lemma rows_ids s : results_ok s -> map commandId (rows s) ≡ₚ map commandId (results s).
Proof.
  intros [_ Hd]. unfold rows. rewrite stable_sort_perm, map_map. erewrite map_ext; [done|].
  intros row. cbn. destruct (own_get (details s) (commandId row)) eqn:E; [by apply Hd|done].
Qed.

(** *** Page after page *)

(** A service answers the address of a load with a page and the cursor of the
    next one; [pages] are those it has from a load on. *)
Definition more_from (k : string) : ListOptions := {| opt_append := true; opt_before := Some k; opt_silent := false |}.

Definition page_rows (p : CommandsApiResponse) : list CommandListRowApi := p_commands p ?? [].

Inductive pages (service : string -> CommandsApiResponse) : ListOptions -> list (list CommandListRowApi) -> Prop :=
| last_page o : (next_before (service (list_url o)) ?? "") = "" -> pages service o [page_rows (service (list_url o))]
| further_page o k ps : next_before (service (list_url o)) = Some k -> k <> "" -> pages service (more_from k) ps ->
    pages service o (page_rows (service (list_url o)) :: ps).

Section Browsing.
Context (service : string -> CommandsApiResponse).

(** A load is begun and answered. *)
Definition visit (o : ListOptions) (button : bool) (w : Run) : Run :=
  let r := Replied 200 (Some (service (list_url o))) in
  finished (next w)
    (update (fun s => let s := list_end url_pathname o r s in if button then refresh_end s else s) (load o button w)).

(** The refresh button, and then [k] times the one below the list, if it is
    there. *)
Definition turn (w : Run) : Run := match load_more (page w) with Some o => visit o false w | None => w end.
Fixpoint turns (k : nat) (w : Run) : Run := match k with O => w | S k => turns k (turn w) end.
Definition browse (k : nat) (w : Run) : Run :=
  turns k (visit plain_load true (update (fun s => s <| isRefreshing := true |>) w)).

Lemma visit_answered o b w : step (load o b w) (ListAnswered (next w) (Replied 200 (Some (service (list_url o))))) (visit o b w).
Proof. apply (step_list _ _ (next w) o b). cbn. apply elem_of_app. right. left. Qed.

(** Browsing is a run of the page. *)
Lemma turns_reach k es w :
  reaches es w -> exists es', reaches (es ++ es') (turns k w) /\ List.Forall answers_asked es'.
Proof.
  revert es w. induction k as [|k IH]; intros es w Hw; cbn [turns].
  { exists []. rewrite app_nil_r. by split; [|constructor]. }
  unfold turn. destruct (load_more (page w)) as [o|] eqn:E; [|by apply IH].
  pose proof (reaches_step _ _ _ _ _ _ Hw (step_more _ _ o w E)) as Hl.
  destruct (IH _ _ (reaches_step _ _ _ _ _ _ Hl (visit_answered o false w))) as (es' & Hr & Hes).
  eexists ([_] ++ [_] ++ es'). rewrite !app_assoc. split; [exact Hr|]. by repeat constructor.
Qed.

Lemma browse_reaches k es w :
  reaches es w -> exists es', reaches (es ++ es') (browse k w) /\ List.Forall answers_asked es'.
Proof.
  intros Hw. pose proof (reaches_step _ _ _ _ _ _ Hw (step_refresh _ _ w)) as Hl.
  pose proof (visit_answered plain_load true (update (fun s => s <| isRefreshing := true |>) w)) as Ha.
  destruct (turns_reach k _ _ (reaches_step _ _ _ _ _ _ Hl Ha)) as (es' & Hr & Hes).
  eexists ([_] ++ [_] ++ es'). rewrite !app_assoc. split; [exact Hr|]. by repeat constructor.
Qed.

Definition ids_of (commands : list CommandListRowApi) : list string :=
  map (fun row => commandId (mapCommandListRow url_pathname row)) commands.

(** The page shows [before] and then the answer to [o], each command once,
    and knows the cursor that came with it. *)
Definition arrived (o : ListOptions) (before : list string) (w : Run) : Prop :=
  map commandId (results (page w)) = set_of (before ++ ids_of (page_rows (service (list_url o))))
  /\ nextBefore (page w) = next_before (service (list_url o)) /\ isLoadingMore (page w) = false.

Lemma turn_arrives o before k w :
  arrived o before w -> next_before (service (list_url o)) = Some k -> k <> "" ->
  arrived (more_from k) (before ++ ids_of (page_rows (service (list_url o)))) (turn w).
Proof.
  intros (Hids & Hc & Hm) Hk Hne. unfold turn, load_more. rewrite Hc, Hk, Hm. cbn [mbind option_bind].
  rewrite (proj2 (truthy_str_spec k) Hne). cbn [andb negb]. change {| opt_append := true; opt_before := Some k; opt_silent := false |}
    with (more_from k). split; [|done].
  change (results (page (visit (more_from k) false w)))
    with (appended (results (page w)) (map (mapCommandListRow url_pathname) (page_rows (service (list_url (more_from k)))))).
  rewrite appended_ids, Hids, map_map. apply set_of_set.
Qed.

Lemma turns_show o ps before k w :
  pages service o ps -> arrived o before w ->
  map commandId (results (page (turns k w))) = set_of (before ++ ids_of (concat (take (S k) ps)))
  /\ (length ps <= S k -> load_more (page (turns k w)) = None).
Proof.
  intros Hps. revert before k w. induction Hps as [o Hlast|o c ps Hc Hne Hps IH]; intros before k w Hw.
  - assert (load_more (page w) = None) as Hno.
    { destruct Hw as (_ & Hcur & _). unfold load_more. rewrite Hcur. destruct (next_before _) as [c|]; [|done].
      cbn in Hlast. by subst c. }
    assert (turns k w = w) as -> by (clear -Hno; induction k as [|k IH]; [done|]; cbn; unfold turn; by rewrite Hno).
    split; [|done]. destruct k; cbn [take concat]; rewrite app_nil_r; apply Hw.
  - destruct k as [|k].
    + cbn [turns take concat]. rewrite app_nil_r. split; [apply Hw|]. inversion Hps; subst; cbn [length]; lia.
    + cbn [turns]. destruct (IH _ k _ (turn_arrives o before c w Hw Hc Hne)) as [Hids Hend]. split.
      * rewrite Hids. cbn [take concat]. unfold ids_of. by rewrite map_app, app_assoc.
      * cbn [length]. intros Hl. apply Hend. lia.
Qed.

Lemma browse_shows ps k w :
  pages service plain_load ps -> NoDup (ids_of (page_rows (service (list_url plain_load)))) ->
  isLoadingMore (page w) = false ->
  map commandId (results (page (browse k w))) = set_of (ids_of (concat (take (S k) ps)))
  /\ (length ps <= S k -> load_more (page (browse k w)) = None).
Proof.
  intros Hps Hnd Hm. apply (turns_show plain_load ps []); [done|]. split; [|done].
  rewrite set_of_id by done. apply map_map.
Qed.
End Browsing.

(** [C28] The page of results, in every interleaving of polls, loads, details
    and clicks in which the service answers a request for a detail with that
    command: the rows shown are those of the list, each replaced by its
    detail at most, the latest first; the filters leave exactly the rows
    that match, all of them when there is none; and the values they offer
    are those of the rows, each once, in order.  When the list is refreshed
    and the button below it is pressed [k] times, each time after the answer
    before it and with nothing else answered meanwhile, the rows shown are
    those of the first [k + 1] pages of the service, reached by the cursors
    it gives, each command once (if the first page has none twice); once all
    pages are there the button is gone. *)
Theorem results_listing (es : list Event) (w : Run) :
  reaches es w -> List.Forall answers_asked es ->
  let s := page w in
  map commandId (rows s) ≡ₚ map commandId (results s)
  /\ in_order (latest (queued_instant date_parse)) (rows s)
  /\ (forall row, row ∈ filtered date_parse s <->
        row ∈ rows s /\ matches (filters s) (toLowerCase (trim (search s))) row = true)
  /\ (filters s = no_filters -> trim (search s) = "" -> filtered date_parse s = rows s)
  /\ (forall f, NoDup (sorted_values date_parse f s) /\ in_order String.ltb (sorted_values date_parse f s)
        /\ forall v, v ∈ sorted_values date_parse f s <-> exists row, v = f row /\ row ∈ rows s)
  /\ forall service ps k,
       pages service plain_load ps -> NoDup (ids_of (page_rows (service (list_url plain_load)))) -> isLoadingMore s = false ->
       let w' := browse service k w in
       (exists es', reaches (es ++ es') w')
       /\ map commandId (rows (page w')) ≡ₚ set_of (ids_of (concat (take (S k) ps)))
       /\ (length ps <= S k -> load_more (page w') = None).
Proof.
  intros Hw Hes s. destruct (reaches_run_ok _ _ Hw Hes) as [Hok _]. split_and!.
  - by apply rows_ids.
  - apply stable_sort_latest.
  - intros row. unfold filtered. rewrite !list_elem_of_In. apply filter_In.
  - intros Hf Hq. unfold filtered. rewrite Hf, Hq. by apply filter_all.
  - intros f. destruct (sorted_set (map f (rows s))) as (Hn & Ho & Hin). split_and!; [done|done|].
    intros v. unfold sorted_values. rewrite Hin. apply list_elem_of_fmap.
  - intros service ps k Hps Hnd Hm w'. destruct (browse_reaches service k es w Hw) as (es' & Hr & Hes').
    destruct (browse_shows service ps k w Hps Hnd Hm) as [Hids Hend]. fold w' in Hr, Hids, Hend.
    split_and!; [by exists es'| |done]. rewrite rows_ids, Hids; [done|].
    apply (reaches_run_ok _ _ Hr). by apply List.Forall_app.
Qed.
End RunLaws.

(** ** Examples *)

Module ResultsDemo.

Definition never (_ : string) : option Z := None.
Definition no_url (_ : string) : option string := None.
Definition row_of (x st : string) : CommandListRowApi :=
  {| command_id := Some x; device_id := None; device_name := None; method := None; params := None; state := Some st;
     execution_state := None; queued_at := None; dispatched_at := None; completed_at := None; trace_id := None;
     result := JUndef; result_status := None; result_notes := None; artifact_url := None; artifact_checksum := None;
     error_code := None; error_message := None; reason := None; actor_email := None; origin_channel := None;
     origin_session_id := None; origin_mobile_device_id := None |}.
Definition answer (l : list CommandListRowApi) (cursor : string) : Reply CommandsApiResponse :=
  Replied 200 (Some {| p_commands := Some l; next_before := Some cursor |}).
Definition ids (s : State) : list string := map commandId (results s).

Definition loaded : Run :=
  finished 0 (update (fun s => list_end no_url plain_load (answer [row_of "c-4" "queued"; row_of "c-3" "queued"] "k1") s) start).

Lemma results_reached : reaches never no_url [ListAnswered 0 (answer [row_of "c-4" "queued"; row_of "c-3" "queued"] "k1")] loaded.
Proof. apply (reaches_step _ _ [] _ start); [constructor|]. apply (step_list _ _ 0 plain_load false). left. Qed.

(** Two pages, the second asked for with the cursor of the first. *)
Definition two_pages (url : string) : CommandsApiResponse :=
  if url === "/api/commands?limit=50&before=k1"
  then {| p_commands := Some [row_of "c-2" "queued"; row_of "c-1" "queued"]; next_before := None |}
  else {| p_commands := Some [row_of "c-4" "queued"; row_of "c-3" "queued"]; next_before := Some "k1" |}.

Lemma results_listing_witness :
  map commandId (rows never (page (browse no_url two_pages 1 loaded))) ≡ₚ ["c-4"; "c-3"; "c-2"; "c-1"]
  /\ load_more (page (browse no_url two_pages 1 loaded)) = None.
Proof.
  destruct (results_listing never no_url _ loaded results_reached) as (_ & _ & _ & _ & _ & H).
  - repeat constructor.
  - destruct (H two_pages [page_rows (two_pages "/api/commands?limit=50"); page_rows (two_pages "/api/commands?limit=50&before=k1")] 1)
      as (_ & Hrows & Hend).
    + apply (further_page two_pages plain_load "k1"); [reflexivity|discriminate|]. apply (last_page two_pages (more_from "k1")). reflexivity.
    + refine (bool_decide_unpack (NoDup _) _). vm_compute. exact I.
    + reflexivity.
    + split; [exact Hrows|apply Hend; vm_compute; lia].
Defined.

Definition second : State := list_end no_url (more_from "k1") (answer [row_of "c-2" "queued"; row_of "c-1" "queued"] "k2") (page loaded).

(** A poll takes the pages away that were loaded since. *)
Lemma poll_drops_pages :
  ids second = ["c-4"; "c-3"; "c-2"; "c-1"]
  /\ ids (list_end no_url poll_load (answer [row_of "c-4" "queued"; row_of "c-3" "queued"] "k1") second) = ["c-4"; "c-3"].
Proof. vm_compute. done. Qed.

(** A further page that arrives after a poll leaves a gap before it. *)
Lemma gap_after_poll :
  let polled := list_end no_url poll_load (answer [row_of "c-4" "queued"; row_of "c-3" "queued"] "k1") second in
  let s := list_end no_url (more_from "k2") (answer [row_of "c-0" "queued"] "k3") polled in
  ids s = ["c-4"; "c-3"; "c-0"] /\ nextBefore s = Some "k3".
Proof. vm_compute. done. Qed.

(** A row whose detail was loaded shows the state of then, also when the list
    has a newer one, and is not asked for again. *)
Lemma detail_goes_stale :
  let s := (detail_end no_url "c-3" (results (page loaded)) (Replied 200 (Some (row_of "c-3" "executing"))) (page loaded)).1 in
  let s := list_end no_url poll_load (answer [row_of "c-3" "completed"] "k1") s in
  map nState (results s) = [completed] /\ map nState (rows never s) = [executing] /\ detail_wanted "c-3" s = false.
Proof. vm_compute. done. Qed.

End ResultsDemo.
