(* ===== verification/AuditPages.v ===== *)
(** * The pages of the audit trail and of compliance

    src/app/audit/components/AuditContent.tsx and
    src/app/compliance/components/ComplianceContent.tsx.  Both load like the
    pages of [Loader], but a load that was overtaken returns at once,
    without clearing the flag of its mode; the first load alone is
    [initial].  [quiet_end] is that protocol, [quiet_step] its runs.
    [date_parse] and [local] are the parameters of Module DateTime, [locale]
    the order of localeCompare. *)

From S2P Require Import Prelude JsNumber JsRounding JsString JsValue Http Session Commands RenderModel RenderLaws Client Devices AuditTrail Tables Loader.
Import DateTime.
Import Rows(AuditEntry, Build_AuditEntry, audit_id, audit_timestamp, actor, actorRole, eventType, action, target, detail,
  outcome, Outcome, success, failure, pending).

(** ** Loads that return early *)

(** What a load that was not overtaken ends with: whether it came to the
    lines that clear its flag. *)
Class Ending (Answer : Type) := ends : Answer -> bool.

Section Quiet.
Context {Data Answer Act : Type} {P : Page Data Answer Act} {E : Ending Answer}.

Definition quiet_end (i : nat) (mode : Mode) (a : Answer) (s : Loader Data) : Loader Data :=
  let left := List.filter (fun r => negb (Nat.eqb i r.1)) (running s) in
  let overtaken := bool_decide (i ∈ aborted s) || negb (mounted s) in
  let clears := negb overtaken && ends a in
  {| shown := if overtaken then shown s else settle mode a (shown s);
     isLoading := match mode with initial => isLoading s && negb clears | _ => isLoading s end;
     isRefreshing := match mode with refresh => isRefreshing s && negb clears | _ => isRefreshing s end;
     abortRef := abortRef s; aborted := aborted s; running := left; started := started s; mounted := mounted s |}.

Inductive quiet_step : Loader Data -> Event -> Loader Data -> Prop :=
| quiet_start s : mounted s = true -> quiet_step s (Start refresh) (load_start refresh s)
| quiet_ended i mode a s : (i, mode) ∈ running s -> quiet_step s (End i a) (quiet_end i mode a s)
| quiet_click (x : Act) s : mounted s = true -> quiet_step s (Click x) (page_act x s)
| quiet_unmount s : mounted s = true -> quiet_step s Unmount (unmount s).

Inductive quiet_reaches (d : Data) : list (Event (Answer := Answer) (Act := Act)) -> Loader Data -> Prop :=
| quiet_init : quiet_reaches d [Start initial] (load_start initial (loader_init d))
| quiet_more es e s s' : quiet_reaches d es s -> quiet_step s e s' -> quiet_reaches d (es ++ [e]) s'.
End Quiet.

(** ** Audit entries *)

Record AuditEventRow := {
  ev_id : option string;
  ev_timestamp : option string;
  ev_actor : option string;
  ev_actor_role : option string;
  ev_type : option string;
  ev_action : option string;
  ev_target : option string;
  ev_detail : option string;
  ev_outcome : option string;
}.

Definition normalizeEventType (value : option string) : string :=
  let normalized := toLowerCase (trim (value ?? "")) in
  if has ["user_action"; "command_execution"; "policy_change"] normalized then normalized else "system_event".

Definition normalizeOutcome (value : option string) : Outcome :=
  let normalized := toLowerCase (trim (value ?? "")) in
  if normalized === "success" then success else if normalized === "failure" then failure else pending.

Definition labelRole (value : option string) : string :=
  let normalized := toLowerCase (trim (value ?? "")) in
  if negb (truthy_str normalized) then "System"
  else if normalized === "admin" then "Admin"
  else if normalized === "viewer" then "Viewer"
  else if normalized === "operator" then "Operator"
  else if normalized === "system" then "System"
  else toUpperCase (stake 1 normalized) +:+ sdrop 1 normalized.

(** [[timestamp, action, target, index].filter(Boolean).join('|')] *)
Definition row_words (row : AuditEventRow) (index : nat) : string :=
  let some o := match o with Some s => if truthy_str s then [s] else [] | None => [] end in
  join "|" (some (ev_timestamp row) ++ some (ev_action row) ++ some (ev_target row)
            ++ match index with O => [] | _ => [Num.digits (Z.of_nat index)] end).

Definition row_key (prefix : string) (index : nat) (row : AuditEventRow) : string :=
  match ev_id row with
  | Some x => x
  | None => let words := row_words row index in
            if truthy_str words then words else prefix +:+ Num.digits (Z.of_nat index)
  end.

Section Zone.
Context (date_parse : string -> option Z) (local : Z -> LocalTime) (locale : string -> string -> bool).

(** The entry of a row; the pages differ in two texts. *)
Definition entry_of (prefix no_target : string) (index : nat) (row : AuditEventRow) : AuditEntry :=
  {| audit_id := row_key prefix index row;
     audit_timestamp := formatLocalDateTime date_parse local (ev_timestamp row) "-";
     actor := ev_actor row ?? "system"; actorRole := labelRole (ev_actor_role row);
     eventType := normalizeEventType (ev_type row); action := ev_action row ?? "EVENT";
     target := ev_target row ?? no_target; detail := ev_detail row ?? ""; outcome := normalizeOutcome (ev_outcome row) |}.

(** ** The page of the audit trail *)

Record SummaryApi := {
  total_events : option num;
  success_count : option num;
  failure_count : option num;
  active_actors : option num;
}.
Record AuditEventsResponse := { events : option (list AuditEventRow); api_summary : option SummaryApi }.

Record AuditSummary := { total : num; successes : num; failures : num; activeActors : num }.

Definition no_summary : AuditSummary :=
  {| total := Num.zero; successes := Num.zero; failures := Num.zero; activeActors := Num.zero |}.

Definition mapped_entries (p : AuditEventsResponse) : list AuditEntry := imap (entry_of "audit-" "") (events p ?? []).

(** A figure of the service, or the one of the list. *)
Definition figure (f : SummaryApi -> option num) (p : AuditEventsResponse) (own : nat) : num :=
  (api_summary p ≫= f) ?? Num.of_nat own.

Definition count_outcome (o : string) (l : list AuditEntry) : nat :=
  length (List.filter (fun e => AuditTrail.outcome_str (outcome e) === o) l).

Definition summary_of (p : AuditEventsResponse) : AuditSummary :=
  let mapped := mapped_entries p in
  {| total := figure total_events p (length mapped);
     successes := figure success_count p (count_outcome "success" mapped);
     failures := figure failure_count p (count_outcome "failure" mapped);
     activeActors := figure active_actors p (length (set_of (map actor mapped))) |}.

Inductive SortKey := by_timestamp | by_actor | by_action | by_outcome.

#[export] Instance audit_key_eq_dec : EqDecision SortKey.
Proof. solve_decision. Defined.

(** 'all' is [None]. *)
Record AuditData := {
  entries : list AuditEntry;
  summary : AuditSummary;
  search : string;
  typeFilter : option string;
  outcomeFilter : option string;
  sortKey : SortKey;
  sortDir : SortDir;
}.

#[export] Instance eta_audit : Eta AuditData := fun d =>
  {| entries := entries d; summary := summary d; search := search d; typeFilter := typeFilter d;
     outcomeFilter := outcomeFilter d; sortKey := sortKey d; sortDir := sortDir d |}.

Definition audit_init : AuditData :=
  {| entries := []; summary := no_summary; search := ""; typeFilter := None; outcomeFilter := None;
     sortKey := by_timestamp; sortDir := desc |}.

(** [loadAudit] after its response. *)
Definition audit_settle (mode : Mode) (r : Reply AuditEventsResponse) (s : Shown AuditData) : Shown AuditData :=
  match payload_of r with
  | Some p => {| data := (data s) <| entries := mapped_entries p |> <| summary := summary_of p |>; error := None |}
  | None =>
      {| data := match mode with initial => (data s) <| entries := [] |> <| summary := no_summary |> | _ => data s end;
         error := Some "Failed to load data" |}
  end.

Definition audit_matches (d : AuditData) (e : AuditEntry) : bool :=
  let searchValue := toLowerCase (trim (search d)) in
  is_all_or (typeFilter d) (eventType e) && is_all_or (outcomeFilter d) (AuditTrail.outcome_str (outcome e))
  && (negb (truthy_str searchValue) || includes (toLowerCase (actor e)) searchValue
      || includes (toLowerCase (action e)) searchValue || includes (toLowerCase (target e)) searchValue
      || includes (toLowerCase (detail e)) searchValue).

Definition column_before (key : SortKey) (a b : AuditEntry) : bool :=
  match key with
  | by_timestamp => (parseLocalDateTime date_parse (audit_timestamp a) - parseLocalDateTime date_parse (audit_timestamp b) <? 0)%Z
  | by_actor => locale (actor a) (actor b)
  | by_action => locale (action a) (action b)
  | by_outcome => locale (AuditTrail.outcome_str (outcome a)) (AuditTrail.outcome_str (outcome b))
  end.

Definition audit_rows (d : AuditData) : list AuditEntry :=
  sorted_by (sortDir d) (column_before (sortKey d)) (List.filter (audit_matches d) (entries d)).

Definition toggleSort (key : SortKey) (d : AuditData) : AuditData :=
  if bool_decide (sortKey d = key) then d <| sortDir := flip (sortDir d) |>
  else d <| sortKey := key |> <| sortDir := desc |>.

Inductive AuditAct := SetSearch (v : string) | SetType (v : option string) | SetOutcome (v : option string) | Sort (key : SortKey).

Definition audit_act (x : AuditAct) (d : AuditData) : AuditData :=
  match x with
  | SetSearch v => d <| search := v |>
  | SetType v => d <| typeFilter := v |>
  | SetOutcome v => d <| outcomeFilter := v |>
  | Sort key => toggleSort key d
  end.

#[export] Instance audit_page : Page AuditData (Reply AuditEventsResponse) AuditAct :=
  {| settle := audit_settle; overtaken := fun _ s => s; act := audit_act |}.
#[export] Instance audit_page_quiet : QuietAbort AuditData (Reply AuditEventsResponse) AuditAct.
Proof. by intros r s. Qed.
#[export] Instance audit_ending : Ending (Reply AuditEventsResponse) := fun _ => true.

(** The address of the export: what the filters show. *)
Definition audit_export_url (d : AuditData) : string :=
  let q := trim (search d) in
  let params := [("format", "csv")] ++ (if q !== "" then [("q", q)] else [])
    ++ match typeFilter d with Some t => [("type", t)] | None => [] end
    ++ match outcomeFilter d with Some o => [("outcome", o)] | None => [] end in
  "/api/audit/events/export?" +:+ join "&" (map (fun kv => form_encode kv.1 +:+ "=" +:+ form_encode kv.2) params).
End Zone.

(** ** The page of compliance *)

Inductive ComplianceStatus := compliant | non_compliant | drift | pending_check.
Inductive ComplianceSeverity := critical | warning | info.

#[export] Instance ComplianceStatus_eq_dec : EqDecision ComplianceStatus.
Proof. solve_decision. Defined.

Record ComplianceCheckRow := {
  check_id : string;
  check_category : string;
  check_control : string;
  check_description : string;
  check_status : ComplianceStatus;
  affectedDevices : num;
  lastChecked : string;
  check_severity : ComplianceSeverity;
}.

Record ComplianceSummary := {
  n_compliant : num;
  n_nonCompliant : num;
  n_drift : num;
  n_pending : num;
  n_total : num;
  score : num;
}.

Record ApiCheck := {
  api_check_id : option string;
  api_category : option string;
  api_control : option string;
  api_description : option string;
  api_check_status : option string;
  api_affected : option num;
  api_last_checked : option string;
  api_check_severity : option string;
}.
Record ApiFigures := {
  a_compliant : option num;
  a_non_compliant : option num;
  a_drift : option num;
  a_pending : option num;
  a_total : option num;
  a_score : option num;
}.
Record ComplianceOverviewResponse := {
  last_scan_at : option string;
  figures : option ApiFigures;
  api_checks : option (list ApiCheck);
}.

Definition baseCategories : list string :=
  ["All"; "Attestation"; "Policy Sync"; "Kernel Guard"; "Agent Version"; "Encryption"; "Command Auth"; "Heartbeat";
   "Quarantine"].

Definition normalizeComplianceStatus (value : option string) : ComplianceStatus :=
  let normalized := toLowerCase (trim (value ?? "")) in
  if normalized === "compliant" then compliant
  else if normalized === "drift" then drift
  else if normalized === "non_compliant" then non_compliant
  else pending_check.

Definition normalizeComplianceSeverity (value : option string) : ComplianceSeverity :=
  let normalized := toLowerCase (trim (value ?? "")) in
  if normalized === "critical" then critical else if normalized === "warning" then warning else info.

Definition EMPTY_SUMMARY : ComplianceSummary :=
  {| n_compliant := Num.zero; n_nonCompliant := Num.zero; n_drift := Num.zero; n_pending := Num.zero;
     n_total := Num.zero; score := Num.zero |}.

Definition status_count (st : ComplianceStatus) (l : list ComplianceCheckRow) : nat :=
  length (List.filter (fun c => bool_decide (check_status c = st)) l).

Section ComplianceZone.
Context (date_parse : string -> option Z) (local : Z -> LocalTime).

Definition check_row (c : ApiCheck) : ComplianceCheckRow :=
  {| check_id := api_check_id c ?? "unknown"; check_category := api_category c ?? "Unknown";
     check_control := api_control c ?? "UNKNOWN"; check_description := api_description c ?? "No description";
     check_status := normalizeComplianceStatus (api_check_status c); affectedDevices := api_affected c ?? Num.zero;
     lastChecked := formatLocalTime date_parse local (api_last_checked c) "--:--:--";
     check_severity := normalizeComplianceSeverity (api_check_severity c) |}.

Definition nextChecks (p : ComplianceOverviewResponse) : list ComplianceCheckRow := map check_row (api_checks p ?? []).

Definition compliance_summary (p : ComplianceOverviewResponse) : ComplianceSummary :=
  let checks := nextChecks p in
  let given (f : ApiFigures -> option num) (own : num) := (figures p ≫= f) ?? own in
  let n_compliant := given a_compliant (Num.of_nat (status_count compliant checks)) in
  let n_total := given a_total (Num.of_nat (length checks)) in
  {| n_compliant := n_compliant;
     n_nonCompliant := given a_non_compliant (Num.of_nat (status_count non_compliant checks));
     n_drift := given a_drift (Num.of_nat (status_count drift checks));
     n_pending := given a_pending (Num.of_nat (status_count pending_check checks));
     n_total := n_total;
     score := given a_score (if Num.gt n_total Num.zero then percentage n_compliant n_total else Num.zero) |}.

Record ComplianceData := {
  checks : list ComplianceCheckRow;
  complianceSummary : ComplianceSummary;
  lastScanAt : option string;
  auditEntries : list AuditEntry;
  auditError : option string;
  categoryFilter : string;
  statusFilter : option ComplianceStatus;
}.

#[export] Instance eta_compliance : Eta ComplianceData := fun d =>
  {| checks := checks d; complianceSummary := complianceSummary d; lastScanAt := lastScanAt d;
     auditEntries := auditEntries d; auditError := auditError d; categoryFilter := categoryFilter d;
     statusFilter := statusFilter d |}.

Definition compliance_init : ComplianceData :=
  {| checks := []; complianceSummary := EMPTY_SUMMARY; lastScanAt := None; auditEntries := []; auditError := None;
     categoryFilter := "All"; statusFilter := None |}.

Record ComplianceAnswers := {
  overviewRes : Reply ComplianceOverviewResponse;
  auditRes : Reply (option (list AuditEventRow));
}.

(** [loadCompliance] after its two responses, the second part only if the
    first could be read.  The code waits for the two bodies one after the
    other and looks at its controller before the first only.  A body that
    was not complete when a later load began is one that cannot be read (its
    json() rejects), and this load is one that ended, with such a body,
    before that load began.  All else that can happen between the two parts
    is a click, and a click commutes with each of them
    ([AuditPagesLaws.click_between_parts]); so the parts are one step here. *)
Definition take_overview (p : ComplianceOverviewResponse) (s : Shown ComplianceData) : Shown ComplianceData :=
  {| data := (data s) <| checks := nextChecks p |> <| complianceSummary := compliance_summary p |>
                      <| lastScanAt := last_scan_at p |>;
     error := None |}.
Definition no_overview (mode : Mode) (s : Shown ComplianceData) : Shown ComplianceData :=
  {| data := match mode with
             | initial => (data s) <| checks := [] |> <| complianceSummary := EMPTY_SUMMARY |> <| lastScanAt := None |>
             | _ => data s
             end;
     error := Some "Failed to load data" |}.
Definition take_audit (l : option (list AuditEventRow)) (s : Shown ComplianceData) : Shown ComplianceData :=
  {| data := (data s) <| auditEntries := imap (entry_of date_parse local "cmp-audit-" "fleet") (l ?? []) |>
                      <| auditError := None |>;
     error := error s |}.
Definition no_audit (mode : Mode) (s : Shown ComplianceData) : Shown ComplianceData :=
  let d := (data s) <| auditError := Some "Failed to load data" |> in
  {| data := match mode with initial => d <| auditEntries := [] |> | _ => d end; error := error s |}.

Definition compliance_parts (mode : Mode) (a : ComplianceAnswers) : list (Part (Shown ComplianceData)) :=
  [part (overviewRes a) take_overview (no_overview mode); part (auditRes a) take_audit (no_audit mode)].

Definition compliance_settle (mode : Mode) (a : ComplianceAnswers) (s : Shown ComplianceData) : Shown ComplianceData :=
  (parts (compliance_parts mode a) s).1.

Inductive ComplianceAct := SetCategory (c : string) | ToggleStatus (st : ComplianceStatus).

(** The figures of the three states are buttons that filter by them. *)
Definition compliance_act (x : ComplianceAct) (d : ComplianceData) : ComplianceData :=
  match x with
  | SetCategory c => d <| categoryFilter := c |>
  | ToggleStatus st => d <| statusFilter := if bool_decide (statusFilter d = Some st) then None else Some st |>
  end.

#[export] Instance compliance_page : Page ComplianceData ComplianceAnswers ComplianceAct :=
  {| settle := compliance_settle; overtaken := fun _ s => s; act := compliance_act |}.
#[export] Instance compliance_page_quiet : QuietAbort ComplianceData ComplianceAnswers ComplianceAct.
Proof. by intros r s. Qed.
#[export] Instance compliance_ending : Ending ComplianceAnswers :=
  fun a => body_read (overviewRes a) && body_read (auditRes a).

Definition compliance_rows (d : ComplianceData) : list ComplianceCheckRow :=
  List.filter (fun c =>
    ((categoryFilter d === "All") || (check_category c === categoryFilter d))
    && match statusFilter d with None => true | Some st => bool_decide (check_status c = st) end) (checks d).

Definition categories (d : ComplianceData) : list string := set_of (baseCategories ++ map check_category (checks d)).

(** [formatUtcClock]; [utc] reads the fields of a time in UTC. *)
Definition formatUtcClock (utc : Z -> LocalTime) (value : option string) : string :=
  match value with
  | Some v => if truthy_str v then match date_parse v with Some t => clock (utc t) | None => "--:--:--" end else "--:--:--"
  | None => "--:--:--"
  end.
End ComplianceZone.

Definition compliance_export_url (format from to : string) (fields : list string) : string :=
  let some k v := if truthy_str v then [(k, v)] else [] in
  let params := [("format", format)] ++ some "from" from ++ some "to" to
    ++ match fields with [] => [] | _ => [("fields", join "," fields)] end in
  "/api/compliance/export?" +:+ join "&" (map (fun kv => form_encode kv.1 +:+ "=" +:+ form_encode kv.2) params).
