(* ===== verification/AuditPagesLaws.v ===== *)
(** * What the pages of the audit trail and of compliance guarantee

    Only the newest load counts, and the page stops loading exactly when its
    first load was answered before another began; tables and figures agree
    with the answers. *)

From S2P Require Import Prelude JsNumber JsInteger JsRounding JsString JsValue Http Session Commands RenderModel RenderLaws Client Devices AuditTrail Tables Loader AuditPages.
Import DateTime.
Import Rows(AuditEntry, audit_id, audit_timestamp, actor, actorRole, eventType, action, target, detail, outcome,
  Outcome, success, failure, pending).

(** ** Loads that return early *)

Section Quiet.
Context {Data Answer Act : Type} {P : Page Data Answer Act} {E : Ending Answer} {Q : QuietAbort Data Answer Act}.

Implicit Types (s : Loader Data) (v : View (Data := Data)) (es : list (Event (Answer := Answer) (Act := Act))).

(** How the first load fared: not yet, or whether it cleared the flag. *)
Definition first_step (phase : option bool) (e : Event (Answer := Answer) (Act := Act)) : option bool :=
  match phase, e with
  | None, Start _ | None, Unmount => Some false
  | None, End i a => if Nat.eqb i 0 then Some (ends a) else None
  | _, _ => phase
  end.
Definition first_load es : option bool := fold_left first_step (tail es) None.

Record tracks s v : Prop := {
  tracks_loads : started s = loads v;
  tracks_open : mounted s = open v;
  tracks_current : abortRef s = match loads v with O => None | S i => Some i end;
  tracks_aborted i : i ∈ aborted s -> (i < loads v)%nat;
  tracks_running i mode : (i, mode) ∈ running s ->
    (i < loads v)%nat /\ (S i = loads v -> mode = newest v)
    /\ (i ∈ aborted s <-> S i <> loads v \/ open v = false);
  tracks_shown : shown s = on_show v;
}.

Lemma tracks_abort s v i :
  tracks s v -> (i < loads v)%nat -> (i ∈ aborted s <-> S i <> loads v \/ open v = false) -> i ∈ abort_current s.
Proof.
  intros Hs Hlt Hab. unfold abort_current. rewrite (tracks_current _ _ Hs).
  destruct (loads v) as [|n]; [lia|]. destruct (decide (i = n)) as [->|Hne]; [left|right].
  apply Hab. left. lia.
Qed.

Lemma tracks_abort_lt s v i : tracks s v -> i ∈ abort_current s -> (i < loads v)%nat.
Proof.
  intros Hs. unfold abort_current. rewrite (tracks_current _ _ Hs). pose proof (tracks_aborted _ _ Hs i).
  destruct (loads v) as [|n]; [done|]. intros [->|Hin]%elem_of_cons; [lia|auto].
Qed.

Lemma tracks_start mode s v :
  mounted s = true -> tracks s v -> tracks (load_start mode s) (view_step v (Start mode)).
Proof.
  intros Hm Hs. pose proof (tracks_loads _ _ Hs) as Hl. pose proof (tracks_open _ _ Hs) as Ho. rewrite Hm in Ho.
  constructor; cbn [load_start view_step started loads mounted open abortRef aborted running newest shown on_show];
    rewrite ?Hl; try done; [congruence|..].
  - intros i Hi%(tracks_abort_lt s v); [lia|done].
  - intros i md [[= -> ->]|Hin]%elem_of_cons.
    + split_and!; [lia|done|]. split; [|intros [|]; congruence]. intros Hi%(tracks_abort_lt s v); [lia|done].
    + destruct (tracks_running _ _ Hs i md Hin) as (Hlt & _ & Hab). split_and!; [lia|lia|].
      split; [intros _; left; lia|]. intros _. by eapply tracks_abort.
  - apply Hs.
Qed.

Lemma tracks_end i mode a s v :
  (i, mode) ∈ running s -> tracks s v -> tracks (quiet_end i mode a s) (view_step v (End i a)).
Proof.
  intros Hin Hs. destruct (tracks_running _ _ Hs i mode Hin) as (Hlt & Hmode & Hab).
  constructor; cbn [view_step loads newest open on_show]; try apply Hs; cbn [quiet_end running shown].
  - intros j md [Hj _]%elem_of_ended. by apply Hs.
  - rewrite (tracks_shown _ _ Hs), (tracks_open _ _ Hs).
    destruct (open v) eqn:Eopen; cbn [negb]; rewrite ?orb_true_r; [|done].
    rewrite orb_false_r. destruct (Nat.eqb_spec (S i) (loads v)) as [En|En].
    + rewrite bool_decide_eq_false_2; [cbn; by rewrite (Hmode En)|]. intros [|]%Hab; congruence.
    + rewrite bool_decide_eq_true_2, quiet_abort; [done|]. apply Hab. by left.
Qed.

Lemma tracks_unmount s v : mounted s = true -> tracks s v -> tracks (unmount s) (view_step v Unmount).
Proof.
  intros Hm Hs. constructor; try apply Hs; cbn [unmount view_step mounted open aborted loads running newest]; [done|..].
  - intros i. by apply tracks_abort_lt.
  - intros i md Hin. destruct (tracks_running _ _ Hs i md Hin) as (Hlt & Hmd & Hab).
    split_and!; [done..|]. split; [by right|]. intros _. by eapply tracks_abort.
Qed.

(** The flag follows the first load, which alone can clear it. *)
Record flag_follows (phase : option bool) s v : Prop := {
  flag_value : isLoading s = negb (default false phase);
  flag_only i : (i, initial) ∈ running s -> i = 0%nat;
  flag_waiting : phase = None -> loads v = 1%nat /\ open v = true /\ forall i mode, (i, mode) ∈ running s -> mode = initial;
  flag_over : phase <> None -> (0, initial) ∉ running s \/ 0%nat ∈ aborted s \/ mounted s = false;
}.

Lemma flag_step phase s v e s' :
  tracks s v -> quiet_step s e s' -> flag_follows phase s v -> flag_follows (first_step phase e) s' (view_step v e).
Proof.
  intros Ht Hstep [Hval Honly Hwait Hover].
  destruct Hstep as [s Hm|i mode a s Hin|x s Hm|s Hm].
  - constructor; cbn [load_start isLoading running aborted mounted view_step loads open].
    + rewrite Hval. by destruct phase as [[]|].
    + intros i [[=]|Hi]%elem_of_cons. auto.
    + by destruct phase.
    + intros _. destruct phase as [b|].
      * destruct Hover as [H|[H|H]]; [done| |right; left|right; right; done].
        { left. by intros [[=]|H']%elem_of_cons. }
        { unfold abort_current. rewrite (tracks_current _ _ Ht). destruct (loads v); [done|by right]. }
      * destruct (Hwait eq_refl) as (Hl & _ & _). right. left. unfold abort_current.
        rewrite (tracks_current _ _ Ht), Hl. left.
  - destruct (tracks_running _ _ Ht i mode Hin) as (Hlt & _ & Hab).
    assert (forall j md, (j, md) ∈ running (quiet_end i mode a s) -> (j, md) ∈ running s) as Hsub
      by (intros j md [H _]%elem_of_ended; done).
    destruct phase as [b|].
    + cbn [first_step]. constructor; [| |done|]; cbn [quiet_end isLoading running aborted mounted].
      * rewrite Hval. destruct mode; try done. cbn. assert (i = 0%nat) as -> by auto.
        destruct Hover as [H|[H|H]]; [done|done|..]; rewrite ?H, ?bool_decide_eq_true_2 by done;
          rewrite ?orb_true_r; cbn; by rewrite andb_true_r.
      * intros j [H _]%elem_of_ended. auto.
      * intros _. destruct Hover as [H|[H|H]]; [done| |by right; left|by right; right].
        left. intros [H' _]%elem_of_ended. done.
    + destruct (Hwait eq_refl) as (Hl & Hopen & Hmodes). assert (i = 0%nat) as -> by lia.
      assert (mode = initial) as -> by eauto. cbn [first_step Nat.eqb].
      constructor; [| |done|]; cbn [quiet_end isLoading running aborted mounted].
      * rewrite Hval, (tracks_open _ _ Ht), Hopen, bool_decide_eq_false_2; [cbn; done|].
        intros [|]%Hab; congruence.
      * intros j [H _]%elem_of_ended. auto.
      * intros _. left. by intros [_ []]%elem_of_ended.
  - constructor; cbn [page_act isLoading running aborted mounted view_step loads open]; destruct phase; auto.
  - constructor; cbn [unmount isLoading running aborted mounted view_step loads open].
    + rewrite Hval. by destruct phase as [[]|].
    + auto.
    + by destruct phase.
    + intros _. by right; right.
Qed.

Lemma quiet_nonempty d s : ~ quiet_reaches d [] s.
Proof. inversion 1 as [|es e s0 s' _ _ Happ]. by apply app_eq_nil in Happ as [_ [=]]. Qed.

Lemma quiet_tracks d es s :
  quiet_reaches d es s -> tracks s (view d es) /\ flag_follows (first_load es) s (view d es).
Proof.
  induction 1 as [|es e s s' Hr [IHt IHf] Hstep].
  - split; constructor; cbn; try done.
    + by intros i ?%elem_of_nil.
    + intros i md [= -> ->]%list_elem_of_singleton. split_and!; [lia|done|].
      split; [by intros ?%elem_of_nil|by intros [|]].
    + by intros i [= ->]%list_elem_of_singleton.
    + intros _. split_and!; [done|done|]. by intros i mode [= _ ->]%list_elem_of_singleton.
  - rewrite view_snoc. split.
    + destruct Hstep; auto using tracks_start, tracks_end, tracks_unmount.
      constructor; try apply IHt. cbn [page_act view_step shown on_show]. by rewrite (tracks_shown _ _ IHt).
    + assert (first_load (es ++ [e]) = first_step (first_load es) e) as ->.
      { unfold first_load. destruct es as [|e0 es]; [by apply quiet_nonempty in Hr|]. cbn. by rewrite fold_left_app. }
      by eapply flag_step.
Qed.

(** What such a page shows, and when it stops loading. *)
Lemma quiet_shows_newest d es s :
  quiet_reaches d es s -> shown s = on_show (view d es) /\ isLoading s = negb (default false (first_load es)).
Proof. intros [Ht Hf]%quiet_tracks. split; [apply Ht|apply Hf]. Qed.
End Quiet.

(** ** The audit trail *)

Section Audit.
Context (date_parse : string -> option Z) (local : Z -> LocalTime) (locale : string -> string -> bool).
Context (locale_asym : forall a b, locale a b = true -> locale b a = false).
Context (locale_negtrans : forall a b c, locale a b = false -> locale b c = false -> locale a c = false).

Lemma audit_order dir key l :
  in_order (directed dir (column_before date_parse locale key)) (sorted_by dir (column_before date_parse locale key) l).
Proof.
  apply sorted_by_order; destruct key; cbn; eauto; intros *; rewrite ?Z.ltb_lt, ?Z.ltb_ge; lia.
Qed.

(** The four types the table has a label for. *)
Definition event_types : list string := ["user_action"; "command_execution"; "policy_change"; "system_event"].

Lemma event_type_known v : normalizeEventType v ∈ event_types.
Proof.
  unfold normalizeEventType. destruct (has _ _) eqn:E; [|apply list_elem_of_In; cbn; tauto].
  apply has_true, list_elem_of_In in E. apply list_elem_of_In. cbn in *. tauto.
Qed.

(** Every entry has one outcome. *)
Lemma outcomes_partition l :
  (count_outcome "success" l + count_outcome "failure" l + count_outcome "pending" l = length l)%nat.
Proof.
  unfold count_outcome. induction l as [|e l IH]; [done|]. cbn [List.filter length].
  destruct (outcome e); cbn [AuditTrail.outcome_str String.eqb Ascii.eqb Bool.eqb length]; lia.
Qed.

Lemma count_le o l : (count_outcome o l <= length l)%nat.
Proof. unfold count_outcome. apply filter_length_le. Qed.

(** The page of the audit trail, however its loads overlap: what it
    shows is what the newest loads and the clicks make of it, and it stops
    saying that it loads exactly when its first load was answered before any
    other began.  The table has every entry that matches the filters and no
    other, in the order of the column chosen; entries are one for each event
    of the answer, with a known type.  When the service gives no figures,
    they are those of the list: every entry is a success, a failure or
    pending. *)
Theorem audit_page_sound (es : list Event) (s : Loader AuditData) :
  quiet_reaches (P := audit_page date_parse local) audit_init es s ->
  let d := data (shown s) in
  shown s = on_show (view (P := audit_page date_parse local) audit_init es)
  /\ isLoading s = negb (default false (first_load es))
  /\ audit_rows date_parse locale d ≡ₚ List.filter (audit_matches d) (entries d)
  /\ in_order (directed (sortDir d) (column_before date_parse locale (sortKey d))) (audit_rows date_parse locale d)
  /\ forall p, let mapped := mapped_entries date_parse local p in
       length mapped = length (events p ?? []) /\ List.Forall (fun e => eventType e ∈ event_types) mapped
       /\ (api_summary p = None ->
            exists n_success n_failure n_pending, (n_success + n_failure + n_pending = length mapped)%nat
              /\ total (summary_of date_parse local p) = Num.of_nat (length mapped)
              /\ successes (summary_of date_parse local p) = Num.of_nat n_success
              /\ failures (summary_of date_parse local p) = Num.of_nat n_failure).
Proof.
  intros Hr d. destruct (quiet_shows_newest _ _ _ Hr) as [Hs Hl]. split_and!; [done|done| |apply audit_order|].
  - apply sorted_by_perm.
  - intros p mapped. split_and!.
    + apply length_imap.
    + apply List.Forall_forall. intros e (i & row & -> & _)%list_elem_of_In%elem_of_lookup_imap. apply event_type_known.
    + intros Hp. exists (count_outcome "success" mapped), (count_outcome "failure" mapped), (count_outcome "pending" mapped).
      split_and!; [apply outcomes_partition|..]; cbn; unfold figure; by rewrite Hp.
Qed.
End Audit.

(** ** Compliance *)

Section Compliance.
Context (date_parse : string -> option Z) (local : Z -> LocalTime).

Lemma statuses_partition l :
  (status_count compliant l + status_count non_compliant l + status_count drift l + status_count pending_check l
   = length l)%nat.
Proof.
  unfold status_count. induction l as [|c l IH]; [done|]. cbn [List.filter length].
  repeat case_bool_decide; cbn [length]; try lia; destruct (check_status c); congruence.
Qed.

(** The checks in one state. *)
Definition in_state (st : ComplianceStatus) (l : list ComplianceCheckRow) : nat :=
  length (base.filter (fun c => check_status c = st) l).

Lemma status_count_spec st l : status_count st l = in_state st l.
Proof.
  unfold status_count, in_state. induction l as [|c l IH]; [done|]. cbn [List.filter].
  rewrite filter_cons. case_bool_decide; case_decide; cbn [length]; congruence.
Qed.

(** What the filters let through. *)
Definition allowed (d : ComplianceData) (c : ComplianceCheckRow) : Prop :=
  (categoryFilter d = "All" \/ check_category c = categoryFilter d)
  /\ forall st, statusFilter d = Some st -> check_status c = st.

Lemma compliance_rows_spec d c : c ∈ compliance_rows d <-> c ∈ checks d /\ allowed d c.
Proof.
  unfold compliance_rows, allowed. rewrite !list_elem_of_In, filter_In, andb_true_iff, orb_true_iff.
  rewrite !String.eqb_eq. destruct (statusFilter d) as [st|]; rewrite ?bool_decide_eq_true; naive_solver.
Qed.

Lemma compliance_rows_sublist d : compliance_rows d `sublist_of` checks d.
Proof.
  unfold compliance_rows. induction (checks d) as [|c l IH]; [done|]. cbn [List.filter].
  destruct (_ && _); by constructor.
Qed.

(** A click before, between or after the parts of a load does the same. *)
Lemma click_between_parts mode a x s :
  List.Forall (fun p : Part (Shown ComplianceData) =>
    forall s, p {| data := compliance_act x (data s); error := error s |}
              = ({| data := compliance_act x (data (p s).1); error := error (p s).1 |}, (p s).2))
    (compliance_parts date_parse local mode a)
  /\ compliance_settle date_parse local mode a {| data := compliance_act x (data s); error := error s |}
     = {| data := compliance_act x (data (compliance_settle date_parse local mode a s));
          error := error (compliance_settle date_parse local mode a s) |}.
Proof.
  assert (forall p, p ∈ compliance_parts date_parse local mode a -> forall s : Shown ComplianceData,
    p {| data := compliance_act x (data s); error := error s |}
    = ({| data := compliance_act x (data (p s).1); error := error (p s).1 |}, (p s).2)) as H.
  { intros p [->|[->|[]%elem_of_nil]%elem_of_cons]%elem_of_cons [d e]; unfold part.
    - destruct (reply_ok (overviewRes a)), (payload_of (overviewRes a)), mode, x; reflexivity.
    - destruct (reply_ok (auditRes a)), (payload_of (auditRes a)), mode, x; reflexivity. }
  split; [by apply List.Forall_forall; intros p Hp%list_elem_of_In; apply H|].
  unfold compliance_settle. cbn [compliance_parts parts].
  rewrite H by left. destruct (part (overviewRes a) _ _ s) as [s1 []]; cbn [fst snd]; [|done].
  rewrite H by (right; left). by destruct (part (auditRes a) _ _ s1) as [s2 []].
Qed.

(** The score is a percentage. *)
Lemma score_on_scale p :
  figures p = None -> (Z.of_nat (length (api_checks p ?? [])) < 2 ^ 53)%Z ->
  Num.within Num.zero (Num.of_Z 100) (score (compliance_summary date_parse local p)) = true.
Proof.
  intros Hp Hn. unfold compliance_summary. cbn. rewrite Hp. cbn.
  set (l := nextChecks date_parse local p).
  assert (length l = length (api_checks p ?? [])) as Hl by apply length_map.
  pose proof (statuses_partition l). destruct (Num.gt _ Num.zero) eqn:E; [|done].
  apply percentage_within; [lia|]. split; [|by rewrite Hl]. destruct l; [done|cbn; lia].
Qed.

(** What the answers make of the page: each part shows its own answer, or an
    error, and then what it showed before unless this was the first load. *)
Definition overview_shown (mode : Mode) (a : ComplianceAnswers) (before after : Shown ComplianceData) : Prop :=
  match payload_of (overviewRes a) with
  | Some p => error after = None /\ checks (data after) = nextChecks date_parse local p
              /\ complianceSummary (data after) = compliance_summary date_parse local p
              /\ lastScanAt (data after) = last_scan_at p
  | None => error after = Some "Failed to load data"
            /\ (mode <> initial -> checks (data after) = checks (data before)
                  /\ complianceSummary (data after) = complianceSummary (data before)
                  /\ lastScanAt (data after) = lastScanAt (data before))
  end.
Definition audit_shown (mode : Mode) (a : ComplianceAnswers) (before after : Shown ComplianceData) : Prop :=
  match payload_of (auditRes a) with
  | Some l => auditError (data after) = None
              /\ auditEntries (data after) = imap (entry_of date_parse local "cmp-audit-" "fleet") (l ?? [])
  | None => auditError (data after) = Some "Failed to load data"
            /\ (mode <> initial -> auditEntries (data after) = auditEntries (data before))
  end.

Lemma compliance_parts_shown mode a x :
  ends a = true ->
  overview_shown mode a x (compliance_settle date_parse local mode a x)
  /\ audit_shown mode a x (compliance_settle date_parse local mode a x).
Proof.
  intros [H1 H2]%andb_true_iff. unfold compliance_settle, compliance_parts. cbn [parts].
  rewrite (part_read _ _ _ x H1). cbn [parts]. rewrite (part_read _ _ _ _ H2). cbn [parts fst].
  unfold overview_shown, audit_shown. destruct (payload_of (overviewRes a)), (payload_of (auditRes a)), mode; done.
Qed.

(** [C33] The page of compliance, however its loads overlap: what it shows is
    what the newest loads and the clicks make of it, and it stops saying
    that it loads exactly when its first load was answered, with bodies that
    can be read, before any other began.  A load whose accepted answers have
    bodies that are JSON shows, in each of its two parts, that part's answer,
    or says that it failed and keeps what it had when it was not the first.
    When the service gives no figures, the figure of each state is the number
    of checks in it, the total is the number of checks, the four add up to
    it, and the score lies between 0 and 100.  The list has exactly the checks
    of the chosen category (any, for 'All') and of the chosen state (any, for
    none), in the order of the answer; the categories offered are distinct
    and name that of each check. *)
Theorem compliance_page_sound (es : list Event) (s : Loader ComplianceData) :
  quiet_reaches (P := compliance_page date_parse local) compliance_init es s ->
  let d := data (shown s) in
  shown s = on_show (view (P := compliance_page date_parse local) compliance_init es)
  /\ isLoading s = negb (default false (first_load es))
  /\ (forall mode a x, ends a = true ->
        overview_shown mode a x (compliance_settle date_parse local mode a x)
        /\ audit_shown mode a x (compliance_settle date_parse local mode a x))
  /\ (forall p, figures p = None ->
        let f := compliance_summary date_parse local p in
        let l := nextChecks date_parse local p in
        (n_compliant f = Num.of_nat (in_state compliant l) /\ n_nonCompliant f = Num.of_nat (in_state non_compliant l)
         /\ n_drift f = Num.of_nat (in_state drift l) /\ n_pending f = Num.of_nat (in_state pending_check l)
         /\ n_total f = Num.of_nat (length l)
         /\ (in_state compliant l + in_state non_compliant l + in_state drift l + in_state pending_check l = length l)%nat)
        /\ ((Z.of_nat (length (api_checks p ?? [])) < 2 ^ 53)%Z -> Num.within Num.zero (Num.of_Z 100) (score f) = true))
  /\ (forall c, c ∈ compliance_rows d <-> c ∈ checks d /\ allowed d c)
  /\ compliance_rows d `sublist_of` checks d
  /\ NoDup (categories d) /\ forall c, c ∈ checks d -> check_category c ∈ categories d.
Proof.
  intros Hr d. destruct (quiet_shows_newest _ _ _ Hr) as [Hs Hl].
  split_and!; [done|done|apply compliance_parts_shown| |intros c; apply compliance_rows_spec
    |apply compliance_rows_sublist|apply set_of_nodup|].
  - intros p Hp f l. split; [|by apply score_on_scale]. rewrite <- !status_count_spec, statuses_partition.
    unfold f, compliance_summary. rewrite Hp. by split_and!.
  - intros c Hc. apply elem_of_set_of, elem_of_app. right. by apply list_elem_of_fmap_2.
Qed.
End Compliance.

(** ** Examples *)

Module AuditPagesDemo.

Definition never (_ : string) : option Z := None.
Definition midnight (_ : Z) : LocalTime :=
  {| fullYear := 2026; month := 1; date := 1; hours := 0; minutes := 0; secs := 0 |}.
Definition no_order (_ _ : string) : bool := false.

Definition first_answer : Reply AuditEventsResponse := Replied 200 (Some {| events := Some []; api_summary := None |}).
Definition answered : Loader AuditData :=
  quiet_end (P := audit_page never midnight) 0 initial first_answer (load_start initial (loader_init audit_init)).

Lemma answered_reached :
  quiet_reaches (P := audit_page never midnight) audit_init ([Start initial] ++ [End 0 first_answer]) answered.
Proof. eapply quiet_more; [constructor|]. constructor. left. Qed.

Lemma audit_page_sound_witness : isLoading answered = false.
Proof.
  pose proof (fun H1 H2 => audit_page_sound never midnight no_order H1 H2 _ answered answered_reached) as H.
  destruct H as (_ & H & _).
  - intros a b [=].
  - intros a b c _ _. reflexivity.
  - exact H.
Defined.

Definition check_of (cat st : string) : ApiCheck :=
  {| api_check_id := Some cat; api_category := Some cat; api_control := None; api_description := None;
     api_check_status := Some st; api_affected := None; api_last_checked := None; api_check_severity := None |}.
Definition scanned : ComplianceAnswers :=
  {| overviewRes := Replied 200 (Some {| last_scan_at := None; figures := None;
       api_checks := Some [check_of "Encryption" "drift"; check_of "Heartbeat" "compliant"] |});
     auditRes := Unreachable |}.
Definition filtered : Loader ComplianceData :=
  page_act (P := compliance_page never midnight) (ToggleStatus drift)
    (quiet_end (P := compliance_page never midnight) 0 initial scanned (load_start initial (loader_init compliance_init))).

Lemma filtered_reached :
  quiet_reaches (P := compliance_page never midnight) compliance_init
    (([Start initial] ++ [End 0 scanned]) ++ [Click (ToggleStatus drift)]) filtered.
Proof. eapply quiet_more; [eapply quiet_more; [constructor|]|]; constructor; [left|done]. Qed.

(** One of two checks has drifted; it alone is listed under that state, and
    the trail is said to have failed. *)
Lemma compliance_page_sound_witness :
  isLoading filtered = false /\ map check_id (compliance_rows (data (shown filtered))) = ["Encryption"]
  /\ auditError (data (shown filtered)) = Some "Failed to load data"
  /\ forall c, c ∈ compliance_rows (data (shown filtered)) -> check_status c = drift.
Proof.
  destruct (compliance_page_sound never midnight _ filtered filtered_reached) as (_ & H & _ & _ & Hrows & _).
  split; [exact H|split; [vm_compute; reflexivity|split; [reflexivity|]]].
  intros c Hc. exact (proj2 (proj2 (proj1 (Hrows c) Hc)) drift eq_refl).
Defined.

(** Once a second load has begun before the first was answered, the table
    says that it loads for ever, whatever is answered. *)
Lemma overtaken_first_load_hides `{P : Page Data Answer Act} `{!Ending Answer} `{!QuietAbort Data Answer Act} (d : Data) (es : list (Event (Answer := Answer) (Act := Act))) s :
  quiet_reaches d (Start initial :: Start refresh :: es) s -> isLoading s = true.
Proof.
  intros [_ ->]%quiet_shows_newest. unfold first_load. cbn [tail fold_left first_step].
  by induction es as [|e es IH].
Qed.

(** A body that is no JSON leaves the page of compliance loading as well. *)
Lemma unread_body_hides :
  isLoading (quiet_end (P := compliance_page never midnight) 0 initial
    {| overviewRes := Replied 200 None; auditRes := Unreachable |} (load_start initial (loader_init compliance_init))) = true.
Proof. reflexivity. Qed.

End AuditPagesDemo.
