(* ===== verification/SystemHealth.v ===== *)
(** * The page of system health

    src/app/system-health/components/SystemHealthContent.tsx: four answers and
    then the audit trail, loaded every few seconds by loads that nothing
    guards; the groups of components, the latest figures and the warning
    that the data are old; then the laws of the page.  [date_parse] and
    [local] are the parameters of Module DateTime, [now] is the clock, and
    [locale_text] the text of toLocaleString.  Components are grouped in an
    object, by categories that are not names objects inherit. *)

From S2P Require Import Prelude JsNumber JsString JsValue Http Session Commands RenderModel RenderLaws Client Devices Tables Requests Loader AuditPages.
Import DateTime.
Import Rows(AuditEntry).

(** ** Data *)

Inductive HealthStatus := healthy | degraded | offline.

Record HealthOverview := {
  o_generated_at : string;
  overall_status : HealthStatus;
  count_healthy : num;
  count_degraded : num;
  count_offline : num;
  pending_jobs : num;
  failed_jobs : num;
  disk_used_percent : option num;
  memory_usage_mb : num;
  stuck_commands : num;
  replay_rejections_1h : num;
  dead_letter : num;
  avg_latency_ms : num;
}.

Record HealthComponent := {
  c_id : string;
  c_name : string;
  c_category : string;
  c_status : HealthStatus;
  latency_ms : option num;
  checked_at : string;
}.

Record HealthTimeseriesPoint := {
  pt_timestamp : string;
  commands_completed : num;
  commands_failed : num;
  telemetry_ingest : num;
  webhook_sent : num;
  webhook_retrying : num;
  webhook_dead_letter : num;
  critical_alerts : num;
}.

Record HealthEvent := {
  e_type : string;
  e_timestamp : option string;
  e_severity : string;
  e_title : string;
  e_detail : string;
}.

(** A payload with the time it was generated at. *)
Record Generated (A : Type) := { generated_at : string; items : option (list A) }.
Arguments generated_at {A}.
Arguments items {A}.

(** ** State *)

Record State := {
  overview : option HealthOverview;
  components : list HealthComponent;
  timeseries : list HealthTimeseriesPoint;
  events : list HealthEvent;
  auditEntries : list AuditEntry;
  auditLoading : bool;
  auditError : option string;
  lastGeneratedAt : option string;
  loading : bool;
  refreshing : bool;
  (** a memo: computed again only when [lastGeneratedAt] changes *)
  stale : bool;
}.

#[export] Instance eta_health : Eta State := fun s =>
  {| overview := overview s; components := components s; timeseries := timeseries s; events := events s;
     auditEntries := auditEntries s; auditLoading := auditLoading s; auditError := auditError s;
     lastGeneratedAt := lastGeneratedAt s; loading := loading s; refreshing := refreshing s; stale := stale s |}.

Definition init : State :=
  {| overview := None; components := []; timeseries := []; events := []; auditEntries := []; auditLoading := true;
     auditError := None; lastGeneratedAt := None; loading := true; refreshing := false; stale := true |}.

(** ** Loading *)

Definition urls : list string :=
  ["/api/system-health/overview"; "/api/system-health/components";
   "/api/system-health/timeseries?window_minutes=360&bucket_minutes=5";
   "/api/system-health/events?limit=60&window_minutes=180"].
Definition audit_url : string := "/api/audit/events?page=1&per_page=120".

Definition requestJson {A} (r : Response A) : res A := request_json plain_refusal r.

Record Answers := {
  overviewRes : Response HealthOverview;
  componentsRes : Response (Generated HealthComponent);
  timeseriesRes : Response (Generated HealthTimeseriesPoint);
  eventsRes : Response (Generated HealthEvent);
}.

(** [candidates.filter(Boolean).sort().at(-1) ?? null] *)
Definition latest_text (l : list string) : option string :=
  head (rev (stable_sort String.ltb (List.filter truthy_str l))).

Section Zone.
Context (date_parse : string -> option Z) (local : Z -> LocalTime) (locale_text : Z -> string).

Definition safeLocal (value : option string) : string :=
  match value with
  | Some v => if truthy_str v then match date_parse v with Some t => locale_text t | None => v end else "-"
  | None => "-"
  end.

Definition is_stale (now : Z) (generated : option string) : bool :=
  match generated with
  | Some g => if truthy_str g then match date_parse g with Some t => (90000 <? now - t)%Z | None => true end else true
  | None => true
  end.

Definition set_generated (now : Z) (g : option string) (s : State) : State :=
  s <| stale := if bool_decide (g = lastGeneratedAt s) then stale s else is_stale now g |> <| lastGeneratedAt := g |>.

Definition load_start (showLoader : bool) (s : State) : State :=
  let s := if showLoader then s <| loading := true |> <| auditLoading := true |> else s in
  s <| refreshing := true |>.

Definition settled (s : State) : State := s <| loading := false |> <| refreshing := false |>.

(** The four answers, or what the first of them that failed throws. *)
Definition loaded (now : Z) (a : Answers) (s : State) : res State :=
  let! o := requestJson (overviewRes a) in
  let! c := requestJson (componentsRes a) in
  let! t := requestJson (timeseriesRes a) in
  let! e := requestJson (eventsRes a) in
  Ok (set_generated now (latest_text [o_generated_at o; generated_at c; generated_at t; generated_at e])
        (s <| overview := Some o |> <| components := items c ?? [] |> <| timeseries := items t ?? [] |>
           <| events := items e ?? [] |>)).

(** [loadAll] after its four answers: it goes on to the audit trail, or ends
    with a message. *)
Definition health_end (now : Z) (showLoader : bool) (a : Answers) (s : State) : State * option string :=
  match loaded now a s with
  | Ok s => (s, None)
  | Exn text =>
      let s := if showLoader
               then s <| auditEntries := [] |> <| auditError := Some "Failed to load data" |> <| auditLoading := false |>
               else s in
      (settled s, Some text)
  end.

(** The rest, after the audit trail. *)
Definition audit_end (r : Response (option (list AuditEventRow))) (s : State) : State :=
  let s := match requestJson r with
           | Ok l => s <| auditEntries := imap (entry_of date_parse local "audit-" "") (l ?? []) |> <| auditError := None |>
           | Exn _ => s <| auditEntries := [] |> <| auditError := Some "Failed to load data" |>
           end in
  settled (s <| auditLoading := false |>).

(** ** What is shown *)

(** The components by category, the categories in the order of an object. *)
Definition groupedComponents (l : list HealthComponent) : list (string * list HealthComponent) :=
  fold_left (fun acc current =>
    let key := if truthy_str (c_category current) then c_category current else "other" in
    put acc key ((own_get acc key ?? []) ++ [current])) l [].

Record PointSummary := { commands : num; telemetry : num; webhooks : num; critical : num }.

Definition latestPointSummary (l : list HealthTimeseriesPoint) : PointSummary :=
  match head (rev l) with
  | Some p => {| commands := Num.add (commands_completed p) (commands_failed p); telemetry := telemetry_ingest p;
                 webhooks := Num.add (Num.add (webhook_sent p) (webhook_retrying p)) (webhook_dead_letter p);
                 critical := critical_alerts p |}
  | None => {| commands := Num.zero; telemetry := Num.zero; webhooks := Num.zero; critical := Num.zero |}
  end.

Definition overallStatus (s : State) : HealthStatus := from_option overall_status offline (overview s).

Definition component_counts (s : State) : num * num * num :=
  match overview s with
  | Some o => (count_healthy o, count_degraded o, count_offline o)
  | None => (Num.zero, Num.zero, Num.zero)
  end.

Definition shown_events (s : State) : list HealthEvent := take 20 (events s).

Definition metric_cards (s : State) : list (string * string) :=
  let v (f : HealthOverview -> num) := Num.to_string (from_option f Num.zero (overview s)) in
  let point := latestPointSummary (timeseries s) in
  [("Queue Pending", v pending_jobs); ("Queue Failed", v failed_jobs);
   ("Disk Used", Num.to_string ((overview s ≫= disk_used_percent) ?? Num.zero) +:+ "%");
   ("Memory MB", v memory_usage_mb); ("Stuck Commands", v stuck_commands);
   ("Replay Rejections", v replay_rejections_1h); ("Webhook DLQ", v dead_letter);
   ("Webhook Latency", Num.to_string (Num.round (from_option avg_latency_ms Num.zero (overview s))) +:+ "ms");
   ("Latest Bucket Commands", Num.to_string (commands point));
   ("Latest Bucket Telemetry", Num.to_string (telemetry point));
   ("Latest Bucket Webhooks", Num.to_string (webhooks point));
   ("Latest Bucket Critical Alerts", Num.to_string (critical point))].

(** ** Events *)

(** A load awaits the four answers, or the audit trail. *)
Inductive Stage := Figures | Trail.
Record Task := { task_id : nat; shows_loader : bool; stage : Stage }.
Record Run := { page : State; tasks : list Task; next : nat }.

Definition begin (showLoader : bool) (w : Run) : Run :=
  {| page := load_start showLoader (page w);
     tasks := {| task_id := next w; shows_loader := showLoader; stage := Figures |} :: tasks w; next := S (next w) |}.

Inductive Event :=
| Load
| HealthAnswered (n : nat) (now : Z) (a : Answers)
| AuditAnswered (n : nat) (r : Response (option (list AuditEventRow))).

Inductive step : Run -> Event -> Run -> Prop :=
| step_load w : step w Load (begin false w)
| step_health n b now a before after w : tasks w = before ++ {| task_id := n; shows_loader := b; stage := Figures |} :: after ->
    step w (HealthAnswered n now a)
      {| page := (health_end now b a (page w)).1;
         tasks := before ++ (match (health_end now b a (page w)).2 with
                             | None => [{| task_id := n; shows_loader := b; stage := Trail |}]
                             | Some _ => []
                             end) ++ after;
         next := next w |}
| step_audit n b r before after w : tasks w = before ++ {| task_id := n; shows_loader := b; stage := Trail |} :: after ->
    step w (AuditAnswered n r) {| page := audit_end r (page w); tasks := before ++ after; next := next w |}.

Definition start : Run := begin true {| page := init; tasks := []; next := 0 |}.

Inductive reaches : list Event -> Run -> Prop :=
| reaches_start : reaches [] start
| reaches_step es e w w' : reaches es w -> step w e w' -> reaches (es ++ [e]) w'.
End Zone.

(** ** Laws *)

(** The last text of a list in the order of texts; none if all are empty. *)
Definition is_latest (l : list string) (o : option string) : Prop :=
  match o with
  | Some g => g ∈ l /\ g <> "" /\ forall x, x ∈ l -> String.ltb g x = false
  | None => forall x, x ∈ l -> x = ""
  end.

Lemma latest_text_spec l : is_latest l (latest_text l).
Proof.
  unfold is_latest, latest_text. set (k := List.filter truthy_str l).
  assert (forall x, x ∈ stable_sort String.ltb k <-> x ∈ l /\ truthy_str x = true) as Hin
    by (intros x; rewrite stable_sort_perm; apply elem_of_keep).
  assert (in_order String.ltb (stable_sort String.ltb k)) as Ho
    by (apply stable_sort_order; [apply text_asym|apply text_negtrans]).
  assert (forall x, truthy_str x = true <-> x <> "") as Ht by (intros x; by rewrite truthy_str_spec).
  destruct (rev (stable_sort String.ltb k)) as [|g rest] eqn:E; cbn [head].
  - apply (f_equal (@rev string)) in E. rewrite rev_involutive in E. cbn in E.
    intros x Hx. destruct (decide (x = "")) as [|Hne]; [done|]. exfalso.
    assert (x ∈ stable_sort String.ltb k) as H by (apply Hin; split; [done|by apply Ht]).
    rewrite E in H. by apply elem_of_nil in H.
  - assert (stable_sort String.ltb k = rev rest ++ [g]) as Hs by (by rewrite <- (rev_involutive (stable_sort _ _)), E).
    destruct (proj1 (Hin g)) as [Hg Htr]; [rewrite Hs; apply elem_of_app; right; left|]. split_and!; [done|by apply Ht|].
    intros x Hx. destruct (decide (x = "")) as [->|Hne].
    { unfold String.ltb. by destruct g. }
    assert (x ∈ rev rest ++ [g]) as Hx' by (rewrite <- Hs; apply Hin; split; [done|by apply Ht]).
    apply elem_of_app in Hx' as [Hx'| ->%list_elem_of_singleton]; cycle 1.
    { destruct (String.ltb g g) eqn:Eg; [|done]. by rewrite (text_asym _ _ Eg) in Eg. }
    rewrite Hs in Ho. apply list_elem_of_lookup in Hx' as [i Hi].
    eapply (in_order_lookup _ _ i (length (rev rest))); [exact Ho|by apply lookup_lt_Some in Hi|by apply lookup_app_l_Some|].
    by rewrite lookup_app_r, Nat.sub_diag by lia.
Qed.

Definition group_key (c : HealthComponent) : string := if truthy_str (c_category c) then c_category c else "other".

(** The group of a category: its components in their order. *)
Lemma grouped_spec l k :
  own_get (groupedComponents l) k
  = match List.filter (fun c => group_key c === k) l with [] => None | g => Some g end.
Proof.
  induction l as [|c l IH] using rev_ind; [done|]. unfold groupedComponents in *. rewrite fold_left_app. cbn [fold_left].
  fold (group_key c). rewrite filter_app. cbn [List.filter]. destruct (group_key c === k) eqn:E.
  - apply String.eqb_eq in E as ->. rewrite own_get_put_eq, IH. by destruct (List.filter _ l).
  - apply String.eqb_neq in E. rewrite own_get_put_ne, IH, app_nil_r by congruence. done.
Qed.

Section RunLaws.
Context (date_parse : string -> option Z) (local : Z -> LocalTime).

Notation step := (step date_parse local).
Notation reaches := (reaches date_parse local).

Definition loader_runs (l : list Task) : Prop := exists t, t ∈ l /\ shows_loader t = true.

(** A flag is on only while a load is under way that will take it back. *)
Definition flags_ok (w : Run) : Prop :=
  (loading (page w) = true -> loader_runs (tasks w))
  /\ (auditLoading (page w) = true -> loader_runs (tasks w))
  /\ (refreshing (page w) = true -> tasks w <> []).

(** A load that goes on to the audit trail still shows its loader. *)
Lemma loader_goes_on n b st st' before after :
  loader_runs (before ++ {| task_id := n; shows_loader := b; stage := st |} :: after) ->
  loader_runs (before ++ {| task_id := n; shows_loader := b; stage := st' |} :: after).
Proof.
  intros (t & [Hin|[->|Hin]%elem_of_cons]%elem_of_app & Hb).
  - exists t. split; [apply elem_of_app; by left|done].
  - eexists. split; [apply elem_of_app; right; left|done].
  - exists t. split; [apply elem_of_app; right; by right|done].
Qed.

(** The end of another load leaves it. *)
Lemma loader_stays n st before after :
  loader_runs (before ++ {| task_id := n; shows_loader := false; stage := st |} :: after) -> loader_runs (before ++ after).
Proof.
  intros (t & [Hin|[->|Hin]%elem_of_cons]%elem_of_app & Hb); [|done|]; exists t; (split; [apply elem_of_app|done]);
    [by left|by right].
Qed.

Lemma loaded_flags now a s s' :
  loaded date_parse now a s = Ok s' -> (loading s', auditLoading s', refreshing s') = (loading s, auditLoading s, refreshing s).
Proof.
  unfold loaded. destruct (requestJson (overviewRes a)); [|done]. cbn. destruct (requestJson (componentsRes a)); [|done].
  cbn. destruct (requestJson (timeseriesRes a)); [|done]. cbn. destruct (requestJson (eventsRes a)); [|done].
  by intros [= <-].
Qed.

Lemma health_step_ok w e w' : step w e w' -> flags_ok w -> flags_ok w'.
Proof.
  intros Hs (Hl & Ha & Hr). destruct Hs as [w|n b now a before after w Ht|n b r before after w Ht]; unfold flags_ok;
    cbn [begin page tasks].
  - cbn. split_and!; [intros H|intros H|done].
    + destruct (Hl H) as (t & Hin & Hb). exists t. split; [by right|done].
    + destruct (Ha H) as (t & Hin & Hb). exists t. split; [by right|done].
  - rewrite Ht in Hl, Ha. unfold health_end. destruct (loaded date_parse now a (page w)) as [s'|text] eqn:E.
    + apply loaded_flags in E as [= El Ea _]. cbn [fst snd app]. rewrite El, Ea. split_and!; [intros H; eauto using loader_goes_on..|].
      intros _ [_ [=]]%app_eq_nil.
    + cbn [fst snd app]. split_and!; [by destruct b| |by destruct b]. destruct b; [done|].
      intros H. by eapply loader_stays, Ha.
  - unfold audit_end. destruct (requestJson r); split_and!; done.
Qed.

(** All four answers are accepted. *)
Definition all_accepted (a : Answers) : bool :=
  accepted (overviewRes a) && accepted (componentsRes a) && accepted (timeseriesRes a) && accepted (eventsRes a).

(** The figures, the lists, the time they were made and the warning. *)
Definition figures_of (s : State) :=
  (overview s, components s, timeseries s, events s, lastGeneratedAt s, stale s).
(** The audit trail. *)
Definition trail_of (s : State) := (auditEntries s, auditError s, auditLoading s).

Lemma loaded_fails now a s : all_accepted a = false -> exists text, loaded date_parse now a s = Exn text.
Proof.
  unfold all_accepted, loaded, requestJson.
  destruct (accepted (overviewRes a)) eqn:H1; cycle 1.
  { intros _. destruct (request_json_exn plain_refusal _ H1) as [text ->]. by exists text. }
  apply (request_json_accepted plain_refusal) in H1 as (? & _ & ->). cbn.
  destruct (accepted (componentsRes a)) eqn:H2; cycle 1.
  { intros _. destruct (request_json_exn plain_refusal _ H2) as [text ->]. by exists text. }
  apply (request_json_accepted plain_refusal) in H2 as (? & _ & ->). cbn.
  destruct (accepted (timeseriesRes a)) eqn:H3; cycle 1.
  { intros _. destruct (request_json_exn plain_refusal _ H3) as [text ->]. by exists text. }
  apply (request_json_accepted plain_refusal) in H3 as (? & _ & ->). cbn.
  intros H4. destruct (request_json_exn plain_refusal _ H4) as [text ->]. by exists text.
Qed.

(** What a load with four answers shows. *)
Definition answers_shown (now : Z) (o : HealthOverview) (c : Generated HealthComponent) (t : Generated HealthTimeseriesPoint)
  (e : Generated HealthEvent) (before after : State) : Prop :=
  overview after = Some o /\ components after = items c ?? [] /\ timeseries after = items t ?? []
  /\ events after = items e ?? [] /\ trail_of after = trail_of before
  /\ is_latest [o_generated_at o; generated_at c; generated_at t; generated_at e] (lastGeneratedAt after)
  /\ (lastGeneratedAt after = lastGeneratedAt before -> stale after = stale before)
  /\ (lastGeneratedAt after <> lastGeneratedAt before ->
       stale after = false <->
       exists g made, lastGeneratedAt after = Some g /\ date_parse g = Some made /\ (now - made <= 90000)%Z).

Lemma accepted_shown now b s o c t e :
  let a := {| overviewRes := Accepted o; componentsRes := Accepted c; timeseriesRes := Accepted t;
              eventsRes := Accepted e |} in
  (health_end date_parse now b a s).2 = None /\ answers_shown now o c t e s (health_end date_parse now b a s).1.
Proof.
  cbn zeta. split; [done|]. set (l := [o_generated_at o; generated_at c; generated_at t; generated_at e]).
  pose proof (latest_text_spec l) as Hl. split_and!; try done; cbn.
  - intros E. by rewrite bool_decide_eq_true_2.
  - intros E. rewrite bool_decide_eq_false_2 by done. unfold is_stale.
    change (latest_text _) with (latest_text l). destruct (latest_text l) as [g|]; [|naive_solver].
    destruct Hl as (_ & Hg & _). rewrite (proj2 (truthy_str_spec g) Hg).
    destruct (date_parse g) as [made|] eqn:Ed; [rewrite Z.ltb_ge|]; naive_solver.
Qed.

(** [C32] The page of system health: in every run, however its loads overlap,
    an indicator is on only while a load is under way that will take it
    back.  A load with a failure among its four answers shows a message,
    leaves the figures, the lists, the time they were made and the warning as
    they were, and ends; the audit trail it empties if it was the first load,
    and leaves otherwise.  A load with four accepted answers shows them and
    goes on to the audit trail; the time they were made is the last non-empty
    text among theirs, and, when it is another one than before, the warning
    is off exactly when it is a time at most ninety seconds ago.  The audit
    trail shows its answer, or is emptied with a message when it failed, and
    in both cases the figures stay.  Components are shown by category, each
    in its order. *)
Theorem health_page_sound (es : list Event) (w : Run) :
  reaches es w ->
  flags_ok w
  /\ (forall now b a s, all_accepted a = false ->
        exists s' text, health_end date_parse now b a s = (s', Some text)
        /\ figures_of s' = figures_of s /\ loading s' = false /\ refreshing s' = false
        /\ trail_of s' = if b then ([], Some "Failed to load data", false) else trail_of s)
  /\ (forall now b s o c t e,
        let a := {| overviewRes := Accepted o; componentsRes := Accepted c; timeseriesRes := Accepted t;
                    eventsRes := Accepted e |} in
        (health_end date_parse now b a s).2 = None /\ answers_shown now o c t e s (health_end date_parse now b a s).1)
  /\ (forall r s, let s' := audit_end date_parse local r s in
        figures_of s' = figures_of s /\ loading s' = false /\ refreshing s' = false
        /\ trail_of s' = match r with
                         | Accepted l => (imap (entry_of date_parse local "audit-" "") (l ?? []), None, false)
                         | _ => ([], Some "Failed to load data", false)
                         end)
  /\ forall k, own_get (groupedComponents (components (page w))) k
       = match List.filter (fun c => group_key c === k) (components (page w)) with [] => None | g => Some g end.
Proof.
  intros Hw. split_and!; [| |apply accepted_shown| |intros k; apply grouped_spec].
  - induction Hw as [|es e w w' _ IH Hstep]; [|by eapply health_step_ok].
    split_and!; [..|done]; intros _; eexists; (split; [left|done]).
  - intros now b a s Ha. destruct (loaded_fails now a s Ha) as [text E]. unfold health_end. rewrite E.
    eexists _, text. split; [done|]. by destruct b.
  - intros r s. unfold audit_end, requestJson. destruct r as [|body|l]; [done| |done].
    by destruct (request_json_exn plain_refusal (@Refused (option (list AuditEventRow)) body) eq_refl) as [text ->].
Qed.
End RunLaws.

(** ** Examples *)

Module HealthDemo.

Definition at_zero (_ : string) : option Z := Some 0%Z.
Definition midnight (_ : Z) : LocalTime :=
  {| fullYear := 2026; month := 1; date := 1; hours := 0; minutes := 0; secs := 0 |}.

Definition figures (st : HealthStatus) (at_ : string) : HealthOverview :=
  {| o_generated_at := at_; overall_status := st; count_healthy := Num.zero; count_degraded := Num.zero;
     count_offline := Num.zero; pending_jobs := Num.zero; failed_jobs := Num.zero; disk_used_percent := None;
     memory_usage_mb := Num.zero; stuck_commands := Num.zero; replay_rejections_1h := Num.zero;
     dead_letter := Num.zero; avg_latency_ms := Num.zero |}.
Definition answer (st : HealthStatus) (at_ : string) : Answers :=
  {| overviewRes := Accepted (figures st at_);
     componentsRes := Accepted {| generated_at := at_; items := None |};
     timeseriesRes := Accepted {| generated_at := at_; items := None |};
     eventsRes := Accepted {| generated_at := at_; items := None |} |}.
Definition lost : Answers :=
  {| overviewRes := Requests.Unreachable; componentsRes := Requests.Unreachable;
     timeseriesRes := Requests.Unreachable; eventsRes := Requests.Unreachable |}.

(** The first load is answered; a refresh that began meanwhile fails. *)
Definition answered_run : Run :=
  {| page := (health_end at_zero 1000 true (answer healthy "t1") (page (begin false start))).1;
     tasks := [{| task_id := 1; shows_loader := false; stage := Figures |};
               {| task_id := 0; shows_loader := true; stage := Trail |}]; next := 2 |}.
Definition failed_run : Run :=
  {| page := (health_end at_zero 9000 false lost (page answered_run)).1;
     tasks := [{| task_id := 0; shows_loader := true; stage := Trail |}]; next := 2 |}.

Lemma failed_run_reached :
  reaches at_zero midnight ((([] ++ [Load]) ++ [HealthAnswered 0 1000 (answer healthy "t1")]) ++ [HealthAnswered 1 9000 lost])
    failed_run.
Proof.
  eapply reaches_step; [eapply reaches_step; [eapply reaches_step; [apply reaches_start|apply step_load]|]|].
  - exact (step_health at_zero midnight 0 true 1000 (answer healthy "t1")
      [{| task_id := 1; shows_loader := false; stage := Figures |}] [] (begin false start) eq_refl).
  - exact (step_health at_zero midnight 1 false 9000 lost [] [{| task_id := 0; shows_loader := true; stage := Trail |}]
      answered_run eq_refl).
Qed.

Lemma health_page_sound_witness :
  flags_ok failed_run /\ figures_of (page failed_run) = figures_of (page answered_run)
  /\ lastGeneratedAt (page failed_run) = Some "t1" /\ stale (page failed_run) = false.
Proof.
  destruct (health_page_sound at_zero midnight _ failed_run failed_run_reached) as (H & Hf & _).
  destruct (Hf 9000%Z false lost (page answered_run) eq_refl) as (s' & text & E & Hfig & _).
  split; [exact H|split; [|split; vm_compute; reflexivity]].
  unfold failed_run. cbn [page]. rewrite E. exact Hfig.
Defined.

(** The warning that the data are old does not come while the service fails,
    however long that takes. *)
Lemma stale_not_noticed now :
  let s := (health_end at_zero 1000 true (answer healthy "t1") init).1 in
  stale s = false /\ stale (health_end at_zero now false lost s).1 = false
  /\ is_stale at_zero 100000 (lastGeneratedAt (health_end at_zero now false lost s).1) = true.
Proof. done. Qed.

(** An answer that arrives late replaces a newer one. *)
Lemma late_answer_shown :
  let s := (health_end at_zero 2000 false (answer offline "t2") init).1 in
  overallStatus s = offline
  /\ overallStatus (health_end at_zero 3000 false (answer healthy "t1") s).1 = healthy.
Proof. done. Qed.

End HealthDemo.
