(* ===== verification/Feeds.v ===== *)
(** * Pages whose loads nothing guards

    The pages of alerts, of notifications and of mobile devices and the
    viewer's console load by a function of a mode (loadAlerts,
    loadNotifications, fetchData, loadDevices) that sets the flag of its mode
    and clears it in [finally].  Loads do not abort each other, so every
    answer counts, in the order of arrival.  A click may send a request of
    its own, and the answer to it may start another load.  [FeedPage] is
    what a page brings, [FeedInvariant] what it proves of its data and the
    requests under way; this file derives what holds of every run. *)

From S2P Require Import Prelude JsString JsValue Http Devices Loader.
Import DateTime.

(** A request without a body. *)
Definition bare_request (method url : string) : FetchRequest :=
  {| f_method := method; f_url := url; f_headers := []; f_body := None |}.

(** [Date.parse(value)], or 0. *)
Definition parseIso (date_parse : string -> option Z) (value : option string) : Z := time_of date_parse value ?? 0%Z.

(** A tab of a filter: 'all' is [None]. *)
Definition tab {A} (f : option A) (same : A -> bool) : bool := match f with None => true | Some x => same x end.

Record Feed (Data : Type) := {
  content : Data;
  loading : bool;
  refreshing : bool;
  loadError : option string;
}.
Arguments content {Data}.
Arguments loading {Data}.
Arguments refreshing {Data}.
Arguments loadError {Data}.
Arguments Build_Feed {Data}.

(** What a handler leaves: the data, the requests and timers it starts, and
    the mode of the load it starts. *)
Record Handled (Data Job : Type) := { kept : Data; starts : list Job; reloads : option Mode }.
Arguments kept {Data Job}.
Arguments starts {Data Job}.
Arguments reloads {Data Job}.
Arguments Build_Handled {Data Job}.

Definition only {Data Job} (d : Data) : Handled Data Job := {| kept := d; starts := []; reloads := None |}.

(** [take_in] is the body of a load after its responses, [None] if it
    throws; [on_click] and [on_close] are the handlers of a click and of the
    end of a request. *)
Class FeedPage (Data Answer Click Job Outcome : Type) := {
  take_in : Answer -> Data -> option Data;
  after_failure : Mode -> Data -> Data;
  failure_text : string;
  on_click : Click -> Data -> Handled Data Job;
  on_close : Job -> Outcome -> Data -> Handled Data Job;
}.

(** A property of the data and of the requests under way, kept by every
    answer that is [honest] and by all else that happens. *)
Class FeedInvariant {Data Answer Click Job Outcome : Type} {P : FeedPage Data Answer Click Job Outcome}
    (honest : Answer -> Prop) (I : Data -> list Job -> Prop) : Prop := {
  feed_take a d d' js : honest a -> I d js -> take_in a d = Some d' -> I d' js;
  feed_failure mode d js : I d js -> I (after_failure mode d) js;
  feed_click c d js : I d js -> I (kept (on_click c d)) (starts (on_click c d) ++ js);
  feed_close j o d js js' : I d (js ++ j :: js') ->
    I (kept (on_close j o d)) (starts (on_close j o d) ++ js ++ js');
}.

Section Protocol.
Context {Data Answer Click Job Outcome : Type} {P : FeedPage Data Answer Click Job Outcome}.

Definition feed_init (d : Data) : Feed Data :=
  {| content := d; loading := true; refreshing := false; loadError := None |}.

Definition load_begin (mode : Mode) (s : Feed Data) : Feed Data :=
  {| content := content s;
     loading := match mode with initial => true | _ => loading s end;
     refreshing := match mode with refresh => true | _ => refreshing s end;
     loadError := loadError s |}.

Definition load_finish (mode : Mode) (a : Answer) (s : Feed Data) : Feed Data :=
  let taken := take_in a (content s) in
  {| content := match taken with Some d => d | None => after_failure mode (content s) end;
     loading := match mode with initial => false | _ => loading s end;
     refreshing := match mode with refresh => false | _ => refreshing s end;
     loadError := match taken with Some _ => None | None => Some failure_text end |}.

Definition with_content (d : Data) (s : Feed Data) : Feed Data :=
  {| content := d; loading := loading s; refreshing := refreshing s; loadError := loadError s |}.

(** ** Runs *)

Record Run := { feed : Feed Data; loads : list (nat * Mode); jobs : list (nat * Job); next : nat }.

Definition begin (mode : Mode) (w : Run) : Run :=
  {| feed := load_begin mode (feed w); loads := (next w, mode) :: loads w; jobs := jobs w; next := S (next w) |}.

(** The handler is done: its requests are under way. *)
Definition handle (h : Handled Data Job) (w : Run) : Run :=
  let w' := {| feed := with_content (kept h) (feed w); loads := loads w;
               jobs := imap (fun i j => (next w + i, j)) (starts h) ++ jobs w;
               next := next w + length (starts h) |} in
  match reloads h with Some mode => begin mode w' | None => w' end.

Inductive Event := Begin (mode : Mode) | Loaded (n : nat) (a : Answer) | Clicked (c : Click) | Closed (n : nat) (o : Outcome).

Inductive step : Run -> Event -> Run -> Prop :=
| step_begin mode w : step w (Begin mode) (begin mode w)
| step_loaded n mode a before after w : loads w = before ++ (n, mode) :: after ->
    step w (Loaded n a)
      {| feed := load_finish mode a (feed w); loads := before ++ after; jobs := jobs w; next := next w |}
| step_clicked c w : step w (Clicked c) (handle (on_click c (content (feed w))) w)
| step_closed n j o before after w : jobs w = before ++ (n, j) :: after ->
    step w (Closed n o)
      (handle (on_close j o (content (feed w)))
         {| feed := feed w; loads := loads w; jobs := before ++ after; next := next w |}).

(** A page begins with the load its first effect starts. *)
Definition start (d : Data) : Run := begin initial {| feed := feed_init d; loads := []; jobs := []; next := 0 |}.

Inductive reaches (d : Data) : list Event -> Run -> Prop :=
| reaches_start : reaches d [] (start d)
| reaches_step es e w w' : reaches d es w -> step w e w' -> reaches d (es ++ [e]) w'.

(** ** Laws *)

(** A flag is on only while a load is under way that will take it back, and
    the message is that of the page. *)
Definition feed_ok (w : Run) : Prop :=
  (loading (feed w) = true -> exists n, (n, initial) ∈ loads w)
  /\ (refreshing (feed w) = true -> exists n, (n, refresh) ∈ loads w)
  /\ (loadError (feed w) = None \/ loadError (feed w) = Some failure_text).

(** A load of another mode ends. *)
Lemma mode_stays (mode mode' : Mode) (n : nat) (before after : list (nat * Mode)) :
  mode <> mode' -> (exists i, (i, mode) ∈ before ++ (n, mode') :: after) -> exists i, (i, mode) ∈ before ++ after.
Proof.
  intros Hne (i & [H|[[= -> ->]|H]%elem_of_cons]%elem_of_app); [|done|]; exists i; apply elem_of_app; auto.
Qed.

Lemma begin_ok mode w : feed_ok w -> feed_ok (begin mode w).
Proof.
  intros (Hl & Hr & He). split_and!; cbn; [..|done].
  - destruct mode; [eexists; left|..]; intros H; destruct (Hl H) as [n Hn]; exists n; by right.
  - destruct mode; [|eexists; left|]; intros H; destruct (Hr H) as [n Hn]; exists n; by right.
Qed.

Lemma handle_ok h w : feed_ok w -> feed_ok (handle h w).
Proof. intros H. unfold handle. destruct (reloads h); [by apply begin_ok|done]. Qed.

Lemma feed_step_ok w e w' : step w e w' -> feed_ok w -> feed_ok w'.
Proof.
  destruct 1 as [mode w|n mode a before after w Ht|c w|n j o before after w Ht]; intros Hw.
  - by apply begin_ok.
  - destruct Hw as (Hl & Hr & He). rewrite Ht in Hl, Hr. split_and!; cbn.
    + destruct mode; [done|..]; intros H; by eapply mode_stays, Hl.
    + destruct mode; [|done|]; intros H; by eapply mode_stays, Hr.
    + destruct (take_in a _); auto.
  - by apply handle_ok.
  - by apply handle_ok.
Qed.

Lemma feed_start_ok d : feed_ok (start d).
Proof. split_and!; cbn; [intros _; eexists; left|done|by left]. Qed.

Lemma feed_reaches_ok d es w : reaches d es w -> feed_ok w.
Proof. induction 1 as [|es e w w' _ IH Hs]; [apply feed_start_ok|by eapply feed_step_ok]. Qed.

Lemma handle_jobs h w : map snd (jobs (handle h w)) = starts h ++ map snd (jobs w).
Proof.
  assert (map snd (imap (fun i j => (next w + i, j)) (starts h)) = starts h) as H.
  { rewrite fmap_imap. cbn. apply list_eq. intros i. rewrite list_lookup_imap. by destruct (_ !! i). }
  unfold handle. destruct (reloads h); cbn; by rewrite map_app, H.
Qed.

Lemma handle_content h w : content (feed (handle h w)) = kept h.
Proof. unfold handle. by destruct (reloads h). Qed.

(** The answers of a run that must be honest. *)
Definition honest_event (honest : Answer -> Prop) (e : Event) : Prop :=
  match e with Loaded _ a => honest a | _ => True end.

Lemma feed_invariant honest I `{!FeedInvariant honest I} d es w :
  reaches d es w -> List.Forall (honest_event honest) es -> I d [] -> I (content (feed w)) (map snd (jobs w)).
Proof.
  induction 1 as [|es e w w' _ IH Hs]; intros Hes Hd; [done|].
  apply Forall_app in Hes as [Hes He]. inversion He as [|? ? Hh _]; subst. specialize (IH Hes Hd). clear Hes He.
  destruct Hs as [mode w|n mode a before after w Ht|c w|n j o before after w Ht].
  - done.
  - cbn. destruct (take_in a (content (feed w))) eqn:E; [by eapply feed_take|by apply feed_failure].
  - rewrite handle_content, handle_jobs. by apply feed_click.
  - rewrite handle_content, handle_jobs. cbn [jobs]. rewrite map_app. apply feed_close.
    by rewrite Ht, map_app in IH.
Qed.

(** A load that fails is followed by its message and changes nothing else
    but what the page gives up. *)
Lemma failed_load mode a s : take_in a (content s) = None ->
  content (load_finish mode a s) = after_failure mode (content s) /\ loadError (load_finish mode a s) = Some failure_text.
Proof. intros H. unfold load_finish. by rewrite H. Qed.

(** A handler that asks for a load starts it. *)
Lemma reload_begun h w mode : reloads h = Some mode -> (next w + length (starts h), mode) ∈ loads (handle h w).
Proof. intros H. unfold handle. rewrite H. left. Qed.
End Protocol.
