(* ===== verification/Alerts.v ===== *)
(** * The page of alerts

    src/app/alerts/components/AlertsContent.tsx with AlertDetailDrawer.tsx, as
    an instance of [Feeds]: alerts are acknowledged from their row, or from
    the drawer after a pause; then the laws of the page.  [date_parse] and
    [local] are the parameters of Module DateTime.  The outcome of a request
    is its reply, of which the page reads only the status; messages in a
    corner of the screen are not modelled. *)

From stdpp Require Import sets.
From S2P Require Import Prelude JsNumber JsInteger JsString JsValue Http Session Commands RenderModel RenderLaws Client Devices Tables Loader Feeds.
Import DateTime.

(** ** Data *)

Inductive AlertSeverity := critical | warning | info.
Inductive AlertStatus := active | acknowledged | resolved.

#[export] Instance severity_eq_dec : EqDecision AlertSeverity.
Proof. solve_decision. Defined.
#[export] Instance status_eq_dec : EqDecision AlertStatus.
Proof. solve_decision. Defined.

Record Alert := {
  id : string;
  severity : AlertSeverity;
  type : string;
  deviceId : string;
  hostname : string;
  description : string;
  triggeredAt : string;
  status : AlertStatus;
  acknowledgedBy : option string;
  correlationId : string;
}.

#[export] Instance alert_eq_dec : EqDecision Alert.
Proof. solve_decision. Defined.

#[export] Instance eta_alert : Eta Alert := fun a =>
  {| id := id a; severity := severity a; type := type a; deviceId := deviceId a; hostname := hostname a;
     description := description a; triggeredAt := triggeredAt a; status := status a;
     acknowledgedBy := acknowledgedBy a; correlationId := correlationId a |}.

(** A row of the answer; a missing field and null are both [None]. *)
Record AlertRow := {
  alert_id : option string;
  row_severity : option string;
  category : option string;
  device_id : option string;
  message : option string;
  timestamp : option string;
  row_acknowledged : option bool;
  row_status : option string;
}.

Definition normalizeSeverity (value : option string) : AlertSeverity :=
  let normalized := toLowerCase (value ?? "") in
  if normalized === "critical" then critical else if normalized === "warning" then warning else info.

Definition normalizeStatus (value : option string) (acked : bool) : AlertStatus :=
  let normalized := toLowerCase (value ?? "") in
  if normalized === "active" then active
  else if normalized === "acknowledged" then acknowledged
  else if normalized === "resolved" then resolved
  else if acked then acknowledged else active.

(** The drawer: its alert, and the state of AlertDetailDrawer. *)
Record Drawer := { shown_alert : Alert; rationale : string; acknowledging : bool }.

Record AlertsData := {
  alerts : list Alert;
  severityFilter : option AlertSeverity;
  statusFilter : option AlertStatus;
  search : string;
  selected : option Drawer;
  acknowledgeIds : list string;
  lastRefresh : string;
}.

#[export] Instance eta_alerts : Eta AlertsData := fun d =>
  {| alerts := alerts d; severityFilter := severityFilter d; statusFilter := statusFilter d; search := search d;
     selected := selected d; acknowledgeIds := acknowledgeIds d; lastRefresh := lastRefresh d |}.

Definition alerts_init : AlertsData :=
  {| alerts := []; severityFilter := None; statusFilter := None; search := ""; selected := None;
     acknowledgeIds := []; lastRefresh := "" |}.

Definition alerts_url : string := "/api/alerts?limit=200".

Section Zone.
Context (date_parse : string -> option Z) (local : Z -> LocalTime).

(** A row as an alert, with its time. *)
Definition timed (row : AlertRow) : Z * Alert :=
  let alertId := trim (alert_id row ?? "") in
  let device := or_str (trim (device_id row ?? "unknown")) "unknown" in
  let acked := row_acknowledged row ?? false in
  (parseIso date_parse (timestamp row),
   {| id := alertId; severity := normalizeSeverity (row_severity row);
      type := or_str (trim (category row ?? "system")) "system"; deviceId := device; hostname := device;
      description := or_str (trim (message row ?? "Alert")) "Alert";
      triggeredAt := formatLocalTime date_parse local (timestamp row) "--:--:--";
      status := normalizeStatus (row_status row) acked;
      acknowledgedBy := if acked then Some "operator" else None; correlationId := alertId |}).

(** [b._tsMs - a._tsMs < 0] *)
Definition newer (a b : Z * Alert) : bool := (b.1 - a.1 <? 0)%Z.

Definition timed_alerts (rows : list AlertRow) : list (Z * Alert) :=
  stable_sort newer (List.filter (fun row => id row.2 !== "") (map timed rows)).

Definition mapped (rows : list AlertRow) : list Alert := map snd (timed_alerts rows).

(** The clock when the answer is there, and the answer. *)
Definition alerts_take (a : Z * Reply (option (list AlertRow))) (d : AlertsData) : option AlertsData :=
  match payload_of a.2 with
  | Some rows => Some (d <| alerts := mapped (rows ?? []) |> <| lastRefresh := clock (local a.1) |>)
  | None => None
  end.

Definition matches (d : AlertsData) (alert : Alert) : bool :=
  let q := toLowerCase (trim (search d)) in
  tab (severityFilter d) (fun s => bool_decide (severity alert = s))
  && tab (statusFilter d) (fun s => bool_decide (status alert = s))
  && ((q === "") || includes (toLowerCase (id alert)) q || includes (toLowerCase (hostname alert)) q
      || includes (toLowerCase (type alert)) q || includes (toLowerCase (description alert)) q).

Definition filtered (d : AlertsData) : list Alert := List.filter (matches d) (alerts d).

Definition criticalActive (d : AlertsData) : list Alert :=
  List.filter (fun alert => bool_decide (severity alert = critical) && bool_decide (status alert = active)) (alerts d).

Definition count (s : AlertSeverity) (d : AlertsData) : nat :=
  length (List.filter (fun item => bool_decide (severity item = s)) (alerts d)).

(** ** Acknowledging *)

(** A request under way, and the pause of the drawer before it. *)
Inductive Job := AckRequest (alert : string) | Pause (alert : Alert).

Definition ack_request (alert : string) : FetchRequest :=
  bare_request "POST" ("/api/alerts/" +:+ encodeURIComponent alert +:+ "/ack").

Definition acked_alert (alert : Alert) : Alert := alert <| status := acknowledged |> <| acknowledgedBy := Some "operator" |>.

Definition handleAcknowledge (alert : Alert) (d : AlertsData) : Handled AlertsData Job :=
  {| kept := d <| acknowledgeIds := set_add (acknowledgeIds d) (id alert) |>; starts := [AckRequest (id alert)];
     reloads := None |}.

Definition ack_end (alert : string) (r : Reply unit) (d : AlertsData) : AlertsData :=
  let d := if reply_ok r
           then d <| alerts := map (fun item => if id item === alert then acked_alert item else item) (alerts d) |>
           else d in
  d <| acknowledgeIds := List.filter (fun x => x !== alert) (acknowledgeIds d) |>.

(** ** Clicks *)

Inductive Click :=
| SetSeverity (s : option AlertSeverity)
| SetStatus (s : option AlertStatus)
| SetSearch (text : string)
| Select (alert : Alert)
| Ack (alert : Alert)
| SetRationale (text : string)
| Submit
| CloseDrawer.

(** The button of the drawer. *)
Definition submit (d : AlertsData) : Handled AlertsData Job :=
  match selected d with
  | Some dr =>
      if bool_decide (status (shown_alert dr) = active) && negb (acknowledging dr) && truthy_str (trim (rationale dr))
      then {| kept := d <| selected := Some {| shown_alert := shown_alert dr; rationale := rationale dr;
                                               acknowledging := true |} |>;
              starts := [Pause (shown_alert dr)]; reloads := None |}
      else only d
  | None => only d
  end.

Definition alerts_click (c : Click) (d : AlertsData) : Handled AlertsData Job :=
  match c with
  | SetSeverity s => only (d <| severityFilter := s |>)
  | SetStatus s => only (d <| statusFilter := s |>)
  | SetSearch text => only (d <| search := text |>)
  | Select alert =>
      only (if bool_decide (alert ∈ filtered d)
            then d <| selected := Some match selected d with
                                       | Some dr => {| shown_alert := alert; rationale := rationale dr;
                                                       acknowledging := acknowledging dr |}
                                       | None => {| shown_alert := alert; rationale := ""; acknowledging := false |}
                                       end |>
            else d)
  | Ack alert =>
      if bool_decide (alert ∈ filtered d) && bool_decide (status alert = active) && negb (has (acknowledgeIds d) (id alert))
      then handleAcknowledge alert d else only d
  | SetRationale text =>
      only (match selected d with
            | Some dr => d <| selected := Some {| shown_alert := shown_alert dr; rationale := text;
                                                  acknowledging := acknowledging dr |} |>
            | None => d
            end)
  | Submit => submit d
  | CloseDrawer => only (d <| selected := None |>)
  end.

(** The pause ends: the request is sent and the drawer closed, whichever it
    is by then. *)
Definition alerts_close (j : Job) (r : Reply unit) (d : AlertsData) : Handled AlertsData Job :=
  match j with
  | AckRequest alert => only (ack_end alert r d)
  | Pause alert =>
      let h := handleAcknowledge alert d in
      {| kept := (kept h) <| selected := None |>; starts := starts h; reloads := None |}
  end.

#[export] Instance alerts_page : FeedPage AlertsData (Z * Reply (option (list AlertRow))) Click Job (Reply unit) :=
  {| take_in := alerts_take; after_failure := fun _ d => d; failure_text := "Failed to load alerts";
     on_click := alerts_click; on_close := alerts_close |}.
End Zone.

(** The text in the last column of a row that has no button. *)
Definition action_text (alert : Alert) : option string := if bool_decide (status alert = active) then None else Some "Acked".

(** ** Laws *)

Section Zone.
Context (date_parse : string -> option Z) (local : Z -> LocalTime).

#[local] Existing Instance alerts_page.
Notation page := (alerts_page date_parse local).

Lemma set_add_elem l k x : x ∈ set_add l k <-> x ∈ l \/ x = k.
Proof. rewrite !list_elem_of_In. apply set_add_spec. Qed.

(** A row that is being acknowledged waits for a request, a drawer that
    shows its wheel for its pause, and every alert has an id. *)
Definition alerts_inv (d : AlertsData) (js : list Job) : Prop :=
  (forall x, x ∈ acknowledgeIds d -> AckRequest x ∈ js)
  /\ (forall dr, selected d = Some dr -> acknowledging dr = true -> exists a, Pause a ∈ js)
  /\ List.Forall (fun a => id a <> "") (alerts d).

Lemma mapped_ids rows : List.Forall (fun a => id a <> "") (mapped date_parse local rows).
Proof.
  unfold mapped, timed_alerts. apply List.Forall_map. apply List.Forall_forall. intros x Hx%list_elem_of_In.
  rewrite stable_sort_perm in Hx. apply list_elem_of_In, filter_In in Hx as [_ H].
  by apply negb_true_iff, String.eqb_neq in H.
Qed.

Lemma acked_ids x l :
  List.Forall (fun a => id a <> "") l ->
  List.Forall (fun a => id a <> "") (map (fun item => if id item === x then acked_alert item else item) l).
Proof. intros H. apply List.Forall_map. eapply List.Forall_impl; [|exact H]. intros a Ha. cbn. by destruct (_ === _). Qed.

Lemma handle_inv a d js : alerts_inv d js -> alerts_inv (kept (handleAcknowledge a d)) (starts (handleAcknowledge a d) ++ js).
Proof.
  intros (Hi & Hp & Ha). split_and!; cbn; [|intros dr H1 H2; destruct (Hp dr H1 H2) as [b Hb]; exists b; by right|done].
  intros x [Hx| ->]%set_add_elem; [right; auto|left].
Qed.

Lemma submit_inv d js : alerts_inv d js -> alerts_inv (kept (submit d)) (starts (submit d) ++ js).
Proof.
  intros Hd. pose proof Hd as (Hi & _ & Ha). unfold submit. destruct (selected d) as [dr|]; [|exact Hd].
  destruct (_ && _); [|exact Hd]. split_and!; cbn; [intros x Hx; right; auto| |done].
  intros ? [= <-] _. eexists. left.
Qed.

#[export] Instance alerts_invariant : FeedInvariant (P := page) (fun _ => True) alerts_inv.
Proof.
  split.
  - intros a d d' js _ (Hi & Hp & Ha). cbn. unfold alerts_take. destruct (payload_of a.2); [|done]. intros [= <-].
    split_and!; [done|done|apply mapped_ids].
  - done.
  - intros c d js Hd. pose proof Hd as (Hi & Hp & Ha). destruct c as [| | |a|a|text| |]; cbn; try done.
    + case_bool_decide; [|done]. split_and!; [done| |done]. cbn. intros dr [= <-].
      destruct (selected d) as [dr|] eqn:E; [by apply (Hp dr)|done].
    + destruct (_ && _); [by apply handle_inv|done].
    + destruct (selected d) as [dr|] eqn:E; [|done]. split_and!; [done| |done]. cbn. intros ? [= <-]. by apply (Hp dr).
    + by apply submit_inv.
  - intros [x|a] r d js js' (Hi & Hp & Ha).
    + cbn. unfold ack_end. split_and!.
      * intros y. cbn. destruct (reply_ok r); cbn; intros [Hy Hne]%elem_of_keep; apply Hi in Hy;
          apply negb_true_iff, String.eqb_neq in Hne; set_solver.
      * intros dr. destruct (reply_ok r); cbn; intros H1 H2; destruct (Hp dr H1 H2) as [a Hin]; exists a; set_solver.
      * cbn. destruct (reply_ok r); cbn; [by apply acked_ids|done].
    + cbn. split_and!; [|done|done]. cbn. intros x [Hx| ->]%set_add_elem; [|left]. apply Hi in Hx. set_solver.
Qed.

Lemma counts_add d : length (alerts d) = count critical d + count warning d + count info d.
Proof.
  unfold count. induction (alerts d) as [|a l IH]; [done|]. cbn.
  destruct (severity a); repeat case_bool_decide; try done; cbn; lia.
Qed.

Lemma newer_order rows : in_order newer (timed_alerts date_parse local rows).
Proof. apply stable_sort_order; unfold newer; intros *; rewrite ?Z.ltb_lt, ?Z.ltb_ge; lia. Qed.

(** [C27] The page of alerts: in every run, whatever overlaps, a row shows that
    it is being acknowledged only while a request for it is under way, the
    drawer shows its wheel only during its pause, an indicator of loading
    only while a load is, and every alert has an id; the counts of the tabs
    add up.  What is loaded are the rows with an id, the newest first.  The
    answer to a request marks the alerts of that id, and no other, if it is
    ok, and nothing if it is not; it ends the waiting of the row. *)
Theorem alerts_page_sound (es : list (Event (Answer := Z * Reply (option (list AlertRow))) (Outcome := Reply unit)))
    (w : Run) :
  reaches (P := page) alerts_init es w ->
  feed_ok (P := page) w
  /\ (forall x, x ∈ acknowledgeIds (content (feed w)) -> exists n, (n, AckRequest x) ∈ jobs w)
  /\ (forall dr, selected (content (feed w)) = Some dr -> acknowledging dr = true -> exists n a, (n, Pause a) ∈ jobs w)
  /\ List.Forall (fun a => id a <> "") (alerts (content (feed w)))
  /\ (forall d, length (alerts d) = count critical d + count warning d + count info d)
  /\ (forall rows, in_order newer (timed_alerts date_parse local rows)
        /\ timed_alerts date_parse local rows ≡ₚ List.filter (fun row => id row.2 !== "") (map (timed date_parse local) rows))
  /\ (forall x r d, let d' := ack_end x r d in
        x ∉ acknowledgeIds d' /\ length (alerts d') = length (alerts d)
        /\ forall i a, alerts d !! i = Some a ->
             alerts d' !! i = Some (if reply_ok r && (id a === x) then acked_alert a else a)).
Proof.
  intros Hw. assert (alerts_inv (content (feed w)) (map snd (jobs w))) as (Hi & Hp & Ha).
  { eapply (feed_invariant (P := page) (fun _ => True) alerts_inv); [exact Hw|by apply List.Forall_forall; intros [] _|].
    split_and!; [|done|constructor]. intros x Hx. by apply elem_of_nil in Hx. }
  split_and!.
  - by eapply feed_reaches_ok.
  - intros x Hx. apply Hi, list_elem_of_fmap in Hx as ([n j] & Hj & Hn). cbn in Hj. subst. by exists n.
  - intros dr H1 H2. destruct (Hp dr H1 H2) as [a Hin]. apply list_elem_of_fmap in Hin as ([n j] & Hj & Hn).
    cbn in Hj. subst. by exists n, a.
  - done.
  - apply counts_add.
  - intros rows. split; [apply newer_order|apply stable_sort_perm].
  - intros x r d d'. unfold d', ack_end. split_and!; cbn.
    + rewrite elem_of_keep, negb_true_iff, String.eqb_neq. tauto.
    + destruct (reply_ok r); cbn; [by rewrite length_map|done].
    + intros i a Hi'. destruct (reply_ok r); cbn; [|done]. by rewrite list_lookup_fmap, Hi'.
Qed.
End Zone.

(** ** Examples *)

Module AlertsDemo.

Definition noon (_ : Z) : LocalTime :=
  {| fullYear := 2026; month := 1; date := 1; hours := 12; minutes := 5; secs := 9 |}.
Definition at_one (_ : string) : option Z := Some 1%Z.

Definition alert_row : AlertRow :=
  {| alert_id := Some "a1"; row_severity := Some "critical"; category := None;
     device_id := None; message := None; timestamp := Some "t"; row_acknowledged := None;
     row_status := None |}.
Definition alert_of : Alert := (timed at_one noon alert_row).2.
Definition loaded_alerts : AlertsData :=
  default alerts_init (alerts_take at_one noon (0%Z, Replied 200 (Some (Some [alert_row]))) alerts_init).

(** The alert is loaded and its button clicked: the row waits for a request
    that is under way. *)
Definition answered_alerts : Run (Data := AlertsData) (Job := Job) :=
  {| feed := load_finish (P := alerts_page at_one noon) initial (0%Z, Replied 200 (Some (Some [alert_row])))
               (load_begin initial (feed_init alerts_init)); loads := []; jobs := []; next := 1 |}.
Definition acking : Run (Data := AlertsData) (Job := Job) :=
  handle (alerts_click (Ack alert_of) (content (feed answered_alerts))) answered_alerts.

Lemma alerts_page_sound_witness :
  feed_ok (P := alerts_page at_one noon) acking
  /\ acknowledgeIds (content (feed acking)) = ["a1"] /\ (exists n, (n, AckRequest "a1") ∈ jobs acking)
  /\ (exists a, alerts (content (feed acking)) = [a] /\ id a <> "").
Proof.
  destruct (alerts_page_sound at_one noon
    [Loaded 0 (0%Z, Replied 200 (Some (Some [alert_row]))); Clicked (Ack alert_of)] acking) as (H1 & H2 & _ & H3 & _).
  - apply (reaches_step alerts_init [Loaded 0 (0%Z, Replied 200 (Some (Some [alert_row])))] _ answered_alerts).
    + apply (reaches_step alerts_init [] _ (start alerts_init)); [constructor|].
      by apply (step_loaded 0 initial _ [] []).
    + apply (step_clicked (P := alerts_page at_one noon)).
  - split_and!; [exact H1|by vm_compute| |].
    + apply H2. assert (acknowledgeIds (content (feed acking)) = ["a1"]) as -> by (by vm_compute). left.
    + revert H3. assert (alerts (content (feed acking)) = [alert_of]) as -> by (by vm_compute).
      intros H3. exists alert_of. split; [done|]. by inversion H3.
Defined.

Definition statuses (d : AlertsData) : list AlertStatus := map status (alerts d).

(** A load that was answered before the acknowledgement and arrives after it
    shows the alert as active again. *)
Lemma late_load_reverts :
  let acked := ack_end "a1" (Replied 200 None) loaded_alerts in
  statuses acked = [acknowledged]
  /\ option_map statuses (alerts_take at_one noon (0%Z, Replied 200 (Some (Some [alert_row]))) acked)
     = Some [active].
Proof. done. Qed.

(** The end of the pause closes the drawer of another alert that was opened
    meanwhile. *)
Definition clicks (l : list Click) (d : AlertsData) : AlertsData :=
  fold_left (fun d c => kept (alerts_click c d)) l d.

Lemma pause_closes_other :
  let d := clicks [Select alert_of; SetRationale "seen"; Submit; CloseDrawer;
                   Select alert_of; SetRationale "half a sentence"] loaded_alerts in
  option_map rationale (selected d) = Some "half a sentence"
  /\ selected (kept (alerts_close (Pause alert_of) (Replied 200 None) d)) = None.
Proof. vm_compute. done. Qed.

(** The rationale the drawer asks for goes nowhere. *)
Lemma rationale_not_sent text :
  starts (alerts_close (Pause alert_of) (Replied 200 None) (clicks [Select alert_of; SetRationale text] loaded_alerts))
  = [AckRequest "a1"] /\ f_body (ack_request "a1") = None.
Proof. done. Qed.

(** An alert that was resolved and never acknowledged is called acknowledged. *)
Lemma resolved_called_acked : action_text (alert_of <| status := resolved |>) = Some "Acked".
Proof. done. Qed.

End AlertsDemo.
