(* ===== verification/Notifications.v ===== *)
(** * The page of notifications

    src/app/notifications/components/NotificationsContent.tsx, as an instance
    of [Feeds]: reading and dismissing change the list at once, marking all
    on the answer; then the laws of the page.  [date_parse] and [local] are
    the parameters of Module DateTime.  The outcome of a request is its
    reply, of which the page reads only the status; messages in a corner of
    the screen are not modelled. *)

From S2P Require Import Prelude JsNumber JsInteger JsString JsValue Http Session Commands RenderModel RenderLaws Client Devices Tables Loader Feeds.
Import DateTime.

(** ** Data *)

Inductive EventType := alert | command | device_state | system.
Inductive ReadState := all | unread | read.

#[export] Instance event_type_eq_dec : EqDecision EventType.
Proof. solve_decision. Defined.

Definition type_str (t : EventType) : string :=
  match t with alert => "alert" | command => "command" | device_state => "device_state" | system => "system" end.

Record NotificationEvent := {
  id : string;
  type : EventType;
  title : string;
  message : string;
  device_id : option string;
  actor : string;
  timestamp : string;
  is_read : bool;
  dismissed : bool;
  severity : string;
}.

#[export] Instance eta_event : Eta NotificationEvent := fun e =>
  {| id := id e; type := type e; title := title e; message := message e; device_id := device_id e; actor := actor e;
     timestamp := timestamp e; is_read := is_read e; dismissed := dismissed e; severity := severity e |}.

#[export] Instance event_eq_dec : EqDecision NotificationEvent.
Proof. solve_decision. Defined.

Record EventRow := {
  row_id : option string;
  row_type : option string;
  row_title : option string;
  row_message : option string;
  row_device_id : option string;
  row_actor : option string;
  row_timestamp : option string;
  row_read : option bool;
  row_dismissed : option bool;
  row_severity : option string;
}.

Record NotificationsResponse := { notifications : option (list EventRow); summary_unread : option num }.

Definition normalizeType (value : option string) : EventType :=
  let normalized := toLowerCase (value ?? "") in
  if normalized === "alert" then alert
  else if normalized === "command" then command
  else if normalized === "device_state" then device_state
  else system.

Definition normalizeSeverity (value : option string) : string :=
  let normalized := toLowerCase (value ?? "") in
  if has ["critical"; "high"; "warning"; "medium"; "low"; "info"] normalized then normalized else "info".

Record NotificationsData := {
  events : list NotificationEvent;
  typeFilter : option EventType;
  readFilter : ReadState;
  search : string;
  dateFrom : string;
  dateTo : string;
  unreadCount : num;
}.

#[export] Instance eta_notifications : Eta NotificationsData := fun d =>
  {| events := events d; typeFilter := typeFilter d; readFilter := readFilter d; search := search d;
     dateFrom := dateFrom d; dateTo := dateTo d; unreadCount := unreadCount d |}.

Definition notifications_init : NotificationsData :=
  {| events := []; typeFilter := None; readFilter := all; search := ""; dateFrom := ""; dateTo := "";
     unreadCount := Num.zero |}.

Definition notifications_url : string := "/api/notifications?limit=120".

Definition event_of (item : EventRow) : NotificationEvent :=
  {| id := trim (row_id item ?? ""); type := normalizeType (row_type item);
     title := or_str (trim (row_title item ?? "Notification")) "Notification";
     message := or_str (trim (row_message item ?? "")) "No details available.";
     device_id := Results.trim_or_null (row_device_id item); actor := or_str (trim (row_actor item ?? "")) "system";
     timestamp := trim (row_timestamp item ?? ""); is_read := row_read item ?? false;
     dismissed := row_dismissed item ?? false; severity := normalizeSeverity (row_severity item) |}.

Definition unread_of (l : list NotificationEvent) : nat := length (List.filter (fun e => negb (is_read e)) l).

Section Zone.
Context (date_parse : string -> option Z) (local : Z -> LocalTime).

(** [toTimeValue(b.timestamp) - toTimeValue(a.timestamp) < 0] *)
Definition newer (a b : NotificationEvent) : bool :=
  (parseIso date_parse (Some (timestamp b)) - parseIso date_parse (Some (timestamp a)) <? 0)%Z.

Definition mapped (rows : list EventRow) : list NotificationEvent :=
  stable_sort newer (List.filter (fun e => id e !== "") (map event_of rows)).

Definition notifications_take (r : Reply NotificationsResponse) (d : NotificationsData) : option NotificationsData :=
  match payload_of r with
  | Some p => let l := mapped (notifications p ?? []) in
              Some (d <| events := l |> <| unreadCount := summary_unread p ?? Num.of_nat (unread_of l) |>)
  | None => None
  end.

(** ** What is shown *)

Definition hhmm (t : LocalTime) : string := pad2 (hours t) +:+ ":" +:+ pad2 (minutes t).

Definition in_window (d : NotificationsData) (iso : string) : bool :=
  if truthy_str (dateFrom d) || truthy_str (dateTo d) then
    match date_parse iso with
    | None => false
    | Some t => let at_ := hhmm (local t) in
                negb (truthy_str (dateFrom d) && String.ltb at_ (dateFrom d))
                && negb (truthy_str (dateTo d) && String.ltb (dateTo d) at_)
    end
  else true.

Definition matches (d : NotificationsData) (e : NotificationEvent) : bool :=
  negb (dismissed e)
  && tab (typeFilter d) (fun t => bool_decide (type e = t))
  && match readFilter d with all => true | unread => negb (is_read e) | read => is_read e end
  && (negb (truthy_str (search d))
      || includes (toLowerCase (title e +:+ " " +:+ message e +:+ " " +:+ (device_id e ?? "") +:+ " " +:+ actor e))
           (toLowerCase (search d)))
  && in_window d (timestamp e).

Definition filtered (d : NotificationsData) : list NotificationEvent := List.filter (matches d) (events d).

(** ** Clicks *)

Inductive Job := ReadRequest (n : string) | AllRequest (t : option EventType) (q : string) | DismissRequest (n : string)
| BulkRequest (ns : list string).

Definition item_url (n : string) : string := "/api/notifications/" +:+ encodeURIComponent n.

(** The requests of a job. *)
Definition job_requests (j : Job) : list FetchRequest :=
  match j with
  | ReadRequest n => [bare_request "POST" (item_url n +:+ "/read")]
  | AllRequest t q =>
      [{| f_method := "POST"; f_url := "/api/notifications"; f_headers := [json_content];
          f_body := Some (json_text [("type", JStr (from_option type_str "all" t)); ("q", JStr q)]) |}]
  | DismissRequest n => [bare_request "DELETE" (item_url n)]
  | BulkRequest ns => map (fun n => bare_request "DELETE" (item_url n)) ns
  end.

Inductive Click :=
| SetType (t : option EventType)
| SetRead (r : ReadState)
| SetSearch (text : string)
| SetFrom (text : string)
| SetTo (text : string)
| Clear
| Open (n : string)
| MarkAll
| Dismiss (n : string)
| DismissFiltered.

Definition shown_as (d : NotificationsData) (n : string) (p : NotificationEvent -> bool) : bool :=
  existsb (fun e => (id e === n) && p e) (filtered d).

Definition markRead (n : string) (d : NotificationsData) : Handled NotificationsData Job :=
  {| kept := d <| events := map (fun e => if id e === n then e <| is_read := true |> else e) (events d) |>
               <| unreadCount := Num.max Num.zero (Num.sub (unreadCount d) (Num.of_Z 1)) |>;
     starts := [ReadRequest n]; reloads := None |}.

Definition dismiss (n : string) (d : NotificationsData) : Handled NotificationsData Job :=
  {| kept := d <| events := List.filter (fun e => id e !== n) (events d) |>; starts := [DismissRequest n]; reloads := None |}.

Definition bulkDismiss (d : NotificationsData) : Handled NotificationsData Job :=
  let ids := map id (filtered d) in
  match ids with
  | [] => only d
  | _ => {| kept := d <| events := List.filter (fun e => negb (has ids (id e))) (events d) |>;
            starts := [BulkRequest ids]; reloads := None |}
  end.

Definition notifications_click (c : Click) (d : NotificationsData) : Handled NotificationsData Job :=
  match c with
  | SetType t => only (d <| typeFilter := t |>)
  | SetRead r => only (d <| readFilter := r |>)
  | SetSearch text => only (d <| search := text |>)
  | SetFrom text => only (d <| dateFrom := text |>)
  | SetTo text => only (d <| dateTo := text |>)
  | Clear => only (d <| search := "" |> <| typeFilter := None |> <| readFilter := all |> <| dateFrom := "" |> <| dateTo := "" |>)
  | Open n => if shown_as d n (fun e => negb (is_read e)) then markRead n d else only d
  | MarkAll => {| kept := d; starts := [AllRequest (typeFilter d) (search d)]; reloads := None |}
  | Dismiss n => if shown_as d n (fun _ => true) then dismiss n d else only d
  | DismissFiltered => bulkDismiss d
  end.

(** The answer; that of [BulkRequest] is [Unreachable] if one of its
    requests was not answered. *)
Definition notifications_close (j : Job) (r : Reply unit) (d : NotificationsData) : Handled NotificationsData Job :=
  let failed := {| kept := d; starts := []; reloads := Some silent |} in
  match j with
  | ReadRequest _ | DismissRequest _ => if reply_ok r then only d else failed
  | AllRequest _ _ =>
      if reply_ok r
      then only (d <| events := map (fun e => e <| is_read := true |>) (events d) |> <| unreadCount := Num.zero |>)
      else failed
  | BulkRequest _ => match r with Loader.Unreachable => failed | Replied _ _ => only d end
  end.

#[export] Instance notifications_page :
  FeedPage NotificationsData (Reply NotificationsResponse) Click Job (Reply unit) :=
  {| take_in := notifications_take; after_failure := fun _ d => d; failure_text := "Failed to load notifications";
     on_click := notifications_click; on_close := notifications_close |}.
End Zone.

(** ** Laws *)

(** Marking an unread event of a list without repeated ids takes one off. *)
Lemma unread_mark n l :
  NoDup (map id l) -> existsb (fun e => (id e === n) && negb (is_read e)) l = true ->
  S (unread_of (map (fun e => if id e === n then e <| is_read := true |> else e) l)) = unread_of l.
Proof.
  unfold unread_of. induction l as [|e l IH]; [done|]. cbn [map]. intros [He Hl]%list.NoDup_cons.
  cbn [existsb]. destruct (id e === n) eqn:E; cbn [andb].
  - apply String.eqb_eq in E as <-. assert (map (fun e0 => if id e0 === id e then e0 <| is_read := true |> else e0) l = l) as Hid.
    { transitivity (map (fun x => x) l); [|apply map_id]. apply map_ext_in. intros x Hx. destruct (id x === id e) eqn:Ex; [|done].
      apply String.eqb_eq in Ex. destruct He. rewrite <- Ex. by apply list_elem_of_fmap_2, list_elem_of_In. }
    rewrite Hid. assert (existsb (fun e0 => (id e0 === id e) && negb (is_read e0)) l = false) as ->.
    { apply not_true_iff_false. intros (x & Hx & [Ex _]%andb_prop)%existsb_exists. apply String.eqb_eq in Ex.
      destruct He. rewrite <- Ex. by apply list_elem_of_fmap_2, list_elem_of_In. }
    rewrite orb_false_r. intros Hr. cbn. by rewrite Hr.
  - intros H. cbn [orb] in H. specialize (IH Hl H). cbn [List.filter]. destruct (negb (is_read e)); cbn; by rewrite <- IH.
Qed.

Lemma unread_filter f l : (unread_of (List.filter f l) <= unread_of l)%nat.
Proof. unfold unread_of. induction l as [|e l IH]; cbn; [done|]. destruct (f e); cbn; destruct (negb (is_read e)); cbn; lia. Qed.

Lemma unread_all l : unread_of (map (fun e => e <| is_read := true |>) l) = 0.
Proof. unfold unread_of. by induction l. Qed.

Lemma ids_filter f l : NoDup (map id l) -> NoDup (map id (List.filter f l)).
Proof.
  induction l as [|e l IH]; [done|]. cbn. intros [He Hl]%list.NoDup_cons. destruct (f e); [|auto]. cbn.
  apply list.NoDup_cons. split; [|auto]. intros (x & Hx & Hin)%list_elem_of_fmap. apply He. rewrite Hx.
  apply list_elem_of_fmap_2. apply list_elem_of_In, filter_In in Hin as [Hin _]. by apply list_elem_of_In.
Qed.

Lemma ids_mark f l : (forall e, id (f e) = id e) -> map id (map f l) = map id l.
Proof. intros Hf. rewrite map_map. by apply map_ext. Qed.

Lemma max_zero z : (0 <= z < 2 ^ 53)%Z -> Num.max Num.zero (Num.of_Z z) = Num.of_Z z.
Proof.
  intros Hz. destruct (decide (z = 0%Z)) as [->|Hne]; [done|].
  destruct (of_Z_positive z) as [Hf Hp]; [unfold safe; lia|]. unfold Num.max. unfold Num.gt in Hp. unfold Num.lt.
  rewrite Hp. by destruct (Num.of_Z z).
Qed.

(** *** Times of day *)

Definition minute (t : LocalTime) : Z := (60 * hours t + minutes t)%Z.

(** The fields of a time of day. *)
Definition clock_fields (t : LocalTime) : Prop := (0 <= hours t < 24)%Z /\ (0 <= minutes t < 60)%Z.

Definition digit (z : Z) : ascii := ascii_of_N (Z.to_N (48 + z)).

Lemma pad2_digits z : (0 <= z < 60)%Z -> pad2 z = String (digit (z / 10)) (String (digit (z mod 10)) "").
Proof.
  intros Hz. assert (forallb (fun n => String.eqb (pad2 (Z.of_nat n))
    (String (digit (Z.of_nat n / 10)) (String (digit (Z.of_nat n mod 10)) ""))) (seq 0 60) = true) as H by (vm_compute; done).
  rewrite forallb_forall in H. specialize (H (Z.to_nat z)). rewrite Z2Nat.id in H by lia. apply String.eqb_eq, H, in_seq. lia.
Qed.

Lemma digit_compare a b : (0 <= a < 10)%Z -> (0 <= b < 10)%Z -> Ascii.compare (digit a) (digit b) = (a ?= b)%Z.
Proof.
  intros Ha Hb. unfold Ascii.compare, digit. rewrite !N_ascii_embedding by lia.
  destruct (Z.compare_spec a b); [apply N.compare_eq_iff|apply N.compare_lt_iff|apply N.compare_gt_iff]; lia.
Qed.

Lemma pad2_compare a b s t : (0 <= a < 60)%Z -> (0 <= b < 60)%Z ->
  String.compare (pad2 a +:+ s) (pad2 b +:+ t) = match (a ?= b)%Z with Eq => String.compare s t | c => c end.
Proof.
  intros Ha Hb. rewrite (pad2_digits a), (pad2_digits b) by done. cbn [String.append String.compare].
  pose proof (Z.div_mod a 10). pose proof (Z.div_mod b 10). pose proof (Z.mod_pos_bound a 10). pose proof (Z.mod_pos_bound b 10).
  rewrite !digit_compare by lia.
  destruct (Z.compare_spec (a / 10) (b / 10)), (Z.compare_spec (a mod 10) (b mod 10)), (Z.compare_spec a b); (done || lia).
Qed.

(** Times of day compare as their texts do. *)
Lemma hhmm_order s t : clock_fields s -> clock_fields t -> String.ltb (hhmm s) (hhmm t) = (minute s <? minute t)%Z.
Proof.
  intros [Hs1 Hs2] [Ht1 Ht2]. unfold hhmm, String.ltb. rewrite pad2_compare by lia. cbn [String.append String.compare].
  assert (Ascii.compare ":" ":" = Eq) as -> by done.
  pose proof (pad2_compare (minutes s) (minutes t) "" "" Hs2 Ht2) as H. rewrite !append_nil_r in H. rewrite H.
  unfold minute. symmetry.
  destruct (Z.compare_spec (hours s) (hours t)), (Z.compare_spec (minutes s) (minutes t)); cbn;
    (apply Z.ltb_lt || apply Z.ltb_ge); lia.
Qed.

Section Zone.
Context (date_parse : string -> option Z) (local : Z -> LocalTime).

Notation page := (notifications_page date_parse local).

(** The ids of a list differ, and a count of unread ones that the service
    sends covers those of the list. *)
Definition honest_list (r : Reply NotificationsResponse) : Prop :=
  forall p, payload_of r = Some p ->
    let l := mapped date_parse (notifications p ?? []) in
    NoDup (map id l) /\ (Z.of_nat (length l) < 2 ^ 53)%Z
    /\ forall u, summary_unread p = Some u ->
         exists z, u = Num.of_Z z /\ (Z.of_nat (unread_of l) <= z < 2 ^ 53)%Z.

(** The badge covers the unread notifications of the list. *)
Definition badge_covers (d : NotificationsData) : Prop :=
  exists z, unreadCount d = Num.of_Z z /\ (Z.of_nat (unread_of (events d)) <= z < 2 ^ 53)%Z.

Definition notifications_inv (d : NotificationsData) (_ : list Job) : Prop :=
  NoDup (map id (events d)) /\ badge_covers d.

Lemma fewer_inv f d js : notifications_inv d js ->
  notifications_inv (d <| events := List.filter f (events d) |>) js.
Proof.
  intros [Hn (z & Hz & Hle)]. split; [by apply ids_filter|]. exists z. split; [done|].
  pose proof (unread_filter f (events d)). unfold unread_of in *. cbn in *. lia.
Qed.

Lemma shown_unread d n :
  shown_as date_parse local d n (fun e => negb (is_read e)) = true ->
  existsb (fun e => (id e === n) && negb (is_read e)) (events d) = true.
Proof.
  unfold shown_as, filtered. intros (e & [He _]%filter_In & Hp)%existsb_exists. apply existsb_exists. by exists e.
Qed.

Lemma mark_inv n d js :
  existsb (fun e => (id e === n) && negb (is_read e)) (events d) = true ->
  notifications_inv d js -> notifications_inv (kept (markRead n d)) (starts (markRead n d) ++ js).
Proof.
  intros Hs [Hn (z & Hz & Hle)]. pose proof (unread_mark n _ Hn Hs) as Hu. split.
  - cbn. rewrite ids_mark; [done|]. intros e. by destruct (id e === n).
  - exists (z - 1)%Z. cbn -[Num.sub Num.max Num.of_Z Num.zero unread_of]. rewrite Hz, of_Z_sub, max_zero by lia. split; [done|]. unfold unread_of in *. cbn in *. lia.
Qed.

#[export] Instance notifications_invariant : FeedInvariant (P := page) honest_list notifications_inv.
Proof.
  split.
  - intros r d d' js Hr _. cbn. unfold notifications_take. destruct (payload_of r) as [p|] eqn:E; [|done]. intros [= <-].
    destruct (Hr p E) as (Hn & Hlen & Hu). split; [done|]. cbn.
    destruct (summary_unread p) as [u|]; [destruct (Hu u) as (z & -> & Hz); [done|]; by exists z|].
    eexists. split; [done|]. split; [done|]. unfold unread_of. cbn.
    pose proof (filter_length_le (fun e => negb (is_read e)) (mapped date_parse (notifications p ?? []))). cbn in *. lia.
  - done.
  - intros c d js Hd. destruct c as [| | | | | |n| |n|]; cbn; try exact Hd.
    + destruct (shown_as _ _ _ _ _) eqn:E; [|exact Hd]. by apply mark_inv; [apply shown_unread|].
    + destruct (shown_as _ _ _ _ _); [|exact Hd]. by apply fewer_inv.
    + unfold bulkDismiss. destruct (map id _); [exact Hd|]. by apply fewer_inv.
  - intros j r d js js' Hd. assert (notifications_inv d (js ++ js')) as Hd' by exact Hd.
    destruct j; cbn; try (destruct (reply_ok r); exact Hd').
    + destruct (reply_ok r); [|exact Hd']. split; [cbn; by rewrite ids_mark; [apply Hd|]|].
      exists 0%Z. split; [done|]. pose proof (unread_all (events d)). unfold unread_of in *. cbn in *. lia.
    + destruct r; exact Hd'.
Qed.

Context (Hlocal : forall t, clock_fields (local t)).

(** The text of a field of times, which may be empty. *)
Definition time_text (o : option LocalTime) : string := from_option hhmm "" o.

Definition valid_time (o : option LocalTime) : Prop := forall t, o = Some t -> clock_fields t.

(** A time no earlier than the first and no later than the second bound. *)
Definition between (f u : option LocalTime) (t : LocalTime) : Prop :=
  (forall x, f = Some x -> (minute x <= minute t)%Z) /\ (forall x, u = Some x -> (minute t <= minute x)%Z).

Lemma hhmm_truthy t : truthy_str (hhmm t) = true.
Proof. unfold hhmm. by destruct (pad2 (hours t)). Qed.

Lemma bound_spec (o : option LocalTime) (before : string -> bool) (late : LocalTime -> Prop) :
  valid_time o -> (forall x, clock_fields x -> before (hhmm x) = false <-> late x) ->
  negb (truthy_str (time_text o) && before (time_text o)) = true <-> forall x, o = Some x -> late x.
Proof.
  intros Ho Hb. destruct o as [x|]; cbn [time_text from_option]; [|by split].
  rewrite hhmm_truthy, negb_true_iff. cbn [andb]. rewrite Hb by (by apply Ho). naive_solver.
Qed.

Lemma window_spec d f u iso :
  valid_time f -> valid_time u -> dateFrom d = time_text f -> dateTo d = time_text u ->
  in_window date_parse local d iso = true
  <-> (f = None /\ u = None) \/ exists t, date_parse iso = Some t /\ between f u (local t).
Proof.
  intros Hf Hu Ef Eu. unfold in_window. rewrite Ef, Eu.
  destruct (truthy_str (time_text f) || truthy_str (time_text u)) eqn:E; cycle 1.
  { apply orb_false_iff in E as [E1 E2]. destruct f, u; cbn in E1, E2; rewrite ?hhmm_truthy in *; try done.
    split; [by left|done]. }
  assert (~ (f = None /\ u = None)) as Hne by (intros [-> ->]; done).
  destruct (date_parse iso) as [t|]; [|split; [done|naive_solver]]. cbv zeta.
  rewrite andb_true_iff, (bound_spec f (fun x => String.ltb (hhmm (local t)) x) (fun x => (minute x <= minute (local t))%Z)),
    (bound_spec u (fun x => String.ltb x (hhmm (local t))) (fun x => (minute (local t) <= minute x)%Z)); try done.
  - unfold between. naive_solver.
  - intros x Hx. by rewrite hhmm_order, Z.ltb_ge.
  - intros x Hx. by rewrite hhmm_order, Z.ltb_ge.
Qed.

(** What the filters ask of a notification; [f] and [u] are the times of the
    window. *)
Definition asked_for (d : NotificationsData) (f u : option LocalTime) (e : NotificationEvent) : Prop :=
  dismissed e = false
  /\ (forall t, typeFilter d = Some t -> type e = t)
  /\ (readFilter d = unread -> is_read e = false) /\ (readFilter d = read -> is_read e = true)
  /\ (search d <> "" ->
       includes (toLowerCase (title e +:+ " " +:+ message e +:+ " " +:+ (device_id e ?? "") +:+ " " +:+ actor e))
         (toLowerCase (search d)) = true)
  /\ ((f = None /\ u = None) \/ exists t, date_parse (timestamp e) = Some t /\ between f u (local t)).

Lemma filtered_spec d f u e :
  valid_time f -> valid_time u -> dateFrom d = time_text f -> dateTo d = time_text u ->
  e ∈ filtered date_parse local d <-> e ∈ events d /\ asked_for d f u e.
Proof.
  intros Hf Hu Ef Eu. unfold filtered, asked_for. rewrite !list_elem_of_In, filter_In.
  unfold matches. rewrite !andb_true_iff, (window_spec d f u) by done.
  rewrite orb_true_iff, !negb_true_iff. unfold truthy_str. rewrite negb_false_iff, String.eqb_eq.
  assert (tab (typeFilter d) (fun t => bool_decide (type e = t)) = true <-> forall t, typeFilter d = Some t -> type e = t) as ->.
  { destruct (typeFilter d); cbn; rewrite ?bool_decide_eq_true; naive_solver. }
  assert (match readFilter d with all => true | unread => negb (is_read e) | read => is_read e end = true
    <-> (readFilter d = unread -> is_read e = false) /\ (readFilter d = read -> is_read e = true)) as ->.
  { destruct (readFilter d), (is_read e); naive_solver. }
  destruct (decide (search d = "")); naive_solver.
Qed.

(** The answers after which the page loads the list again. *)
Definition fails (j : Job) (r : Reply unit) : Prop :=
  match j with BulkRequest _ => r = Loader.Unreachable | _ => reply_ok r = false end.

Lemma close_reloads j r d :
  (fails j r /\ reloads (notifications_close j r d) = Some silent /\ kept (notifications_close j r d) = d)
  \/ (~ fails j r /\ reloads (notifications_close j r d) = None).
Proof. destruct j; cbn; [..|destruct r]; try destruct (reply_ok r); naive_solver. Qed.

(** [C26] The page of notifications: in every run whose answers are honest
    (ids differ, and a count the service sends covers the list), the badge is
    a whole number no less than the unread notifications of the list, however
    reading, dismissing, refreshing and polling interleave, and an indicator
    is on only while a load is under way.  Shown are exactly the
    notifications that are not dismissed and pass the filters: the type, the
    read state, the search text and, when a first or a last time of day is
    given, a readable time on that side of each, both included.  The list is
    loaded again exactly when reading or dismissing one or marking all was
    refused or lost, or when one of the requests of a bulk dismissal was lost;
    marking all, once accepted, leaves nothing unread. *)
Theorem notifications_page_sound (es : list (Event (Answer := Reply NotificationsResponse) (Outcome := Reply unit)))
    (w : Run) :
  reaches (P := page) notifications_init es w -> List.Forall (honest_event honest_list) es ->
  feed_ok (P := page) w
  /\ badge_covers (content (feed w))
  /\ (forall d f u e, valid_time f -> valid_time u -> dateFrom d = time_text f -> dateTo d = time_text u ->
        e ∈ filtered date_parse local d <-> e ∈ events d /\ asked_for d f u e)
  /\ (forall j r d, reloads (notifications_close j r d) = Some silent <-> fails j r)
  /\ (forall t q r d, reply_ok r = true ->
        let d' := kept (notifications_close (AllRequest t q) r d) in unread_of (events d') = 0 /\ unreadCount d' = Num.zero).
Proof.
  intros Hw Hes. assert (notifications_inv (content (feed w)) (map snd (jobs w))) as [_ Hb].
  { eapply (feed_invariant (P := page) honest_list notifications_inv); [exact Hw|done|].
    split; [constructor|]. by exists 0%Z. }
  split_and!; [by eapply feed_reaches_ok|done|apply filtered_spec| |].
  - intros j r d. destruct (close_reloads j r d) as [(Hf & Hr & _)|[Hf Hr]]; rewrite Hr; [done|]. by split.
  - intros t q r d H. cbn -[unread_of]. rewrite H. split; [apply unread_all|done].
Qed.
End Zone.

(** ** Examples *)

Module NotificationsDemo.

Definition noon (_ : Z) : LocalTime :=
  {| fullYear := 2026; month := 1; date := 1; hours := 12; minutes := 5; secs := 9 |}.
Definition at_one (_ : string) : option Z := Some 1%Z.

Definition row (n kind : string) : EventRow :=
  {| row_id := Some n; row_type := Some kind; row_title := None;
     row_message := None; row_device_id := None; row_actor := None;
     row_timestamp := Some "t"; row_read := None; row_dismissed := None;
     row_severity := None |}.
Definition answer : Reply NotificationsResponse :=
  Replied 200 (Some {| notifications := Some [row "n1" "alert"; row "n2" "command"];
                       summary_unread := None |}).
Definition loaded_events : NotificationsData :=
  default notifications_init (notifications_take at_one answer notifications_init).

(** The list arrives; the two notifications are of five past noon, and so
    within a window that begins at noon and does not end. *)
Definition listed_run : Run (Data := NotificationsData) (Job := Job) :=
  {| feed := load_finish (P := notifications_page at_one noon) initial answer
               (load_begin initial (feed_init notifications_init)); loads := []; jobs := []; next := 1 |}.
Definition since_noon : NotificationsData := loaded_events <| dateFrom := "12:00" |>.
Definition twelve : LocalTime :=
  {| fullYear := 2026; month := 1; date := 1; hours := 12; minutes := 0; secs := 0 |}.

Lemma listed_run_reached :
  reaches (P := notifications_page at_one noon) notifications_init ([] ++ [Loaded 0 answer]) listed_run.
Proof. eapply reaches_step; [apply reaches_start|]. by apply (step_loaded 0 initial answer [] []). Qed.

Lemma answer_honest :
  List.Forall (honest_event (Click := Click) (Outcome := Reply unit) (honest_list at_one)) [Loaded 0 answer].
Proof.
  repeat constructor; injection H as <-; [vm_compute; by apply (bool_decide_unpack _)|vm_compute; done|done].
Qed.

Lemma notifications_page_sound_witness :
  badge_covers (content (feed listed_run))
  /\ map id (filtered at_one noon since_noon) = ["n1"; "n2"]
  /\ forall e, e ∈ filtered at_one noon since_noon -> asked_for at_one noon since_noon (Some twelve) None e.
Proof.
  destruct (notifications_page_sound at_one noon ltac:(intros t; split; done) _ _ listed_run_reached answer_honest)
    as (_ & Hb & Hf & _).
  split; [exact Hb|split; [vm_compute; reflexivity|]]. intros e He.
  refine (proj2 (proj1 (Hf since_noon (Some twelve) None e _ _ _ _) He)); [|intros t [=]|reflexivity|reflexivity].
  intros t [= <-]. split; done.
Defined.

(** Dismissing an unread notification leaves it in the badge. *)
Lemma badge_keeps_dismissed :
  let d := kept (dismiss "n1" loaded_events) in
  unread_of (events d) = 1 /\ unreadCount d = Num.of_Z 2.
Proof. vm_compute. done. Qed.

(** Marking all sends the filters, and then marks what they left out. *)
Lemma all_marked_beyond_filter :
  let d := loaded_events <| typeFilter := Some alert |> in
  starts (notifications_click at_one noon MarkAll d)
    = [AllRequest (Some alert) ""]
  /\ unread_of (events
       (kept (notifications_close (AllRequest (Some alert) "") (Replied 200 None) d))) = 0.
Proof. vm_compute. done. Qed.

(** A bulk dismissal the service refuses passes for done: nothing is loaded
    again. *)
Lemma refused_bulk_unnoticed ns d :
  reloads (notifications_close (BulkRequest ns) (Replied 500 None) d) = None.
Proof. done. Qed.

(** A window over midnight shows nothing. *)
Lemma overnight_window_empty :
  in_window at_one noon (loaded_events <| dateFrom := "22:00" |> <| dateTo := "13:00" |>) "t"
  = false.
Proof. vm_compute. done. Qed.

End NotificationsDemo.
