(* ===== verification/Viewer.v ===== *)
(** * The viewer's console

    src/app/viewer-console/components/ViewerDashboard.tsx, as an instance of
    [Feeds], and its laws.  [date_parse] and [local] are the parameters of
    Module DateTime, [now] is the clock.  Pairing a device is Module
    Pairing's; here it ends in refreshing the user, whose role may name
    another home. *)

From S2P Require Import Prelude JsNumber JsInteger JsRounding JsString JsValue Auth Http Session Commands RenderModel RenderLaws Client Devices Tables Loader Feeds.
Import DateTime.

Import Results(NumberOrString).
Import Rows(DeviceStatus, online, offline, quarantined, degraded, ComplianceStatus, compliant, non_compliant, drift,
  normalizeRisk, risk_within, one).

#[local] Instance device_status_eq_dec : EqDecision DeviceStatus.
Proof. solve_decision. Defined.
#[local] Instance compliance_status_eq_dec : EqDecision ComplianceStatus.
Proof. solve_decision. Defined.

Inductive ComplianceSignal := pass | warn | fail_signal.

(** A row of the answer; a missing field and null are both [None]. *)
Record DeviceApiRow := {
  device_id : option string;
  owner_email : option string;
  device_name : option string;
  lifecycle_state : option string;
  compliance_status : option string;
  resolved_compliance_status : option string;
  resolved_presence_state : option string;
  risk_score : option NumberOrString;
  last_seen : option string;
  os_build : option string;
  resolved_os_build : option string;
}.

Record Device := {
  id : string;
  hostname : string;
  status : DeviceStatus;
  riskScore : num;
  compliance : ComplianceStatus;
  lastSeenIso : option string;
  os : string;
  owner : string;
}.

Record ComplianceItem := { control : string; score : num; signal : ComplianceSignal; lastChecked : string }.

Definition normalizeStatus (value : option string) : DeviceStatus :=
  let normalized := toLowerCase (value ?? "") in
  if (normalized === "online") || (normalized === "active") then online
  else if normalized === "quarantined" then quarantined
  else if (normalized === "degraded") || (normalized === "stale") then degraded
  else offline.

Definition normalizeCompliance (value : option string) : ComplianceStatus :=
  let normalized := toLowerCase (value ?? "") in
  if normalized === "compliant" then compliant
  else if (normalized === "drift") || (normalized === "non_compliant") then drift
  else non_compliant.

Definition scoreToSignal (score : num) : ComplianceSignal :=
  if Num.ge score (Num.of_Z 90) then pass else if Num.ge score (Num.of_Z 70) then warn else fail_signal.

Definition percent (part whole : nat) : num :=
  if Nat.leb whole 0 then Num.zero else percentage (Num.of_nat part) (Num.of_nat whole).

(** [a?.trim() || b?.trim() || d] *)
Definition trimmed2 (a b : option string) (d : string) : string := or_str (trim (a ?? "")) (or_str (trim (b ?? "")) d).

Definition device_of (row : DeviceApiRow) : option Device :=
  let id := trim (device_id row ?? "") in
  if negb (truthy_str id) then None
  else Some {| id := id; hostname := or_str (trim (device_name row ?? "")) id;
               status := normalizeStatus (resolved_presence_state row ??? lifecycle_state row);
               riskScore := normalizeRisk (risk_score row);
               compliance := normalizeCompliance (resolved_compliance_status row ??? compliance_status row);
               lastSeenIso := last_seen row; os := trimmed2 (resolved_os_build row) (os_build row) "Unknown";
               owner := or_str (trim (owner_email row ?? "")) "Unknown" |}.

Inductive Tab := devices_tab | compliance_tab.

(** [location] is where the page sent the browser. *)
Record ViewerData := {
  search : string;
  devices : list Device;
  activeTab : Tab;
  showPairModal : bool;
  location : option string;
}.

#[export] Instance eta_viewer : Eta ViewerData := fun d =>
  {| search := search d; devices := devices d; activeTab := activeTab d; showPairModal := showPairModal d;
     location := location d |}.

Definition viewer_init : ViewerData :=
  {| search := ""; devices := []; activeTab := devices_tab; showPairModal := false; location := None |}.

Definition devices_url : string := "/api/devices?per_page=200".

(** [loadDevices] after its response. *)
Definition viewer_take (r : Reply (option (list DeviceApiRow))) (d : ViewerData) : option ViewerData :=
  match payload_of r with
  | Some rows => Some (d <| devices := omap device_of (rows ?? []) |>)
  | None => None
  end.

Definition filteredDevices (d : ViewerData) : list Device :=
  let q := toLowerCase (search d) in
  List.filter (fun x => negb (truthy_str (search d)) || includes (toLowerCase (hostname x)) q
                        || includes (toLowerCase (id x)) q || includes (toLowerCase (owner x)) q) (devices d).

Definition onlineCount (d : ViewerData) : nat := count_if (fun x => bool_decide (status x = online)) (devices d).
Definition compliantCount (d : ViewerData) : nat := count_if (fun x => bool_decide (compliance x = compliant)) (devices d).
Definition driftCount (d : ViewerData) : nat := count_if (fun x => negb (bool_decide (compliance x = compliant))) (devices d).
Definition highRiskCount (d : ViewerData) : nat := count_if (fun x => Num.ge (riskScore x) (Num.of_decimal false 6 (-1))) (devices d).
Definition complianceRate (d : ViewerData) : num := percent (compliantCount d) (length (devices d)).

Section Zone.
Context (date_parse : string -> option Z) (local : Z -> LocalTime).

Definition toRelativeTime (now : Z) (iso : option string) : string :=
  match iso with
  | Some iso' =>
      if negb (truthy_str iso') then "Never"
      else match date_parse iso' with
           | None => "-"
           | Some ts =>
               let diffSeconds := Z.max 0 ((now - ts) / 1000) in
               let diffMinutes := (diffSeconds / 60)%Z in
               let diffHours := (diffMinutes / 60)%Z in
               if (diffSeconds <? 60)%Z then Num.digits diffSeconds +:+ "s ago"
               else if (diffMinutes <? 60)%Z then Num.digits diffMinutes +:+ "m ago"
               else if (diffHours <? 24)%Z then Num.digits diffHours +:+ "h ago"
               else Num.digits (diffHours / 24) +:+ "d ago"
           end
  | None => "Never"
  end.

Definition recent (now : Z) (x : Device) : bool :=
  match time_of date_parse (lastSeenIso x) with Some ts => (now - ts <=? 30 * 60 * 1000)%Z | None => false end.

Definition checkedInRecentlyCount (now : Z) (d : ViewerData) : nat := count_if (recent now) (devices d).

Definition complianceItems (now : Z) (d : ViewerData) : list ComplianceItem :=
  let n := length (devices d) in
  let item name s := {| control := name; score := s; signal := scoreToSignal s; lastChecked := clock (local now) |} in
  [item "Device Compliance Rate" (complianceRate d);
   item "Policy Drift Exposure" (Num.sub (Num.of_Z 100) (percent (driftCount d) n));
   item "High Risk Device Exposure" (Num.sub (Num.of_Z 100) (percent (highRiskCount d) n));
   item "Fleet Online Coverage" (percent (onlineCount d) n);
   item "Recent Check-in Coverage" (percent (checkedInRecentlyCount now d) n)].
End Zone.

(** ** Clicks *)

Inductive Click := SetSearch (text : string) | SetTab (t : Tab) | OpenPairing | ClosePairing | Paired.

(** [onPaired] waits for the user. *)
Inductive Job := RefreshUser.

Definition viewer_click (c : Click) (d : ViewerData) : Handled ViewerData Job :=
  match c with
  | SetSearch text => only (d <| search := text |>)
  | SetTab t => only (d <| activeTab := t |>)
  | OpenPairing => only (d <| showPairModal := true |>)
  | ClosePairing => only (d <| showPairModal := false |>)
  | Paired => if showPairModal d then {| kept := d; starts := [RefreshUser]; reloads := None |} else only d
  end.

(** The outcome is the role of the user, if there is one. *)
Definition viewer_close (j : Job) (nextRole : option UserRole) (d : ViewerData) : Handled ViewerData Job :=
  match nextRole with
  | Some role => only (d <| location := Some (roleHomePath role) |>)
  | None => {| kept := d <| showPairModal := false |>; starts := []; reloads := Some initial |}
  end.

#[export] Instance viewer_page : FeedPage ViewerData (Reply (option (list DeviceApiRow))) Click Job (option UserRole) :=
  {| take_in := viewer_take; after_failure := fun _ d => d <| devices := [] |>; failure_text := "Failed to load data";
     on_click := viewer_click; on_close := viewer_close |}.

(** ** Laws *)

(** A whole number from 0 to 100. *)
Definition score_ok (x : num) : Prop := exists z, (0 <= z <= 100)%Z /\ x = Num.of_Z z.

Lemma percent_ok part whole : (part <= whole)%nat -> (Z.of_nat whole < 2 ^ 53)%Z -> score_ok (percent part whole).
Proof.
  intros Hp Hw. unfold percent. destruct (Nat.leb_spec whole 0); [by exists 0%Z|].
  destruct (percentage_whole (Z.of_nat part) (Z.of_nat whole)) as (z & Hz & E); [lia|unfold safe; lia|].
  exists z. split; [done|]. unfold Num.of_nat. rewrite E. unfold Num.of_sign_Z.
  destruct (Z.eqb_spec z 0) as [->|]; done.
Qed.

Lemma complement_ok x : score_ok x -> score_ok (Num.sub (Num.of_Z 100) x).
Proof. intros (z & Hz & ->). exists (100 - z)%Z. split; [lia|]. apply of_Z_sub; lia. Qed.

Definition device_ok (x : Device) : Prop := id x <> "" /\ Num.within Num.zero Rows.one (riskScore x) = true.

Definition viewer_inv (d : ViewerData) (_ : list Job) : Prop := List.Forall device_ok (devices d).

Lemma device_of_ok row x : device_of row = Some x -> device_ok x.
Proof.
  unfold device_of. destruct (truthy_str _) eqn:E; [|done]. intros [= <-]. split; cbn.
  - by apply truthy_str_spec.
  - apply Rows.risk_within.
Qed.

#[export] Instance viewer_invariant : FeedInvariant (P := viewer_page) (fun _ => True) viewer_inv.
Proof.
  split.
  - intros r d d' js _ _. cbn. unfold viewer_take. destruct (payload_of r) as [rows|]; [|done]. intros [= <-].
    apply List.Forall_forall. intros x Hx%list_elem_of_In%list_elem_of_omap. destruct Hx as (row & _ & Hx).
    by eapply device_of_ok.
  - intros mode d js _. constructor.
  - intros c d js Hd. destruct c; cbn; try exact Hd. by destruct (showPairModal d).
  - intros [] o d js js' Hd. by destruct o.
Qed.

(** [C34] The viewer's console: in every run the devices shown have an id and a
    risk from 0 to 1, and the page says that it is loading only while it is;
    a load that fails leaves no devices, and a message.  Of fewer than 2^53
    devices every score of compliance is a whole number from 0 to 100, and
    those that comply and those that do not are all of them.  After pairing
    the browser goes to the home of the user's role, or the list is loaded
    again. *)
Theorem viewer_page_sound (es : list (Event (Answer := Reply (option (list DeviceApiRow))) (Outcome := option UserRole)))
    (w : Run) :
  reaches (P := viewer_page) viewer_init es w ->
  feed_ok (P := viewer_page) w
  /\ List.Forall device_ok (devices (content (feed w)))
  /\ (forall mode r s, payload_of r = None ->
        let s' := load_finish (P := viewer_page) mode r s in
        devices (content s') = [] /\ loadError s' = Some "Failed to load data")
  /\ (forall date_parse local now d, (Z.of_nat (length (devices d)) < 2 ^ 53)%Z ->
        List.Forall (fun x => score_ok (score x) /\ signal x = scoreToSignal (score x)) (complianceItems date_parse local now d))
  /\ (forall d, compliantCount d + driftCount d = length (devices d))
  /\ (forall role d, location (kept (viewer_close RefreshUser (Some role) d)) = Some (roleHomePath role))
  /\ (forall d, let h := viewer_close RefreshUser None d in
        reloads h = Some initial /\ showPairModal (kept h) = false /\ location (kept h) = location d).
Proof.
  intros Hw. split_and!.
  - by eapply feed_reaches_ok.
  - eapply (feed_invariant (P := viewer_page) (fun _ => True) viewer_inv); [exact Hw| |constructor].
    by apply List.Forall_forall; intros [] _.
  - intros mode r s Hr s'. unfold s'. unfold load_finish. cbn. unfold viewer_take. by rewrite Hr.
  - intros date_parse local now d Hlen.
    assert (forall f, score_ok (percent (count_if f (devices d)) (length (devices d)))) as H.
    { intros f. apply percent_ok; [apply count_if_le|done]. }
    repeat constructor; try (apply complement_ok); apply H.
  - intros d. apply count_if_split.
  - done.
  - done.
Qed.

(** ** Examples *)

Module ViewerDemo.

(** A device whose risk is out of range is loaded, with a row that names
    none. *)
Definition row_of (id : string) (risk : Z) : DeviceApiRow :=
  {| device_id := Some id; owner_email := None; device_name := None; lifecycle_state := Some "ONLINE";
     compliance_status := Some "compliant"; resolved_compliance_status := None; resolved_presence_state := None;
     risk_score := Some (Results.ANumber (Num.of_Z risk)); last_seen := None; os_build := None; resolved_os_build := None |}.
Definition rows_sent : Reply (option (list DeviceApiRow)) := Replied 200 (Some (Some [row_of "d1" 7; row_of " " 0])).
Definition viewing : Run (Data := ViewerData) (Job := Job) :=
  {| feed := load_finish (P := viewer_page) initial rows_sent (load_begin initial (feed_init viewer_init)); loads := []; jobs := []; next := 1 |}.

Lemma viewer_page_sound_witness :
  feed_ok (P := viewer_page) viewing
  /\ (exists x, devices (content (feed viewing)) = [x] /\ device_ok x)
  /\ List.Forall (fun x => score_ok (score x))
       (complianceItems (fun _ => None) (fun _ => {| fullYear := 2026; month := 1; date := 1; hours := 12; minutes := 5; secs := 9 |})
          0 (content (feed viewing))).
Proof.
  destruct (viewer_page_sound [Loaded 0 rows_sent] viewing) as (H1 & H2 & _ & H3 & _).
  - apply (reaches_step viewer_init [] _ (start viewer_init)); [constructor|]. by apply (step_loaded 0 initial _ [] []).
  - split_and!.
    + exact H1.
    + destruct (devices (content (feed viewing))) as [|x l] eqn:E; [by vm_compute in E|].
      exists x. split; [by vm_compute in E; injection E as <- <-|by inversion H2].
    + eapply List.Forall_impl; [|apply H3; vm_compute; reflexivity]. by intros x [Hx _].
Defined.

(** A device that does not comply is shown as drifting, and one of unknown
    state as not complying; the pages of devices have it the other way. *)
Lemma viewer_compliance_differs :
  normalizeCompliance (Some "non_compliant") = Rows.drift
  /\ Rows.normalizeCompliance (Some "non_compliant") = Rows.non_compliant
  /\ normalizeCompliance (Some "unknown") = Rows.non_compliant
  /\ Rows.normalizeCompliance (Some "unknown") = Rows.drift.
Proof. done. Qed.

(** Without devices the rate of compliance is a failure, and the exposure to
    drift a pass. *)
Lemma empty_fleet_signals date_parse local now :
  map signal (complianceItems date_parse local now viewer_init)
  = [fail_signal; pass; pass; fail_signal; fail_signal].
Proof. vm_compute. done. Qed.

End ViewerDemo.
