(* ===== verification/MobileDevices.v ===== *)
(** * The page of mobile devices

    src/app/mobile-devices/components/MobileDevicesContent.tsx, as an instance
    of [Feeds], and its laws.  [date_parse] is the parameter of Module
    DateTime, [url_pathname] the one of Module Results, [now] is the clock. *)

From stdpp Require Import sets.
From S2P Require Import Prelude JsNumber JsInteger JsRounding JsString JsValue Auth Http Session Commands RenderModel RenderLaws Client Devices Tables Loader Feeds.
Import DateTime.
Import Results(CommandListRowApi, NormalizedCommandResult, mapCommandListRow, queuedAt, originChannel, CommandOriginChannel,
  mobile_app, control_ui).

Inductive SyncState := synced | idle | stale | offline.

#[export] Instance sync_eq_dec : EqDecision SyncState.
Proof. solve_decision. Defined.

Record MobileLinkedDeviceApi := {
  link_device_id : option string;
  link_device_name : option string;
  linked_at : option string;
  linked_via : option string;
}.

Record MobileDeviceApi := {
  api_id : option string;
  device_fingerprint : option string;
  api_platform : option string;
  os_version : option string;
  device_model : option string;
  app_version : option string;
  first_seen_at : option string;
  last_seen_at : option string;
  linked_devices : option (list MobileLinkedDeviceApi);
}.

Record Link := { deviceId : string; deviceName : string; linkedAt : option string; linkedVia : string }.

Record MobileDeviceRow := {
  id : string;
  fingerprint : string;
  platform : string;
  osVersion : string;
  model : string;
  appVersion : string;
  firstSeenAt : option string;
  lastSeenAt : option string;
  linkedDevices : list Link;
}.

Definition syncStateLabel (s : SyncState) : string :=
  match s with synced => "Synced" | idle => "Idle" | stale => "Stale" | offline => "Offline" end.

(** [String(v ?? '').trim()] and [... || d] *)
Definition text (v : option string) : string := trim (v ?? "").
Definition text_or (v : option string) (d : string) : string := or_str (text v) d.

(** [replace(/[^a-z0-9-]/g, '')] *)
Definition plain_chars (s : string) : string :=
  sflat (fun c => if is_lower c || is_digit c || Ascii.eqb c "-" then String c "" else "") s.

Definition fallback_id (row : MobileDeviceApi) : string :=
  plain_chars (join "-" (List.filter (fun part => part !== "")
    [toLowerCase (text (api_platform row)); toLowerCase (text (device_model row)); toLowerCase (text (first_seen_at row))])).

Definition link_of (link : MobileLinkedDeviceApi) : Link :=
  {| deviceId := text (link_device_id link);
     deviceName := text_or (link_device_name link) (text_or (link_device_id link) "Unknown device");
     linkedAt := linked_at link; linkedVia := text_or (linked_via link) "pair_confirm" |}.

Definition mapMobileDevice (row : MobileDeviceApi) : MobileDeviceRow :=
  let fingerprint := text (device_fingerprint row) in
  let base := fallback_id row in
  {| id := text_or (api_id row) (or_str fingerprint (if base !== "" then base else "mobile-unknown"));
     fingerprint := fingerprint; platform := text_or (api_platform row) "Unknown";
     osVersion := text_or (os_version row) "-"; model := text_or (device_model row) "Unspecified model";
     appVersion := text_or (app_version row) "-"; firstSeenAt := first_seen_at row; lastSeenAt := last_seen_at row;
     linkedDevices := List.filter (fun link => deviceId link !== "") (map link_of (linked_devices row ?? [])) |}.

(** 'all' is [None]. *)
Record MobileData := {
  devices : list MobileDeviceRow;
  commands : list CommandListRowApi;
  expanded : list string;
  search : string;
  syncFilter : option SyncState;
}.

#[export] Instance eta_mobile : Eta MobileData := fun d =>
  {| devices := devices d; commands := commands d; expanded := expanded d; search := search d; syncFilter := syncFilter d |}.

Definition mobile_init : MobileData :=
  {| devices := []; commands := []; expanded := []; search := ""; syncFilter := None |}.

Definition mobile_urls : list string := ["/api/mobile-devices"; "/api/commands?limit=300"].

Record Answers := { mobileRes : Reply (option (list MobileDeviceApi)); commandRes : Reply (option (list CommandListRowApi)) }.

(** [fetchData] after its responses: without the devices, or with a body
    that is no JSON, it throws; a refused list of commands is empty. *)
Definition mobile_take (a : Answers) (d : MobileData) : option MobileData :=
  match mobileRes a, commandRes a with
  | Loader.Unreachable, _ | _, Loader.Unreachable => None
  | _, _ =>
      match payload_of (mobileRes a) with
      | None => None
      | Some rows =>
          let taken l := Some (d <| devices := map mapMobileDevice (rows ?? []) |> <| commands := l |>) in
          if reply_ok (commandRes a)
          then match payload_of (commandRes a) with Some l => taken (l ?? []) | None => None end
          else taken []
      end
  end.

Inductive Click := SetSearch (text : string) | SetSync (s : option SyncState) | Toggle (n : string).

Definition mobile_click (c : Click) (d : MobileData) : Handled MobileData Empty_set :=
  match c with
  | SetSearch text => only (d <| search := text |>)
  | SetSync s => only (d <| syncFilter := s |>)
  | Toggle n => only (d <| expanded := set_toggle n (expanded d) |>)
  end.

#[export] Instance mobile_page : FeedPage MobileData Answers Click Empty_set unit :=
  {| take_in := mobile_take;
     after_failure := fun mode d => match mode with initial => d <| devices := [] |> <| commands := [] |> | _ => d end;
     failure_text := "Failed to load data"; on_click := mobile_click; on_close := fun j _ _ => match j with end |}.

(** ** What is shown *)

Section Zone.
Context (date_parse : string -> option Z) (url_pathname : string -> option string) (now : Z).

Definition toSyncState (lastSeenAt : option string) : SyncState :=
  match time_of date_parse lastSeenAt with
  | None => offline
  | Some lastSeenMs =>
      let deltaMs := (now - lastSeenMs)%Z in
      if (deltaMs <=? 2 * 60 * 1000)%Z then synced
      else if (deltaMs <=? 15 * 60 * 1000)%Z then idle
      else if (deltaMs <=? 24 * 60 * 60 * 1000)%Z then stale
      else offline
  end.

Definition commands24h (d : MobileData) : list NormalizedCommandResult :=
  let cutoff := (now - 24 * 60 * 60 * 1000)%Z in
  List.filter (fun row => match time_of date_parse (queuedAt row) with Some ts => (cutoff <=? ts)%Z | None => false end)
    (map (mapCommandListRow url_pathname) (commands d)).

Definition matches (d : MobileData) (device : MobileDeviceRow) : bool :=
  let term := toLowerCase (trim (search d)) in
  match syncFilter d with Some s => bool_decide (toSyncState (lastSeenAt device) = s) | None => true end
  && (negb (truthy_str term) || includes (toLowerCase (model device)) term || includes (toLowerCase (platform device)) term
      || includes (toLowerCase (fingerprint device)) term
      || existsb (fun link => includes (toLowerCase (deviceId link)) term || includes (toLowerCase (deviceName link)) term)
           (linkedDevices device)).

Definition filtered (d : MobileData) : list MobileDeviceRow := List.filter (matches d) (devices d).

Definition in_state (s : SyncState) (device : MobileDeviceRow) : bool := bool_decide (toSyncState (lastSeenAt device) = s).

(** The counts of the summary. *)
Record Summary := { total : nat; n_synced : nat; n_idle : nat; n_stale : nat; n_offline : nat }.

Definition summary_add (c : Summary) (device : MobileDeviceRow) : Summary :=
  match toSyncState (lastSeenAt device) with
  | synced => {| total := total c; n_synced := n_synced c + 1; n_idle := n_idle c; n_stale := n_stale c; n_offline := n_offline c |}
  | idle => {| total := total c; n_synced := n_synced c; n_idle := n_idle c + 1; n_stale := n_stale c; n_offline := n_offline c |}
  | stale => {| total := total c; n_synced := n_synced c; n_idle := n_idle c; n_stale := n_stale c + 1; n_offline := n_offline c |}
  | offline => {| total := total c; n_synced := n_synced c; n_idle := n_idle c; n_stale := n_stale c; n_offline := n_offline c + 1 |}
  end.

Definition summary (d : MobileData) : Summary :=
  fold_left summary_add (filtered d)
    {| total := length (filtered d); n_synced := 0; n_idle := 0; n_stale := 0; n_offline := 0 |}.

(** The commands of a row, by channel: the app's, this console's, others. *)
Definition relatedCommands (d : MobileData) (device : MobileDeviceRow) : list NormalizedCommandResult :=
  let linkedIds := set_of (map deviceId (linkedDevices device)) in
  List.filter (fun command => has linkedIds (Results.deviceId command)) (commands24h d).

Definition row_counts (d : MobileData) (device : MobileDeviceRow) : Z * Z * Z :=
  let related := relatedCommands d device in
  let sent c := Z.of_nat (count_if (fun command => Results.channel_str (originChannel command) === c) related) in
  let mobileSent := sent "mobile_app" in
  let controlUiSent := sent "control_ui" in
  (mobileSent, controlUiSent, Z.of_nat (length related) - mobileSent - controlUiSent)%Z.
End Zone.

(** ** Laws *)

Definition row_ok (x : MobileDeviceRow) : Prop :=
  id x <> "" /\ model x <> "" /\ List.Forall (fun l => deviceId l <> "" /\ deviceName l <> "") (linkedDevices x).

Lemma or_str_ne a b : b <> "" -> or_str a b <> "".
Proof. intros Hb. unfold or_str. destruct (truthy_str a) eqn:E; [by apply truthy_str_spec|done]. Qed.

Lemma map_row_ok row : row_ok (mapMobileDevice row).
Proof.
  split_and!; cbn -[fallback_id].
  - apply or_str_ne, or_str_ne. destruct (fallback_id row === "") eqn:E; cbn -[fallback_id]; [done|by apply String.eqb_neq].
  - by apply or_str_ne.
  - apply List.Forall_forall. intros l [Hl Hne]%filter_In. apply in_map_iff in Hl as (x & <- & _).
    apply negb_true_iff, String.eqb_neq in Hne. split; [done|]. cbn. by do 2 apply or_str_ne.
Qed.

Definition mobile_inv (d : MobileData) (_ : list Empty_set) : Prop :=
  List.Forall row_ok (devices d) /\ NoDup (expanded d).

#[export] Instance mobile_invariant : FeedInvariant (P := mobile_page) (fun _ => True) mobile_inv.
Proof.
  assert (forall rows, List.Forall row_ok (map mapMobileDevice rows)) as Hmap.
  { intros rows. apply List.Forall_map, List.Forall_forall. intros x _. apply map_row_ok. }
  split.
  - intros a d d' js _ [_ He]. cbn. unfold mobile_take. destruct (mobileRes a) eqn:Em, (commandRes a) eqn:Ec; try done.
    destruct (payload_of (Replied code body)); [|done]. cbv zeta. destruct (reply_ok _); [destruct (payload_of _); [|done]|];
      intros [= <-]; by split; [apply Hmap|].
  - intros [] d js [Hd He]; by split.
  - intros [] d js [Hd He]; split; try done. by apply set_toggle_nodup.
  - intros [].
Qed.

Section Zone.
Context (date_parse : string -> option Z) (url_pathname : string -> option string) (now : Z).

Notation toSyncState := (toSyncState date_parse now).
Notation summary := (summary date_parse now).
Notation filtered := (filtered date_parse now).

Lemma in_state_of s x : in_state date_parse now s x = bool_decide (toSyncState (lastSeenAt x) = s).
Proof. done. Qed.

Lemma summary_fold l c :
  let s := fold_left (summary_add date_parse now) l c in
  total s = total c /\ n_synced s = n_synced c + count_if (in_state date_parse now synced) l
  /\ n_idle s = n_idle c + count_if (in_state date_parse now idle) l
  /\ n_stale s = n_stale c + count_if (in_state date_parse now stale) l
  /\ n_offline s = n_offline c + count_if (in_state date_parse now offline) l.
Proof.
  unfold count_if. revert c. induction l as [|x l IH]; intros c; cbn zeta; [cbn; lia|]. cbn [fold_left].
  destruct (IH (summary_add date_parse now c x)) as (-> & -> & -> & -> & ->). cbn [List.filter].
  rewrite !in_state_of. unfold summary_add. destruct (toSyncState (lastSeenAt x)); repeat case_bool_decide; try done; cbn; lia.
Qed.

Lemma states_partition l :
  count_if (in_state date_parse now synced) l + count_if (in_state date_parse now idle) l
  + count_if (in_state date_parse now stale) l + count_if (in_state date_parse now offline) l = length l.
Proof.
  unfold count_if. induction l as [|x l IH]; [done|]. cbn [List.filter length]. rewrite !in_state_of.
  destruct (toSyncState (lastSeenAt x)); repeat case_bool_decide; try done; cbn; lia.
Qed.

(** The rank of a state: how long ago the device was seen. *)
Definition sync_rank (s : SyncState) : Z := match s with synced => 0 | idle => 1 | stale => 2 | offline => 3 end.

Lemma channels_disjoint l :
  (count_if (fun c => Results.channel_str (Results.originChannel c) === "mobile_app") l
   + count_if (fun c => Results.channel_str (Results.originChannel c) === "control_ui") l <= length l)%nat.
Proof.
  unfold count_if. induction l as [|x l IH]; [done|]. cbn [List.filter length].
  destruct (Results.originChannel x); cbn; lia.
Qed.

(** The page of mobile devices: in every run each row has an id, a model
    and links with an id and a name, and an indicator is on only while a load
    is under way.  The counts of the summary are those of the rows shown,
    state by state, and add up to their number; a device seen later is in no
    worse a state.  The commands of a row are of the last day and of its
    links, and the three counts by channel are not negative and add up to
    them.  If the devices cannot be loaded, the list is emptied on the first
    load and kept on every other; if only the commands are refused, the
    devices are shown without. *)
Theorem mobile_page_sound (es : list (Event (Answer := Answers) (Outcome := unit))) (w : Run) :
  reaches (P := mobile_page) mobile_init es w ->
  feed_ok (P := mobile_page) w
  /\ List.Forall row_ok (devices (content (feed w))) /\ NoDup (expanded (content (feed w)))
  /\ (forall d, let s := summary d in
        total s = length (filtered d) /\ n_synced s + n_idle s + n_stale s + n_offline s = total s
        /\ n_synced s = count_if (in_state date_parse now synced) (filtered d)
        /\ n_offline s = count_if (in_state date_parse now offline) (filtered d))
  /\ (forall a b t u, time_of date_parse a = Some t -> time_of date_parse b = Some u -> (t <= u)%Z ->
        (sync_rank (toSyncState b) <= sync_rank (toSyncState a))%Z)
  /\ (forall d x c, c ∈ relatedCommands date_parse url_pathname now d x ->
        Results.deviceId c ∈ map deviceId (linkedDevices x)
        /\ exists t, time_of date_parse (Results.queuedAt c) = Some t /\ (now - 24 * 60 * 60 * 1000 <= t)%Z)
  /\ (forall d x, let '(a, b, c) := row_counts date_parse url_pathname now d x in
        (0 <= a /\ 0 <= b /\ 0 <= c /\ a + b + c = Z.of_nat (length (relatedCommands date_parse url_pathname now d x)))%Z)
  /\ (forall mode a s, reply_ok (mobileRes a) = false ->
        content (load_finish (P := mobile_page) mode a s)
        = match mode with
          | initial => (content s) <| devices := [] |> <| commands := [] |>
          | _ => content s
          end)
  /\ (forall mode rows code body s, reply_ok (Replied code body) = false ->
        let a := {| mobileRes := Replied 200 (Some rows); commandRes := Replied code body |} in
        let s' := load_finish (P := mobile_page) mode a s in
        devices (content s') = map mapMobileDevice (rows ?? []) /\ commands (content s') = [] /\ loadError s' = None).
Proof.
  intros Hw. assert (mobile_inv (content (feed w)) (map snd (jobs w))) as [Hd He].
  { eapply (feed_invariant (P := mobile_page) (fun _ => True) mobile_inv); [exact Hw| |by split; constructor].
    by apply List.Forall_forall; intros [] _. }
  split_and!; [by eapply feed_reaches_ok|done|done|..].
  - intros d. cbv zeta. unfold summary.
    destruct (summary_fold (filtered d) {| total := length (filtered d); n_synced := 0; n_idle := 0; n_stale := 0; n_offline := 0 |})
      as (-> & -> & -> & -> & ->). pose proof (states_partition (filtered d)). cbn [total n_synced n_idle n_stale n_offline]. lia.
  - intros a b t u Ha Hb Htu. unfold MobileDevices.toSyncState. rewrite Ha, Hb. cbv zeta.
    repeat case_match; cbn; try lia; repeat match goal with
      | H : (_ <=? _)%Z = true |- _ => apply Z.leb_le in H
      | H : (_ <=? _)%Z = false |- _ => apply Z.leb_gt in H end; lia.
  - intros d x c. unfold relatedCommands, commands24h. rewrite list_elem_of_In, filter_In, filter_In.
    intros [[_ Ht] Hl]. split; [by apply elem_of_set_of, has_true|].
    destruct (time_of date_parse (Results.queuedAt c)) as [t|]; [|done]. exists t. split; [done|]. by apply Z.leb_le.
  - intros d x. unfold row_counts. cbv zeta.
    pose proof (channels_disjoint (relatedCommands date_parse url_pathname now d x)). lia.
  - intros mode a s H. unfold load_finish. cbn. unfold mobile_take.
    destruct (mobileRes a), (commandRes a); try by destruct mode. rewrite (refused_payload _ H). by destruct mode.
  - intros mode rows code body s H. unfold load_finish. cbn -[reply_ok]. unfold mobile_take. cbn [mobileRes commandRes].
    by rewrite H.
Qed.
End Zone.

(** ** Examples *)

Module MobileDemo.

Definition at_one (_ : string) : option Z := Some 1%Z.

Lemma mobile_page_sound_witness : feed_ok (P := mobile_page) (start mobile_init).
Proof.
  destruct (mobile_page_sound at_one (fun _ => None) 0 [] (start mobile_init)) as (H & _);
    [constructor|exact H].
Defined.

Definition phone : MobileDeviceApi :=
  {| api_id := None; device_fingerprint := None; api_platform := Some "Android";
     os_version := None; device_model := Some "Pixel 8"; app_version := None;
     first_seen_at := None; last_seen_at := None; linked_devices := None |}.

(** Two phones of a model without id and fingerprint get one id: they expand
    together. *)
Lemma phones_share_id :
  let d := default mobile_init
    (mobile_take {| mobileRes := Replied 200 (Some (Some [phone; phone])); commandRes := Replied 403 None |}
       mobile_init) in
  map id (devices d) = ["android-pixel8"; "android-pixel8"].
Proof. vm_compute. done. Qed.

End MobileDemo.
