(* ===== verification/SignInPage.v ===== *)
(** * The page for signing in

    src/app/sign-up-login-screen/components/LoginContent.tsx: asking for a
    one-time code, the countdown until another may be asked for, verifying
    the code and going to the home of the user's role; then its laws, and
    its composition with the route of [Session] and the guard of [Browser].
    Bodies of answers are read dynamically, as the code does.  A request
    that is not answered rejects; the page does not catch that. *)

From stdpp Require Import gmap.
From S2P Require Import Prelude JsNumber JsInteger JsString JsValue JsonText Auth Http Session Proxy SessionLaws ProxyLaws OAuth Routes Urls Browser Site.

(** [location] is where the page sent the browser. *)
Record State := {
  email : string;
  otp : string;
  challengeId : string;
  resendAfter : num;
  sendingOtp : bool;
  verifyingOtp : bool;
  location : option string;
}.

#[export] Instance eta_sign_in : Eta State := fun s =>
  {| email := email s; otp := otp s; challengeId := challengeId s; resendAfter := resendAfter s;
     sendingOtp := sendingOtp s; verifyingOtp := verifyingOtp s; location := location s |}.

Definition init : State :=
  {| email := ""; otp := ""; challengeId := ""; resendAfter := Num.zero; sendingOtp := false; verifyingOtp := false;
     location := None |}.

Record Toast := { good : bool; headline : string; description : option string }.

Definition canRequestOtp (s : State) : bool := truthy_str (trim (email s)) && negb (sendingOtp s).
Definition canVerifyOtp (s : State) : bool :=
  truthy_str (trim (email s)) && truthy_str (trim (otp s)) && truthy_str (challengeId s) && negb (verifyingOtp s).
Definition otpSent (s : State) : bool := truthy_str (challengeId s).

(** ** The countdown *)

Definition counting (s : State) : bool := negb (Num.le (resendAfter s) Num.zero).

Definition tick (s : State) : State :=
  s <| resendAfter := if Num.gt (resendAfter s) Num.zero then Num.sub (resendAfter s) (Num.of_Z 1) else Num.zero |>.

Definition resendLabel (s : State) : string :=
  if Num.le (resendAfter s) Num.zero then "Resend OTP"
  else "Resend in 0:" +:+ padStart 2 "0" (Num.to_string (resendAfter s)).

(** ** Errors in the address, and signing in with Google *)

Definition error_description (error : string) : string :=
  if error === "google_not_configured" then "Google sign-in is not configured in this environment."
  else if error === "google_state_invalid" then "Google sign-in state expired. Please try again."
  else smap (fun c => if Ascii.eqb c "_" then " "%char else c) error.

Definition continueWithGoogle (next : option string) : string :=
  match next with
  | Some next => if truthy_str next then "/api/auth/google/start?next=" +:+ encodeURIComponent next
                 else "/api/auth/google/start"
  | None => "/api/auth/google/start"
  end.

(** ** Asking for a code *)

Definition ui_post (url : string) (body : obj) : FetchRequest :=
  {| f_method := "POST"; f_url := url; f_headers := [json_content]; f_body := Some (json_text body) |}.

Definition otp_request (s : State) : FetchRequest :=
  ui_post "/api/auth/request-otp" [("email", JStr (trim (email s)))].

Definition is_text (v : jsval) (s : string) : bool := match v with JStr t => t === s | _ => false end.

Definition otp_refusal (message : jsval) : string :=
  if is_text message "rate_limited" then "Too many requests. Please wait a minute and try again."
  else if is_text message "control_plane_unreachable" then
    "Auth service is unreachable. Ensure control-plane is running."
  else if is_text message "auth_service_unavailable" then
    "Auth service is starting up. Please try again in a few seconds."
  else "Please check your email and try again.".

Definition sent_toast : Toast :=
  {| good := true; headline := "OTP sent";
     description := Some "If this email is allowed, you'll receive a verification code shortly." |}.
Definition send_failed (text : string) : Toast :=
  {| good := false; headline := "Could not send OTP"; description := Some text |}.

(** The rest of [requestOtp], its [finally] included; an exception on the way
    is not caught. *)
Definition otp_answer (r : option FetchResponse) (s : State) : State * option Toast :=
  let done_ := s <| sendingOtp := false |> in
  match r with
  | None => (done_, None)
  | Some r =>
      let payload := json_or_empty r in
      if negb (ok r) then
        (done_, match member payload "message" with Ok m => Some (send_failed (otp_refusal m)) | Exn _ => None end)
      else
        match member_str payload "challenge_id" "" with
        | Exn _ => (done_, None)
        | Ok next =>
            if negb (truthy_str next) then (done_, Some (send_failed "Unexpected server response."))
            else match to_number (vnullish (prop payload "resend_after_seconds") (JNum (Num.of_Z 60))) with
                 | Exn _ => (done_ <| challengeId := next |>, None)
                 | Ok n => (done_ <| challengeId := next |> <| resendAfter := Num.max Num.zero n |>, Some sent_toast)
                 end
        end
  end.

(** ** Verifying it *)

Definition verify_fields (s : State) : obj :=
  [("email", JStr (trim (email s))); ("challengeId", JStr (challengeId s)); ("otp", JStr (trim (otp s)))].
Definition verify_otp (s : State) : FetchRequest := ui_post "/api/auth/verify-otp" (verify_fields s).

Definition invalid_toast (message : jsval) : Toast :=
  {| good := false; headline := "Invalid OTP";
     description := Some (if is_text message "invalid_otp"
                          then "Code is invalid or expired. Request a new OTP and try again."
                          else "Unable to complete sign in.") |}.
Definition welcome_toast : Toast := {| good := true; headline := "Authenticated successfully"; description := None |}.

(** The answer of verify-otp: the role to go on with, or the end. *)
Definition verify_answer (r : option FetchResponse) : option Toast + jsval :=
  match r with
  | None => inl None
  | Some r =>
      let payload := json_or_empty r in
      if negb (ok r) then inl (match member payload "message" with Ok m => Some (invalid_toast m) | Exn _ => None end)
      else match member payload "user" with
           | Ok user => inr (vnullish (prop user "role") (JStr "viewer"))
           | Exn _ => inl None
           end
  end.

(** The role /api/auth/me names, if it does. *)
Definition me_role (r : option FetchResponse) (role : jsval) : jsval :=
  match r with
  | Some r =>
      if ok r then
        let mePayload := default JNull (resp_json r) in
        let named := prop (prop mePayload "user") "role" in
        if truthy (prop mePayload "authenticated") && truthy named then named else role
      else role
  | None => role
  end.

(** [roleHomePath] on any value. *)
Definition home_of (role : jsval) : string :=
  if is_text role "admin" then "/dashboard" else if is_text role "operator" then "/operator-console" else "/viewer-console".

Definition me_answer (role : jsval) (r : option FetchResponse) (s : State) : State :=
  s <| location := Some (home_of (me_role r role)) |> <| verifyingOtp := false |>.

(** ** Runs *)

(** [value.replace(/\D/g, '').slice(0, 6)] *)
Definition otp_input (value : string) : string :=
  stake 6 (sflat (fun c => if is_digit c then String c "" else "") value).

(** What the page waits for. *)
Inductive Task := Asking | Verifying | AskingMe (role : jsval).

Record Run := { page : State; tasks : list Task }.

Inductive Event :=
| TypeEmail (text : string)
| TypeOtp (text : string)
| PressSend
| PressContinue
| Tick
| SignedIn (role : UserRole)
| Answered (r : option FetchResponse).

Definition typed (s : State) (w : Run) : Run := {| page := s; tasks := tasks w |}.

Inductive step : Run -> Event -> Run -> Prop :=
| step_email text w : step w (TypeEmail text) (typed ((page w) <| email := text |>) w)
| step_otp text w : step w (TypeOtp text) (typed ((page w) <| otp := otp_input text |>) w)
| step_send w : canRequestOtp (page w) = true -> Num.gt (resendAfter (page w)) Num.zero = false ->
    step w PressSend {| page := (page w) <| sendingOtp := true |>; tasks := Asking :: tasks w |}
| step_continue w : canVerifyOtp (page w) = true ->
    step w PressContinue {| page := (page w) <| verifyingOtp := true |>; tasks := Verifying :: tasks w |}
| step_tick w : counting (page w) = true -> step w Tick (typed (tick (page w)) w)
| step_signed_in role w : step w (SignedIn role) (typed ((page w) <| location := Some (roleHomePath role) |>) w)
| step_asked r before after w : tasks w = before ++ Asking :: after ->
    step w (Answered r) {| page := (otp_answer r (page w)).1; tasks := before ++ after |}
| step_verified r before after w : tasks w = before ++ Verifying :: after ->
    step w (Answered r)
      match verify_answer r with
      | inr role => {| page := page w; tasks := before ++ AskingMe role :: after |}
      | inl _ => {| page := (page w) <| verifyingOtp := false |>; tasks := before ++ after |}
      end
| step_me role r before after w : tasks w = before ++ AskingMe role :: after ->
    step w (Answered r) {| page := me_answer role r (page w); tasks := before ++ after |}.

Definition start : Run := {| page := init; tasks := [] |}.

Inductive reaches : list Event -> Run -> Prop :=
| reaches_start : reaches [] start
| reaches_step es e w w' : reaches es w -> step w e w' -> reaches (es ++ [e]) w'.

(** ** Laws *)

Definition asks (t : Task) : bool := match t with Asking => true | _ => false end.
Definition verifies (t : Task) : bool := negb (asks t).
Definition tasks_of (f : Task -> bool) (l : list Task) : nat := length (List.filter f l).

Lemma tasks_app f l l' : tasks_of f (l ++ l') = tasks_of f l + tasks_of f l'.
Proof. unfold tasks_of. by rewrite filter_app, length_app. Qed.

Lemma tasks_cons f t l : tasks_of f (t :: l) = (if f t then 1 else 0) + tasks_of f l.
Proof. unfold tasks_of. cbn. by destruct (f t). Qed.

Definition bit (b : bool) : nat := if b then 1 else 0.

Definition code_ok (code : string) : Prop := sforall is_digit code = true /\ (String.length code <= 6)%nat.

Lemma otp_input_ok value : code_ok (otp_input value).
Proof.
  unfold otp_input. set (d := sflat _ value). assert (sforall is_digit d = true) as Hd.
  { unfold d. clear d. induction value as [|c s IH]; [done|]. cbn [sflat]. destruct (is_digit c) eqn:E; [|done].
    cbn. by rewrite E. }
  clearbody d. assert (forall n, sforall is_digit (stake n d) = true /\ (String.length (stake n d) <= n)%nat) as H.
  { induction d as [|c d IH]; intros [|n]; cbn; try (split; [done|lia]). cbn in Hd. apply andb_prop in Hd as [Hc Hd].
    destruct (IH Hd n) as [H1 H2]. rewrite Hc, H1. split; [done|lia]. }
  apply (H 6).
Qed.

(** A verification the service accepted, or a user who was signed in. *)
Definition entered (es : list Event) (role : jsval) : Prop :=
  exists r, Answered (Some r) ∈ es /\ ok r = true /\ verify_answer (Some r) = inr role.

Lemma entered_more es e role : entered es role -> entered (es ++ [e]) role.
Proof. intros (r & Hr & H). exists r. split; [apply elem_of_app; by left|done]. Qed.

Lemma verify_role r role : verify_answer r = inr role -> exists r', r = Some r' /\ ok r' = true.
Proof. destruct r as [r|]; [|done]. cbn. destruct (ok r) eqn:E; [by exists r|done]. Qed.

Definition home_page (p : string) : Prop := exists role, p = roleHomePath role.

Lemma home_of_page role : home_page (home_of role).
Proof.
  unfold home_of. destruct (is_text role "admin"); [by exists admin|].
  destruct (is_text role "operator"); [by exists operator|by exists viewer].
Qed.

Lemma home_of_role role : home_of (JStr (role_str role)) = roleHomePath role.
Proof. by destruct role. Qed.

Record run_ok (es : list Event) (w : Run) : Prop := {
  one_asking : tasks_of asks (tasks w) = bit (sendingOtp (page w));
  one_verifying : tasks_of verifies (tasks w) = bit (verifyingOtp (page w));
  code_fits : code_ok (otp (page w));
  role_earned role : AskingMe role ∈ tasks w -> entered es role;
  home_earned p : location (page w) = Some p ->
    home_page p /\ ((exists role, SignedIn role ∈ es) \/ exists role, entered es role);
}.

Lemma otp_answer_frame r s :
  let s' := (otp_answer r s).1 in
  sendingOtp s' = false /\ verifyingOtp s' = verifyingOtp s /\ otp s' = otp s /\ email s' = email s /\ location s' = location s.
Proof.
  unfold otp_answer. destruct r as [r|]; [|done]. cbv zeta. destruct (negb (ok r)); [done|].
  destruct (member_str _ _ _); [|done]. destruct (negb (truthy_str a)); [done|]. by destruct (to_number _).
Qed.

Lemma earned_more es e w :
  run_ok es w ->
  (forall role, AskingMe role ∈ tasks w -> entered (es ++ [e]) role)
  /\ forall p, location (page w) = Some p ->
       home_page p /\ ((exists role, SignedIn role ∈ es ++ [e]) \/ exists role, entered (es ++ [e]) role).
Proof.
  intros [_ _ _ Hr Hh]. split; [intros role H; apply entered_more, Hr, H|]. intros p Hp.
  destruct (Hh p Hp) as (H1 & [[role H2]|[role H2]]); (split; [done|]); [left|right]; exists role.
  - apply elem_of_app. by left.
  - by apply entered_more.
Qed.

Lemma sign_in_step_ok es w e w' : step w e w' -> run_ok es w -> run_ok (es ++ [e]) w'.
Proof.
  intros Hs Hw. pose proof (earned_more es e w Hw) as [Hr Hh]. destruct Hw as [Ha Hv Hc _ _].
  destruct Hs as [| |w Hq _|w Hq| |role w|r before after w Ht|r before after w Ht|role r before after w Ht].
  - by split.
  - split; [done..|apply otp_input_ok|done|done].
  - unfold canRequestOtp in Hq. apply andb_prop in Hq as [_ Hq%negb_true_iff]. split; cbn; [|done|done| |done].
    + unfold tasks_of in *. cbn. by rewrite Ha, Hq.
    + intros role [H|H]%elem_of_cons; [done|auto].
  - unfold canVerifyOtp in Hq. apply andb_prop in Hq as [_ Hq%negb_true_iff]. split; cbn; [done| |done| |done].
    + unfold tasks_of in *. cbn. by rewrite Hv, Hq.
    + intros role [H|H]%elem_of_cons; [done|auto].
  - by split.
  - split; [done..|]. cbn. intros p [= <-]. split; [by exists role|]. left. exists role. apply elem_of_app. right. left.
  - destruct (otp_answer_frame r (page w)) as (F1 & F2 & F3 & _ & F5). cbn zeta in *.
    rewrite Ht, tasks_app, tasks_cons in Ha, Hv. cbn [asks verifies negb] in Ha, Hv.
    split; cbn [page tasks]; rewrite ?tasks_app, ?F1, ?F2, ?F3, ?F5; try done.
    + destruct (sendingOtp (page w)); cbn in *; lia.
    + intros role H. apply Hr. rewrite Ht. apply elem_of_app in H. apply elem_of_app. rewrite elem_of_cons. tauto.
  - rewrite Ht, tasks_app, tasks_cons in Ha, Hv. cbn [asks verifies negb] in Ha, Hv.
    destruct (verify_answer r) as [o|role] eqn:E; split; cbn [page tasks]; rewrite ?tasks_app, ?tasks_cons; cbn [asks verifies negb]; try done.
    + destruct (verifyingOtp (page w)); cbn in *; lia.
    + intros role H. apply Hr. rewrite Ht. apply elem_of_app in H. apply elem_of_app. rewrite elem_of_cons. tauto.
    + intros role' [H|[[= ->]|H]%elem_of_cons]%elem_of_app.
      * apply Hr. rewrite Ht. apply elem_of_app. by left.
      * destruct (verify_role r role E) as (r' & -> & Hok). exists r'. split; [apply elem_of_app; right; left|done].
      * apply Hr. rewrite Ht. apply elem_of_app. right. by right.
  - rewrite Ht, tasks_app, tasks_cons in Ha, Hv. cbn [asks verifies negb] in Ha, Hv.
    split; cbn [page tasks]; rewrite ?tasks_app; try done.
    + destruct (verifyingOtp (page w)); cbn in *; lia.
    + intros role' H. apply Hr. rewrite Ht. apply elem_of_app in H. apply elem_of_app. rewrite elem_of_cons. tauto.
    + cbn. intros p [= <-]. split; [apply home_of_page|]. right. exists role. apply Hr. rewrite Ht. apply elem_of_app. right. left.
Qed.

(** The countdown ends after as many ticks as the service asked for. *)
Lemma countdown_ends n s : (Z.of_nat n < 2 ^ 53)%Z -> resendAfter s = Num.of_Z (Z.of_nat n) ->
  resendAfter (Nat.iter n tick s) = Num.zero.
Proof.
  revert s. induction n as [|n IH]; intros s Hn Hs; [exact Hs|]. rewrite Nat.iter_succ_r. apply IH; [lia|].
  change (resendAfter (tick s))
    with (if Num.gt (resendAfter s) Num.zero then Num.sub (resendAfter s) (Num.of_Z 1) else Num.zero). rewrite Hs.
  destruct (of_Z_positive (Z.of_nat (S n))) as [_ ->]; [unfold safe; lia|]. rewrite of_Z_sub by lia. f_equal. lia.
Qed.

(** The page for signing in: in every run at most one code is being asked
    for and at most one verified, and the buttons show it; the code typed is
    at most six digits; and the page sends the browser to the home of a role,
    only after a user was known or the service accepted a verification.  A
    refusal or a lost request for a code leaves the challenge as it was and
    lets the user try again, and the countdown of n seconds ends after n
    ticks. *)
Theorem sign_in_page_sound (es : list Event) (w : Run) :
  reaches es w ->
  run_ok es w
  /\ (forall r s, match r with Some r => ok r = false | None => True end ->
        let s' := (otp_answer r s).1 in
        challengeId s' = challengeId s /\ resendAfter s' = resendAfter s /\ sendingOtp s' = false)
  /\ (forall n s, (Z.of_nat n < 2 ^ 53)%Z -> resendAfter s = Num.of_Z (Z.of_nat n) ->
        counting (Nat.iter n tick s) = false).
Proof.
  intros Hw. split_and!.
  - induction Hw as [|es e w w' _ IH Hs]; [|by eapply sign_in_step_ok].
    split; cbn; try done; [by split; [|cbn; lia]|]. intros role H. by apply elem_of_nil in H.
  - intros [r|] s H; [|done]. unfold otp_answer. by rewrite H.
  - intros n s Hn Hs. unfold counting. by rewrite (countdown_ends n s).
Qed.

(** ** The page, the route and the guard together *)

Section Together.
Context (env : string -> option string).

Lemma verify_fields_read s : json_parse (json_text (verify_fields s)) = Some (JObj (verify_fields s)).
Proof. by apply json_text_read. Qed.

(** The user an accepted verification names. *)
Lemma verified_user uid mail name role y :
  uid <> "" -> mail <> "" -> trim mail = mail -> normalizeRole (Some y) = Some role ->
  exists u, mapMePayload (JObj [("user_id", JStr uid); ("email", JStr mail); ("display_name", JStr name);
                                ("user_role", JStr y); ("two_factor_enabled", JBool false)]) = Ok (Some u)
    /\ u_role u = role /\ u_id u = JStr uid /\ u_email u = JStr mail.
Proof.
  intros Hu Hm Ht Hr. unfold mapMePayload, member_str, member, str_or. cbn -[trim normalizeRole]. rewrite Hr.
  apply truthy_str_spec in Hu, Hm. rewrite Hu, Hm. destruct (truthy_str (trim name)) eqn:En; cbn -[trim].
  - rewrite En. eexists. by split_and!.
  - rewrite Ht, Hm. eexists. by split_and!.
Qed.

Lemma cookie_role_text v c : authCookiesFromPayload v = Ok (Some c) ->
  exists x, member_str v "user_role" "" = Ok x /\ normalizeRole (Some x) = Some (cookieRole c).
Proof.
  unfold authCookiesFromPayload. destruct (member_str _ "jwt" _); [cbn|done].
  destruct (member_str _ "refresh_token" _); [cbn|done]. destruct (member_str _ "session_id" _); [cbn|done].
  destruct (member_str _ "user_role" _) as [x|]; [cbn|done]. destruct (normalizeRole (Some x)) eqn:E; [|done].
  destruct (_ && _); [|done]. intros [= <-]. eauto.
Qed.

Lemma role_text_same v x role :
  member_str v "user_role" "" = Ok x -> normalizeRole (Some x) = Some role ->
  exists y, member_str v "user_role" (role_str role) = Ok y /\ normalizeRole (Some y) = Some role.
Proof.
  unfold member_str, member, str_or. destruct (is_nullish v); [done|]. cbn. unfold vnullish.
  destruct (is_nullish (prop v "user_role")); [|by eauto]. intros [= <-] Hr. done.
Qed.

(** What the route answers once the control plane has accepted. *)
Definition accepted_response (q : NextRequest) (c : AuthCookies) (u : MappedUser) : NextResponse :=
  attachAuthCookies env (json_response [("ok", JBool true); ("user", JObj (user_obj u))] 200) c (Some q).

Lemma accepted_delivered q c u : json_plain (u_id u) -> json_plain (u_email u) ->
  verify_answer (Some (delivered (accepted_response q c u))) = inr (JStr (role_str (u_role u))).
Proof.
  intros Hi He. unfold verify_answer, json_or_empty, resp_json, delivered, ok. cbn [status resp_body].
  change (res_status (accepted_response q c u)) with 200%Z. change (negb _) with false. cbv iota.
  change (res_body (accepted_response q c u)) with (JsonBody (JObj [("ok", JBool true); ("user", JObj (user_obj u))])).
  cbn [mbind option_bind]. change (stringify "" "" (JObj [("ok", JBool true); ("user", JObj (user_obj u))]))
    with (Some (json_text [("ok", JBool true); ("user", JObj (user_obj u))])). cbn [mbind option_bind].
  rewrite json_text_read by (cbn; by split_and!). done.
Qed.

Lemma accepted_view q c u https j :
  (shouldUseSecureCookies env (Some q) = true -> https = true) ->
  view (apply_cookies https j (res_cookies (accepted_response q c u)))
  = (Some (jwt c), Some (refreshToken c), Some (sessionId c), Some (role_str (cookieRole c))).
Proof.
  intros Hsec. unfold accepted_response. rewrite view_apply, ops_view_auth. cbn.
  destruct (shouldUseSecureCookies _ _) eqn:E; [by rewrite (Hsec eq_refl)|done].
Qed.

Lemma view_opens j t r sid role :
  view j = (Some t, r, sid, Some (role_str role)) -> t <> "" ->
  Middleware.middleware (Browser.page j (roleHomePath role)) = Middleware.next.
Proof. intros [= H1 _ _ H4] Ht. by eapply home_opens. Qed.

Lemma view_turned_away j role :
  view j = (None, None, None, None) ->
  Middleware.middleware (Browser.page j (roleHomePath role))
  = Middleware.redirect (Middleware.login_url (Middleware.nextUrl (Browser.page j (roleHomePath role)))).
Proof. intros [= H1 _ _ _]. unfold Middleware.middleware. cbn. rewrite H1. by destruct role. Qed.

(** *** Asking who is signed in *)

Definition me_body (u : MappedUser) : NextResponse :=
  json_response [("authenticated", JBool true); ("user", JObj (user_obj u))] 200.

(** The answers of the route: the control plane cannot be reached, it denies
    the session, or it names a user, whose role is then stored. *)
Inductive me_result (q : NextRequest) : NextResponse -> Prop :=
| me_failed msg : me_result q (auth_failure msg 503)
| me_denied st : st = 401%Z \/ st = 502%Z -> me_result q (unauthenticated st)
| me_named u jwt' rt' : jwt' <> "" ->
    me_result q (attachTokenCookies env (me_body u) jwt' rt' (cookie_value q cookie_sessionId) (Some (u_role u)) (Some q))
| me_named_only u : me_result q (set_cookie cookie_role (role_cookie (shouldUseSecureCookies env (Some q)) (u_role u)) (me_body u)).

Lemma me_results q : all_results (me_result q) (me_GET env q).
Proof.
  unfold me_GET. case_match eqn:Ej; [apply me_denied; by left|]. apply negb_false_iff, truthy_str_spec in Ej.
  apply all_results_any. intros [first|]; [|apply me_failed].
  eapply all_results_bind; [by apply me_retry_tokens|]. intros [a|] Ha; [|apply me_failed].
  destruct (Ha a eq_refl) as [Hjwt _]. unfold me_respond. results.
  - apply me_failed.
  - apply me_denied. by left.
  - rewrite normalizeRole_role_str. by apply me_named.
  - apply me_named_only.
  - apply me_denied. by right.
Qed.

(** What the browser has after the answer to /api/auth/me: the answer itself,
    which is the framework's error when the handler throws, and the cookies. *)
Definition answer_seen (crash : FetchResponse) (o : res NextResponse) : FetchResponse :=
  match o with Ok resp => delivered resp | Exn _ => crash end.
Definition jar_after (https : bool) (j : jar) (o : res NextResponse) : jar :=
  match o with Ok resp => apply_cookies https j (res_cookies resp) | Exn _ => j end.

(** The values in the answer are ones that JSON carries. *)
Definition plain_answer (o : res NextResponse) : Prop :=
  forall resp v, o = Ok resp -> res_body resp = JsonBody v -> json_plain v.

Lemma me_role_refused r role : ok r = false -> me_role (Some r) role = role.
Proof. cbn. by intros ->. Qed.

Lemma me_role_named resp u role :
  res_status resp = 200%Z -> res_body resp = res_body (me_body u) -> json_plain (JObj (user_obj u)) ->
  me_role (Some (delivered resp)) role = JStr (role_str (u_role u)).
Proof.
  intros Hst Hb Hp. unfold me_role, delivered, ok, resp_json. cbn [status resp_body]. rewrite Hst, Hb.
  change (res_body (me_body u)) with (JsonBody (JObj [("authenticated", JBool true); ("user", JObj (user_obj u))])).
  cbv iota. change (stringify "" "" (JObj [("authenticated", JBool true); ("user", JObj (user_obj u))]))
    with (Some (json_text [("authenticated", JBool true); ("user", JObj (user_obj u))])).
  cbn [mbind option_bind]. rewrite json_text_read by (destruct Hp as [Hp _]; cbn in Hp |- *; split_and!; try done; tauto).
  by destruct u as [? ? ? [] ?].
Qed.

(** Where the page goes, and what the guard makes of it: the home of the role
    in the cookie, which it opens, or, when the session was denied, the home
    of the role before, from which it sends the browser to sign in. *)
Definition lands (role : UserRole) (j : jar) (p : option string) : Prop :=
  exists named, p = Some (roleHomePath named)
    /\ ((j !! cookie_role = Some (role_str named)
         /\ Middleware.middleware (Browser.page j (roleHomePath named)) = Middleware.next)
        \/ (named = role /\ view j = (None, None, None, None)
            /\ Middleware.middleware (Browser.page j (roleHomePath named))
               = Middleware.redirect (Middleware.login_url (Middleware.nextUrl (Browser.page j (roleHomePath named)))))).

Lemma lands_open role named j t r sid p :
  p = Some (roleHomePath named) -> view j = (Some t, r, sid, Some (role_str named)) -> t <> "" -> lands role j p.
Proof. intros -> Hv Ht. exists named. split; [done|]. left. split; [by injection Hv|by eapply view_opens]. Qed.

Lemma me_lands https (q : NextRequest) crash s role t r sid o :
  (shouldUseSecureCookies env (Some q) = true -> https = true) -> ok crash = false ->
  view (req_cookies q) = (Some t, Some r, Some sid, Some (role_str role)) -> t <> "" ->
  (forall resp, o = Ok resp -> me_result q resp) -> plain_answer o ->
  lands role (jar_after https (req_cookies q) o) (location (me_answer (JStr (role_str role)) (Some (answer_seen crash o)) s))
  /\ forall u resp, o = Ok resp -> res_status resp = 200%Z -> res_body resp = res_body (me_body u) ->
       location (me_answer (JStr (role_str role)) (Some (answer_seen crash o)) s) = Some (roleHomePath (u_role u)).
Proof.
  intros Hsec Hcrash Hview Ht Hres Hplain.
  assert (forall u resp, o = Ok resp -> res_status resp = 200%Z -> res_body resp = res_body (me_body u) ->
    location (me_answer (JStr (role_str role)) (Some (answer_seen crash o)) s) = Some (roleHomePath (u_role u))) as Hnamed.
  { intros u resp -> Hst Hb. destruct (Hplain resp _ eq_refl Hb) as [(_ & Hu & _) _].
    change (Some (home_of (me_role (Some (delivered resp)) (JStr (role_str role)))) = Some (roleHomePath (u_role u))).
    by rewrite (me_role_named resp u), home_of_role. }
  split; [|done]. destruct o as [resp|e]; cycle 1.
  { eapply lands_open; [|exact Hview|exact Ht]. cbn [answer_seen]. cbn. rewrite Hcrash. by rewrite home_of_role. }
  assert (shouldUseSecureCookies env (Some q) && negb https = false) as Hkept
    by (destruct (shouldUseSecureCookies env (Some q)); [by rewrite Hsec|done]).
  cbn [jar_after]. injection Hview as V1 V2 V3 V4. destruct (Hres resp eq_refl) as [msg|st Hst|u jwt' rt' Hj|u].
  - eapply lands_open; [cbn; by rewrite home_of_role| |exact Ht].
    unfold auth_failure. rewrite view_apply, ops_view_json. cbn. by rewrite V1, V2, V3, V4.
  - exists role. split; [destruct Hst as [-> | ->]; cbn; by rewrite home_of_role|]. right.
    assert (view (apply_cookies https (req_cookies q) (res_cookies (unauthenticated st))) = (None, None, None, None)) as Hv
      by (unfold unauthenticated; by rewrite view_apply, ops_view_clear).
    split_and!; [done|done|by apply view_turned_away].
  - eapply (lands_open role (u_role u)); [by eapply Hnamed| |exact Hj].
    rewrite view_apply, ops_view_tokens by apply ops_view_json. cbn.
    rewrite Hkept. reflexivity.
  - eapply (lands_open role (u_role u)); [by eapply Hnamed| |exact Ht].
    rewrite view_apply. unfold me_body. rewrite ops_view_role by apply ops_view_json. cbn. rewrite V1, V2, V3, Hkept. reflexivity.
Qed.

(** [C8] Signing in end to end: the page sends email, challenge and code; the
    route passes exactly these, trimmed, to the control plane in one request;
    and if the control plane accepts with tokens, a role and a user, the page
    asks the site who is signed in, with the cookies it has got.  Whatever
    the control plane then answers (in values that JSON carries), the page
    goes to the home of a role: that of the user the answer names, and else
    that of the verification.  The guard opens it, since the cookies of the
    last answer have that role; only when the answer denies the session the
    cookies are gone, and the guard sends the browser to sign in.  If the
    question gets lost, the page goes to the home of the verified role and
    the guard opens it. *)
Theorem sign_in_end_to_end {S} {up : Upstream S} (st : S) (s : State) (q : NextRequest) (https : bool) (j : jar)
    (r1 : FetchResponse) (c : AuthCookies) (uid name : string) :
  let sent := verify_request env q (trim (email s)) (trim (challengeId s)) (trim (otp s)) in
  let verifyJson := json_or_empty r1 in
  canVerifyOtp s = true -> trim (challengeId s) <> "" -> req_body q = f_body (verify_otp s) ->
  (answer st sent).2 = Some r1 -> ok r1 = true -> authCookiesFromPayload verifyJson = Ok (Some c) ->
  member_str verifyJson "user_id" "" = Ok uid -> uid <> "" ->
  member_str verifyJson "display_name" (trim (email s)) = Ok name ->
  (shouldUseSecureCookies env (Some q) = true -> https = true) ->
  trace st (verify_otp_POST env q) = [sent]
  /\ exists resp role, outcome st (verify_otp_POST env q) = Ok resp
      /\ verify_answer (Some (delivered resp)) = inr (JStr (role_str role))
      /\ let j1 := apply_cookies https j (res_cookies resp) in
         location (me_answer (JStr (role_str role)) None s) = Some (roleHomePath role)
         /\ Middleware.middleware (Browser.page j1 (roleHomePath role)) = Middleware.next
         /\ forall st2 q2 crash,
              req_cookies q2 = j1 -> (shouldUseSecureCookies env (Some q2) = true -> https = true) -> ok crash = false ->
              let o := outcome st2 (me_GET env q2) in
              let p := location (me_answer (JStr (role_str role)) (Some (answer_seen crash o)) s) in
              plain_answer o ->
              lands role (jar_after https j1 o) p
              /\ forall u resp2, o = Ok resp2 -> res_status resp2 = 200%Z -> res_body resp2 = res_body (me_body u) ->
                   p = Some (roleHomePath (u_role u)).
Proof.
  intros sent verifyJson Hcan Hch Hbody Hans Hok Hc Huid Hne Hname Hsec.
  assert (trim (email s) <> "" /\ trim (otp s) <> "") as [Hm Ho].
  { unfold canVerifyOtp in Hcan. apply andb_prop in Hcan as [[[H1 H2]%andb_prop _]%andb_prop _].
    split; by apply truthy_str_spec. }
  pose proof (authCookies_nonempty _ _ Hc) as (Hj & _ & _).
  destruct (cookie_role_text _ _ Hc) as (x & Hx & Hrole).
  destruct (role_text_same _ _ _ Hx Hrole) as (y & Hy & Hyr).
  destruct (verified_user uid (trim (email s)) name (cookieRole c) y Hne Hm (trim_idem _) Hyr) as (u & Hu & Hur & Hui & Hue).
  assert (run st (verify_otp_POST env q) = ([sent], (answer st sent).1, Ok (accepted_response q c u))) as Hrun.
  { unfold verify_otp_POST, request_json. rewrite Hbody. cbn [verify_otp ui_post f_body mbind option_bind].
    rewrite verify_fields_read. unfold verify_fields.
    change (member_str (JObj [("email", JStr (trim (email s))); ("challengeId", JStr (challengeId s)); ("otp", JStr (trim (otp s)))]) "email" "")
      with (Ok (trim (email s))).
    change (member_str (JObj [("email", JStr (trim (email s))); ("challengeId", JStr (challengeId s)); ("otp", JStr (trim (otp s)))]) "otp" "")
      with (Ok (trim (otp s))).
    change (str_or (vnullish (prop (JObj [("email", JStr (trim (email s))); ("challengeId", JStr (challengeId s)); ("otp", JStr (trim (otp s)))]) "challengeId") _) "")
      with (Ok (challengeId s)).
    cbn [lift bind]. rewrite !trim_idem. apply truthy_str_spec in Hm, Ho, Hch. rewrite Hm, Ho, Hch. cbn [negb orb].
    fold sent. cbn [fetch bind run]. destruct (answer st sent) as [st1 o]. cbn [fst snd] in *. subst o. cbn [bind run].
    rewrite Hok. cbn [negb]. fold verifyJson. rewrite Hc. cbn [lift bind]. unfold verify_success.
    rewrite Huid, Hname. cbn [lift bind]. rewrite Hy. cbn [lift bind]. rewrite Hu. done. }
  unfold trace, outcome. rewrite Hrun. split; [done|]. exists (accepted_response q c u), (cookieRole c).
  pose proof (accepted_view q c u https j Hsec) as Hview. cbv zeta. split_and!.
  - done.
  - rewrite accepted_delivered by (by rewrite ?Hui, ?Hue). by rewrite Hur.
  - cbn. by rewrite home_of_role.
  - by eapply view_opens.
  - intros st2 q2 crash Hq2 Hsec2 Hcrash Hplain. rewrite <- Hq2 in *. eapply me_lands; [done..| |done].
    intros resp Hresp. by eapply (all_results_outcome _ _ _ _ (me_results q2)).
Qed.
End Together.

(** ** Examples *)

Module SignInDemo.

Lemma sign_in_page_sound_witness : run_ok [] start.
Proof. destruct (sign_in_page_sound [] start) as (H & _); [constructor|exact H]. Defined.

Definition ready : State :=
  {| email := " ada@example.com"; otp := "123456"; challengeId := "c1"; resendAfter := Num.of_Z 60; sendingOtp := false;
     verifyingOtp := false; location := None |}.

Definition asked : NextRequest :=
  {| req_cookies := ∅; req_headers := ∅; req_protocol := "https:"; req_host := "ui.example"; req_query := [];
     req_body := f_body (verify_otp ready) |}.

Definition cookies : AuthCookies := {| jwt := "j1"; refreshToken := "r1"; sessionId := "s1"; cookieRole := operator |}.

(** An operator signs in at a control plane that accepts the code; asked who
    it is, it names an admin meanwhile. *)
Definition promoting : Upstream unit := fun s r =>
  (s, Some (Demo.reply 200
    (if f_method r === "POST"
     then [("jwt", JStr "j1"); ("refresh_token", JStr "r1"); ("session_id", JStr "s1"); ("user_role", JStr "operator");
           ("user_id", JStr "7")]
     else [("user_id", JStr "7"); ("email", JStr "ada@example.com"); ("user_role", JStr "admin")]))).

Definition signed_in : jar :=
  match outcome (up := promoting) tt (verify_otp_POST Demo.env asked) with
  | Ok resp => apply_cookies true ∅ (res_cookies resp)
  | Exn _ => ∅
  end.
Definition asking : NextRequest :=
  {| req_cookies := signed_in; req_headers := ∅; req_protocol := "https:"; req_host := "ui.example"; req_query := [];
     req_body := None |}.
Definition answered : res NextResponse := outcome (up := promoting) tt (me_GET Demo.env asking).

Lemma answered_plain : plain_answer answered.
Proof.
  intros resp v H Hb. vm_compute in H. injection H as <-. vm_compute in Hb. injection Hb as <-. vm_compute. tauto.
Qed.

Lemma sign_in_end_to_end_witness :
  lands operator (jar_after true signed_in answered)
    (location (me_answer (JStr "operator") (Some (answer_seen (Demo.reply 500 []) answered)) ready))
  /\ location (me_answer (JStr "operator") (Some (answer_seen (Demo.reply 500 []) answered)) ready) = Some "/dashboard".
Proof.
  destruct (sign_in_end_to_end Demo.env (up := promoting) tt ready asked true ∅
    (Demo.reply 200 [("jwt", JStr "j1"); ("refresh_token", JStr "r1"); ("session_id", JStr "s1");
                     ("user_role", JStr "operator"); ("user_id", JStr "7")]) cookies "7" "ada@example.com")
    as (_ & resp & role & H1 & H2 & _ & _ & H3); [vm_compute; done..|].
  assert (resp = default (me_body {| u_id := JNull; u_email := JNull; u_name := ""; u_role := viewer; u_twoFactorEnabled := false |})
    (match outcome (up := promoting) tt (verify_otp_POST Demo.env asked) with Ok r => Some r | Exn _ => None end)) as E
    by (rewrite H1; reflexivity).
  assert (role = operator) as -> by (rewrite E in H2; vm_compute in H2; by destruct role).
  destruct (H3 tt asking (Demo.reply 500 [])) as [Hl Hu]; [subst resp; reflexivity|done|reflexivity|exact answered_plain|].
  subst resp. split; [exact Hl|].
  refine (Hu {| u_id := JStr "7"; u_email := JStr "ada@example.com"; u_name := "ada@example.com"; u_role := admin;
                u_twoFactorEnabled := false |} _ _ _ _); reflexivity.
Defined.

(** A request that is lost says nothing to the user. *)
Lemma lost_request_silent s : (otp_answer None s).2 = None /\ verify_answer None = inl None.
Proof. done. Qed.

(** A wait of two minutes is shown as a time of day that does not exist. *)
Lemma two_minutes_label : resendLabel (ready <| resendAfter := Num.of_Z 120 |>) = "Resend in 0:120".
Proof. vm_compute. done. Qed.

(** The challenge of one address stays when another is typed, and is sent
    with it. *)
Lemma challenge_outlives_email text :
  trim text <> "" ->
  let s := ready <| email := text |> in
  canVerifyOtp s = true /\ verify_fields s = [("email", JStr (trim text)); ("challengeId", JStr "c1"); ("otp", JStr "123456")].
Proof. intros H%truthy_str_spec. split; [|done]. change (truthy_str (trim text) && true && true && true = true). by rewrite H. Qed.

End SignInDemo.
