(* ===== verification/CopilotPanel.v ===== *)
(** * The panel of the device health copilot

    src/app/device-detail/components/DeviceHealthCopilotPanel.tsx with
    CopilotComposer.tsx: restoring the conversation of a device, asking, and
    what the transcript shows meanwhile; then the laws of the panel.  The
    requests are those of Module Copilot ([askCopilot], [fetchConversation]),
    run on the answer that arrives.  The times that make ids and timestamps
    come with the events, and [localStorage] is a map. *)

From stdpp Require Import gmap.
From S2P Require Import Prelude JsNumber JsString JsValue Http Session Copilot.

Definition QUICK_PROMPTS : list string :=
  ["Why is this device unhealthy?"; "What changed in the last hour?"; "Which signals reduce confidence?"].

Definition storageKey (deviceId : string) : string := "quoodle:copilot:device:" +:+ deviceId +:+ ":conversation".

Definition initialConversation (deviceId deviceName : string) : CopilotConversation :=
  {| conversationId := ""; conv_state := "active"; transcript := []; surface := "web.device_detail";
     ctx_deviceId := deviceId; ctx_deviceName := deviceName; ctx_scopeLabel := "Current device only";
     lastActivityAt := None |}.

(** What a [catch] gets: an error of the service, or an exception, which has
    a message only. *)
Record Failure := { code : option CopilotErrorCode; message : string; correlation : option string }.

Definition known (e : CopilotErrorState) : Failure :=
  {| code := Some (error_code e); message := error_message e;
     correlation := match correlationId e with JStr s => Some s | _ => None end |}.
Definition thrown (text : string) : Failure := {| code := None; message := text; correlation := None |}.

(** The outcome of a program of one request on the answer to it. *)
Definition on_answer {A} (m : io (CopilotErrorState + A)) (r : option FetchResponse) : Failure + A :=
  match m with
  | Fetch _ k =>
      match k r with
      | Ret (inr a) => inr a
      | Ret (inl e) => inl (known e)
      | Throw text => inl (thrown text)
      | Fetch _ _ => inl (thrown "")
      end
  | Ret (inr a) => inr a
  | Ret (inl e) => inl (known e)
  | Throw text => inl (thrown text)
  end.

(** ** State *)

Record Panel := {
  deviceId : string;
  hostname : string;
  conversation : CopilotConversation;
  composerValue : string;
  loadingConversation : bool;
  sending : bool;
  errorState : option Failure;
}.

#[export] Instance eta_panel : Eta Panel := fun p =>
  {| deviceId := deviceId p; hostname := hostname p; conversation := conversation p; composerValue := composerValue p;
     loadingConversation := loadingConversation p; sending := sending p; errorState := errorState p |}.

#[export] Instance eta_conversation : Eta CopilotConversation := fun c =>
  {| conversationId := conversationId c; conv_state := conv_state c; transcript := transcript c; surface := surface c;
     ctx_deviceId := ctx_deviceId c; ctx_deviceName := ctx_deviceName c; ctx_scopeLabel := ctx_scopeLabel c;
     lastActivityAt := lastActivityAt c |}.

(** A question under way: what the handler closed over, and the id of the
    conversation it fetches once it was asked. *)
Record Ask := {
  a_query : string;
  a_device : string;
  a_host : string;
  a_conversation : string;
  loading_id : string;
  fetching : option string;
}.

(** A restoring load: its conversation, and the device it is for. *)
Record Restore := { r_conversation : string; r_device : string; r_host : string }.

(** [effect] numbers the runs of the effect; a run is cancelled by the next. *)
Record World := {
  panel : Panel;
  storage : gmap string string;
  effect : nat;
  restores : list (nat * Restore);
  asks : list Ask;
}.

(** ** Restoring *)

(** The effect of a device and a name: the conversation is reset, and one
    that was stored is fetched. *)
Definition show (d h : string) (w : World) : World :=
  let saved := match storage w !! storageKey d with Some c => if truthy_str c then Some c else None | None => None end in
  {| panel := {| deviceId := d; hostname := h; conversation := initialConversation d h; composerValue := composerValue (panel w);
                 loadingConversation := match saved with Some _ => true | None => false end; sending := sending (panel w);
                 errorState := None |};
     storage := storage w;
     effect := S (effect w);
     restores := match saved with
                 | Some c => [(S (effect w), {| r_conversation := c; r_device := d; r_host := h |})]
                 | None => []
                 end ++ restores w;
     asks := asks w |}.

Definition restored (n : nat) (q : Restore) (r : option FetchResponse) (w : World) : Panel :=
  if negb (Nat.eqb n (effect w)) then panel w
  else match on_answer (fetchConversation (r_conversation q) (r_device q) (r_host q)) r with
       | inr c => (panel w) <| conversation := c |> <| loadingConversation := false |>
       | inl e => (panel w) <| errorState := Some e |> <| loadingConversation := false |>
       end.

(** ** Asking *)

Definition append_items (l : list CopilotTranscriptItem) (c : CopilotConversation) : CopilotConversation :=
  c <| transcript := transcript c ++ l |>.

Definition user_item (now iso q : string) : CopilotTranscriptItem :=
  {| item_id := "user-" +:+ now; item_timestamp := JStr iso; item := user_message q |}.
Definition loading_item (now iso : string) : CopilotTranscriptItem :=
  {| item_id := "loading-" +:+ now; item_timestamp := JStr iso;
     item := system_status "Reviewing device health and recent command failures..." st_loading |}.

(** [submitAsk] up to its first request.  [now] and [iso] are the clock as a
    number and as a text; the handler reads it for each of the two items,
    whose ids differ by their prefix. *)
Definition submitAsk (prompt now iso : string) (w : World) : World :=
  let p := panel w in
  let q := trim prompt in
  if negb (truthy_str q) || sending p then w
  else {| panel := p <| errorState := None |> <| sending := true |>
                     <| conversation := append_items [user_item now iso q; loading_item now iso] (conversation p) |>;
          storage := storage w; effect := effect w; restores := restores w;
          asks := {| a_query := q; a_device := deviceId p; a_host := hostname p;
                     a_conversation := conversationId (conversation p); loading_id := "loading-" +:+ now;
                     fetching := None |} :: asks w |}.

Definition ask_payload (a : Ask) : AskPayload :=
  {| conversation_id := if truthy_str (a_conversation a) then Some (a_conversation a) else None; query := a_query a;
     device_id := a_device a; ui_surface := "web.device_detail" |}.

(** The [catch] and the [finally]. *)
Definition ask_failed (a : Ask) (e : Failure) (now iso : string) (p : Panel) : Panel :=
  p <| errorState := Some e |>
    <| conversation := (conversation p) <| transcript :=
         List.filter (fun i => item_id i !== loading_id a) (transcript (conversation p))
         ++ [{| item_id := "unavailable-" +:+ now; item_timestamp := JStr iso;
                item := unavailable_notice (message e) (correlation e) |}] |> |>
    <| sending := false |>.

Definition ask_done (c : CopilotConversation) (p : Panel) : Panel :=
  p <| conversation := c |> <| composerValue := "" |> <| sending := false |>.

(** ** What is shown *)

Definition shown_transcript (p : Panel) : list CopilotTranscriptItem :=
  List.filter (fun i => match item i with system_status _ st_loading => sending p | _ => true end)
    (transcript (conversation p)).

Definition emptyState (p : Panel) : bool :=
  negb (loadingConversation p) && match shown_transcript p with [] => true | _ => false end.

Definition scope_failed (p : Panel) : bool :=
  match errorState p with Some e => match code e with Some scope_failure => true | _ => false end | None => false end.

Definition composer_disabled (p : Panel) : bool := sending p || loadingConversation p || scope_failed p.

(** ** Runs *)

Inductive Event :=
| Show (d h : string)
| Type_ (text : string)
| Submit (now iso : string)
| Quick (prompt now iso : string)
| Restored (n : nat) (r : option FetchResponse)
| Asked (r : option FetchResponse) (now iso : string)
| Fetched (r : option FetchResponse) (now iso : string).

Section Clock.
Context (date_now iso_now : nat -> string).

Definition with_panel (p : Panel) (w : World) : World :=
  {| panel := p; storage := storage w; effect := effect w; restores := restores w; asks := asks w |}.

(** The answer to the question: the conversation is remembered and fetched. *)
Definition asked (a : Ask) (rest : list Ask) (r : option FetchResponse) (now iso : string) (w : World) : World :=
  match on_answer (askCopilot date_now iso_now (ask_payload a)) r with
  | inr result =>
      {| panel := panel w; storage := <[storageKey (a_device a) := ask_conversationId result]> (storage w);
         effect := effect w; restores := restores w;
         asks := {| a_query := a_query a; a_device := a_device a; a_host := a_host a; a_conversation := a_conversation a;
                    loading_id := loading_id a; fetching := Some (ask_conversationId result) |} :: rest |}
  | inl e => {| panel := ask_failed a e now iso (panel w); storage := storage w; effect := effect w;
                restores := restores w; asks := rest |}
  end.

Definition fetched (a : Ask) (cid : string) (rest : list Ask) (r : option FetchResponse) (now iso : string) (w : World) : World :=
  {| panel := match on_answer (fetchConversation cid (a_device a) (a_host a)) r with
              | inr c => ask_done c (panel w)
              | inl e => ask_failed a e now iso (panel w)
              end;
     storage := storage w; effect := effect w; restores := restores w; asks := rest |}.

Inductive step : World -> Event -> World -> Prop :=
| step_show d h w : step w (Show d h) (show d h w)
| step_type text w : composer_disabled (panel w) = false ->
    step w (Type_ text) (with_panel ((panel w) <| composerValue := text |>) w)
| step_submit now iso w : composer_disabled (panel w) = false ->
    step w (Submit now iso) (submitAsk (composerValue (panel w)) now iso w)
| step_quick prompt now iso w : emptyState (panel w) = true -> prompt ∈ QUICK_PROMPTS ->
    step w (Quick prompt now iso)
      (submitAsk prompt now iso (with_panel ((panel w) <| composerValue := prompt |>) w))
| step_restored n q r before after w : restores w = before ++ (n, q) :: after ->
    step w (Restored n r)
      {| panel := restored n q r w; storage := storage w; effect := effect w; restores := before ++ after; asks := asks w |}
| step_asked a r now iso before after w : asks w = before ++ a :: after -> fetching a = None ->
    step w (Asked r now iso) (asked a (before ++ after) r now iso w)
| step_fetched a cid r now iso before after w : asks w = before ++ a :: after -> fetching a = Some cid ->
    step w (Fetched r now iso) (fetched a cid (before ++ after) r now iso w).

(** A panel mounted for a device, whatever is stored. *)
Definition start (d h : string) (stored : gmap string string) : World :=
  show d h {| panel := {| deviceId := d; hostname := h; conversation := initialConversation d h; composerValue := "";
                          loadingConversation := true; sending := false; errorState := None |};
              storage := stored; effect := 0; restores := []; asks := [] |}.

(** A device is not exchanged for another while a question is under way. *)
Definition calm (w : World) (e : Event) : Prop :=
  match e with Show d _ => sending (panel w) = false \/ d = deviceId (panel w) | _ => True end.

Inductive reaches (d h : string) (stored : gmap string string) : list Event -> World -> Prop :=
| reaches_start : reaches d h stored [] (start d h stored)
| reaches_step es e w w' : reaches d h stored es w -> calm w e -> step w e w' -> reaches d h stored (es ++ [e]) w'.
End Clock.

(** ** Laws *)

Definition bit (b : bool) : nat := if b then 1 else 0.

(** A conversation that is fetched is pinned to the device it was fetched for. *)
Lemma fetch_pinned cid d h r c : on_answer (fetchConversation cid d h) r = inr c -> ctx_deviceId c = d.
Proof.
  unfold fetchConversation, on_answer. destruct r as [r|]; cbn [fetch bind]; [|done]. destruct (ok r); cbn [negb].
  - destruct (conversation_of _ _ _ _) as [c'|] eqn:E; cbn; [|done]. intros [= <-]. revert E. unfold conversation_of.
    destruct (member_str _ _ _); [cbn|done]. destruct (str_or (prop _ "state") _); [cbn|done].
    destruct (str_or (prop _ "surface") _); [cbn|done]. destruct (normalizeTranscript _); [cbn|done]. by intros [= <-].
  - match goal with |- context [lift ?m] => by destruct m end.
Qed.

Record panel_ok (w : World) : Prop := {
  one_ask : length (asks w) = bit (sending (panel w));
  asks_here : List.Forall (fun a => a_device a = deviceId (panel w)) (asks w);
  restores_here n q : (n, q) ∈ restores w -> n <= effect w /\ (n = effect w -> r_device q = deviceId (panel w));
  restore_runs : loadingConversation (panel w) = true -> exists q, (effect w, q) ∈ restores w;
  pinned : ctx_deviceId (conversation (panel w)) = deviceId (panel w);
}.

Lemma show_ok d h w :
  length (asks w) = bit (sending (panel w)) -> List.Forall (fun a => a_device a = deviceId (panel w)) (asks w) ->
  (forall n q, (n, q) ∈ restores w -> n <= effect w) -> sending (panel w) = false \/ d = deviceId (panel w) ->
  panel_ok (show d h w).
Proof.
  intros H1 H2 H3 Hc. unfold show. set (saved := match storage w !! _ with Some _ => _ | None => _ end).
  split; cbn [panel storage effect restores asks deviceId conversation sending loadingConversation]; [done| | | |done].
  - destruct Hc as [Hs| ->]; [|done]. rewrite Hs in H1. cbn in H1. apply nil_length_inv in H1 as ->. constructor.
  - intros n q [H|H]%elem_of_app.
    + destruct saved; [|by apply elem_of_nil in H]. apply list_elem_of_singleton in H as [= -> ->]. done.
    + apply H3 in H. split; [lia|lia].
  - destruct saved as [c|]; [|done]. intros _. eexists. left.
Qed.

Lemma submit_ok prompt now iso w : panel_ok w -> panel_ok (submitAsk prompt now iso w).
Proof.
  intros Hw. pose proof Hw as [H1 H2 H3 H4 H5]. unfold submitAsk. destruct (sending (panel w)) eqn:E.
  { by rewrite orb_true_r. }
  rewrite orb_false_r. destruct (negb _); [done|]. split; cbn; try done.
  - by rewrite H1.
  - by constructor.
Qed.

Lemma with_value_ok text w : panel_ok w -> panel_ok (with_panel ((panel w) <| composerValue := text |>) w).
Proof. by intros []. Qed.

(** The question that ends was the only one. *)
Lemma last_ask a before after w : panel_ok w -> asks w = before ++ a :: after ->
  sending (panel w) = true /\ before ++ after = [] /\ a_device a = deviceId (panel w).
Proof.
  intros [H1 H2 _ _ _] E. rewrite E in H1, H2. rewrite length_app in H1. cbn in H1. split_and!.
  - destruct (sending (panel w)); [done|cbn in H1; lia].
  - apply nil_length_inv. rewrite length_app. destruct (sending (panel w)); cbn in H1; lia.
  - apply Forall_app in H2 as [_ H2]. by inversion H2.
Qed.

Section ClockLaws.
Context (date_now iso_now : nat -> string).

Notation step := (step date_now iso_now).
Notation reaches := (reaches date_now iso_now).

Lemma restored_frame n q r w :
  let p := restored n q r w in
  deviceId p = deviceId (panel w) /\ sending p = sending (panel w) /\ composerValue p = composerValue (panel w).
Proof. unfold restored. destruct (negb _); [done|]. by destruct (on_answer _ _). Qed.

Lemma restored_ok n q r before after w : panel_ok w -> restores w = before ++ (n, q) :: after ->
  panel_ok {| panel := restored n q r w; storage := storage w; effect := effect w; restores := before ++ after; asks := asks w |}.
Proof.
  intros [H1 H2 H3 H4 H5] E. destruct (restored_frame n q r w) as (F1 & F2 & _). cbn zeta in *.
  assert (forall x, x ∈ before ++ after -> x ∈ restores w) as Hin.
  { intros x. rewrite E, !elem_of_app, elem_of_cons. tauto. }
  split; cbn [panel storage effect restores asks]; rewrite ?F1, ?F2; try done.
  - intros m q' H%Hin. by apply H3.
  - unfold restored. destruct (Nat.eqb_spec n (effect w)) as [->|Hne]; cbn [negb]; [by destruct (on_answer _ _)|].
    intros Hl. destruct (H4 Hl) as [q' Hq]. exists q'. rewrite E in Hq.
    apply elem_of_app in Hq as [Hq|[[= Hn _]|Hq]%elem_of_cons]; [|by symmetry in Hn|]; apply elem_of_app; auto.
  - unfold restored. destruct (Nat.eqb_spec n (effect w)) as [->|Hne]; cbn [negb]; [|done].
    destruct (on_answer _ _) as [e|c] eqn:Ea; cbn; [done|]. apply fetch_pinned in Ea as ->.
    apply (H3 (effect w) q); [|done]. rewrite E. apply elem_of_app. right. left.
Qed.

Lemma panel_step_ok w e w' : step w e w' -> calm w e -> panel_ok w -> panel_ok w'.
Proof.
  intros Hs Hc Hw. destruct Hs as [d h w|text w _|now iso w _|prompt now iso w _ _|n q r before after w E
    |a r now iso before after w E _|a cid r now iso before after w E _].
  - apply show_ok; [apply Hw|apply Hw| |done]. intros n q H. by apply (restores_here _ Hw) in H as [H _].
  - by apply with_value_ok.
  - by apply submit_ok.
  - by apply submit_ok, with_value_ok.
  - by apply restored_ok.
  - destruct (last_ask a before after w Hw E) as (Hs & -> & Ha). destruct Hw as [H1 H2 H3 H4 H5]. unfold asked.
    destruct (on_answer _ _); split; cbn; try done.
    + by rewrite Hs.
    + by constructor.
  - destruct (last_ask a before after w Hw E) as (Hs & -> & Ha). destruct Hw as [H1 H2 H3 H4 H5]. unfold fetched.
    destruct (on_answer _ _) eqn:Ea; split; cbn; try done. apply fetch_pinned in Ea as ->. done.
Qed.

(** [C23] The panel of the copilot: in every run in which the device is not
    exchanged during a question, at most one question is under way, and the
    panel says so; the conversation shown belongs to the device shown, and
    so does the question; it says it is restoring only while it is, and the
    answer of a cancelled load changes nothing.  Nothing is shown as being
    reviewed once the question has ended.  A question that fails keeps what
    was typed and everything said, adds a notice, and lets the user ask
    again; one that succeeds is remembered for the device. *)
Theorem copilot_panel_sound (d h : string) (stored : gmap string string) (es : list Event) (w : World) :
  reaches d h stored es w ->
  panel_ok w
  /\ (forall n q r, n <> effect w -> restored n q r w = panel w)
  /\ (forall p i, sending p = false -> i ∈ shown_transcript p ->
        match item i with system_status _ st_loading => False | _ => True end)
  /\ (forall a, a ∈ asks w -> device_id (ask_payload a) = deviceId (panel w))
  /\ (forall a e now iso p, let p' := ask_failed a e now iso p in
        sending p' = false /\ errorState p' = Some e /\ composerValue p' = composerValue p
        /\ forall i, i ∈ transcript (conversation p) -> item_id i <> loading_id a -> i ∈ transcript (conversation p'))
  /\ (forall a rest r now iso result, on_answer (askCopilot date_now iso_now (ask_payload a)) r = inr result ->
        storage (asked date_now iso_now a rest r now iso w) !! storageKey (a_device a) = Some (ask_conversationId result)).
Proof.
  intros Hw. assert (panel_ok w) as Hok.
  { induction Hw as [|es e w w' _ IH Hc Hs]; [|by eapply panel_step_ok].
    apply show_ok; [done|constructor| |by left]. intros n q H. by apply elem_of_nil in H. }
  split_and!.
  - done.
  - intros n q r Hn%Nat.eqb_neq. unfold restored. by rewrite Hn.
  - intros p i Hs Hi. unfold shown_transcript in Hi. rewrite Hs in Hi. apply list_elem_of_In, filter_In in Hi as [_ Hi].
    destruct (item i) as [| |? []| | | | | |]; done.
  - intros a Ha. destruct Hok as [_ Hh _ _ _]. rewrite List.Forall_forall in Hh. by apply Hh, list_elem_of_In.
  - intros a e now iso p p'. split_and!; [done..|]. intros i Hi Hne. cbn. apply elem_of_app. left.
    apply list_elem_of_In, filter_In. split; [by apply list_elem_of_In|]. by apply negb_true_iff, String.eqb_neq.
  - intros a rest r now iso result E. unfold asked. rewrite E. cbn. by rewrite lookup_insert_eq.
Qed.
End ClockLaws.

(** ** Examples *)

Module CopilotPanelDemo.

Definition tick (n : nat) : string := Num.digits (Z.of_nat n).

(** A prompt is clicked, and its answer is lost: then another can be asked. *)
Definition prompted : World :=
  let w := start "d1" "pc-1" ∅ in
  submitAsk "What changed in the last hour?" "1" "t"
    (with_panel ((panel w) <| composerValue := "What changed in the last hour?" |>) w).
Definition the_ask : Ask :=
  {| a_query := "What changed in the last hour?"; a_device := "d1"; a_host := "pc-1"; a_conversation := "";
     loading_id := "loading-1"; fetching := None |}.
Definition lost : World := asked tick tick the_ask [] None "2" "t" prompted.

Lemma copilot_panel_sound_witness :
  (length (asks prompted) = 1 /\ panel_ok prompted)
  /\ (asks lost = [] /\ panel_ok lost /\ composerValue (panel lost) = "What changed in the last hour?"
      /\ length (transcript (conversation (panel lost))) = 2).
Proof.
  assert (reaches tick tick "d1" "pc-1" ∅ ([] ++ [Quick "What changed in the last hour?" "1" "t"]) prompted) as Hp.
  { apply (reaches_step tick tick "d1" "pc-1" ∅ [] _ (start "d1" "pc-1" ∅)); [constructor|exact I|].
    apply step_quick; [vm_compute; reflexivity|]. right. left. }
  assert (reaches tick tick "d1" "pc-1" ∅ (([] ++ [Quick "What changed in the last hour?" "1" "t"]) ++ [Asked None "2" "t"]) lost)
    as Hl.
  { apply (reaches_step tick tick "d1" "pc-1" ∅ _ _ prompted); [exact Hp|exact I|].
    apply (step_asked tick tick the_ask None "2" "t" [] []); vm_compute; reflexivity. }
  pose proof (copilot_panel_sound tick tick _ _ _ _ _ Hp) as [H1 _].
  pose proof (copilot_panel_sound tick tick _ _ _ _ _ Hl) as [H2 _].
  split; split_and!; try assumption; vm_compute; reflexivity.
Defined.

Definition json (st : Z) (o : obj) : option FetchResponse :=
  Some {| status := st; resp_headers := ∅; resp_body := Some (json_text o) |}.

(** The question of the first device is asked, the second is shown, and the
    answer comes. *)
Definition asking : World := submitAsk "Why?" "1" "t" (start "d1" "pc-1" ∅).
Definition switched : World := show "d2" "pc-2" asking.
Definition answered : World :=
  match asks switched with
  | a :: rest => asked tick tick a rest (json 200 [("conversation_id", JStr "c1")]) "2" "t" switched
  | [] => switched
  end.
Definition ended : World :=
  match asks answered with
  | a :: rest => fetched a "c1" rest (json 200 [("conversation_id", JStr "c1")]) "3" "t" answered
  | [] => answered
  end.

(** Then the second device shows the conversation of the first. *)
Lemma answer_of_other_device :
  deviceId (panel ended) = "d2" /\ ctx_deviceId (conversation (panel ended)) = "d1".
Proof. vm_compute. done. Qed.

(** After a refusal of scope the composer is closed, and the prompts are not. *)
Definition refused : World :=
  let w := start "d1" "pc-1" {[storageKey "d1" := "c9"]} in
  with_panel (restored 1 {| r_conversation := "c9"; r_device := "d1"; r_host := "pc-1" |} (json 403 []) w) w.

Lemma prompts_outlive_scope :
  composer_disabled (panel refused) = true /\ emptyState (panel refused) = true
  /\ sending (panel (submitAsk "What changed in the last hour?" "1" "t" refused)) = true.
Proof. vm_compute. done. Qed.

End CopilotPanelDemo.
