(* ===== verification/Shell.v ===== *)
(** * The frame of the pages

    What surrounds the pages: the menu of a role (src/components/Sidebar.tsx,
    AppLayout.tsx, Topbar.tsx), the theme (src/contexts/ThemeContext.tsx), the
    live feed (src/components/LiveAlertFeed.tsx), the dialog for exports
    (src/components/ExportModal.tsx) and the timeline of a command
    (src/app/command-dispatch/components/CommandDetailPanel.tsx), each with
    its laws.  Icons and colours are left out. *)

From stdpp Require Import sets gmap.
From S2P Require Import Prelude JsNumber JsString JsValue Auth Http Session Commands Tables RenderModel RenderLaws.

(** ** The menu *)

Module Navigation.
Import Middleware.

Record NavItem := { nav_label : string; path : string; badge : option string }.
Record NavGroup := { group_label : string; items : list NavItem }.

Definition plain (label path : string) : NavItem := {| nav_label := label; path := path; badge := None |}.
Definition badged (label path badge : string) : NavItem := {| nav_label := label; path := path; badge := Some badge |}.

Definition adminNavGroups : list NavGroup :=
  [{| group_label := "Operations";
      items := [plain "Dashboard" "/dashboard"; badged "Devices" "/device-management" "3";
                plain "Mobile Devices" "/mobile-devices"; badged "Commands" "/command-dispatch" "5";
                plain "Results" "/command-results"; plain "History" "/command-history";
                plain "Scheduling" "/command-scheduling"; badged "Alerts" "/alerts" "2";
                plain "Notifications" "/notifications"] |};
   {| group_label := "Monitoring";
      items := [plain "Telemetry" "/telemetry-monitoring"; plain "Compliance" "/compliance"; plain "Audit Trail" "/audit"] |};
   {| group_label := "Integrations"; items := [plain "Webhooks" "/webhooks"] |};
   {| group_label := "System"; items := [plain "System Health" "/system-health"; plain "Settings" "/settings"] |}].

Definition operatorNavGroups : list NavGroup :=
  [{| group_label := "My Console";
      items := [plain "Operator Console" "/operator-console"; plain "My Devices" "/device-management";
                plain "Mobile Devices" "/mobile-devices"; plain "Commands" "/command-dispatch";
                plain "Results" "/command-results"; plain "History" "/command-history";
                plain "Scheduling" "/command-scheduling"; badged "Alerts" "/alerts" "2";
                plain "Notifications" "/notifications"] |};
   {| group_label := "Monitoring";
      items := [plain "Telemetry" "/telemetry-monitoring"; plain "Compliance" "/compliance"; plain "Audit Trail" "/audit"] |};
   {| group_label := "Integrations"; items := [plain "Webhooks" "/webhooks"] |}].

Definition viewerNavGroups : list NavGroup :=
  [{| group_label := "My Console";
      items := [plain "Viewer Console" "/viewer-console"; plain "Devices" "/device-management";
                plain "Mobile Devices" "/mobile-devices"; plain "Notifications" "/notifications"] |};
   {| group_label := "Reports"; items := [plain "Compliance" "/compliance"; plain "Audit Trail" "/audit"] |}].

Definition roleNavGroups (role : UserRole) : list NavGroup :=
  match role with admin => adminNavGroups | operator => operatorNavGroups | viewer => viewerNavGroups end.

Definition roleLabels (role : UserRole) : string :=
  match role with admin => "Admin" | operator => "Operator" | viewer => "Viewer" end.

Definition isActive (currentPath path : string) : bool :=
  (currentPath === path) || startsWith currentPath (path +:+ "/").

(** The paths the frame links to: the menu, the profile in its footer, and
    the bell of the top bar. *)
Definition menu (role : UserRole) : list string := map path (concat (map items (roleNavGroups role))).
Definition topbar_links (role : UserRole) : list string := match role with viewer => [] | _ => ["/alerts"] end.
Definition links (role : UserRole) : list string := menu role ++ "/profile" :: topbar_links role.

(** Who the frame is for: the user, or what the page passed. *)
Definition effectiveRole (user : option AuthUser) (userRole : option UserRole) : UserRole :=
  match user with Some u => role u | None => userRole ?? viewer end.
Definition effectiveEmail (user : option AuthUser) (userRole : option UserRole) : string :=
  match user with
  | Some u => email u
  | None => match effectiveRole user userRole with
            | admin => "admin@quoodle.io" | operator => "ops.team@quoodle.io" | viewer => "viewer@quoodle.io" end
  end.
Definition effectiveName (user : option AuthUser) (userRole : option UserRole) : string :=
  match user with Some u => name u | None => roleLabels (effectiveRole user userRole) end.

(** *** Laws *)

Lemma prefixes_comparable c a b :
  startsWith c a = true -> startsWith c b = true -> startsWith a b = true \/ startsWith b a = true.
Proof.
  revert a b. induction c as [|x c IH]; intros [|y a] [|z b]; cbn; try done; auto.
  intros [->%Ascii.eqb_eq Ha]%andb_prop [->%Ascii.eqb_eq Hb]%andb_prop. rewrite Ascii.eqb_refl. by apply IH.
Qed.

Lemma active_prefix c p : isActive c p = true -> startsWith (c +:+ "/") (p +:+ "/") = true.
Proof.
  unfold isActive. intros [->%String.eqb_eq|[r ->]%startsWith_spec]%orb_prop; apply startsWith_spec.
  - exists "". by rewrite append_nil_r.
  - exists (r +:+ "/"). by rewrite append_assoc.
Qed.

(** No path of the menu lies below another. *)
Definition apart (l : list string) : bool :=
  forallb (fun p => forallb (fun q => (p === q) || negb (startsWith (p +:+ "/") (q +:+ "/"))) l) l.

Lemma one_active l c p q : apart l = true -> p ∈ l -> q ∈ l ->
  isActive c p = true -> isActive c q = true -> p = q.
Proof.
  unfold apart. rewrite forallb_forall. intros Ha Hp Hq Hcp%active_prefix Hcq%active_prefix.
  assert (forall a b, a ∈ l -> b ∈ l -> startsWith (a +:+ "/") (b +:+ "/") = true -> a = b) as H.
  { intros a b Hin Hin' Hs. apply list_elem_of_In in Hin, Hin'. specialize (Ha a Hin). rewrite forallb_forall in Ha.
    specialize (Ha b Hin'). rewrite Hs, orb_false_r in Ha. by apply String.eqb_eq. }
  destruct (prefixes_comparable _ _ _ Hcp Hcq); [by apply H|symmetry; by apply H].
Qed.

Lemma menu_apart r : apart (menu r) = true /\ bool_decide (NoDup (menu r)) = true.
Proof. by destruct r; vm_compute. Qed.

Lemma links_allowed r p : p ∈ links r -> may_openb r p = true /\ p <> "/" /\ p <> LOGIN_PATH.
Proof.
  assert (forallb (fun p => may_openb r p && (p !== "/") && (p !== LOGIN_PATH)) (links r) = true) as H
    by (by destruct r; vm_compute).
  rewrite forallb_forall in H. intros Hp%list_elem_of_In%H. apply andb_prop in Hp as [[H1 H2]%andb_prop H3].
  apply negb_true_iff, String.eqb_neq in H2, H3. done.
Qed.

(** The guard opens what the policy allows. *)
Lemma allowed_opens r cs ps p :
  signed_in cs -> normalizeRole (cs !! cookie_role) = Some r -> may_openb r p = true -> p <> "/" -> p <> LOGIN_PATH ->
  middleware {| nextUrl := {| pathname := p; searchParams := ps |}; cookies := cs |} = next.
Proof.
  intros Hs%signed_in_truthy Hr Hp H1%String.eqb_neq H2%String.eqb_neq. unfold middleware. cbn [nextUrl pathname cookies].
  rewrite Hs, H1, H2, Hr. cbn [negb]. destruct (startsWith p "/api/"); [done|]. destruct r; cbn in Hp; [done|by rewrite Hp..].
Qed.

(** [C9] The frame leads nowhere the guard closes: with the cookies of a role,
    every link of its menu, the profile and the bell open; the home of the
    role is in the menu; at most one entry of the menu is marked, on the page
    it leads to or below; and every page the guard opens to an operator or a
    viewer is in their menu, but for the profile and the details of a device. *)
Theorem navigation_sound (r : UserRole) (cs : gmap string string) (ps : list (string * string)) :
  signed_in cs -> normalizeRole (cs !! cookie_role) = Some r ->
  (forall p, p ∈ links r ->
     middleware {| nextUrl := {| pathname := p; searchParams := ps |}; cookies := cs |} = next)
  /\ roleHomePath r ∈ menu r
  /\ (forall c p q, p ∈ menu r -> q ∈ menu r -> isActive c p = true -> isActive c q = true -> p = q)
  /\ (forall p, p ∈ (match r with admin => [] | operator => OPERATOR_ALLOWED_PREFIXES | viewer => VIEWER_ALLOWED_PREFIXES end) ->
        p ∈ menu r \/ p = "/profile" \/ p = "/device-detail").
Proof.
  intros Hs Hr. split_and!.
  - intros p (H1 & H2 & H3)%links_allowed. by eapply allowed_opens.
  - apply has_true. by destruct r; vm_compute.
  - intros c p q. apply one_active, menu_apart.
  - intros p Hp. destruct (has (menu r) p) eqn:E; [left; by apply has_true|right].
    assert (forallb (fun p => has (menu r) p || (p === "/profile") || (p === "/device-detail"))
      (match r with admin => [] | operator => OPERATOR_ALLOWED_PREFIXES | viewer => VIEWER_ALLOWED_PREFIXES end) = true) as H
      by (by destruct r; vm_compute).
    rewrite forallb_forall in H. apply list_elem_of_In, H in Hp. rewrite E in Hp. cbn in Hp.
    apply orb_prop in Hp as [->%String.eqb_eq| ->%String.eqb_eq]; auto.
Qed.

Lemma navigation_sound_witness :
  let cs : gmap string string := <[cookie_jwt := "j"]> {[cookie_role := "viewer"]} in
  middleware {| nextUrl := {| pathname := "/audit"; searchParams := [] |}; cookies := cs |} = next.
Proof.
  apply (navigation_sound viewer (<[cookie_jwt := "j"]> {[cookie_role := "viewer"]}) []); [by exists "j"|done|].
  by apply has_true.
Defined.
End Navigation.

(** ** The theme *)

Module Theming.

Inductive ResolvedTheme := light_colours | dark_colours.
Inductive ThemePreference := prefer_light | prefer_dark | follow_system.

#[export] Instance preference_eq_dec : EqDecision ThemePreference.
Proof. solve_decision. Defined.

Definition preference_str (t : ThemePreference) : string :=
  match t with prefer_light => "light" | prefer_dark => "dark" | follow_system => "system" end.

Definition readStoredTheme (stored : option string) : ThemePreference :=
  match stored with
  | Some s => if s === "light" then prefer_light else if s === "dark" then prefer_dark else follow_system
  | None => follow_system
  end.

(** The provider; [stored] is the entry of [localStorage] and [os] what the
    system prefers now. *)
Record Provider := { theme : ThemePreference; systemTheme : ResolvedTheme; stored : option string; os : ResolvedTheme }.

Definition resolvedTheme (s : Provider) : ResolvedTheme :=
  match theme s with prefer_light => light_colours | prefer_dark => dark_colours | follow_system => systemTheme s end.

Definition mount (stored : option string) (os : ResolvedTheme) : Provider :=
  {| theme := readStoredTheme stored; systemTheme := os; stored := stored; os := os |}.

Definition setTheme (next : ThemePreference) (s : Provider) : Provider :=
  {| theme := next; systemTheme := match next with follow_system => os s | _ => systemTheme s end;
     stored := Some (preference_str next); os := os s |}.

Definition cycleTheme (s : Provider) : Provider :=
  setTheme (match theme s with follow_system => prefer_light | prefer_light => prefer_dark | prefer_dark => follow_system end) s.

(** The system changes; the page listens only while it follows it. *)
Definition system_changes (now : ResolvedTheme) (s : Provider) : Provider :=
  {| theme := theme s; systemTheme := match theme s with follow_system => now | _ => systemTheme s end;
     stored := stored s; os := now |}.

Inductive ThemeEvent := Choose (t : ThemePreference) | Cycle | SystemChanges (now : ResolvedTheme) | ReloadPage.

Definition theme_step (s : Provider) (e : ThemeEvent) : Provider :=
  match e with
  | Choose t => setTheme t s
  | Cycle => cycleTheme s
  | SystemChanges now => system_changes now s
  | ReloadPage => mount (stored s) (os s)
  end.

(** What the page promises: the colours of the preference, or the system's. *)
Definition promised (t : ThemePreference) (os : ResolvedTheme) : ResolvedTheme :=
  match t with prefer_light => light_colours | prefer_dark => dark_colours | follow_system => os end.

Definition theme_ok (s : Provider) : Prop :=
  (theme s = follow_system -> systemTheme s = os s) /\ readStoredTheme (stored s) = theme s.

Lemma theme_step_ok s e : theme_ok s -> theme_ok (theme_step s e).
Proof.
  assert (forall t s, theme_ok (setTheme t s)) as Hset by (by intros [] s'; split).
  intros [H1 H2]. destruct e as [t| |now|]; cbn.
  - apply Hset.
  - apply Hset.
  - split; cbn; [intros E; by rewrite E|done].
  - by split.
Qed.

(** However the user chooses, the system changes and the page is loaded
    again, the colours are those of the preference, the system's now if it is
    followed; loading again keeps the preference, and three clicks lead back
    to it. *)
Theorem theme_sound (entry : option string) (os0 : ResolvedTheme) (es : list ThemeEvent) :
  let s := fold_left theme_step es (mount entry os0) in
  resolvedTheme s = promised (theme s) (os s)
  /\ theme (theme_step s ReloadPage) = theme s
  /\ theme (cycleTheme (cycleTheme (cycleTheme s))) = theme s.
Proof.
  cbv zeta. assert (theme_ok (fold_left theme_step es (mount entry os0))) as Hok.
  { assert (theme_ok (mount entry os0)) as H by (by split). revert H. generalize (mount entry os0).
    induction es as [|e es IH]; intros s H; [done|]. cbn. by apply IH, theme_step_ok. }
  revert Hok. generalize (fold_left theme_step es (mount entry os0)). intros s [H1 H2]. split_and!.
  - unfold resolvedTheme, promised. destruct (theme s); auto.
  - exact H2.
  - unfold cycleTheme. cbn. by destruct (theme s).
Qed.
End Theming.

(** ** The live feed *)

Module LiveFeed.

(** An event by its id; the rest of it is passed on. *)
Record FeedItem (A : Type) := { feed_id : string; payload : A; seen : bool }.
Arguments feed_id {A}.
Arguments payload {A}.
Arguments seen {A}.
Arguments Build_FeedItem {A}.

Record LiveFeed (A : Type) := { feedEvents : list (FeedItem A); unreadCount : nat; previousIds : list string }.
Arguments feedEvents {A}.
Arguments unreadCount {A}.
Arguments previousIds {A}.
Arguments Build_LiveFeed {A}.

Section Feed.
Context {A : Type} (maxEvents : nat).

Definition feed_start : LiveFeed A := {| feedEvents := []; unreadCount := 0; previousIds := [] |}.

Definition unseen (l : list (FeedItem A)) : nat := count_if (fun e => negb (seen e)) l.

(** The effect that takes new events; [nextUnread] is counted on the way. *)
Definition receive (events : list (string * A)) (s : LiveFeed A) : LiveFeed A :=
  let incoming := take maxEvents events in
  let next := map (fun e => {| feed_id := e.1; payload := e.2; seen := has (previousIds s) e.1 |}) incoming in
  {| feedEvents := next; unreadCount := fold_left (fun n e => if seen e then n else n + 1) next 0;
     previousIds := set_of (map fst incoming) |}.

Definition feed_mark_all (s : LiveFeed A) : LiveFeed A :=
  {| feedEvents := map (fun e => {| feed_id := feed_id e; payload := payload e; seen := true |}) (feedEvents s);
     unreadCount := 0; previousIds := previousIds s |}.

Definition dismissEvent (x : string) (s : LiveFeed A) : LiveFeed A :=
  let evt := List.find (fun e => feed_id e === x) (feedEvents s) in
  {| feedEvents := List.filter (fun e => feed_id e !== x) (feedEvents s);
     unreadCount := match evt with Some e => if seen e then unreadCount s else unreadCount s - 1 | None => unreadCount s end;
     previousIds := previousIds s |}.

Inductive FeedEvent := Receive (events : list (string * A)) | MarkAll | DismissOne (x : string).

Definition feed_step (s : LiveFeed A) (e : FeedEvent) : LiveFeed A :=
  match e with Receive events => receive events s | MarkAll => feed_mark_all s | DismissOne x => dismissEvent x s end.

(** *** Laws *)

Definition feed_ok (s : LiveFeed A) : Prop :=
  unreadCount s = unseen (feedEvents s) /\ NoDup (map feed_id (feedEvents s)) /\ (length (feedEvents s) <= maxEvents)%nat.

Definition distinct_events (e : FeedEvent) : Prop := match e with Receive l => NoDup (map fst l) | _ => True end.

Lemma counted_unseen (l : list (FeedItem A)) n : fold_left (fun n e => if seen e then n else n + 1) l n = n + unseen l.
Proof.
  unfold unseen, count_if. revert n. induction l as [|e l IH]; intros n; cbn [fold_left]; [cbn; lia|].
  rewrite IH. cbn. destruct (seen e); cbn; lia.
Qed.

Lemma seen_all (l : list (FeedItem A)) : unseen (map (fun e => {| feed_id := feed_id e; payload := payload e; seen := true |}) l) = 0.
Proof. unfold unseen, count_if. by induction l. Qed.

Lemma drop_absent x (l : list (FeedItem A)) : x ∉ map feed_id l -> List.filter (fun e => feed_id e !== x) l = l.
Proof.
  induction l as [|e l IH]; [done|]. cbn. rewrite not_elem_of_cons. intros [Hne Hl]. rewrite IH by done.
  destruct (feed_id e === x) eqn:E; [|done]. by apply String.eqb_eq in E.
Qed.

(** Dismissing takes off the badge what it takes off the list. *)
Lemma dismiss_unseen x (l : list (FeedItem A)) : NoDup (map feed_id l) ->
  unseen (List.filter (fun e => feed_id e !== x) l)
  = match List.find (fun e => feed_id e === x) l with
    | Some e => if seen e then unseen l else unseen l - 1
    | None => unseen l
    end.
Proof.
  unfold unseen, count_if. induction l as [|e l IH]; [done|]. cbn [map]. intros [He Hl]%list.NoDup_cons. cbn [List.filter List.find].
  destruct (feed_id e === x) eqn:E; cbn [negb].
  - apply String.eqb_eq in E as <-. rewrite drop_absent by done. destruct (seen e); cbn; lia.
  - cbn [List.filter]. specialize (IH Hl). revert IH.
    destruct (List.find _ l) as [e'|] eqn:Ef; intros IH; [|destruct (negb (seen e)); cbn; lia].
    assert (seen e' = false -> 0 < length (List.filter (fun e => negb (seen e)) l)) as Hpos.
    { intros Hs. apply find_some in Ef as [Hin _]. destruct (List.filter (fun e => negb (seen e)) l) eqn:El; [|cbn; lia].
      assert (In e' []) as []. rewrite <- El. apply filter_In. by rewrite Hs. }
    destruct (seen e'); [destruct (negb (seen e)); cbn; lia|]. specialize (Hpos eq_refl). destruct (negb (seen e)); cbn; lia.
Qed.

Lemma dropped_ids x (l : list (FeedItem A)) : NoDup (map feed_id l) -> NoDup (map feed_id (List.filter (fun e => feed_id e !== x) l)).
Proof.
  induction l as [|e l IH]; [done|]. cbn. intros [He Hl]%list.NoDup_cons. destruct (negb _); [|auto]. cbn.
  apply list.NoDup_cons. split; [|auto]. intros (e' & Hx & Hin)%list_elem_of_fmap. apply He. rewrite Hx.
  apply list_elem_of_fmap_2. apply list_elem_of_In, filter_In in Hin as [Hin _]. by apply list_elem_of_In.
Qed.

Lemma live_step_ok s e : distinct_events e -> feed_ok s -> feed_ok (feed_step s e).
Proof.
  intros He (H1 & H2 & H3). destruct e as [events| |x]; cbn.
  - split_and!; cbn.
    + apply (counted_unseen _ 0).
    + rewrite map_map. cbn. change (map (fun x => x.1) (take maxEvents events)) with (fst <$> take maxEvents events).
      rewrite fmap_take. eapply sublist_NoDup; [apply He|apply sublist_take].
    + rewrite length_map, length_take. lia.
  - split_and!; cbn -[unseen]; [by rewrite seen_all|by rewrite map_map|by rewrite length_map].
  - split_and!; cbn -[unseen].
    + rewrite dismiss_unseen, H1 by done. done.
    + by apply dropped_ids.
    + etransitivity; [apply filter_length_le|done].
Qed.

(** As long as the events that come have different ids, the badge is the
    number of new events in the list, and the list has no more than its
    limit, however marking, dismissing and new events interleave. *)
Theorem feed_badge_exact (es : list FeedEvent) :
  List.Forall distinct_events es ->
  let s := fold_left feed_step es feed_start in
  unreadCount s = unseen (feedEvents s) /\ (length (feedEvents s) <= maxEvents)%nat.
Proof.
  intros Hes. cbv zeta. assert (feed_ok (fold_left feed_step es feed_start)) as (H1 & _ & H3); [|done].
  assert (feed_ok feed_start) as H by (split_and!; [done|constructor|cbn; lia]). revert H. generalize feed_start.
  induction Hes as [|e es He _ IH]; intros s H; [done|]. cbn. by apply IH, live_step_ok.
Qed.
End Feed.

Lemma feed_badge_exact_witness :
  let s := fold_left (feed_step 12) [Receive [("e1", tt); ("e2", tt)]; DismissOne "e1"] feed_start in
  unreadCount s = 1 /\ unreadCount s = unseen (feedEvents s).
Proof.
  split; [done|]. apply (feed_badge_exact 12 [Receive [("e1", tt); ("e2", tt)]; DismissOne "e1"]).
  repeat constructor; by apply (bool_decide_unpack _).
Defined.

(** An event that was dismissed is back with the next events. *)
Lemma dismissed_returns :
  let s := fold_left (feed_step 12) [Receive [("e1", tt)]; DismissOne "e1"; Receive [("e1", tt)]] feed_start in
  map feed_id (feedEvents s) = ["e1"].
Proof. done. Qed.
End LiveFeed.

(** ** The dialog for exports *)

Module Exporting.

Inductive Format := csv | pdf.

Record Dialog := { format : Format; dateFrom : string; dateTo : string; selectedFields : list string; exporting : bool }.

#[export] Instance eta_dialog : Eta Dialog := fun d =>
  {| format := format d; dateFrom := dateFrom d; dateTo := dateTo d; selectedFields := selectedFields d;
     exporting := exporting d |}.

(** A field by its key, and whether it is selected at first. *)
Definition open_dialog (fields : list (string * bool)) (week_ago today : string) : Dialog :=
  {| format := csv; dateFrom := week_ago; dateTo := today;
     selectedFields := set_of (map fst (List.filter snd fields)); exporting := false |}.

Definition toggleField (key : string) (d : Dialog) : Dialog := d <| selectedFields := set_toggle key (selectedFields d) |>.
Definition selectAll (fields : list (string * bool)) (d : Dialog) : Dialog := d <| selectedFields := set_of (map fst fields) |>.
Definition clearAll (d : Dialog) : Dialog := d <| selectedFields := [] |>.
Definition applyPreset (from today : string) (d : Dialog) : Dialog := d <| dateFrom := from |> <| dateTo := today |>.

(** What leaves the dialog: a call of the page that opened it, or, without
    one, a message only. *)
Inductive Exported := Handed (f : Format) (from to : string) (keys : list string) | Announced (f : Format) (n : nat).

(** The button, and the timer it starts, which uses what it closed over. *)
Definition handleExport (d : Dialog) : Dialog * bool :=
  match selectedFields d with
  | [] => (d, false)
  | _ => if exporting d then (d, false) else (d <| exporting := true |>, true)
  end.

Definition timer_fires (onExport : bool) (d : Dialog) : Exported :=
  if onExport then Handed (format d) (dateFrom d) (dateTo d) (selectedFields d)
  else Announced (format d) (length (selectedFields d)).

Inductive DialogEvent := ToggleField (key : string) | SelectAll | ClearAll | Preset (from today : string) | SetFormat (f : Format)
| PressExport.

Definition dialog_step (fields : list (string * bool)) (d : Dialog) (e : DialogEvent) : Dialog :=
  match e with
  | ToggleField key => if has (map fst fields) key then toggleField key d else d
  | SelectAll => selectAll fields d
  | ClearAll => clearAll d
  | Preset from today => applyPreset from today d
  | SetFormat f => d <| format := f |>
  | PressExport => (handleExport d).1
  end.

Definition dialog_ok (fields : list (string * bool)) (d : Dialog) : Prop :=
  NoDup (selectedFields d) /\ selectedFields d ⊆ map fst fields.

Lemma dialog_step_ok fields d e : dialog_ok fields d -> dialog_ok fields (dialog_step fields d e).
Proof.
  intros Hd. pose proof Hd as [H1 H2]. destruct e as [key| | | | |]; cbn; try done.
  - destruct (has (map fst fields) key) eqn:E; [|done]. split; cbn; [by apply set_toggle_nodup|].
    intros x Hx. apply elem_of_toggle in Hx; [|done]. apply has_true in E. destruct (decide (key = x)) as [<-|]; [done|auto].
  - split; [apply set_of_nodup|]. intros x Hx. by rewrite <- elem_of_set_of.
  - split; [constructor|]. apply list_subseteq_nil.
  - unfold handleExport. destruct (selectedFields d) eqn:E; [exact Hd|].
    destruct (exporting d); exact Hd.
Qed.

(** What is handed over are fields of the dialog, each once, at least one,
    whatever was clicked before; a second click does not export again. *)
Theorem export_sound (fields : list (string * bool)) (week_ago today : string) (es : list DialogEvent) :
  let d := fold_left (dialog_step fields) es (open_dialog fields week_ago today) in
  dialog_ok fields d
  /\ ((handleExport d).2 = true -> selectedFields d <> [] /\ (handleExport (handleExport d).1).2 = false).
Proof.
  cbv zeta. split.
  - assert (dialog_ok fields (open_dialog fields week_ago today)) as H.
    { split; cbn; [apply set_of_nodup|]. intros x Hx. rewrite elem_of_set_of in Hx. apply list_elem_of_fmap in Hx as ([k b] & -> & Hin).
      apply list_elem_of_In, filter_In in Hin as [Hin _]. by apply list_elem_of_fmap_2, list_elem_of_In. }
    revert H. generalize (open_dialog fields week_ago today). induction es as [|e es IH]; intros d H; [done|].
    cbn. by apply IH, dialog_step_ok.
  - generalize (fold_left (dialog_step fields) es (open_dialog fields week_ago today)). intros d. unfold handleExport.
    destruct (selectedFields d) eqn:E; cbn; [done|]. destruct (exporting d); [done|]. intros _. cbn. by rewrite E.
Qed.

(** Without a page that exports, the dialog announces a file that is not made. *)
Lemma announced_only d : timer_fires false d = Announced (format d) (length (selectedFields d)).
Proof. done. Qed.
End Exporting.

(** ** The timeline of a command *)

Module Timeline.
Import Results(CommandState, queued, dispatched, ack_received, executing, completed, failed, expired, rejected).

Record Command := {
  state : CommandState;
  queuedAtIso : option string;
  dispatchedAtIso : option string;
  ackAtIso : option string;
  completedAtIso : option string;
}.

(** [stateOrder.indexOf(command.state)]; [None] is -1. *)
Definition currentIndex (s : CommandState) : option nat :=
  match s with
  | queued => Some 0 | dispatched => Some 1 | ack_received => Some 2 | executing => Some 3 | completed => Some 4
  | failed | expired | rejected => None
  end.

Definition isFailed (s : CommandState) : bool :=
  match s with failed | expired | rejected => true | _ => false end.

Definition at_least (k : nat) (s : CommandState) : bool :=
  match currentIndex s with Some i => Nat.leb k i | None => false end.

Definition given (iso : option string) : bool := match iso with Some s => truthy_str s | None => false end.

(** Whether each step of the timeline is done. *)
Definition timelineSteps (c : Command) : list (string * bool) :=
  [("Queued", given (queuedAtIso c));
   ("Dispatched", given (dispatchedAtIso c) || at_least 1 (state c));
   ("ACK Received", given (ackAtIso c) || at_least 2 (state c));
   ("Executing", at_least 3 (state c));
   ("Completed", given (completedAtIso c) || at_least 4 (state c))].

Record Mark := { isReached : bool; isActive : bool; isFinalFailed : bool }.

Definition marks (c : Command) : list Mark :=
  imap (fun index st =>
    let here := bool_decide (currentIndex (state c) = Some index) in
    {| isReached := negb (isFailed (state c)) && st.2;
       isActive := negb (isFailed (state c)) && here && match state c with completed => false | _ => true end;
       isFinalFailed := isFailed (state c) && here |}) (timelineSteps c).

Definition can_retry (s : CommandState) : bool := match s with failed | expired => true | _ => false end.

(** A command that goes well has at most one active step, the one of its
    state, and has reached every step up to it but the first, which its time
    decides. *)
Theorem timeline_sound (c : Command) :
  isFailed (state c) = false ->
  (forall i m, marks c !! i = Some m -> isActive m = true -> currentIndex (state c) = Some i)
  /\ (forall i m k, marks c !! i = Some m -> currentIndex (state c) = Some k -> (1 <= i <= k)%nat -> isReached m = true).
Proof.
  intros Hf. split.
  - intros i m Hm Ha. unfold marks in Hm. rewrite list_lookup_imap in Hm.
    destruct (timelineSteps c !! i); [|done]. cbn in Hm. injection Hm as <-. cbn in Ha. rewrite Hf in Ha. cbn in Ha.
    apply andb_prop in Ha as [Ha _]. by apply bool_decide_eq_true in Ha.
  - intros i m k Hm Hk Hi. unfold marks in Hm. rewrite list_lookup_imap in Hm.
    destruct (timelineSteps c !! i) as [st|] eqn:E; [|done]. cbn in Hm. injection Hm as <-. cbn. rewrite Hf. cbn.
    assert (at_least i (state c) = true) as Hl by (unfold at_least; rewrite Hk; apply Nat.leb_le; lia).
    destruct i as [|[|[|[|[|i]]]]]; cbn in E; try lia; [injection E as <-; cbn; by rewrite ?Hl, ?orb_true_r..|done].
Qed.

Lemma timeline_sound_witness :
  let c := {| state := executing; queuedAtIso := Some "t"; dispatchedAtIso := None; ackAtIso := None; completedAtIso := None |} in
  forall m, marks c !! 2 = Some m -> isReached m = true.
Proof.
  intros c m Hm. destruct (timeline_sound c eq_refl) as [_ H]. apply (H 2 m 3 Hm eq_refl). lia.
Defined.

(** A command that failed shows no step as reached, not even those whose time
    is known, and never marks the step it failed at. *)
Lemma failed_shows_nothing c :
  isFailed (state c) = true -> List.Forall (fun m => isReached m = false /\ isFinalFailed m = false) (marks c).
Proof. unfold marks. destruct c as [[] ? ? ? ?]; try done; intros _; repeat constructor; done. Qed.
End Timeline.
