(* ===== verification/CopilotCards.v ===== *)
(** * What the copilot shows

    The components of src/app/device-detail/components/copilot that turn the
    items of a conversation into what is read: CopilotArtifactCard.tsx,
    CopilotEvidenceChips.tsx, CopilotTranscript.tsx, CopilotStateNotice.tsx
    and the keys of CopilotComposer.tsx, as texts and kinds of boxes; colours
    of boxes are left out.  [locale_time] is [toLocaleTimeString] of a time. *)

From stdpp Require Import gmap.
From S2P Require Import Prelude JsNumber JsString JsValue Http Session Copilot CopilotPanel.

(** ** The artifact *)

Definition confidenceTone (b : CopilotConfidenceBand) : string :=
  match b with high => "text-green-400" | medium => "text-amber-400" | low => "text-red-400" | unknown_band => "text-muted-foreground" end.

Definition band_str (b : CopilotConfidenceBand) : string :=
  match b with low => "low" | medium => "medium" | high => "high" | unknown_band => "unknown" end.

(** A number of seconds in its unit. *)
Definition in_unit (x : num) : string :=
  if Num.lt x (Num.of_Z 60) then Num.to_string (Num.round x) +:+ "s"
  else if Num.lt x (Num.of_Z 3600) then Num.to_string (Num.round (Num.div x (Num.of_Z 60))) +:+ "m"
  else Num.to_string (Num.round (Num.div x (Num.of_Z 3600))) +:+ "h".

Definition freshnessValue (x : option num) : string := match x with None => "Unknown" | Some x => in_unit x end.

Definition carriage_return : ascii := ascii_of_N 13.
Definition line_end : ascii := ascii_of_N 10.
Definition ends_line (c : ascii) : bool := Ascii.eqb c line_end || Ascii.eqb c carriage_return.

(** [.replace(/\r\n/g, '\n')] *)
Fixpoint unix_lines (s : string) : string :=
  match s with
  | "" => ""
  | String c r =>
      if Ascii.eqb c carriage_return then
        match r with String d _ => if Ascii.eqb d line_end then unix_lines r else String c (unix_lines r) | "" => String c "" end
      else String c (unix_lines r)
  end.

(** [.replace(/^#{1,6}\s*/gm, '')], by the place in the text: in a line, or
    at its start; in the marks, of which some more belong to the match; in
    the white space after them, which may run over lines. *)
Inductive Place := InText (start : bool) | InMarks (more : nat) | InSpace (start : bool).

Fixpoint unmarked (p : Place) (s : string) : string :=
  match s with
  | "" => ""
  | String c r =>
      let text start := if start && Ascii.eqb c "#" then unmarked (InMarks 5) r else String c (unmarked (InText (ends_line c)) r) in
      match p with
      | InText start => text start
      | InMarks (S more) =>
          if Ascii.eqb c "#" then unmarked (InMarks more) r
          else if is_ws c then unmarked (InSpace (ends_line c)) r else text false
      | InMarks O => if is_ws c then unmarked (InSpace (ends_line c)) r else text false
      | InSpace start => if is_ws c then unmarked (InSpace (ends_line c)) r else text start
      end
  end.

(** [.replace(/\*\*/g, '')] *)
Fixpoint unstarred (s : string) : string :=
  match s with
  | "" => ""
  | String c r =>
      if Ascii.eqb c "*" then
        match r with String d r' => if Ascii.eqb d "*" then unstarred r' else String c (unstarred r) | "" => String c "" end
      else String c (unstarred r)
  end.

Definition cleanAnswerText (text : string) : string := trim (unstarred (unmarked (InText true) (unix_lines text))).

(** [s.replace('_', ' ')]: the first one only. *)
Fixpoint first_underscore (s : string) : string :=
  match s with
  | "" => ""
  | String c r => if Ascii.eqb c "_" then String " " r else String c (first_underscore r)
  end.

Definition confidence_text (c : CopilotConfidence) : string :=
  "Confidence " +:+ band_str (band c) +:+ (match score c with Some x => " (" +:+ Num.to_fixed 2 x +:+ ")" | None => "" end).

(** ** References *)

Definition freshnessLabel (x : option num) : string :=
  match x with
  | None => "freshness unknown"
  | Some x => if Num.is_finite x then in_unit x +:+ " old" else "freshness unknown"
  end.

Definition slength := String.length.

(** [compact] with the lengths it is called with, 10 and 8. *)
Definition compact (value : string) : string :=
  if Nat.leb (slength value) 19 then value else stake 10 value +:+ "..." +:+ sdrop (slength value - 8) value.

Record Chip := { chip_label : string; chip_title : string; chip_key : string; chip_href : option string }.

Definition chip (row : CopilotEvidenceRef) : Chip :=
  let sourceType := trim (source_type row) in
  let sourceId := trim (source_id row) in
  {| chip_label := if negb (sourceId === "") && negb (sourceId === sourceType) then sourceType +:+ ":" +:+ compact sourceId
                   else sourceType;
     chip_title := (excerpt_summary row ?? (sourceType +:+ ":" +:+ sourceId)) +:+ " | " +:+ freshnessLabel (freshness_seconds row);
     chip_key := source_type row +:+ "-" +:+ source_id row +:+ "-" +:+ Num.to_string (rank row ?? Num.zero);
     chip_href := if isSafeRelativeHref (href row) then href row else None |}.

(** ** The transcript *)

Inductive NoticeKind := loading_notice | degraded_box | unavailable_box.

Inductive Shown :=
| Question (text time : string)
| Answer (text time : string)
| Artifact (card : CopilotAnswerArtifact)
| Ledger (chips : list Chip)
| Missing (items : list string)
| Notice (kind : NoticeKind) (title message : string) (correlation : option string)
| Suggested (prompts : list string)
| Plain (text : string).

Section Clock.
Context (date_parse : string -> option Z) (locale_time : Z -> string).

Definition timeLabel (timestamp : jsval) : string :=
  match timestamp with
  | JStr s => if truthy_str s then match date_parse s with Some t => locale_time t | None => "" end else ""
  | _ => ""
  end.

(** [{correlationId && ...}]: an empty id is not shown. *)
Definition correlation_shown (id : option string) : option string :=
  match id with Some s => if truthy_str s then Some s else None | None => None end.

Definition shown_item (i : CopilotTranscriptItem) : Shown :=
  match item i with
  | user_message text => Question text (timeLabel (item_timestamp i))
  | assistant_answer text => Answer text (timeLabel (item_timestamp i))
  | answer_artifact a => Artifact a
  | evidence_group evidence => Ledger (map chip evidence)
  | missing_info_warning items => Missing items
  | degraded_response_notice reason => Notice degraded_box "Degraded response" reason None
  | unavailable_notice text id => Notice unavailable_box "Copilot unavailable" text (correlation_shown id)
  | suggested_prompts_item prompts => Suggested prompts
  | system_status text st_loading => Notice loading_notice "Gathering evidence..." text None
  | system_status text _ => Plain text
  end.
End Clock.

(** ** The composer *)

(** A key in the text: whether its default is prevented, and whether the
    question is submitted. *)
Definition onKeyDown (disabled : bool) (key : string) (shift : bool) : bool * bool :=
  if (key === "Enter") && negb shift then (true, negb disabled) else (false, false).

Definition send_disabled (disabled : bool) (value : string) : bool := disabled || (trim value === "").

(** ** Laws *)

Lemma includes_tail c s needle : includes (String c s) needle = false -> includes s needle = false.
Proof. cbn. by intros [_ H]%orb_false_iff. Qed.

Lemma startsWith_prefix a b p : startsWith a p = true -> startsWith (a +:+ b) p = true.
Proof. intros [r ->]%startsWith_spec. rewrite append_assoc. apply startsWith_app. Qed.

Lemma includes_prefix a b needle : includes (a +:+ b) needle = false -> includes a needle = false.
Proof.
  induction a as [|c a IH]; cbn [includes String.append].
  - intros H. destruct needle; [|done]. by destruct b.
  - intros [H1 H2]%orb_false_iff. apply orb_false_iff. split; [|by apply IH].
    destruct (startsWith (String c a) needle) eqn:E; [|done]. by rewrite (startsWith_prefix (String c a) b) in H1.
Qed.

Lemma trimEnd_prefix s : exists r, s = trimEnd s +:+ r.
Proof.
  induction s as [|c s [r IH]]; [by exists ""|]. cbn. case_match.
  - by exists (String c s).
  - exists r. cbn. congruence.
Qed.

Lemma includes_trim s needle : includes s needle = false -> includes (trim s) needle = false.
Proof.
  intros H. unfold trim. destruct (trimEnd_prefix s) as [r Hr]. rewrite Hr in H. apply includes_prefix in H. clear Hr.
  induction (trimEnd s) as [|c t IH]; [done|]. cbn [trimStart]. case_match; [|done]. by apply IH, (includes_tail c).
Qed.

Lemma unstarred_no_bold s : includes (unstarred s) "**" = false.
Proof.
  remember (String.length s) as n eqn:Hn. revert s Hn. induction n as [n IH] using lt_wf_ind. intros s ->.
  destruct s as [|c r]; [done|]. cbn [unstarred]. destruct (Ascii.eqb_spec c "*") as [->|Hc].
  - destruct r as [|d r']; [done|]. destruct (Ascii.eqb_spec d "*") as [->|Hd].
    + eapply IH; [|done]. cbn. lia.
    + assert (includes (unstarred (String d r')) "**" = false) as Hr by (eapply IH; [|done]; cbn; lia).
      rewrite <- Ascii.eqb_neq in Hd. cbn [unstarred] in *. rewrite Hd in *.
      change (startsWith (String "*" (String d (unstarred r'))) "**" || includes (String d (unstarred r')) "**" = false).
      rewrite Hr, orb_false_r. cbn [startsWith]. by rewrite (Ascii.eqb_sym _ d), Hd.
  - assert (includes (unstarred r) "**" = false) as Hr by (eapply IH; [|done]; cbn; lia). cbn [includes]. rewrite Hr, orb_false_r.
    rewrite <- Ascii.eqb_neq, Ascii.eqb_sym in Hc. cbn [startsWith]. by rewrite Hc.
Qed.

(** A character that no replacement touches. *)
Definition untouched (c : ascii) : bool := negb (Ascii.eqb c "#" || Ascii.eqb c "*" || Ascii.eqb c carriage_return).

Lemma untouched_stages s : sforall untouched s = true ->
  unix_lines s = s /\ (forall b, unmarked (InText b) s = s) /\ unstarred s = s.
Proof.
  induction s as [|c s IH]; [done|]. cbn [sforall]. intros [Hc Hs]%andb_prop. destruct (IH Hs) as (H1 & H2 & H3).
  apply negb_true_iff in Hc. apply orb_false_iff in Hc as [[Hh Ht]%orb_false_iff Hr].
  cbn [unix_lines unmarked unstarred]. rewrite Hr, Ht, Hh, H1, H3. split_and!; [done| |done]. intros b. by rewrite andb_false_r, H2.
Qed.

(** An answer is shown without marks of bold text, whatever the text; one
    without any marks is shown as it is, up to the space around it. *)
Theorem answer_text_clean (text : string) :
  includes (cleanAnswerText text) "**" = false
  /\ (sforall untouched text = true -> cleanAnswerText text = trim text).
Proof.
  unfold cleanAnswerText. split; [apply includes_trim, unstarred_no_bold|].
  intros (H1 & H2 & H3)%untouched_stages. by rewrite H1, H2, H3.
Qed.

Lemma sdrop_length n s : slength (sdrop n s) = slength s - n.
Proof. revert s. induction n as [|n IH]; intros [|c s]; cbn; [done..|apply IH]. Qed.

(** A reference is labelled with at most 21 characters of its id, and a short
    one with all of it. *)
Lemma compact_short value : slength (compact value) <= 21 /\ (slength value <= 19 -> compact value = value).
Proof.
  unfold compact. destruct (Nat.leb_spec (slength value) 19) as [H|H]; [split; [lia|done]|]. split; [|lia].
  pose proof (length_stake 10 value). pose proof (sdrop_length (slength value - 8) value). unfold slength in *.
  rewrite !length_append. cbn [String.length]. lia.
Qed.

(** A chip links only within the site. *)
Lemma chip_links_inside row h : chip_href (chip row) = Some h -> isSafeRelativeHref (Some h) = true.
Proof. cbn. case_match eqn:E; [|done]. intros Hh. by rewrite Hh in E. Qed.

(** Nothing of a conversation is left out, and its order is kept. *)
Lemma transcript_shown date_parse locale_time l k i :
  l !! k = Some i -> map (shown_item date_parse locale_time) l !! k = Some (shown_item date_parse locale_time i).
Proof. intros H. by rewrite list_lookup_fmap, H. Qed.

(** Enter on a blank text submits nothing, and while a question is under way
    no key does. *)
Lemma enter_on_blank key shift w now iso :
  send_disabled false (composerValue (panel w)) = true ->
  (onKeyDown (composer_disabled (panel w)) key shift).2 = true ->
  submitAsk (composerValue (panel w)) now iso w = w.
Proof. unfold send_disabled, submitAsk. cbn. intros ->%String.eqb_eq _. done. Qed.

Lemma keys_while_sending p key shift : sending p = true -> (onKeyDown (composer_disabled p) key shift).2 = false.
Proof. intros H. unfold onKeyDown, composer_disabled. rewrite H. by case_match. Qed.
