(* ===== verification/Sections.v ===== *)
(** * Parts of pages

    The section of an audit trail with its controls
    (src/components/AuditTrailSection.tsx, whose filters and export are in
    AuditTrail.v), the trail of the page of devices
    (src/app/device-management/components/DeviceManagementAuditTrail.tsx), the
    frame of the dashboard (src/app/dashboard/page.tsx) and the picture with a
    substitute (src/components/ui/AppImage.tsx), each with its laws. *)

From stdpp Require Import sets.
From S2P Require Import Prelude JsNumber JsString JsValue Auth Http Session Commands RenderModel RenderLaws Devices AuditTrail Client Dashboard Loader.

(** ** The section of a trail *)

Module TrailSection.
Import Rows(AuditEntry, eventType, actor, audit_timestamp).

(** What the parent passes, and the state of the section. *)
Record SectionProps := { entries : list AuditEntry; maxRows : nat; loading : bool; failure : option string }.
Record SectionState := { filters : Filters; expanded : bool; showDatePicker : bool }.

#[export] Instance eta_section : Eta SectionState := fun s =>
  {| filters := filters s; expanded := expanded s; showDatePicker := showDatePicker s |}.

Definition section_init : SectionState :=
  {| filters := {| typeFilter := None; actorFilter := None; dateFrom := ""; dateTo := "" |}; expanded := false; showDatePicker := false |}.

Definition shown (p : SectionProps) (s : SectionState) : list AuditEntry := filtered (loading p) (failure p) (filters s) (entries p).
Definition rows (p : SectionProps) (s : SectionState) : list AuditEntry := visible (expanded s) (maxRows p) (shown p s).

Definition hasDateFilter (s : SectionState) : bool := truthy_str (dateFrom (filters s)) || truthy_str (dateTo (filters s)).

Definition has_failed (p : SectionProps) : bool := or_else (fun _ => true) (failure p) false.

(** The body of the table. *)
Inductive Body := Loading | Failed | Nothing | Table (l : list AuditEntry).

Definition body (p : SectionProps) (s : SectionState) : Body :=
  if loading p then Loading
  else if has_failed p then Failed
  else match rows p s with [] => Nothing | l => Table l end.

(** The button below it: nothing, fewer, or so many more. *)
Inductive More := NoButton | ShowLess | ShowMore (n : nat).

Definition more (p : SectionProps) (s : SectionState) : More :=
  if negb (loading p) && negb (has_failed p) && Nat.ltb (maxRows p) (length (shown p s))
  then if expanded s then ShowLess else ShowMore (length (shown p s) - maxRows p)
  else NoButton.

(** The number on a pill: of all entries, or of those of a type. *)
Definition pill_count (p : SectionProps) (t : option string) : nat :=
  match t with None => length (entries p) | Some t => facet_count (entries p) t end.

Inductive SectionEvent :=
| ChooseActor (a : option string) | ChooseType (t : option string)
| TogglePicker | TypeFrom (text : string) | TypeTo (text : string) | ClearDates | ApplyDates
| ToggleExpanded.

Definition setFilters (f : Filters) (s : SectionState) : SectionState := s <| filters := f |>.

Definition section_step (e : SectionEvent) (s : SectionState) : SectionState :=
  let f := filters s in
  match e with
  | ChooseActor a => setFilters {| typeFilter := typeFilter f; actorFilter := a; dateFrom := dateFrom f; dateTo := dateTo f |} s
  | ChooseType t => setFilters {| typeFilter := t; actorFilter := actorFilter f; dateFrom := dateFrom f; dateTo := dateTo f |} s
  | TogglePicker => s <| showDatePicker := negb (showDatePicker s) |>
  | TypeFrom d => setFilters {| typeFilter := typeFilter f; actorFilter := actorFilter f; dateFrom := d; dateTo := dateTo f |} s
  | TypeTo d => setFilters {| typeFilter := typeFilter f; actorFilter := actorFilter f; dateFrom := dateFrom f; dateTo := d |} s
  | ClearDates => setFilters (clearDateFilter f) s <| showDatePicker := false |>
  | ApplyDates => s <| showDatePicker := false |>
  | ToggleExpanded => s <| expanded := negb (expanded s) |>
  end.

(** What the table shows and what its button promises are all the entries
    that pass the filters: the rows are the first of them, and with the
    number on the button they make up the count in the head. *)
Theorem section_accounts_for_all (p : SectionProps) (s : SectionState) :
  rows p s `prefix_of` shown p s
  /\ match more p s with
     | ShowMore n => length (rows p s) = maxRows p /\ length (rows p s) + n = length (shown p s)
     | ShowLess | NoButton => loading p = true \/ has_failed p = true \/ rows p s = shown p s
     end.
Proof.
  unfold rows, more, visible. split.
  { destruct (expanded s); [done|apply prefix_take]. }
  destruct (loading p); cbn [negb andb]; [by left|]. destruct (has_failed p); cbn [negb andb]; [by right; left|].
  destruct (Nat.ltb_spec (maxRows p) (length (shown p s))); destruct (expanded s); try (by right; right).
  - rewrite length_take. lia.
  - right; right. by rewrite take_ge.
Qed.

(** The table is empty only when nothing passes, and says so. *)
Lemma section_body_nothing p s :
  0 < maxRows p -> (body p s = Nothing <-> loading p = false /\ has_failed p = false /\ shown p s = []).
Proof.
  intros Hm. unfold body, rows, visible. destruct (loading p); [naive_solver|].
  destruct (has_failed p); [naive_solver|]. destruct (shown p s) as [|x l] eqn:E.
  - destruct (expanded s); cbn; rewrite ?take_nil; naive_solver.
  - destruct (expanded s); [naive_solver|]. destruct (maxRows p); [lia|]. cbn. naive_solver.
Qed.

(** Clearing the dates clears them, closes the picker and leaves the rest. *)
Lemma clear_dates s :
  hasDateFilter (section_step ClearDates s) = false /\ showDatePicker (section_step ClearDates s) = false
  /\ typeFilter (filters (section_step ClearDates s)) = typeFilter (filters s)
  /\ actorFilter (filters (section_step ClearDates s)) = actorFilter (filters s) /\ expanded (section_step ClearDates s) = expanded s.
Proof. done. Qed.

(** An actor stays chosen when the entries no longer have any of theirs: the
    list of actors does not offer the choice and the table is empty. *)
Lemma absent_actor_hides_all p s a :
  actorFilter (filters s) = Some a -> Forall (fun e => actor e <> a) (entries p) -> shown p s = [].
Proof.
  intros Ha H. unfold shown, filtered. case_match; [done|]. induction H as [|e l He _ IH]; [done|]. cbn.
  assert (passes (filters s) e = false) as ->; [|done]. apply String.eqb_neq in He. unfold passes. rewrite Ha. cbn [is_all_or].
  by rewrite He, andb_false_r.
Qed.
End TrailSection.

(** ** The trail of the page of devices *)

Module DeviceTrail.
Import Rows(AuditEntry, DeviceCommandRowApi, DeviceAlertApi, composeAuditEntries).

Section Zone.
Context (date_parse : string -> option Z) (local : Z -> LocalTime) (clock_text : nat -> string).

(** [user?.role ? user.role !== 'viewer' : false] *)
Definition canViewAlerts (role : option UserRole) : bool :=
  match role with Some viewer | None => false | Some _ => true end.

Context (can_view : bool).

(** The two responses; a body may lack its list. *)
Record Answers := {
  commandsRes : Reply (option (list DeviceCommandRowApi));
  alerts_sent : Reply (option (list DeviceAlertApi));
}.

(** A user who may not see alerts is not asked for any: the response is made
    up in the page. *)
Definition alertsRes (a : Answers) : Reply (option (list DeviceAlertApi)) :=
  if can_view then alerts_sent a else Replied 200 (Some (Some [])).

(** A list that is read from a response if it was asked for and is ok. *)
Definition list_of {A} (asked : bool) (r : Reply (option (list A))) : option (list A) :=
  if asked && reply_ok r then (fun l => l ?? []) <$> payload_of r else Some [].

Definition reachable {A} (r : Reply A) : bool := match r with Unreachable => false | Replied _ _ => true end.

(** The entries of a load, unless it throws. *)
Definition loaded (a : Answers) : option (list AuditEntry) :=
  if negb (reachable (commandsRes a) && reachable (alertsRes a)) then None
  else if negb (reply_ok (commandsRes a)) && negb (reply_ok (alertsRes a)) then None
  else
    commands ← list_of true (commandsRes a);
    alerts ← list_of can_view (alertsRes a);
    Some (composeAuditEntries date_parse local clock_text commands alerts).

Definition trail_end (mode : Mode) (a : Answers) (s : Shown (list AuditEntry)) : Shown (list AuditEntry) :=
  match loaded a with
  | Some entries => {| data := entries; error := None |}
  | None => {| data := match mode with initial => [] | _ => data s end; error := Some "Failed to load data" |}
  end.

#[export] Instance device_trail_page : Page (list AuditEntry) Answers Empty_set := {
  settle := trail_end;
  overtaken := fun _ s => s;
  act := fun _ d => d;
}.

#[export] Instance device_trail_quiet : QuietAbort (list AuditEntry) Answers Empty_set.
Proof. by intros r s. Qed.

(** ** Laws *)

(** A load that shows entries shows those of every list that was delivered;
    a list that was refused counts as empty, and the trail says nothing of
    it. *)
Lemma trail_of_answers a entries :
  loaded a = Some entries ->
  exists commands alerts, list_of true (commandsRes a) = Some commands /\ list_of can_view (alertsRes a) = Some alerts
    /\ length entries = length commands + length alerts.
Proof.
  unfold loaded. case_match; [done|]. case_match; [done|]. destruct (list_of true (commandsRes a)) as [cs|]; [cbn|done].
  destruct (list_of can_view (alertsRes a)) as [al|]; [cbn|done]. intros [= <-]. exists cs, al. split_and!; [done..|].
  apply (Rows.audit_trail_ordered date_parse local clock_text cs al).
Qed.

Lemma one_list_is_enough a commands mode s :
  can_view = true -> payload_of (commandsRes a) = Some (Some commands) -> reachable (alerts_sent a) = true ->
  reply_ok (alerts_sent a) = false ->
  trail_end mode a s = {| data := composeAuditEntries date_parse local clock_text commands []; error := None |}.
Proof.
  intros Hc Hp Hr Ho. unfold trail_end, loaded, alertsRes, list_of. rewrite Hc.
  destruct (commandsRes a) as [|code body] eqn:Ea; [done|]. assert (reply_ok (Replied code body) = true) as Hk.
  { cbn in Hp |- *. by case_match. }
  rewrite Hk, Hp, Hr, Ho. done.
Qed.

(** To a viewer a refused list is an empty trail, and no failure. *)
Lemma viewer_sees_no_failure code body mode s :
  can_view = false -> reply_ok (Replied code body) = false ->
  forall al, trail_end mode {| commandsRes := Replied code body; alerts_sent := al |} s = {| data := []; error := None |}.
Proof.
  intros Hc Hk al. unfold trail_end, loaded, alertsRes, list_of. cbn [commandsRes alerts_sent reachable]. rewrite Hc, Hk. done.
Qed.
End Zone.
End DeviceTrail.

(** ** The frame of the dashboard *)

Module Overview.

(** [refreshes] are those under way, [timers] the ends of the pulse that are
    still to come. *)
Record OverviewState := { newAlertBanner : bool; alertPulse : bool; showExport : bool; refreshes : nat; timers : nat }.

#[export] Instance eta_overview : Eta OverviewState := fun s =>
  {| newAlertBanner := newAlertBanner s; alertPulse := alertPulse s; showExport := showExport s; refreshes := refreshes s;
     timers := timers s |}.

Definition overview_init : OverviewState := {| newAlertBanner := true; alertPulse := false; showExport := false; refreshes := 0; timers := 0 |}.

Definition doRefresh (s : OverviewState) : OverviewState := s <| alertPulse := true |> <| refreshes := S (refreshes s) |>.

(** The [finally] of a refresh. *)
Definition refreshed (s : OverviewState) : OverviewState := s <| refreshes := pred (refreshes s) |> <| timers := S (timers s) |>.

Inductive OverviewEvent := Refresh | Refreshed | PulseEnds | DismissBanner | OpenExport | CloseExport.

Inductive overview_step : OverviewState -> OverviewEvent -> OverviewState -> Prop :=
| step_refresh s : overview_step s Refresh (doRefresh s)
| step_refreshed s : 0 < refreshes s -> overview_step s Refreshed (refreshed s)
| step_pulse s : 0 < timers s -> overview_step s PulseEnds (s <| timers := pred (timers s) |> <| alertPulse := false |>)
| step_dismiss s : overview_step s DismissBanner (s <| newAlertBanner := false |>)
| step_open s : overview_step s OpenExport (s <| showExport := true |>)
| step_close s : overview_step s CloseExport (s <| showExport := false |>).

Inductive overview_reaches : list OverviewEvent -> OverviewState -> Prop :=
| reaches_init : overview_reaches [] overview_init
| reaches_step es e s s' : overview_reaches es s -> overview_step s e s' -> overview_reaches (es ++ [e]) s'.

(** What the parts of the page are told of failed loads. *)
Definition failed (e : option string) : bool := or_else (fun _ => true) e false.
Definition anyError (e : DashboardErrors) : option string :=
  if failed (err_devices e) || failed (err_alerts e) || failed (err_commands e) then Some "Failed to load data" else None.
Definition needsAttentionError (e : DashboardErrors) : option string :=
  if failed (err_devices e) || failed (err_commands e) then Some "Failed to load data" else None.
Definition auditError (e : DashboardErrors) : option string := err_audit e.

Definition banner (critical : nat) (s : OverviewState) : option string :=
  if newAlertBanner s && Nat.ltb 0 critical
  then Some (Num.digits (Z.of_nat critical) +:+ " Critical Alert" +:+ (if Nat.eqb critical 1 then "" else "s")
             +:+ " - Immediate Action Required")
  else None.

(** The pulse ends: while it shows, a refresh is under way or a timer will
    end it. *)
Theorem pulse_ends es s : overview_reaches es s -> alertPulse s = true -> 0 < refreshes s + timers s.
Proof.
  induction 1 as [|es e s s' Hr IH Hs]; [done|]. destruct Hs; cbn; intros Hp; try specialize (IH Hp); try done; lia.
Qed.

(** A banner that was dismissed stays away, however many critical alerts
    arrive. *)
Lemma dismissed_for_good es s critical : overview_reaches es s -> DismissBanner ∈ es -> banner critical s = None.
Proof.
  intros H Hd. assert (newAlertBanner s = false) as Hb; [|unfold banner; by rewrite Hb].
  induction H as [|es e s s' Hr IH Hs]; [by apply elem_of_nil in Hd|].
  apply elem_of_app in Hd as [Hd|Hd]; [|apply list_elem_of_singleton in Hd as <-; by inversion Hs]. specialize (IH Hd). by destruct Hs.
Qed.
End Overview.

(** ** A picture with a substitute *)

Module Picture.

Record PictureProps := { src : string; fallbackSrc : string; className : string; clickable : bool; unoptimized : bool }.
Record PictureState := { imageSrc : string; isLoading : bool; hasError : bool }.

Definition picture_init (p : PictureProps) : PictureState := {| imageSrc := src p; isLoading := true; hasError := false |}.

Definition handleError (p : PictureProps) (s : PictureState) : PictureState :=
  if negb (hasError s) && (imageSrc s !== fallbackSrc p)
  then {| imageSrc := fallbackSrc p; isLoading := false; hasError := true |}
  else {| imageSrc := imageSrc s; isLoading := false; hasError := hasError s |}.

Definition handleLoad (s : PictureState) : PictureState := {| imageSrc := imageSrc s; isLoading := false; hasError := false |}.

Definition resolvedUnoptimized (p : PictureProps) (s : PictureState) : bool := unoptimized p || startsWith (imageSrc s) "http".

Definition imageClassName (p : PictureProps) (s : PictureState) : string :=
  join " " (List.filter truthy_str
    (className p :: (if isLoading s then ["bg-gray-200"] else [])
     ++ (if clickable p then ["cursor-pointer hover:opacity-90 transition-opacity duration-200"] else []))).

(** The browser reports a picture as loaded or as failed, as often as it
    likes. *)
Definition event (p : PictureProps) (s : PictureState) (failed : bool) : PictureState := if failed then handleError p s else handleLoad s.
Definition after (p : PictureProps) (es : list bool) : PictureState := fold_left (event p) es (picture_init p).

(** How often the source of the picture is exchanged. *)
Fixpoint exchanges (p : PictureProps) (s : PictureState) (es : list bool) : nat :=
  match es with
  | [] => 0
  | e :: es => (if imageSrc (event p s e) === imageSrc s then 0 else 1) + exchanges p (event p s e) es
  end.

Lemma substitute_stays p s es :
  imageSrc s = fallbackSrc p -> imageSrc (fold_left (event p) es s) = fallbackSrc p /\ exchanges p s es = 0.
Proof.
  revert s. induction es as [|e es IH]; intros s Hs; [done|]. cbn.
  assert (imageSrc (event p s e) = fallbackSrc p) as He.
  { destruct e; cbn; [|done]. unfold handleError. rewrite Hs, String.eqb_refl, andb_false_r. done. }
  destruct (IH _ He) as [H1 H2]. split; [done|]. by rewrite He, Hs, String.eqb_refl, H2.
Qed.

(** Whatever the browser reports, the picture is the one asked for or its
    substitute, and the source is exchanged at most once: a substitute that
    fails as well starts no loop. *)
Theorem substitute_at_most_once (p : PictureProps) (es : list bool) :
  (imageSrc (after p es) = src p \/ imageSrc (after p es) = fallbackSrc p) /\ exchanges p (picture_init p) es <= 1.
Proof.
  unfold after. change (src p) with (imageSrc (picture_init p)) at 1. assert (hasError (picture_init p) = false) as Hn by done. revert Hn.
  generalize (picture_init p). induction es as [|e es IH]; intros s Hn; cbn; [split; [by left|lia]|].
  destruct e; cbn [event].
  - unfold handleError. rewrite Hn. cbn [negb andb]. destruct (String.eqb_spec (imageSrc s) (fallbackSrc p)) as [E|E]; cbn [negb].
    + cbn [imageSrc]. rewrite String.eqb_refl. by apply (IH {| imageSrc := imageSrc s; isLoading := false; hasError := false |}).
    + destruct (substitute_stays p {| imageSrc := fallbackSrc p; isLoading := false; hasError := true |} es eq_refl) as [H1 H2].
      rewrite H1, H2. split; [by right|]. case_match; lia.
  - cbn [imageSrc handleLoad]. rewrite String.eqb_refl. by apply (IH (handleLoad s)).
Qed.
End Picture.
