(* ===== verification/Profile.v ===== *)
(** * The profile page

    src/app/profile/components/ProfileContent.tsx: the tabs, the display
    name, the switch for two factors, passkeys, API keys and sessions, each
    button with the condition under which it is there.  The user comes from
    AuthContext.tsx and the theme from ThemeContext.tsx (Module Theming); both
    are part of the state here, since they change while the page is open. *)

From stdpp Require Import sets.
From S2P Require Import Prelude JsNumber JsString JsValue Auth Shell.
Import Theming.

(** ** State *)

Record ApiKey := {
  key_id : string; key_name : string; prefix : string; created : string; key_lastUsed : string; scopes : list string;
}.

Record Session := {
  session_id : string; device : string; session_os : string; browser : string; ip : string; location : string;
  startedAt : string; lastActive : string; current : bool;
}.

Record Passkey := { passkey_id : string; passkey_name : string; registered : string; passkey_lastUsed : string }.

Inductive Tab := ProfileTab | SecurityTab | ApiKeysTab | SessionsTab.

#[export] Instance Tab_eq_dec : EqDecision Tab.
Proof. solve_decision. Defined.

Record State := {
  user : option AuthUser;
  provider : Provider;
  activeTab : Tab;
  displayName : string;
  editingName : bool;
  apiKeys : list ApiKey;
  sessions : list Session;
  showNewKeyModal : bool;
  newKeyName : string;
  twoFAEnabled : bool;
  webAuthnKeys : list Passkey;
}.

#[export] Instance eta_profile : Eta State := fun s =>
  {| user := user s; provider := provider s; activeTab := activeTab s; displayName := displayName s; editingName := editingName s;
     apiKeys := apiKeys s; sessions := sessions s; showNewKeyModal := showNewKeyModal s; newKeyName := newKeyName s;
     twoFAEnabled := twoFAEnabled s; webAuthnKeys := webAuthnKeys s |}.

(** What [useState] starts from; the name is read once, when the page mounts. *)
Definition mount (u : option AuthUser) (p : Provider) : State :=
  {| user := u; provider := p; activeTab := ProfileTab; displayName := match u with Some u => name u | None => "Ops Team" end;
     editingName := false; apiKeys := []; sessions := []; showNewKeyModal := false; newKeyName := ""; twoFAEnabled := false;
     webAuthnKeys := [] |}.

(** What the head of the page says besides the name. *)
Definition role_shown (s : State) : UserRole := match user s with Some u => role u | None => operator end.
Definition email_shown (s : State) : string := match user s with Some u => email u | None => "ops.team@quoodle.io" end.

Definition revocableSessions (s : State) : list Session := List.filter (fun x => negb (current x)) (sessions s).

Definition count_label (what : string) (n : nat) : string :=
  Num.digits (Z.of_nat n) +:+ " active " +:+ what +:+ (if Nat.eqb n 1 then "" else "s").
Definition keys_label (s : State) : string := count_label "key" (length (apiKeys s)).
Definition sessions_label (s : State) : string := count_label "session" (length (sessions s)).

(** ** Handlers *)

Inductive Toast := Success (text : string) | Error (text : string) | Info (text : string).

Definition generateApiKey (s : State) : State * list Toast :=
  if negb (truthy_str (trim (newKeyName s))) then (s, [Error "Key name is required"])
  else (s <| newKeyName := "" |> <| showNewKeyModal := false |>,
        [Info "API key provisioning is not configured in this environment yet."]).

Definition revokeKey (x : string) (s : State) : State * list Toast :=
  (s <| apiKeys := List.filter (fun k => key_id k !== x) (apiKeys s) |>, [Success "API key revoked"]).

Definition revokeSession (x : string) (s : State) : State * list Toast :=
  (s <| sessions := List.filter (fun k => session_id k !== x) (sessions s) |>, [Success "Session terminated"]).

Definition revoke_others (s : State) : State * list Toast :=
  match revocableSessions s with
  | [] => (s, [])
  | _ => (s <| sessions := List.filter current (sessions s) |>, [Success "All other sessions terminated"])
  end.

Definition save_name (s : State) : State * list Toast := (s <| editingName := false |>, [Success "Display name updated"]).

Definition toggle_dark (s : State) : State :=
  s <| provider := setTheme (match resolvedTheme (provider s) with dark_colours => prefer_light | light_colours => prefer_dark end) (provider s) |>.

Definition toggle_two_factors (s : State) : State * list Toast :=
  (s <| twoFAEnabled := negb (twoFAEnabled s) |>, [Success (if twoFAEnabled s then "2FA disabled" else "2FA enabled")]).

Definition remove_passkey (x : string) (s : State) : State * list Toast :=
  (s <| webAuthnKeys := List.filter (fun k => passkey_id k !== x) (webAuthnKeys s) |>, [Success "Key removed"]).

(** ** What may happen *)

Inductive Event :=
| UserLoaded (u : option AuthUser) | SystemColours (now : ResolvedTheme)
| OpenTab (t : Tab)
| EditName | TypeName (text : string) | SaveName | CancelName
| ToggleDark | ChooseTheme (t : ThemePreference)
| ToggleTwoFactors | RegisterPasskey | RemovePasskey (x : string) | ChangePassword
| OpenKeyForm | TypeKeyName (text : string) | GenerateKey | CloseKeyForm | RevokeKey (x : string)
| RevokeSession (x : string) | RevokeOthers.

(** Which controls are there. *)
Definition on_tab (t : Tab) (s : State) : bool := bool_decide (activeTab s = t).

Definition enabled (e : Event) (s : State) : bool :=
  match e with
  | UserLoaded _ | SystemColours _ | OpenTab _ => true
  | EditName => on_tab ProfileTab s && negb (editingName s)
  | TypeName _ | SaveName | CancelName => on_tab ProfileTab s && editingName s
  | ToggleDark | ChooseTheme _ => on_tab ProfileTab s
  | ToggleTwoFactors | RegisterPasskey | ChangePassword => on_tab SecurityTab s
  | RemovePasskey x => on_tab SecurityTab s && existsb (fun k => passkey_id k === x) (webAuthnKeys s)
  | OpenKeyForm => on_tab ApiKeysTab s
  | TypeKeyName _ | GenerateKey | CloseKeyForm => on_tab ApiKeysTab s && showNewKeyModal s
  | RevokeKey x => on_tab ApiKeysTab s && existsb (fun k => key_id k === x) (apiKeys s)
  | RevokeSession x =>
      on_tab SessionsTab s && existsb (fun k => (session_id k === x) && negb (current k)) (sessions s)
  | RevokeOthers => on_tab SessionsTab s && negb (Nat.eqb (length (revocableSessions s)) 0)
  end.

Definition handle (e : Event) (s : State) : State * list Toast :=
  match e with
  | UserLoaded u => (s <| user := u |>, [])
  | SystemColours now => (s <| provider := system_changes now (provider s) |>, [])
  | OpenTab t => (s <| activeTab := t |>, [])
  | EditName => (s <| editingName := true |>, [])
  | TypeName text => (s <| displayName := text |>, [])
  | SaveName => save_name s
  | CancelName => (s <| editingName := false |>, [])
  | ToggleDark => (toggle_dark s, [])
  | ChooseTheme t => (s <| provider := setTheme t (provider s) |>, [])
  | ToggleTwoFactors => toggle_two_factors s
  | RegisterPasskey => (s, [Info "Passkey registration API is not available in this environment yet."])
  | RemovePasskey x => remove_passkey x s
  | ChangePassword => (s, [Info "Password management API is not available in this environment yet."])
  | OpenKeyForm => (s <| showNewKeyModal := true |>, [])
  | TypeKeyName text => (s <| newKeyName := text |>, [])
  | GenerateKey => generateApiKey s
  | CloseKeyForm => (s <| showNewKeyModal := false |>, [])
  | RevokeKey x => revokeKey x s
  | RevokeSession x => revokeSession x s
  | RevokeOthers => revoke_others s
  end.

(** The events that led to a state, with all that was announced. *)
Inductive reaches (u : option AuthUser) (p : Provider) : list Event -> list Toast -> State -> Prop :=
| reaches_mount : reaches u p [] [] (mount u p)
| reaches_event es ts s e :
    reaches u p es ts s -> enabled e s = true -> reaches u p (es ++ [e]) (ts ++ (handle e s).2) (handle e s).1.

(** ** Laws *)

(** Nothing fills the lists of the page. *)
Definition bare (s : State) : Prop := apiKeys s = [] /\ sessions s = [] /\ webAuthnKeys s = [].

Lemma handle_bare e s : bare s -> bare (handle e s).1.
Proof.
  intros (Hk & Hs & Hw). destruct e; cbn; unfold generateApiKey, revoke_others, revocableSessions, bare; rewrite ?Hs; cbn;
    try case_match; cbn; by rewrite ?Hk, ?Hs, ?Hw.
Qed.

Lemma reaches_bare u p es ts s : reaches u p es ts s -> bare s.
Proof. induction 1; [done|by apply handle_bare]. Qed.

(** What a user does, the page has no keys, no sessions and no passkeys to
    show: no button that revokes one is ever there, nothing was announced as
    revoked, removed or terminated, and the counts stay at nought. *)
Theorem profile_has_nothing_to_revoke u p es ts s :
  reaches u p es ts s ->
  keys_label s = "0 active keys" /\ sessions_label s = "0 active sessions"
  /\ (forall x, enabled (RevokeKey x) s = false /\ enabled (RevokeSession x) s = false /\ enabled (RemovePasskey x) s = false)
  /\ enabled RevokeOthers s = false
  /\ forall text, Success text ∈ ts -> text ∈ ["Display name updated"; "2FA enabled"; "2FA disabled"].
Proof.
  intros H. destruct (reaches_bare _ _ _ _ _ H) as (Hk & Hs & Hw).
  unfold keys_label, sessions_label, enabled, revocableSessions. rewrite Hk, Hs, Hw. cbn.
  split_and!; [done|done|intros x; by rewrite !andb_false_r|by rewrite andb_false_r|].
  clear Hk Hs Hw. induction H as [|es ts s e H IH He]; [by intros ? ?%elem_of_nil|].
  intros text [Ht|Ht]%elem_of_app; [by apply IH|]. destruct (reaches_bare _ _ _ _ _ H) as (Hk & Hs & Hw). clear IH H.
  destruct e; cbn in He, Ht; unfold generateApiKey, revoke_others, revocableSessions in *; rewrite ?Hk, ?Hs, ?Hw in *; cbn in *;
    rewrite ?andb_false_r in He; try done; repeat case_match; set_solver.
Qed.

(** The head of the page follows the user that arrives, its name does not. *)
Lemma name_is_read_once p u u' :
  displayName (handle (UserLoaded (Some u)) (mount u' p)).1 = displayName (mount u' p)
  /\ email_shown (handle (UserLoaded (Some u)) (mount u' p)).1 = email u
  /\ role_shown (handle (UserLoaded (Some u)) (mount u' p)).1 = role u.
Proof. done. Qed.

(** A cancelled edit leaves the same name as a saved one. *)
Lemma cancel_keeps_the_edit text s :
  displayName (handle CancelName (handle (TypeName text) s).1).1 = text
  /\ (handle CancelName (handle (TypeName text) s).1).1 = (handle SaveName (handle (TypeName text) s).1).1.
Proof. done. Qed.

(** A name for a key that was given up is there when the form opens again. *)
Lemma key_form_keeps_its_text s : newKeyName (handle OpenKeyForm (handle CloseKeyForm s).1).1 = newKeyName s.
Proof. done. Qed.

(** The switch shows the colours, turns them over, and twice is none. *)
Lemma toggle_dark_flips s :
  resolvedTheme (provider (toggle_dark s)) <> resolvedTheme (provider s)
  /\ resolvedTheme (provider (toggle_dark (toggle_dark s))) = resolvedTheme (provider s).
Proof. unfold toggle_dark. cbn. by destruct (resolvedTheme (provider s)). Qed.

(** Ending the other sessions leaves the current ones, in order, and then
    the button can not be pressed again. *)
Lemma revoke_others_spec s :
  enabled RevokeOthers s = true ->
  sessions (revoke_others s).1 = List.filter current (sessions s)
  /\ enabled RevokeOthers (revoke_others s).1 = false
  /\ (revoke_others s).2 = [Success "All other sessions terminated"].
Proof.
  unfold revoke_others, enabled. intros [_ H]%andb_prop. destruct (revocableSessions s) as [|x l] eqn:E; [done|]. cbn.
  split_and!; [done| |done]. apply andb_false_intro2. unfold revocableSessions. cbn.
  enough (List.filter (fun x => negb (current x)) (List.filter current (sessions s)) = []) as -> by done.
  clear. induction (sessions s) as [|x l IH]; [done|]. cbn. destruct (current x) eqn:Ex; cbn; [|done]. by rewrite Ex.
Qed.

(** Two factors are a switch of the page alone: it starts off, whatever the
    account says, and what it shows counts the presses. *)
Lemma two_factors_are_local u p es ts s :
  reaches u p es ts s ->
  twoFAEnabled s = Nat.odd (length (List.filter (fun e => match e with ToggleTwoFactors => true | _ => false end) es)).
Proof.
  induction 1 as [|es ts s e H IH He]; [done|]. rewrite List.filter_app, length_app.
  destruct e; cbn; unfold generateApiKey, revoke_others; try case_match; cbn; rewrite ?Nat.add_0_r; try done.
  rewrite Nat.odd_add, <- IH. by destruct (twoFAEnabled s).
Qed.
