(* ===== verification/Links.v ===== *)
(** * Every request has its handler

    The pages put addresses together from texts, and the handlers lie in
    directories; nothing in the language connects the two.  This file does:
    [page_sends] lists what the pages send for their data and which endpoint
    of the control plane each request is meant for, and the theorem shows
    that the site finds a handler for it, which talks to that endpoint and to
    no other.  The requests of signing in and out are not among them; they
    are followed in Browser.v and SignInPage.v.  The second theorem runs whole
    programs of pages against the site and the control plane. *)

From stdpp Require Import gmap.
From S2P Require Import Prelude JsNumber JsString JsValue Base64 Client Copilot AuthState Dashboard Pairing Explorer DevicePage Dispatching OperatorConsole Scheduling AppLock AppLockManager Requests Settings Webhooks TelemetryPage DeviceDetail DeviceDrawer ResultsPage AuditPages SystemHealth Feeds Alerts Notifications Viewer MobileDevices SignInPage.
From S2P Require Import Auth Http Session Proxy SessionLaws ProxyLaws OAuth Routes Urls Browser Site.

(** ** Identifiers *)

Definition id_char (c : ascii) : bool := is_alnum c || existsb (Ascii.eqb c) ["-"; "_"]%char.

(** What the control plane uses to name things: letters, digits, dashes. *)
Definition identifier (s : string) : bool := truthy_str s && sforall id_char s.

Lemma identifier_encoded s : identifier s = true -> encodeURIComponent s = s.
Proof.
  intros [_ H]%andb_true_iff. unfold encodeURIComponent. induction s as [|c s IH]; [done|]. cbn in H.
  apply andb_true_iff in H as [Hc Hs]. cbn [sflat]. rewrite IH by done.
  assert (encode_char c = String c "") as -> by (revert Hc; clear; destruct c as [[] [] [] [] [] [] [] []]; done). done.
Qed.

(** ** Addresses by their segments *)

Definition seg_char (c : ascii) : bool := negb (existsb (Ascii.eqb c) ["/"; "?"; "#"]%char).

Definition path_of (segs : list string) : string := "/api/" +:+ join "/" segs.

Definition api_url (segs : list string) (ts : list (string * string)) : string :=
  path_of segs +:+ match ts with [] => "" | _ => "?" +:+ query_text ts end.

Lemma join_in_path segs : forallb (sforall seg_char) segs = true -> sforall in_path (join "/" segs) = true.
Proof.
  intros H. apply sforall_join; [done|]. rewrite forallb_forall in H. apply List.Forall_forall. intros s Hs.
  specialize (H s Hs). revert H. apply sforall_mono. intros c. all_chars c.
Qed.

Lemma read_api_url segs ts ps :
  forallb (sforall seg_char) segs = true -> Forall2 writes ps ts -> read_url (api_url segs ts) = Some (path_of segs, ps).
Proof.
  intros Hs Hw. assert (sforall in_path (path_of segs) = true) as Hp by (unfold path_of; cbn; by apply join_in_path).
  unfold api_url. destruct ts as [|t ts].
  - inversion Hw; subst. rewrite append_nil_r. by apply read_url_plain.
  - by apply read_url_query.
Qed.

Lemma segments_of_path segs :
  segs <> [] -> forallb (sforall seg_char) segs = true -> api_segments (path_of segs) = Some segs.
Proof.
  intros Hne Hs. unfold api_segments, path_of.
  change ("/api/" +:+ join "/" segs) with ("" +:+ String "/" ("api" +:+ String "/" (join "/" segs))).
  rewrite !split_app_sep. change (split "/" "") with [""]. change (split "/" "api") with ["api"].
  rewrite split_join_lacking; [done|done|]. rewrite forallb_forall in Hs. apply List.Forall_forall. intros s Hin.
  specialize (Hs s Hin). revert Hs. apply sforall_mono. intros c. all_chars c.
Qed.

Lemma api_open segs query j :
  Middleware.middleware {| Middleware.nextUrl := {| Middleware.pathname := path_of segs; Middleware.searchParams := query |};
                           Middleware.cookies := j |} = Middleware.next.
Proof.
  unfold Middleware.middleware. cbn [Middleware.nextUrl Middleware.pathname]. unfold path_of. by rewrite startsWith_app.
Qed.

(** ** Addresses of lists *)

Definition form_urls : list string := ["/api/devices?per_page=200"; "/api/commands/capabilities"].
Definition dispatched_url : string := "/api/commands?limit=200".
Definition dispatched_trail_url : string := "/api/commands?limit=120".
Definition history_url : string := "/api/commands?limit=300".
Definition schedule_urls : list string :=
  ["/api/schedules"; "/api/schedules/runs?limit=400"; "/api/devices?per_page=200"; "/api/commands/capabilities"].
Definition console_urls : list string :=
  ["/api/devices?per_page=200"; "/api/commands?limit=200"; "/api/alerts?limit=60"; "/api/commands/capabilities"].
Definition settings_urls : list string :=
  ["/api/settings/alert-rules"; "/api/settings/policy-entries"; "/api/settings/compliance-thresholds";
   "/api/settings/roles/permissions"; "/api/settings/team-members"].
Definition compliance_urls : list string := ["/api/compliance/overview"; "/api/compliance/audit?per_page=120&page=1"].
Definition trail_urls (can_view : bool) : list string :=
  (if can_view then ["/api/alerts?limit=120"] else []) ++ ["/api/commands?limit=120"].
Definition audit_url : string := "/api/audit/events?page=1&per_page=200".
Definition telemetry_devices_url : string := "/api/devices?per_page=200".

(** The app lock of the whole fleet, in the settings. *)
Definition manager_url : string := "/api/policy/app-lock".
Definition manager_put (b : AppLockBundle) : FetchRequest :=
  {| f_method := "PUT"; f_url := manager_url; f_headers := [json_content];
     f_body := Some (json_text (Manager.policy_payload b)) |}.
Definition manager_delete : FetchRequest := bare_request "DELETE" manager_url.

(** ** Finding the handler *)

Section Links.
Context (env : string -> option string) (uuid : string) (url_origin : string -> option string).
Context (resolve : string -> string -> option string) (https : bool) (host : string).
Context (param : string -> string).

(** The framework hands a segment over as it is when nothing in it is
    encoded. *)
Hypothesis param_plain : forall s, identifier s = true -> param s = s.

Abbreviation serving := (serve env uuid url_origin resolve param https host).

(** The handler for a path of segments. *)
Definition routed (method : string) (segs : list string) : option Handler :=
  '(f, ids) ← find_file (route_files env uuid url_origin resolve) segs;
  e ← own_get (exports f) method;
  called param e ids.

Lemma serve_segments j r segs ps ts h :
  f_url r = api_url segs ts -> segs <> [] -> forallb (sforall seg_char) segs = true -> Forall2 writes ps ts ->
  routed (f_method r) segs = Some h -> serving j r = Some (h (arriving https host j ps r)).
Proof.
  intros Hu Hne Hs Hw Hh. unfold serve. rewrite Hu, (read_api_url segs ts ps) by done. cbn [mbind option_bind].
  rewrite api_open. unfold handler_of. rewrite segments_of_path by done. cbn [mbind option_bind].
  unfold routed in Hh. cbn [mbind option_bind] in Hh. by rewrite Hh.
Qed.

(** The request is answered by the handler of an endpoint. *)
Definition reaches (m : string) (es : list seg) (r : FetchRequest) : Prop :=
  forall j, exists h ps, serving j r = Some (h (arriving https host j ps r)) /\ data_route env h m es.

Definition decodable (t : string) : Prop := exists s, coded s t.

Lemma decodable_writes ts : List.Forall (fun t => decodable t.1 /\ decodable t.2) ts -> exists ps, Forall2 writes ps ts.
Proof.
  induction 1 as [|[a b] ts [[k Hk] [v Hv]] _ [ps IH]]; [by exists []|]. exists ((k, v) :: ps). by constructor.
Qed.

Lemma reaches_segments m es r segs ts h :
  f_url r = api_url segs ts -> segs <> [] -> forallb (sforall seg_char) segs = true ->
  List.Forall (fun t => decodable t.1 /\ decodable t.2) ts ->
  routed (f_method r) segs = Some h -> data_route env h m es -> reaches m es r.
Proof.
  intros Hu Hne Hs [ps Hw]%decodable_writes Hh Hd j. exists h, ps. split; [|done]. by apply (serve_segments j r segs ps ts).
Qed.

Ltac find_handler := lazy [routed find_file segments_match route_files file directory exports own_get called dynamic
  startsWith split String.eqb Ascii.eqb Bool.eqb mbind option_bind List.find f_method fst snd eqb].


(** ** What the pages send *)

(** A request some run of a program sends. *)
Inductive may_send {A} : io A -> FetchRequest -> Prop :=
| sends_now r k : may_send (Fetch r k) r
| sends_later r k o r' : may_send (k o) r' -> may_send (Fetch r k) r'.

Lemma all_requests_may {A} P (m : io A) r : all_requests P m -> may_send m r -> P r.
Proof.
  induction m as [a|e|r0 k IH]; intros Ha Hs; [inversion Hs..|]. destruct Ha as [H0 Hk]. inversion Hs as [|? ? o ? Ho]; subst; [done|].
  by apply (IH o).
Qed.

(** The route of a change of the settings, and of an action on webhooks. *)
Definition setting (l : list string) : list seg := Lit "settings" :: map Lit l.

Definition change_route (c : Settings.Change) : string * list seg :=
  match c with
  | Settings.CreateAlertRule => ("POST", setting ["alert-rules"])
  | Settings.UpdateAlertRule x _ => ("PATCH", setting ["alert-rules"] ++ [Par x])
  | Settings.DeleteAlertRule x => ("DELETE", setting ["alert-rules"] ++ [Par x])
  | Settings.UpdatePolicy x _ => ("PATCH", setting ["policy-entries"] ++ [Par x])
  | Settings.CreateThreshold => ("POST", setting ["compliance-thresholds"])
  | Settings.UpdateThreshold x _ => ("PATCH", setting ["compliance-thresholds"] ++ [Par x])
  | Settings.DeleteThreshold x => ("DELETE", setting ["compliance-thresholds"] ++ [Par x])
  | Settings.SaveRolePermissions role => ("PATCH", setting ["roles"] ++ [Par (Settings.role_str role); Lit "permissions"])
  | Settings.CreateMember => ("POST", setting ["team-members"])
  | Settings.SaveMember x => ("PATCH", setting ["team-members"] ++ [Par x])
  | Settings.ActivateMember x => ("POST", setting ["team-members"] ++ [Par x; Lit "activate"])
  | Settings.DeactivateMember x => ("POST", setting ["team-members"] ++ [Par x; Lit "deactivate"])
  end.

Definition webhook (l : list seg) : list seg := [Lit "integrations"; Lit "webhooks"] ++ l.

Definition action_route (a : Webhooks.Action) : string * list seg :=
  match a with
  | Webhooks.CreateEndpoint _ => ("POST", webhook [Lit "endpoints"])
  | Webhooks.UpdateEndpoint x _ => ("PATCH", webhook [Lit "endpoints"; Par x])
  | Webhooks.DeleteEndpoint e => ("DELETE", webhook [Lit "endpoints"; Par (Webhooks.endpoint_id e)])
  | Webhooks.ToggleEndpoint e =>
      ("POST", webhook [Lit "endpoints"; Par (Webhooks.endpoint_id e); Lit (Webhooks.toggle_action e)])
  | Webhooks.TestEndpoint e => ("POST", webhook [Lit "endpoints"; Par (Webhooks.endpoint_id e); Lit "test"])
  | Webhooks.RevealSecret e => ("GET", webhook [Lit "endpoints"; Par (Webhooks.endpoint_id e); Lit "reveal-secret"])
  | Webhooks.RotateSecret e => ("POST", webhook [Lit "endpoints"; Par (Webhooks.endpoint_id e); Lit "rotate-secret"])
  | Webhooks.ReplayDelivery d => ("POST", webhook [Lit "deliveries"; Par (Webhooks.delivery_id d); Lit "replay"])
  end.

(** The identifiers a route has been given. *)
Definition ids_in (es : list seg) : list string := omap (fun e => match e with Par x => Some x | Lit _ => None end) es.

(** Identifiers that are no fixed name of a route. *)
Definition names (es : list seg) : Prop :=
  forall x, x ∈ ids_in es -> identifier x = true /\ x <> "capabilities" /\ x <> "runs".

(** What each part sends, and the method and the path of the control plane it
    is meant for.  The dashboard and the copilot: *)
Inductive fleet_sends : FetchRequest -> string -> list seg -> Prop :=
| fleet_pages fuel r : may_send (Dashboard.fetchDevices fuel) r -> fleet_sends r "GET" [Lit "devices"]
| fleet_alerts r : may_send Dashboard.fetchAlerts r -> fleet_sends r "GET" [Lit "alerts"]
| fleet_commands date_parse from r : may_send (Dashboard.fetchCommands date_parse from) r -> fleet_sends r "GET" [Lit "commands"]
| fleet_audit date_parse local r : may_send (Dashboard.fetchAuditEntries date_parse local) r ->
    fleet_sends r "GET" [Lit "audit"; Lit "events"]
| copilot_ask p : fleet_sends (Copilot.ask_request p) "POST" [Lit "ai"; Lit "copilot"; Lit "ask"]
| copilot_conversation x : fleet_sends (Copilot.conversation_request x) "GET" [Lit "ai"; Lit "copilot"; Lit "conversations"; Par x].

(** Commands, wherever they are sent and followed.  Sending again, replaying
    and the operator's modal make a [command_request] of their own bodies, and
    the polls of the drawer and of the page of a device ask at the address of
    [command_detail]. *)
Inductive command_sends : FetchRequest -> string -> list seg -> Prop :=
| form_command body : command_sends (Dispatching.command_request body) "POST" [Lit "commands"]
| batch_command ids k x m params sensitive : command_sends (DevicePage.dispatch_request ids k x m params sensitive) "POST" [Lit "commands"]
| browse_command u x p : command_sends (Explorer.browse_request u x p) "POST" [Lit "commands"]
| snapshot_command o : command_sends (TelemetryPage.command_request o) "POST" [Lit "commands"]
| detail_command u m params sensitive s r : DeviceDetail.dispatchCommand u m params sensitive s = inl r ->
    command_sends r "POST" [Lit "commands"]
| drawer_command u x m params sensitive r : DeviceDrawer.dispatch_body u x m params sensitive = Ok r ->
    command_sends r "POST" [Lit "commands"]
| command_detail x : command_sends (Explorer.detail_request x) "GET" [Lit "commands"; Par x]
| result_list o : command_sends (get_request (ResultsPage.list_url o)) "GET" [Lit "commands"]
| result_detail x : command_sends (get_request (ResultsPage.detail_url x)) "GET" [Lit "commands"; Par x].

(** Devices: *)
Inductive device_sends : FetchRequest -> string -> list seg -> Prop :=
| device_list : device_sends DevicePage.list_request "GET" [Lit "devices"]
| device_detail x : device_sends (DevicePage.detail_request x encodeURIComponent) "GET" [Lit "devices"; Par x]
| viewer_devices : device_sends (get_request Viewer.devices_url) "GET" [Lit "devices"]
| mobile_lists url es : (url, es) ∈ zip MobileDevices.mobile_urls [[Lit "mobile-devices"]; [Lit "commands"]] ->
    device_sends (get_request url) "GET" es
| detail_page x from to view url es :
    (url, es) ∈ zip (DeviceDetail.load_urls x from to view)
      ([[Lit "devices"; Par x]; [Lit "devices"; Par x; Lit "commands"]; [Lit "telemetry"; Lit "devices"; Par x; Lit "latest"];
        [Lit "telemetry"; Lit "devices"; Par x; Lit "history"]] ++ (if view then [[Lit "alerts"]] else [])
       ++ [[Lit "audit"; Lit "device"; Par x]; [Lit "commands"; Lit "capabilities"]]) ->
    device_sends (get_request url) "GET" es
| device_drawer x view url es : identifier x = true ->
    (url, es) ∈ zip (DeviceDrawer.bundle_urls x view)
      ((if view then [[Lit "alerts"]] else [])
       ++ [[Lit "devices"; Par x]; [Lit "devices"; Par x; Lit "commands"]; [Lit "devices"; Par x; Lit "telemetry"; Lit "latest"];
           [Lit "audit"; Lit "device"; Par x]; [Lit "commands"; Lit "capabilities"]]) ->
    device_sends (get_request url) "GET" es
| telemetry_page x from to url es :
    (url, es) ∈ zip (TelemetryPage.bundle_urls x from to)
      [[Lit "telemetry"; Lit "devices"; Par x; Lit "latest"]; [Lit "telemetry"; Lit "devices"; Par x; Lit "history"];
       [Lit "telemetry"; Lit "activity"]; [Lit "commands"]] ->
    device_sends (get_request url) "GET" es.

(** Pairing, the app lock, schedules, settings and webhooks: *)
Inductive admin_sends : FetchRequest -> string -> list seg -> Prop :=
| pair_init : admin_sends Pairing.init_request "POST" [Lit "pair"; Lit "init"]
| pair_poll x : admin_sends (Pairing.poll_request x) "GET" [Lit "pair"; Lit "session"; Par x]
| pair_confirm c : admin_sends (Pairing.confirm_request c) "POST" [Lit "pair"; Lit "confirm"]
| lock_load x : admin_sends (get_request (AppLock.Panel.scopedPolicyUrl x)) "GET" [Lit "policy"; Lit "app-lock"]
| manager_load : admin_sends (get_request manager_url) "GET" [Lit "policy"; Lit "app-lock"]
| manager_save b : admin_sends (manager_put b) "PUT" [Lit "policy"; Lit "app-lock"]
| manager_clear : admin_sends manager_delete "DELETE" [Lit "policy"; Lit "app-lock"]
| lock_save x b : admin_sends (AppLock.Panel.put_request x b) "PUT" [Lit "policy"; Lit "app-lock"]
| schedule_create z d r : Scheduling.sends (Scheduling.Save z) d = Some r -> admin_sends r "POST" [Lit "schedules"]
| schedule_toggle d x r : Scheduling.toggle_request d x = Some r -> admin_sends r "PATCH" [Lit "schedules"; Par x]
| schedule_delete x : admin_sends (Scheduling.delete_request x) "DELETE" [Lit "schedules"; Par x]
| schedule_run job : admin_sends (Scheduling.run_request job) "POST" [Lit "schedules"; Par (Scheduling.j_id job); Lit "run-now"]
| setting_change c s r : Settings.request c s = Some r -> admin_sends r (change_route c).1 (change_route c).2
| webhook_endpoints : admin_sends Webhooks.endpoints_request "GET" (webhook [Lit "endpoints"])
| webhook_deliveries c : admin_sends (Webhooks.deliveries_request c) "GET" (webhook [Lit "deliveries"])
| webhook_inbound c : admin_sends (Webhooks.inbound_request c) "GET" (webhook [Lit "inbound"])
| webhook_action s a : admin_sends (Webhooks.action_request s a) (action_route a).1 (action_route a).2.

(** The lists that pages load as they open and as they poll: *)
Definition load_table (can_view : bool) : list (string * list seg) :=
  zip form_urls [[Lit "devices"]; [Lit "commands"; Lit "capabilities"]]
  ++ map (fun url => (url, [Lit "commands"])) [dispatched_url; dispatched_trail_url; history_url]
  ++ zip schedule_urls [[Lit "schedules"]; [Lit "schedules"; Lit "runs"]; [Lit "devices"]; [Lit "commands"; Lit "capabilities"]]
  ++ zip console_urls [[Lit "devices"]; [Lit "commands"]; [Lit "alerts"]; [Lit "commands"; Lit "capabilities"]]
  ++ zip settings_urls [setting ["alert-rules"]; setting ["policy-entries"]; setting ["compliance-thresholds"];
                        setting ["roles"; "permissions"]; setting ["team-members"]]
  ++ zip compliance_urls [[Lit "compliance"; Lit "overview"]; [Lit "compliance"; Lit "audit"]]
  ++ zip (trail_urls can_view) ((if can_view then [[Lit "alerts"]] else []) ++ [[Lit "commands"]])
  ++ [(audit_url, [Lit "audit"; Lit "events"]); (telemetry_devices_url, [Lit "devices"])].

(** Alerts, notifications, health, audit and compliance: *)
Inductive report_sends : FetchRequest -> string -> list seg -> Prop :=
| alert_list : report_sends (get_request Alerts.alerts_url) "GET" [Lit "alerts"]
| alert_ack x : report_sends (Alerts.ack_request x) "POST" [Lit "alerts"; Par x; Lit "ack"]
| console_ack x : report_sends (OperatorConsole.ack_request x) "POST" [Lit "alerts"; Par x; Lit "ack"]
| notification_list : report_sends (get_request Notifications.notifications_url) "GET" [Lit "notifications"]
| notification_read x r : r ∈ Notifications.job_requests (Notifications.ReadRequest x) ->
    report_sends r "POST" [Lit "notifications"; Par x; Lit "read"]
| notification_all ty q r : r ∈ Notifications.job_requests (Notifications.AllRequest ty q) ->
    report_sends r "POST" [Lit "notifications"; Lit "read-all"]
| notification_bulk xs r x : (r, x) ∈ zip (Notifications.job_requests (Notifications.BulkRequest xs)) xs ->
    report_sends r "DELETE" [Lit "notifications"; Par x]
| notification_dismiss x r : r ∈ Notifications.job_requests (Notifications.DismissRequest x) ->
    report_sends r "DELETE" [Lit "notifications"; Par x]
| health_load url es :
    (url, es) ∈ zip SystemHealth.urls
      [[Lit "system-health"; Lit "overview"]; [Lit "system-health"; Lit "components"]; [Lit "system-health"; Lit "timeseries"];
       [Lit "system-health"; Lit "events"]] ->
    report_sends (get_request url) "GET" es
| health_audit : report_sends (get_request SystemHealth.audit_url) "GET" [Lit "audit"; Lit "events"]
| audit_export d : report_sends (get_request (AuditPages.audit_export_url d)) "GET" [Lit "audit"; Lit "events"; Lit "export"]
| compliance_export format from to fields :
    report_sends (get_request (AuditPages.compliance_export_url format from to fields)) "GET" [Lit "compliance"; Lit "export"].

Inductive page_sends (r : FetchRequest) (m : string) (es : list seg) : Prop :=
| by_load can_view url : (url, es) ∈ load_table can_view -> r = get_request url -> m = "GET" -> page_sends r m es
| by_fleet : fleet_sends r m es -> page_sends r m es
| by_commands : command_sends r m es -> page_sends r m es
| by_devices : device_sends r m es -> page_sends r m es
| by_admin : admin_sends r m es -> page_sends r m es
| by_reports : report_sends r m es -> page_sends r m es.

(** ** They arrive *)

Lemma decodable_uri s : decodable (encodeURIComponent s).
Proof. eexists. apply uri_coded. Qed.
Lemma decodable_form s : decodable (form_encode s).
Proof. eexists. apply form_coded. Qed.
Lemma decodable_id s : identifier s = true -> decodable s.
Proof. intros H. rewrite <- identifier_encoded by done. apply decodable_uri. Qed.

Definition text_char (c : ascii) : bool := (N_of_ascii c <? 128)%N && negb (Ascii.eqb c "%") && no_mark c.

(** A text without percent signs reads as itself, plus signs apart. *)
Lemma decodable_text t : sforall text_char t = true -> decodable t.
Proof.
  intros H. exists (smap plus_space t). split; [|revert H; apply sforall_mono; intros c; all_chars c].
  unfold form_decode. enough (percent_bytes (smap plus_space t) = utf8_encode (smap plus_space t)) as -> by apply utf8_roundtrip.
  assert (forall c s, text_char c = true -> percent_bytes (String (plus_space c) s) = utf8_char (plus_space c) ++ percent_bytes s) as Hc.
  { clear. intros c s. destruct c as [[] [] [] [] [] [] [] []]; intros Hc; try done; by destruct s as [|? [|? ?]]. }
  induction t as [|c t IH]; [done|]. cbn in H. apply andb_true_iff in H as [H1 H2]. cbn [smap utf8_encode].
  rewrite Hc by done. by rewrite IH.
Qed.

Lemma decodable_number x : decodable (Num.to_string x).
Proof. apply decodable_text. eapply sforall_mono, number_text_numeric. intros c. all_chars c. Qed.

Lemma identifier_segment s : identifier s = true -> sforall seg_char s = true.
Proof. intros [_ H]%andb_true_iff. revert H. apply sforall_mono. intros c. all_chars c. Qed.

Ltac decode := first [apply decodable_uri | apply decodable_form | apply decodable_number | by apply decodable_text
                     | apply decodable_id; assumption].
Ltac address := cbn; unfold api_url, path_of, query_text; cbn; rewrite ?append_assoc, ?append_nil_r; reflexivity.
Ltac clean := cbn; rewrite ?identifier_segment by assumption; reflexivity.

(** The request with the segments [segs] and the query [ts]. *)
Ltac reach segs ts :=
  eapply (reaches_segments _ _ _ segs ts);
  [ address | done | clean | repeat (apply List.Forall_cons; [split; decode|]); apply List.Forall_nil | | ].

Ltac arrive segs ts at_route :=
  reach segs ts;
  [ find_handler; reflexivity | rewrite ?param_plain by assumption; apply at_route ].

Ltac arrive_plain segs at_route := arrive segs (@nil (string * string)) at_route.

(** Requests by their method and address. *)
Lemma reach_commands r : f_method r = "POST" -> f_url r = "/api/commands" -> reaches "POST" [Lit "commands"] r.
Proof. destruct r as [m u hs b]. cbn. intros -> ->. arrive_plain ["commands"] at_commands_POST. Qed.

Lemma reach_command x : identifier x = true -> x <> "capabilities" ->
  reaches "GET" [Lit "commands"; Par x] (get_request ("/api/commands/" +:+ encodeURIComponent x)).
Proof.
  intros Hx Hne. rewrite identifier_encoded by done. assert (("capabilities" === x) = false) as Hc by (apply String.eqb_neq; congruence).
  reach ["commands"; x] (@nil (string * string)).
  - revert Hc. find_handler. intros ->. reflexivity.
  - rewrite param_plain by done. apply at_command_GET.
Qed.

Lemma reach_schedule x r m segs es h :
  identifier x = true -> x <> "runs" -> forallb (sforall seg_char) segs = true ->
  f_url r = api_url ("schedules" :: x :: segs) [] ->
  (("runs" === x) = false -> routed (f_method r) ("schedules" :: x :: segs) = Some h) ->
  data_route env h m es -> reaches m es r.
Proof.
  intros Hx Hne Hs Hu Hh Hd. eapply (reaches_segments _ _ _ ("schedules" :: x :: segs) []); [done|done| |constructor| |done].
  - cbn. by rewrite identifier_segment.
  - apply Hh, String.eqb_neq. congruence.
Qed.

Ltac schedule x segs at_route :=
  rewrite ?identifier_encoded by assumption; eapply (reach_schedule x _ _ segs);
  [assumption | assumption | reflexivity | address
  | let H := fresh in intros H; revert H; find_handler; intros ->; reflexivity
  | rewrite param_plain by assumption; apply at_route ].

(** The dashboard's programs. *)
Lemma reach_fleet fuel r : may_send (Dashboard.fetchDevices fuel) r -> reaches "GET" [Lit "devices"] r.
Proof.
  apply all_requests_may. unfold Dashboard.fetchDevices. generalize (Num.of_Z 1) at 2. generalize (Num.of_Z 1).
  generalize (@nil Dashboard.NormalizedDevice). induction fuel as [|fuel IH]; intros l page last; cbn [Dashboard.device_pages];
    (destruct (Num.le page last); [|done]); [done|]. cbn [negb]. apply all_requests_bind.
  - apply get_json_requests. arrive ["devices"] [("per_page", "200"); ("page", Num.to_string page)] at_devices_GET.
  - intros payload. apply all_requests_bind; [apply all_requests_lift|]. intros [[[rows found] next] last'].
    by destruct rows; [|apply IH].
Qed.

Lemma reach_fleet_commands date_parse from r :
  may_send (Dashboard.fetchCommands date_parse from) r -> reaches "GET" [Lit "commands"] r.
Proof.
  apply all_requests_may. unfold Dashboard.fetchCommands. generalize JNull, (@nil Dashboard.NormalizedCommand).
  induction Dashboard.COMMAND_FETCH_MAX_PAGES as [|n IH]; intros before l; [done|]. cbn [Dashboard.command_pages].
  assert (forall url, Dashboard.command_page_url before = Ok url -> reaches "GET" [Lit "commands"] (get_request url)) as Hurl.
  { intros url. unfold Dashboard.command_page_url. destruct (truthy before); [destruct (to_str before) as [s|]; [|done]|]; intros [= <-].
    - arrive ["commands"] [("limit", "200"); ("before", form_encode s)] at_commands_GET.
    - arrive ["commands"] [("limit", "200")] at_commands_GET. }
  destruct (Dashboard.command_page_url before) as [url|]; [|done]. cbn [lift bind]. apply all_requests_bind.
  { by apply get_json_requests, Hurl. }
  intros payload. apply all_requests_bind; [apply all_requests_lift|]. intros field. case_match; [done|].
  apply all_requests_bind; [apply all_requests_lift|]. intros [oldest found]. by repeat case_match.
Qed.

Lemma reach_get_json {A} what url m es (k : jsval -> io A) r :
  (forall v, all_requests (reaches m es) (k v)) -> reaches m es (get_request url) -> may_send (bind (get_json what url) k) r ->
  reaches m es r.
Proof. intros Hk Hu. apply all_requests_may, all_requests_bind; [by apply get_json_requests|done]. Qed.

(** The settings and the webhooks. *)
Ltac named x H :=
  let H1 := fresh "Hid" in let H2 := fresh "Hcap" in let H3 := fresh "Hrun" in
  destruct (H x) as (H1 & H2 & H3); [by repeat constructor|].

Definition raw (e : seg) : string := match e with Lit s | Par s => s end.

(** The pages call the settings as the control plane does. *)
Lemma change_address c s r :
  Settings.request c s = Some r -> f_method r = (change_route c).1 /\ f_url r = path_of (map raw (change_route c).2).
Proof.
  unfold Settings.request. destruct c; cbn -[Settings.send Settings.send_delete]; intros H;
    repeat match type of H with context [match ?b with _ => _ end] => destruct b; [try done..] end.
  all: try (destruct (own_get _ _); [|done]); injection H as <-; split; reflexivity.
Qed.

Lemma reach_change c s r : Settings.request c s = Some r -> names (change_route c).2 -> reaches (change_route c).1 (change_route c).2 r.
Proof.
  intros [Hm Hu]%change_address Hn. set (segs := map raw (change_route c).2) in *.
  assert (f_url r = api_url segs []) as Ha by (unfold api_url; by rewrite append_nil_r).
  destruct r as [m u hs b]. cbn in Hm, Hu. subst m u. clear Ha.
  destruct c as [|x p|x|x v| |x p|x|role| |x|x|x]; cbn [change_route fst snd] in *;
    try named x Hn; try named (Settings.role_str role) Hn; subst segs.
  - arrive_plain ["settings"; "alert-rules"] at_alert_rules_POST.
  - arrive_plain ["settings"; "alert-rules"; x] at_alert_rule_PATCH.
  - arrive_plain ["settings"; "alert-rules"; x] at_alert_rule_DELETE.
  - arrive_plain ["settings"; "policy-entries"; x] at_policy_entry_PATCH.
  - arrive_plain ["settings"; "compliance-thresholds"] at_thresholds_POST.
  - arrive_plain ["settings"; "compliance-thresholds"; x] at_threshold_PATCH.
  - arrive_plain ["settings"; "compliance-thresholds"; x] at_threshold_DELETE.
  - arrive_plain ["settings"; "roles"; Settings.role_str role; "permissions"] at_role_permissions_PATCH.
  - arrive_plain ["settings"; "team-members"] at_members_POST.
  - arrive_plain ["settings"; "team-members"; x] at_member_PATCH.
  - arrive_plain ["settings"; "team-members"; x; "activate"] at_member_activate_POST.
  - arrive_plain ["settings"; "team-members"; x; "deactivate"] at_member_deactivate_POST.
Qed.

Lemma reach_action s a : names (action_route a).2 -> reaches (action_route a).1 (action_route a).2 (Webhooks.action_request s a).
Proof.
  intros Hn. unfold Webhooks.action_request, Webhooks.endpoint_path.
  destruct a as [d|x d|e|e|e|e|e|d]; cbn [action_route fst snd] in *.
  - arrive_plain ["webhooks"; "endpoints"] at_endpoints_POST.
  - named x Hn. rewrite identifier_encoded by done. arrive_plain ["webhooks"; "endpoints"; x] at_endpoint_PATCH.
  - set (x := Webhooks.endpoint_id e) in *. named x Hn. rewrite identifier_encoded by done. arrive_plain ["webhooks"; "endpoints"; x] at_endpoint_DELETE.
  - set (x := Webhooks.endpoint_id e) in *. named x Hn. rewrite identifier_encoded by done. clearbody x.
    unfold Webhooks.toggle_action. destruct (Webhooks.endpoint_status e).
    all: first [arrive_plain ["webhooks"; "endpoints"; x; "pause"] at_endpoint_pause_POST|arrive_plain ["webhooks"; "endpoints"; x; "resume"] at_endpoint_resume_POST].
  - set (x := Webhooks.endpoint_id e) in *. named x Hn. rewrite identifier_encoded by done. arrive_plain ["webhooks"; "endpoints"; x; "test"] at_endpoint_test_POST.
  - set (x := Webhooks.endpoint_id e) in *. named x Hn. rewrite identifier_encoded by done. arrive_plain ["webhooks"; "endpoints"; x; "reveal-secret"] at_endpoint_reveal_GET.
  - set (x := Webhooks.endpoint_id e) in *. named x Hn. rewrite identifier_encoded by done. arrive_plain ["webhooks"; "endpoints"; x; "rotate-secret"] at_endpoint_rotate_POST.
  - set (x := Webhooks.delivery_id d) in *. named x Hn. rewrite identifier_encoded by done. arrive_plain ["webhooks"; "deliveries"; x; "replay"] at_delivery_replay_POST.
Qed.

(** The lists of addresses. *)
Ltac one_of H :=
  cbn [app zip zip_with] in H; repeat (apply elem_of_cons in H as [[= -> ->]|H]); [..|by apply elem_of_nil in H].

Lemma reach_latest x : identifier x = true ->
  reaches "GET" [Lit "telemetry"; Lit "devices"; Par x; Lit "latest"]
    (get_request ("/api/telemetry/devices/" +:+ encodeURIComponent x +:+ "/latest")).
Proof. intros Hx. rewrite identifier_encoded by done. arrive_plain ["telemetry"; "devices"; x; "latest"] at_telemetry_latest_GET. Qed.

Lemma reach_history x from to : identifier x = true ->
  reaches "GET" [Lit "telemetry"; Lit "devices"; Par x; Lit "history"]
    (get_request ("/api/telemetry/devices/" +:+ encodeURIComponent x +:+ "/history?from=" +:+ encodeURIComponent from +:+ "&to="
       +:+ encodeURIComponent to +:+ "&bucket=raw")).
Proof.
  intros Hx. rewrite (identifier_encoded x) by done.
  arrive ["telemetry"; "devices"; x; "history"] [("from", encodeURIComponent from); ("to", encodeURIComponent to); ("bucket", "raw")] at_telemetry_history_GET.
Qed.

Lemma reach_capabilities x :
  reaches "GET" [Lit "commands"; Lit "capabilities"] (get_request ("/api/commands/capabilities?device_id=" +:+ encodeURIComponent x)).
Proof. arrive ["commands"; "capabilities"] [("device_id", encodeURIComponent x)] at_capabilities_GET. Qed.

Lemma reach_device x : identifier x = true -> reaches "GET" [Lit "devices"; Par x] (get_request ("/api/devices/" +:+ encodeURIComponent x)).
Proof. intros Hx. rewrite identifier_encoded by done. arrive_plain ["devices"; x] at_device_GET. Qed.

Lemma reach_device_page x from to view url es :
  (url, es) ∈ zip (DeviceDetail.load_urls x from to view)
      ([[Lit "devices"; Par x]; [Lit "devices"; Par x; Lit "commands"]; [Lit "telemetry"; Lit "devices"; Par x; Lit "latest"];
        [Lit "telemetry"; Lit "devices"; Par x; Lit "history"]] ++ (if view then [[Lit "alerts"]] else [])
       ++ [[Lit "audit"; Lit "device"; Par x]; [Lit "commands"; Lit "capabilities"]]) ->
  names es -> reaches "GET" es (get_request url).
Proof.
  unfold DeviceDetail.load_urls. cbv zeta. intros H Hn. destruct view; one_of H; try named x Hn.
  all: first [by apply reach_device | by apply reach_latest | by apply reach_history | apply reach_capabilities | idtac].
  all: rewrite ?identifier_encoded by done.
  all: first [arrive ["devices"; x; "commands"] [("limit", "20")] at_device_commands_GET
             | arrive ["alerts"] [("limit", "100")] at_alerts_GET
             | arrive ["audit"; "device"; x] [("limit", "100")] at_audit_device_GET].
Qed.

Lemma reach_device_drawer x view url es :
  (url, es) ∈ zip (DeviceDrawer.bundle_urls x view)
      ((if view then [[Lit "alerts"]] else [])
       ++ [[Lit "devices"; Par x]; [Lit "devices"; Par x; Lit "commands"]; [Lit "devices"; Par x; Lit "telemetry"; Lit "latest"];
           [Lit "audit"; Lit "device"; Par x]; [Lit "commands"; Lit "capabilities"]]) ->
  identifier x = true -> reaches "GET" es (get_request url).
Proof.
  unfold DeviceDrawer.bundle_urls. cbv zeta. intros H Hx. destruct view; one_of H.
  all: first [by apply reach_device | apply reach_capabilities | idtac].
  all: rewrite ?identifier_encoded by done.
  all: first [arrive ["devices"; x; "commands"] [("limit", "40")] at_device_commands_GET
             | arrive ["devices"; x; "alerts"] [("limit", "100")] at_device_alerts_GET
             | arrive ["devices"; x; "audit"] [("limit", "100")] at_device_audit_GET
             | arrive_plain ["devices"; x; "telemetry"] at_device_telemetry_GET].
Qed.

Lemma reach_telemetry_page x from to url es :
  (url, es) ∈ zip (TelemetryPage.bundle_urls x from to)
      [[Lit "telemetry"; Lit "devices"; Par x; Lit "latest"]; [Lit "telemetry"; Lit "devices"; Par x; Lit "history"];
       [Lit "telemetry"; Lit "activity"]; [Lit "commands"]] ->
  names es -> reaches "GET" es (get_request url).
Proof.
  unfold TelemetryPage.bundle_urls. cbv zeta. intros H Hn. one_of H; try named x Hn.
  - by apply reach_latest.
  - by apply reach_history.
  - arrive ["telemetry"; "activity"] [("device_id", encodeURIComponent x); ("limit", "100")] at_telemetry_activity_GET.
  - arrive ["commands"] [("device_id", encodeURIComponent x); ("limit", "200")] at_commands_GET.
Qed.

(** ** Part by part *)

Lemma fleet_reaches r m es : fleet_sends r m es -> names es -> reaches m es r.
Proof.
  intros H Hn. destruct H as [fuel r H|r H|date_parse from r H|date_parse local r H|p|x].
  - by eapply reach_fleet.
  - revert H. apply reach_get_json; [intros v; apply all_requests_lift|]. arrive ["alerts"] [("limit", "200")] at_alerts_GET.
  - by eapply reach_fleet_commands.
  - revert H. apply reach_get_json; [intros v; apply all_requests_lift|].
    arrive ["audit"; "events"] [("page", "1"); ("per_page", "120")] at_audit_events_GET.
  - arrive_plain ["ai"; "copilot"; "ask"] at_copilot_ask_POST.
  - named x Hn. unfold Copilot.conversation_request. rewrite identifier_encoded by done.
    arrive_plain ["ai"; "copilot"; "conversations"; x] at_copilot_conversation_GET.
Qed.

Lemma command_reaches r m es : command_sends r m es -> names es -> reaches m es r.
Proof.
  intros H Hn. destruct H as [body|ids k x m params sensitive|u x p|o|u m params sensitive s r H|u x m params sensitive r H|x|o|x].
  - by apply reach_commands.
  - by apply reach_commands.
  - by apply reach_commands.
  - by apply reach_commands.
  - unfold DeviceDetail.dispatchCommand in H. case_match; [done|]. injection H as <-. by apply reach_commands.
  - revert H. unfold DeviceDrawer.dispatch_body. destruct (to_str m); [|done]. intros [= <-]. by apply reach_commands.
  - named x Hn. by apply reach_command.
  - unfold ResultsPage.list_url. destruct (ResultsPage.opt_before o) as [b|]; [destruct (truthy_str b)|].
    + arrive ["commands"] [("limit", "50"); ("before", form_encode b)] at_commands_GET.
    + arrive ["commands"] [("limit", "50")] at_commands_GET.
    + arrive ["commands"] [("limit", "50")] at_commands_GET.
  - named x Hn. by apply reach_command.
Qed.

Lemma device_reaches r m es : device_sends r m es -> names es -> reaches m es r.
Proof.
  intros H Hn. destruct H as [|x| |url es H|x from to view url es H|x view url es Hx H|x from to url es H].
  - arrive ["devices"] [("per_page", "200")] at_devices_GET.
  - named x Hn. by apply reach_device.
  - arrive ["devices"] [("per_page", "200")] at_devices_GET.
  - unfold MobileDevices.mobile_urls in H. one_of H.
    + arrive_plain ["mobile-devices"] at_mobile_devices_GET.
    + arrive ["commands"] [("limit", "300")] at_commands_GET.
  - by eapply reach_device_page.
  - by eapply reach_device_drawer.
  - by eapply reach_telemetry_page.
Qed.

Lemma query_arrives path segs params r h m es :
  f_method r = "GET" -> f_url r = path +:+ "?" +:+ join "&" (map (fun kv => form_encode kv.1 +:+ "=" +:+ form_encode kv.2) params) ->
  path = path_of segs -> segs <> [] -> params <> [] -> forallb (sforall seg_char) segs = true ->
  routed "GET" segs = Some h -> data_route env h m es -> reaches m es r.
Proof.
  intros Hm Hu -> Hne Hp Hs Hh Hd. destruct params as [|kv params]; [done|].
  apply (reaches_segments _ _ _ segs (map (fun kv => (form_encode kv.1, form_encode kv.2)) (kv :: params)) h); try done.
  - rewrite Hu. unfold api_url, query_text. rewrite map_map. done.
  - apply List.Forall_map, List.Forall_forall. intros x _. split; decode.
  - by rewrite Hm.
Qed.

Lemma admin_reaches r m es : admin_sends r m es -> names es -> reaches m es r.
Proof.
  intros H Hn. destruct H as [|x|c|x| |b| |x b|z d r H|d x r H|x|job|c s r H| |c|c|s a].
  - arrive_plain ["pair"; "init"] at_pair_init_POST.
  - named x Hn. unfold Pairing.poll_request. rewrite identifier_encoded by done. arrive_plain ["pair"; "session"; x] at_pair_session_GET.
  - arrive_plain ["pair"; "confirm"] at_pair_confirm_POST.
  - arrive ["policy"; "app-lock"] [("device_id", encodeURIComponent x)] at_app_lock_GET.
  - arrive_plain ["policy"; "app-lock"] at_app_lock_GET.
  - arrive_plain ["policy"; "app-lock"] at_app_lock_PUT.
  - arrive_plain ["policy"; "app-lock"] at_app_lock_DELETE.
  - arrive ["policy"; "app-lock"] [("device_id", encodeURIComponent x)] at_app_lock_PUT.
  - unfold Scheduling.sends in H. destruct (Scheduling.createForm d) as [f|]; [|done]. case_match; [done|].
    destruct (Scheduling.handleSave z f); [|done]. injection H as <-. arrive_plain ["schedules"] at_schedules_POST.
  - named x Hn. unfold Scheduling.toggle_request, Scheduling.schedule_url in H. case_match; [|done]. injection H as <-.
    schedule x (@nil string) at_schedule_PATCH.
  - named x Hn. unfold Scheduling.delete_request, Scheduling.schedule_url. schedule x (@nil string) at_schedule_DELETE.
  - set (x := Scheduling.j_id job) in *. named x Hn. unfold Scheduling.run_request, Scheduling.schedule_url. fold x. clearbody x.
    schedule x ["run-now"] at_schedule_run_now_POST.
  - by eapply reach_change.
  - arrive_plain ["webhooks"; "endpoints"] at_endpoints_GET.
  - eapply (query_arrives "/api/webhooks/deliveries" ["webhooks"; "deliveries"]); [done|reflexivity|done|done| |done|find_handler; reflexivity|apply at_deliveries_GET].
    intros E. apply (f_equal length) in E. rewrite !app_length in E. cbn in E. lia.
  - eapply (query_arrives "/api/webhooks/inbound" ["webhooks"; "inbound"]); [done|reflexivity|done|done| |done|find_handler; reflexivity|apply at_inbound_GET].
    intros E. apply (f_equal length) in E. rewrite app_length in E. cbn in E. lia.
  - by apply reach_action.
Qed.

Lemma bulk_request xs r x :
  (r, x) ∈ zip (Notifications.job_requests (Notifications.BulkRequest xs)) xs -> r = bare_request "DELETE" (Notifications.item_url x).
Proof.
  cbn. induction xs as [|y xs IH]; [by intros ?%elem_of_nil|]. intros [[= -> ->]|H]%elem_of_cons; [done|by apply IH].
Qed.

Lemma report_reaches r m es : report_sends r m es -> names es -> reaches m es r.
Proof.
  intros H Hn. destruct H as [|x|x| |x r H|ty q r H|xs r x H|x r H|url es H| |d|format from to fields].
  - arrive ["alerts"] [("limit", "200")] at_alerts_GET.
  - named x Hn. unfold Alerts.ack_request. rewrite identifier_encoded by done. arrive_plain ["alerts"; x; "ack"] at_alert_ack_POST.
  - named x Hn. unfold OperatorConsole.ack_request. rewrite identifier_encoded by done. arrive_plain ["alerts"; x; "ack"] at_alert_ack_POST.
  - arrive ["notifications"] [("limit", "120")] at_notifications_GET.
  - named x Hn. apply list_elem_of_singleton in H as ->. unfold Notifications.item_url. rewrite identifier_encoded by done.
    arrive_plain ["notifications"; x; "read"] at_notification_read_POST.
  - apply list_elem_of_singleton in H as ->. arrive_plain ["notifications"] at_notifications_POST.
  - named x Hn. apply bulk_request in H as ->. unfold Notifications.item_url. rewrite identifier_encoded by done.
    arrive_plain ["notifications"; x] at_notification_DELETE.
  - named x Hn. apply list_elem_of_singleton in H as ->. unfold Notifications.item_url. rewrite identifier_encoded by done.
    arrive_plain ["notifications"; x] at_notification_DELETE.
  - unfold SystemHealth.urls in H. one_of H.
    + arrive_plain ["system-health"; "overview"] at_health_overview_GET.
    + arrive_plain ["system-health"; "components"] at_health_components_GET.
    + arrive ["system-health"; "timeseries"] [("window_minutes", "360"); ("bucket_minutes", "5")] at_health_timeseries_GET.
    + arrive ["system-health"; "events"] [("limit", "60"); ("window_minutes", "180")] at_health_events_GET.
  - arrive ["audit"; "events"] [("page", "1"); ("per_page", "120")] at_audit_events_GET.
  - eapply (query_arrives "/api/audit/events/export" ["audit"; "events"; "export"]); [done|reflexivity|done|done|done|done|find_handler; reflexivity|apply at_audit_export_GET].
  - eapply (query_arrives "/api/compliance/export" ["compliance"; "export"]); [done|reflexivity|done|done|done|done|find_handler; reflexivity|apply at_compliance_export_GET].
Qed.

Lemma load_reaches can_view url es : (url, es) ∈ load_table can_view -> reaches "GET" es (get_request url).
Proof.
  intros H. destruct can_view; one_of H.
  all: first
    [ arrive ["devices"] [("per_page", "200")] at_devices_GET
    | arrive_plain ["commands"; "capabilities"] at_capabilities_GET
    | arrive ["commands"] [("limit", "200")] at_commands_GET
    | arrive ["commands"] [("limit", "120")] at_commands_GET
    | arrive ["commands"] [("limit", "300")] at_commands_GET
    | arrive_plain ["schedules"] at_schedules_GET
    | arrive ["schedules"; "runs"] [("limit", "400")] at_schedule_runs_GET
    | arrive ["alerts"] [("limit", "60")] at_alerts_GET
    | arrive ["alerts"] [("limit", "120")] at_alerts_GET
    | arrive_plain ["settings"; "alert-rules"] at_alert_rules_GET
    | arrive_plain ["settings"; "policy-entries"] at_policy_entries_GET
    | arrive_plain ["settings"; "compliance-thresholds"] at_thresholds_GET
    | arrive_plain ["settings"; "roles"; "permissions"] at_permissions_GET
    | arrive_plain ["settings"; "team-members"] at_members_GET
    | arrive_plain ["compliance"; "overview"] at_compliance_overview_GET
    | arrive ["compliance"; "audit"] [("per_page", "120"); ("page", "1")] at_compliance_audit_GET
    | arrive ["audit"; "events"] [("page", "1"); ("per_page", "200")] at_audit_events_GET ].
Qed.

Lemma page_reaches r m es : page_sends r m es -> names es -> reaches m es r.
Proof.
  intros [can_view url H -> ->|H|H|H|H|H] Hn; [by eapply load_reaches|by apply fleet_reaches|by apply command_reaches
    |by apply device_reaches|by apply admin_reaches|by apply report_reaches].
Qed.

(** [C3] Every request finds its endpoint: for what the pages send for
    their data, with whatever cookies, the site has a handler, which the guard
    does not stand in the way of; all the handler sends goes to the endpoint
    of the control plane the request is meant for, apart from a refresh of the
    browser's own token, and it sends at most three requests.  The ids in the
    request must consist of letters, digits, dashes and underscores and be
    none of the names routes have of their own (capabilities, runs); the
    framework hands a segment of such characters over as it is. *)
Theorem requests_find_endpoints (r : FetchRequest) (m : string) (es : list seg) (j : jar) :
  page_sends r m es -> names es ->
  exists (request : NextRequest) (program : io NextResponse),
    serving j r = Some program /\ req_cookies request = j /\ req_body request = Some (f_body r ?? "")
    /\ all_requests (on_route env m es request) program /\ at_most 3 program.
Proof.
  intros H Hn. destruct (page_reaches r m es H Hn j) as (h & ps & Hs & Hd).
  exists (arriving https host j ps r), (h (arriving https host j ps r)).
  by split_and!; [..|eapply data_route_stays|eapply data_route_stays].
Qed.
End Links.

(** The detail of a command, asked for by a browser that is not signed in. *)
Lemma requests_find_endpoints_witness :
  let r := Explorer.detail_request "cmd-7" in
  exists (request : NextRequest) (program : io NextResponse),
    serve Demo.env "u" (fun _ => None) (fun _ _ => None) (fun s => s) true "ui.example" ∅ r = Some program
    /\ req_cookies request = ∅ /\ req_body request = Some (f_body r ?? "")
    /\ all_requests (on_route Demo.env "GET" [Lit "commands"; Par "cmd-7"] request) program /\ at_most 3 program.
Proof.
  apply (requests_find_endpoints Demo.env "u" (fun _ => None) (fun _ _ => None) true "ui.example" (fun s => s) (fun s _ => eq_refl)
           (Explorer.detail_request "cmd-7") "GET" [Lit "commands"; Par "cmd-7"]).
  - apply by_commands, command_detail.
  - intros x ->%list_elem_of_singleton. done.
Defined.
