(* ===== verification/EndToEnd.v ===== *)
(** * From the page to the control plane and back

    A request of a page passes the guard, a handler, the proxy and the
    control plane, and its answer comes back the same way.  This file runs
    programs of pages against the deployed site ([Site.site]), which runs its
    handlers against any control plane: what a page reads is what the control
    plane sent ([site_transparent]), so the device list is read in full
    through the site; a command arrives as it was meant; and what a page
    causes stays on the endpoints its requests are meant for. *)

From stdpp Require Import gmap pretty.
From S2P Require Import Prelude JsNumber JsInteger JsString JsValue JsonText JsDigits Client Dashboard DashboardLaws Dispatching.
From S2P Require Import Auth Http Session Proxy SessionLaws ProxyLaws Routes Urls Browser Site Links.

Local Open Scope Z_scope.

Definition get_options : ProxyRequestOptions := {| opt_method := Some "GET"; opt_body := None; opt_headers := [] |}.

(** An answer that is handed through as it is: a value that JSON carries and
    that says nothing of the user's role. *)
Definition quiet (v : jsval) : Prop :=
  json_plain v /\ truthy v = true /\ normalizedPayload v = v /\ payload_role v = Ok None.

(** A path with its query as the proxy writes it. *)
Definition forwarded (path : string) (ps : list (string * string)) : string :=
  let q := join "&" (map (fun kv => form_encode kv.1 +:+ "=" +:+ form_encode kv.2) ps) in
  if truthy_str q then path +:+ "?" +:+ q else path.

Lemma digits_kept z : 0 < z -> form_encode (Num.digits z) = Num.digits z.
Proof.
  intros Hz. destruct z as [|p|p]; [lia| |lia]. pose proof (pretty_digits (Npos p)) as H.
  change (Num.digits (Zpos p)) with (pretty (Npos p)). revert H. generalize (pretty (Npos p)). intros s.
  unfold form_encode. induction s as [|c s IH]; [done|]. cbn. intros [Hc Hs]%andb_prop. rewrite IH by done.
  unfold form_char. assert (is_alnum c = true) as -> by (unfold is_alnum; by rewrite Hc). done.
Qed.

Section Deployed.
Context (env : string -> option string) (uuid : string) (url_origin : string -> option string).
Context (resolve : string -> string -> option string) (https : bool) (host : string) (not_found crash : FetchResponse).
Context (param : string -> string).
Context {S : Type} {up : Upstream S}.

Abbreviation deployed := (site env uuid url_origin resolve param https host not_found crash).

(** The control plane answers a GET of a signed-in user with a value. *)
Definition sends_json (s : S) (jwt path : string) (v : jsval) (s' : S) : Prop :=
  exists r, answer s (proxied_request env path get_options jwt) = (s', Some r) /\ status r = 200
    /\ is_json_type ((resp_headers r !! "content-type") ?? "") = true /\ resp_json r = Some v.

(** The same after the token has expired: the refresh hands out new tokens,
    and the second attempt succeeds. *)
Definition renews_and_sends (s : S) (jwt rt path : string) (v : jsval) (s' : S) (jwt' rt' : string) : Prop :=
  exists r s1 s2 o, answer s (proxied_request env path get_options jwt) = (s1, Some r) /\ status r = 401
    /\ answer s1 (refresh_request env rt) = (s2, o) /\ refresh_grants o jwt' rt' /\ sends_json s2 jwt' path v s'.

(** The cookies of a signed-in browser. *)
Definition signed_in (j : jar) (jwt rt : string) : Prop :=
  j !! cookie_jwt = Some jwt /\ j !! cookie_refreshToken = Some rt /\ truthy_str jwt = true /\ truthy_str rt = true
  /\ exists sid, j !! cookie_sessionId = Some sid /\ truthy_str sid = true.

(** ** One request *)

Lemma respond_quiet s s' jwt rt sid role did v path :
  sends_json s jwt path v s' -> quiet v ->
  exists r, answer s (proxied_request env path get_options jwt) = (s', Some r) /\ status r = 200
    /\ proxy_respond env {| upstreamResponse := r; didRefresh := did; xJwt := jwt; xRefreshToken := rt |} sid role
       = Ret (if did && truthy_str rt && truthy_str sid
              then attachTokenCookies env (value_response v 200) jwt rt sid role None else value_response v 200).
Proof.
  intros (r & Ha & Hst & Hct & Hv) (Hp & Htv & Hn & Hrole). exists r. split_and!; [done..|].
  unfold proxy_respond. cbn [upstreamResponse didRefresh xJwt xRefreshToken]. rewrite Hst. cbn [Z.eqb Pos.eqb].
  unfold readUpstreamPayload. rewrite Hct, Hv. change (default JNull (Some v)) with v. cbv zeta.
  rewrite Hn, Htv. cbn -[value_response]. rewrite Hrole. cbn -[value_response]. rewrite orb_false_r. by case_match.
Qed.

(** The proxy on a token that holds, and on one that has expired. *)
Lemma proxy_direct s s' request path v :
  truthy_str (cookie_value request cookie_jwt) = true ->
  sends_json s (cookie_value request cookie_jwt) path v s' -> quiet v ->
  exists tr, run s (proxyAuthedGet env request path) = (tr, s', Ok (value_response v 200)).
Proof.
  intros Ht Hs Hq. unfold proxyAuthedGet, proxyAuthedRequest. rewrite Ht. cbn [negb]. fold get_options.
  destruct (respond_quiet _ _ _ (cookie_value request cookie_refreshToken) (cookie_value request cookie_sessionId)
              (normalizeRole (req_cookies request !! cookie_role)) false _ _ Hs Hq) as (r & Ha & Hst & Hr).
  rewrite run_bind. unfold exchange. cbn [fetch bind run]. rewrite Ha. cbn [bind]. rewrite Hst. cbn [Z.eqb Pos.eqb andb run].
  rewrite Hr. cbn [andb run]. by eexists.
Qed.

Lemma proxy_renewed s s' request path v jwt' rt' :
  truthy_str (cookie_value request cookie_jwt) = true -> truthy_str (cookie_value request cookie_refreshToken) = true ->
  truthy_str (cookie_value request cookie_sessionId) = true ->
  renews_and_sends s (cookie_value request cookie_jwt) (cookie_value request cookie_refreshToken) path v s' jwt' rt' -> quiet v ->
  exists tr, run s (proxyAuthedGet env request path)
    = (tr, s', Ok (attachTokenCookies env (value_response v 200) jwt' rt' (cookie_value request cookie_sessionId)
                     (normalizeRole (req_cookies request !! cookie_role)) None)).
Proof.
  intros Ht Hrt Hsid (r1 & s1 & s2 & o & H1 & Hst1 & H2 & (r2 & -> & Htok) & Hs) Hq.
  unfold proxyAuthedGet, proxyAuthedRequest. rewrite Ht. cbn [negb]. fold get_options.
  destruct (respond_quiet _ _ _ rt' (cookie_value request cookie_sessionId)
              (normalizeRole (req_cookies request !! cookie_role)) true _ _ Hs Hq) as (r & Ha & Hst & Hr).
  assert (truthy_str rt' = true) as Hrt' by (apply truthy_str_spec; by eapply refreshed_tokens_nonempty).
  rewrite run_bind. unfold exchange. cbn [fetch bind run]. rewrite H1. cbn [bind]. rewrite Hst1, Hrt, Hsid.
  cbn [Z.eqb Pos.eqb andb refreshJwt fetch bind run]. rewrite H2. cbn [bind]. rewrite Htok. cbn [lift bind run]. rewrite Ha.
  cbn [bind run]. rewrite Hr, Hrt', Hsid. cbn [andb run]. by eexists.
Qed.

(** What the proxy answers reaches the page. *)
Lemma site_hands_over path segs ps ts s s' j tr resp v :
  segs <> [] -> forallb (sforall seg_char) segs = true -> Forall2 writes ps ts ->
  routed env uuid url_origin resolve param "GET" segs = Some (get_query env path) ->
  run s (proxyAuthedGet env (arriving https host j ps (get_request (api_url segs ts))) (forwarded path ps)) = (tr, s', Ok resp) ->
  res_status resp = 200 -> res_body resp = JsonBody v -> json_plain v ->
  serves_json (up := deployed) (s, j) (api_url segs ts) v (s', apply_cookies https j (res_cookies resp)).
Proof.
  intros Hne Hs Hw Hr Hrun Hst Hb Hp. destruct (json_round_trip v Hp) as (t & Ht & Hparse).
  exists (delivered resp). split; [|split].
  - unfold answer, site.
    rewrite (serve_segments env uuid url_origin resolve https host param j (get_request (api_url segs ts)) segs ps ts _ eq_refl Hne Hs Hw Hr).
    change (get_query env path ?request) with (proxyAuthedGet env request (forwarded path ps)). by rewrite Hrun.
  - unfold delivered, ok. cbn [status]. by rewrite Hst.
  - unfold resp_json, delivered. cbn [resp_body]. by rewrite Hb, Ht.
Qed.

(** The site is transparent for the lists of the control plane: a page that
    asks for one reads the value the control plane sent, and the cookies of
    the browser stay as they are. *)
Lemma site_transparent path segs ps ts s s' j jwt rt v :
  segs <> [] -> forallb (sforall seg_char) segs = true -> Forall2 writes ps ts ->
  routed env uuid url_origin resolve param "GET" segs = Some (get_query env path) ->
  signed_in j jwt rt -> sends_json s jwt (forwarded path ps) v s' -> quiet v ->
  serves_json (up := deployed) (s, j) (api_url segs ts) v (s', j).
Proof.
  intros Hne Hs Hw Hr (Hj & _ & Ht & _) Hv Hq.
  destruct (proxy_direct s s' (arriving https host j ps (get_request (api_url segs ts))) (forwarded path ps) v) as [tr Hrun]; [..|done|].
  1,2: unfold cookie_value; cbn [arriving req_cookies]; by rewrite Hj.
  replace j with (apply_cookies https j (res_cookies (value_response v 200))) at 2; [by eapply site_hands_over, Hq|].
  apply map_eq. intros k. rewrite lookup_apply. cbn. by rewrite lookup_empty.
Qed.

(** Cookies that the browser keeps. *)
Hypothesis storable : https = true \/ shouldUseSecureCookies env None = false.

Lemma stores_tokens j jwt' rt' sid role v :
  truthy_str jwt' = true -> truthy_str rt' = true -> truthy_str sid = true ->
  signed_in (apply_cookies https j (res_cookies (attachTokenCookies env (value_response v 200) jwt' rt' sid role None))) jwt' rt'.
Proof.
  intros H1 H2 H3. set (resp := attachTokenCookies _ _ _ _ _ _ _).
  assert (ops_view resp = let secure := shouldUseSecureCookies env None in
    (Some (session_cookie secure jwt'), Some (session_cookie secure rt'), Some (session_cookie secure sid),
     role_cookie secure <$> role)) as Hv by apply ops_view_tokens, ops_view_plain.
  pose proof (view_apply https j resp) as Hj. rewrite Hv in Hj. cbn in Hj.
  assert (shouldUseSecureCookies env None && negb https = false) as Hk
    by (destruct storable as [-> | ->]; [apply andb_false_r|done]).
  rewrite Hk in Hj. unfold view in Hj. injection Hj as E1 E2 E3 _. split_and!; [done..|by exists sid].
Qed.

(** So it is when the token has expired, and the browser then has the tokens
    that replaced it. *)
Lemma site_renews path segs ps ts s s' j jwt rt jwt' rt' v :
  segs <> [] -> forallb (sforall seg_char) segs = true -> Forall2 writes ps ts ->
  routed env uuid url_origin resolve param "GET" segs = Some (get_query env path) ->
  signed_in j jwt rt -> renews_and_sends s jwt rt (forwarded path ps) v s' jwt' rt' -> quiet v ->
  exists j', signed_in j' jwt' rt' /\ serves_json (up := deployed) (s, j) (api_url segs ts) v (s', j').
Proof.
  intros Hne Hs Hw Hr (Hj & Hjr & Ht & Htr & sid & Hsid & Hts) Hv Hq.
  assert (truthy_str jwt' = true /\ truthy_str rt' = true) as [Hn1 Hn2].
  { destruct Hv as (_ & _ & _ & _ & _ & _ & _ & (r & _ & Hg) & _).
    by destruct (refreshed_tokens_nonempty _ _ _ Hg) as [?%truthy_str_spec ?%truthy_str_spec]. }
  set (request := arriving https host j ps (get_request (api_url segs ts))).
  assert (cookie_value request cookie_jwt = jwt /\ cookie_value request cookie_refreshToken = rt
          /\ cookie_value request cookie_sessionId = sid) as (E1 & E2 & E3).
  { unfold cookie_value. cbn [request arriving req_cookies]. by rewrite Hj, Hjr, Hsid. }
  destruct (proxy_renewed s s' request (forwarded path ps) v jwt' rt') as [tr Hrun]; [by rewrite ?E1, ?E2, ?E3..|done|].
  eexists. split; [|eapply site_hands_over; [done..|exact Hrun| | |apply Hq]].
  - apply stores_tokens; [done..|by rewrite E3].
  - unfold attachTokenCookies. by case_match.
  - unfold attachTokenCookies. by case_match.
Qed.

(** ** The fleet *)

(** The control plane has the pages of the fleet, and sends each to a user
    with the tokens that hold in its state; a token may expire at any time
    and is then renewed. *)
Context (serves : S -> string -> string -> Prop) (pages : list (list jsval)).

Definition page_path (k : nat) : string := "/devices?per_page=200&page=" +:+ Num.digits (Z.of_nat k + 1).

Hypothesis sends : forall s jwt rt k rows, serves s jwt rt -> pages !! k = Some rows ->
  exists v s' jwt' rt', (sends_json s jwt (page_path k) v s' /\ jwt' = jwt /\ rt' = rt
                         \/ renews_and_sends s jwt rt (page_path k) v s' jwt' rt')
    /\ serves s' jwt' rt' /\ device_page rows (Z.of_nat k + 1) (Z.of_nat (length pages)) v /\ quiet v.

Definition ready (w : S * jar) : Prop := exists jwt rt, serves w.1 jwt rt /\ signed_in w.2 jwt rt.

Lemma page_is_served w k rows :
  Z.of_nat (length pages) < 10 ^ 15 -> ready w -> pages !! k = Some rows ->
  exists w' payload, serves_json (up := deployed) w (device_page_url (Num.of_Z (Z.of_nat k + 1))) payload w' /\ ready w'
    /\ device_page rows (Z.of_nat k + 1) (Z.of_nat (length pages)) payload.
Proof.
  intros Hlen (jwt & rt & Hs & Hj) Hk. destruct w as [s j]. cbn [fst snd] in Hs, Hj.
  pose proof (lookup_lt_Some _ _ _ Hk) as Hlt. set (d := Num.digits (Z.of_nat k + 1)).
  set (q := [("per_page", "200"); ("page", d)]).
  assert (form_encode d = d) as Hd by (apply digits_kept; lia).
  assert (device_page_url (Num.of_Z (Z.of_nat k + 1)) = api_url ["devices"] q) as ->.
  { unfold device_page_url. rewrite integer_text by lia. fold d. unfold api_url, path_of, query_text, q. cbn.
    by rewrite ?append_assoc. }
  assert (Forall2 writes q q) as Hw.
  { pose proof (form_coded d) as Hc. rewrite Hd in Hc.
    constructor; [split; [apply (form_coded "per_page")|apply (form_coded "200")]|].
    constructor; [split; [apply (form_coded "page")|exact Hc]|constructor]. }
  assert (page_path k = forwarded "/devices" q) as Hp.
  { unfold page_path, forwarded, q. fold d. cbn [map fst snd]. rewrite Hd. reflexivity. }
  destruct (sends s jwt rt k rows Hs Hk) as (v & s' & jwt' & rt' & Hv & Hs' & Hpage & Hq). rewrite Hp in Hv.
  destruct Hv as [(Hv & -> & ->)|Hv].
  - exists (s', j), v. split_and!; [|by exists jwt, rt|done]. by eapply site_transparent.
  - edestruct (site_renews "/devices" ["devices"]) as (j' & Hj' & Hserved); [done|done|exact Hw|done|exact Hj|exact Hv|done|].
    exists (s', j'), v. split_and!; [done|by exists jwt', rt'|done].
Qed.

(** While the program runs, other requests of the same browser may be handled
    between two of its own: [between n] is what those before its request [n]
    make of the control plane and the cookies.  They keep the browser signed
    in with tokens that hold. *)
Context (between : nat -> S * jar -> S * jar).
Hypothesis keeps : forall n w, ready w -> ready (between n w).

Definition beside : Upstream (nat * (S * jar)) := fun '(n, w) r =>
  let '(w', o) := answer (Upstream := deployed) (between n w) r in (((n + 1)%nat, w'), o).

Lemma page_is_served_beside nw k rows :
  Z.of_nat (length pages) < 10 ^ 15 -> ready nw.2 -> pages !! k = Some rows ->
  exists nw' payload, serves_json (up := beside) nw (device_page_url (Num.of_Z (Z.of_nat k + 1))) payload nw' /\ ready nw'.2
    /\ device_page rows (Z.of_nat k + 1) (Z.of_nat (length pages)) payload.
Proof.
  destruct nw as [n w]. intros Hlen Hw Hk.
  destruct (page_is_served (between n w) k rows Hlen (keeps n w Hw) Hk) as (w' & payload & (r & Ha & Hr) & Hw' & Hp).
  exists ((n + 1)%nat, w'), payload. split_and!; [|done..]. exists r. split; [|done].
  unfold answer at 1, beside. by rewrite Ha.
Qed.

(** [C2] The device list, end to end: the program with which the dashboard
    reads it (fetchDevices), run in a signed-in browser against the deployed
    site and this against a control plane that pages its devices, ends with
    the devices of all pages in their order, although every page passes the
    guard, the route, the proxy and twice the wire.  A token that expires at
    one of its requests is renewed unnoticed, and afterwards the browser is
    still signed in, with the tokens that hold.  Other requests of the browser
    may be handled between its own as long as they too leave the browser
    signed in with tokens that hold; the browser must be able to store the
    cookies (https, or cookies that need not be secure). *)
Theorem fleet_end_to_end (dss : list (list NormalizedDevice)) (fuel : nat) (s : S) (j : jar) (jwt rt : string) :
  Forall2 (fun rows ds => devices_in rows = Ok ds) pages dss ->
  (forall k, (k + 1 < length pages)%nat -> pages !! k <> Some []) ->
  (0 < length pages <= fuel)%nat -> Z.of_nat (length pages) < 10 ^ 15 ->
  serves s jwt rt -> signed_in j jwt rt ->
  exists n s' j' jwt' rt', run (up := beside) (0%nat, (s, j)) (fetchDevices fuel)
      = (map page_request (seq 0 (length pages)), (n, (s', j')), Ok (Some (concat dss)))
    /\ serves s' jwt' rt' /\ signed_in j' jwt' rt'.
Proof.
  intros Hds Hne Hf Hlen Hs Hj.
  destruct (device_pages_from (up := beside) (fun nw => ready nw.2) pages (fun nw k rows => page_is_served_beside nw k rows Hlen)
              dss Hds Hne ltac:(lia) (length pages) 0 fuel (0%nat, (s, j)) [] (Num.of_Z 1))
    as ([n [s' j']] & (jwt' & rt' & Hs' & Hj') & Hrun); [lia..| | |].
  - by exists jwt, rt.
  - destruct (Nat.ltb_spec 0 (length pages)); [done|lia].
  - exists n, s', j', jwt', rt'. split_and!; [|done..]. unfold fetchDevices.
    change (Num.of_Z 1) with (Num.of_Z (Z.of_nat 0 + 1)) at 1. by rewrite Hrun.
Qed.
End Deployed.

(** ** Commands *)

(** The fields that JSON keeps. *)
Definition kept (v : jsval) : bool := match v with JUndef | JFun _ => false | _ => true end.
Definition defined (o : obj) : obj := List.filter (fun kv => kept kv.2) o.

Lemma json_text_defined o : json_text o = json_text (defined o).
Proof.
  unfold json_text. cbn [stringify]. do 2 f_equal. f_equal. induction o as [|[k v] o IH]; [done|].
  cbn [defined List.filter snd]. destruct v; cbn [kept]; cbn [stringify]; by rewrite ?IH.
Qed.

Definition command_options (text : string) : ProxyRequestOptions :=
  {| opt_method := Some "POST"; opt_body := Some text; opt_headers := [("Content-Type", "application/json"); control_ui] |}.

Section Commands.
Context (env : string -> option string) (uuid : string) (url_origin : string -> option string).
Context (resolve : string -> string -> option string) (https : bool) (host : string) (param : string -> string).

(** What becomes of the body of a command on its way. *)
Definition arrives_as (body : obj) (text : string) : Prop :=
  (~ is_list_files body /\ json_parse text = Some (JObj body))
  \/ is_list_files body
     /\ ((exists params, text = json_text (put body "params" (JObj params)) /\ bounded_listing params
            /\ forall k, k ∉ ["limit"; "max_depth"; "recursive"; "path"] -> get params k = get (listing_params body) k)
         \/ json_parse text = Some (JObj body)
            /\ exists k e, k ∈ ["limit"; "max_depth"] /\ to_number (get (listing_params body) k) = Exn e).

Lemma rewritten_body body : json_plain (JObj body) -> arrives_as body (rewrite_list_files (json_text body)).
Proof.
  intros Hp. pose proof (json_text_read body Hp) as Hr.
  destruct (list_files_bounded (json_text body)) as [(parsed & params & Hj & Hl & -> & Hb & Hk)|[-> Hx]].
  - rewrite Hr in Hj. injection Hj as <-. right. split; [done|]. left. by exists params.
  - destruct (json_parse (json_text body)) as [[| | | | | |parsed|]|] eqn:E; try done. injection Hr as ->.
    destruct (str_or (get body "method") "") as [m|e] eqn:Em.
    + destruct (String.eqb_spec (toLowerCase (trim m)) "list_files") as [Hm|Hm].
      * assert (is_list_files body) as Hl by (by exists m). right. split; [done|]. right. split; [done|]. by apply (Hx body).
      * left. split; [|done]. intros (m' & Hm' & ?). congruence.
    + left. split; [|done]. intros (m' & Hm' & ?). congruence.
Qed.

(** [C4] A command arrives as it was meant: the request every form and button
    for commands sends is, in a signed-in browser, forwarded first of all
    with the browser's token; whatever the control plane answers, the site
    sends nothing but this command and a refresh, at most three requests in
    all, and the control plane reads exactly the fields of the command, those
    of a file listing within their bounds. *)
Theorem command_arrives (body : obj) (j : jar) (jwt : string) :
  json_plain (JObj (defined body)) -> j !! cookie_jwt = Some jwt -> jwt <> "" ->
  exists text rest,
    serve env uuid url_origin resolve param https host j (Dispatching.command_request body)
      = Some (Fetch (proxied_request env "/commands" (command_options text) jwt) rest)
    /\ (forall o, all_requests (fun r => (exists t, r = refresh_request env t)
                                 \/ exists t, r = proxied_request env "/commands" (command_options text) t) (rest o)
                  /\ at_most 2 (rest o))
    /\ arrives_as (defined body) text.
Proof.
  intros Hp Hj Hne%truthy_str_spec. set (r := Dispatching.command_request body).
  set (text := rewrite_list_files (json_text (defined body))).
  assert (serve env uuid url_origin resolve param https host j r
          = Some (proxyAuthedRequest env (arriving https host j [] r) "/commands" (command_options text))) as Hs.
  { rewrite (serve_segments env uuid url_origin resolve https host param j r ["commands"] [] [] (commands_POST env)); [|done..].
    unfold text. rewrite <- json_text_defined. done. }
  assert (proxyAuthedRequest env (arriving https host j [] r) "/commands" (command_options text)
          = bind (exchange env (proxied_request env "/commands" (command_options text)) jwt
                    (cookie_value (arriving https host j [] r) cookie_refreshToken) (cookie_value (arriving https host j [] r) cookie_sessionId))
              (fun x => proxy_respond env x (cookie_value (arriving https host j [] r) cookie_sessionId) (normalizeRole (j !! cookie_role)))) as Hx.
  { unfold proxyAuthedRequest, cookie_value at 1 2. cbn [arriving req_cookies]. rewrite Hj. change (Some jwt ?? "") with jwt. by rewrite Hne. }
  rewrite Hx in Hs. set (sid := cookie_value (arriving https host j [] r) cookie_sessionId) in *.
  set (rt := cookie_value (arriving https host j [] r) cookie_refreshToken) in *.
  destruct (exchange_requests env (fun r => (exists t, r = refresh_request env t)
                                 \/ exists t, r = proxied_request env "/commands" (command_options text) t)
              (proxied_request env "/commands" (command_options text)) jwt rt sid) as [Ha Hm]; [by right; eexists|by left; eexists|].
  eassert (all_requests _ (bind (exchange env _ jwt rt sid) _) /\ at_most 3 (bind (exchange env _ jwt rt sid) _)) as [Ha' Hm'].
  { split; [eapply all_requests_bind; [exact Ha|]|eapply at_most_then_silent; [exact Hm|]]; intros x.
    - apply silent_requests, (proxy_respond_silent env x sid (normalizeRole (j !! cookie_role))).
    - apply (proxy_respond_silent env x sid (normalizeRole (j !! cookie_role))). }
  exists text. eexists. split; [exact Hs|]. split; [|by apply rewritten_body]. intros o. split; [apply Ha'|apply Hm'].
Qed.
End Commands.

(** ** What a page causes *)

(** A control plane that keeps a log of what it is sent. *)
Definition logging {S} {up : Upstream S} : Upstream (S * list FetchRequest) := fun '(s, log) r =>
  let '(s', o) := answer s r in ((s', log ++ [r]), o).

Lemma run_logging {S} {up : Upstream S} {A} (m : io A) (s : S) log :
  run (up := logging) (s, log) m = let '(tr, s', out) := run s m in (tr, (s', log ++ tr), out).
Proof.
  revert s log. induction m as [a|e|r k IH]; intros s log; cbn; [by rewrite app_nil_r..|].
  change (answer (s, log) r) with (logging (s, log) r). unfold logging. destruct (answer s r) as [s1 o].
  rewrite IH. destruct (run s1 (k o)) as [[tr s2] out]. by rewrite <- app_assoc.
Qed.

Lemma may_send_all {A} (P : FetchRequest -> Prop) (m : io A) : (forall r, may_send m r -> P r) -> all_requests P m.
Proof.
  induction m as [a|e|r k IH]; intros HP; [done..|]. split; [apply HP; constructor|].
  intros o. apply (IH o). intros r' Hr'. apply HP. by econstructor.
Qed.

Section Confined.
Context (env : string -> option string) (uuid : string) (url_origin : string -> option string).
Context (resolve : string -> string -> option string) (https : bool) (host : string) (not_found crash : FetchResponse).
Context (param : string -> string).
Hypothesis param_plain : forall s, identifier s = true -> param s = s.
Context {S : Type} {up : Upstream S}.

Abbreviation watched := (site (up := logging) env uuid url_origin resolve param https host not_found crash).

(** The endpoints a page is meant to use, and what follows from its
    requests: the endpoints themselves, or a refresh. *)
Context (meant : string -> list seg -> Prop).

Definition meant_request (r : FetchRequest) : Prop := exists m es, meant m es /\ page_sends r m es /\ names es.

Definition caused (r : FetchRequest) : Prop :=
  (exists t, r = refresh_request env t)
  \/ exists m es q, meant m es /\ f_method r = m /\ is_query q = true /\ f_url r = base_url env +:+ "/" +:+ path_text es +:+ q.

Lemma answer_confined (s : S) log j r :
  meant_request r ->
  exists s' j' o sent, answer (Upstream := watched) ((s, log), j) r = ((s', log ++ sent, j'), o)
    /\ Forall caused sent /\ (length sent <= 3)%nat.
Proof.
  intros (m & es & Hm & Hp & Hn).
  destruct (page_reaches env uuid url_origin resolve https host param param_plain r m es Hp Hn j) as (h & ps & Hs & Hd).
  set (request := arriving https host j ps r) in *. destruct (data_route_stays env h m es request Hd) as [Ha Hmost].
  unfold answer, site. rewrite Hs, run_logging. destruct (run s (h request)) as [[tr s'] out] eqn:Hrun.
  assert (Forall caused tr) as Hc.
  { pose proof (all_requests_trace _ _ s Ha) as Ht. unfold trace in Ht. rewrite Hrun in Ht. revert Ht. apply Forall_impl.
    intros x [->|(Hx & q & Hq & Hu)]; [left; by eexists|right]. by exists m, es, q. }
  pose proof (at_most_trace 3 _ s Hmost) as Hl. unfold trace in Hl. rewrite Hrun in Hl.
  destruct out as [resp|e]; by repeat eexists.
Qed.

(** [C5] What a page causes stays where it is meant to go: for a program whose
    requests are meant for some endpoints, run in a browser with whatever
    cookies against the site and any control plane, every request the control
    plane gets is one to those endpoints, with their methods, or the refresh
    of a token; and there are at most three for each request of the page. *)
Theorem page_stays_confined {A} (program : io A) (s : S) (log : list FetchRequest) (j : jar) :
  all_requests meant_request program ->
  exists s' sent j' tr out, run (up := watched) ((s, log), j) program = (tr, ((s', log ++ sent), j'), out)
    /\ Forall caused sent /\ (length sent <= 3 * length tr)%nat.
Proof.
  revert s log j. induction program as [a|e|r k IH]; intros s log j Ha.
  1,2: by exists s, [], j, []; eexists; rewrite app_nil_r; split_and!; [done|constructor|cbn; lia].
  destruct Ha as [Hr Hk]. destruct (answer_confined s log j r Hr) as (s1 & j1 & o & sent & Hans & Hc & Hl).
  destruct (IH o s1 (log ++ sent) j1 (Hk o)) as (s2 & sent2 & j2 & tr & out & Hrun & Hc2 & Hl2).
  exists s2, (sent ++ sent2), j2, (r :: tr), out. cbn [run]. rewrite Hans, Hrun. split_and!.
  - by rewrite app_assoc.
  - by apply Forall_app.
  - rewrite length_app. cbn [length]. lia.
Qed.
End Confined.

(** The dashboard only reads. *)
Definition read_only (m : string) (es : list seg) : Prop :=
  m = "GET" /\ es ∈ [[Lit "devices"]; [Lit "alerts"]; [Lit "commands"]; [Lit "audit"; Lit "events"]].

Lemma dashboard_reads_only {A} (program : io A) m es :
  (forall r, may_send program r -> fleet_sends r m es) -> read_only m es -> all_requests (meant_request read_only) program.
Proof.
  intros H He. apply may_send_all. intros r Hr. exists m, es.
  split_and!; [done|by apply by_fleet, H|]. intros x Hx. destruct He as [_ He].
  repeat (apply elem_of_cons in He as [->|He]; [by apply elem_of_nil in Hx|]). by apply elem_of_nil in He.
Qed.

(** ** A demonstration *)

Module EndToEndDemo.
Import Demo(env, reply) DashboardDemo(demo_pages, device_payload, read).

(** A control plane whose first token holds for one answer. *)
Definition page_answer (r : FetchRequest) : option FetchResponse :=
  match List.find (fun k => f_url r === controlPlaneApiUrl env (page_path k)) (seq 0 2) with
  | Some k => Some (reply 200 (device_payload (nth k demo_pages []) (Z.of_nat k + 1) 2))
  | None => Some (reply 404 [])
  end.

Definition plane : Upstream nat := fun s r =>
  if f_url r === controlPlaneApiUrl env "/token/refresh"
  then (2%nat, Some (reply 200 [("jwt", JStr "t2"); ("refresh_token", JStr "r2")]))
  else match own_get (f_headers r) "Authorization", s with
       | Some "Bearer t1", 0%nat => (1%nat, page_answer r)
       | Some "Bearer t2", _ => (s, page_answer r)
       | _, _ => (s, Some (reply 401 [("message", JStr "token expired")]))
       end.

Definition holds (s : nat) (jwt rt : string) : Prop :=
  match s with 0%nat | 1%nat => jwt = "t1" /\ rt = "r1" | _ => s = 2%nat /\ jwt = "t2" /\ rt = "r2" end.

Definition cookies : jar := {[ cookie_jwt := "t1"; cookie_refreshToken := "r1"; cookie_sessionId := "s1"; cookie_role := "admin" ]}.

Definition not_there : FetchResponse := {| status := 404; resp_headers := ∅; resp_body := None |}.
Definition broken : FetchResponse := {| status := 500; resp_headers := ∅; resp_body := None |}.

Lemma demo_quiet k rows : demo_pages !! k = Some rows -> quiet (JObj (device_payload rows (Z.of_nat k + 1) 2)).
Proof.
  intros Hk. destruct k as [|[|k]]; [injection Hk as <-..|done].
  all: split; [by repeat split|by repeat split].
Qed.

Abbreviation demo_site :=
  (site (up := plane) env "u" (fun _ => None) (fun _ _ => None) (fun s => s) true "ui.example" not_there broken).

Lemma plane_sends s jwt rt k rows : holds s jwt rt -> demo_pages !! k = Some rows ->
  exists v s' jwt' rt', (sends_json (up := plane) env s jwt (page_path k) v s' /\ jwt' = jwt /\ rt' = rt
                         \/ renews_and_sends (up := plane) env s jwt rt (page_path k) v s' jwt' rt')
    /\ holds s' jwt' rt' /\ device_page rows (Z.of_nat k + 1) (Z.of_nat (length demo_pages)) v /\ quiet v.
Proof.
  intros Hs Hk. exists (JObj (device_payload rows (Z.of_nat k + 1) 2)).
  assert (device_page rows (Z.of_nat k + 1) 2 (JObj (device_payload rows (Z.of_nat k + 1) 2))) as Hp by (repeat split).
  pose proof (demo_quiet k rows Hk) as Hq.
  assert (forall s, s = 2%nat -> sends_json (up := plane) env s "t2" (page_path k) (JObj (device_payload rows (Z.of_nat k + 1) 2)) s) as Hsend.
  { intros ? ->. destruct k as [|[|k]]; [injection Hk as <-..|discriminate Hk];
      (eexists; split; [vm_compute; reflexivity|split_and!; vm_compute; reflexivity]). }
  destruct s as [|[|s]]; cbn [holds] in Hs.
  - destruct Hs as [-> ->]. exists 1%nat, "t1", "r1". split_and!; [left|done..]. split_and!; [|done..].
    destruct k as [|[|k]]; [injection Hk as <-..|discriminate Hk];
      (eexists; split; [vm_compute; reflexivity|split_and!; vm_compute; reflexivity]).
  - destruct Hs as [-> ->]. exists 2%nat, "t2", "r2". split_and!; [right|done..].
    exists (reply 401 [("message", JStr "token expired")]), 1%nat, 2%nat. eexists. split_and!; [|done| | |by apply Hsend].
    + destruct k as [|[|k]]; [vm_compute; reflexivity..|discriminate Hk].
    + vm_compute. reflexivity.
    + eexists. split; [done|]. vm_compute. reflexivity.
  - destruct Hs as (Hs & -> & ->). injection Hs as ->. exists 2%nat, "t2", "r2".
    split_and!; [left; split_and!; [by apply Hsend|done..]|done..].
Qed.

(** Another tab asks for the first page before each request. *)
Definition other_tab (_ : nat) (w : nat * jar) : nat * jar := (answer (Upstream := demo_site) w (page_request 0)).1.

Lemma other_tab_keeps n w : ready holds w -> ready holds (other_tab n w).
Proof.
  intros Hw. destruct (page_is_served (up := plane) env "u" (fun _ => None) (fun _ _ => None) true "ui.example" not_there broken
    (fun s => s) (or_introl eq_refl) holds demo_pages plane_sends w 0 (nth 0 demo_pages []) eq_refl Hw eq_refl)
    as (w' & payload & (r & Ha & _) & Hw' & _).
  unfold other_tab, page_request. by rewrite Ha.
Qed.

Lemma fleet_end_to_end_witness :
  exists n s' j' jwt' rt',
    run (up := beside (up := plane) env "u" (fun _ => None) (fun _ _ => None) true "ui.example" not_there broken (fun s => s) other_tab)
      (0%nat, (0%nat, cookies)) (fetchDevices 2)
    = (map page_request (seq 0 2), (n, (s', j')), Ok (Some (concat (map read demo_pages))))
    /\ holds s' jwt' rt' /\ signed_in j' jwt' rt'.
Proof.
  apply (fleet_end_to_end (up := plane) env "u" (fun _ => None) (fun _ _ => None) true "ui.example" not_there broken (fun s => s)
           (or_introl eq_refl) holds demo_pages plane_sends other_tab other_tab_keeps) with (jwt := "t1") (rt := "r1").
  - repeat constructor.
  - intros [|[|k]] Hk Hr; cbn in Hk; try lia; done.
  - cbn. lia.
  - done.
  - done.
  - split_and!; [done..|]. by exists "s1".
Defined.

(** Reading the fleet, with the tokens that expire on the way. *)
Lemma page_stays_confined_witness :
  exists s' sent j' tr out,
    run (up := site (up := logging (up := plane)) env "u" (fun _ => None) (fun _ _ => None) (fun s => s) true "ui.example" not_there broken)
      ((0%nat, []), cookies) (fetchDevices 2) = (tr, ((s', [] ++ sent), j'), out)
    /\ Forall (caused env read_only) sent /\ (length sent <= 3 * length tr)%nat.
Proof.
  apply (page_stays_confined (up := plane) env "u" (fun _ => None) (fun _ _ => None) true "ui.example" not_there broken (fun s => s)
           (fun s _ => eq_refl) read_only (fetchDevices 2)).
  apply (dashboard_reads_only _ "GET" [Lit "devices"]); [apply fleet_pages|]. split; [done|left].
Defined.

(** A command without a second factor, whose code is left out. *)
Definition demo_command : obj :=
  [("client_message_id", JStr "m-1"); ("device_id", JStr "dev-1"); ("method", JStr "lock_screen"); ("params", JObj []);
   ("sensitive", JBool true); ("two_factor_code", JUndef)].

Lemma command_arrives_witness :
  exists text rest,
    serve env "u" (fun _ => None) (fun _ _ => None) (fun s => s) true "ui.example" cookies (Dispatching.command_request demo_command)
      = Some (Fetch (proxied_request env "/commands" (command_options text) "t1") rest)
    /\ (forall o, all_requests (fun r => (exists t, r = refresh_request env t)
                                 \/ exists t, r = proxied_request env "/commands" (command_options text) t) (rest o)
                  /\ at_most 2 (rest o))
    /\ arrives_as (defined demo_command) text.
Proof.
  apply (command_arrives env "u" (fun _ => None) (fun _ _ => None) true "ui.example" (fun s => s) demo_command cookies "t1");
    [by repeat split|done|done].
Defined.
End EndToEndDemo.
